(* ===== verification/_CoqProject ===== *)
-Q . S2P
Prelude.v
PhysMem.v
Bitmap.v
FrameAlloc.v
Paging.v
PageMap.v
InitMem.v
PageClone.v
Heap.v
Algorithm.v
Vector.v
LinkedList.v
SparseVector.v
RingBuffer.v
Event.v
Process.v
Scheduler.v
KernelPages.v
FileMeta.v
PipeDriver.v
InputDriver.v
SocketDriver.v
Utf.v
Fat.v
Ahci.v
Gpt.v
Vfs.v
ProcessLife.v
ForkMemory.v
ElfLoader.v
Stdio.v
UserHeap.v
UserString.v
AtExit.v
Random.v
Lcg.v
Renderer.v
Terminal.v
Ports.v
Serial.v
Pit.v
Rtc.v
Keyboard.v
Mouse.v
Spinlock.v
Acpi.v
Hpet.v
Pci.v
E1000.v
KernelDrivers.v
Programs.v
Syscalls.v
Interrupts.v
