(* ===== verification/Prelude.v ===== *)
(** * LensorOS kernel: a verification library

    LensorOS is a hobby operating system for x86_64. This library models the
    core of its kernel (src/kernel/src, with the containers of src/std/include)
    and the part of the C library (src/user/libc) through which programs use it,
    and proves what makes them correct.

    ** The program and the files

    The kernel is layered. Each file models one part, over the parts it calls:

    - [Prelude]: machine integers with their wrap-around ([+64], [-64], [*64]),
      the [outcome] monad and shared lemmas.
    - [PhysMem]: byte-addressed memory, memory.cpp ([memcpy], [memmove], ...).
    - [Bitmap], [FrameAlloc]: bitmap.h and memory/physical_memory_manager.cpp,
      the page frame allocator; class [FrameAllocator] is what page maps need.
    - [Paging], [PageMap], [PageClone]: memory/paging.h and
      memory/virtual_memory_manager.cpp: entries, [map], [unmap], cloning and
      freeing of four-level page maps kept in memory.
    - [InitMem]: [init_physical] and [init_virtual] of the two managers, which
      start from the memory map of the firmware (efi_memory.h).
    - [Heap]: memory/heap.cpp, over class [PageProvider]; [KernelPages] is the
      instance made of frame allocator, page mapper and scheduler.
    - [Algorithm], [Vector]: std/include/algorithm, on arrays with iterators as
      indices, and std/include/vector, on a store of buffers.  The other files
      have lists where the code has vectors, which [Vector] shows they implement
      as long as they are not copied and no range is inserted.
    - [LinkedList], [SparseVector], [RingBuffer]: linked_list.h,
      extensions_sparse_vector and extensions_ring_buffer.
    - [Event], [Process], [Scheduler]: event.h, event.cpp, scheduler.h and the
      queue and context switch of scheduler.cpp.
    - [FileMeta], [PipeDriver], [InputDriver], [SocketDriver]: file metadata and
      the drivers pipe.cpp, input.cpp and socket.cpp.
    - [Utf], [Fat]: utf.cpp, fat_definitions.h and file_allocation_table.cpp.
    - [Ahci], [Gpt]: ahci.h, port_controller.cpp, gpt.cpp and partition drivers.
    - [Vfs]: virtual_filesystem.cpp over class [Drivers]; [KernelDrivers] is the
      instance with all drivers and shows that it meets [DriverLaws].
    - [ProcessLife]: [Process::destroy], [remove_process] and
      [CopyUserspaceProcess] of scheduler.cpp; [ForkMemory] is what the latter
      does to memory.
    - [ElfLoader]: elf.h and elf_loader.h, over [Vfs] and the memory managers;
      [Programs] loads a program from a FAT volume.
    - [Syscalls]: the handlers of interrupts/syscalls.cpp over all of the above.
    - [Stdio]: the streams of user/libc/stdio.cpp, over class [Syscalls] of what
      a program asks of the kernel; [UserHeap]: the allocator of
      user/libc/stdlib.cpp; [UserString]: user/libc/string.cpp; [AtExit]: the
      functions called at exit of user/libc/abi.cpp.
    - [Ports]: io.cpp, over class [PortBus], and class [Mmio] for registers in
      memory. The drivers of devices run over them:
      [Serial] (uart.cpp), [Pit] and [Rtc] (pit.cpp, rtc.cpp), [Hpet] (hpet.cpp),
      [E1000] (the driver in e1000.cpp), [Mouse] (mouse.cpp).
    - [Renderer]: basic_renderer.cpp, drawing into framebuffers in memory;
      [Keyboard]: keyboard.cpp, scan codes and the text console, over it;
      [Terminal]: the program src/user/stdout, which shows what the shell writes.
    - [Acpi], [Pci]: acpi.cpp, and pci.cpp with [find_pci_devices] of kstage1.cpp,
      over [PageMap].
    - [Interrupts]: interrupts/idt.cpp and interrupts/interrupts.cpp: descriptor
      table, interrupt controllers, and the handlers of the devices over [Vfs]
      and the drivers; also the constructor of the network card's driver.
    - [Spinlock], [Random], [Lcg]: spinlock.cpp, random_lfsr.cpp, random_lcg.cpp.

    ** How code becomes definitions

    Names are those of the source. A [u64] is a [Z] and every operation that can
    leave its range wraps. An object on the kernel's heap is an entry of a finite
    map from addresses ([Store.store], the nodes of a list, the processes of a
    scheduler): a [new] takes an unused address, a [delete] removes the entry and
    a later access is [Stop Undefined]. Page tables and transfer buffers are in
    byte-addressed memory. An operation takes the state and returns
    [Done (result, state)] or [Stop] with the reason: [Undefined] for undefined
    behaviour, [Panicked] where the kernel calls [panic] and then [hang], or a
    program aborts, and [Hung] for a loop that does not end. [panic] alone only
    prints and returns, so that the code after it is modelled.
    Printing is not modelled. Interrupts are off while the kernel runs, so the
    handlers are sequential; interleaving of processes is that of their calls, and
    only [Spinlock] has threads that interleave. A driver is a program over a
    state of hardware ([io]): each access to a port or register passes that state
    on, so that devices may change between two accesses.

    A loop the source writes with a condition is a [Fixpoint] with fuel, given
    by the caller as a bound the loop cannot exceed (the number of nodes of the
    queue, of pages, of heap segments, ...). The theorems show the bound suffices: they
    conclude [Done], so running out of fuel is excluded.

    ** What is shown

    - Frames: [request_page] and [request_pages] return the lowest free page or
      run, or null when there is none; no client ever holds a page twice.
    - Page maps: [map] makes exactly one page translate and keeps the tables a
      tree of owned frames; unmapping undoes it; clones are exact copies in
      fresh frames; freeing gives back exactly the frames of the map.
    - Boot: the allocator starts with exactly the conventional memory that is
      outside the pages counted for the bitmap (rounded up) and the kernel (rounded
      down); the first page map covers all memory, address
      zero included, which the code means to leave out.
    - Heap: [malloc] terminates and adds one block, [free] removes one; the
      blocks held in any state that calls can reach never overlap; aligned allocation is released by its counterpart.
    - Containers refine a sequence, a finite map and a queue; a vector is the
      list that its operations give, copies and inserted ranges apart, and leaves
      nothing in the heap; [sort] sorts,
      [erase_if] filters, [compact] closes holes.
    - Scheduler: the switch is round robin and every running process gets its
      turn, or the machine stops at floating-point bytes the processor refuses, which
      an area that is not aligned to 512 bytes may give it; identifiers are fresh.
    - Files: descriptor operations refine a map from (process, descriptor) to
      files; metadata lives exactly while a descriptor or a read that waited refers
      to it; no table entry is without a descriptor; pipes are queues that
      never share a buffer; sockets deliver in order.
    - FAT: opening a path is the lookup of its components, in directories of one
      cluster without deleted entries; exactly the volumes that pass the listed
      checks are taken for FAT, and their clusters have sectors of their own; names
      of 9 to 12 bytes survive translation.
    - Disks: a port read returns the bytes of the disk, an unaligned write
      changes exactly its bytes; reserved partitions are left alone.
    - Processes and system calls: exit releases everything the process had and
      nothing else; waiting processes get the exit status; a fork copies
      descriptors, registers and memory, into frames of its own; pipes carry bytes between descriptors;
      mapped memory is released by [unmap]; [seek] stays within the file.
    - Programs: segments are found at their addresses with their permissions, the
      stack holds arguments and environment, the old program is given up, other
      files are refused.
    - Streams: bytes reach the descriptor in order in every buffering mode, or the
      stream shows an error; if writes are taken whole, exit flushes every stream, [fprintf] prints what [sprintf] stores, [fgetc] gives
      the file in order; reads beyond the read buffer lose bytes.
    - The heap of a program: blocks a program holds never overlap, [realloc] keeps
      the contents, a block that is not held is not freed.
    - Discovery: the table with a signature is found if its checksum is right;
      every AHCI controller and network card on the buses of the MCFG table
      becomes a device, with its page mapped and nothing else written.
    - Interrupts: an installed handler is found, masks are a set of lines and
      survive the remapping; keys reach the standard input of the first process
      in order and as printed on the keys, and each interrupt is acknowledged.
    - Network card: a packet sent on an idle ring gives its pages back, the MAC address is that
      of the EEPROM, the transmit ring is set up as sending needs it.
    - Clocks: the time of the real-time clock and the counter of the event timer
      are read as of one moment; a channel gets its divisor; [wait] waits.
    - Screen: drawing never leaves the framebuffer, a cursor leaves no trace, what
      is swapped is shown; typing and the mouse stay on the screen whatever the
      devices send.
    - Terminal: numbers in hexadecimal are read back as they are printed; as long
      as lines fit, nothing is written but the screen and the cells of the buffer
      of characters, for most of which no memory is allocated.
    - Serial output goes out in order; the shift register never stops.
    - Some theorems show what the code does where it fails: a deleted directory
      entry hangs the iterator, aligned writes store stale bytes, [exit] reads
      a freed node of the queue, spinlocks do not exclude, a wrapped ring of the
      network card is not reclaimed, the event timer is not started; [max] is
      [min], a copied vector overruns its buffer, [reverse] of an odd number of
      elements runs out of the range; a read that waits keeps its file for ever, a
      short write is repeated.

    ** Hypotheses

    Code outside src/ is a parameter: the disk behind an AHCI port ([AtaDevice],
    [AtaLaws]), storage devices below FAT ([StorageDevices]), the address [new]
    gives a process, where the linker ends the kernel, which bytes the processor takes
    as a floating-point state ([fx_unit]). Streams are verified against descriptors that
    take bytes in order, not necessarily all of a write ([SinkLaws]), or give them
    ([SourceLaws]). The loader is verified against a file that can be read ([executable]), which files of the FAT driver
    are. Drivers of devices are verified against what the hardware documents say of
    its registers: [Transmitter] for the serial chip, [ClockDevice] and [Timer] for
    the clocks, [Chips] for the interrupt controllers, [KeySource] for the keyboard,
    [NicRegs] and [Eeprom] for the network card; configuration space and firmware
    tables are memory in pages that are neither free nor page tables. Each class has
    an instance that shows its laws can hold.

    ** Not modelled

    The order of start-up, the probing of ports and the mounting of what is found
    (the rest of kstage1.cpp), the boot loader and gnu-efi, the constructor of the
    renderer, the handlers of faults, which print and stop, the segment tables, the
    names of PCI devices and all debug printers, the formatting library, strings,
    smart pointers and the hash map of src/std/include, the rest of the C library,
    and the programs of src/user but for the terminal. *)

From Stdlib Require Export ZArith Lia Bool.
From stdpp Require Export base numbers list gmap strings.

#[global] Open Scope Z_scope.

(** ** Machine integers

    A [u64] of the kernel is a [Z]; every operation that can leave the range
    [0, 2^64) is written with its wrap-around. *)

Definition wrap64 (z : Z) : Z := z mod 2 ^ 64.

(** Narrower unsigned types. *)
Definition wrap8 (z : Z) : Z := z mod 2 ^ 8.
Definition wrap16 (z : Z) : Z := z mod 2 ^ 16.
Definition wrap32 (z : Z) : Z := z mod 2 ^ 32.

Declare Scope u64_scope.
Delimit Scope u64_scope with u64.

Notation "a '+64' b" := (wrap64 (a + b)) (at level 50, left associativity) : u64_scope.
Notation "a '-64' b" := (wrap64 (a - b)) (at level 50, left associativity) : u64_scope.
Notation "a '*64' b" := (wrap64 (a * b)) (at level 40, left associativity) : u64_scope.
Notation "'not64' a" := (Z.ldiff (2 ^ 64 - 1) a) (at level 35, right associativity) : u64_scope.

#[global] Open Scope u64_scope.

(** The range predicate of an unsigned 64-bit value. *)
Definition is_u64 (z : Z) : Prop := 0 <= z < 2 ^ 64.

(** [PAGE_SIZE] of memory/common.h. *)
Definition PAGE_SIZE : Z := 4096.
Definition KiB (x : Z) : Z := wrap64 (Z.shiftl x 10).
Definition MiB (x : Z) : Z := wrap64 (Z.shiftl x 20).

(** ** Outcomes

    A kernel operation either finishes with a value or stops: it called
    [panic] and then [hang], it called [hang] or ran for ever, or it used a
    pointer or index that is not valid (undefined behaviour of the source
    language). *)

Inductive stop := Panicked | Hung | Undefined.

Inductive outcome (A : Type) :=
| Done (a : A)
| Stop (s : stop).
Arguments Done {A} a.
Arguments Stop {A} s.

#[export] Instance stop_eq_dec : EqDecision stop.
Proof. solve_decision. Defined.

#[export] Instance outcome_ret : MRet outcome := fun A a => Done a.
#[export] Instance outcome_bind : MBind outcome := fun A B f m =>
  match m with
  | Done a => f a
  | Stop s => Stop s
  end.

(** A pointer or index that must be valid: [None] is undefined behaviour. *)
Definition deref {A} (o : option A) : outcome A :=
  match o with
  | Some a => Done a
  | None => Stop Undefined
  end.

(** [for (u64 i = start; count times; ++i) body(i)], threading a state. *)
Fixpoint for_loop {S} (count : nat) (i : Z) (body : Z -> S -> S) (s : S) : S :=
  match count with
  | O => s
  | S n => for_loop n (i + 1) body (body i s)
  end.

(** The same loop with a body that can stop. *)
Fixpoint for_loopM {S} (count : nat) (i : Z) (body : Z -> S -> outcome S) (s : S) : outcome S :=
  match count with
  | O => Done s
  | S n => body i s ≫= for_loopM n (i + 1) body
  end.

(** ** Tactics and hint databases *)

Create HintDb lensor.
Create HintDb u64.
Create Rewrite HintDb u64rw.

(** Case analysis on every boolean comparison of the goal or the context. *)
Ltac zcases :=
  repeat match goal with
  | |- context [?a =? ?b] => destruct (Z.eqb_spec a b)
  | |- context [?a <? ?b] => destruct (Z.ltb_spec a b)
  | |- context [?a <=? ?b] => destruct (Z.leb_spec a b)
  | H : context [?a =? ?b] |- _ => destruct (Z.eqb_spec a b)
  | H : context [?a <? ?b] |- _ => destruct (Z.ltb_spec a b)
  | H : context [?a <=? ?b] |- _ => destruct (Z.leb_spec a b)
  end.

(** Division and remainder by a constant, then linear arithmetic. *)
Ltac dlia := Z.div_mod_to_equations; lia.

(** Splits an [outcome] bind that is known to have finished. *)
Ltac done_inv H :=
  let a := fresh "r" in
  let E := fresh "E" in
  match type of H with
  | mbind _ ?m = Done _ => destruct m as [a | ?] eqn:E; cbn [mbind outcome_bind] in H; [| discriminate H]
  end.

(** ** Arithmetic lemmas *)

Lemma wrap64_small z : is_u64 z -> wrap64 z = z.
Proof. apply Z.mod_small. Qed.

Lemma wrap64_range z : is_u64 (wrap64 z).
Proof. apply Z.mod_pos_bound. lia. Qed.

Lemma wrap64_idem z : wrap64 (wrap64 z) = wrap64 z.
Proof. apply wrap64_small, wrap64_range. Qed.

Lemma wrap64_add_l a b : wrap64 (wrap64 a + b) = wrap64 (a + b).
Proof. apply Zplus_mod_idemp_l. Qed.

Lemma wrap64_add_r a b : wrap64 (a + wrap64 b) = wrap64 (a + b).
Proof. apply Zplus_mod_idemp_r. Qed.

Lemma wrap64_sub_l a b : wrap64 (wrap64 a - b) = wrap64 (a - b).
Proof. apply Zminus_mod_idemp_l. Qed.

Lemma wrap64_sub_r a b : wrap64 (a - wrap64 b) = wrap64 (a - b).
Proof. apply Zminus_mod_idemp_r. Qed.

#[export] Hint Resolve wrap64_range : lensor u64.
#[export] Hint Rewrite wrap64_idem wrap64_add_l wrap64_add_r wrap64_sub_l wrap64_sub_r : u64rw.

Lemma if_same {A} (b : bool) (x : A) : (if b then x else x) = x.
Proof. by destruct b. Qed.

(** Bit operations stay below a power of two. *)
Lemma lor_below n a b : 0 <= n -> 0 <= a < 2 ^ n -> 0 <= b < 2 ^ n -> 0 <= Z.lor a b < 2 ^ n.
Proof.
  intros Hn Ha Hb. rewrite <-(Z.mod_small a (2 ^ n) Ha), <-(Z.mod_small b (2 ^ n) Hb), <-!Z.land_ones, <-Z.land_lor_distr_l, Z.land_ones by lia.
  apply Z.mod_pos_bound. lia.
Qed.

Lemma ldiff_below n a b : 0 <= n -> 0 <= a < 2 ^ n -> 0 <= Z.ldiff a b < 2 ^ n.
Proof.
  intros Hn Ha. rewrite <-(Z.mod_small a (2 ^ n) Ha), <-Z.land_ones by lia.
  rewrite Z.ldiff_land, <-Z.land_assoc, (Z.land_comm (Z.ones n)), Z.land_assoc, Z.land_ones by lia. apply Z.mod_pos_bound. lia.
Qed.

(** Setting bits in the zeroes below a shifted value. *)
Lemma lor_shiftl_add a b n : 0 <= n -> 0 <= b < 2 ^ n -> Z.lor (Z.shiftl a n) b = a * 2 ^ n + b.
Proof.
  intros Hn Hb. rewrite <- Z.shiftl_mul_pow2 by done.
  assert (E : Z.land (Z.shiftl a n) b = 0).
  { apply Z.bits_inj'. intros i Hi. rewrite Z.land_spec, Z.shiftl_spec, Z.bits_0 by done.
    destruct (Z.lt_ge_cases i n); [by rewrite Z.testbit_neg_r by lia|].
    rewrite <- (Z.mod_small b (2 ^ n)) by done. rewrite Z.mod_pow2_bits_high by lia.
    apply andb_false_r. }
  rewrite <- Z.lxor_lor, <- Z.add_nocarry_lxor; done.
Qed.
