(* ===== verification/PhysMem.v ===== *)
(** * Byte-addressed memory and the kernel's mem* routines

    Models src/kernel/src/memory.cpp.  The kernel runs with all of physical
    memory identity-mapped, so one byte-addressed memory serves for physical
    addresses and for the kernel pointers that refer to them.  A cell holds
    eight bits: reads are taken modulo 256. *)

From S2P Require Import Prelude.

Definition mem : Type := Z -> Z.

Definition read8 (m : mem) (a : Z) : Z := m a mod 256.

Definition write8 (m : mem) (a v : Z) : mem :=
  fun x => if x =? a then v mod 256 else m x.

(** Little-endian access to [n] consecutive bytes. *)
Fixpoint read_le (n : nat) (m : mem) (a : Z) : Z :=
  match n with
  | O => 0
  | S n' => read8 m a + 256 * read_le n' m (a + 1)
  end.

Fixpoint write_le (n : nat) (m : mem) (a v : Z) : mem :=
  match n with
  | O => m
  | S n' => write8 (write_le n' m (a + 1) (v / 256)) a v
  end.

Definition read64 (m : mem) (a : Z) : Z := read_le 8 m a.
Definition write64 (m : mem) (a v : Z) : mem := write_le 8 m a v.

(** Assignment of an object of [n] bytes through two pointers: the source is
    read as a whole, then stored. *)
Definition copy_object (n : Z) (m : mem) (dest src : Z) : mem :=
  fun x => if (dest <=? x) && (x <? dest + n) then m (x - dest + src) else m x.

Module MemRoutines.

(** One of the [for (; i <= numBytes - chunk; i += chunk)] loops of [memcpy];
    returns the index it stopped at with the memory. *)
Fixpoint copy_loop (fuel : nat) (chunk num dest src i : Z) (m : mem) : Z * mem :=
  match fuel with
  | O => (i, m)
  | S f =>
      if i <=? num - chunk
      then copy_loop f chunk num dest src (i + chunk) (copy_object chunk m (dest + i) (src + i))
      else (i, m)
  end.

Definition memcpy (dest src num : Z) (m : mem) : mem :=
  if src =? dest then m
  else
    let fuel := Z.to_nat num in
    let '(i, m) := copy_loop fuel 2048 num dest src 0 m in
    let '(i, m) := copy_loop fuel 128 num dest src i m in
    let '(i, m) := copy_loop fuel 32 num dest src i m in
    let '(i, m) := copy_loop fuel 8 num dest src i m in
    snd (copy_loop fuel 1 num dest src i m).

(** The eight shifted copies of [value] that [memset] stores at a time. *)
Definition qWordValue (value : Z) : Z :=
  let v := 0 in
  let v := Z.lor v (Z.shiftl value 0) in
  let v := Z.lor v (Z.shiftl value 8) in
  let v := Z.lor v (Z.shiftl value 16) in
  let v := Z.lor v (Z.shiftl value 24) in
  let v := Z.lor v (Z.shiftl value 32) in
  let v := Z.lor v (Z.shiftl value 40) in
  let v := Z.lor v (Z.shiftl value 48) in
  Z.lor v (Z.shiftl value 56).

Fixpoint set_qwords (fuel : nat) (start q num i : Z) (m : mem) : mem :=
  match fuel with
  | O => m
  | S f => if i <=? num - 8 then set_qwords f start q num (i + 8) (write64 m (start + i) q) else m
  end.

Fixpoint set_bytes (fuel : nat) (start value num i : Z) (m : mem) : mem :=
  match fuel with
  | O => m
  | S f => if i <? num then set_bytes f start value num (i + 1) (write8 m (start + i) value) else m
  end.

Definition memset (start value num : Z) (m : mem) : mem :=
  let m :=
    if 256 <=? num then set_qwords (Z.to_nat num) start (qWordValue value) num 0 m else m in
  set_bytes (Z.to_nat num) start value num 0 m.

(** [for (usz i = num; i; --i) dst[i-1] = src[i-1]] *)
Fixpoint move_back (i : nat) (dst src : Z) (m : mem) : mem :=
  match i with
  | O => m
  | S j => move_back j dst src (write8 m (dst + Z.of_nat j) (read8 m (src + Z.of_nat j)))
  end.

Definition memmove (dst src num : Z) (m : mem) : mem :=
  if (num =? 0) || (src =? dst) then m
  else if dst <? src then memcpy dst src num m
  else move_back (Z.to_nat num) dst src m.

Fixpoint cmp_loop (num : nat) (a b : Z) (m : mem) : Z :=
  match num with
  | O => 0
  | S n => if read8 m a =? read8 m b then cmp_loop n (a + 1) (b + 1) m else 1
  end.

Definition memcmp (a b num : Z) (m : mem) : Z :=
  if a =? b then 0 else cmp_loop (Z.to_nat num) a b m.

End MemRoutines.

Import MemRoutines.

(** ** Memory lemmas *)

Lemma read8_range m a : 0 <= read8 m a < 256.
Proof. apply Z.mod_pos_bound. lia. Qed.

Lemma read8_write8_eq m a v : read8 (write8 m a v) a = v mod 256.
Proof. unfold read8, write8. rewrite Z.eqb_refl. apply Z.mod_mod. lia. Qed.

Lemma read8_write8_ne m a b v : a ≠ b -> read8 (write8 m b v) a = read8 m a.
Proof. intros H. unfold read8, write8. by rewrite (proj2 (Z.eqb_neq a b)). Qed.

Lemma read_le_ext n m1 m2 a :
  (forall k, 0 <= k < Z.of_nat n -> read8 m1 (a + k) = read8 m2 (a + k)) ->
  read_le n m1 a = read_le n m2 a.
Proof.
  revert a. induction n as [|n IH]; intros a H; [done|]. cbn [read_le].
  rewrite <- (Z.add_0_r a) at 1 3. rewrite (H 0) by lia. f_equal. f_equal.
  apply IH. intros k Hk. rewrite <- Z.add_assoc. apply H. lia.
Qed.

Lemma read_le_inj n m1 m2 a :
  read_le n m1 a = read_le n m2 a -> forall k, 0 <= k < Z.of_nat n -> read8 m1 (a + k) = read8 m2 (a + k).
Proof.
  revert a. induction n as [|n IH]; intros a H k Hk; [lia|]. cbn [read_le] in H.
  pose proof (read8_range m1 a). pose proof (read8_range m2 a).
  destruct (decide (k = 0)) as [->|]; [rewrite !Z.add_0_r; lia|].
  replace (a + k) with (a + 1 + (k - 1)) by lia. apply IH; lia.
Qed.

Lemma read_le_range n m a : 0 <= read_le n m a < 256 ^ Z.of_nat n.
Proof.
  revert a. induction n as [|n IH]; intros a; [cbn; lia|].
  cbn [read_le]. rewrite Nat2Z.inj_succ, Z.pow_succ_r by lia.
  specialize (IH (a + 1)). pose proof (read8_range m a). lia.
Qed.

Lemma read64_range m a : is_u64 (read64 m a).
Proof. apply (read_le_range 8). Qed.

Lemma write_le_frame n m a v x :
  x < a \/ a + Z.of_nat n <= x -> read8 (write_le n m a v) x = read8 m x.
Proof.
  revert a v. induction n as [|n IH]; intros a v H; [done|]. cbn [write_le].
  rewrite read8_write8_ne by lia. apply IH. lia.
Qed.

Lemma read_write_le n m a v : read_le n (write_le n m a v) a = v mod 256 ^ Z.of_nat n.
Proof.
  revert a v. induction n as [|n IH]; intros a v; [cbn; by rewrite Z.mod_1_r|].
  cbn [write_le read_le]. rewrite read8_write8_eq.
  rewrite (read_le_ext n _ (write_le n m (a + 1) (v / 256)) (a + 1)), IH.
  - rewrite Nat2Z.inj_succ, Z.pow_succ_r by lia.
    rewrite Z.rem_mul_r by lia. lia.
  - intros k Hk. apply read8_write8_ne. lia.
Qed.

Lemma read_write_other n k m a b v : b + Z.of_nat k <= a \/ a + Z.of_nat n <= b -> read_le k (write_le n m a v) b = read_le k m b.
Proof. intros Hd. apply read_le_ext. intros i Hi. apply write_le_frame. lia. Qed.

Lemma read64_write64_eq m a v : is_u64 v -> read64 (write64 m a v) a = v.
Proof. intros H. unfold read64, write64. rewrite read_write_le. apply Z.mod_small, H. Qed.

(** Reads of a word that does not overlap the written one. *)
Lemma read64_write64_ne m a b v : 8 <= Z.abs (a - b) -> read64 (write64 m b v) a = read64 m a.
Proof. intros H. apply read_le_ext. intros k Hk. apply write_le_frame. lia. Qed.

#[export] Hint Resolve read64_range read8_range : lensor.

(** ** Correctness of the mem* routines *)

Section Copy.
Context (m0 : mem) (dest src num : Z).
Hypothesis Hdir : dest <= src \/ src + num <= dest.

Let after (i : Z) (m : mem) : Prop := forall x, m x = copy_object i m0 dest src x.

Lemma copy_object_step chunk i m :
  0 <= i -> 0 < chunk -> i + chunk <= num -> after i m ->
  after (i + chunk) (copy_object chunk m (dest + i) (src + i)).
Proof.
  intros Hi Hc Hle Hm x. unfold after, copy_object in *. rewrite !Hm.
  zcases; cbn; try lia; f_equal; lia.
Qed.

Lemma copy_loop_correct fuel chunk i m :
  0 <= i <= num -> 0 < chunk -> num - i <= Z.of_nat fuel -> after i m ->
  let '(i', m') := copy_loop fuel chunk num dest src i m in
  i <= i' <= num /\ num - i' < chunk /\ after i' m'.
Proof.
  revert i m. induction fuel as [|fuel IH]; intros i m Hi Hc Hf Hm; cbn [copy_loop].
  { split_and!; [lia..|done]. }
  destruct (Z.leb_spec i (num - chunk)) as [Hle|Hgt].
  - specialize (IH (i + chunk) (copy_object chunk m (dest + i) (src + i))).
    destruct (copy_loop _ _ _ _ _ _ _) as [i' m'].
    destruct IH as (?&?&?); [lia..| |].
    + apply copy_object_step; [lia..|done].
    + split_and!; [lia..|done].
  - split_and!; [lia..|done].
Qed.

End Copy.

Lemma memcpy_correct dest src num m x :
  0 <= num -> dest <= src \/ src + num <= dest ->
  memcpy dest src num m x = copy_object num m dest src x.
Proof.
  intros Hn Hdir. unfold memcpy.
  destruct (Z.eqb_spec src dest) as [->|Hne].
  { unfold copy_object. zcases; cbn; try done. f_equal. lia. }
  assert (Hstart : forall y, m y = copy_object 0 m dest src y).
  { intros y. unfold copy_object. zcases; cbn; try done; lia. }
  pose proof (copy_loop_correct m dest src num Hdir (Z.to_nat num)) as Hl.
  pose proof (Hl 2048 0 m) as L1.
  destruct (copy_loop _ 2048 _ _ _ _ _) as [i1 m1]. destruct L1 as (?&?&A1); [lia..|done|].
  pose proof (Hl 128 i1 m1) as L2.
  destruct (copy_loop _ 128 _ _ _ _ _) as [i2 m2]. destruct L2 as (?&?&A2); [lia..|done|].
  pose proof (Hl 32 i2 m2) as L3.
  destruct (copy_loop _ 32 _ _ _ _ _) as [i3 m3]. destruct L3 as (?&?&A3); [lia..|done|].
  pose proof (Hl 8 i3 m3) as L4.
  destruct (copy_loop _ 8 _ _ _ _ _) as [i4 m4]. destruct L4 as (?&?&A4); [lia..|done|].
  pose proof (Hl 1 i4 m4) as L5.
  destruct (copy_loop _ 1 _ _ _ _ _) as [i5 m5]. destruct L5 as (?&?&A5); [lia..|done|].
  cbn. rewrite A5. by replace i5 with num by lia.
Qed.

Lemma memcpy_read8 dest src num m z : 0 <= num -> dest + num <= src \/ src + num <= dest ->
  read8 (memcpy dest src num m) z = if decide (dest <= z < dest + num) then read8 m (z - dest + src) else read8 m z.
Proof.
  intros Hn Hd. unfold read8. rewrite memcpy_correct by lia. unfold copy_object. destruct (decide (dest <= z < dest + num)) as [[H1 H2]|H].
  - by rewrite (proj2 (Z.leb_le _ _) H1), (proj2 (Z.ltb_lt _ _) H2).
  - destruct (Z.leb_spec dest z), (Z.ltb_spec z (dest + num)); cbn [andb]; [lia|done..].
Qed.

Lemma move_back_correct i dst src m x :
  src <= dst ->
  read8 (move_back i dst src m) x = read8 (copy_object (Z.of_nat i) m dst src) x.
Proof.
  intros Hd. revert m. induction i as [|i IH]; intros m; cbn [move_back].
  { unfold copy_object, read8. zcases; cbn; try done; lia. }
  rewrite IH. unfold copy_object, read8, write8.
  zcases; cbn; try done; try lia; rewrite ?Z.mod_mod by lia; f_equal; f_equal; lia.
Qed.

(** The eight-byte stores of [memset] stay inside the destination. *)
Lemma set_qwords_frame fuel start q num i m x :
  0 <= i -> x < start + i \/ start + num <= x ->
  read8 (set_qwords fuel start q num i m) x = read8 m x.
Proof.
  revert i m. induction fuel as [|fuel IH]; intros i m Hi Hx; cbn [set_qwords]; [done|].
  destruct (Z.leb_spec i (num - 8)); [|done].
  rewrite IH by lia. apply write_le_frame. lia.
Qed.

Lemma set_bytes_correct fuel start value num i m x :
  0 <= value < 256 -> 0 <= i -> num - i <= Z.of_nat fuel ->
  read8 (set_bytes fuel start value num i m) x =
  if (start + i <=? x) && (x <? start + num) then value else read8 m x.
Proof.
  intros Hv. revert i m. induction fuel as [|fuel IH]; intros i m Hi Hf; cbn [set_bytes].
  { zcases; cbn; done || lia. }
  destruct (Z.ltb_spec i num).
  - rewrite IH by lia. unfold read8, write8. zcases; cbn; try lia; try done.
    rewrite Z.mod_mod by lia. apply Z.mod_small. lia.
  - zcases; cbn; done || lia.
Qed.

Lemma memset_correct start value num m x :
  0 <= value < 256 -> 0 <= num ->
  read8 (memset start value num m) x =
  if (start <=? x) && (x <? start + num) then value else read8 m x.
Proof.
  intros Hv Hn. unfold memset. rewrite set_bytes_correct, Z.add_0_r by lia.
  destruct (Z.leb_spec 256 num); [|done].
  destruct ((start <=? x) && (x <? start + num)) eqn:E; [done|].
  apply set_qwords_frame; [lia|]. zcases; cbn in *; lia || done.
Qed.

Lemma cmp_loop_correct num a b m :
  (cmp_loop num a b m = 0 /\
   forall k, 0 <= k < Z.of_nat num -> read8 m (a + k) = read8 m (b + k)) \/
  (cmp_loop num a b m = 1 /\
   exists k, 0 <= k < Z.of_nat num /\ read8 m (a + k) ≠ read8 m (b + k)).
Proof.
  revert a b. induction num as [|num IH]; intros a b; cbn [cmp_loop].
  { left. split; [done|lia]. }
  destruct (Z.eqb_spec (read8 m a) (read8 m b)) as [E|E].
  - destruct (IH (a + 1) (b + 1)) as [[-> Hall]|[-> (k & Hk & Hne)]].
    + left. split; [done|]. intros k Hk. destruct (decide (k = 0)) as [->|?].
      * by rewrite !Z.add_0_r.
      * specialize (Hall (k - 1)). rewrite <- !Z.add_assoc in Hall.
        replace (1 + (k - 1)) with k in Hall by lia. apply Hall. lia.
    + right. split; [done|]. exists (k + 1). split; [lia|].
      by rewrite <- !Z.add_assoc, (Z.add_comm 1 k) in Hne.
  - right. split; [done|]. exists 0. rewrite !Z.add_0_r. split; [lia|done].
Qed.

(** ** Claims *)

(** [memmove] copies every byte of the source to the destination as the
    source was before the call, however the two ranges overlap, and changes no
    byte outside the destination. *)
Theorem memmove_copies_any_overlap dst src num m x :
  0 <= num ->
  read8 (memmove dst src num m) x =
  if (dst <=? x) && (x <? dst + num) then read8 m (x - dst + src) else read8 m x.
Proof.
  intros Hn.
  assert (Hobj : read8 (copy_object num m dst src) x =
                 if (dst <=? x) && (x <? dst + num) then read8 m (x - dst + src) else read8 m x)
    by (unfold read8, copy_object; by destruct (_ && _)).
  unfold memmove. destruct (Z.eqb_spec num 0) as [->|]; cbn [orb]; [zcases; cbn; (done || lia)|].
  destruct (Z.eqb_spec src dst) as [->|].
  { zcases; cbn; try done. f_equal. lia. }
  destruct (Z.ltb_spec dst src).
  - rewrite <- Hobj. unfold read8. f_equal. apply memcpy_correct; lia.
  - rewrite move_back_correct, Z2Nat.id by lia. exact Hobj.
Qed.

(** Four bytes moved up by one and down by one inside themselves. *)
Lemma memmove_copies_any_overlap_witness :
  let m := fun a => a in
  read8 (memmove 11 10 4 m) 12 = read8 m 11 /\ read8 (memmove 10 11 4 m) 12 = read8 m 13.
Proof.
  split.
  - rewrite (memmove_copies_any_overlap 11 10 4 (fun a => a) 12) by lia. reflexivity.
  - rewrite (memmove_copies_any_overlap 10 11 4 (fun a => a) 12) by lia. reflexivity.
Defined.

(** [memcmp] returns 0 exactly when the two ranges hold the same bytes, and 1
    otherwise. *)
Theorem memcmp_decides_equality a b num m :
  0 <= num ->
  (memcmp a b num m = 0 \/ memcmp a b num m = 1) /\
  (memcmp a b num m = 0 <-> forall k, 0 <= k < num -> read8 m (a + k) = read8 m (b + k)).
Proof.
  intros Hn. unfold memcmp. destruct (Z.eqb_spec a b) as [->|Hne]; [split; [by left|done]|].
  destruct (cmp_loop_correct (Z.to_nat num) a b m) as [[E H]|[E (k & Hk & H)]]; rewrite E;
    rewrite ?Z2Nat.id in * by lia; (split; [auto|]).
  - done.
  - split; [done|]. intros Hall. by destruct H; apply Hall.
Qed.

Lemma memcmp_decides_equality_witness :
  let m := fun a => a mod 7 in
  (memcmp 3 10 20 m = 0 \/ memcmp 3 10 20 m = 1) /\
  (memcmp 3 10 20 m = 0 <-> forall k, 0 <= k < 20 -> read8 m (3 + k) = read8 m (10 + k)).
Proof. apply (memcmp_decides_equality 3 10 20); lia. Defined.
