(* ===== verification/Bitmap.v ===== *)
(** * The page bitmap

    Models class [Bitmap] of src/kernel/src/bitmap.h and bitmap.cpp.  The
    object owns the bytes its [Buffer] pointer designates: [Buffer] is the list
    of those bytes and [Base] is the pointer itself ([base()]).  [Size] is a
    number of bytes; the bit of index [i] is bit [7 - i mod 8] of byte
    [i / 8]. *)

From S2P Require Import Prelude.

Module Bits.

Record Bitmap := mkBitmap {
  Size : Z;
  Base : Z;
  Buffer : list Z
}.

(** [Bitmap::init] and the two-argument constructor: the buffer is zeroed. *)
Definition init (size bufferAddress : Z) : Bitmap :=
  mkBitmap size bufferAddress (replicate (Z.to_nat size) 0).

Definition length (b : Bitmap) : Z := Size b.
Definition base (b : Bitmap) : Z := Base b.

Definition bitIndexer (index : Z) : Z := Z.shiftr 128 (index mod 8).

(** [Buffer[i]], for an index the callers have checked against [Size]. *)
Definition byte (b : Bitmap) (i : Z) : Z := default 0 (Buffer b !! Z.to_nat i).

Definition get (b : Bitmap) (index : Z) : bool :=
  let byteIndex := index / 8 in
  if Size b <=? byteIndex then false
  else 0 <? Z.land (byte b byteIndex) (bitIndexer index).

Definition set (b : Bitmap) (index : Z) (value : bool) : Bitmap * bool :=
  let byteIndex := index / 8 in
  if Size b <=? byteIndex then (b, false)
  else
    let v := Z.ldiff (byte b byteIndex) (bitIndexer index) in
    let v := if value then Z.lor v (bitIndexer index) else v in
    (mkBitmap (Size b) (Base b) (<[Z.to_nat byteIndex := v]> (Buffer b)), true).

(** Well-formed: the buffer has [Size] bytes. *)
Definition bitmap_wf (b : Bitmap) : Prop :=
  0 <= Size b /\ Z.of_nat (List.length (Buffer b)) = Size b /\
  Forall (fun v => 0 <= v < 256) (Buffer b).

(** ** Lemmas *)

Lemma bitIndexer_pow index : bitIndexer index = 2 ^ (7 - index mod 8).
Proof.
  unfold bitIndexer. pose proof (Z.mod_pos_bound index 8 ltac:(lia)) as H.
  rewrite Z.shiftr_div_pow2 by lia. change 128 with (2 ^ 7).
  by rewrite <- Z.pow_sub_r by lia.
Qed.

Lemma land_pow2_testbit v k : 0 <= k -> (0 <? Z.land v (2 ^ k)) = Z.testbit v k.
Proof.
  intros Hk.
  assert (E : Z.land v (2 ^ k) = if Z.testbit v k then 2 ^ k else 0).
  { apply Z.bits_inj'. intros n Hn. rewrite Z.land_spec, Z.pow2_bits_eqb by lia.
    destruct (Z.eqb_spec k n) as [->|Hne].
    - rewrite andb_true_r. destruct (Z.testbit v n) eqn:T; [|by rewrite Z.bits_0].
      rewrite Z.pow2_bits_true by lia. done.
    - rewrite andb_false_r. destruct (Z.testbit v k); [|by rewrite Z.bits_0].
      by rewrite Z.pow2_bits_false by lia. }
  rewrite E. destruct (Z.testbit v k); [|done].
  apply Z.ltb_lt, Z.pow_pos_nonneg; lia.
Qed.

Lemma get_testbit b index :
  get b index =
  if Size b <=? index / 8 then false else Z.testbit (byte b (index / 8)) (7 - index mod 8).
Proof.
  unfold get. pose proof (Z.mod_pos_bound index 8 ltac:(lia)).
  rewrite bitIndexer_pow, land_pow2_testbit by lia. done.
Qed.

(** The byte that [set] stores, bit by bit. *)
Lemma set_byte_testbit v k (value : bool) j :
  0 <= k -> 0 <= j ->
  Z.testbit (if value then Z.lor (Z.ldiff v (2 ^ k)) (2 ^ k) else Z.ldiff v (2 ^ k)) j =
  if j =? k then value else Z.testbit v j.
Proof.
  intros Hk Hj. destruct value; rewrite ?Z.lor_spec, Z.ldiff_spec, Z.pow2_bits_eqb by lia;
    rewrite (Z.eqb_sym k j); destruct (j =? k); cbn; destruct (Z.testbit v j); done.
Qed.

Lemma set_in_range b index value :
  snd (set b index value) = negb (Size b <=? index / 8).
Proof. unfold set. by destruct (Size b <=? index / 8). Qed.

Lemma set_size b index value : Size (fst (set b index value)) = Size b.
Proof. unfold set. by destruct (Size b <=? index / 8). Qed.

Lemma set_base b index value : Base (fst (set b index value)) = Base b.
Proof. unfold set. by destruct (Size b <=? index / 8). Qed.

Lemma byte_insert b i j v :
  0 <= i < Z.of_nat (List.length (Buffer b)) -> 0 <= j ->
  byte (mkBitmap (Size b) (Base b) (<[Z.to_nat i := v]> (Buffer b))) j =
  if j =? i then v else byte b j.
Proof.
  intros Hi Hj. unfold byte. cbn. destruct (Z.eqb_spec j i) as [->|Hne].
  - rewrite list_lookup_insert_eq by lia. done.
  - rewrite list_lookup_insert_ne by lia. done.
Qed.

(** Reading a bitmap after [set]. *)
Lemma get_set b index value i :
  bitmap_wf b -> 0 <= index -> 0 <= i ->
  get (fst (set b index value)) i =
  if (i =? index) && (index / 8 <? Size b) then value else get b i.
Proof.
  intros (Hs & Hlen & _) Hidx Hi. rewrite !get_testbit, set_size. unfold set.
  assert (0 <= i / 8 /\ 0 <= index / 8) as [Hi8 Hx8] by (split; apply Z.div_pos; lia).
  pose proof (Z.mod_pos_bound i 8 ltac:(lia)). pose proof (Z.mod_pos_bound index 8 ltac:(lia)).
  destruct (Z.leb_spec (Size b) (index / 8)) as [Hout|Hin]; cbn [fst].
  { destruct (Z.ltb_spec (index / 8) (Size b)); [lia|]. by rewrite andb_false_r. }
  destruct (Z.ltb_spec (index / 8) (Size b)); [|lia]. rewrite andb_true_r.
  destruct (Z.leb_spec (Size b) (i / 8)) as [Hio|Hii].
  { destruct (Z.eqb_spec i index); [subst; lia|done]. }
  rewrite byte_insert by lia.
  destruct (Z.eqb_spec (i / 8) (index / 8)) as [Eb|Nb].
  - rewrite bitIndexer_pow, set_byte_testbit by lia.
    destruct (Z.eqb_spec i index) as [->|Hne]; [by rewrite Z.eqb_refl|].
    destruct (Z.eqb_spec (7 - i mod 8) (7 - index mod 8)); [dlia|]. by rewrite Eb.
  - destruct (Z.eqb_spec i index); [congruence|done].
Qed.

Lemma set_byte_range v k (value : bool) :
  0 <= v < 256 -> 0 <= k < 8 ->
  0 <= (if value then Z.lor (Z.ldiff v (2 ^ k)) (2 ^ k) else Z.ldiff v (2 ^ k)) < 256.
Proof.
  intros Hv Hk. set (w := if value then _ else _).
  assert (Hw : 0 <= w).
  { unfold w. destruct value; [apply Z.lor_nonneg; split|]; try apply Z.ldiff_nonneg; lia. }
  split; [done|]. change 256 with (2 ^ 8).
  destruct (decide (w = 0)) as [->|Hnz]; [lia|].
  apply Z.log2_lt_pow2; [lia|]. apply Z.nle_gt. intros Hlog.
  pose proof (Z.bit_log2 w ltac:(lia)) as Hb. unfold w in Hb at 1.
  rewrite set_byte_testbit in Hb by lia.
  destruct (Z.eqb_spec (Z.log2 w) k); [lia|].
  destruct (decide (v = 0)) as [->|]; [by rewrite Z.bits_0 in Hb|].
  rewrite Z.bits_above_log2 in Hb; [done|lia|].
  pose proof (Z.log2_lt_pow2 v 8 ltac:(lia)). lia.
Qed.

Lemma set_wf b index value : bitmap_wf b -> 0 <= index -> bitmap_wf (fst (set b index value)).
Proof.
  intros (Hs & Hlen & Hall) Hidx. unfold set.
  destruct (Z.leb_spec (Size b) (index / 8)) as [Hout|Hin]; cbn [fst]; [done|].
  split_and!; cbn; [lia| |].
  - by rewrite length_insert.
  - apply Forall_insert; [done|]. rewrite bitIndexer_pow.
    pose proof (Z.mod_pos_bound index 8 ltac:(lia)).
    apply set_byte_range; [|lia]. unfold byte.
    destruct (Buffer b !! Z.to_nat (index / 8)) eqn:E; cbn; [|lia].
    by apply (Forall_lookup_1 _ _ _ _ Hall E).
Qed.

Lemma init_wf size a : 0 <= size -> bitmap_wf (init size a).
Proof.
  intros H. unfold init. split_and!; cbn; [lia| |].
  - rewrite length_replicate. lia.
  - apply Forall_replicate. lia.
Qed.

Lemma get_init size a i : get (init size a) i = false.
Proof.
  rewrite get_testbit. cbn. destruct (size <=? i / 8); [done|].
  replace (byte (init size a) (i / 8)) with 0; [apply Z.bits_0|].
  unfold byte, init. cbn. destruct (replicate _ 0 !! _) eqn:E; [|done].
  by apply lookup_replicate in E as [-> _].
Qed.

(** ** Counting the set bits among the first [n] indices *)

Fixpoint count (f : Z -> bool) (n : nat) : Z :=
  match n with
  | O => 0
  | S k => (if f (Z.of_nat k) then 1 else 0) + count f k
  end.

Lemma count_ext f g n : (forall i, 0 <= i < Z.of_nat n -> f i = g i) -> count f n = count g n.
Proof.
  induction n as [|n IH]; intros H; [done|]. cbn [count].
  rewrite H by lia. f_equal. apply IH. intros i Hi. apply H. lia.
Qed.

Lemma count_range f n : 0 <= count f n <= Z.of_nat n.
Proof. induction n as [|n IH]; cbn [count]; [lia|]. destruct (f _); lia. Qed.

Lemma count_update f g n p :
  0 <= p < Z.of_nat n -> (forall i, 0 <= i -> i ≠ p -> g i = f i) ->
  count g n = count f n + (if g p then 1 else 0) - (if f p then 1 else 0).
Proof.
  revert p. induction n as [|n IH]; intros p Hp Hg; [lia|]. cbn [count].
  destruct (decide (p = Z.of_nat n)) as [->|Hne].
  - rewrite (count_ext g f n) by (intros; apply Hg; lia). lia.
  - rewrite (IH p) by (lia || done). rewrite (Hg (Z.of_nat n)) by lia. lia.
Qed.

Lemma count_all f n : (forall i, 0 <= i < Z.of_nat n -> f i = true) -> count f n = Z.of_nat n.
Proof.
  induction n as [|n IH]; intros H; [done|]. cbn [count].
  rewrite H by lia. rewrite IH by (intros; apply H; lia). lia.
Qed.

Lemma count_none f n : (forall i, 0 <= i < Z.of_nat n -> f i = false) -> count f n = 0.
Proof.
  induction n as [|n IH]; intros H; [done|]. cbn [count].
  rewrite H by lia. rewrite IH by (intros; apply H; lia). lia.
Qed.

Lemma count_lt f n p : 0 <= p < Z.of_nat n -> f p = false -> count f n < Z.of_nat n.
Proof.
  intros Hp Hf. pose proof (count_range (fun i => if i =? p then true else f i) n) as Hr.
  rewrite (count_update f _ n p) in Hr; [|done|intros i _ Hi; by rewrite (proj2 (Z.eqb_neq i p))].
  rewrite Z.eqb_refl, Hf in Hr. lia.
Qed.

(** A count that is not full leaves an index where the bit is clear. *)
Lemma count_mono f g n : (forall i, 0 <= i < Z.of_nat n -> f i = true -> g i = true) -> count f n <= count g n.
Proof.
  induction n as [|n IH]; intros H; [done|]. cbn [count]. specialize (IH ltac:(intros; apply H; [lia|done])).
  specialize (H (Z.of_nat n) ltac:(lia)). destruct (f _); [rewrite H by done; lia|]. destruct (g _); lia.
Qed.

Lemma count_witness f n : count f n < Z.of_nat n -> exists i, 0 <= i < Z.of_nat n /\ f i = false.
Proof.
  induction n as [|n IH]; intros H; [cbn in H; lia|]. cbn [count] in H.
  destruct (f (Z.of_nat n)) eqn:E.
  - destruct IH as (i & Hi & Hf); [lia|]. exists i. split; [lia|done].
  - exists (Z.of_nat n). split; [lia|done].
Qed.

End Bits.

#[export] Hint Resolve Bits.set_wf Bits.init_wf : lensor.
