(* ===== verification/FrameAlloc.v ===== *)
(** * The physical page frame allocator

    Models src/kernel/src/memory/physical_memory_manager.cpp: the globals of
    namespace [Memory] are the fields of [pmm]; [print_*] only format them and
    are not modelled; [init_physical] is in [InitMem]. *)

From S2P Require Import Prelude Bitmap.

(** ** State and operations *)

Record pmm := mkPmm {
  PageMap : Bits.Bitmap;
  TotalPages : Z;
  TotalFreePages : Z;
  TotalUsedPages : Z;
  MaxFreePagesInARow : Z;
  FirstFreePage : Z
}.

Definition with_PageMap (b : Bits.Bitmap) (s : pmm) : pmm :=
  mkPmm b (TotalPages s) (TotalFreePages s) (TotalUsedPages s) (MaxFreePagesInARow s) (FirstFreePage s).
Definition with_counts (free used : Z) (s : pmm) : pmm :=
  mkPmm (PageMap s) (TotalPages s) free used (MaxFreePagesInARow s) (FirstFreePage s).
Definition with_FirstFreePage (p : Z) (s : pmm) : pmm :=
  mkPmm (PageMap s) (TotalPages s) (TotalFreePages s) (TotalUsedPages s) (MaxFreePagesInARow s) p.

Definition total_ram (s : pmm) : Z := TotalPages s *64 PAGE_SIZE.
Definition free_ram (s : pmm) : Z := TotalFreePages s *64 PAGE_SIZE.
Definition used_ram (s : pmm) : Z := TotalUsedPages s *64 PAGE_SIZE.

Definition lock_page (address : Z) (s : pmm) : pmm :=
  let index := address / PAGE_SIZE in
  if Bits.get (PageMap s) index then s
  else
    let '(b, ok) := Bits.set (PageMap s) index true in
    let s := with_PageMap b s in
    if ok then with_counts (TotalFreePages s -64 1) (TotalUsedPages s +64 1) s else s.

Definition lock_pages (address numberOfPages : Z) (s : pmm) : pmm :=
  for_loop (Z.to_nat numberOfPages) 0
    (fun i s => lock_page (address +64 (i *64 PAGE_SIZE)) s) s.

Definition free_page_impl (address : Z) (s : pmm) : pmm :=
  let index := address / PAGE_SIZE in
  let '(b, ok) := Bits.set (PageMap s) index false in
  let s := with_PageMap b s in
  if ok then
    let s := if index <? FirstFreePage s then with_FirstFreePage index s else s in
    with_counts (TotalFreePages s +64 1) (TotalUsedPages s -64 1) s
  else s.

Definition free_page (address : Z) (s : pmm) : pmm := free_page_impl address s.

Definition free_pages (address numberOfPages : Z) (s : pmm) : pmm :=
  for_loop (Z.to_nat numberOfPages) 0
    (fun i s => free_page_impl (address +64 (i *64 PAGE_SIZE)) s) s.

(** The [for (; FirstFreePage < TotalPages; ++FirstFreePage)] loop.  When it
    ends without a free page, [panic] is called, which prints and returns, and
    the result is null. *)
Fixpoint request_page_loop (fuel : nat) (s : pmm) : outcome (Z * pmm) :=
  match fuel with
  | O => Stop Hung
  | S f =>
      if FirstFreePage s <? TotalPages s then
        if Bits.get (PageMap s) (FirstFreePage s) then
          request_page_loop f (with_FirstFreePage (FirstFreePage s +64 1) s)
        else
          let addr := FirstFreePage s *64 PAGE_SIZE in
          let s := lock_page addr s in
          Done (addr, with_FirstFreePage (FirstFreePage s +64 1) s)
      else Done (0, s)
  end.

Definition request_page (s : pmm) : outcome (Z * pmm) :=
  request_page_loop (S (Z.to_nat (TotalPages s - FirstFreePage s))) s.

(** How the inner [while (PageMap[index] == false)] loop of [request_pages]
    ends: the run is long enough, it met a locked page, or the index reached
    [PageMap.length()], where [panic] is called and null returned. *)
Inductive run_result := RunLongEnough | RunEndedAt (index : Z) | RunPastEnd.

Fixpoint scan_run (fuel : nat) (b : Bits.Bitmap) (numberOfPages index run : Z) : run_result :=
  match fuel with
  | O => RunPastEnd
  | S f =>
      if Bits.get b index then RunEndedAt index
      else
        let run := run + 1 in
        let index := index + 1 in
        if Bits.length b <=? index then RunPastEnd
        else if numberOfPages <=? run then RunLongEnough
        else scan_run f b numberOfPages index run
  end.

Fixpoint request_pages_loop (fuel : nat) (numberOfPages i : Z) (s : pmm) : outcome (Z * pmm) :=
  match fuel with
  | O => Done (0, s)
  | S f =>
      if i <? Bits.length (PageMap s) then
        if Bits.get (PageMap s) i then request_pages_loop f numberOfPages (i + 1) s
        else
          match scan_run (Z.to_nat (Bits.length (PageMap s))) (PageMap s) numberOfPages i 0 with
          | RunPastEnd => Done (0, s)
          | RunLongEnough =>
              let out := i *64 PAGE_SIZE in
              Done (out, lock_pages out numberOfPages s)
          | RunEndedAt index => request_pages_loop f numberOfPages (index + 1) s
          end
      else Done (0, s)
  end.

Definition request_pages (numberOfPages : Z) (s : pmm) : outcome (Z * pmm) :=
  if numberOfPages =? 0 then Done (0, s)
  else if numberOfPages =? 1 then request_page s
  else if TotalFreePages s <? numberOfPages then Done (0, s)
  else if MaxFreePagesInARow s <? numberOfPages then Done (0, s)
  else
    request_pages_loop (S (Z.to_nat (Bits.length (PageMap s)))) numberOfPages (FirstFreePage s) s.

(** ** Invariant *)

(** The page is locked in the bitmap. *)
Definition locked (s : pmm) (p : Z) : bool := Bits.get (PageMap s) p.

(** Number of pages the bitmap has a bit for. *)
Definition capacity (s : pmm) : Z := 8 * Bits.Size (PageMap s).

Record pmm_wf (s : pmm) : Prop := {
  wf_bitmap : Bits.bitmap_wf (PageMap s);
  wf_capacity : capacity s <= 2 ^ 40;
  wf_total : 0 <= TotalPages s <= capacity s;
  wf_first : 0 <= FirstFreePage s <= TotalPages s;
  wf_below : forall p, 0 <= p < FirstFreePage s -> locked s p = true;
  wf_used : TotalUsedPages s = Bits.count (locked s) (Z.to_nat (capacity s));
  wf_free : TotalFreePages s = wrap64 (TotalPages s + 1 - TotalUsedPages s)
}.

(** The bits of [s'] are those of [s], with the pages of [r] set to [v]. *)
Definition bits_changed (s s' : pmm) (r : Z -> bool) (v : bool) : Prop :=
  forall p, 0 <= p -> locked s' p = if r p && (p <? capacity s) then v else locked s p.

(** The fields other than the bits and the counters are the same. *)
Definition same_shape (s s' : pmm) : Prop :=
  Bits.Size (PageMap s') = Bits.Size (PageMap s) /\
  Bits.Base (PageMap s') = Bits.Base (PageMap s) /\
  TotalPages s' = TotalPages s /\ MaxFreePagesInARow s' = MaxFreePagesInARow s.

(** ** Single pages *)

Lemma div8_capacity s p : (p / 8 <? Bits.Size (PageMap s)) = (p <? capacity s).
Proof. unfold capacity. zcases; try done; exfalso; dlia. Qed.

Lemma locked_in_range s p : locked s p = true -> p < capacity s.
Proof.
  unfold locked. rewrite Bits.get_testbit. unfold capacity.
  destruct (Z.leb_spec (Bits.Size (PageMap s)) (p / 8)); [done|]. intros _. dlia.
Qed.

Lemma same_shape_capacity s s' : same_shape s s' -> capacity s' = capacity s.
Proof. intros (H & _). unfold capacity. by rewrite H. Qed.

Lemma same_shape_refl s : same_shape s s.
Proof. done. Qed.

Lemma same_shape_trans s1 s2 s3 : same_shape s1 s2 -> same_shape s2 s3 -> same_shape s1 s3.
Proof. unfold same_shape. intuition congruence. Qed.

#[export] Hint Resolve same_shape_refl : lensor.

Lemma lock_page_shape a s : same_shape s (lock_page a s) /\ FirstFreePage (lock_page a s) = FirstFreePage s.
Proof.
  unfold lock_page. destruct (Bits.get _ _); [done|].
  pose proof (Bits.set_size (PageMap s) (a / PAGE_SIZE) true) as Hs.
  pose proof (Bits.set_base (PageMap s) (a / PAGE_SIZE) true) as Hb.
  destruct (Bits.set _ _ _) as [b ok]; destruct ok; cbn in *; done.
Qed.

(** [lock_page] sets exactly the bit of its page. *)
Lemma lock_page_bits a s :
  pmm_wf s -> 0 <= a -> bits_changed s (lock_page a s) (Z.eqb (a / PAGE_SIZE)) true.
Proof.
  intros Hwf Ha p Hp. unfold lock_page, locked.
  assert (0 <= a / PAGE_SIZE) by (apply Z.div_pos; unfold PAGE_SIZE; lia).
  destruct (Bits.get (PageMap s) (a / PAGE_SIZE)) eqn:E.
  { destruct (Z.eqb_spec (a / PAGE_SIZE) p) as [<-|]; [|done]. cbn.
    by destruct (_ <? _). }
  pose proof (Bits.get_set (PageMap s) (a / PAGE_SIZE) true p (wf_bitmap s Hwf)) as Hg.
  rewrite div8_capacity, (Z.eqb_sym p) in Hg.
  destruct (Bits.set _ _ _) as [b ok] eqn:Eset. cbn [fst] in Hg.
  assert (Hb : forall (x : bool), Bits.get (PageMap (if x then with_counts (TotalFreePages (with_PageMap b s) -64 1)
      (TotalUsedPages (with_PageMap b s) +64 1) (with_PageMap b s) else with_PageMap b s)) p = Bits.get b p)
    by (by intros []).
  rewrite Hb, Hg by lia.
  destruct (Z.eqb_spec (a / PAGE_SIZE) p) as [->|]; done.
Qed.

(** The number of locked pages after one bit is written. *)
Lemma count_changed s s' p v :
  bits_changed s s' (Z.eqb p) v -> 0 <= p ->
  Bits.count (locked s') (Z.to_nat (capacity s)) =
  Bits.count (locked s) (Z.to_nat (capacity s)) +
  (if p <? capacity s then (if v then 1 else 0) - (if locked s p then 1 else 0) else 0).
Proof.
  intros H Hp. destruct (Z.ltb_spec p (capacity s)) as [Hin|Hout].
  - rewrite (Bits.count_update (locked s) _ _ p); [|lia|].
    + rewrite H, Z.eqb_refl by lia. rewrite (proj2 (Z.ltb_lt _ _) Hin). cbn. lia.
    + intros i Hi Hne. rewrite H by lia. by destruct (Z.eqb_spec p i).
  - rewrite (Bits.count_ext _ (locked s)); [lia|].
    intros i Hi. rewrite H by lia. destruct (Z.eqb_spec p i); [lia|done].
Qed.

(** The counter of used pages cannot wrap. *)
Lemma used_range s : pmm_wf s -> 0 <= TotalUsedPages s <= capacity s /\ capacity s <= 2 ^ 40.
Proof.
  intros [Wb Wc _ _ _ -> _].
  pose proof (Bits.count_range (locked s) (Z.to_nat (capacity s))).
  destruct Wb. unfold capacity in *. lia.
Qed.

Lemma page_index_nonneg a : 0 <= a -> 0 <= a / PAGE_SIZE.
Proof. intros. apply Z.div_pos; unfold PAGE_SIZE; lia. Qed.

#[export] Hint Resolve page_index_nonneg : lensor.

Lemma lock_page_used a s :
  pmm_wf s -> 0 <= a ->
  TotalUsedPages (lock_page a s) =
  TotalUsedPages s + (if (a / PAGE_SIZE <? capacity s) && negb (locked s (a / PAGE_SIZE)) then 1 else 0).
Proof.
  intros Hwf Ha. unfold lock_page, locked. pose proof (used_range s Hwf).
  destruct (Bits.get _ _) eqn:E; [rewrite andb_false_r; lia|].
  rewrite andb_true_r, <- div8_capacity.
  pose proof (Bits.set_in_range (PageMap s) (a / PAGE_SIZE) true) as Hok.
  destruct (Bits.set _ _ _) as [b ok]. cbn [snd] in Hok. subst ok.
  rewrite Z.leb_antisym, negb_involutive.
  destruct (_ <? _); cbn; [|lia]. apply wrap64_small. unfold is_u64. lia.
Qed.

Lemma lock_page_free a s :
  TotalUsedPages (lock_page a s) +64 TotalFreePages (lock_page a s) =
  TotalUsedPages s +64 TotalFreePages s.
Proof.
  unfold lock_page. destruct (Bits.get _ _); [done|].
  destruct (Bits.set _ _ _) as [b ok]; destruct ok; [|done]. cbn.
  autorewrite with u64rw. f_equal. lia.
Qed.

(** The free counter is determined by the used counter and the conserved sum. *)
Lemma free_from_sum t u f : is_u64 f -> u +64 f = wrap64 (t + 1) -> f = wrap64 (t + 1 - u).
Proof.
  intros Hf H. rewrite <- (wrap64_sub_l (t + 1) u), <- H, (wrap64_sub_l (u + f) u).
  replace (u + f - u) with f by lia. symmetry. by apply wrap64_small.
Qed.

Lemma sum_from_free s : pmm_wf s -> TotalUsedPages s +64 TotalFreePages s = wrap64 (TotalPages s + 1).
Proof. intros Hwf. rewrite (wf_free s Hwf), wrap64_add_r. f_equal. lia. Qed.

Lemma lock_page_wf a s : pmm_wf s -> 0 <= a -> pmm_wf (lock_page a s).
Proof.
  intros Hwf Ha. destruct (lock_page_shape a s) as [Hsh Hff].
  pose proof (lock_page_bits a s Hwf Ha) as Hbits.
  pose proof (same_shape_capacity _ _ Hsh) as Hcap.
  pose proof (page_index_nonneg a Ha) as Hp.
  pose proof (lock_page_free a s) as Hsum. rewrite (sum_from_free s Hwf) in Hsum.
  pose proof (lock_page_used a s Hwf Ha) as Hused.
  destruct Hsh as (HS & HB & HT & HM). rewrite <- HT in Hsum.
  assert (Hfu : is_u64 (TotalFreePages (lock_page a s))).
  { unfold lock_page. pose proof (wf_free s Hwf) as E.
    destruct (Bits.get _ _); [rewrite E; apply wrap64_range|].
    destruct (Bits.set _ _ _) as [b []]; cbn; [apply wrap64_range|rewrite E; apply wrap64_range]. }
  destruct Hwf as [Wb Wc Wt Wf Wl Wu Wr]. split.
  - unfold lock_page. destruct (Bits.get _ _); [done|].
    pose proof (Bits.set_wf (PageMap s) (a / PAGE_SIZE) true Wb Hp).
    destruct (Bits.set _ _ _) as [b ok]; by destruct ok.
  - by rewrite Hcap.
  - by rewrite Hcap, HT.
  - by rewrite HT, Hff.
  - intros p Hlt. rewrite Hbits, Wl by lia. apply if_same.
  - rewrite Hcap, (count_changed _ _ _ _ Hbits Hp), Hused, Wu.
    destruct (_ <? _), (locked s _); cbn; lia.
  - by apply free_from_sum.
Qed.

(** *** Freeing *)

Lemma free_page_shape a s : same_shape s (free_page_impl a s).
Proof.
  unfold free_page_impl.
  pose proof (Bits.set_size (PageMap s) (a / PAGE_SIZE) false) as Hs.
  pose proof (Bits.set_base (PageMap s) (a / PAGE_SIZE) false) as Hb.
  destruct (Bits.set _ _ _) as [b []]; cbn in *; [|done]. destruct (_ <? _); done.
Qed.

Lemma free_page_bits a s :
  pmm_wf s -> 0 <= a -> bits_changed s (free_page_impl a s) (Z.eqb (a / PAGE_SIZE)) false.
Proof.
  intros Hwf Ha p Hp. unfold free_page_impl, locked. pose proof (page_index_nonneg a Ha).
  pose proof (Bits.get_set (PageMap s) (a / PAGE_SIZE) false p (wf_bitmap s Hwf)) as Hg.
  rewrite div8_capacity, (Z.eqb_sym p) in Hg.
  destruct (Bits.set _ _ _) as [b ok] eqn:Eset. cbn [fst] in Hg.
  assert (E : Bits.get b p = if (a / PAGE_SIZE =? p) && (p <? capacity s) then false
                             else Bits.get (PageMap s) p).
  { rewrite Hg by lia. by destruct (Z.eqb_spec (a / PAGE_SIZE) p) as [->|]. }
  destruct ok; cbn; [destruct (a / PAGE_SIZE <? FirstFreePage s)|]; exact E.
Qed.

(** The first-free hint after a page inside the bitmap is freed. *)
Lemma free_page_first a s :
  a / PAGE_SIZE < capacity s ->
  FirstFreePage (free_page_impl a s) = Z.min (a / PAGE_SIZE) (FirstFreePage s).
Proof.
  intros Hin. unfold free_page_impl.
  pose proof (Bits.set_in_range (PageMap s) (a / PAGE_SIZE) false) as Hok.
  destruct (Bits.set _ _ _) as [b ok]. cbn [snd] in Hok. subst ok.
  rewrite Z.leb_antisym, negb_involutive, div8_capacity, (proj2 (Z.ltb_lt _ _) Hin). cbn.
  destruct (Z.ltb_spec (a / PAGE_SIZE) (FirstFreePage s)); cbn; lia.
Qed.

Lemma free_page_counts a s :
  a / PAGE_SIZE < capacity s ->
  TotalUsedPages (free_page_impl a s) = TotalUsedPages s -64 1 /\
  TotalFreePages (free_page_impl a s) = TotalFreePages s +64 1.
Proof.
  intros Hin. unfold free_page_impl.
  pose proof (Bits.set_in_range (PageMap s) (a / PAGE_SIZE) false) as Hok.
  destruct (Bits.set _ _ _) as [b ok]. cbn [snd] in Hok. subst ok.
  rewrite Z.leb_antisym, negb_involutive, div8_capacity, (proj2 (Z.ltb_lt _ _) Hin). cbn.
  by destruct (_ <? _).
Qed.

(** Freeing a page that is locked keeps the invariant. *)
Lemma free_page_wf a s :
  pmm_wf s -> 0 <= a -> locked s (a / PAGE_SIZE) = true -> pmm_wf (free_page_impl a s).
Proof.
  intros Hwf Ha Hl. pose proof (locked_in_range _ _ Hl) as Hin.
  pose proof (free_page_shape a s) as Hsh. pose proof (same_shape_capacity _ _ Hsh) as Hcap.
  pose proof (free_page_bits a s Hwf Ha) as Hbits. pose proof (page_index_nonneg a Ha) as Hp.
  pose proof (free_page_first a s Hin) as Hff. destruct (free_page_counts a s Hin) as [Hu Hf].
  pose proof (used_range s Hwf) as Hur. destruct Hsh as (HS & HB & HT & HM).
  destruct Hwf as [Wb Wc Wt Wf Wl Wu Wr].
  pose proof (count_changed _ _ _ _ Hbits Hp) as Hc.
  rewrite (proj2 (Z.ltb_lt _ _) Hin), Hl, <- Wu in Hc.
  pose proof (Bits.count_range (locked (free_page_impl a s)) (Z.to_nat (capacity s))) as Hcr.
  assert (Hu' : TotalUsedPages (free_page_impl a s) = TotalUsedPages s - 1).
  { rewrite Hu. apply wrap64_small. unfold is_u64. lia. }
  split.
  - unfold free_page_impl. pose proof (Bits.set_wf (PageMap s) (a / PAGE_SIZE) false Wb Hp).
    destruct (Bits.set _ _ _) as [b []]; [|done]. cbn. by destruct (a / PAGE_SIZE <? FirstFreePage s).
  - by rewrite Hcap.
  - by rewrite Hcap, HT.
  - rewrite HT, Hff. lia.
  - intros p Hlt. rewrite Hbits, Wl by lia. destruct (Z.eqb_spec (a / PAGE_SIZE) p); [lia|done].
  - rewrite Hcap, Hc, Hu'. lia.
  - rewrite Hf, Hu', HT, Wr. autorewrite with u64rw. f_equal. lia.
Qed.

#[export] Hint Resolve lock_page_wf : lensor.

(** ** Runs of pages *)

Lemma page_address i p :
  0 <= p -> 0 <= i -> (p + i) * PAGE_SIZE < 2 ^ 64 ->
  (p * PAGE_SIZE +64 (i *64 PAGE_SIZE)) / PAGE_SIZE = p + i /\
  0 <= (p * PAGE_SIZE +64 (i *64 PAGE_SIZE)).
Proof.
  intros Hp Hi Hb. rewrite wrap64_add_r, wrap64_small by (unfold is_u64, PAGE_SIZE in *; lia).
  unfold PAGE_SIZE in *. split; [|lia]. dlia.
Qed.

Definition in_run (p n q : Z) : bool := (p <=? q) && (q <? p + n).

Lemma bits_changed_trans s1 s2 s3 r1 r2 r v :
  bits_changed s1 s2 r1 v -> bits_changed s2 s3 r2 v -> capacity s2 = capacity s1 ->
  (forall q, r q = r1 q || r2 q) -> bits_changed s1 s3 r v.
Proof.
  intros H1 H2 Hc Hr p Hp. rewrite H2, H1, Hc, Hr by lia.
  destruct (r1 p), (r2 p), (p <? capacity s1); done.
Qed.

Lemma lock_pages_loop p n i s :
  pmm_wf s -> 0 <= p -> 0 <= i -> (p + i + Z.of_nat n) * PAGE_SIZE < 2 ^ 64 ->
  let s' := for_loop n i (fun i s => lock_page (p * PAGE_SIZE +64 (i *64 PAGE_SIZE)) s) s in
  pmm_wf s' /\ same_shape s s' /\ FirstFreePage s' = FirstFreePage s /\
  bits_changed s s' (in_run (p + i) (Z.of_nat n)) true.
Proof.
  revert i s. induction n as [|n IH]; intros i s Hwf Hp Hi Hb; cbn [for_loop].
  { split_and!; [done..|]. intros q Hq. unfold in_run. by zcases; cbn; try lia. }
  destruct (page_address i p) as [Hidx Ha]; [lia..|unfold PAGE_SIZE in *; lia|].
  set (a := p * PAGE_SIZE +64 (i *64 PAGE_SIZE)) in *.
  destruct (IH (i + 1) (lock_page a s)) as (W & Sh & F & B); [auto with lensor|lia..|].
  destruct (lock_page_shape a s) as [Sh0 F0].
  split_and!; [done| |by rewrite F|].
  - by eapply same_shape_trans.
  - eapply bits_changed_trans; [by apply lock_page_bits|exact B|by apply same_shape_capacity|].
    intros q. rewrite Hidx. unfold in_run. by zcases; cbn; try lia.
Qed.

Lemma lock_pages_spec p n s :
  pmm_wf s -> 0 <= p -> 0 <= n -> (p + n) * PAGE_SIZE < 2 ^ 64 ->
  let s' := lock_pages (p * PAGE_SIZE) n s in
  pmm_wf s' /\ same_shape s s' /\ FirstFreePage s' = FirstFreePage s /\
  bits_changed s s' (in_run p n) true.
Proof.
  intros Hwf Hp Hn Hb. unfold lock_pages.
  pose proof (lock_pages_loop p (Z.to_nat n) 0 s Hwf Hp ltac:(lia)) as H.
  rewrite Z2Nat.id, Z.add_0_r in H by lia. by apply H.
Qed.

Lemma free_pages_loop p n i s :
  pmm_wf s -> 0 <= p -> 0 <= i -> (p + i + Z.of_nat n) * PAGE_SIZE < 2 ^ 64 ->
  (forall q, p + i <= q < p + i + Z.of_nat n -> locked s q = true) ->
  let s' := for_loop n i (fun i s => free_page_impl (p * PAGE_SIZE +64 (i *64 PAGE_SIZE)) s) s in
  pmm_wf s' /\ same_shape s s' /\ bits_changed s s' (in_run (p + i) (Z.of_nat n)) false.
Proof.
  revert i s. induction n as [|n IH]; intros i s Hwf Hp Hi Hb Hl; cbn [for_loop].
  { split_and!; [done..|]. intros q Hq. unfold in_run. by zcases; cbn; try lia. }
  destruct (page_address i p) as [Hidx Ha]; [lia..|unfold PAGE_SIZE in *; lia|].
  set (a := p * PAGE_SIZE +64 (i *64 PAGE_SIZE)) in *.
  assert (Hla : locked s (a / PAGE_SIZE) = true) by (rewrite Hidx; apply Hl; lia).
  pose proof (free_page_bits a s Hwf Ha) as B0.
  destruct (IH (i + 1) (free_page_impl a s)) as (W & Sh & B);
    [by apply free_page_wf|lia|lia|lia| |].
  { intros q Hq. rewrite B0, Hidx, Hl by lia. destruct (Z.eqb_spec (p + i) q); [lia|done]. }
  split_and!; [done| |].
  - eapply same_shape_trans; [apply free_page_shape|done].
  - eapply bits_changed_trans; [exact B0|exact B|by apply same_shape_capacity, free_page_shape|].
    intros q. rewrite Hidx. unfold in_run. by zcases; cbn; try lia.
Qed.

(** ** [request_page] *)

Lemma advance_wf s :
  pmm_wf s -> FirstFreePage s < TotalPages s -> locked s (FirstFreePage s) = true ->
  pmm_wf (with_FirstFreePage (FirstFreePage s +64 1) s).
Proof.
  intros [Wb Wc Wt Wf Wl Wu Wr] Hlt Hl.
  assert (E : (FirstFreePage s +64 1) = FirstFreePage s + 1)
    by (apply wrap64_small; unfold is_u64; lia).
  rewrite E. split; try done; cbn; [lia|].
  intros p Hp. destruct (decide (p = FirstFreePage s)) as [->|]; [done|]. apply Wl. lia.
Qed.

(** What a finished [request_page] has done: it took the lowest free page. *)
Record page_taken (s s' : pmm) (a p : Z) : Prop := {
  taken_address : a = p * PAGE_SIZE;
  taken_range : 0 <= p < TotalPages s;
  taken_free : locked s p = false;
  taken_lowest : forall q, 0 <= q < p -> locked s q = true;
  taken_bits : bits_changed s s' (Z.eqb p) true;
  taken_shape : same_shape s s';
  taken_first : FirstFreePage s' = p + 1;
  taken_used : TotalUsedPages s' = TotalUsedPages s + 1;
  taken_wf : pmm_wf s'
}.

Lemma request_here s :
  pmm_wf s -> FirstFreePage s < TotalPages s -> locked s (FirstFreePage s) = false ->
  let a := FirstFreePage s *64 PAGE_SIZE in
  page_taken s (with_FirstFreePage (FirstFreePage (lock_page a s) +64 1) (lock_page a s))
    a (FirstFreePage s).
Proof.
  intros Hwf Hlt Hl a. pose proof Hwf as [Wb Wc Wt Wf Wl Wu Wr].
  assert (Ea : a = FirstFreePage s * PAGE_SIZE).
  { apply wrap64_small. unfold is_u64, PAGE_SIZE. lia. }
  assert (Ei : a / PAGE_SIZE = FirstFreePage s) by (rewrite Ea; apply Z.div_mul; done).
  assert (Ha : 0 <= a) by (rewrite Ea; unfold PAGE_SIZE; lia).
  destruct (lock_page_shape a s) as [Sh F].
  pose proof (lock_page_bits a s Hwf Ha) as B. rewrite Ei in B.
  assert (Hn : locked (lock_page a s) (FirstFreePage s) = true).
  { rewrite B, Z.eqb_refl by lia. by rewrite (proj2 (Z.ltb_lt _ _)) by lia. }
  pose proof (lock_page_used a s Hwf Ha) as U.
  rewrite Ei, Hl, (proj2 (Z.ltb_lt _ _)) in U by lia. cbn in U.
  pose proof (lock_page_wf a s Hwf Ha) as W.
  split; try done; [lia| |].
  - cbn. rewrite F. apply wrap64_small. unfold is_u64. lia.
  - apply advance_wf; [done| |by rewrite F]. destruct Sh as (_&_&->&_). by rewrite F.
Qed.

Lemma page_taken_skip s a p s' :
  locked s (FirstFreePage s) = true ->
  page_taken (with_FirstFreePage (FirstFreePage s +64 1) s) s' a p -> page_taken s s' a p.
Proof. intros _ []. by split. Qed.

(** Nothing was free: the hint is at the end and nothing else has changed. *)
Record page_refused (s s' : pmm) : Prop := {
  refused_full : forall q, 0 <= q < TotalPages s -> locked s q = true;
  refused_state : s' = with_FirstFreePage (TotalPages s) s;
  refused_wf : pmm_wf s'
}.

Lemma page_refused_skip s s' : page_refused (with_FirstFreePage (FirstFreePage s +64 1) s) s' -> page_refused s s'.
Proof. intros []. by split. Qed.

Lemma request_page_loop_spec fuel s :
  pmm_wf s -> TotalPages s - FirstFreePage s < Z.of_nat fuel ->
  exists a s', request_page_loop fuel s = Done (a, s') /\ ((exists p, page_taken s s' a p) \/ a = 0 /\ page_refused s s').
Proof.
  revert s. induction fuel as [|fuel IH]; intros s Hwf Hf.
  { pose proof (wf_first s Hwf). lia. }
  cbn [request_page_loop]. destruct (Z.ltb_spec (FirstFreePage s) (TotalPages s)) as [Hlt|Hge].
  2:{ exists 0, s. split; [done|]. right. split; [done|]. assert (Ef : FirstFreePage s = TotalPages s) by (pose proof (wf_first s Hwf); lia).
      split; [|clear Hwf Hf; destruct s; cbn in *; by subst|done].
      intros q Hq. apply (wf_below s Hwf). lia. }
  destruct (Bits.get (PageMap s) (FirstFreePage s)) eqn:E.
  - pose proof (wf_first s Hwf). pose proof (wf_total s Hwf). pose proof (wf_capacity s Hwf).
    assert (E1 : (FirstFreePage s +64 1) = FirstFreePage s + 1)
      by (apply wrap64_small; unfold is_u64; lia).
    destruct (IH (with_FirstFreePage (FirstFreePage s +64 1) s)) as (a & s' & Er & [[p Hp]|[-> Hr]]); [by apply advance_wf|cbn; lia| |].
    + exists a, s'. split; [done|]. left. exists p. by apply page_taken_skip.
    + exists 0, s'. split; [done|]. right. split; [done|]. by apply page_refused_skip.
  - eexists _, _. split; [done|]. left. exists (FirstFreePage s). by apply request_here.
Qed.

Lemma request_page_spec s :
  pmm_wf s -> exists a s', request_page s = Done (a, s') /\ ((exists p, page_taken s s' a p) \/ a = 0 /\ page_refused s s').
Proof.
  intros Hwf. apply request_page_loop_spec; [done|]. pose proof (wf_first s Hwf). lia.
Qed.

(** ** [request_pages] *)

(** All pages of the run are free. *)
Definition run_free (s : pmm) (p n : Z) : Prop := forall q, p <= q < p + n -> locked s q = false.

Lemma scan_run_spec fuel s n index run :
  0 <= run < n -> index < Bits.length (PageMap s) ->
  Bits.length (PageMap s) - index <= Z.of_nat fuel ->
  match scan_run fuel (PageMap s) n index run with
  | RunLongEnough => run_free s index (n - run) /\ index + (n - run) < Bits.length (PageMap s)
  | RunEndedAt j => index <= j < Bits.length (PageMap s) /\ locked s j = true /\ j - index + run < n
  | RunPastEnd => run_free s index (Bits.length (PageMap s) - index) /\
                  Bits.length (PageMap s) - index + run <= n
  end.
Proof.
  revert index run. induction fuel as [|fuel IH]; intros index run Hr Hi Hf; [lia|].
  cbn [scan_run]. destruct (Bits.get (PageMap s) index) eqn:E.
  { split_and!; [lia..|done|lia]. }
  destruct (Z.leb_spec (Bits.length (PageMap s)) (index + 1)) as [Hend|Hin].
  { split; [|lia]. intros q Hq. by replace q with index by lia. }
  destruct (Z.leb_spec n (run + 1)) as [Hok|Hmore].
  { split; [|lia]. intros q Hq. by replace q with index by lia. }
  specialize (IH (index + 1) (run + 1) ltac:(lia) ltac:(lia) ltac:(lia)).
  destruct (scan_run _ _ _ _ _).
  - destruct IH as [H1 H2]. split; [|lia]. intros q Hq.
    destruct (decide (q = index)) as [->|]; [done|]. apply H1. lia.
  - destruct IH as (H1 & H2 & H3). split_and!; [lia..|done|lia].
  - destruct IH as [H1 H2]. split; [|lia]. intros q Hq.
    destruct (decide (q = index)) as [->|]; [done|]. apply H1. lia.
Qed.

(** No run of [n] free pages starts in [i, j) and ends before the limit. *)
Definition no_run_in (s : pmm) (n i j : Z) : Prop :=
  forall q, i <= q < j -> q + n < Bits.length (PageMap s) -> ~ run_free s q n.

(** Outcome of the search from page [i]. *)
Definition search_result (s : pmm) (n i : Z) (r : outcome (Z * pmm)) : Prop :=
  match r with
  | Done (a, s') =>
      (exists p, i <= p /\ a = p *64 PAGE_SIZE /\ run_free s p n /\
                 p + n < Bits.length (PageMap s) /\ no_run_in s n i p /\
                 s' = lock_pages a n s) \/
      (a = 0 /\ s' = s /\ no_run_in s n i (Bits.length (PageMap s)))
  | Stop _ => False
  end.

Lemma search_result_skip s n i j r :
  i <= j -> no_run_in s n i j -> search_result s n j r -> search_result s n i r.
Proof.
  intros Hij Hno. unfold search_result.
  assert (Hjoin : forall k, no_run_in s n j k -> no_run_in s n i k).
  { intros k Hk q Hq. destruct (Z.lt_ge_cases q j); [apply Hno; lia|apply Hk; lia]. }
  destruct r as [[a s']|k]; [|done].
  intros [(p & ? & ? & ? & ? & ? & ?)|(? & ? & ?)]; [left; exists p|right];
    split_and!; auto; lia.
Qed.

Lemma request_pages_loop_spec fuel n i s :
  0 < n -> 0 <= i -> Bits.length (PageMap s) - i < Z.of_nat fuel ->
  search_result s n i (request_pages_loop fuel n i s).
Proof.
  intros Hn. revert i. induction fuel as [|fuel IH]; intros i Hi Hf; cbn [request_pages_loop].
  { right. split_and!; [done..|]. intros q Hq. lia. }
  destruct (Z.ltb_spec i (Bits.length (PageMap s))) as [Hlt|Hge].
  2:{ right. split_and!; [done..|]. intros q Hq. lia. }
  destruct (Bits.get (PageMap s) i) eqn:E.
  { apply (search_result_skip s n i (i + 1)); [lia| |apply IH; lia].
    intros q Hq _ Hrun. specialize (Hrun q ltac:(lia)). unfold locked in Hrun.
    replace q with i in Hrun by lia. congruence. }
  pose proof (scan_run_spec (Z.to_nat (Bits.length (PageMap s))) s n i 0 ltac:(lia) Hlt) as Hs.
  specialize (Hs ltac:(lia)).
  destruct (scan_run _ _ _ _ _) as [|j|].
  - rewrite Z.sub_0_r in Hs. destruct Hs as [Hfree Hlen]. left. exists i.
    split_and!; try done. intros q Hq. lia.
  - destruct Hs as (Hj & Hl & Hshort). apply (search_result_skip s n i (j + 1)); [lia| |apply IH; lia].
    intros q Hq _ Hrun. destruct (decide (j < q + n)).
    + specialize (Hrun j ltac:(lia)). congruence.
    + lia.
  - destruct Hs as [Hfree Hlen]. right. split_and!; [done..|]. intros q Hq Hq2. lia.
Qed.

(** What a finished multi-page request has done. *)
Record run_taken (s s' : pmm) (a p n : Z) : Prop := {
  run_address : a = p * PAGE_SIZE;
  run_start : FirstFreePage s <= p;
  run_was_free : run_free s p n;
  run_limit : p + n < Bits.length (PageMap s);
  run_lowest : no_run_in s n (FirstFreePage s) p;
  run_bits : bits_changed s s' (in_run p n) true;
  run_shape : same_shape s s';
  run_first : FirstFreePage s' = FirstFreePage s;
  run_wf : pmm_wf s'
}.

Lemma request_pages_many n s :
  pmm_wf s -> 2 <= n -> n <= TotalFreePages s -> n <= MaxFreePagesInARow s ->
  exists a s', request_pages n s = Done (a, s') /\
  ((exists p, run_taken s s' a p n) \/
   (a = 0 /\ s' = s /\ no_run_in s n (FirstFreePage s) (Bits.length (PageMap s)))).
Proof.
  intros Hwf Hn Hf Hm. unfold request_pages. pose proof (wf_first s Hwf).
  destruct (Z.eqb_spec n 0); [lia|]. destruct (Z.eqb_spec n 1); [lia|].
  destruct (Z.ltb_spec (TotalFreePages s) n); [lia|].
  destruct (Z.ltb_spec (MaxFreePagesInARow s) n); [lia|].
  pose proof (request_pages_loop_spec (S (Z.to_nat (Bits.length (PageMap s)))) n (FirstFreePage s) s
                ltac:(lia) ltac:(lia) ltac:(lia)) as Hr.
  destruct (request_pages_loop _ _ _ _) as [[a s']|k]; [|done]. exists a, s'. split; [done|].
  destruct Hr as [(p & Hp & Ha & Hfree & Hlim & Hno & Hs')|Hr]; [left|by right].
  pose proof (wf_capacity s Hwf) as Hcap. unfold capacity in Hcap.
  unfold Bits.length in Hlim.
  rewrite wrap64_small in Ha by (unfold is_u64, PAGE_SIZE; lia).
  exists p. subst a s'.
  destruct (lock_pages_spec p n s Hwf) as (W & Sh & F & B); [lia..|unfold PAGE_SIZE; lia|].
  by split.
Qed.

Lemma request_pages_cases n s a s' :
  pmm_wf s -> 2 <= n -> request_pages n s = Done (a, s') -> (exists p, run_taken s s' a p n) \/ a = 0 /\ s' = s.
Proof.
  intros Hwf Hn E. destruct (decide (n <= TotalFreePages s /\ n <= MaxFreePagesInARow s)) as [[Hf Hm]|Hno].
  - destruct (request_pages_many n s Hwf Hn Hf Hm) as (a' & s1 & E' & H). rewrite E in E'. injection E' as <- <-.
    destruct H as [?|(? & ? & _)]; [by left|by right].
  - right. unfold request_pages in E. destruct (Z.eqb_spec n 0); [lia|]. destruct (Z.eqb_spec n 1); [lia|].
    destruct (Z.ltb_spec (TotalFreePages s) n); [by injection E as <- <-|].
    destruct (Z.ltb_spec (MaxFreePagesInARow s) n); [by injection E as <- <-|]. lia.
Qed.

Lemma request_pages_taken n s a s' :
  pmm_wf s -> 2 <= n -> request_pages n s = Done (a, s') -> a ≠ 0 -> exists p, run_taken s s' a p n.
Proof.
  intros Hwf Hn E Ha. by destruct (request_pages_cases n s a s' Hwf Hn E) as [?|[? _]].
Qed.

(** ** Freeing what was requested *)

Lemma free_taken_page s s' a p :
  page_taken s s' a p -> locked s' (a / PAGE_SIZE) = true /\ 0 <= a /\ a / PAGE_SIZE = p.
Proof.
  intros T. pose proof (taken_range _ _ _ _ T). pose proof (taken_address _ _ _ _ T) as ->.
  rewrite Z.div_mul by done. split_and!; [|unfold PAGE_SIZE; lia|done].
  rewrite (taken_bits _ _ _ _ T), Z.eqb_refl by lia. pose proof (taken_wf _ _ _ _ T) as W.
  pose proof (wf_total _ W) as Wt. pose proof (taken_shape _ _ _ _ T) as Sh.
  pose proof (same_shape_capacity _ _ Sh). destruct Sh as (_ & _ & ? & _).
  by rewrite (proj2 (Z.ltb_lt _ _)) by lia.
Qed.

(** ** The interface the page mapper is verified against

    A frame allocator hands out page frames; [fa_owned s a] says that the frame
    at address [a] is not available in state [s], [fa_avail s] is the number of
    requests that still succeed.  When there are none left, a request gives
    null and takes nothing. *)
Class FrameAllocator (S : Type) := {
  fa_request : S -> outcome (Z * S);
  fa_inv : S -> Prop;
  fa_owned : S -> Z -> Prop;
  fa_avail : S -> Z;
  fa_request_some : forall s,
    fa_inv s -> 0 < fa_avail s ->
    exists a s', fa_request s = Done (a, s') /\ fa_inv s' /\ a mod PAGE_SIZE = 0 /\ 0 <= a < 2 ^ 52 /\ ~ fa_owned s a /\
    (forall b, fa_owned s' b <-> fa_owned s b \/ b = a) /\ fa_avail s' = fa_avail s - 1;
  fa_request_none : forall s,
    fa_inv s -> fa_avail s <= 0 ->
    exists s', fa_request s = Done (0, s') /\ fa_inv s' /\ (forall b, fa_owned s' b <-> fa_owned s b) /\ fa_avail s' = fa_avail s
}.

Lemma fa_request_sound {S} `{!FrameAllocator S} s a s' :
  fa_inv s -> 0 < fa_avail s -> fa_request s = Done (a, s') ->
  fa_inv s' /\ a mod PAGE_SIZE = 0 /\ 0 <= a < 2 ^ 52 /\ ~ fa_owned s a /\
  (forall b, fa_owned s' b <-> fa_owned s b \/ b = a) /\ fa_avail s' = fa_avail s - 1.
Proof.
  intros Hi Ha E. destruct (fa_request_some s Hi Ha) as (a1 & s1 & E1 & H). rewrite E in E1. by injection E1 as <- <-.
Qed.

(** Whatever is left, a request returns and takes one frame at most. *)
Lemma fa_request_steps {S} `{!FrameAllocator S} s :
  fa_inv s ->
  exists a s', fa_request s = Done (a, s') /\ fa_inv s' /\ fa_avail s - 1 <= fa_avail s' /\ fa_avail s' <= fa_avail s.
Proof.
  intros Hi. destruct (Z.lt_ge_cases 0 (fa_avail s)) as [Ha|Ha].
  - destruct (fa_request_some s Hi Ha) as (a & s' & E & Hi' & _ & _ & _ & _ & Ha'). exists a, s'. split_and!; [done|done|lia|lia].
  - destruct (fa_request_none s Hi Ha) as (s' & E & Hi' & _ & Ha'). exists 0, s'. split_and!; [done|done|lia|lia].
Qed.

(** A frame is owned when it is page aligned and its bit is set. *)
Definition frame_locked (s : pmm) (a : Z) : Prop :=
  exists p, 0 <= p /\ a = p * PAGE_SIZE /\ locked s p = true.

Lemma frame_locked_page s p : 0 <= p -> frame_locked s (p * PAGE_SIZE) <-> locked s p = true.
Proof.
  intros Hp. unfold frame_locked. split; [|by exists p].
  intros (q & _ & E & Hq). unfold PAGE_SIZE in E. by replace p with q by lia.
Qed.

Lemma page_taken_frames s a p s' :
  pmm_wf s -> page_taken s s' a p ->
  pmm_wf s' /\ a mod PAGE_SIZE = 0 /\ 0 <= a < 2 ^ 52 /\ ~ frame_locked s a /\
  (forall b, frame_locked s' b <-> frame_locked s b \/ b = a).
Proof.
  intros Hwf T. pose proof (taken_range _ _ _ _ T). pose proof (taken_free _ _ _ _ T) as Hfree.
  pose proof (wf_total s Hwf). pose proof (wf_capacity s Hwf).
  pose proof (taken_address _ _ _ _ T) as ->.
  split_and!; [apply T|by apply Z.mod_mul|unfold PAGE_SIZE; lia..| |].
  - rewrite frame_locked_page by lia. congruence.
  - intros b. unfold frame_locked. split.
    + intros (q & Hq & -> & Hl). rewrite (taken_bits _ _ _ _ T) in Hl by lia.
      destruct (Z.eqb_spec p q) as [->|]; [by right|]. left. eauto.
    + intros [(q & Hq & -> & Hl)| ->].
      * exists q. split_and!; [done..|]. rewrite (taken_bits _ _ _ _ T), Hl by lia. apply if_same.
      * exists p. split_and!; [lia|done|]. rewrite (taken_bits _ _ _ _ T), Z.eqb_refl by lia.
        by rewrite (proj2 (Z.ltb_lt _ _)) by lia.
Qed.

(** Free pages below [TotalPages]. *)
Definition available (s : pmm) : Z := TotalPages s - Bits.count (locked s) (Z.to_nat (TotalPages s)).

Lemma page_taken_available s s' a p : pmm_wf s -> page_taken s s' a p -> available s' = available s - 1.
Proof.
  intros Hwf T. pose proof (wf_total s Hwf). unfold available. destruct (taken_shape _ _ _ _ T) as (_ & _ & -> & _).
  pose proof (taken_range _ _ _ _ T).
  rewrite (Bits.count_update (locked s) (locked s') _ p); [|lia|].
  - rewrite (taken_free _ _ _ _ T), (taken_bits _ _ _ _ T), Z.eqb_refl by lia.
    rewrite (proj2 (Z.ltb_lt _ _)) by lia. cbn -[Bits.count]. lia.
  - intros i Hi Hne. rewrite (taken_bits _ _ _ _ T) by lia. by destruct (Z.eqb_spec p i).
Qed.

Lemma page_refused_available s s' : pmm_wf s -> page_refused s s' -> available s = 0.
Proof.
  intros Hwf R. pose proof (wf_total s Hwf). unfold available.
  rewrite Bits.count_all by (intros; apply (refused_full _ _ R); lia). lia.
Qed.

Lemma page_taken_some s s' a p : pmm_wf s -> page_taken s s' a p -> 0 < available s.
Proof.
  intros Hwf T. pose proof (wf_total s Hwf). pose proof (taken_range _ _ _ _ T). unfold available.
  assert (Bits.count (locked s) (Z.to_nat (TotalPages s)) < Z.of_nat (Z.to_nat (TotalPages s))); [|lia].
  eapply Bits.count_lt; [|apply T]. lia.
Qed.

Lemma request_page_some s : pmm_wf s -> 0 < available s ->
  exists a s', request_page s = Done (a, s') /\ pmm_wf s' /\ a mod PAGE_SIZE = 0 /\ 0 <= a < 2 ^ 52 /\ ~ frame_locked s a /\
  (forall b, frame_locked s' b <-> frame_locked s b \/ b = a) /\ available s' = available s - 1.
Proof.
  intros Hwf Ha. destruct (request_page_spec s Hwf) as (a & s' & E & [[p T]|[-> R]]).
  - exists a, s'. destruct (page_taken_frames s a p s' Hwf T) as (? & ? & ? & ? & ?). by pose proof (page_taken_available _ _ _ _ Hwf T).
  - pose proof (page_refused_available s s' Hwf R). lia.
Qed.

Lemma request_page_none s : pmm_wf s -> available s <= 0 ->
  exists s', request_page s = Done (0, s') /\ pmm_wf s' /\ (forall b, frame_locked s' b <-> frame_locked s b) /\ available s' = available s.
Proof.
  intros Hwf Ha. destruct (request_page_spec s Hwf) as (a & s' & E & [[p T]|[-> R]]).
  - pose proof (page_taken_some _ _ _ _ Hwf T). lia.
  - exists s'. split_and!; [done|apply R| |]; by rewrite (refused_state _ _ R).
Qed.

#[export] Instance pmm_frame_allocator : FrameAllocator pmm := {
  fa_request := request_page;
  fa_inv := pmm_wf;
  fa_owned := frame_locked;
  fa_avail := available;
  fa_request_some := request_page_some;
  fa_request_none := request_page_none
}.

(** A page other than the null page was free. *)
Lemma request_page_nonzero s a s' : pmm_wf s -> request_page s = Done (a, s') -> a ≠ 0 -> exists p, page_taken s s' a p.
Proof.
  intros Hwf E Ha. destruct (request_page_spec s Hwf) as (a1 & s1 & E1 & H). change (request_page s = Done (a, s')) in E. rewrite E in E1. injection E1 as <- <-.
  by destruct H as [?|[? _]].
Qed.

(** A run of pages [request_pages] returned. *)
Record run_got (fr fr' : pmm) (pa n : Z) : Prop := {
  rg_wf : pmm_wf fr';
  rg_aligned : pa mod PAGE_SIZE = 0;
  rg_nonneg : 0 <= pa;
  rg_top : pa + n * PAGE_SIZE <= 2 ^ 52;
  rg_new q : pa / PAGE_SIZE <= q < pa / PAGE_SIZE + n -> locked fr q = false /\ locked fr' q = true;
  rg_old q : 0 <= q -> locked fr q = true -> locked fr' q = true
}.

Lemma run_got_bits fr fr' p n :
  pmm_wf fr -> pmm_wf fr' -> 0 <= p -> 0 <= n -> p + n <= capacity fr -> run_free fr p n -> bits_changed fr fr' (in_run p n) true ->
  run_got fr fr' (p * PAGE_SIZE) n.
Proof.
  intros W W' Hp Hn Hc Hfree Hb. pose proof (wf_capacity _ W) as Hcap.
  split; rewrite ?Z.mod_mul, ?Z.div_mul by done; [done|done|unfold PAGE_SIZE; lia|unfold PAGE_SIZE; lia| |].
  - intros q Hq. split; [by apply Hfree|]. rewrite Hb by lia. unfold in_run.
    rewrite (proj2 (Z.leb_le _ _)), !(proj2 (Z.ltb_lt _ _)) by lia. done.
  - intros q Hq Hl. rewrite Hb by done. by destruct (_ && _).
Qed.

(** A request leaves no more frames than there were. *)
Lemma request_pages_less n s a s' :
  pmm_wf s -> 1 <= n -> request_pages n s = Done (a, s') -> pmm_wf s' /\ available s' <= available s.
Proof.
  intros W Hn E. destruct (decide (n = 1)) as [->|Hne].
  - change (request_pages 1 s) with (request_page s) in E.
    destruct (@fa_request_steps pmm pmm_frame_allocator s W) as (a1 & s1 & E1 & W1 & _ & A1).
    change (request_page s = Done (a1, s1)) in E1. rewrite E in E1. injection E1 as <- <-. done.
  - destruct (request_pages_cases n s a s' W ltac:(lia) E) as [[p T]|[_ ->]]; [|by split].
    split; [apply T|]. unfold available. destruct (run_shape _ _ _ _ _ T) as (_ & _ & -> & _).
    enough (Bits.count (locked s) (Z.to_nat (TotalPages s)) <= Bits.count (locked s') (Z.to_nat (TotalPages s))) by lia.
    apply Bits.count_mono. intros i Hi Hl. rewrite (run_bits _ _ _ _ _ T), Hl by lia. apply if_same.
Qed.

Lemma request_pages_run n fr pa fr' :
  pmm_wf fr -> 1 <= n -> request_pages n fr = Done (pa, fr') -> pa ≠ 0 -> run_got fr fr' pa n.
Proof.
  intros W Hn E H0. destruct (decide (n = 1)) as [->|Hne].
  - unfold request_pages in E. cbn [Z.eqb] in E. change (1 =? 1) with true in E. cbn [Pos.eqb] in E.
    destruct (request_page_nonzero fr pa fr' W E H0) as [p [-> Hr Hf _ Hb Hsh _ _ W']].
    apply run_got_bits; [done|done|lia|lia|pose proof (wf_total _ W); lia| |].
    + intros q Hq. by replace q with p by lia.
    + intros q Hq. rewrite Hb by done. unfold in_run. replace ((p <=? q) && (q <? p + 1)) with (p =? q); [done|].
      destruct (Z.eqb_spec p q), (Z.leb_spec p q), (Z.ltb_spec q (p + 1)); cbn; try done; lia.
  - destruct (request_pages_taken n fr pa fr' W ltac:(lia) E H0) as [p [-> Hs Hf Hl _ Hb Hsh _ W']].
    pose proof (wf_first _ W). apply run_got_bits; [done|done|lia|lia| |done|done].
    unfold capacity, Bits.length in *. lia.
Qed.

(** Exactly the run is taken. *)
Lemma request_pages_bits n fr pa fr' : pmm_wf fr -> 1 <= n -> request_pages n fr = Done (pa, fr') -> pa ≠ 0 ->
  forall q, 0 <= q -> locked fr' q = locked fr q || in_run (pa / PAGE_SIZE) n q.
Proof.
  intros W Hn E H0. pose proof (request_pages_run n fr pa fr' W Hn E H0) as G.
  assert (Hin : forall q, in_run (pa / PAGE_SIZE) n q = true -> locked fr' q = true).
  { intros q Hq. unfold in_run in Hq. apply andb_true_iff in Hq. rewrite Z.leb_le, Z.ltb_lt in Hq. by apply (rg_new _ _ _ _ G). }
  assert (Hout : forall q, 0 <= q -> in_run (pa / PAGE_SIZE) n q = false -> locked fr' q = locked fr q).
  { intros q Hq Hrun. destruct (decide (n = 1)) as [->|Hne].
    - unfold request_pages in E. change (1 =? 0) with false in E. change (1 =? 1) with true in E. cbn iota in E.
      destruct (request_page_nonzero fr pa fr' W E H0) as [p [-> Hr Hf _ Hb Hsh _ _ W']]. rewrite Hb by done.
      rewrite Z.div_mul in Hrun by done. unfold in_run in Hrun. destruct (Z.eqb_spec p q) as [<-|]; [|done].
      rewrite Z.leb_refl, (proj2 (Z.ltb_lt p (p + 1))) in Hrun by lia. done.
    - destruct (request_pages_taken n fr pa fr' W ltac:(lia) E H0) as [p [-> Hs Hf Hl _ Hb Hsh _ W']]. rewrite Hb by done. rewrite Z.div_mul in Hrun by done. by rewrite Hrun. }
  intros q Hq. destruct (in_run (pa / PAGE_SIZE) n q) eqn:Er; [by rewrite orb_true_r, Hin|]. rewrite orb_false_r. by apply Hout.
Qed.

Lemma run_got_owned fr fr' pa n a : run_got fr fr' pa n -> frame_locked fr a -> frame_locked fr' a.
Proof. intros G (q & Hq & -> & Hl). exists q. split_and!; [done|done|]. by apply (rg_old _ _ _ _ G). Qed.

(** ** Clients of the allocator

    A client holds a list of page addresses.  It may ask for a page or a run of
    pages; null is all it can tell a refusal by, so that it holds nothing more
    when it gets null.  It may give back a page it holds. *)

Definition run_pages (a n : Z) : list Z := (fun i => a + i * PAGE_SIZE) <$> seqZ 0 n.

Inductive client_step : pmm * list Z -> pmm * list Z -> Prop :=
| client_take s a s' held :
    request_page s = Done (a, s') -> client_step (s, held) (s', if a =? 0 then held else a :: held)
| client_take_run s n a s' held :
    2 <= n -> request_pages n s = Done (a, s') ->
    client_step (s, held) (s', if a =? 0 then held else run_pages a n ++ held)
| client_give s a held1 held2 :
    client_step (s, held1 ++ a :: held2) (free_page a s, held1 ++ held2).

(** Every page held is locked, and no page is held twice. *)
Definition client_inv (st : pmm * list Z) : Prop :=
  pmm_wf (fst st) /\ NoDup (snd st) /\ forall a, a ∈ snd st -> frame_locked (fst st) a.

Lemma frame_locked_mono s s' r :
  bits_changed s s' r true -> forall a, frame_locked s a -> frame_locked s' a.
Proof.
  intros B a (p & Hp & -> & Hl). exists p. split_and!; [done..|].
  rewrite B, Hl by lia. apply if_same.
Qed.

Lemma elem_of_run_pages a n x :
  x ∈ run_pages a n <-> exists i, x = a + i * PAGE_SIZE /\ 0 <= i < n.
Proof.
  unfold run_pages. rewrite list_elem_of_fmap. setoid_rewrite elem_of_seqZ.
  split; intros (i & ? & ?); exists i; split; try done; lia.
Qed.

Lemma NoDup_run_pages a n : NoDup (run_pages a n).
Proof.
  apply NoDup_fmap_2; [|apply NoDup_seqZ]. intros x y. unfold PAGE_SIZE. lia.
Qed.

Lemma run_taken_frames s s' a p n x :
  pmm_wf s -> run_taken s s' a p n -> x ∈ run_pages a n ->
  ~ frame_locked s x /\ frame_locked s' x.
Proof.
  intros Hwf T Hx. apply elem_of_run_pages in Hx as (i & -> & Hi).
  rewrite (run_address _ _ _ _ _ T), <- Z.mul_add_distr_r.
  pose proof (run_start _ _ _ _ _ T). pose proof (wf_first s Hwf).
  pose proof (run_limit _ _ _ _ _ T) as Hlim. unfold Bits.length in Hlim.
  destruct (wf_bitmap s Hwf) as [? _].
  rewrite !frame_locked_page by lia. rewrite (run_was_free _ _ _ _ _ T) by lia. split; [done|].
  rewrite (run_bits _ _ _ _ _ T) by lia. unfold in_run, capacity. by zcases; cbn; try lia.
Qed.

Lemma client_step_inv st st' : client_inv st -> client_step st st' -> client_inv st'.
Proof.
  intros (Hwf & Hnd & Hl) Hs. destruct Hs as [s a s' held E|s n a s' held Hn E|s a h1 h2]; cbn in *.
  - destruct (request_page_spec s Hwf) as (a1 & s1 & E1 & H). change (request_page s = Done (a, s')) in E. rewrite E in E1. injection E1 as <- <-.
    destruct H as [[p T]|[-> R]].
    + destruct (page_taken_frames s a p s' Hwf T) as (W & _ & _ & Hfresh & Ho).
      destruct (a =? 0); [split_and!; [done|done|]; intros b Hb; apply Ho; left; by apply Hl|]. split_and!; [done| |].
      * apply NoDup_cons. split; [|done]. intros Hin. by apply Hfresh, Hl.
      * intros b Hb. apply Ho. apply elem_of_cons in Hb as [->|Hb]; auto.
    + split_and!; [apply R|done|]. intros b Hb. rewrite (refused_state _ _ R). by apply Hl.
  - destruct (request_pages_cases n s a s' Hwf Hn E) as [[p T]|[-> ->]]; [|by split_and!].
    destruct (a =? 0); [split_and!; [apply T|done|]; intros b Hb; eapply frame_locked_mono; [apply T|auto]|].
    split_and!; [apply T| |].
    + apply NoDup_app. split_and!; [apply NoDup_run_pages| |done].
      intros x Hx Hin. destruct (run_taken_frames _ _ _ _ _ _ Hwf T Hx). by apply Hl in Hin.
    + intros x Hx. apply elem_of_app in Hx as [Hx|Hx].
      * by destruct (run_taken_frames _ _ _ _ _ _ Hwf T Hx).
      * eapply frame_locked_mono; [apply T|]. auto.
  - destruct (Hl a ltac:(set_solver)) as (p & Hp & -> & Hlp).
    rewrite <- (Permutation_middle h1 h2) in Hnd. apply NoDup_cons in Hnd as [Hni Hnd].
    assert (Hidx : p * PAGE_SIZE / PAGE_SIZE = p) by (by apply Z.div_mul).
    assert (Hpa : 0 <= p * PAGE_SIZE) by (unfold PAGE_SIZE; lia).
    split_and!; [|done|].
    + apply free_page_wf; [done..|by rewrite Hidx].
    + intros b Hb. assert (Hb' : b ∈ h1 ++ p * PAGE_SIZE :: h2)
        by (apply elem_of_app in Hb as [?|?]; apply elem_of_app; [by left|by right; right]).
      destruct (Hl b Hb') as (q & Hq & -> & Hlq).
      apply frame_locked_page; [done|]. unfold free_page.
      rewrite (free_page_bits _ _ Hwf Hpa), Hidx, Hlq by lia.
      by destruct (Z.eqb_spec p q) as [->|].
Qed.

(** ** Properties *)

(** C1: [request_page] always returns.  If some page below [TotalPages] is free it
    takes the lowest: the returned address is that page's, exactly its bit is
    set, the used counter grows by one, the first-free hint moves past it and the
    invariant is kept.  If all of them are locked it returns null, and only the
    hint changes.  Since page zero is a page as well, null does not mean that
    nothing was taken. *)
Theorem request_page_lowest_free s :
  pmm_wf s ->
  exists a s', request_page s = Done (a, s') /\
  ((exists p, page_taken s s' a p) \/ a = 0 /\ page_refused s s').
Proof. apply request_page_spec. Qed.

(** A bitmap of three bytes with pages 0, 1, 3 and 9 locked. *)
Definition demo : pmm :=
  lock_page (9 * PAGE_SIZE) (lock_page (3 * PAGE_SIZE) (lock_pages 0 2
    (mkPmm (Bits.init 3 0) 20 21 0 20 0))).

Lemma empty_pmm_wf size total base :
  0 <= size <= 2 ^ 37 -> 0 <= total <= 8 * size ->
  pmm_wf (mkPmm (Bits.init size base) total (wrap64 (total + 1)) 0 total 0).
Proof.
  intros Hs Ht.
  split; unfold capacity; cbn -[Bits.count Z.mul Z.to_nat]; try done; try lia.
  - apply Bits.init_wf. lia.
  - rewrite Bits.count_none; [done|]. intros i _. apply Bits.get_init.
  - f_equal. lia.
Qed.

Lemma demo_wf : pmm_wf demo.
Proof.
  unfold demo. apply lock_page_wf; [|vm_compute; discriminate].
  apply lock_page_wf; [|vm_compute; discriminate].
  change 0 with (0 * PAGE_SIZE) at 1.
  apply (lock_pages_spec 0 2); [|unfold PAGE_SIZE; lia..].
  apply (empty_pmm_wf 3 20 0); lia.
Qed.

Lemma request_page_lowest_free_witness :
  pmm_wf demo /\
  exists a s', request_page demo = Done (a, s') /\ ((exists p, page_taken demo s' a p) \/ a = 0 /\ page_refused demo s').
Proof. split; [apply demo_wf|]. apply request_page_lowest_free, demo_wf. Defined.

(** Twice null: from page zero, which is free, and from a full memory. *)
Example null_twice : exists s1 s2, let s := mkPmm (Bits.init 1 0) 1 2 0 1 0 in
  request_page s = Done (0, s1) /\ locked s1 0 = true /\ request_page s1 = Done (0, s2) /\ FirstFreePage s2 = 1.
Proof.
  eexists _, _. split; [vm_compute; reflexivity|]. split; [vm_compute; reflexivity|].
  split; vm_compute; reflexivity.
Qed.

(** A request for at least two pages that passes the two guards returns the
    lowest run of free pages at or above the first-free hint that ends below
    [PageMap.length()], and locks exactly that run; if there is no such run it
    returns null, with the state unchanged. *)
Theorem request_pages_lowest_run n s :
  pmm_wf s -> 2 <= n -> n <= TotalFreePages s -> n <= MaxFreePagesInARow s ->
  exists a s', request_pages n s = Done (a, s') /\
  ((exists p, run_taken s s' a p n) \/
   (a = 0 /\ s' = s /\ no_run_in s n (FirstFreePage s) (Bits.length (PageMap s)))).
Proof. apply request_pages_many. Qed.

(** Sixteen bytes of bitmap for 100 pages, all free. *)
Definition fresh : pmm := mkPmm (Bits.init 16 0) 100 101 0 100 0.

Lemma fresh_wf : pmm_wf fresh.
Proof. apply (empty_pmm_wf 16 100 0); lia. Qed.

Lemma request_pages_lowest_run_witness :
  (exists s', request_pages 4 fresh = Done (0, s')) /\
  exists a s', request_pages 4 fresh = Done (a, s') /\
  ((exists p, run_taken fresh s' a p 4) \/
   (a = 0 /\ s' = fresh /\ no_run_in fresh 4 (FirstFreePage fresh) (Bits.length (PageMap fresh)))).
Proof.
  split; [eexists; vm_compute; reflexivity|].
  apply (request_pages_lowest_run 4 fresh); [apply fresh_wf|cbn; lia..].
Defined.

(** C2: in every state reachable by a client that asks for pages and runs, takes
    null for a refusal and gives back only what it holds, whether or not memory
    runs out, the allocator's invariant holds, every held page is locked and no
    page is held twice. *)
Theorem client_never_holds_twice s0 st :
  pmm_wf s0 -> rtc client_step (s0, []) st -> client_inv st.
Proof.
  intros Hwf Hr. assert (H0 : client_inv (s0, [])).
  { split_and!; [done|constructor|]. intros a Ha. by apply not_elem_of_nil in Ha. }
  revert H0. generalize dependent (s0, @nil Z). intros st0 Hr.
  induction Hr; eauto using client_step_inv.
Qed.

(** The state after a request of one page. *)
Definition after_request (s : pmm) : pmm :=
  match request_page s with Done (_, s') => s' | Stop _ => s end.

Lemma client_never_holds_twice_witness :
  let s1 := after_request fresh in let s2 := after_request s1 in let s3 := after_request s2 in
  request_page s2 = Done (2 * PAGE_SIZE, s3) /\ client_inv (free_page PAGE_SIZE s3, [2 * PAGE_SIZE]).
Proof.
  intros s1 s2 s3.
  assert (E1 : request_page fresh = Done (0, s1)) by (vm_compute; reflexivity).
  assert (E2 : request_page s1 = Done (PAGE_SIZE, s2)) by (vm_compute; reflexivity).
  assert (E3 : request_page s2 = Done (2 * PAGE_SIZE, s3)) by (vm_compute; reflexivity).
  split; [exact E3|]. apply (client_never_holds_twice fresh _ fresh_wf).
  eapply rtc_l; [exact (client_take fresh 0 s1 [] E1)|].
  eapply rtc_l; [exact (client_take s1 PAGE_SIZE s2 [] E2)|].
  eapply rtc_l; [exact (client_take s2 (2 * PAGE_SIZE) s3 [PAGE_SIZE] E3)|].
  eapply rtc_l; [exact (client_give s3 PAGE_SIZE [2 * PAGE_SIZE] [])|]. apply rtc_refl.
Defined.

(** Giving back a page that was just taken restores every bit and both
    counters of the allocator. *)
Theorem free_undoes_request s a s' :
  pmm_wf s -> 0 < available s -> request_page s = Done (a, s') ->
  let s2 := free_page a s' in
  pmm_wf s2 /\ same_shape s s2 /\ (forall p, 0 <= p -> locked s2 p = locked s p) /\
  TotalUsedPages s2 = TotalUsedPages s /\ TotalFreePages s2 = TotalFreePages s.
Proof.
  intros Hwf Hav E s2. destruct (request_page_spec s Hwf) as (a1 & s1 & E1 & H). change (request_page s = Done (a, s')) in E. rewrite E in E1. injection E1 as <- <-.
  destruct H as [[p T]|[_ R]]; [|pose proof (page_refused_available _ _ Hwf R); lia]. destruct (free_taken_page _ _ _ _ T) as (Hl & Ha & Hp).
  pose proof (taken_wf _ _ _ _ T) as W'. pose proof (free_page_wf a s' W' Ha Hl) as W2.
  pose proof (free_page_shape a s') as Sh2. pose proof (taken_shape _ _ _ _ T) as Sh1.
  pose proof (same_shape_trans _ _ _ Sh1 Sh2) as Sh.
  pose proof (free_page_counts a s' (locked_in_range _ _ Hl)) as [Hu _].
  pose proof (used_range s Hwf).
  assert (Hu2 : TotalUsedPages s2 = TotalUsedPages s).
  { unfold s2, free_page. rewrite Hu, (taken_used _ _ _ _ T).
    replace (TotalUsedPages s + 1 - 1) with (TotalUsedPages s) by lia.
    apply wrap64_small. unfold is_u64. lia. }
  split_and!; [done|done| |done|].
  - intros q Hq. unfold s2, free_page. rewrite (free_page_bits a s' W' Ha), Hp by lia.
    rewrite (taken_bits _ _ _ _ T) by lia. rewrite (same_shape_capacity _ _ Sh1).
    destruct (Z.eqb_spec p q) as [->|]; [|done].
    rewrite (taken_free _ _ _ _ T). by destruct (q <? capacity s).
  - change (free_page_impl a s') with s2 in *.
    rewrite (wf_free _ W2), (wf_free _ Hwf), Hu2. by destruct Sh as (_ & _ & -> & _).
Qed.

Lemma free_undoes_request_witness :
  let s2 := match request_page demo with Done (a, s') => free_page a s' | Stop _ => demo end in
  (exists s', request_page demo = Done (2 * PAGE_SIZE, s')) /\
  pmm_wf s2 /\ same_shape demo s2 /\ (forall p, 0 <= p -> locked s2 p = locked demo p) /\
  TotalUsedPages s2 = TotalUsedPages demo /\ TotalFreePages s2 = TotalFreePages demo.
Proof.
  split; [eexists; vm_compute; reflexivity|].
  destruct (request_page demo) as [[a s']|] eqn:E; [|vm_compute in E; discriminate].
  apply (free_undoes_request demo a s' demo_wf); [apply Z.ltb_lt; vm_compute; reflexivity|exact E].
Defined.

(** [PageMap.length()] is a number of bytes, but [request_pages] uses it as
    a number of pages: no run it returns reaches a page at or above that byte
    count, whatever is free above it. *)
Theorem request_pages_stays_in_first_eighth n s a s' :
  pmm_wf s -> 2 <= n -> request_pages n s = Done (a, s') -> a ≠ 0 ->
  a + n * PAGE_SIZE < Bits.length (PageMap s) * PAGE_SIZE /\ 8 * Bits.length (PageMap s) = capacity s.
Proof.
  intros Hwf Hn E Ha. split; [|done]. destruct (request_pages_taken n s a s' Hwf Hn E Ha) as [p T].
  pose proof (run_limit _ _ _ _ _ T). rewrite (run_address _ _ _ _ _ T). unfold PAGE_SIZE. lia.
Qed.

(** Sixteen bytes of bitmap for 100 pages of which the first three are in use. *)
Lemma request_pages_stays_in_first_eighth_witness :
  exists s', request_pages 4 (lock_pages 0 3 fresh) = Done (3 * PAGE_SIZE, s') /\
  3 * PAGE_SIZE + 4 * PAGE_SIZE < Bits.length (PageMap (lock_pages 0 3 fresh)) * PAGE_SIZE /\
  8 * Bits.length (PageMap (lock_pages 0 3 fresh)) = capacity (lock_pages 0 3 fresh).
Proof.
  eexists. split; [vm_compute; reflexivity|].
  eapply (request_pages_stays_in_first_eighth 4 (lock_pages 0 3 fresh) (3 * PAGE_SIZE));
    [|lia|vm_compute; reflexivity|done].
  apply (lock_pages_spec 0 3); [apply fresh_wf|unfold PAGE_SIZE; lia..].
Defined.

(** Freeing a page inside the bitmap that is already free changes no bit, yet
    it still takes one from the used counter and adds one to the free counter,
    so the counters no longer describe the bitmap. *)
Theorem double_free_skews_counters a s :
  pmm_wf s -> 0 <= a -> a / PAGE_SIZE < capacity s -> locked s (a / PAGE_SIZE) = false ->
  let s' := free_page a s in
  (forall p, 0 <= p -> locked s' p = locked s p) /\
  TotalUsedPages s' = TotalUsedPages s -64 1 /\ TotalFreePages s' = TotalFreePages s +64 1 /\
  ~ pmm_wf s'.
Proof.
  intros Hwf Ha Hin Hl s'. change s' with (free_page_impl a s) in *. clear s'.
  destruct (free_page_counts a s Hin) as [Hu Hf].
  pose proof (page_index_nonneg a Ha).
  assert (Hb : forall p, 0 <= p -> locked (free_page_impl a s) p = locked s p).
  { intros p Hp. rewrite (free_page_bits a s Hwf Ha) by lia.
    destruct (Z.eqb_spec (a / PAGE_SIZE) p) as [<-|]; [|done]. rewrite Hl. apply if_same. }
  split_and!; [done..|]. intros W. pose proof (wf_used _ W) as Hw.
  rewrite (same_shape_capacity _ _ (free_page_shape a s)) in Hw.
  rewrite (Bits.count_ext _ (locked s)), <- (wf_used s Hwf) in Hw by (intros; apply Hb; lia).
  rewrite Hu in Hw. pose proof (used_range s Hwf).
  unfold wrap64 in Hw. destruct (decide (TotalUsedPages s = 0)) as [E|].
  - rewrite E in Hw. vm_compute in Hw. discriminate.
  - rewrite Z.mod_small in Hw; lia.
Qed.

Lemma double_free_skews_counters_witness :
  let s' := free_page (5 * PAGE_SIZE) demo in
  (forall p, 0 <= p -> locked s' p = locked demo p) /\
  TotalUsedPages s' = TotalUsedPages demo -64 1 /\ TotalFreePages s' = TotalFreePages demo +64 1 /\
  ~ pmm_wf s'.
Proof.
  apply (double_free_skews_counters (5 * PAGE_SIZE) demo);
    [apply demo_wf|vm_compute; discriminate|vm_compute; reflexivity|vm_compute; reflexivity].
Defined.
