(* ===== verification/Paging.v ===== *)
(** * Page table entries and the page map indexer

    Models src/kernel/src/memory/paging.h: [PageTableFlag],
    [PageMapIndexer] and [PageDirectoryEntry].  An entry is its 64-bit
    [Value]. *)

From S2P Require Import Prelude.

(** ** Definitions *)

Inductive PageTableFlag :=
| Present | ReadWrite | UserSuper | WriteThrough | CacheDisabled | Accessed | Dirty
| LargerPages | Global | Lensor_CopyOnWrite | NX.

#[export] Instance PageTableFlag_eq_dec : EqDecision PageTableFlag.
Proof. solve_decision. Defined.

Definition flag_bit (f : PageTableFlag) : Z :=
  match f with
  | Present => 0 | ReadWrite => 1 | UserSuper => 2 | WriteThrough => 3 | CacheDisabled => 4
  | Accessed => 5 | Dirty => 6 | LargerPages => 7 | Global => 8 | Lensor_CopyOnWrite => 9
  | NX => 63
  end.

Definition flag_value (f : PageTableFlag) : Z := Z.shiftl 1 (flag_bit f).

(** The [PageMapIndexer] constructor. *)
Record PageMapIndexer := mkIndexer {
  PageDirectoryPointerIndex : Z;
  PageDirectoryIndex : Z;
  PageTableIndex : Z;
  PageIndex : Z
}.

Definition indexer (virtualAddress : Z) : PageMapIndexer :=
  let v := Z.shiftr virtualAddress 12 in
  let page := Z.land v 0x1ff in
  let v := Z.shiftr v 9 in
  let page_table := Z.land v 0x1ff in
  let v := Z.shiftr v 9 in
  let page_directory := Z.land v 0x1ff in
  let v := Z.shiftr v 9 in
  let page_directory_pointer := Z.land v 0x1ff in
  mkIndexer page_directory_pointer page_directory page_table page.

Module Pde.

Definition address (Value : Z) : Z := Z.land Value 0x000ffffffffff000.

Definition set_address (Value addr : Z) : Z :=
  Z.lor (Z.land Value 0xfff0000000000fff) (Z.land addr 0x000ffffffffff000).

Definition flag (Value : Z) (f : PageTableFlag) : bool :=
  negb (Z.land Value (flag_value f) =? 0).

(** [flags()] assigns the masked value back ([Value &= ...]): it returns the
    flags and the entry it leaves behind. *)
Definition flags (Value : Z) : Z * Z :=
  let Value := Z.land Value 0xfff0000000000fff in (Value, Value).

Definition set_flag (Value : Z) (f : PageTableFlag) (enabled : bool) : Z :=
  let v := Z.land Value (not64 (flag_value f)) in
  if enabled then Z.lor v (flag_value f) else v.

Definition or_flag (Value : Z) (f : PageTableFlag) : Z := Z.lor Value (flag_value f).

Definition or_flag_if (Value : Z) (f : PageTableFlag) (enabled : bool) : Z :=
  if enabled then Z.lor Value (flag_value f) else Value.

End Pde.

(** The virtual address [print_page_map] computes from four table indices. *)
Definition indices_address (i j k l : Z) : Z :=
  wrap64 (Z.shiftl
    (Z.lor (Z.lor (Z.lor (Z.lor 0 (wrap64 (Z.shiftl i 27))) (wrap64 (Z.shiftl j 18)))
      (wrap64 (Z.shiftl k 9))) (Z.shiftl l 0)) 12).

(** ** Bit-level lemmas *)

Lemma flag_bit_range f : 0 <= flag_bit f < 64.
Proof. destruct f; cbn; lia. Qed.

Lemma flag_bit_inj f g : flag_bit f = flag_bit g -> f = g.
Proof. destruct f, g; cbn; done. Qed.

Lemma flag_value_pow f : flag_value f = 2 ^ flag_bit f.
Proof. unfold flag_value. pose proof (flag_bit_range f). rewrite Z.shiftl_1_l. done. Qed.

(** A flag is never one of the address bits. *)
Lemma flag_bit_not_address f : (12 <=? flag_bit f) && (flag_bit f <? 52) = false.
Proof. by destruct f. Qed.

Lemma testbit_address_mask i :
  0 <= i -> Z.testbit 0x000ffffffffff000 i = (12 <=? i) && (i <? 52).
Proof.
  intros Hi. change 0x000ffffffffff000 with (Z.shiftl (Z.ones 40) 12).
  rewrite Z.shiftl_spec by done. rewrite Z.testbit_ones by lia.
  by zcases; cbn; try lia.
Qed.

Lemma testbit_flags_mask i :
  0 <= i -> Z.testbit 0xfff0000000000fff i = (i <? 64) && negb ((12 <=? i) && (i <? 52)).
Proof.
  intros Hi. change 0xfff0000000000fff with (Z.ldiff (Z.ones 64) 0x000ffffffffff000).
  rewrite Z.ldiff_spec, testbit_address_mask by done. rewrite Z.testbit_ones by lia.
  by zcases; cbn; try lia.
Qed.

Lemma testbit_u64_high v i : is_u64 v -> 64 <= i -> Z.testbit v i = false.
Proof.
  intros [H0 H] Hi. destruct (decide (v = 0)) as [->|]; [apply Z.bits_0|].
  apply Z.bits_above_log2; [lia|]. pose proof (Z.log2_lt_pow2 v 64 ltac:(lia)). lia.
Qed.

Lemma u64_bound v : 0 <= v -> (forall i, 64 <= i -> Z.testbit v i = false) -> is_u64 v.
Proof.
  intros H0 H. split; [done|]. destruct (decide (v = 0)) as [->|]; [lia|].
  apply Z.log2_lt_pow2; [lia|]. apply Z.nle_gt. intros Hl.
  specialize (H _ Hl). by rewrite Z.bit_log2 in H by lia.
Qed.

Lemma land_pow2_eqb v n : 0 <= n -> negb (Z.land v (2 ^ n) =? 0) = Z.testbit v n.
Proof.
  intros Hn. destruct (Z.testbit v n) eqn:T.
  - apply negb_true_iff, Z.eqb_neq. intros E.
    assert (E' : Z.testbit (Z.land v (2 ^ n)) n = false) by (by rewrite E, Z.bits_0).
    by rewrite Z.land_spec, T, Z.pow2_bits_true in E' by lia.
  - apply negb_false_iff, Z.eqb_eq, Z.bits_inj'. intros i Hi.
    rewrite Z.land_spec, Z.pow2_bits_eqb, Z.bits_0 by lia.
    destruct (Z.eqb_spec n i) as [->|]; [by rewrite T|apply andb_false_r].
Qed.

Lemma pde_flag_testbit v f : Pde.flag v f = Z.testbit v (flag_bit f).
Proof. unfold Pde.flag. rewrite flag_value_pow. apply land_pow2_eqb, flag_bit_range. Qed.

(** Every operation on an entry, read bit by bit. *)
Lemma address_bits v i : 0 <= i -> Z.testbit (Pde.address v) i = Z.testbit v i && ((12 <=? i) && (i <? 52)).
Proof. intros Hi. unfold Pde.address. by rewrite Z.land_spec, testbit_address_mask. Qed.

Lemma set_address_bits v a i :
  is_u64 v -> 0 <= i ->
  Z.testbit (Pde.set_address v a) i = if (12 <=? i) && (i <? 52) then Z.testbit a i else Z.testbit v i.
Proof.
  intros Hv Hi. unfold Pde.set_address.
  rewrite Z.lor_spec, !Z.land_spec, testbit_flags_mask, testbit_address_mask by done.
  destruct (Z.ltb_spec i 64) as [|Hge]; [|rewrite (testbit_u64_high v i Hv Hge)];
    destruct ((12 <=? i) && (i <? 52)); cbn; rewrite ?andb_false_r, ?andb_true_r, ?orb_false_r; done.
Qed.

Lemma set_flag_bits v f b i :
  is_u64 v -> 0 <= i ->
  Z.testbit (Pde.set_flag v f b) i = if i =? flag_bit f then b else Z.testbit v i.
Proof.
  intros Hv Hi. unfold Pde.set_flag. rewrite flag_value_pow. pose proof (flag_bit_range f) as Hf.
  assert (E : Z.testbit (Z.land v (not64 (2 ^ flag_bit f))) i =
              Z.testbit v i && negb (i =? flag_bit f)).
  { change (2 ^ 64 - 1) with (Z.ones 64).
    rewrite Z.land_spec, Z.ldiff_spec, Z.testbit_ones, Z.pow2_bits_eqb by lia.
    rewrite (Z.eqb_sym (flag_bit f) i). destruct (Z.ltb_spec i 64) as [|Hge].
    - by rewrite (proj2 (Z.leb_le 0 i)) by lia.
    - by rewrite (testbit_u64_high v i Hv Hge). }
  destruct b; [rewrite Z.lor_spec|]; rewrite E; rewrite ?Z.pow2_bits_eqb, ?(Z.eqb_sym (flag_bit f) i) by lia;
    destruct (i =? flag_bit f), (Z.testbit v i); done.
Qed.

Lemma or_flag_if_bits v f b i :
  0 <= i -> Z.testbit (Pde.or_flag_if v f b) i = Z.testbit v i || (b && (i =? flag_bit f)).
Proof.
  intros Hi. unfold Pde.or_flag_if. pose proof (flag_bit_range f). destruct b; [|by rewrite orb_false_r].
  by rewrite Z.lor_spec, flag_value_pow, Z.pow2_bits_eqb, (Z.eqb_sym (flag_bit f)) by lia.
Qed.

Lemma lor_u64 a b : is_u64 a -> is_u64 b -> is_u64 (Z.lor a b).
Proof.
  intros Ha Hb. apply u64_bound; [apply Z.lor_nonneg; split; [apply Ha|apply Hb]|].
  intros i Hi. by rewrite Z.lor_spec, !testbit_u64_high.
Qed.

Lemma land_u64_l a b : is_u64 a -> is_u64 (Z.land a b).
Proof.
  intros Ha. apply u64_bound; [apply Z.land_nonneg; left; apply Ha|].
  intros i Hi. by rewrite Z.land_spec, (testbit_u64_high a).
Qed.

Lemma flag_value_u64 f : is_u64 (flag_value f).
Proof. destruct f; vm_compute; split; congruence. Qed.

Lemma set_address_u64 v a : is_u64 v -> is_u64 (Pde.set_address v a).
Proof.
  intros Hv. apply lor_u64; [by apply land_u64_l|]. rewrite Z.land_comm. by apply land_u64_l.
Qed.

Lemma set_flag_u64 v f b : is_u64 v -> is_u64 (Pde.set_flag v f b).
Proof.
  intros Hv. unfold Pde.set_flag. destruct b; auto using lor_u64, land_u64_l, flag_value_u64.
Qed.

Lemma or_flag_if_u64 v f b : is_u64 v -> is_u64 (Pde.or_flag_if v f b).
Proof. intros Hv. unfold Pde.or_flag_if. destruct b; auto using lor_u64, flag_value_u64. Qed.

#[export] Hint Resolve set_address_u64 set_flag_u64 or_flag_if_u64 lor_u64 flag_value_u64 : lensor.

(** A page-aligned physical address below 2^52. *)
Definition frame_address (a : Z) : Prop := 0 <= a < 2 ^ 52 /\ a mod PAGE_SIZE = 0.

Lemma frame_bits a i : frame_address a -> 0 <= i -> ~ (12 <= i < 52) -> Z.testbit a i = false.
Proof.
  intros [Hr Hm] Hi Ho. destruct (Z.lt_ge_cases i 12).
  - unfold PAGE_SIZE in Hm. rewrite Z.testbit_false by lia.
    replace a with (a / 4096 * 2 ^ (12 - i) * 2 ^ i).
    + rewrite Z.div_mul by (apply Z.pow_nonzero; lia).
      replace (12 - i) with (1 + (11 - i)) by lia. rewrite Z.pow_add_r by lia.
      rewrite (Z.mul_comm (2 ^ 1)), Z.mul_assoc. apply Z.mod_mul. lia.
    + rewrite <- Z.mul_assoc, <- Z.pow_add_r by lia. replace (12 - i + i) with 12 by lia.
      change (2 ^ 12) with 4096. dlia.
  - destruct (decide (a = 0)) as [->|]; [apply Z.bits_0|].
    apply Z.bits_above_log2; [lia|]. pose proof (Z.log2_lt_pow2 a 52 ltac:(lia)). lia.
Qed.

Lemma address_set_address v a :
  is_u64 v -> frame_address a -> Pde.address (Pde.set_address v a) = a.
Proof.
  intros Hv Ha. apply Z.bits_inj'. intros i Hi. rewrite address_bits, set_address_bits by done.
  destruct ((12 <=? i) && (i <? 52)) eqn:E; [by rewrite andb_true_r|].
  rewrite andb_false_r. symmetry. apply frame_bits; [done..|]. zcases; cbn in E; done || lia.
Qed.

Lemma address_frame v : frame_address (Pde.address v).
Proof.
  assert (H0 : 0 <= Pde.address v) by (apply Z.land_nonneg; right; lia).
  split; [split; [done|]|].
  - destruct (decide (Pde.address v = 0)) as [->|]; [lia|].
    apply Z.log2_lt_pow2; [lia|]. apply Z.nle_gt. intros Hl.
    pose proof (Z.bit_log2 (Pde.address v) ltac:(lia)) as Hb.
    rewrite address_bits in Hb by lia. rewrite (proj2 (Z.ltb_ge _ 52)) in Hb by lia.
    by rewrite !andb_false_r in Hb.
  - unfold PAGE_SIZE. change 4096 with (2 ^ 12). rewrite <- Z.land_ones by lia.
    apply Z.bits_inj'. intros i Hi. rewrite Z.land_spec, address_bits, Z.testbit_ones, Z.bits_0 by lia.
    destruct (Z.testbit v i); [|done]. by zcases; cbn; try lia.
Qed.

(** The address bits do not depend on the flags. *)
Lemma address_set_flag v f b : is_u64 v -> Pde.address (Pde.set_flag v f b) = Pde.address v.
Proof.
  intros Hv. apply Z.bits_inj'. intros i Hi. rewrite !address_bits, set_flag_bits by done.
  destruct (Z.eqb_spec i (flag_bit f)) as [->|]; [|done].
  by rewrite flag_bit_not_address, !andb_false_r.
Qed.

Lemma address_or_flag_if v f b : Pde.address (Pde.or_flag_if v f b) = Pde.address v.
Proof.
  apply Z.bits_inj'. intros i Hi. rewrite !address_bits, or_flag_if_bits by done.
  destruct (Z.eqb_spec i (flag_bit f)) as [->|].
  - by rewrite flag_bit_not_address, !andb_false_r.
  - by rewrite andb_false_r, orb_false_r.
Qed.

Lemma flag_set_flag v f g b :
  is_u64 v -> Pde.flag (Pde.set_flag v f b) g = if decide (f = g) then b else Pde.flag v g.
Proof.
  intros Hv. pose proof (flag_bit_range g). rewrite !pde_flag_testbit, set_flag_bits by (done || lia).
  destruct (Z.eqb_spec (flag_bit g) (flag_bit f)) as [E|E]; case_decide; subst; try done.
  by apply flag_bit_inj in E.
Qed.

Lemma flag_set_address v a g : is_u64 v -> Pde.flag (Pde.set_address v a) g = Pde.flag v g.
Proof.
  intros Hv. pose proof (flag_bit_range g). rewrite !pde_flag_testbit, set_address_bits by (done || lia).
  by rewrite flag_bit_not_address.
Qed.

Lemma flag_or_flag_if v f b g :
  Pde.flag (Pde.or_flag_if v f b) g = Pde.flag v g || (b && bool_decide (f = g)).
Proof.
  pose proof (flag_bit_range g). rewrite !pde_flag_testbit, or_flag_if_bits by lia.
  destruct (Z.eqb_spec (flag_bit g) (flag_bit f)) as [E|E]; case_bool_decide; subst; try done.
  by apply flag_bit_inj in E.
Qed.

Create Rewrite HintDb pde.

#[export] Hint Rewrite address_set_flag flag_set_flag flag_set_address using (auto with lensor) : pde.
#[export] Hint Rewrite address_or_flag_if flag_or_flag_if : pde.

(** ** The indexer *)

Lemma land_1ff v : Z.land v 0x1ff = v mod 512.
Proof. change 0x1ff with (Z.ones 9). by rewrite Z.land_ones by lia. Qed.

Lemma indexer_fields va :
  0 <= va ->
  indexer va = mkIndexer (va / 2 ^ 39 mod 512) (va / 2 ^ 30 mod 512)
                         (va / 2 ^ 21 mod 512) (va / 2 ^ 12 mod 512).
Proof.
  intros H. unfold indexer. cbv zeta. rewrite !Z.shiftr_shiftr by lia. rewrite !land_1ff.
  by rewrite !Z.shiftr_div_pow2 by lia.
Qed.

Lemma indexer_same_page va vb : va / PAGE_SIZE = vb / PAGE_SIZE -> indexer va = indexer vb.
Proof.
  intros H. unfold indexer. cbv zeta. rewrite !(Z.shiftr_div_pow2 _ 12) by lia. change (2 ^ 12) with PAGE_SIZE. by rewrite H.
Qed.

Lemma indexer_range va :
  0 <= va ->
  0 <= PageDirectoryPointerIndex (indexer va) < 512 /\ 0 <= PageDirectoryIndex (indexer va) < 512 /\
  0 <= PageTableIndex (indexer va) < 512 /\ 0 <= PageIndex (indexer va) < 512.
Proof.
  intros H. rewrite indexer_fields by done. cbn. split_and!; apply Z.mod_pos_bound; lia.
Qed.

Lemma indices_address_value i j k l :
  0 <= i < 512 -> 0 <= j < 512 -> 0 <= k < 512 -> 0 <= l < 512 ->
  indices_address i j k l = (((i * 512 + j) * 512 + k) * 512 + l) * 4096.
Proof.
  intros Hi Hj Hk Hl. unfold indices_address.
  rewrite !Z.shiftl_mul_pow2 by lia.
  rewrite (wrap64_small (i * 2 ^ 27)), (wrap64_small (j * 2 ^ 18)), (wrap64_small (k * 2 ^ 9))
    by (unfold is_u64; lia).
  rewrite Z.lor_0_l, Z.mul_1_r.
  rewrite <- (Z.shiftl_mul_pow2 i 27), (lor_shiftl_add i _ 27) by lia.
  replace (i * 2 ^ 27 + j * 2 ^ 18) with ((i * 512 + j) * 2 ^ 18) by lia.
  rewrite <- (Z.shiftl_mul_pow2 (i * 512 + j) 18), (lor_shiftl_add _ _ 18) by lia.
  replace ((i * 512 + j) * 2 ^ 18 + k * 2 ^ 9) with (((i * 512 + j) * 512 + k) * 2 ^ 9) by lia.
  rewrite <- (Z.shiftl_mul_pow2 ((i * 512 + j) * 512 + k) 9), (lor_shiftl_add _ _ 9) by lia.
  rewrite wrap64_small by (unfold is_u64; lia). lia.
Qed.

(** Two addresses with the same four indices are on the same page of the 48-bit
    address space. *)
Lemma indexer_inj va vb :
  0 <= va -> 0 <= vb -> indexer va = indexer vb ->
  (va / PAGE_SIZE) mod 2 ^ 36 = (vb / PAGE_SIZE) mod 2 ^ 36.
Proof.
  intros Ha Hb E. rewrite !indexer_fields in E by done. injection E as E1 E2 E3 E4.
  unfold PAGE_SIZE. dlia.
Qed.

(** ** Properties *)

(** The indices [PageMapIndexer] extracts from a page-aligned 48-bit virtual
    address are each below 512, and [print_page_map]'s recomposition of four
    indices gives the address back. *)
Theorem indexer_round_trip va :
  0 <= va < 2 ^ 48 -> va mod PAGE_SIZE = 0 ->
  let x := indexer va in
  0 <= PageDirectoryPointerIndex x < 512 /\ 0 <= PageDirectoryIndex x < 512 /\
  0 <= PageTableIndex x < 512 /\ 0 <= PageIndex x < 512 /\
  indices_address (PageDirectoryPointerIndex x) (PageDirectoryIndex x)
                  (PageTableIndex x) (PageIndex x) = va.
Proof.
  intros Hr Hal. cbv zeta. destruct (indexer_range va ltac:(lia)) as (H1 & H2 & H3 & H4).
  split_and!; try lia. rewrite indices_address_value by done.
  rewrite indexer_fields by lia. cbn -[Z.pow Z.mul Z.add].
  unfold PAGE_SIZE in Hal. dlia.
Qed.

Lemma indexer_round_trip_witness :
  let x := indexer 0x7ffff8001000 in
  0 <= PageDirectoryPointerIndex x < 512 /\ 0 <= PageDirectoryIndex x < 512 /\
  0 <= PageTableIndex x < 512 /\ 0 <= PageIndex x < 512 /\
  indices_address (PageDirectoryPointerIndex x) (PageDirectoryIndex x)
                  (PageTableIndex x) (PageIndex x) = 0x7ffff8001000.
Proof. apply (indexer_round_trip 0x7ffff8001000); [lia|reflexivity]. Defined.

(** In an entry, the address field and the eleven flags are independent:
    storing a frame address reads back as that address and leaves every flag as
    it was, and storing a flag reads back, leaves the other flags and leaves the
    address. *)
Theorem entry_fields_independent v a f g b :
  is_u64 v -> frame_address a ->
  Pde.address (Pde.set_address v a) = a /\
  Pde.flag (Pde.set_address v a) g = Pde.flag v g /\
  Pde.flag (Pde.set_flag v f b) g = (if decide (f = g) then b else Pde.flag v g) /\
  Pde.address (Pde.set_flag v f b) = Pde.address v.
Proof.
  intros Hv Ha. split_and!; [by apply address_set_address|by apply flag_set_address
    |by apply flag_set_flag|by apply address_set_flag].
Qed.

Lemma entry_fields_independent_witness :
  Pde.address (Pde.set_address 0x8000000000000003 0x1000) = 0x1000 /\
  Pde.flag (Pde.set_address 0x8000000000000003 0x1000) NX = Pde.flag 0x8000000000000003 NX /\
  Pde.flag (Pde.set_flag 0x8000000000000003 ReadWrite false) NX =
    (if decide (ReadWrite = NX) then false else Pde.flag 0x8000000000000003 NX) /\
  Pde.address (Pde.set_flag 0x8000000000000003 ReadWrite false) = Pde.address 0x8000000000000003.
Proof.
  apply (entry_fields_independent 0x8000000000000003 0x1000 ReadWrite NX false);
    [unfold is_u64; lia|split; [lia|reflexivity]].
Defined.

(** [flags()] is written as an accessor but assigns through [&=]: after the
    call the entry has lost its physical address, although it keeps every
    flag. *)
Theorem flags_erases_address v :
  Pde.address (snd (Pde.flags v)) = 0 /\ forall f, Pde.flag (snd (Pde.flags v)) f = Pde.flag v f.
Proof.
  cbn. split.
  - apply Z.bits_inj'. intros i Hi.
    rewrite address_bits, Z.land_spec, testbit_flags_mask, Z.bits_0 by done.
    destruct (Z.testbit v i), ((12 <=? i) && (i <? 52)), (i <? 64); done.
  - intros f. pose proof (flag_bit_range f).
    rewrite !pde_flag_testbit, Z.land_spec, testbit_flags_mask by lia.
    rewrite flag_bit_not_address, (proj2 (Z.ltb_lt _ 64)) by lia. apply andb_true_r.
Qed.
