(* ===== verification/PageMap.v ===== *)
(** * The four-level page map

    Models [map], [map_pages], [unmap], [unmap_pages] and [flush_page_map] of
    src/kernel/src/memory/virtual_memory_manager.cpp.  Page tables are read and
    written in the byte-addressed physical memory; frames for new tables come
    from any allocator that implements [FrameAllocator].  Debug printing is not
    modelled. *)

From S2P Require Import Prelude PhysMem Bitmap FrameAlloc Paging.
Import MemRoutines.

(** Address of entry [i] of the table at [table], and its value. *)
Definition entry_addr (table i : Z) : Z := table + 8 * i.
Definition entry (m : mem) (table i : Z) : Z := read64 m (entry_addr table i).
Definition set_entry (m : mem) (table i v : Z) : mem := write64 m (entry_addr table i) v.

(** The flags [map] passes on, in the order it names them. *)
Definition mapping_flags : list PageTableFlag :=
  [Present; ReadWrite; UserSuper; WriteThrough; CacheDisabled; Accessed; Dirty; LargerPages; Global].

Definition or_mapping_flags (mappingFlags PDE : Z) : Z :=
  foldl (fun v f => Pde.or_flag_if v f (Pde.flag mappingFlags f)) PDE mapping_flags.

Definition set_mapping_flags (mappingFlags PDE : Z) : Z :=
  foldl (fun v f => Pde.set_flag v f (Pde.flag mappingFlags f)) PDE mapping_flags.

Section Mapper.
Context {F : Type} `{!FrameAllocator F}.

(** One upper level of [map]: make the entry point to a table, allocating and
    zeroing one when the entry is not present, or the mapping's flags into it,
    and return the address of the next table. *)
Definition descend (mappingFlags table index : Z) (st : mem * F) : outcome (Z * (mem * F)) :=
  let '(m, fr) := st in
  let PDE := entry m table index in
  '(PDE, (m, fr)) ←
    (if Pde.flag PDE Present then Done (PDE, (m, fr))
     else
       '(page, fr) ← fa_request fr;
       Done (Pde.set_address PDE page, (memset page 0 PAGE_SIZE m, fr)));
  let PDE := or_mapping_flags mappingFlags PDE in
  Done (Pde.address PDE, (set_entry m table index PDE, fr)).

(** The last level: the page's own entry. *)
Definition set_page (mappingFlags table index physicalAddress : Z) (m : mem) : mem :=
  let PDE := Pde.set_address (entry m table index) physicalAddress in
  set_entry m table index (set_mapping_flags mappingFlags PDE).

Definition map (pageMapLevelFour virtualAddress physicalAddress mappingFlags : Z)
    (st : mem * F) : outcome (mem * F) :=
  if pageMapLevelFour =? 0 then Done st
  else
    let x := indexer virtualAddress in
    '(PDP, st) ← descend mappingFlags pageMapLevelFour (PageDirectoryPointerIndex x) st;
    '(PD, st) ← descend mappingFlags PDP (PageDirectoryIndex x) st;
    '(PT, (m, fr)) ← descend mappingFlags PD (PageTableIndex x) st;
    Done (set_page mappingFlags PT (PageIndex x) physicalAddress m, fr).

(** [for (end = virt + pageCount * PAGE_SIZE; virt < end; ...)] *)
Fixpoint map_pages_loop (fuel : nat) (pageTable virt physical endv mappingFlags : Z)
    (st : mem * F) : outcome (mem * F) :=
  match fuel with
  | O => Done st
  | S f =>
      if virt <? endv then
        st ← map pageTable virt physical mappingFlags st;
        map_pages_loop f pageTable (virt +64 PAGE_SIZE) (physical +64 PAGE_SIZE) endv mappingFlags st
      else Done st
  end.

Definition map_pages (pageTable virtualAddress physicalAddress mappingFlags pageCount : Z)
    (st : mem * F) : outcome (mem * F) :=
  map_pages_loop (Z.to_nat pageCount) pageTable virtualAddress physicalAddress
    (virtualAddress +64 (pageCount *64 PAGE_SIZE)) mappingFlags st.

Definition unmap (pageMapLevelFour virtualAddress : Z) (m : mem) : mem :=
  let x := indexer virtualAddress in
  let PDP := Pde.address (entry m pageMapLevelFour (PageDirectoryPointerIndex x)) in
  let PD := Pde.address (entry m PDP (PageDirectoryIndex x)) in
  let PT := Pde.address (entry m PD (PageTableIndex x)) in
  let PDE := Pde.set_flag (entry m PT (PageIndex x)) Present false in
  set_entry m PT (PageIndex x) PDE.

Fixpoint unmap_pages_loop (fuel : nat) (pageTable t endv : Z) (m : mem) : mem :=
  match fuel with
  | O => m
  | S f =>
      if t <? endv then unmap_pages_loop f pageTable (t +64 PAGE_SIZE) endv (unmap pageTable t m) else m
  end.

Definition unmap_pages (pageTable virtualAddress pageCount : Z) (m : mem) : mem :=
  unmap_pages_loop (Z.to_nat pageCount) pageTable virtualAddress
    (virtualAddress +64 (pageCount *64 PAGE_SIZE)) m.

(** ** The hardware's view *)

(** The table reached from [t] by the given indices, if every entry on the way
    is present. *)
Fixpoint table_of (m : mem) (t : Z) (path : list Z) : option Z :=
  match path with
  | [] => Some t
  | i :: rest =>
      let e := entry m t i in
      if Pde.flag e Present then table_of m (Pde.address e) rest else None
  end.

(** The entry with index [i] of the table reached by [path], if it is
    present. *)
Definition leaf (m : mem) (root : Z) (path : list Z) (i : Z) : option Z :=
  t ← table_of m root path;
  let e := entry m t i in
  if Pde.flag e Present then Some e else None.

(** The indices of the three upper levels. *)
Definition upper_path (va : Z) : list Z :=
  let x := indexer va in
  [PageDirectoryPointerIndex x; PageDirectoryIndex x; PageTableIndex x].

(** The page table entry a four-level walk finds for a virtual address in the
    page map at [root].  The walk is the one of [map] and [unmap]: an upper entry
    is followed when it is present, and its [LargerPages] flag is not looked at.
    It is the processor's translation as long as no upper entry has that flag,
    which holds when no mapping asks for it; none of the kernel's does. *)
Definition translate (m : mem) (root va : Z) : option Z :=
  leaf m root (upper_path va) (PageIndex (indexer va)).

(** ** Well-formed page maps *)

Definition indices (path : list Z) : Prop := Forall (fun i => 0 <= i < 512) path.

(** Every table reachable within three steps is an owned frame, and no frame is
    reached in two ways: the tables form a tree. *)
Record tree_wf (m : mem) (fr : F) (root : Z) : Prop := {
  tree_root : frame_address root;
  tree_owned : forall p t, indices p -> (length p <= 3)%nat ->
    table_of m root p = Some t -> fa_owned fr t;
  tree_inj : forall p q t, indices p -> indices q -> (length p <= 3)%nat -> (length q <= 3)%nat ->
    table_of m root p = Some t -> table_of m root q = Some t -> p = q
}.

(** Two memories that agree on the page at [f]. *)
Definition same_bytes (m m' : mem) (f : Z) : Prop := forall x, f <= x < f + PAGE_SIZE -> read8 m' x = read8 m x.

(** A page in use that is not one of the tables. *)
Record data_frame (m : mem) (fr : F) (root f : Z) : Prop := {
  df_frame : frame_address f;
  df_owned : fa_owned fr f;
  df_table p : indices p -> (length p <= 3)%nat -> table_of m root p ≠ Some f
}.

Lemma tree_wf_more m fr fr' root :
  tree_wf m fr root -> (forall a, fa_owned fr a -> fa_owned fr' a) -> tree_wf m fr' root.
Proof.
  intros [R O I] H. split; [done| |done]. intros p t Hp Hl Ht. by apply H, (O p).
Qed.

(** ** Entries in memory *)

Lemma set_entry_bytes m t i v f :
  frame_address t -> frame_address f -> f ≠ t -> 0 <= i < 512 -> same_bytes m (set_entry m t i v) f.
Proof.
  intros [Ht At] [Hf Af] Hne Hi x Hx. unfold set_entry, entry_addr, PAGE_SIZE in *. apply (write_le_frame 8). dlia.
Qed.

Lemma memset_bytes m a f : frame_address a -> frame_address f -> f ≠ a -> same_bytes m (memset a 0 PAGE_SIZE m) f.
Proof.
  intros [Ha Aa] [Hf Af] Hne x Hx. unfold PAGE_SIZE in *. rewrite memset_correct by lia.
  assert (a + 4096 <= f \/ f + 4096 <= a) by dlia. by zcases; cbn; try lia.
Qed.

Lemma same_bytes_trans m1 m2 m3 f : same_bytes m1 m2 f -> same_bytes m2 m3 f -> same_bytes m1 m3 f.
Proof. intros H1 H2 x Hx. by rewrite H2, H1. Qed.

Lemma entry_u64 m t i : is_u64 (entry m t i).
Proof. apply read64_range. Qed.

Lemma entry_set_entry m t i v t' j :
  is_u64 v -> frame_address t -> frame_address t' -> 0 <= i < 512 -> 0 <= j < 512 ->
  entry (set_entry m t i v) t' j = if decide (t' = t /\ j = i) then v else entry m t' j.
Proof.
  intros Hv [Ht At] [Ht' At'] Hi Hj. unfold entry, set_entry, entry_addr. unfold PAGE_SIZE in *.
  case_decide as E.
  - destruct E as [-> ->]. by apply read64_write64_eq.
  - apply read64_write64_ne. destruct (decide (t' = t)) as [->|]; [lia|]. dlia.
Qed.

Lemma entry_zeroed m a t i :
  frame_address a -> frame_address t -> 0 <= i < 512 ->
  entry (memset a 0 PAGE_SIZE m) t i = if decide (t = a) then 0 else entry m t i.
Proof.
  intros [Ha Aa] [Ht At] Hi. unfold entry, entry_addr. unfold PAGE_SIZE in *. case_decide as E.
  - subst t. transitivity (read64 (fun _ => 0) (a + 8 * i)); [|done].
    apply read_le_ext. intros k Hk. rewrite memset_correct by lia. by zcases; cbn; try lia.
  - apply read_le_ext. intros k Hk. rewrite memset_correct by lia.
    assert (a + 4096 <= t \/ t + 4096 <= a) by dlia. by zcases; cbn; try lia.
Qed.

(** ** Two memories with the same tables *)

(** What the walk of the upper levels uses of an entry. *)
Definition same_pointer (e e' : Z) : Prop :=
  Pde.flag e Present = Pde.flag e' Present /\
  (Pde.flag e Present = true -> Pde.address e = Pde.address e').

Lemma table_of_ext m m' root n :
  (forall p t i, indices p -> (length p < n)%nat -> table_of m root p = Some t -> 0 <= i < 512 ->
     same_pointer (entry m t i) (entry m' t i)) ->
  forall q, indices q -> (length q <= n)%nat -> table_of m' root q = table_of m root q.
Proof.
  revert root. induction n as [|n IH]; intros root Hp q Hq Hl.
  { by destruct q; [|cbn in Hl; lia]. }
  destruct q as [|i q]; [done|]. apply Forall_cons in Hq as [Hi Hq]. cbn [table_of].
  destruct (Hp [] root i) as [E1 E2]; [constructor|cbn; lia|done|done|].
  rewrite <- E1. destruct (Pde.flag (entry m root i) Present) eqn:E; [|done].
  rewrite <- E2 by done. apply IH; [|done|cbn in Hl; lia].
  intros p t j Hpi Hpl Ht Hj. apply (Hp (i :: p)); [by constructor|cbn; lia| |done].
  cbn [table_of]. by rewrite E.
Qed.

Lemma table_of_app m root p q :
  table_of m root (p ++ q) = t ← table_of m root p; table_of m t q.
Proof.
  revert root. induction p as [|i p IH]; intros root; [done|]. cbn [table_of app].
  destruct (Pde.flag _ _); [apply IH|done].
Qed.

Lemma table_of_prefix m root p q t :
  table_of m root (p ++ q) = Some t -> exists t', table_of m root p = Some t'.
Proof. rewrite table_of_app. destruct (table_of m root p); [eauto|done]. Qed.

Lemma table_of_frame m fr root p t :
  tree_wf m fr root -> table_of m root p = Some t -> frame_address t.
Proof.
  intros Hw. assert (Hr := tree_root _ _ _ Hw). clear Hw. revert root Hr.
  induction p as [|i p IH]; intros root Hr; cbn [table_of]; [by intros [= <-]|].
  destruct (Pde.flag _ _); [|done]. apply IH, address_frame.
Qed.

(** ** Flags of a mapping *)

Lemma or_flags_fold mf fs v :
  is_u64 v ->
  let v' := foldl (fun v f => Pde.or_flag_if v f (Pde.flag mf f)) v fs in
  is_u64 v' /\ Pde.address v' = Pde.address v /\
  forall g, Pde.flag v' g = Pde.flag v g || (bool_decide (g ∈ fs) && Pde.flag mf g).
Proof.
  revert v. induction fs as [|f fs IH]; intros v Hv; cbn [foldl].
  { split_and!; [done..|]. intros g. rewrite bool_decide_false by apply not_elem_of_nil. by rewrite orb_false_r. }
  destruct (IH (Pde.or_flag_if v f (Pde.flag mf f))) as (IH1 & IH2 & IH3); [auto with lensor|].
  split_and!; [done|by rewrite IH2, address_or_flag_if|].
  intros g. rewrite IH3, flag_or_flag_if, <- orb_assoc. f_equal.
  destruct (decide (f = g)) as [->|Hne].
  - rewrite (bool_decide_true (g = g)), (bool_decide_true (g ∈ g :: fs)) by (done || by left).
    destruct (Pde.flag mf g); cbn; [done|]. by rewrite andb_false_r.
  - rewrite (bool_decide_false (f = g)), andb_false_r by done. cbn. f_equal.
    apply bool_decide_ext. rewrite elem_of_cons. clear - Hne. intuition congruence.
Qed.

Lemma set_flags_fold mf fs v :
  is_u64 v ->
  let v' := foldl (fun v f => Pde.set_flag v f (Pde.flag mf f)) v fs in
  is_u64 v' /\ Pde.address v' = Pde.address v /\
  forall g, Pde.flag v' g = if bool_decide (g ∈ fs) then Pde.flag mf g else Pde.flag v g.
Proof.
  revert v. induction fs as [|f fs IH]; intros v Hv; cbn [foldl].
  { split_and!; [done..|]. intros g. by rewrite bool_decide_false by apply not_elem_of_nil. }
  destruct (IH (Pde.set_flag v f (Pde.flag mf f))) as (IH1 & IH2 & IH3); [auto with lensor|].
  split_and!; [done|by rewrite IH2, address_set_flag|].
  intros g. rewrite IH3, flag_set_flag by done. case_decide as E.
  - subst g. rewrite (bool_decide_true (f ∈ f :: fs)) by left. apply if_same.
  - rewrite (bool_decide_ext (g ∈ f :: fs) (g ∈ fs)); [done|]. rewrite elem_of_cons. clear - E. intuition congruence.
Qed.

Lemma or_mapping_flags_spec mf v :
  is_u64 v -> Pde.flag mf Present = true ->
  is_u64 (or_mapping_flags mf v) /\ Pde.address (or_mapping_flags mf v) = Pde.address v /\
  Pde.flag (or_mapping_flags mf v) Present = true.
Proof.
  intros Hv Hp. destruct (or_flags_fold mf mapping_flags v Hv) as (H1 & H2 & H3).
  split_and!; [done..|]. unfold or_mapping_flags. rewrite H3, Hp. by rewrite orb_true_r.
Qed.

(** ** One level of [map] *)

Lemma table_of_mono m m' root n :
  (forall p t i, indices p -> (length p < n)%nat -> table_of m root p = Some t -> 0 <= i < 512 ->
     Pde.flag (entry m t i) Present = true ->
     Pde.flag (entry m' t i) Present = true /\ Pde.address (entry m' t i) = Pde.address (entry m t i)) ->
  forall q t, indices q -> (length q <= n)%nat -> table_of m root q = Some t -> table_of m' root q = Some t.
Proof.
  revert root. induction n as [|n IH]; intros root Hp q t Hq Hl Ht.
  { by destruct q; [|cbn in Hl; lia]. }
  destruct q as [|i q]; [done|]. apply Forall_cons in Hq as [Hi Hq]. cbn [table_of] in *.
  destruct (Pde.flag (entry m root i) Present) eqn:E; [|done].
  destruct (Hp [] root i) as [-> ->]; [constructor|cbn; lia|done..|].
  apply IH; [|done|cbn in Hl; lia|done].
  intros p x j Hpi Hpl Hx Hj. apply (Hp (i :: p)); [by constructor|cbn; lia| |done].
  cbn [table_of]. by rewrite E.
Qed.

(** What a level of [map] guarantees of the whole page map. *)
Record descended (m m' : mem) (fr fr' : F) (root : Z) (p : list Z) (i t' : Z) : Prop := {
  desc_inv : fa_inv fr';
  desc_wf : tree_wf m' fr' root;
  desc_table : table_of m' root (p ++ [i]) = Some t';
  desc_owned : forall a, fa_owned fr a -> fa_owned fr' a;
  desc_leaf : forall q j, indices q -> length q = 3%nat -> 0 <= j < 512 ->
    leaf m' root q j = leaf m root q j;
  desc_data : forall f, data_frame m fr root f -> data_frame m' fr' root f /\ same_bytes m m' f
}.

Section Level.
Context (m : mem) (fr : F) (root : Z) (p : list Z) (t i : Z).
Hypothesis Hinv : fa_inv fr.
Hypothesis Hwf : tree_wf m fr root.
Hypothesis Hp : indices p.
Hypothesis Hlen : (length p <= 2)%nat.
Hypothesis Hi : 0 <= i < 512.
Hypothesis Ht : table_of m root p = Some t.

Lemma level_path : indices (p ++ [i]).
Proof. apply Forall_app; split; [done|]. by apply Forall_singleton. Qed.

(** The entry was present: its flags change, its target does not. *)
Lemma level_present v :
  is_u64 v -> Pde.flag (entry m t i) Present = true ->
  Pde.flag v Present = true -> Pde.address v = Pde.address (entry m t i) ->
  descended m (set_entry m t i v) fr fr root p i (Pde.address v).
Proof.
  intros Hv He Hvp Hva. set (m' := set_entry m t i v).
  assert (Htf := table_of_frame _ _ _ _ _ Hwf Ht).
  assert (Hent : forall q x j, table_of m root q = Some x -> 0 <= j < 512 ->
            entry m' x j = if decide (x = t /\ j = i) then v else entry m x j).
  { intros q x j Hx Hj. apply entry_set_entry; try done. by eapply table_of_frame. }
  assert (Hext : forall q, indices q -> (length q <= 3)%nat -> table_of m' root q = table_of m root q).
  { apply table_of_ext. intros q x j Hq _ Hx Hj. rewrite (Hent q) by done.
    case_decide as E; [|by split]. destruct E as [-> ->]. split; [congruence|by rewrite Hva]. }
  split; [done| | |done| |].
  - split; [apply Hwf| |].
    + intros q x Hq Hql. rewrite Hext by done. by apply (tree_owned _ _ _ Hwf).
    + intros q1 q2 x H1 H2 L1 L2. rewrite !Hext by done. by apply (tree_inj _ _ _ Hwf).
  - rewrite Hext; [|apply level_path|rewrite length_app; cbn; lia].
    rewrite table_of_app, Ht. cbn [mbind option_bind table_of]. by rewrite He, Hva.
  - intros q j Hq Hql Hj. unfold leaf. rewrite Hext by (done || lia).
    destruct (table_of m root q) as [x|] eqn:Hx; [|done]. cbn [mbind option_bind].
    rewrite (Hent q) by done. case_decide as E; [|done]. destruct E as [-> ->].
    assert (q = p) as -> by (by apply (tree_inj _ _ _ Hwf q p t); (done || lia)). lia.
  - intros f [Hf Ho Hno]. split; [split; [done|done|]|].
    + intros q Hq Hl. rewrite Hext by done. by apply Hno.
    + apply set_entry_bytes; [done|done| |done]. intros ->. by apply (Hno p); [|lia|].
Qed.

(** The entry was not present: a fresh zeroed table is hung there. *)
Section Fresh.
Context (fr' : F) (a v : Z).
Hypothesis Hinv' : fa_inv fr'.
Hypothesis Ha : frame_address a.
Hypothesis Hfresh : ~ fa_owned fr a.
Hypothesis Howned : forall b, fa_owned fr' b <-> fa_owned fr b \/ b = a.
Hypothesis Hv : is_u64 v.
Hypothesis He : Pde.flag (entry m t i) Present = false.
Hypothesis Hvp : Pde.flag v Present = true.
Hypothesis Hva : Pde.address v = a.

Let m' : mem := set_entry (memset a 0 PAGE_SIZE m) t i v.

Lemma fresh_table_ne q x : indices q -> (length q <= 3)%nat -> table_of m root q = Some x -> x ≠ a.
Proof. intros Hq Hl Hx ->. by apply Hfresh, (tree_owned _ _ _ Hwf q). Qed.

Lemma fresh_entry q x j :
  indices q -> (length q <= 3)%nat -> table_of m root q = Some x -> 0 <= j < 512 ->
  entry m' x j = if decide (x = t /\ j = i) then v else entry m x j.
Proof.
  intros Hq Hl Hx Hj. assert (Hxf := table_of_frame _ _ _ _ _ Hwf Hx).
  assert (Htf := table_of_frame _ _ _ _ _ Hwf Ht). pose proof (fresh_table_ne q x Hq Hl Hx).
  unfold m'. rewrite entry_set_entry by done. case_decide; [done|].
  rewrite entry_zeroed by done. by case_decide.
Qed.

Lemma fresh_entry_zero j : 0 <= j < 512 -> entry m' a j = 0.
Proof.
  intros Hj. assert (Htf := table_of_frame _ _ _ _ _ Hwf Ht).
  pose proof (fresh_table_ne p t Hp ltac:(lia) Ht). unfold m'.
  rewrite entry_set_entry by done. case_decide as E; [by destruct E|].
  rewrite entry_zeroed by done. by case_decide.
Qed.

Lemma fresh_mono q x :
  indices q -> (length q <= 3)%nat -> table_of m root q = Some x -> table_of m' root q = Some x.
Proof.
  apply table_of_mono. intros q' x' j Hq' Hl' Hx' Hj Hpres.
  rewrite (fresh_entry q') by (done || lia). case_decide as E; [|done].
  destruct E as [-> ->]. congruence.
Qed.

Lemma fresh_new q x :
  indices q -> (length q <= 3)%nat -> table_of m' root q = Some x ->
  table_of m root q = Some x \/ (q = p ++ [i] /\ x = a).
Proof.
  revert x. induction q as [|j q IH] using rev_ind; intros x Hq Hl; [by left|].
  apply Forall_app in Hq as [Hq Hj]. apply Forall_cons in Hj as [Hj _].
  rewrite length_app in Hl. cbn in Hl. rewrite !table_of_app.
  destruct (table_of m' root q) as [y|] eqn:Hy; [|done].
  cbn [mbind option_bind table_of]. intros Hx.
  destruct (IH y) as [Hold|[-> ->]]; [done|lia|done| |].
  - rewrite (fresh_entry q y j Hq ltac:(lia) Hold Hj) in Hx. rewrite Hold. cbn [mbind option_bind].
    case_decide as E; [|by left]. destruct E as [-> ->]. right.
    rewrite Hvp in Hx. injection Hx as <-. split; [|done]. f_equal.
    apply (tree_inj _ _ _ Hwf q p t); (done || lia).
  - rewrite fresh_entry_zero in Hx by done. done.
Qed.

Lemma level_fresh : descended m m' fr fr' root p i a.
Proof.
  assert (Hpi := level_path).
  assert (Hpl : (length (p ++ [i]) <= 3)%nat) by (rewrite length_app; cbn; lia).
  assert (Hnew : table_of m' root (p ++ [i]) = Some a).
  { rewrite table_of_app, (fresh_mono p t) by (done || lia). cbn [mbind option_bind table_of].
    rewrite (fresh_entry p) by (done || lia). rewrite decide_True, Hvp, Hva by done. done. }
  split; [done| |done| | |].
  - split; [apply Hwf| |].
    + intros q x Hq Hl Hx. apply Howned. destruct (fresh_new q x Hq Hl Hx) as [Ho|[_ ->]]; [|by right].
      left. by apply (tree_owned _ _ _ Hwf q).
    + intros q1 q2 x H1 H2 L1 L2 X1 X2.
      destruct (fresh_new _ _ H1 L1 X1) as [O1|[-> ->]], (fresh_new _ _ H2 L2 X2) as [O2|[-> ?]]; [| | |done].
      * by apply (tree_inj _ _ _ Hwf q1 q2 x).
      * subst x. by destruct (fresh_table_ne q1 a H1 L1 O1).
      * by destruct (fresh_table_ne q2 a H2 L2 O2).
  - intros b Hb. apply Howned. by left.
  - intros q j Hq Hl Hj. unfold leaf.
    destruct (table_of m' root q) as [x|] eqn:Hx; cbn [mbind option_bind].
    + destruct (fresh_new q x Hq ltac:(lia) Hx) as [Ho|[-> ->]].
      * rewrite Ho. cbn [mbind option_bind]. rewrite (fresh_entry q x j Hq ltac:(lia) Ho Hj).
        case_decide as E; [|done]. destruct E as [-> ->].
        assert (q = p) as -> by (by apply (tree_inj _ _ _ Hwf q p t); (done || lia)). lia.
      * rewrite fresh_entry_zero, table_of_app, Ht by done. cbn [mbind option_bind table_of].
        by rewrite He.
    + destruct (table_of m root q) as [x|] eqn:Ho; [|done].
      rewrite (fresh_mono q x Hq ltac:(lia) Ho) in Hx. done.
  - intros f [Hf Ho Hno]. assert (Hfa : f ≠ a) by (by intros ->). split; [split; [done|by apply Howned; left|]|].
    + intros q Hq Hl Hx. destruct (fresh_new q f Hq Hl Hx) as [Hx'|[_ ->]]; [by apply (Hno q)|done].
    + eapply same_bytes_trans; [by apply (memset_bytes m a f)|]. apply set_entry_bytes; [by eapply table_of_frame|done| |done].
      intros ->. by apply (Hno p); [|lia|].
Qed.

End Fresh.

(** [descend] as a whole. *)
Lemma descend_spec mf t' m' fr' :
  Pde.flag mf Present = true -> 0 < fa_avail fr -> descend mf t i (m, fr) = Done (t', (m', fr')) ->
  descended m m' fr fr' root p i t'.
Proof.
  intros Hmf Hav. unfold descend. assert (He := entry_u64 m t i).
  destruct (Pde.flag (entry m t i) Present) eqn:Epres; cbn [mbind outcome_bind].
  - intros [= <- <- <-]. destruct (or_mapping_flags_spec mf _ He Hmf) as (Hu & Hadr & Hpr).
    by apply level_present.
  - destruct (fa_request fr) as [[a fr1]|] eqn:Er; cbn [mbind outcome_bind]; [|done].
    destruct (fa_request_sound _ _ _ Hinv Hav Er) as (Hinv1 & Hal & Hrg & Hnew & How & _).
    assert (Hfa : frame_address a) by (by split).
    destruct (or_mapping_flags_spec mf (Pde.set_address (entry m t i) a)) as (Hu & Hadr & Hpr);
      [auto with lensor|done|].
    rewrite address_set_address in Hadr by done. intros [= <- <- <-]. rewrite Hadr.
    by apply level_fresh.
Qed.

End Level.

(** ** Writing a last-level entry *)

Lemma set_leaf m fr root q0 pt j0 v :
  tree_wf m fr root -> indices q0 -> length q0 = 3%nat -> table_of m root q0 = Some pt ->
  0 <= j0 < 512 -> is_u64 v ->
  let m' := set_entry m pt j0 v in
  tree_wf m' fr root /\
  (forall q, indices q -> (length q <= 3)%nat -> table_of m' root q = table_of m root q) /\
  leaf m' root q0 j0 = (if Pde.flag v Present then Some v else None) /\
  (forall q j, indices q -> length q = 3%nat -> 0 <= j < 512 -> (q, j) ≠ (q0, j0) ->
     leaf m' root q j = leaf m root q j).
Proof.
  intros Hwf Hq0 Hl0 Ht Hj0 Hv m'. assert (Htf := table_of_frame _ _ _ _ _ Hwf Ht).
  assert (Hent : forall q x j, table_of m root q = Some x -> 0 <= j < 512 ->
            entry m' x j = if decide (x = pt /\ j = j0) then v else entry m x j).
  { intros q x j Hx Hj. apply entry_set_entry; try done. by eapply table_of_frame. }
  assert (Hext : forall q, indices q -> (length q <= 3)%nat -> table_of m' root q = table_of m root q).
  { apply table_of_ext. intros q x j Hq Hl Hx Hj. rewrite (Hent q) by done.
    case_decide as E; [|by split]. destruct E as [-> ->].
    assert (q = q0) as -> by (by apply (tree_inj _ _ _ Hwf q q0 pt); (done || lia)). lia. }
  split_and!; [|done| |].
  - split; [apply Hwf| |].
    + intros q x Hq Hql. rewrite Hext by done. by apply (tree_owned _ _ _ Hwf).
    + intros q1 q2 x H1 H2 L1 L2. rewrite !Hext by done. by apply (tree_inj _ _ _ Hwf).
  - unfold leaf. rewrite Hext, Ht by (done || lia). cbn [mbind option_bind].
    rewrite (Hent q0) by done. by rewrite decide_True by done.
  - intros q j Hq Hl Hj Hne. unfold leaf. rewrite Hext by (done || lia).
    destruct (table_of m root q) as [x|] eqn:Hx; [|done]. cbn [mbind option_bind].
    rewrite (Hent q) by done. case_decide as E; [|done]. destruct E as [-> ->].
    destruct Hne. f_equal. apply (tree_inj _ _ _ Hwf q q0 pt); (done || lia).
Qed.

(** Index lists with their bounds among the hypotheses. *)
Ltac solve_indices := repeat (apply Forall_cons_2; [done|]); apply Forall_nil_2.

Lemma upper_path_indices va : 0 <= va -> indices (upper_path va).
Proof.
  intros H. destruct (indexer_range va H) as (?&?&?&?). by solve_indices.
Qed.

(** ** Frames: [map] always finishes, and takes three frames at most *)

Lemma descend_progress mf t i m fr :
  fa_inv fr ->
  exists t' m' fr', descend mf t i (m, fr) = Done (t', (m', fr')) /\ fa_inv fr' /\ fa_avail fr - 1 <= fa_avail fr' <= fa_avail fr.
Proof.
  intros Hinv. unfold descend.
  destruct (Pde.flag (entry m t i) Present); cbn [mbind outcome_bind].
  - eexists _, _, _. split_and!; [done..|lia|lia].
  - destruct (fa_request_steps fr Hinv) as (a & fr' & -> & Hi' & Ha & Ha'). cbn [mbind outcome_bind].
    eexists _, _, _. split_and!; [done|done|lia|lia].
Qed.

Lemma descend_avail mf t i m fr t' m' fr' :
  fa_inv fr -> descend mf t i (m, fr) = Done (t', (m', fr')) ->
  fa_inv fr' /\ fa_avail fr - 1 <= fa_avail fr' <= fa_avail fr.
Proof.
  intros Hinv E. destruct (descend_progress mf t i m fr Hinv) as (t1 & m1 & fr1 & E1 & A).
  rewrite E in E1. by injection E1 as _ _ ->.
Qed.

Lemma map_progress root va pa mf m fr :
  fa_inv fr ->
  exists m' fr', map root va pa mf (m, fr) = Done (m', fr') /\ fa_inv fr' /\ fa_avail fr - 3 <= fa_avail fr' <= fa_avail fr.
Proof.
  intros Hinv. unfold map. destruct (root =? 0).
  { eexists _, _. split_and!; [done..|lia|lia]. }
  cbv zeta.
  destruct (descend_progress mf root (PageDirectoryPointerIndex (indexer va)) m fr Hinv)
    as (t1 & m1 & fr1 & -> & Hi1 & A1). cbn [mbind outcome_bind].
  destruct (descend_progress mf t1 (PageDirectoryIndex (indexer va)) m1 fr1 Hi1)
    as (t2 & m2 & fr2 & -> & Hi2 & A2). cbn [mbind outcome_bind].
  destruct (descend_progress mf t2 (PageTableIndex (indexer va)) m2 fr2 Hi2)
    as (t3 & m3 & fr3 & -> & Hi3 & A3). cbn [mbind outcome_bind].
  eexists _, _. split_and!; [done..|lia|lia].
Qed.

Lemma map_avail root va pa mf m fr m' fr' :
  fa_inv fr -> map root va pa mf (m, fr) = Done (m', fr') ->
  fa_inv fr' /\ fa_avail fr - 3 <= fa_avail fr' <= fa_avail fr.
Proof.
  intros Hinv E. destruct (map_progress root va pa mf m fr Hinv) as (m1 & fr1 & E1 & A).
  rewrite E in E1. by injection E1 as _ ->.
Qed.

(** No request was refused while at most [n] frames were taken: there were that
    many, or there are still some. *)
Definition enough_frames (fr fr' : F) (n : Z) : Prop := n <= fa_avail fr \/ 0 < fa_avail fr'.

(** ** [map] *)

(** The effect of a finished [map]: the page is translated to the given frame
    with the given flags, every other page as before. *)
Record page_mapped (m m' : mem) (fr fr' : F) (root va pa mf : Z) : Prop := {
  pm_inv : fa_inv fr';
  pm_wf : tree_wf m' fr' root;
  pm_owned : forall a, fa_owned fr a -> fa_owned fr' a;
  pm_entry : exists e, translate m' root va = Some e /\ Pde.address e = pa /\
    forall f, f ∈ mapping_flags -> Pde.flag e f = Pde.flag mf f;
  pm_other : forall q j, indices q -> length q = 3%nat -> 0 <= j < 512 ->
    (q, j) ≠ (upper_path va, PageIndex (indexer va)) -> leaf m' root q j = leaf m root q j;
  pm_data : forall f, data_frame m fr root f -> data_frame m' fr' root f /\ same_bytes m m' f
}.

Lemma map_spec root va pa mf m fr m' fr' :
  fa_inv fr -> tree_wf m fr root -> root ≠ 0 -> 0 <= va -> frame_address pa ->
  Pde.flag mf Present = true -> enough_frames fr fr' 3 ->
  map root va pa mf (m, fr) = Done (m', fr') -> page_mapped m m' fr fr' root va pa mf.
Proof.
  intros Hinv Hwf Hroot Hva Hpa Hmf Hav E. unfold map in E. unfold enough_frames in Hav.
  destruct (Z.eqb_spec root 0); [done|]. destruct (indexer_range va Hva) as (I1 & I2 & I3 & I4).
  set (x := indexer va) in *. cbv zeta in E.
  done_inv E. destruct r as [t1 [m1 fr1]]. rename E0 into E1. done_inv E. destruct r as [t2 [m2 fr2]]. rename E0 into E2.
  done_inv E. destruct r as [t3 [m3 fr3]]. rename E0 into E3. injection E as <- <-.
  destruct (descend_avail _ _ _ _ _ _ _ _ Hinv E1) as [Hi1 A1]. destruct (descend_avail _ _ _ _ _ _ _ _ Hi1 E2) as [Hi2 A2].
  destruct (descend_avail _ _ _ _ _ _ _ _ Hi2 E3) as [Hi3 A3].
  destruct (descend_spec m fr root [] root _ Hinv Hwf ltac:(solve_indices) ltac:(cbn; lia) I1 eq_refl
              _ _ _ _ Hmf ltac:(lia) E1) as [_ Hw1 Ht1 Ho1 Hl1 Hd1]. cbn [app] in Ht1.
  destruct (descend_spec m1 fr1 root [PageDirectoryPointerIndex x] t1 _ Hi1 Hw1 ltac:(solve_indices)
              ltac:(cbn; lia) I2 Ht1 _ _ _ _ Hmf ltac:(lia) E2) as [_ Hw2 Ht2 Ho2 Hl2 Hd2]. cbn [app] in Ht2.
  destruct (descend_spec m2 fr2 root [PageDirectoryPointerIndex x; PageDirectoryIndex x] t2 _ Hi2 Hw2
              ltac:(solve_indices) ltac:(cbn; lia) I3 Ht2 _ _ _ _ Hmf ltac:(lia) E3)
    as [_ Hw3 Ht3 Ho3 Hl3 Hd3]. cbn [app] in Ht3. clear E1 E2 E3.
  assert (Hup := upper_path_indices va Hva).
  set (e := set_mapping_flags mf (Pde.set_address (entry m3 t3 (PageIndex x)) pa)).
  assert (Hu0 : is_u64 (Pde.set_address (entry m3 t3 (PageIndex x)) pa))
    by (apply set_address_u64, entry_u64).
  destruct (set_flags_fold mf mapping_flags _ Hu0) as (Hu & Hadr & Hfl).
  rewrite address_set_address in Hadr by (done || apply entry_u64).
  destruct (set_leaf m3 fr3 root (upper_path va) t3 (PageIndex x) e Hw3 Hup eq_refl Ht3 I4 Hu)
    as (Hw4 & Hext & Hleaf & Hother).
  split; [done|done|by auto| | |].
  - exists e. split_and!; [|done|].
    + change (leaf (set_entry m3 t3 (PageIndex x) e) root (upper_path va) (PageIndex x) = Some e).
      rewrite Hleaf. unfold e at 1, set_mapping_flags. rewrite Hfl, bool_decide_true by left. by rewrite Hmf.
    + intros f Hf. unfold e, set_mapping_flags. by rewrite Hfl, bool_decide_true.
  - intros q j Hq Hl Hj Hne. change (leaf (set_entry m3 t3 (PageIndex x) e) root q j = leaf m root q j).
    rewrite Hother by done.
    by rewrite Hl3, Hl2, Hl1.
  - intros f Hf. destruct (Hd1 f Hf) as [Hf1 B1], (Hd2 f Hf1) as [Hf2 B2], (Hd3 f Hf2) as [Hf3 B3]. destruct Hf3 as [Hff Hfo Hno].
    split; [split; [done|done|]|].
    + intros q Hq Hl. change (table_of (set_entry m3 t3 (PageIndex x) e) root q ≠ Some f). rewrite Hext by done. by apply Hno.
    + eapply same_bytes_trans; [exact B1|]. eapply same_bytes_trans; [exact B2|]. eapply same_bytes_trans; [exact B3|].
      apply set_entry_bytes; [exact (table_of_frame _ _ _ _ _ Hw3 Ht3)|done| |done]. intros ->. by apply (Hno (upper_path va)); [|cbn; lia|].
Qed.

(** ** [unmap] *)

(** [unmap] of a page that is present writes to its entry only. *)
Lemma unmap_entry root va m e : translate m root va = Some e ->
  exists pt, table_of m root (upper_path va) = Some pt /\
    unmap root va m = set_entry m pt (PageIndex (indexer va)) (Pde.set_flag (entry m pt (PageIndex (indexer va))) Present false).
Proof.
  intros Ht. unfold translate, leaf in Ht. destruct (table_of m root (upper_path va)) as [pt|] eqn:Hpt; [|done]. exists pt. split; [done|].
  unfold upper_path in Hpt. cbn [table_of] in Hpt. unfold unmap.
  destruct (Pde.flag _ _); [|done]. destruct (Pde.flag _ _); [|done].
  destruct (Pde.flag _ _); [|done]. apply (inj Some) in Hpt. by rewrite Hpt.
Qed.

Lemma unmap_spec root va m fr e :
  tree_wf m fr root -> 0 <= va -> translate m root va = Some e ->
  let m' := unmap root va m in
  tree_wf m' fr root /\ translate m' root va = None /\
  (forall q j, indices q -> length q = 3%nat -> 0 <= j < 512 ->
    (q, j) ≠ (upper_path va, PageIndex (indexer va)) -> leaf m' root q j = leaf m root q j) /\
  (forall q, indices q -> (length q <= 3)%nat -> table_of m' root q = table_of m root q).
Proof.
  intros Hwf Hva Ht. destruct (indexer_range va Hva) as (I1 & I2 & I3 & I4).
  destruct (unmap_entry root va m e Ht) as (pt & Hpt & Hun). cbv zeta. rewrite Hun.
  destruct (set_leaf m fr root (upper_path va) pt (PageIndex (indexer va))
              (Pde.set_flag (entry m pt (PageIndex (indexer va))) Present false))
    as (Hw & Htab & Hleaf & Hother); try done.
  - by apply upper_path_indices.
  - apply set_flag_u64, entry_u64.
  - split_and!; [done| |done|done]. unfold translate. rewrite Hleaf, flag_set_flag by apply entry_u64.
    by rewrite decide_True by done.
Qed.

Lemma unmap_data root va m fr e f :
  tree_wf m fr root -> 0 <= va -> translate m root va = Some e -> data_frame m fr root f ->
  data_frame (unmap root va m) fr root f /\ same_bytes m (unmap root va m) f.
Proof.
  intros Hwf Hva Ht [Hf Ho Hn]. destruct (unmap_spec root va m fr e Hwf Hva Ht) as (_ & _ & _ & Htab).
  split; [split; [done|done|]; intros q Hq Hl; rewrite Htab by done; by apply Hn|].
  destruct (unmap_entry root va m e Ht) as (pt & Hpt & ->). destruct (indexer_range va Hva) as (_ & _ & _ & I4).
  apply set_entry_bytes; [exact (table_of_frame _ _ _ _ _ Hwf Hpt)|done| |done].
  intros ->. by apply (Hn (upper_path va)); [apply upper_path_indices|cbn; lia|].
Qed.

(** ** Runs of pages *)

(** Pages of the 48-bit address space have distinct table entries. *)
Lemma page_entry_ne va vb :
  0 <= va < 2 ^ 48 -> 0 <= vb < 2 ^ 48 -> va / PAGE_SIZE ≠ vb / PAGE_SIZE ->
  (upper_path va, PageIndex (indexer va)) ≠ (upper_path vb, PageIndex (indexer vb)).
Proof.
  intros Ha Hb Hne E. apply Hne.
  assert (Ei : indexer va = indexer vb).
  { unfold upper_path in E. revert E. destruct (indexer va), (indexer vb). cbn. congruence. }
  pose proof (indexer_inj va vb ltac:(lia) ltac:(lia) Ei) as H.
  rewrite !Z.mod_small in H by (unfold PAGE_SIZE; dlia). done.
Qed.

Lemma translate_other m m' fr fr' root va pa mf vb :
  page_mapped m m' fr fr' root va pa mf -> 0 <= va < 2 ^ 48 -> 0 <= vb < 2 ^ 48 ->
  va / PAGE_SIZE ≠ vb / PAGE_SIZE -> translate m' root vb = translate m root vb.
Proof.
  intros P Ha Hb Hne. unfold translate. destruct (indexer_range vb ltac:(lia)) as (?&?&?&?).
  apply (pm_other _ _ _ _ _ _ _ _ P); [by apply upper_path_indices; lia|done|done|].
  by apply page_entry_ne.
Qed.

(** The state after mapping [n] pages from [virt] to frames from [physical]. *)
Record pages_mapped (m m' : mem) (fr fr' : F) (root virt physical mf n : Z) : Prop := {
  pms_inv : fa_inv fr';
  pms_wf : tree_wf m' fr' root;
  pms_owned : forall a, fa_owned fr a -> fa_owned fr' a;
  pms_entry : forall k, 0 <= k < n ->
    exists e, translate m' root (virt + k * PAGE_SIZE) = Some e /\
      Pde.address e = physical + k * PAGE_SIZE /\
      forall f, f ∈ mapping_flags -> Pde.flag e f = Pde.flag mf f;
  pms_other : forall vb, 0 <= vb < 2 ^ 48 ->
    ~ (virt / PAGE_SIZE <= vb / PAGE_SIZE < virt / PAGE_SIZE + n) ->
    translate m' root vb = translate m root vb;
  pms_data : forall f, data_frame m fr root f -> data_frame m' fr' root f /\ same_bytes m m' f
}.

Lemma map_pages_loop_progress fuel root virt physical mf m fr :
  fa_inv fr ->
  forall endv, exists m' fr', map_pages_loop fuel root virt physical endv mf (m, fr) = Done (m', fr') /\ fa_inv fr' /\ fa_avail fr - 3 * Z.of_nat fuel <= fa_avail fr' <= fa_avail fr.
Proof.
  revert virt physical m fr. induction fuel as [|fuel IH]; intros virt physical m fr Hinv endv; cbn [map_pages_loop];
    [eexists _, _; split_and!; [done..|lia|lia]|].
  destruct (virt <? endv); [|eexists _, _; split_and!; [done..|lia|lia]].
  destruct (map_progress root virt physical mf m fr Hinv) as (m1 & fr1 & -> & Hi1 & A1). cbn [mbind outcome_bind].
  destruct (IH (virt +64 PAGE_SIZE) (physical +64 PAGE_SIZE) m1 fr1 Hi1 endv) as (m2 & fr2 & -> & Hi2 & A2).
  exists m2, fr2. split_and!; [done|done|lia|lia].
Qed.

Lemma map_pages_loop_avail fuel root virt physical endv mf m fr m' fr' :
  fa_inv fr -> map_pages_loop fuel root virt physical endv mf (m, fr) = Done (m', fr') ->
  fa_inv fr' /\ fa_avail fr - 3 * Z.of_nat fuel <= fa_avail fr' <= fa_avail fr.
Proof.
  intros Hinv E. destruct (map_pages_loop_progress fuel root virt physical mf m fr Hinv endv) as (m1 & fr1 & E1 & A).
  rewrite E in E1. by injection E1 as _ ->.
Qed.

Lemma map_pages_loop_done fuel root virt physical mf m fr m' fr' :
  fa_inv fr -> tree_wf m fr root -> root ≠ 0 -> Pde.flag mf Present = true ->
  0 <= virt -> virt mod PAGE_SIZE = 0 -> virt + Z.of_nat fuel * PAGE_SIZE <= 2 ^ 48 ->
  0 <= physical -> physical mod PAGE_SIZE = 0 -> physical + Z.of_nat fuel * PAGE_SIZE <= 2 ^ 52 ->
  map_pages_loop fuel root virt physical (virt + Z.of_nat fuel * PAGE_SIZE) mf (m, fr) = Done (m', fr') ->
  enough_frames fr fr' (3 * Z.of_nat fuel) -> pages_mapped m m' fr fr' root virt physical mf (Z.of_nat fuel).
Proof.
  revert virt physical m fr. induction fuel as [|fuel IH];
    intros virt physical m fr Hinv Hwf Hroot Hmf Hv Hva Hvb Hp Hpa Hpb.
  { intros [= <- <-] _. split; try done. lia. }
  cbn [map_pages_loop]. unfold PAGE_SIZE in Hva, Hvb, Hpa, Hpb.
  rewrite (proj2 (Z.ltb_lt _ _)) by (unfold PAGE_SIZE; lia).
  destruct (map root virt physical mf (m, fr)) as [[m1 fr1]|] eqn:E; [|done]. cbn [mbind outcome_bind]. intros E2 Hav.
  destruct (map_avail _ _ _ _ _ _ _ _ Hinv E) as [Hi1 A1]. destruct (map_pages_loop_avail _ _ _ _ _ _ _ _ _ _ Hi1 E2) as [_ A2].
  unfold enough_frames in Hav. assert (P : page_mapped m m1 fr fr1 root virt physical mf).
  { eapply map_spec; try done; [split; [lia|done]|]. unfold enough_frames. lia. }
  revert E2.
  rewrite !wrap64_small by (unfold is_u64, PAGE_SIZE; lia).
  replace (virt + Z.of_nat (S fuel) * PAGE_SIZE) with (virt + PAGE_SIZE + Z.of_nat fuel * PAGE_SIZE) by lia. intros E2.
  assert (P2 : pages_mapped m1 m' fr1 fr' root (virt + PAGE_SIZE) (physical + PAGE_SIZE) mf (Z.of_nat fuel)).
  { apply IH; try done; [apply P|unfold PAGE_SIZE; lia|unfold PAGE_SIZE; dlia|unfold PAGE_SIZE; lia..|unfold PAGE_SIZE; dlia|unfold PAGE_SIZE; lia|unfold enough_frames; lia]. }
  split; [apply P2|apply P2| | | |].
  - intros a Ha. apply (pms_owned _ _ _ _ _ _ _ _ _ P2), (pm_owned _ _ _ _ _ _ _ _ P), Ha.
  - intros k Hk. destruct (decide (k = 0)) as [->|].
    + replace (virt + 0 * PAGE_SIZE) with virt by lia.
      replace (physical + 0 * PAGE_SIZE) with physical by lia.
      rewrite (pms_other _ _ _ _ _ _ _ _ _ P2); [apply P|lia|unfold PAGE_SIZE; dlia].
    + destruct (pms_entry _ _ _ _ _ _ _ _ _ P2 (k - 1)) as (e & He); [lia|].
      exists e. replace (virt + k * PAGE_SIZE) with (virt + PAGE_SIZE + (k - 1) * PAGE_SIZE) by lia.
      by replace (physical + k * PAGE_SIZE) with (physical + PAGE_SIZE + (k - 1) * PAGE_SIZE) by lia.
  - intros vb Hb Hout. unfold PAGE_SIZE in *.
    rewrite (pms_other _ _ _ _ _ _ _ _ _ P2 vb Hb) by (unfold PAGE_SIZE; dlia).
    eapply translate_other; [exact P|lia|done|]. unfold PAGE_SIZE. dlia.
  - intros f Hf. destruct (pm_data _ _ _ _ _ _ _ _ P f Hf) as [Hf1 B1]. destruct (pms_data _ _ _ _ _ _ _ _ _ P2 f Hf1) as [Hf2 B2].
    split; [done|]. by eapply same_bytes_trans.
Qed.

Lemma unmap_other m fr root va e vb :
  tree_wf m fr root -> translate m root va = Some e -> 0 <= va < 2 ^ 48 -> 0 <= vb < 2 ^ 48 ->
  va / PAGE_SIZE ≠ vb / PAGE_SIZE -> translate (unmap root va m) root vb = translate m root vb.
Proof.
  intros Hwf Ht Ha Hb Hne. destruct (unmap_spec root va m fr e Hwf ltac:(lia) Ht) as (_ & _ & Ho & _).
  unfold translate. destruct (indexer_range vb ltac:(lia)) as (?&?&?&?).
  apply Ho; [by apply upper_path_indices; lia|done|done|]. apply not_eq_sym. by apply page_entry_ne.
Qed.

(** The state after unmapping [n] pages from [virt]. *)
Record pages_unmapped (m m' : mem) (fr : F) (root virt n : Z) : Prop := {
  pus_wf : tree_wf m' fr root;
  pus_entry : forall k, 0 <= k < n -> translate m' root (virt + k * PAGE_SIZE) = None;
  pus_other : forall vb, 0 <= vb < 2 ^ 48 ->
    ~ (virt / PAGE_SIZE <= vb / PAGE_SIZE < virt / PAGE_SIZE + n) ->
    translate m' root vb = translate m root vb;
  pus_tables : forall q, indices q -> (length q <= 3)%nat -> table_of m' root q = table_of m root q
}.

Lemma unmap_pages_loop_spec fuel root virt m fr :
  tree_wf m fr root ->
  0 <= virt -> virt mod PAGE_SIZE = 0 -> virt + Z.of_nat fuel * PAGE_SIZE <= 2 ^ 48 ->
  (forall k, 0 <= k < Z.of_nat fuel -> is_Some (translate m root (virt + k * PAGE_SIZE))) ->
  pages_unmapped m (unmap_pages_loop fuel root virt (virt + Z.of_nat fuel * PAGE_SIZE) m) fr root virt
    (Z.of_nat fuel).
Proof.
  revert virt m. induction fuel as [|fuel IH]; intros virt m Hwf Hv Hva Hvb Hs.
  { split; try done. lia. }
  cbn [unmap_pages_loop]. unfold PAGE_SIZE in Hva, Hvb.
  rewrite (proj2 (Z.ltb_lt _ _)) by (unfold PAGE_SIZE; lia).
  destruct (Hs 0 ltac:(lia)) as [e He]. replace (virt + 0 * PAGE_SIZE) with virt in He by lia.
  destruct (unmap_spec root virt m fr e Hwf Hv He) as (Hw1 & Hn1 & _ & Ht1).
  assert (Ho1 := fun vb => unmap_other m fr root virt e vb Hwf He ltac:(lia)).
  rewrite wrap64_small by (unfold is_u64, PAGE_SIZE; lia).
  replace (virt + Z.of_nat (S fuel) * PAGE_SIZE) with (virt + PAGE_SIZE + Z.of_nat fuel * PAGE_SIZE) by lia.
  destruct (IH (virt + PAGE_SIZE) (unmap root virt m)) as [Hw2 Hn2 Ho2 Ht2];
    try done; try (unfold PAGE_SIZE; lia); try (unfold PAGE_SIZE; dlia).
  { intros k Hk. rewrite Ho1 by (unfold PAGE_SIZE; dlia).
    replace (virt + PAGE_SIZE + k * PAGE_SIZE) with (virt + (k + 1) * PAGE_SIZE) by lia. apply Hs. lia. }
  split; [done| | |].
  - intros k Hk. destruct (decide (k = 0)) as [->|].
    + replace (virt + 0 * PAGE_SIZE) with virt by lia. by rewrite Ho2 by (unfold PAGE_SIZE; dlia).
    + replace (virt + k * PAGE_SIZE) with (virt + PAGE_SIZE + (k - 1) * PAGE_SIZE) by lia. apply Hn2. lia.
  - intros vb Hb Hout. unfold PAGE_SIZE in *. rewrite Ho2, Ho1; [done|done| |done|]; unfold PAGE_SIZE; dlia.
  - intros q Hq Hl. by rewrite Ht2, Ht1.
Qed.

Lemma page_range_end virt n :
  0 <= virt -> 0 <= n -> virt + n * PAGE_SIZE <= 2 ^ 48 -> virt +64 (n *64 PAGE_SIZE) = virt + n * PAGE_SIZE.
Proof.
  intros. unfold PAGE_SIZE in *. rewrite (wrap64_small (n * 4096)) by (unfold is_u64; lia).
  apply wrap64_small. unfold is_u64. lia.
Qed.

Lemma map_pages_less root virt physical mf n m fr m' fr' :
  fa_inv fr -> map_pages root virt physical mf n (m, fr) = Done (m', fr') -> fa_inv fr' /\ fa_avail fr' <= fa_avail fr.
Proof. intros Hinv E. by destruct (map_pages_loop_avail _ _ _ _ _ _ _ _ _ _ Hinv E) as [? [_ ?]]. Qed.

Lemma map_pages_done root virt physical mf n m fr m' fr' :
  fa_inv fr -> tree_wf m fr root -> root ≠ 0 -> Pde.flag mf Present = true ->
  0 <= virt -> virt mod PAGE_SIZE = 0 -> virt + n * PAGE_SIZE <= 2 ^ 48 ->
  0 <= physical -> physical mod PAGE_SIZE = 0 -> physical + n * PAGE_SIZE <= 2 ^ 52 -> 0 <= n ->
  map_pages root virt physical mf n (m, fr) = Done (m', fr') -> enough_frames fr fr' (3 * n) ->
  pages_mapped m m' fr fr' root virt physical mf n.
Proof.
  intros Hinv Hwf Hr Hmf Hv Hva Hvt Hp Hpa Hpt Hn. unfold map_pages. rewrite page_range_end by done.
  pose proof (map_pages_loop_done (Z.to_nat n) root virt physical mf m fr m' fr') as L.
  rewrite Z2Nat.id in L by done. by apply L.
Qed.

Lemma map_pages_spec root virt physical mf n m fr :
  fa_inv fr -> tree_wf m fr root -> root ≠ 0 -> Pde.flag mf Present = true ->
  0 <= virt -> virt mod PAGE_SIZE = 0 -> virt + n * PAGE_SIZE <= 2 ^ 48 ->
  0 <= physical -> physical mod PAGE_SIZE = 0 -> physical + n * PAGE_SIZE <= 2 ^ 52 ->
  0 <= n -> 3 * n <= fa_avail fr ->
  exists m' fr', map_pages root virt physical mf n (m, fr) = Done (m', fr') /\
    pages_mapped m m' fr fr' root virt physical mf n.
Proof.
  intros Hinv Hwf Hr Hmf Hv Hva Hvt Hp Hpa Hpt Hn Hav.
  destruct (map_pages_loop_progress (Z.to_nat n) root virt physical mf m fr Hinv (virt +64 (n *64 PAGE_SIZE))) as (m' & fr' & E & _).
  exists m', fr'. split; [exact E|]. apply map_pages_done; try done. by left.
Qed.

Lemma unmap_pages_spec root virt n m fr :
  tree_wf m fr root ->
  0 <= virt -> virt mod PAGE_SIZE = 0 -> virt + n * PAGE_SIZE <= 2 ^ 48 -> 0 <= n ->
  (forall k, 0 <= k < n -> is_Some (translate m root (virt + k * PAGE_SIZE))) ->
  pages_unmapped m (unmap_pages root virt n m) fr root virt n.
Proof.
  intros. unfold unmap_pages. rewrite page_range_end by done.
  pose proof (unmap_pages_loop_spec (Z.to_nat n) root virt m fr) as L.
  rewrite Z2Nat.id in L by done. by apply L.
Qed.

(** Addresses within one page are mapped and translated alike. *)
Lemma map_same_page root va vb pa mf st : va / PAGE_SIZE = vb / PAGE_SIZE -> map root va pa mf st = map root vb pa mf st.
Proof. intros H. unfold map. by rewrite (indexer_same_page va vb H). Qed.

Lemma translate_same_page m root va vb : va / PAGE_SIZE = vb / PAGE_SIZE -> translate m root va = translate m root vb.
Proof. intros H. unfold translate, upper_path. by rewrite (indexer_same_page va vb H). Qed.

Lemma unmap_same_page root va vb m : va / PAGE_SIZE = vb / PAGE_SIZE -> unmap root va m = unmap root vb m.
Proof. intros H. unfold unmap. by rewrite (indexer_same_page va vb H). Qed.

(** The loop starts at any address of its first page. *)
Lemma unmap_pages_loop_same_page f root va vb m :
  va / PAGE_SIZE = vb / PAGE_SIZE -> 0 <= va -> 0 <= vb -> va + Z.of_nat f * PAGE_SIZE <= 2 ^ 48 -> vb + Z.of_nat f * PAGE_SIZE <= 2 ^ 48 ->
  unmap_pages_loop f root va (va + Z.of_nat f * PAGE_SIZE) m = unmap_pages_loop f root vb (vb + Z.of_nat f * PAGE_SIZE) m.
Proof.
  revert va vb m. induction f as [|f IH]; intros va vb m E Ha Hb Hta Htb; [done|]. cbn [unmap_pages_loop]. unfold PAGE_SIZE in *.
  rewrite !(proj2 (Z.ltb_lt _ _)) by lia. rewrite !wrap64_small by (unfold is_u64; lia). rewrite (unmap_same_page root va vb m E).
  replace (va + Z.of_nat (S f) * 4096) with (va + 4096 + Z.of_nat f * 4096) by lia.
  replace (vb + Z.of_nat (S f) * 4096) with (vb + 4096 + Z.of_nat f * 4096) by lia. apply IH; lia || dlia.
Qed.

Lemma unmap_pages_same_page root va n m :
  0 <= va -> 0 <= n -> va + n * PAGE_SIZE <= 2 ^ 48 -> unmap_pages root va n m = unmap_pages root (va / PAGE_SIZE * PAGE_SIZE) n m.
Proof.
  intros H0 Hn Ht. unfold unmap_pages. rewrite !page_range_end by (unfold PAGE_SIZE in *; dlia).
  pose proof (unmap_pages_loop_same_page (Z.to_nat n) root va (va / PAGE_SIZE * PAGE_SIZE) m) as L.
  rewrite Z2Nat.id in L by done. apply L; unfold PAGE_SIZE in *; lia || dlia.
Qed.

(** A memory in which every table keeps its bytes holds the same page map. *)
Lemma tables_kept m m' fr root :
  tree_wf m fr root ->
  (forall p t, indices p -> (length p <= 3)%nat -> table_of m root p = Some t -> same_bytes m m' t) ->
  tree_wf m' fr root /\ (forall q, indices q -> (length q <= 3)%nat -> table_of m' root q = table_of m root q) /\
  forall va, 0 <= va -> translate m' root va = translate m root va.
Proof.
  intros Hwf Hs.
  assert (He : forall p t i, indices p -> (length p <= 3)%nat -> table_of m root p = Some t -> 0 <= i < 512 -> entry m' t i = entry m t i).
  { intros p t i Hp Hl Ht Hi. apply read_le_ext. intros k Hk. apply (Hs p t Hp Hl Ht). unfold entry_addr, PAGE_SIZE. lia. }
  assert (Hext : forall q, indices q -> (length q <= 3)%nat -> table_of m' root q = table_of m root q).
  { apply table_of_ext. intros p t i Hp Hl Ht Hi. rewrite (He p) by (done || lia). by split. }
  split_and!; [|done|].
  - split; [apply Hwf| |].
    + intros p t Hp Hl. rewrite Hext by done. by apply (tree_owned _ _ _ Hwf).
    + intros p q t Hp Hq Lp Lq. rewrite !Hext by done. by apply (tree_inj _ _ _ Hwf).
  - intros va Hva. destruct (indexer_range va Hva) as (_ & _ & _ & Hj). unfold translate, leaf.
    rewrite Hext by (done || by apply upper_path_indices). destruct (table_of m root (upper_path va)) as [t|] eqn:Ht; [|done].
    cbn [mbind option_bind]. by rewrite (He (upper_path va)) by (done || by apply upper_path_indices).
Qed.

(** A zeroed frame is an empty page map. *)
Lemma empty_tree_wf m fr root :
  frame_address root -> fa_owned fr root -> (forall i, 0 <= i < 512 -> entry m root i = 0) ->
  tree_wf m fr root /\ forall va, 0 <= va -> translate m root va = None.
Proof.
  intros Hr Ho Hz.
  assert (Hn : forall i q, 0 <= i < 512 -> table_of m root (i :: q) = None).
  { intros i q Hi. cbn [table_of]. by rewrite Hz. }
  split.
  - split; [done| |].
    + intros [|i p] t Hp _; [by intros [= <-]|]. apply Forall_cons in Hp as [Hi _]. by rewrite Hn.
    + intros [|i p] [|j q] t Hp Hq _ _; [done|..].
      * apply Forall_cons in Hq as [Hj _]. by rewrite (Hn j).
      * apply Forall_cons in Hp as [Hi _]. by rewrite (Hn i).
      * apply Forall_cons in Hp as [Hi _]. by rewrite (Hn i).
  - intros va Hva. unfold translate, leaf, upper_path. cbv zeta.
    destruct (indexer_range va Hva) as (Hi & _). by rewrite Hn.
Qed.

(** A page of zeroes is an empty table. *)
Lemma entry_of_zeroes m t i : (forall x, t <= x < t + PAGE_SIZE -> read8 m x = 0) -> 0 <= i < 512 -> entry m t i = 0.
Proof.
  intros Hz Hi. unfold entry, entry_addr, read64, PAGE_SIZE in *.
  enough (H : forall n a, t <= a -> a + Z.of_nat n <= t + 4096 -> read_le n m a = 0) by (apply H; lia).
  induction n as [|n IH]; intros a Ha Hn; [done|]. cbn [read_le]. rewrite Hz, IH by lia. done.
Qed.

(** In an empty page map every other page in use is data. *)
Lemma empty_data_frame m fr root f :
  (forall i, 0 <= i < 512 -> entry m root i = 0) -> frame_address f -> fa_owned fr f -> f ≠ root -> data_frame m fr root f.
Proof.
  intros Hz Hf Ho Hne. split; [done|done|]. intros [|i p] Hp _; [by intros [= ->]|]. apply Forall_cons in Hp as [Hi _]. cbn [table_of]. by rewrite Hz.
Qed.

(** ** Claims *)

(** C3: given three free frames, [map] on a well-formed page map finishes; the
    page then translates to the given frame with exactly the given flags, every
    other page of the address space translates as before, and the page map is
    still a tree of owned frames. *)
Theorem map_translates_page root va pa mf m fr :
  fa_inv fr -> tree_wf m fr root -> root ≠ 0 -> 0 <= va < 2 ^ 48 -> frame_address pa ->
  Pde.flag mf Present = true -> 3 <= fa_avail fr ->
  exists m' fr',
    map root va pa mf (m, fr) = Done (m', fr') /\ fa_inv fr' /\ tree_wf m' fr' root /\
    (exists e, translate m' root va = Some e /\ Pde.address e = pa /\
       forall f, f ∈ mapping_flags -> Pde.flag e f = Pde.flag mf f) /\
    (forall vb, 0 <= vb < 2 ^ 48 -> va / PAGE_SIZE ≠ vb / PAGE_SIZE ->
       translate m' root vb = translate m root vb).
Proof.
  intros Hinv Hwf Hr Hva Hpa Hmf Hav.
  destruct (map_progress root va pa mf m fr Hinv) as (m' & fr' & E & Hi' & _).
  assert (P : page_mapped m m' fr fr' root va pa mf) by (eapply map_spec; (done || lia || by left)).
  exists m', fr'. split_and!; [done|done|apply P|apply P|].
  intros vb Hb Hne. by eapply translate_other.
Qed.

(** Mapping a run of pages and unmapping the same run leaves every page of
    the run untranslated and every other page translated as it was before. *)
Theorem map_then_unmap_pages root virt physical mf n m fr :
  fa_inv fr -> tree_wf m fr root -> root ≠ 0 -> Pde.flag mf Present = true ->
  0 <= virt -> virt mod PAGE_SIZE = 0 -> virt + n * PAGE_SIZE <= 2 ^ 48 ->
  0 <= physical -> physical mod PAGE_SIZE = 0 -> physical + n * PAGE_SIZE <= 2 ^ 52 ->
  0 <= n -> 3 * n <= fa_avail fr ->
  exists m1 fr1, map_pages root virt physical mf n (m, fr) = Done (m1, fr1) /\
    pages_mapped m m1 fr fr1 root virt physical mf n /\
    let m2 := unmap_pages root virt n m1 in
    tree_wf m2 fr1 root /\
    (forall k, 0 <= k < n -> translate m2 root (virt + k * PAGE_SIZE) = None) /\
    (forall vb, 0 <= vb < 2 ^ 48 -> ~ (virt / PAGE_SIZE <= vb / PAGE_SIZE < virt / PAGE_SIZE + n) ->
       translate m2 root vb = translate m root vb).
Proof.
  intros Hinv Hwf Hr Hmf Hv Hva Hvb Hp Hpa Hpb Hn Hav.
  destruct (map_pages_spec root virt physical mf n m fr) as (m1 & fr1 & E & P); try done.
  exists m1, fr1. split_and!; [done|done|]. cbv zeta.
  destruct (unmap_pages_spec root virt n m1 fr1) as [W N O]; [apply P|done..| |].
  { intros k Hk. destruct (pms_entry _ _ _ _ _ _ _ _ _ P k Hk) as (e & -> & _). done. }
  split_and!; [done|done|]. intros vb Hb Hout. rewrite O by done. by apply P.
Qed.

End Mapper.

(** ** The active page map *)

(** [ActivePageMap], which mirrors control register three. *)
Record vmm := mkVmm { ActivePageMap : Z; cr3 : Z }.

Definition flush_page_map (pageMapLevelFour : Z) (v : vmm) : vmm :=
  mkVmm pageMapLevelFour pageMapLevelFour.

(** Reads the register the first time. *)
Definition active_page_map (v : vmm) : Z * vmm :=
  if ActivePageMap v =? 0 then (cr3 v, mkVmm (cr3 v) (cr3 v)) else (ActivePageMap v, v).

(** The overloads of [map] and [unmap] without a page map argument. *)
Definition map_active {F} `{!FrameAllocator F} (virtualAddress physicalAddress mappingFlags : Z)
    (v : vmm) (st : mem * F) : outcome (mem * F) :=
  map (ActivePageMap v) virtualAddress physicalAddress mappingFlags st.

Definition unmap_active (virtualAddress : Z) (v : vmm) (m : mem) : mem :=
  unmap (ActivePageMap v) virtualAddress m.

(** ** Concrete page maps for the witnesses *)

(** Physical memory full of zeroes. *)
Definition zero_mem : mem := fun _ => 0.

(** [FrameAlloc.fresh] after the first two pages have been taken: frame zero is
    kept out of circulation and the page map's root is at 4096. *)
Definition root_taken : pmm := lock_pages 0 2 fresh.

Lemma root_taken_wf : pmm_wf root_taken.
Proof. apply (lock_pages_spec 0 2); [apply fresh_wf|unfold PAGE_SIZE; lia..]. Qed.

Lemma zero_entry t i : entry zero_mem t i = 0.
Proof. reflexivity. Qed.

Lemma zero_root_wf : tree_wf zero_mem root_taken PAGE_SIZE.
Proof.
  apply empty_tree_wf; [|exists 1; vm_compute; intuition congruence|intros; apply zero_entry].
  split; [unfold PAGE_SIZE; lia|done].
Qed.

Lemma map_translates_page_witness :
  exists m' fr',
    map PAGE_SIZE 8192 12288 3 (zero_mem, root_taken) = Done (m', fr') /\ fa_inv fr' /\
    tree_wf m' fr' PAGE_SIZE /\
    (exists e, translate m' PAGE_SIZE 8192 = Some e /\ Pde.address e = 12288 /\
       forall f, f ∈ mapping_flags -> Pde.flag e f = Pde.flag 3 f) /\
    (forall vb, 0 <= vb < 2 ^ 48 -> 8192 / PAGE_SIZE ≠ vb / PAGE_SIZE ->
       translate m' PAGE_SIZE vb = translate zero_mem PAGE_SIZE vb).
Proof.
  apply (map_translates_page PAGE_SIZE 8192 12288 3 zero_mem root_taken);
    [apply root_taken_wf|apply zero_root_wf|done|lia|split; [lia|done]|reflexivity|vm_compute; discriminate].
Defined.

Lemma map_then_unmap_pages_witness :
  exists m1 fr1, map_pages PAGE_SIZE 8192 16384 7 3 (zero_mem, root_taken) = Done (m1, fr1) /\
    pages_mapped zero_mem m1 root_taken fr1 PAGE_SIZE 8192 16384 7 3 /\
    let m2 := unmap_pages PAGE_SIZE 8192 3 m1 in
    tree_wf m2 fr1 PAGE_SIZE /\
    (forall k, 0 <= k < 3 -> translate m2 PAGE_SIZE (8192 + k * PAGE_SIZE) = None) /\
    (forall vb, 0 <= vb < 2 ^ 48 -> ~ (8192 / PAGE_SIZE <= vb / PAGE_SIZE < 8192 / PAGE_SIZE + 3) ->
       translate m2 PAGE_SIZE vb = translate zero_mem PAGE_SIZE vb).
Proof.
  apply (map_then_unmap_pages PAGE_SIZE 8192 16384 7 3 zero_mem root_taken);
    [apply root_taken_wf|apply zero_root_wf|..]; vm_compute; (reflexivity || discriminate).
Defined.

(** [unmap] follows the tables without looking at their present flags. On a
    page map whose root is an empty table it writes through physical address
    zero: the virtual page at 0 is not mapped, yet the word that a page table
    at physical address 0 would hold loses its lowest bit. *)
Theorem unmap_of_absent_page_writes_frame_zero m root :
  (forall i, 0 <= i < 512 -> entry m root i = 0) -> entry m 0 0 = 1 ->
  translate m root 0 = None /\ entry (unmap root 0 m) 0 0 = 0.
Proof.
  intros Hz H0. assert (E0 : indexer 0 = mkIndexer 0 0 0 0) by reflexivity.
  unfold translate, leaf, upper_path, unmap. cbv zeta. rewrite E0.
  cbn [PageDirectoryPointerIndex PageDirectoryIndex PageTableIndex PageIndex table_of].
  rewrite (Hz 0) by lia. split; [done|]. change (Pde.address 0) with 0. rewrite H0.
  change (Pde.address 1) with 0. rewrite H0.
  change (Pde.address 1) with 0. rewrite H0. change (Pde.set_flag 1 Present false) with 0.
  rewrite entry_set_entry; [done|..]; (split; [lia|done]) || lia || done.
Qed.

Lemma unmap_of_absent_page_writes_frame_zero_witness :
  let m := set_entry zero_mem 0 0 1 in
  translate m PAGE_SIZE 0 = None /\ entry (unmap PAGE_SIZE 0 m) 0 0 = 0.
Proof.
  apply (unmap_of_absent_page_writes_frame_zero (set_entry zero_mem 0 0 1) PAGE_SIZE); [|reflexivity].
  intros i Hi. unfold PAGE_SIZE. rewrite entry_set_entry; [|done|split; [lia|done]..|lia|lia].
  by rewrite decide_False by lia.
Defined.
