(* ===== verification/InitMem.v ===== *)
(** * Memory at boot

    Models [init_physical] (src/kernel/src/memory/physical_memory_manager.cpp)
    and [init_virtual] (src/kernel/src/memory/virtual_memory_manager.cpp): the
    page bitmap is filled from the memory map of the firmware, and the kernel's
    page map maps physical memory to itself and the kernel where it was linked
    to run. The bytes of a bitmap belong to the bitmap, as in [Bitmap]: that the
    second one is cleared in physical memory is modelled, what is written to it
    afterwards is not seen there. The memory map is read from memory. *)

From S2P Require Import Prelude PhysMem Bitmap FrameAlloc Paging PageMap.

Module Boot.

(** ** The memory map of the firmware *)





(** ** Physical memory *)


(** From the linker script. *)
Definition KERNEL_PHYSICAL : Z := 0x100000.
Definition KERNEL_VIRTUAL : Z := 0xffffffff80000000.
Definition KERNEL_START : Z := KERNEL_PHYSICAL + KERNEL_VIRTUAL.






(** [for (t = start; t < end; t += PAGE_SIZE) map(pageMap, t + offset, t, flags)] *)
Fixpoint map_range (fuel : nat) (pageMap offset t endt flags : Z) (st : mem * pmm) : outcome (mem * pmm) :=
  match fuel with
  | O => Done st
  | S f =>
      if t <? endt then st ← map pageMap (t +64 offset) t flags st; map_range f pageMap offset (t +64 PAGE_SIZE) endt flags st
      else Done st
  end.

(** The number of times such a loop runs. *)
Definition range_pages (start endt : Z) : nat := Z.to_nat ((endt - start + PAGE_SIZE - 1) / PAGE_SIZE).

Section Kernel.
(** Where the linker ends the kernel, and where it puts the first bitmap. *)
Context (KERNEL_END InitialPageBitmap : Z).






(** ** Virtual memory *)

Definition kernel_flags : Z := Z.lor (flag_value Present) (flag_value ReadWrite).

Definition init_virtual_map (pageMap : Z) (v : vmm) (st : mem * pmm) : outcome (vmm * (mem * pmm)) :=
  st ← map_range (range_pages 0 (total_ram st.2)) pageMap 0 0 (total_ram st.2) kernel_flags st;
  let kernelBytesNeeded := 1 + (KERNEL_END -64 KERNEL_START) in
  let top := KERNEL_PHYSICAL + kernelBytesNeeded + PAGE_SIZE in
  '(m, s) ← map_range (range_pages KERNEL_PHYSICAL top) pageMap KERNEL_VIRTUAL KERNEL_PHYSICAL top kernel_flags st;
  let m := unmap_active 0 v m in
  Done (flush_page_map pageMap v, (m, s)).

Definition init_virtual (v : vmm) (st : mem * pmm) : outcome (vmm * (mem * pmm)) :=
  '(table, s) ← request_page st.2;
  init_virtual_map table v (MemRoutines.memset table 0 PAGE_SIZE st.1, s).

End Kernel.

(** ** The second bitmap *)











(** ** The first bitmap and the hint *)

(** The number of pages, and where the search for a free one starts. *)
Definition hint_ok (n : Z) (s : pmm) : Prop := TotalPages s = n /\ 0 <= FirstFreePage s <= n.






Lemma request_page_hint n s a s' : n < 2 ^ 64 -> request_page s = Done (a, s') -> hint_ok n s -> hint_ok n s'.
Proof.
  intros Hn. unfold request_page. generalize (S (Z.to_nat (TotalPages s - FirstFreePage s))). intros fuel. revert s.
  induction fuel as [|f IH]; intros s E [H1 H2]; cbn [request_page_loop] in E; [done|].
  destruct (Z.ltb_spec (FirstFreePage s) (TotalPages s)) as [Hlt|]; [|by injection E as _ <-].
  destruct (Bits.get _ _); [apply (IH _ E); split; cbn; [done|]; rewrite wrap64_small by (unfold is_u64; lia); lia|].
  injection E as _ <-. destruct (lock_page_shape (FirstFreePage s *64 PAGE_SIZE) s) as [(_ & _ & Ht & _) Hf].
  split; cbn; [congruence|]. rewrite Hf, wrap64_small by (unfold is_u64; lia). lia.
Qed.



Section MapFrames.
Context (P : pmm -> Prop).
Hypothesis HP : forall s a s', request_page s = Done (a, s') -> P s -> P s'.

Lemma descend_frames mf t i m s x m' s' : descend mf t i (m, s) = Done (x, (m', s')) -> P s -> P s'.
Proof.
  unfold descend. destruct (Pde.flag _ _); [cbn; by intros [= _ _ <-]|]. cbn [fa_request pmm_frame_allocator].
  destruct (request_page s) as [[a s1]|] eqn:E; [|done]. cbn. intros [= _ _ <-]. by eapply HP.
Qed.

Lemma map_frames root va pa mf m s m' s' : map root va pa mf (m, s) = Done (m', s') -> P s -> P s'.
Proof.
  unfold map. destruct (root =? 0); [by intros [= _ <-]|]. cbv zeta.
  destruct (descend mf root _ (m, s)) as [[t1 [m1 s1]]|] eqn:E1; [|done]. cbn [mbind outcome_bind].
  destruct (descend mf t1 _ (m1, s1)) as [[t2 [m2 s2]]|] eqn:E2; [|done]. cbn [mbind outcome_bind].
  destruct (descend mf t2 _ (m2, s2)) as [[t3 [m3 s3]]|] eqn:E3; [|done]. cbn [mbind outcome_bind]. intros [= _ <-] Hs.
  eapply descend_frames; [exact E3|]. eapply descend_frames; [exact E2|]. by eapply descend_frames.
Qed.

Lemma map_range_frames fuel root off t endt mf m s m' s' : map_range fuel root off t endt mf (m, s) = Done (m', s') -> P s -> P s'.
Proof.
  revert t m s. induction fuel as [|f IH]; intros t m s; cbn [map_range]; [by intros [= _ <-]|].
  destruct (t <? endt); [|by intros [= _ <-]]. destruct (map root _ _ _ (m, s)) as [[m1 s1]|] eqn:E; [|done]. cbn [mbind outcome_bind].
  intros E' Hs. eapply IH; [exact E'|]. by eapply map_frames.
Qed.

End MapFrames.


Section Boot.
Context (KERNEL_END InitialPageBitmap : Z).
Hypothesis Hkernel : KERNEL_START <= KERNEL_END < 2 ^ 64.







End Boot.

(** ** The first bitmap with all pages locked *)




(** ** A machine with twenty pages

    Twelve of them, from the second on, are conventional memory; the memory map
    lies at 16 pages, and the firmware's page map at 13. *)

Definition small_kernel_end : Z := KERNEL_START + 8192.




(** ** The kernel's page map *)

(** Only 48 bits of an address are looked at. *)
Lemma indexer_low va : 0 <= va -> indexer va = indexer (va mod 2 ^ 48).
Proof.
  intros H. rewrite !indexer_fields by (done || apply Z.mod_pos_bound; lia). f_equal; dlia.
Qed.

Lemma translate_low m root va : 0 <= va -> translate m root va = translate m root (va mod 2 ^ 48).
Proof. intros H. unfold translate, upper_path. by rewrite (indexer_low va H). Qed.

Lemma map_low root va pa mf (st : mem * pmm) : 0 <= va -> map root va pa mf st = map root (va mod 2 ^ 48) pa mf st.
Proof. intros H. unfold map. by rewrite (indexer_low va H). Qed.

(** The loops over physical addresses map consecutive pages. *)
Lemma map_range_pages n root off t endt mf st :
  0 <= off -> 0 <= t -> t + off + Z.of_nat n * PAGE_SIZE < 2 ^ 64 -> (t + off) mod 2 ^ 48 + Z.of_nat n * PAGE_SIZE < 2 ^ 48 ->
  t + Z.of_nat n * PAGE_SIZE < endt + PAGE_SIZE ->
  map_range n root off t endt mf st =
  map_pages_loop n root ((t + off) mod 2 ^ 48) t ((t + off) mod 2 ^ 48 + Z.of_nat n * PAGE_SIZE) mf st.
Proof.
  revert t st. induction n as [|n IH]; intros t st H0 Ht Hw Hl He; cbn [map_range map_pages_loop]; [done|]. unfold PAGE_SIZE in *.
  rewrite !(proj2 (Z.ltb_lt _ _)) by lia. rewrite (wrap64_small (t + off)), map_low by (unfold is_u64; lia).
  destruct (map root _ _ _ st) as [st1|]; [|done]. cbn [mbind outcome_bind].
  assert (E : (t + 4096 + off) mod 2 ^ 48 = (t + off) mod 2 ^ 48 + 4096) by (replace (t + 4096 + off) with (t + off + 4096) by lia; dlia).
  assert (0 <= (t + off) mod 2 ^ 48) by (apply Z.mod_pos_bound; lia).
  rewrite !(wrap64_small (_ + 4096)) by (unfold is_u64; lia). rewrite IH by (rewrite ?E; lia). rewrite E. f_equal. lia.
Qed.

(** [unmap] writes to the page table of the page only. *)
Lemma unmap_bytes root va m (fr : pmm) e :
  tree_wf m fr root -> 0 <= va -> translate m root va = Some e ->
  exists pt, table_of m root (upper_path va) = Some pt /\ forall f, frame_address f -> f ≠ pt -> same_bytes m (unmap root va m) f.
Proof.
  intros Hwf Hva Ht. destruct (indexer_range va Hva) as (_ & _ & _ & I4).
  unfold translate, leaf in Ht. destruct (table_of m root (upper_path va)) as [pt|] eqn:Hpt; [|done]. exists pt. split; [done|].
  intros f Hf Hne. assert (Hun : exists v, unmap root va m = set_entry m pt (PageIndex (indexer va)) v).
  { unfold upper_path in Hpt. cbn [table_of] in Hpt. unfold unmap. destruct (Pde.flag _ _); [|done]. destruct (Pde.flag _ _); [|done].
    destruct (Pde.flag _ _); [|done]. apply (inj Some) in Hpt. rewrite Hpt. by eexists. }
  destruct Hun as [v ->]. apply set_entry_bytes; [by eapply table_of_frame|done|done|done].
Qed.

(** A page map whose tables are in use, none as a table of the map at [root]. *)
Definition beside (m : mem) (fr : pmm) (root old : Z) : Prop :=
  tree_wf m fr old /\ forall p t, indices p -> (length p <= 3)%nat -> table_of m old p = Some t -> data_frame m fr root t.

Lemma beside_kept m fr m' fr' root old :
  beside m fr root old -> (forall f, data_frame m fr root f -> data_frame m' fr' root f /\ same_bytes m m' f) ->
  (forall a, frame_locked fr a -> frame_locked fr' a) ->
  beside m' fr' root old /\ forall va, 0 <= va -> translate m' old va = translate m old va.
Proof.
  intros [T Hd] Hk Hmore. destruct (tables_kept m m' fr old T) as (T' & Htab & Htr); [intros p t Hp Hl Ht; by eapply Hk, Hd|].
  split; [|done]. split; [by eapply tree_wf_more|]. intros p t Hp Hl Ht. rewrite Htab in Ht by done. by eapply Hk, Hd.
Qed.

Section Virtual.
Context (KERNEL_END : Z).
Hypothesis Hkernel : KERNEL_START <= KERNEL_END /\ KERNEL_END + 4 * PAGE_SIZE <= 2 ^ 64.

(** The bytes that are mapped where the kernel runs. *)
Definition kernel_span : Z := KERNEL_END - KERNEL_START + 1 + PAGE_SIZE.

(** [root] maps every physical address to itself and the kernel to where it runs,
    writable and not for user programs. *)
Record kernel_map (m : mem) (n root : Z) : Prop := {
  km_identity t : 0 <= t < n * PAGE_SIZE -> exists e, translate m root t = Some e /\ Pde.address e + t mod PAGE_SIZE = t /\
    Pde.flag e Present = true /\ Pde.flag e ReadWrite = true /\ Pde.flag e UserSuper = false;
  km_kernel x : 0 <= x < kernel_span -> exists e, translate m root (KERNEL_START + x) = Some e /\
    Pde.address e + x mod PAGE_SIZE = KERNEL_PHYSICAL + x /\ Pde.flag e Present = true /\ Pde.flag e ReadWrite = true
}.

Lemma init_virtual_map_spec root old v m s v' m' s' e :
  pmm_wf s -> tree_wf m s root -> root ≠ 0 -> beside m s root old -> ActivePageMap v = old -> translate m old 0 = Some e ->
  0 <= TotalPages s -> TotalPages s * PAGE_SIZE <= 2 ^ 47 ->
  init_virtual_map KERNEL_END root v (m, s) = Done (v', (m', s')) -> 0 < fa_avail s' ->
  v' = mkVmm root root /\ pmm_wf s' /\ tree_wf m' s' root /\ kernel_map m' (TotalPages s) root.
Proof.
  intros W T Hr Bs Hv He H0 Htop. unfold init_virtual_map, total_ram. cbn [snd]. set (n := TotalPages s) in *.
  rewrite (wrap64_small (n * PAGE_SIZE)) by (unfold is_u64, PAGE_SIZE in *; lia). rewrite (wrap64_small (KERNEL_END - KERNEL_START)) by (unfold is_u64, KERNEL_START, KERNEL_PHYSICAL, KERNEL_VIRTUAL, PAGE_SIZE in *; lia).
  assert (E1 : range_pages 0 (n * PAGE_SIZE) = Z.to_nat n) by (unfold range_pages, PAGE_SIZE; f_equal; dlia). rewrite E1.
  rewrite map_range_pages by (rewrite ?Z2Nat.id by lia; unfold PAGE_SIZE in *; change ((0 + 0) mod 2 ^ 48) with 0; lia). change ((0 + 0) mod 2 ^ 48) with 0.
  destruct (map_pages_loop (Z.to_nat n) root 0 0 _ kernel_flags (m, s)) as [[m1 s1]|] eqn:Em1; [|done]. cbn [mbind outcome_bind].
  set (top := KERNEL_PHYSICAL + (1 + (KERNEL_END - KERNEL_START)) + PAGE_SIZE). set (k := range_pages KERNEL_PHYSICAL top).
  assert (Hk : kernel_span <= Z.of_nat k * PAGE_SIZE < kernel_span + PAGE_SIZE).
  { unfold k, range_pages, kernel_span, top. unfold KERNEL_START, KERNEL_PHYSICAL, KERNEL_VIRTUAL, PAGE_SIZE in *. rewrite Z2Nat.id by dlia. dlia. }
  rewrite map_range_pages by (unfold kernel_span, top, KERNEL_START, KERNEL_PHYSICAL, KERNEL_VIRTUAL, PAGE_SIZE in *; (lia || change ((1048576 + 18446744071562067968) mod 2 ^ 48) with 281472830275584; lia)).
  change ((KERNEL_PHYSICAL + KERNEL_VIRTUAL) mod 2 ^ 48) with 281472830275584.
  destruct (map_pages_loop k root _ _ _ kernel_flags (m1, s1)) as [[m2 s2]|] eqn:Em2; [|done]. cbn [mbind outcome_bind]. intros [= <- <- <-] Hleft.
  destruct (@map_pages_loop_avail pmm pmm_frame_allocator _ _ _ _ _ _ m s m1 s1 W Em1) as [W1 _]. destruct (@map_pages_loop_avail pmm pmm_frame_allocator _ _ _ _ _ _ m1 s1 m2 s2 W1 Em2) as [_ A2].
  assert (P1 : pages_mapped m m1 s s1 root 0 0 kernel_flags (Z.of_nat (Z.to_nat n))).
  { apply map_pages_loop_done; try done; [rewrite Z2Nat.id by lia; unfold PAGE_SIZE in *; lia..|]. right. lia. }
  assert (P2 : pages_mapped m1 m2 s1 s2 root 281472830275584 KERNEL_PHYSICAL kernel_flags (Z.of_nat k)).
  { apply map_pages_loop_done; try done; [apply P1|unfold kernel_span, KERNEL_START, KERNEL_PHYSICAL, KERNEL_VIRTUAL, PAGE_SIZE in *; lia..|by right]. }
  destruct (beside_kept m s m1 s1 root old Bs) as [Bs1 Htr1]; [apply P1|apply P1|]. destruct (beside_kept m1 s1 m2 s2 root old Bs1) as [Bs2 Htr2]; [apply P2|apply P2|].
  destruct (unmap_bytes old 0 m2 s2 e) as (pt & Hpt & Hb); [apply Bs2|lia|by rewrite Htr2, Htr1 by lia|]. unfold unmap_active. rewrite Hv.
  destruct (tables_kept m2 (unmap old 0 m2) s2 root (pms_wf _ _ _ _ _ _ _ _ _ P2)) as (T3 & _ & Htr3).
  { intros p t Hp Hl Ht. apply Hb; [by eapply table_of_frame; [apply P2|]|]. intros ->.
    eapply (df_table _ _ _ _ (proj2 Bs2 (upper_path 0) pt (upper_path_indices 0 ltac:(lia)) ltac:(done) Hpt)); [exact Hp|exact Hl|exact Ht]. }
  split_and!; [done|apply P2|exact T3|]. split.
  - intros t Ht. rewrite Htr3 by lia. rewrite (pms_other _ _ _ _ _ _ _ _ _ P2) by (unfold PAGE_SIZE in *; dlia).
    destruct (pms_entry _ _ _ _ _ _ _ _ _ P1 (t / PAGE_SIZE)) as (e1 & He1 & Ha1 & Hf1); [unfold PAGE_SIZE in *; dlia|].
    exists e1. rewrite (translate_same_page _ _ t (0 + t / PAGE_SIZE * PAGE_SIZE)) by (unfold PAGE_SIZE; dlia).
    rewrite !Hf1 by set_solver. split_and!; try done. rewrite Ha1. unfold PAGE_SIZE. dlia.
  - intros x Hx. assert (Hx' : (KERNEL_START + x) mod 2 ^ 48 = 281472830275584 + x).
    { unfold kernel_span, KERNEL_START, KERNEL_PHYSICAL, KERNEL_VIRTUAL, PAGE_SIZE in *. dlia. }
    rewrite Htr3 by (unfold KERNEL_START, KERNEL_PHYSICAL, KERNEL_VIRTUAL; lia). rewrite translate_low, Hx' by (unfold KERNEL_START, KERNEL_PHYSICAL, KERNEL_VIRTUAL; lia).
    destruct (pms_entry _ _ _ _ _ _ _ _ _ P2 (x / PAGE_SIZE)) as (e1 & He1 & Ha1 & Hf1); [unfold PAGE_SIZE in *; dlia|].
    exists e1. rewrite (translate_same_page _ _ _ (281472830275584 + x / PAGE_SIZE * PAGE_SIZE)) by (unfold PAGE_SIZE; dlia).
    rewrite !Hf1 by set_solver. split_and!; try done. rewrite Ha1. unfold PAGE_SIZE. dlia.
Qed.

(** Once nothing is left, mapping takes nothing more. *)
Definition full (s : pmm) : Prop := pmm_wf s /\ available s <= 0.

Lemma request_page_full s a s' : request_page s = Done (a, s') -> full s -> full s'.
Proof.
  intros E [W H]. destruct (request_page_none s W H) as (s1 & E1 & W1 & _ & A1). rewrite E in E1. injection E1 as _ <-.
  split; [done|lia].
Qed.

Lemma init_virtual_map_full root v m s v' m' s' :
  init_virtual_map KERNEL_END root v (m, s) = Done (v', (m', s')) -> full s -> full s'.
Proof.
  unfold init_virtual_map. cbn [snd]. destruct (map_range _ root 0 _ _ _ (m, s)) as [[m1 s1]|] eqn:E1; [|done]. cbn [mbind outcome_bind].
  destruct (map_range _ root _ _ _ _ (m1, s1)) as [[m2 s2]|] eqn:E2; [|done]. cbn [mbind outcome_bind]. intros [= _ _ <-] Hs.
  eapply map_range_frames; [exact request_page_full|exact E2|]. by eapply map_range_frames; [exact request_page_full|exact E1|].
Qed.

(** [init_virtual] leaves the processor with a new page map that maps all of
    physical memory to itself and the kernel to where it runs. That includes the
    page at address zero (a frame is left at the end, so that no request for a
    table was refused): it is unmapped from the old page map only, so that in
    the new one a null pointer does not fault. *)
Theorem boot_maps_memory_null_included v m s v' m' s' e :
  pmm_wf s -> frame_locked s 0 -> tree_wf m s (ActivePageMap v) -> translate m (ActivePageMap v) 0 = Some e ->
  0 < TotalPages s -> TotalPages s * PAGE_SIZE <= 2 ^ 47 -> init_virtual KERNEL_END v (m, s) = Done (v', (m', s')) -> 0 < available s' ->
  exists root, v' = mkVmm root root /\ root ≠ ActivePageMap v /\ pmm_wf s' /\ tree_wf m' s' root /\ kernel_map m' (TotalPages s) root /\
    is_Some (translate m' root 0).
Proof.
  intros W Hz T He H0 Htop. unfold init_virtual. cbn [fst snd]. destruct (request_page s) as [[root s1]|] eqn:E; [|done]. cbn [mbind outcome_bind].
  intros Ei Hleft. assert (Hav : 0 < available s).
  { destruct (Z.lt_ge_cases 0 (available s)) as [|Hfull]; [done|]. exfalso.
    pose proof (request_page_full _ _ _ E (conj W Hfull)) as Hf. apply (init_virtual_map_full _ _ _ _ _ _ _ Ei) in Hf as [_ Hf]. lia. }
  destruct (@fa_request_sound pmm pmm_frame_allocator s root s1 W Hav E) as (W1 & Ha & Hrg & Hno & Hiff & _). assert (Hf : frame_address root) by done.
  set (m1 := MemRoutines.memset root 0 PAGE_SIZE m). assert (Hr : root ≠ 0) by (intros ->; by apply Hno).
  assert (Hs : forall p t, indices p -> (length p <= 3)%nat -> table_of m (ActivePageMap v) p = Some t -> same_bytes m m1 t).
  { intros p t Hp Hl Ht. apply memset_bytes; [done|by eapply table_of_frame|]. intros ->. by apply Hno, (tree_owned _ _ _ T p). }
  destruct (tables_kept m m1 s _ T Hs) as (T1 & Htab & Htr).
  assert (Hz1 : forall i, 0 <= i < 512 -> entry m1 root i = 0) by (intros i Hi; unfold m1; rewrite entry_zeroed by done; by rewrite decide_True).
  destruct (empty_tree_wf m1 s1 root) as [Tr _]; [done|apply Hiff; by right|done|].
  assert (Bs : beside m1 s1 root (ActivePageMap v)).
  { split; [eapply tree_wf_more; [exact T1|]; intros a Hl; apply Hiff; by left|]. intros p t Hp Hl Ht. pose proof Ht as Ht'. rewrite Htab in Ht' by done.
    pose proof (tree_owned _ _ _ T p t Hp Hl Ht') as Hot. split; [exact (table_of_frame _ _ _ _ _ T1 Ht)|apply Hiff; by left|].
    intros q Hq Hlq. destruct q as [|j q]; cbn [table_of]; [intros [= ->]; by apply Hno|].
    apply Forall_cons in Hq as [Hj _]. by rewrite (Hz1 j Hj). }
  destruct (request_page_hint (TotalPages s) s root s1) as [HT1 _]; [unfold PAGE_SIZE in *; lia|done|split; [done|apply W]|]. rewrite <- HT1 in *.
  destruct (init_virtual_map_spec root _ v m1 s1 v' m' s' e W1 Tr Hr Bs eq_refl) as (-> & W' & T' & K); [by rewrite Htr|lia|done|exact Ei|exact Hleft|].
  exists root. split_and!; try done; [intros Heq; apply Hno; rewrite Heq; by apply (tree_owned _ _ _ T []); [constructor|cbn; lia|]|].
  destruct (km_identity _ _ _ K 0) as (e0 & He0 & _); [unfold PAGE_SIZE; lia|]. by exists e0.
Qed.

End Virtual.

(** A machine with twenty pages whose page map, at 4096, maps page zero. *)
Definition two_taken : pmm := lock_pages 0 2 (mkPmm (Bits.init 4 0) 20 21 0 20 0).
Notation old_space := (map 4096 0 0 kernel_flags (zero_mem, two_taken)).

Lemma boot_maps_memory_null_included_witness :
  exists m s root m' s' e, old_space = Done (m, s) /\ init_virtual small_kernel_end (mkVmm 4096 4096) (m, s) = Done (mkVmm root root, (m', s')) /\
    translate m' root 4097 = Some e /\ Pde.address e + 1 = 4097 /\ is_Some (translate m' root 0).
Proof.
  assert (H : match old_space with
              | Done (m, s) => match init_virtual small_kernel_end (mkVmm 4096 4096) (m, s) with Done (_, (_, s')) => (TotalPages s =? 20) && (0 <? available s') | Stop _ => false end
              | Stop _ => false
              end = true) by (vm_compute; reflexivity).
  assert (W0 : pmm_wf two_taken) by (apply (lock_pages_spec 0 2); [apply (empty_pmm_wf 4 20 0); lia|unfold PAGE_SIZE; lia..]).
  assert (F0 : frame_address 4096) by (split; [lia|reflexivity]).
  assert (T0 : tree_wf zero_mem two_taken 4096).
  { apply empty_tree_wf; [done|exists 1; split_and!; [lia|reflexivity|vm_compute; reflexivity]|intros; apply zero_entry]. }
  destruct old_space as [[m s]|] eqn:Em; [|discriminate H].
  assert (PM : page_mapped zero_mem m two_taken s 4096 0 0 kernel_flags) by (eapply map_spec; [exact W0|exact T0|lia|lia|split; [lia|reflexivity]|reflexivity|left; apply Z.leb_le; vm_compute; reflexivity|exact Em]).
  destruct (init_virtual small_kernel_end (mkVmm 4096 4096) (m, s)) as [[v' [m' s']]|] eqn:Ei; [|discriminate H]. apply andb_true_iff in H as [H%Z.eqb_eq Hleft%Z.ltb_lt].
  destruct (pm_entry _ _ _ _ _ _ _ _ PM) as (e & He & _).
  destruct (boot_maps_memory_null_included small_kernel_end ltac:(vm_compute; split; discriminate) (mkVmm 4096 4096) m s v' m' s' e) as (root & -> & _ & _ & _ & K & Hn);
    [apply PM|apply PM; exists 0; split_and!; [lia|reflexivity|vm_compute; reflexivity]|apply PM|exact He|lia|rewrite H; vm_compute; discriminate|exact Ei|exact Hleft|].
  rewrite H in K. destruct (km_identity _ _ _ _ K 4097) as (e1 & He1 & Ha1 & _); [unfold PAGE_SIZE; lia|].
  exists m, s, root, m', s', e1. split_and!; [reflexivity|exact Ei|exact He1|exact Ha1|exact Hn].
Defined.

End Boot.
