(* ===== verification/PageClone.v ===== *)
(** * Copying and freeing page maps

    Models [clone_page_map], [clone_page_map_copy_on_write], [free_page_map]
    and [clone_active_page_map] of
    src/kernel/src/memory/virtual_memory_manager.cpp.  The four nested loops of
    the source differ only in depth, so each is one recursion on the level of
    the table (3 is the page map level four, 0 a page table). *)

From S2P Require Import Prelude PhysMem Bitmap FrameAlloc Paging PageMap.
Import MemRoutines.

(** The lambda of [clone_page_map_copy_on_write]. *)
Definition make_pde_cow (pde : Z) : Z :=
  if Pde.flag pde ReadWrite then
    Pde.set_flag (Pde.set_flag pde ReadWrite false) Lensor_CopyOnWrite true
  else pde.

Section Copy.
Context {F : Type} `{!FrameAllocator F}.
(** What happens to an entry before it is stored in the copy. *)
Context (tr : Z -> Z).

(** A loop over the entries of a table; the flag is false once the function has
    returned a null pointer. *)
Fixpoint copy_loop (body : Z -> mem * F -> outcome (bool * (mem * F))) (count : nat) (i : Z)
    (st : mem * F) : outcome (bool * (mem * F)) :=
  match count with
  | O => Done (true, st)
  | S n => '(ok, st) ← body i st; if ok : bool then copy_loop body n (i + 1) st else Done (false, st)
  end.

(** The body of the innermost loop. *)
Definition copy_leaf (old new i : Z) (st : mem * F) : outcome (bool * (mem * F)) :=
  let '(m, fr) := st in
  let PDE := entry m old i in
  if Pde.flag PDE Present then Done (true, (set_entry m new i (tr PDE), fr))
  else Done (true, (m, fr)).

(** The body of the three outer loops; [child] makes the table one level
    down. *)
Definition copy_node (child : Z -> mem * F -> outcome (Z * (mem * F))) (old new i : Z)
    (st : mem * F) : outcome (bool * (mem * F)) :=
  let '(m, fr) := st in
  let PDE := entry m old i in
  if Pde.flag PDE Present then
    '(newTable, (m, fr)) ← child (Pde.address PDE) (m, fr);
    if newTable =? 0 then Done (false, (m, fr))
    else
      let PDE := entry m old i in
      Done (true, (set_entry m new i (tr (Pde.set_address PDE newTable)), fr))
  else Done (true, (m, fr)).

Fixpoint copy_table (level : nat) (old : Z) (st : mem * F) : outcome (Z * (mem * F)) :=
  let '(m, fr) := st in
  '(new, fr) ← fa_request fr;
  if new =? 0 then Done (0, (m, fr))
  else
    '(ok, st) ←
      copy_loop (match level with
                 | O => copy_leaf old new
                 | S l => copy_node (copy_table l) old new
                 end) 512 0 (memset new 0 PAGE_SIZE m, fr);
    Done (if ok : bool then new else 0, st).

End Copy.

Section Cloning.
Context {F : Type} `{!FrameAllocator F}.

Definition clone_page_map (oldPageTable : Z) (st : mem * F) : outcome (Z * (mem * F)) :=
  copy_table (fun PDE => PDE) 3 oldPageTable st.

Definition clone_page_map_copy_on_write (oldPageTable : Z) (st : mem * F) : outcome (Z * (mem * F)) :=
  copy_table make_pde_cow 3 oldPageTable st.

Definition clone_active_page_map (v : vmm) (st : mem * F) : outcome (Z * (vmm * (mem * F))) :=
  let '(active, v) := active_page_map v in
  '(new, st) ← clone_page_map active st;
  Done (new, (v, st)).

End Cloning.

(** ** What a copy looks like *)

(** The entries of two memories agree in one table. *)
Definition same_table (m m' : mem) (t : Z) : Prop :=
  forall j, 0 <= j < 512 -> entry m' t j = entry m t j.

Lemma same_table_bytes m m' t : same_table m m' t -> same_bytes m m' t.
Proof.
  intros H x Hx. unfold PAGE_SIZE in Hx. specialize (H ((x - t) / 8) ltac:(dlia)). unfold entry, entry_addr in H.
  replace x with (t + 8 * ((x - t) / 8) + (x - t) mod 8) by dlia. by apply (read_le_inj 8); [|dlia].
Qed.

(** Number of tables of the page map of the given level at [t]. *)
Fixpoint table_count (level : nat) (m : mem) (t : Z) : Z :=
  match level with
  | O => 1
  | S l =>
      1 + for_loop 512 0 (fun i acc =>
            let e := entry m t i in
            if Pde.flag e Present then acc + table_count l m (Pde.address e) else acc) 0
  end.

Section CopySpec.
Context {F : Type} `{!FrameAllocator F}.
Context (tr : Z -> Z).
Hypothesis tr_u64 : forall v, is_u64 v -> is_u64 (tr v).
Hypothesis tr_present : forall v, is_u64 v -> Pde.flag (tr v) Present = Pde.flag v Present.
Hypothesis tr_address : forall v, is_u64 v -> Pde.address (tr v) = Pde.address v.

(** The table at [new] in [m] is a copy of the one at [old] in [m0], made of the
    frames in [S]: entries that are not present are zero, the others are those
    of the old table, changed by [tr] and pointing to copies one level down.
    The slots from [n] on are still zero. *)
Definition slots_copied (child : Z -> Z -> gset Z -> Prop) (m0 : mem) (old : Z) (m : mem) (new : Z)
    (S : gset Z) (n : Z) : Prop :=
  exists Sf : Z -> gset Z,
    (forall j, 0 <= j < 512 ->
       let e := entry m0 old j in
       if (j <? n) && Pde.flag e Present then
         Sf j ⊆ S /\ (new ∉ Sf j) /\
         exists t, frame_address t /\ entry m new j = tr (Pde.set_address e t) /\ child (Pde.address e) t (Sf j)
       else entry m new j = 0 /\ Sf j = ∅) /\
    (forall i j, 0 <= i < 512 -> 0 <= j < 512 -> i ≠ j -> Sf i ## Sf j).

Definition leaves_copied (m0 : mem) (old : Z) (m : mem) (new n : Z) : Prop :=
  forall j, 0 <= j < 512 ->
    entry m new j = if (j <? n) && Pde.flag (entry m0 old j) Present then tr (entry m0 old j) else 0.

Fixpoint copied (level : nat) (m0 : mem) (old : Z) (m : mem) (new : Z) (S : gset Z) : Prop :=
  frame_address new /\ new ∈ S /\
  match level with
  | O => leaves_copied m0 old m new 512
  | S l => slots_copied (fun old' new' S' => copied l m0 old' m new' S') m0 old m new S 512
  end.

Lemma copied_new l m0 old m new S : copied l m0 old m new S -> frame_address new /\ new ∈ S.
Proof. destruct l; cbn; tauto. Qed.

(** A copy survives changes to frames it does not use. *)
Lemma copied_frame l m0 old m m' new S :
  (forall x, x ∈ S -> same_table m m' x) -> copied l m0 old m new S -> copied l m0 old m' new S.
Proof.
  revert old new S. induction l as [|l IH]; intros old new S Hs (Hf & Hin & Hc); cbn [copied].
  - split_and!; [done..|]. intros j Hj. rewrite (Hs new Hin) by done. by apply Hc.
  - split_and!; [done..|]. destruct Hc as (Sf & Hslot & Hdis). exists Sf. split; [|done].
    intros j Hj. specialize (Hslot j Hj). cbv zeta in *. rewrite (Hs new Hin) by done.
    destruct (_ && _); [|done].
    destruct Hslot as (Hsub & Hnin & t & Ht & He & Hc). split_and!; [done..|].
    exists t. split_and!; [done..|]. apply IH; [|done]. intros x Hx. apply Hs. set_solver.
Qed.

Lemma entry_copied_leaf e t :
  is_u64 e -> frame_address t ->
  Pde.flag (tr (Pde.set_address e t)) Present = Pde.flag e Present /\
  Pde.address (tr (Pde.set_address e t)) = t.
Proof.
  intros He Ht. rewrite tr_present, tr_address by auto with lensor.
  by rewrite flag_set_address, address_set_address.
Qed.

(** One step of the walk through a copy. *)
Lemma copied_step l m0 old m new S i :
  copied (Datatypes.S l) m0 old m new S -> 0 <= i < 512 ->
  let e := entry m0 old i in
  Pde.flag (entry m new i) Present = Pde.flag e Present /\
  (Pde.flag e Present = true -> exists S', S' ⊆ S /\ (new ∉ S') /\
     copied l m0 (Pde.address e) m (Pde.address (entry m new i)) S').
Proof.
  intros (_ & _ & Sf & Hslot & _) Hi. cbv zeta. specialize (Hslot i Hi). cbv zeta in Hslot.
  rewrite (proj2 (Z.ltb_lt i 512)), andb_true_l in Hslot by lia.
  destruct (Pde.flag (entry m0 old i) Present) eqn:E; [|by destruct Hslot as [-> _]].
  destruct Hslot as (Hsub & Hnin & t & Ht & -> & Hc).
  destruct (entry_copied_leaf (entry m0 old i) t (entry_u64 _ _ _) Ht) as [-> ->].
  split; [done|]. intros _. by exists (Sf i).
Qed.

Lemma copied_tables l m0 old m new S p :
  copied l m0 old m new S -> indices p -> (length p <= l)%nat ->
  (forall x, table_of m new p = Some x -> x ∈ S) /\
  (is_Some (table_of m new p) <-> is_Some (table_of m0 old p)).
Proof.
  revert l old new S. induction p as [|i p IH]; intros l old new S Hc Hp Hl; cbn [table_of].
  { split; [|by split; eauto]. intros x [= <-]. apply (copied_new _ _ _ _ _ _ Hc). }
  destruct l as [|l]; [cbn in Hl; lia|]. apply Forall_cons in Hp as [Hi Hp].
  destruct (copied_step _ _ _ _ _ _ i Hc Hi) as [-> Hch].
  destruct (Pde.flag (entry m0 old i) Present); [|split; [done|by split; intros [? ?]]].
  destruct (Hch eq_refl) as (S' & Hsub & _ & Hc').
  destruct (IH l _ _ _ Hc' Hp ltac:(cbn in Hl; lia)) as [H1 H2]. split; [|done].
  intros x Hx. by apply Hsub, H1.
Qed.

Lemma copied_leaf l m0 old m new S p j :
  copied l m0 old m new S -> indices p -> length p = l -> 0 <= j < 512 ->
  leaf m new p j = tr <$> leaf m0 old p j.
Proof.
  revert l old new S. unfold leaf.
  induction p as [|i p IH]; intros l old new S Hc Hp Hl Hj; cbn [table_of].
  - subst l. destruct Hc as (_ & _ & Hc). cbn [mbind option_bind]. rewrite (Hc j Hj).
    rewrite (proj2 (Z.ltb_lt j 512)), andb_true_l by lia.
    destruct (Pde.flag (entry m0 old j) Present) eqn:E; [|done].
    rewrite tr_present, E by apply entry_u64. done.
  - destruct l as [|l]; [done|]. apply Forall_cons in Hp as [Hi Hp].
    destruct (copied_step _ _ _ _ _ _ i Hc Hi) as [-> Hch].
    destruct (Pde.flag (entry m0 old i) Present); [|done].
    destruct (Hch eq_refl) as (S' & _ & _ & Hc'). apply (IH l _ _ S'); (done || by injection Hl).
Qed.

(** The tables of a copy form a tree. *)
Lemma copied_inj l m0 old m new S p q t :
  copied l m0 old m new S -> indices p -> indices q -> (length p <= l)%nat -> (length q <= l)%nat ->
  table_of m new p = Some t -> table_of m new q = Some t -> p = q.
Proof.
  revert p q old new S. induction l as [|l IH]; intros p q old new S Hc Hp Hq Lp Lq Tp Tq.
  { by destruct p, q; cbn in Lp, Lq; try lia. }
  assert (Hroot : forall i r, indices (i :: r) -> (length r <= l)%nat -> table_of m new (i :: r) = Some new -> False).
  { intros i r Hr Lr Tr. apply Forall_cons in Hr as [Hi Hr]. cbn [table_of] in Tr.
    destruct (copied_step _ _ _ _ _ _ i Hc Hi) as [E Hch]. rewrite E in Tr.
    destruct (Pde.flag (entry m0 old i) Present); [|done].
    destruct (Hch eq_refl) as (S' & _ & Hn & Hc').
    by apply Hn, (proj1 (copied_tables _ _ _ _ _ _ r Hc' Hr Lr)). }
  destruct p as [|i p], q as [|j q]; [done|..]; cbn [length] in *.
  { injection Tp as ->. by destruct (Hroot j q); [|lia|]. }
  { injection Tq as ->. by destruct (Hroot i p); [|lia|]. }
  clear Hroot. apply Forall_cons in Hp as [Hi Hp], Hq as [Hj Hq]. cbn [table_of] in Tp, Tq.
  destruct Hc as (_ & _ & Sf & Hslot & Hdis).
  assert (Hch : forall k r, 0 <= k < 512 -> indices r -> (length r <= l)%nat ->
    (if Pde.flag (entry m new k) Present then table_of m (Pde.address (entry m new k)) r else None) = Some t ->
    table_of m (Pde.address (entry m new k)) r = Some t /\ t ∈ Sf k /\
    copied l m0 (Pde.address (entry m0 old k)) m (Pde.address (entry m new k)) (Sf k)).
  { intros k r Hk Hr Lr. specialize (Hslot k Hk). cbv zeta in Hslot.
    rewrite (proj2 (Z.ltb_lt k 512)), andb_true_l in Hslot by lia.
    destruct (Pde.flag (entry m0 old k) Present) eqn:E; [|by destruct Hslot as [-> _]].
    destruct Hslot as (_ & _ & x & Hx & -> & Hc).
    destruct (entry_copied_leaf (entry m0 old k) x (entry_u64 _ _ _) Hx) as [-> ->]. rewrite E.
    intros T. split_and!; [done| |done]. by apply (proj1 (copied_tables _ _ _ _ _ _ r Hc Hr Lr)). }
  destruct (Hch i p Hi Hp ltac:(lia) Tp) as (Tp' & Ip & Cp).
  destruct (Hch j q Hj Hq ltac:(lia) Tq) as (Tq' & Iq & Cq).
  destruct (decide (i = j)) as [<-|Hne]; [|specialize (Hdis i j Hi Hj Hne); set_solver].
  f_equal. eapply (IH p q); (done || lia).
Qed.

(** ** The copying routines build such a copy *)

(** [m0] and [fr0] are the memory and the allocator before the copy begins; all
    the tables to copy are owned there. *)
Section Run.
Context (m0 : mem) (fr0 : F).
Hypothesis Hzero : fa_owned fr0 0.

Definition tables_owned (l : nat) (old : Z) : Prop :=
  forall p x, indices p -> (length p <= l)%nat -> table_of m0 old p = Some x ->
    fa_owned fr0 x /\ frame_address x.

(** A state in the middle of the copy, in which [S] are the frames taken since
    the state [(mA, frA)]. *)
Record taken_since (mA : mem) (frA : F) (m : mem) (fr : F) (S : gset Z) : Prop := {
  ts_inv : fa_inv fr;
  ts_owned : forall x, fa_owned fr x <-> fa_owned frA x \/ x ∈ S;
  ts_fresh : forall x, x ∈ S -> ~ fa_owned frA x;
  ts_frame : forall x, x ∈ S -> frame_address x;
  ts_same : forall x, frame_address x -> x ∉ S -> same_table mA m x;
  ts_avail : fa_avail fr = fa_avail frA - Z.of_nat (size S)
}.

(** A state from which the copy may proceed. *)
Record at_work (m : mem) (fr : F) : Prop := {
  aw_inv : fa_inv fr;
  aw_owned : forall x, fa_owned fr0 x -> fa_owned fr x;
  aw_same : forall x, frame_address x -> fa_owned fr0 x -> same_table m0 m x
}.

Definition child_spec (l : nat) (child : Z -> mem * F -> outcome (Z * (mem * F))) : Prop :=
  forall old m fr,
    at_work m fr -> tables_owned l old -> table_count l m0 old <= fa_avail fr ->
    exists new m' fr' S,
      child old (m, fr) = Done (new, (m', fr')) /\ new ≠ 0 /\
      taken_since m fr m' fr' S /\ copied l m0 old m' new S /\
      Z.of_nat (size S) = table_count l m0 old.

Lemma at_work_step mA frA m fr S :
  at_work mA frA -> taken_since mA frA m fr S -> at_work m fr.
Proof.
  intros [_ O E] T. split; [apply T|intros x Hx; apply T; auto|].
  intros x Hf Hx j Hj. rewrite (ts_same _ _ _ _ _ T x Hf); [by apply E| |done].
  intros Hin. by apply (ts_fresh _ _ _ _ _ T x Hin), O.
Qed.

Lemma taken_trans mA frA mB frB m fr S S' :
  taken_since mA frA mB frB S -> taken_since mB frB m fr S' -> taken_since mA frA m fr (S ∪ S') /\ S ## S'.
Proof.
  intros T T'. assert (Hd : S ## S').
  { intros x Hx Hx'. apply (ts_fresh _ _ _ _ _ T' x Hx'), T. by right. }
  split; [|done]. split.
  - apply T'.
  - intros x. rewrite (ts_owned _ _ _ _ _ T'), (ts_owned _ _ _ _ _ T). set_solver.
  - intros x [Hx|Hx]%elem_of_union; [by apply T|].
    intros Ho. apply (ts_fresh _ _ _ _ _ T' x Hx), T. by left.
  - intros x [Hx|Hx]%elem_of_union; [by apply T|by apply T'].
  - intros x Hf Hn j Hj. rewrite (ts_same _ _ _ _ _ T' x Hf), (ts_same _ _ _ _ _ T x Hf) by set_solver. done.
  - rewrite size_union, (ts_avail _ _ _ _ _ T'), (ts_avail _ _ _ _ _ T) by done. lia.
Qed.

(** Writing into one of the taken frames. *)
Lemma taken_write mA frA m fr S t i v :
  taken_since mA frA m fr S -> t ∈ S -> 0 <= i < 512 -> is_u64 v ->
  taken_since mA frA (set_entry m t i v) fr S.
Proof.
  intros T Ht Hi Hv. split; try apply T. intros x Hf Hn j Hj.
  rewrite entry_set_entry by (done || by apply T).
  rewrite decide_False by (intros [-> _]; done). by apply (ts_same _ _ _ _ _ T).
Qed.

Lemma written_table m t i v x :
  frame_address t -> frame_address x -> is_u64 v -> 0 <= i < 512 -> x ≠ t ->
  same_table m (set_entry m t i v) x.
Proof.
  intros Ht Hx Hv Hi Hne j Hj. rewrite entry_set_entry by done. by rewrite decide_False by tauto.
Qed.

Lemma copy_leaves new old count m fr i mA frA S :
  Z.of_nat count = 512 - i -> 0 <= i -> frame_address new -> new ∈ S ->
  same_table m0 m old -> frame_address old -> old ≠ new ->
  taken_since mA frA m fr S -> leaves_copied m0 old m new i ->
  exists m', copy_loop (copy_leaf tr old new) count i (m, fr) = Done (true, (m', fr)) /\
    taken_since mA frA m' fr S /\ leaves_copied m0 old m' new 512.
Proof.
  intros Hc Hi Hnew Hin Hold Hfo Hne. revert m i Hc Hi Hold.
  induction count as [|n IH]; intros m i Hc Hi Hold T L; cbn [copy_loop].
  { exists m. split_and!; [done..|]. by replace 512 with i by lia. }
  change (copy_leaf tr old new i (m, fr)) with
    (if Pde.flag (entry m old i) Present then Done (true, (set_entry m new i (tr (entry m old i)), fr))
     else Done (true, (m, fr))).
  rewrite (Hold i) by lia.
  destruct (Pde.flag (entry m0 old i) Present) eqn:E; cbn [mbind outcome_bind].
  - assert (Hu : is_u64 (tr (entry m0 old i))) by apply tr_u64, entry_u64.
    apply IH; [lia|lia| |by apply taken_write; (done || lia)|].
    + intros j Hj. rewrite entry_set_entry by (done || lia). rewrite decide_False by tauto. by apply Hold.
    + intros j Hj. rewrite entry_set_entry by (done || lia). case_decide as D.
      * destruct D as [_ ->]. rewrite (proj2 (Z.ltb_lt i (i + 1))) by lia. by rewrite E.
      * rewrite (L j Hj). assert (j ≠ i) by tauto.
        by replace (j <? i + 1) with (j <? i) by (zcases; lia).
  - apply IH; [lia|lia|done|done|]. intros j Hj. rewrite (L j Hj).
    destruct (decide (j = i)) as [->|]; [by rewrite E, !andb_false_r|].
    by replace (j <? i + 1) with (j <? i) by (zcases; lia).
Qed.

(** Tables below the entries [i], [i + 1], ... of a table. *)
Definition child_count (l : nat) (old : Z) (count : nat) (i acc : Z) : Z :=
  for_loop count i (fun i acc =>
    let e := entry m0 old i in
    if Pde.flag e Present then acc + table_count l m0 (Pde.address e) else acc) acc.

Lemma child_count_acc l old count i acc :
  child_count l old count i acc = acc + child_count l old count i 0.
Proof.
  unfold child_count. revert i acc. induction count as [|n IH]; intros i acc; cbn [for_loop]; [lia|].
  rewrite IH. symmetry. rewrite IH. cbv zeta. destruct (Pde.flag _ _); lia.
Qed.

Lemma table_count_node l old : table_count (S l) m0 old = 1 + child_count l old 512 0 0.
Proof. cbn [table_count]. unfold child_count. reflexivity. Qed.

Lemma child_count_nonneg l old count i : (forall t, 0 <= table_count l m0 t) -> 0 <= child_count l old count i 0.
Proof.
  intros Hl. revert i. induction count as [|n IH]; intros i; [done|].
  unfold child_count. cbn [for_loop]. fold (child_count l old n (i + 1)
    (if Pde.flag (entry m0 old i) Present then 0 + table_count l m0 (Pde.address (entry m0 old i)) else 0)).
  rewrite child_count_acc. pose proof (IH (i + 1)). pose proof (Hl (Pde.address (entry m0 old i))).
  destruct (Pde.flag _ _); lia.
Qed.

Lemma table_count_pos l old : 1 <= table_count l m0 old.
Proof.
  revert old. induction l as [|l IH]; intros old; [done|]. rewrite table_count_node.
  assert (forall t, 0 <= table_count l m0 t) as Hl by (intros t; specialize (IH t); lia).
  pose proof (child_count_nonneg l old 512 0 Hl). lia.
Qed.

(** One present slot: the copy one level down is made and hung into [new]. *)
Lemma slots_step l old new i mA frA m fr S m1 fr1 S1 newT :
  0 <= i < 512 -> new ∈ S -> frame_address new ->
  taken_since mA frA m fr S ->
  slots_copied (fun o n => copied l m0 o m n) m0 old m new S i ->
  Pde.flag (entry m0 old i) Present = true ->
  taken_since m fr m1 fr1 S1 -> copied l m0 (Pde.address (entry m0 old i)) m1 newT S1 ->
  let m2 := set_entry m1 new i (tr (Pde.set_address (entry m0 old i) newT)) in
  taken_since mA frA m2 fr1 (S ∪ S1) /\
  slots_copied (fun o n => copied l m0 o m2 n) m0 old m2 new (S ∪ S1) (i + 1).
Proof.
  intros Hi Hin Hnew T (Sf & Hslot & Hdis) He T1 Hc m2.
  destruct (copied_new _ _ _ _ _ _ Hc) as [HfT _].
  assert (Hu : is_u64 (tr (Pde.set_address (entry m0 old i) newT)))
    by (apply tr_u64, set_address_u64, entry_u64).
  destruct (taken_trans _ _ _ _ _ _ _ _ T T1) as [T2 Hd].
  assert (Hn1 : new ∉ S1) by set_solver.
  split; [by apply taken_write; [|set_solver|..]|].
  assert (Hkeep : forall x, x ∈ S ∪ S1 -> x ≠ new -> same_table m1 m2 x).
  { intros x Hx Hne. by apply written_table; [| |done|..]; [|apply T2| |]. }
  assert (HSf : forall j, 0 <= j < 512 -> Sf j ⊆ S).
  { intros j Hj. specialize (Hslot j Hj). cbv zeta in Hslot.
    destruct (_ && _); [by destruct Hslot|]. destruct Hslot as [_ ->]. set_solver. }
  exists (fun j => if decide (j = i) then S1 else Sf j). split.
  - intros j Hj. specialize (Hslot j Hj). cbv zeta in Hslot |- *.
    unfold m2 at 1 3. rewrite entry_set_entry by (done || lia).
    destruct (decide (j = i)) as [->|Hne].
    + rewrite (proj2 (Z.ltb_lt i (i + 1))), He by lia. cbn [andb].
      split_and!; [set_solver|done|]. exists newT. rewrite decide_True by done.
      split_and!; [done..|]. eapply copied_frame; [|exact Hc].
      intros x Hx. apply Hkeep; [set_solver|]. by intros ->.
    + rewrite decide_False by tauto.
      rewrite (ts_same _ _ _ _ _ T1 new Hnew Hn1 j Hj).
      replace (j <? i + 1) with (j <? i) by (zcases; lia).
      destruct (_ && _); [|done].
      destruct Hslot as (Hsub & Hnin & t & Ht & Hent & Hct). split_and!; [set_solver|done|].
      exists t. split_and!; [done..|]. eapply copied_frame; [|exact Hct].
      intros x Hx. intros k Hk. rewrite Hkeep by (done || set_solver).
      apply (ts_same _ _ _ _ _ T1); [apply T; set_solver|set_solver|done].
  - intros a b Ha Hb Hne. pose proof (HSf a Ha). pose proof (HSf b Hb).
    destruct (decide (a = i)), (decide (b = i)); [lia|set_solver..|by apply Hdis].
Qed.

Lemma slots_skip l old new i m S :
  0 <= i < 512 -> Pde.flag (entry m0 old i) Present = false ->
  slots_copied (fun o n => copied l m0 o m n) m0 old m new S i ->
  slots_copied (fun o n => copied l m0 o m n) m0 old m new S (i + 1).
Proof.
  intros Hi He (Sf & Hslot & Hdis). exists Sf. split; [|done]. intros j Hj. specialize (Hslot j Hj).
  cbv zeta in *. destruct (decide (j = i)) as [->|].
  - rewrite He, andb_false_r in *. done.
  - by replace (j <? i + 1) with (j <? i) by (zcases; lia).
Qed.

Lemma tables_owned_child l old i :
  tables_owned (S l) old -> 0 <= i < 512 -> Pde.flag (entry m0 old i) Present = true ->
  tables_owned l (Pde.address (entry m0 old i)).
Proof.
  intros Ho Hi He p x Hp Hl Hx. apply (Ho (i :: p)); [by constructor|cbn; lia|].
  cbn [table_of]. by rewrite He.
Qed.

Lemma copy_nodes l child new old count m fr i mA frA S :
  child_spec l child -> tables_owned (Datatypes.S l) old ->
  at_work mA frA -> fa_owned frA old ->
  Z.of_nat count = 512 - i -> 0 <= i -> frame_address new -> new ∈ S ->
  taken_since mA frA m fr S -> slots_copied (fun o n => copied l m0 o m n) m0 old m new S i ->
  child_count l old count i 0 <= fa_avail fr ->
  exists m' fr' S',
    copy_loop (copy_node tr child old new) count i (m, fr) = Done (true, (m', fr')) /\
    taken_since mA frA m' fr' S' /\ new ∈ S' /\
    Z.of_nat (size S') = Z.of_nat (size S) + child_count l old count i 0 /\
    slots_copied (fun o n => copied l m0 o m' n) m0 old m' new S' 512.
Proof.
  intros Hch Hto Haw Hoo Hc Hi Hnew. revert m fr i S Hc Hi.
  destruct (Hto [] old) as [Ho0 Hfo]; [constructor|cbn; lia|done|].
  assert (Hpos : forall t, 0 <= table_count l m0 t) by (intros t; pose proof (table_count_pos l t); lia).
  induction count as [|n IH]; intros m fr i S Hc Hi Hin T Hs Hav; cbn [copy_loop].
  { exists m, fr, S. unfold child_count. cbn [for_loop]. split_and!; [done..|lia|]. by replace 512 with i by lia. }
  assert (Hw : at_work m fr) by by eapply at_work_step.
  assert (Hold : entry m old i = entry m0 old i) by (apply (aw_same _ _ Hw); (done || lia)).
  unfold child_count in Hav |- *. cbn [for_loop] in Hav |- *. cbv zeta in Hav |- *.
  fold (child_count l old n (i + 1)
    (if Pde.flag (entry m0 old i) Present then 0 + table_count l m0 (Pde.address (entry m0 old i)) else 0))
    in Hav |- *.
  rewrite child_count_acc in Hav |- *.
  change (copy_node tr child old new i (m, fr)) with
    (if Pde.flag (entry m old i) Present then
       '(newTable, (m, fr)) ← child (Pde.address (entry m old i)) (m, fr);
       if newTable =? 0 then Done (false, (m, fr))
       else Done (true, (set_entry m new i (tr (Pde.set_address (entry m old i) newTable)), fr))
     else Done (true, (m, fr))).
  rewrite Hold. pose proof (child_count_nonneg l old n (i + 1) Hpos).
  destruct (Pde.flag (entry m0 old i) Present) eqn:E; cbn [mbind outcome_bind].
  - destruct (Hch (Pde.address (entry m0 old i)) m fr Hw) as (newT & m1 & fr1 & S1 & -> & Hn0 & T1 & Hc1 & Hsz);
      [apply tables_owned_child; (done || lia)|lia|]. cbn [mbind outcome_bind].
    rewrite (proj2 (Z.eqb_neq newT 0) Hn0).
    assert (Hw1 : at_work m1 fr1) by by eapply at_work_step.
    assert (entry m1 old i = entry m0 old i) as -> by (apply (aw_same _ _ Hw1); (done || lia)).
    cbn [mbind outcome_bind].
    destruct (slots_step l old new i mA frA m fr S m1 fr1 S1 newT) as [T2 Hs2]; try done; [lia|].
    destruct (taken_trans _ _ _ _ _ _ _ _ T T1) as [_ Hd].
    destruct (IH _ fr1 (i + 1) (S ∪ S1) ltac:(lia) ltac:(lia) ltac:(set_solver) T2 Hs2)
      as (m' & fr' & S' & -> & T' & Hin' & Hsz' & Hs').
    { rewrite (ts_avail _ _ _ _ _ T1). lia. }
    exists m', fr', S'. split_and!; [done..| |done]. rewrite Hsz', size_union by done. lia.
  - destruct (IH m fr (i + 1) S ltac:(lia) ltac:(lia) Hin T) as (m' & fr' & S' & -> & T' & Hin' & Hsz' & Hs').
    + apply slots_skip; (done || lia).
    + lia.
    + exists m', fr', S'. split_and!; [done..|lia|done].
Qed.

(** A fresh zeroed frame. *)
Lemma take_zeroed m fr :
  at_work m fr -> 1 <= fa_avail fr ->
  exists new fr1, fa_request fr = Done (new, fr1) /\ new ≠ 0 /\ frame_address new /\
    ~ fa_owned fr new /\ (forall j, 0 <= j < 512 -> entry (memset new 0 PAGE_SIZE m) new j = 0) /\
    taken_since m fr (memset new 0 PAGE_SIZE m) fr1 {[new]}.
Proof.
  intros Hw Hav.
  destruct (fa_request_some fr (aw_inv _ _ Hw) ltac:(lia)) as (new & fr1 & E & Hi & Hm & Hr & Hno & Ho & Ha).
  assert (Hf : frame_address new) by done.
  exists new, fr1. split_and!; [done| |done|done| |].
  - intros ->. apply Hno. by apply (aw_owned _ _ Hw).
  - intros j Hj. rewrite entry_zeroed by done. by rewrite decide_True.
  - split; [done| | | | |].
    + intros x. rewrite Ho. set_solver.
    + set_solver.
    + intros x ->%elem_of_singleton. done.
    + intros x Hx Hn j Hj. rewrite entry_zeroed by done. rewrite decide_False by set_solver. done.
    + rewrite size_singleton, Ha. lia.
Qed.

Lemma copy_table_spec l : child_spec l (copy_table tr l).
Proof.
  induction l as [|l IH]; intros old m fr Hw Hto Hav;
    (destruct (Hto [] old) as [Ho0 Hfo]; [constructor|cbn; lia|done|]);
    pose proof (aw_owned _ _ Hw old Ho0) as Hoo.
  - cbn [table_count] in Hav |- *.
    destruct (take_zeroed m fr Hw Hav) as (new & fr1 & E & Hn0 & Hf & Hno & Hz & T).
    assert (old ≠ new) by congruence.
    destruct (copy_leaves new old 512 (memset new 0 PAGE_SIZE m) fr1 0 m fr {[new]} ltac:(lia) ltac:(lia) Hf (elem_of_singleton_2 _ _ eq_refl))
      as (m' & Hl & T' & L'); [|exact Hfo|done|exact T| |].
    { eapply aw_same; [eapply at_work_step; eassumption|done..]. }
    { intros j Hj. rewrite Hz by done. by rewrite (proj2 (Z.ltb_ge j 0)) by lia. }
    exists new, m', fr1, {[new]}.
    split; [|split; [exact Hn0|split; [exact T'|split; [|by rewrite size_singleton]]]].
    + cbn [copy_table]. rewrite E. cbn [mbind outcome_bind]. rewrite (proj2 (Z.eqb_neq new 0) Hn0).
      rewrite Hl. cbn [mbind outcome_bind]. exact eq_refl.
    + split; [exact Hf|split; [by apply elem_of_singleton|exact L']].
  - rewrite table_count_node in Hav |- *.
    assert (Hpos : 0 <= child_count l old 512 0 0)
      by (apply child_count_nonneg; intros t; pose proof (table_count_pos l t); lia).
    destruct (take_zeroed m fr Hw ltac:(lia)) as (new & fr1 & E & Hn0 & Hf & Hno & Hz & T).
    destruct (copy_nodes l (copy_table tr l) new old 512 (memset new 0 PAGE_SIZE m) fr1 0 m fr {[new]} IH Hto Hw Hoo
      ltac:(lia) ltac:(lia) Hf (elem_of_singleton_2 _ _ eq_refl) T) as (m' & fr' & S' & Hl & T' & Hin & Hsz & Hs).
    { exists (fun _ => ∅). split; [|intros; apply disjoint_empty_l]. intros j Hj. cbv zeta.
      rewrite (proj2 (Z.ltb_ge j 0)) by lia. cbn [andb]. by split; [apply Hz|]. }
    { rewrite (ts_avail _ _ _ _ _ T), size_singleton. lia. }
    exists new, m', fr', S'.
    split; [|split; [exact Hn0|split; [exact T'|split; [|rewrite Hsz, size_singleton; lia]]]].
    + cbn [copy_table]. rewrite E. cbn [mbind outcome_bind]. rewrite (proj2 (Z.eqb_neq new 0) Hn0).
      rewrite Hl. cbn [mbind outcome_bind]. exact eq_refl.
    + split; [exact Hf|split; [exact Hin|exact Hs]].
Qed.

End Run.

End CopySpec.

(** ** Clones *)

Lemma make_pde_cow_u64 v : is_u64 v -> is_u64 (make_pde_cow v).
Proof. intros Hv. unfold make_pde_cow. destruct (Pde.flag v ReadWrite); auto with lensor. Qed.

Lemma make_pde_cow_address v : is_u64 v -> Pde.address (make_pde_cow v) = Pde.address v.
Proof. intros Hv. unfold make_pde_cow. destruct (Pde.flag v ReadWrite); [|done]. by rewrite !address_set_flag by auto with lensor. Qed.

Lemma make_pde_cow_flag v f :
  is_u64 v ->
  Pde.flag (make_pde_cow v) f =
  if decide (f = ReadWrite) then false
  else if decide (f = Lensor_CopyOnWrite) then Pde.flag v ReadWrite || Pde.flag v f
  else Pde.flag v f.
Proof.
  intros Hv. unfold make_pde_cow. destruct (Pde.flag v ReadWrite) eqn:E.
  - rewrite !flag_set_flag by auto with lensor. by destruct f; repeat case_decide; simplify_eq.
  - by repeat case_decide; subst.
Qed.

Section CloneSpec.
Context {F : Type} `{!FrameAllocator F}.

(** What every copy guarantees. *)
Record clone_result (tr : Z -> Z) (m m' : mem) (fr fr' : F) (old new : Z) : Prop := {
  cr_nonnull : new ≠ 0;
  cr_inv : fa_inv fr';
  cr_new : tree_wf m' fr' new;
  cr_old : tree_wf m' fr' old;
  cr_fresh : forall p x, indices p -> (length p <= 3)%nat -> table_of m' new p = Some x -> ~ fa_owned fr x;
  cr_leaves : forall p j, indices p -> length p = 3%nat -> 0 <= j < 512 ->
    leaf m' new p j = tr <$> leaf m old p j /\ leaf m' old p j = leaf m old p j;
  cr_avail : fa_avail fr' = fa_avail fr - table_count 3 m old;
  cr_data : forall f, frame_address f -> fa_owned fr f -> data_frame m' fr' new f /\ same_bytes m m' f
}.

Lemma copy_page_map_spec tr old m fr :
  (forall v, is_u64 v -> is_u64 (tr v)) ->
  (forall v, is_u64 v -> Pde.flag (tr v) Present = Pde.flag v Present) ->
  (forall v, is_u64 v -> Pde.address (tr v) = Pde.address v) ->
  fa_inv fr -> tree_wf m fr old -> fa_owned fr 0 -> table_count 3 m old <= fa_avail fr ->
  exists new m' fr', copy_table tr 3 old (m, fr) = Done (new, (m', fr')) /\
    clone_result tr m m' fr fr' old new.
Proof.
  intros Hu Hp Ha Hinv Hwf Hz Hav.
  destruct (copy_table_spec tr Hu Hp Ha m fr Hz 3 old m fr) as (new & m' & fr' & S & E & Hn0 & T & Hc & Hsz);
    [by split| |done|].
  { intros p x Hip Hl Hx. split; [by apply (tree_owned _ _ _ Hwf p)|by eapply table_of_frame]. }
  assert (Hsame : forall p x, indices p -> (length p <= 3)%nat -> table_of m old p = Some x -> same_table m m' x).
  { intros p x Hip Hl Hx. pose proof (tree_owned _ _ _ Hwf p x Hip Hl Hx).
    apply (ts_same _ _ _ _ _ T); [by eapply table_of_frame|]. intros Hin. by apply (ts_fresh _ _ _ _ _ T x Hin). }
  assert (Hold : forall q, indices q -> (length q <= 3)%nat -> table_of m' old q = table_of m old q).
  { apply table_of_ext. intros p x i Hip Hl Hx Hi. rewrite (Hsame p x Hip ltac:(lia) Hx i Hi). by split. }
  exists new, m', fr'. split; [done|]. split; [done|apply T| | | | | |].
  - split; [by apply (copied_new _ _ _ _ _ _ _ Hc)| |].
    + intros p x Hip Hl Hx. apply T. right.
      by apply (proj1 (copied_tables tr Hp Ha 3 m old m' new S p Hc Hip Hl)).
    + intros p q x Hip Hiq Lp Lq. by eapply copied_inj.
  - split; [apply Hwf| |].
    + intros p x Hip Hl. rewrite Hold by done. intros Hx. apply T. left. by apply (tree_owned _ _ _ Hwf p).
    + intros p q x Hip Hiq Lp Lq. rewrite !Hold by done. by apply (tree_inj _ _ _ Hwf).
  - intros p x Hip Hl Hx. apply (ts_fresh _ _ _ _ _ T).
    by apply (proj1 (copied_tables tr Hp Ha 3 m old m' new S p Hc Hip Hl)).
  - intros p j Hip Hl Hj. split; [by eapply copied_leaf|]. unfold leaf. rewrite Hold by (done || lia).
    destruct (table_of m old p) as [x|] eqn:Hx; [|done]. cbn [mbind option_bind].
    by rewrite (Hsame p x Hip ltac:(lia) Hx j Hj).
  - rewrite (ts_avail _ _ _ _ _ T). lia.
  - intros f Hf Ho. assert (Hs : f ∉ S) by (intros Hin; by apply (ts_fresh _ _ _ _ _ T f Hin)).
    split; [split; [done|by apply T; left|]|by apply same_table_bytes, (ts_same _ _ _ _ _ T)].
    intros p Hip Hl Hx. by apply Hs, (proj1 (copied_tables tr Hp Ha 3 m old m' new S p Hc Hip Hl)).
Qed.

Lemma clone_translate tr m m' fr fr' old new va :
  clone_result tr m m' fr fr' old new -> 0 <= va ->
  translate m' new va = tr <$> translate m old va /\ translate m' old va = translate m old va.
Proof.
  intros R Hva. destruct (indexer_range va Hva) as (_ & _ & _ & Hj).
  apply (cr_leaves _ _ _ _ _ _ _ R); [by apply upper_path_indices|done|done].
Qed.

(** C4: with one free frame per table of the old map, [clone_page_map] returns a
    page map made of frames nobody owned before, in which every virtual address
    has the very entry it has in the old map; the old map is left intact, and
    exactly as many frames are used as the old map has tables. *)
Theorem clone_page_map_is_exact old m fr :
  fa_inv fr -> tree_wf m fr old -> fa_owned fr 0 -> table_count 3 m old <= fa_avail fr ->
  exists new m' fr',
    clone_page_map old (m, fr) = Done (new, (m', fr')) /\ new ≠ 0 /\
    tree_wf m' fr' new /\ tree_wf m' fr' old /\
    (forall p x, indices p -> (length p <= 3)%nat -> table_of m' new p = Some x -> ~ fa_owned fr x) /\
    (forall va, 0 <= va ->
       translate m' new va = translate m old va /\ translate m' old va = translate m old va) /\
    fa_avail fr' = fa_avail fr - table_count 3 m old.
Proof.
  intros Hinv Hwf Hz Hav.
  destruct (copy_page_map_spec (fun v => v) old m fr) as (new & m' & fr' & E & R); try done.
  exists new, m', fr'. split; [exact E|]. split_and!; [apply R..| |apply R].
  intros va Hva. destruct (clone_translate _ _ _ _ _ _ _ va R Hva) as [-> ->].
  by destruct (translate m old va).
Qed.

(** In the page map [clone_page_map_copy_on_write] returns, no page is
    writable; a page carries the copy-on-write mark when it was writable in the
    old map, keeps its frame and all its other flags, and the old map is left
    intact (its pages stay writable). *)
Theorem clone_copy_on_write_has_no_writable_page old m fr :
  fa_inv fr -> tree_wf m fr old -> fa_owned fr 0 -> table_count 3 m old <= fa_avail fr ->
  exists new m' fr',
    clone_page_map_copy_on_write old (m, fr) = Done (new, (m', fr')) /\ new ≠ 0 /\
    tree_wf m' fr' new /\ tree_wf m' fr' old /\
    (forall va, 0 <= va -> translate m' old va = translate m old va) /\
    (forall va, 0 <= va ->
       match translate m old va, translate m' new va with
       | None, None => True
       | Some e, Some e' =>
           Pde.address e' = Pde.address e /\ Pde.flag e' ReadWrite = false /\
           Pde.flag e' Lensor_CopyOnWrite = Pde.flag e ReadWrite || Pde.flag e Lensor_CopyOnWrite /\
           forall f, f ≠ ReadWrite -> f ≠ Lensor_CopyOnWrite -> Pde.flag e' f = Pde.flag e f
       | _, _ => False
       end).
Proof.
  intros Hinv Hwf Hz Hav.
  destruct (copy_page_map_spec make_pde_cow old m fr) as (new & m' & fr' & E & R); try done.
  { apply make_pde_cow_u64. }
  { intros v Hv. by rewrite make_pde_cow_flag. }
  { apply make_pde_cow_address. }
  exists new, m', fr'. split; [exact E|]. split_and!; [apply R..| |].
  { intros va Hva. apply (clone_translate _ _ _ _ _ _ _ va R Hva). }
  intros va Hva. destruct (clone_translate _ _ _ _ _ _ _ va R Hva) as [-> _].
  unfold translate, leaf. destruct (table_of m old (upper_path va)) as [t|]; [|done]. cbn [mbind option_bind].
  set (e := entry m t (PageIndex (indexer va))). assert (He : is_u64 e) by apply entry_u64.
  destruct (Pde.flag e Present); [|done]. cbn [fmap option_fmap option_map].
  split_and!; [by apply make_pde_cow_address|by rewrite make_pde_cow_flag..|].
  intros f H1 H2. rewrite make_pde_cow_flag by done. by rewrite !decide_False.
Qed.

End CloneSpec.

(** ** Freeing a page map *)

(** What [free_page_map] needs of the allocator beyond [FrameAllocator]. *)
Class FrameReclaimer (F : Type) `{!FrameAllocator F} := {
  fa_free : Z -> F -> F;
  fa_total_ram : F -> Z;
  fa_free_sound : forall s a, fa_inv s -> fa_owned s a ->
    fa_inv (fa_free a s) /\ fa_total_ram (fa_free a s) = fa_total_ram s /\
    forall b, fa_owned (fa_free a s) b <-> fa_owned s b /\ b ≠ a
}.

Lemma free_page_sound s a :
  pmm_wf s -> frame_locked s a ->
  pmm_wf (free_page a s) /\ total_ram (free_page a s) = total_ram s /\
  forall b, frame_locked (free_page a s) b <-> frame_locked s b /\ b ≠ a.
Proof.
  intros Hwf (p & Hp & -> & Hl). assert (Ha : 0 <= p * PAGE_SIZE) by (unfold PAGE_SIZE; lia).
  assert (Hd : p * PAGE_SIZE / PAGE_SIZE = p) by by apply Z.div_mul.
  pose proof (free_page_bits _ s Hwf Ha) as Hb. rewrite Hd in Hb. unfold free_page.
  split_and!.
  - apply free_page_wf; [done..|]. by rewrite Hd.
  - unfold total_ram. by destruct (free_page_shape (p * PAGE_SIZE) s) as (_ & _ & -> & _).
  - intros b. unfold frame_locked. split.
    + intros (q & Hq & -> & Hlq). rewrite Hb in Hlq by done.
      destruct (Z.eqb_spec p q) as [->|Hne]; cbn [andb] in Hlq.
      * rewrite (proj2 (Z.ltb_lt _ _) (locked_in_range _ _ Hl)) in Hlq. done.
      * split; [eauto|]. unfold PAGE_SIZE. lia.
    + intros [(q & Hq & -> & Hlq) Hne]. exists q. split_and!; [done..|]. rewrite Hb by done.
      by destruct (Z.eqb_spec p q) as [->|].
Qed.

#[export] Instance pmm_frame_reclaimer : FrameReclaimer pmm := {
  fa_free := free_page;
  fa_total_ram := total_ram;
  fa_free_sound := free_page_sound
}.

Section Freeing.
Context {F : Type} `{!FrameAllocator F} `{!FrameReclaimer F}.

(** The addresses [free_page_map] passes over. *)
Definition table_skipped (s : F) (t : Z) : bool :=
  (t =? 0x000ffffffffff000) || (fa_total_ram s <? t) || negb (t mod PAGE_SIZE =? 0).

(** The body of its loops, for entry [i]; [child] frees what hangs there. *)
Definition free_slot (child : Z -> F -> F) (m : mem) (t i : Z) (s : F) : F :=
  let PDE := entry m t i in
  if negb (Pde.flag PDE Present) then s
  else
    let next := Pde.address PDE in
    if table_skipped s next then s else child next s.

Fixpoint free_table (level : nat) (m : mem) (t : Z) (s : F) : F :=
  match level with
  | O => fa_free t s
  | S l => fa_free t (for_loop 512 0 (free_slot (free_table l m) m t) s)
  end.

(** [m] is the memory, which freeing only reads. *)
Definition free_page_map (pageTable : Z) (m : mem) (v : vmm) (s : F) : vmm * F :=
  if pageTable =? 0 then (v, s)
  else
    let '(active, v) := active_page_map v in
    if pageTable =? active then (v, s) else (v, free_table 3 m pageTable s).

(** The tables of a page map, by the path that leads to them. *)
Definition table_in (l : nat) (m : mem) (t b : Z) : Prop :=
  exists p, indices p /\ (length p <= l)%nat /\ table_of m t p = Some b.

Definition slot_tables (l : nat) (m : mem) (t j b : Z) : Prop :=
  Pde.flag (entry m t j) Present = true /\ table_in l m (Pde.address (entry m t j)) b.

(** The frames in [P], all owned, have been given back. *)
Definition gave_back (s s' : F) (P : Z -> Prop) : Prop :=
  fa_inv s' /\ fa_total_ram s' = fa_total_ram s /\ forall b, fa_owned s' b <-> fa_owned s b /\ ~ P b.

Definition tree_inj_from (l : nat) (m : mem) (t : Z) : Prop :=
  forall p q x, indices p -> indices q -> (length p <= l)%nat -> (length q <= l)%nat ->
    table_of m t p = Some x -> table_of m t q = Some x -> p = q.

Definition free_spec (l : nat) (m : mem) : Prop :=
  forall t s, fa_inv s -> tree_inj_from l m t ->
    (forall b, table_in l m t b -> fa_owned s b /\ table_skipped s b = false) ->
    gave_back s (free_table l m t s) (table_in l m t).

Lemma table_in_slots l m t b :
  table_in (S l) m t b <-> b = t \/ exists j, 0 <= j < 512 /\ slot_tables l m t j b.
Proof.
  split.
  - intros ([|j p] & Hp & Hl & Hb); cbn [table_of] in Hb; [left; by injection Hb|right].
    apply Forall_cons in Hp as [Hj Hp]. exists j. split; [done|].
    unfold slot_tables. destruct (Pde.flag (entry m t j) Present); [|done].
    split; [done|]. exists p. split_and!; [done|cbn in Hl; lia|done].
  - intros [ -> | (j & Hj & He & p & Hp & Hl & Hb)].
    + exists []. split_and!; [constructor|cbn; lia|done].
    + exists (j :: p). split_and!; [by constructor|cbn; lia|]. cbn [table_of]. by rewrite He.
Qed.

Lemma slot_tables_disjoint l m t i j b :
  tree_inj_from (S l) m t -> 0 <= i < 512 -> 0 <= j < 512 -> i ≠ j ->
  slot_tables l m t i b -> ~ slot_tables l m t j b.
Proof.
  intros Hinj Hi Hj Hne (Ei & p & Hp & Lp & Tp) (Ej & q & Hq & Lq & Tq).
  assert (E : i :: p = j :: q); [|by injection E].
  apply (Hinj (i :: p) (j :: q) b); [by constructor|by constructor|cbn; lia|cbn; lia|..];
    cbn [table_of]; by rewrite ?Ei, ?Ej.
Qed.

Lemma slot_inj l m t j :
  tree_inj_from (S l) m t -> 0 <= j < 512 -> Pde.flag (entry m t j) Present = true ->
  tree_inj_from l m (Pde.address (entry m t j)).
Proof.
  intros Hinj Hj E p q x Hp Hq Lp Lq Tp Tq. assert (H : j :: p = j :: q); [|by injection H].
  apply (Hinj _ _ x); [by constructor|by constructor|cbn; lia|cbn; lia|..]; cbn [table_of]; by rewrite E.
Qed.

Lemma free_slots l m t count i s :
  free_spec l m -> tree_inj_from (S l) m t -> 0 <= i -> i + Z.of_nat count <= 512 -> fa_inv s ->
  (forall j b, i <= j < 512 -> slot_tables l m t j b -> fa_owned s b /\ table_skipped s b = false) ->
  gave_back s (for_loop count i (free_slot (free_table l m) m t) s)
    (fun b => exists j, i <= j < i + Z.of_nat count /\ slot_tables l m t j b).
Proof.
  intros IHl Hinj. revert i s. induction count as [|n IH]; intros i s Hi Hc Hinv Hs; cbn [for_loop].
  { split_and!; [done..|]. intros b. split; [|tauto]. intros Hb. split; [done|]. intros (j & Hj & _). lia. }
  assert (H1 : gave_back s (free_slot (free_table l m) m t i s) (slot_tables l m t i)).
  { unfold free_slot. cbv zeta. destruct (Pde.flag (entry m t i) Present) eqn:E; cbn [negb].
    - assert (Hch : forall b, table_in l m (Pde.address (entry m t i)) b -> fa_owned s b /\ table_skipped s b = false)
        by (intros b Hb; apply (Hs i b); [lia|done]).
      destruct (Hch (Pde.address (entry m t i))) as [_ ->]; [exists []; split_and!; [constructor|cbn; lia|done]|].
      destruct (IHl (Pde.address (entry m t i)) s Hinv) as (G1 & G2 & G3);
        [by apply slot_inj; [|lia|]|done|].
      split_and!; [done..|]. intros b. rewrite G3. unfold slot_tables. rewrite E. tauto.
    - split_and!; [done..|]. intros b. unfold slot_tables. rewrite E. split; [|tauto]. intros Hb. split; [done|].
      by intros [? _]. }
  destruct H1 as (G1 & G2 & G3). set (s1 := free_slot (free_table l m) m t i s) in *.
  destruct (IH (i + 1) s1) as (H1 & H2 & H3); [lia|lia|done| |].
  { intros j b Hj Hb. destruct (Hs j b ltac:(lia) Hb) as [Ho Hk].
    unfold table_skipped in *. rewrite G2. split; [|done]. apply G3. split; [done|].
    intros Hbi. revert Hb. apply (slot_tables_disjoint l m t i j); (done || lia). }
  split_and!; [done|congruence|]. intros b. rewrite H3, G3. split.
  - intros [[Ho Hn] Hr]. split; [done|]. intros (j & Hj & Hb).
    destruct (decide (j = i)) as [->|]; [done|]. apply Hr. exists j. split; [lia|done].
  - intros [Ho Hn]. split_and!; [done| |].
    + intros Hb. apply Hn. exists i. split; [lia|done].
    + intros (j & Hj & Hb). apply Hn. exists j. split; [lia|done].
Qed.

Lemma free_table_spec l m : free_spec l m.
Proof.
  induction l as [|l IH]; intros t s Hinv Hinj Hs; cbn [free_table].
  - assert (Ht : forall b, table_in 0 m t b <-> b = t).
    { intros b. split; [|intros ->; exists []; split_and!; [constructor|cbn; lia|done]].
      intros ([|] & _ & Hl & Hb); [by injection Hb|cbn in Hl; lia]. }
    destruct (fa_free_sound s t Hinv) as (G1 & G2 & G3); [by apply Hs, Ht|].
    split_and!; [done..|]. intros b. by rewrite G3, Ht.
  - destruct (free_slots l m t 512 0 s IH Hinj) as (G1 & G2 & G3); [lia|lia|done| |].
    { intros j b Hj Hb. apply Hs, table_in_slots. right. exists j. split; [lia|done]. }
    assert (Hnt : forall j, 0 <= j < 512 -> ~ slot_tables l m t j t).
    { intros j Hj (E & p & Hp & Lp & Tp). assert (H : j :: p = []); [|done].
      apply (Hinj _ _ t); [by constructor|constructor|cbn; lia|cbn; lia| |done].
      cbn [table_of]. by rewrite E. }
    set (s1 := for_loop _ _ _ _) in *.
    destruct (fa_free_sound s1 t G1) as (H1 & H2 & H3).
    { apply G3. split; [apply Hs, table_in_slots; by left|]. intros (j & Hj & Hb). by apply (Hnt j). }
    split_and!; [done|congruence|]. intros b. rewrite H3, G3, table_in_slots. split.
    + intros [[Ho Hn] Hne]. split; [done|]. by intros [?|?]; [|apply Hn].
    + intros [Ho Hn]. split_and!; [done| |].
      * intros Hj. apply Hn. by right.
      * intros ->. apply Hn. by left.
Qed.

(** C5: [free_page_map] gives back exactly the frames the tables of the map
    occupy, each once: afterwards the allocator's owned frames are those it
    owned before less the tables of this map, and its invariant holds. *)
Theorem free_page_map_gives_back_tables pt m v s :
  fa_inv s -> tree_wf m s pt -> pt ≠ 0 -> ActivePageMap v ≠ 0 -> pt ≠ ActivePageMap v ->
  (forall p x, indices p -> (length p <= 3)%nat -> table_of m pt p = Some x -> table_skipped s x = false) ->
  let '(v', s') := free_page_map pt m v s in
  v' = v /\ fa_inv s' /\
  forall b, fa_owned s' b <->
    fa_owned s b /\ ~ (exists p, indices p /\ (length p <= 3)%nat /\ table_of m pt p = Some b).
Proof.
  intros Hinv Hwf H0 Hact Hne Hsk. unfold free_page_map, active_page_map.
  rewrite (proj2 (Z.eqb_neq _ _) H0), (proj2 (Z.eqb_neq _ _) Hact). rewrite (proj2 (Z.eqb_neq _ _) Hne).
  destruct (free_table_spec 3 m pt s Hinv) as (G1 & G2 & G3).
  - intros p q x. apply (tree_inj _ _ _ Hwf).
  - intros b (p & Hp & Hl & Hb). split; [by apply (tree_owned _ _ _ Hwf p)|by apply (Hsk p)].
  - done.
Qed.

End Freeing.

(** ** A concrete page map for the witnesses

    Four tables at 4096, 8192, 12288 and 16384; the page with index 5 of the
    first page table is mapped, writable, to the frame at 36864. *)

Definition four_mem : mem :=
  set_entry (set_entry (set_entry (set_entry zero_mem 4096 0 8195) 8192 0 12291) 12288 0 16387) 16384 5 36867.

Definition four_frames : pmm := lock_pages 0 5 fresh.

Lemma four_frames_wf : pmm_wf four_frames.
Proof. apply (lock_pages_spec 0 5); [apply fresh_wf|unfold PAGE_SIZE; lia..]. Qed.

Lemma four_entry t i :
  frame_address t -> 0 <= i < 512 ->
  entry four_mem t i =
  if decide (t = 16384 /\ i = 5) then 36867
  else if decide (t = 12288 /\ i = 0) then 16387
  else if decide (t = 8192 /\ i = 0) then 12291
  else if decide (t = 4096 /\ i = 0) then 8195 else 0.
Proof.
  intros Ht Hi. unfold four_mem.
  rewrite !entry_set_entry by (done || lia || (split; [lia|done])). by rewrite zero_entry.
Qed.

Lemma four_tables p k x :
  0 <= k -> Z.of_nat (length p) + k <= 3 -> indices p ->
  table_of four_mem (4096 * (1 + k)) p = Some x ->
  p = replicate (length p) 0 /\ x = 4096 * (1 + k + Z.of_nat (length p)).
Proof.
  revert k. induction p as [|i p IH]; intros k Hk Hl Hp; cbn [table_of].
  { intros [= <-]. cbn. split; [done|lia]. }
  apply Forall_cons in Hp as [Hi Hp]. cbn [length] in Hl.
  rewrite four_entry by (done || (split; [lia|unfold PAGE_SIZE; dlia])).
  assert (Hc : forall e, Pde.address e = 4096 * (1 + (k + 1)) ->
            table_of four_mem (Pde.address e) p = Some x ->
            p = replicate (length p) 0 /\ x = 4096 * (1 + (k + 1) + Z.of_nat (length p))).
  { intros e ->. apply IH; (done || lia). }
  rewrite decide_False by lia. cbn [length replicate].
  repeat case_decide; try (change (Pde.flag 0 Present) with false; done);
    (match goal with |- (if ?b then _ else _) = _ -> _ => change b with true end);
    intros H'; apply Hc in H'; try (vm_compute (Pde.address _); lia);
    destruct H' as [Hr ->]; (split; [f_equal; [lia|exact Hr]|lia]).
Qed.

Lemma four_root_tables p x :
  indices p -> (length p <= 3)%nat -> table_of four_mem 4096 p = Some x ->
  p = replicate (length p) 0 /\ x = 4096 * (1 + Z.of_nat (length p)).
Proof. intros Hp Hl H. destruct (four_tables p 0 x) as [? ?]; [lia|lia|done|done|]. split; [done|lia]. Qed.

Lemma four_owned k : 0 <= k < 5 -> frame_locked four_frames (4096 * k).
Proof.
  intros Hk. exists k. split_and!; [lia|unfold PAGE_SIZE; lia|].
  assert (k = 0 \/ k = 1 \/ k = 2 \/ k = 3 \/ k = 4) as [->|[->|[->|[->| ->]]]] by lia; reflexivity.
Qed.

Lemma four_wf : tree_wf four_mem four_frames 4096.
Proof.
  split; [split; [lia|done]| |].
  - intros p t Hp Hl Ht. destruct (four_root_tables p t Hp Hl Ht) as [_ ->]. apply four_owned. lia.
  - intros p q t Hp Hq Lp Lq Tp Tq. destruct (four_root_tables p t Hp Lp Tp) as [Rp E1].
    destruct (four_root_tables q t Hq Lq Tq) as [Rq E2]. rewrite Rp, Rq. f_equal. lia.
Qed.

Lemma four_count : table_count 3 four_mem 4096 = 4.
Proof. vm_compute. reflexivity. Qed.

Lemma clone_page_map_is_exact_witness :
  exists new m' fr',
    clone_page_map 4096 (four_mem, four_frames) = Done (new, (m', fr')) /\ new ≠ 0 /\
    tree_wf m' fr' new /\ tree_wf m' fr' 4096 /\
    (forall p x, indices p -> (length p <= 3)%nat -> table_of m' new p = Some x -> ~ fa_owned four_frames x) /\
    (forall va, 0 <= va ->
       translate m' new va = translate four_mem 4096 va /\ translate m' 4096 va = translate four_mem 4096 va) /\
    fa_avail fr' = fa_avail four_frames - table_count 3 four_mem 4096.
Proof.
  apply (clone_page_map_is_exact 4096 four_mem four_frames);
    [apply four_frames_wf|apply four_wf|apply (four_owned 0); lia|].
  rewrite four_count. vm_compute. discriminate.
Defined.

Lemma clone_copy_on_write_has_no_writable_page_witness :
  translate four_mem 4096 20480 = Some 36867 /\
  exists new m' fr',
    clone_page_map_copy_on_write 4096 (four_mem, four_frames) = Done (new, (m', fr')) /\ new ≠ 0 /\
    tree_wf m' fr' new /\ tree_wf m' fr' 4096 /\
    (forall va, 0 <= va -> translate m' 4096 va = translate four_mem 4096 va) /\
    (forall va, 0 <= va ->
       match translate four_mem 4096 va, translate m' new va with
       | None, None => True
       | Some e, Some e' =>
           Pde.address e' = Pde.address e /\ Pde.flag e' ReadWrite = false /\
           Pde.flag e' Lensor_CopyOnWrite = Pde.flag e ReadWrite || Pde.flag e Lensor_CopyOnWrite /\
           forall f, f ≠ ReadWrite -> f ≠ Lensor_CopyOnWrite -> Pde.flag e' f = Pde.flag e f
       | _, _ => False
       end).
Proof.
  split; [vm_compute; reflexivity|].
  apply (clone_copy_on_write_has_no_writable_page 4096 four_mem four_frames);
    [apply four_frames_wf|apply four_wf|apply (four_owned 0); lia|].
  rewrite four_count. vm_compute. discriminate.
Defined.

Lemma free_page_map_gives_back_tables_witness :
  let '(v', s') := free_page_map 4096 four_mem (mkVmm 40960 40960) four_frames in
  v' = mkVmm 40960 40960 /\ fa_inv s' /\
  forall b, fa_owned s' b <->
    fa_owned four_frames b /\ ~ (exists p, indices p /\ (length p <= 3)%nat /\ table_of four_mem 4096 p = Some b).
Proof.
  apply (free_page_map_gives_back_tables 4096 four_mem (mkVmm 40960 40960) four_frames);
    [apply four_frames_wf|apply four_wf|done|done|done|].
  intros p x Hp Hl Hx. destruct (four_root_tables p x Hp Hl Hx) as [_ ->].
  destruct (length p) as [|[|[|[|n]]]]; [vm_compute; reflexivity..|lia].
Defined.
