(* ===== verification/Heap.v ===== *)
(** * The kernel heap

    Models src/kernel/src/memory/heap.h and heap.cpp: the doubly linked list of
    segment headers, [combine_forward], [combine_backward], [split],
    [init_heap], [expand_heap], [malloc], [free], [aligned_new] and
    [aligned_delete].

    Headers are records in a finite map from addresses; a dereference of an
    address without a header is undefined behaviour.  The payload bytes are not
    represented, but for the pointer [aligned_new] stores in front of the
    address it returns.  Page frames and mappings come from a [PageProvider]:
    what [init_heap] and [expand_heap] do for each page. *)

From S2P Require Import Prelude.

Module KHeap.

Definition HEAP_VIRTUAL_BASE : Z := 0xffffffffff000000.
Definition HEAP_INITIAL_PAGES : Z := 1.
Definition HEAP_BYTE_ALIGN : Z := 16.

(** [sizeof(HeapSegmentHeader)]: three words and a bool, padded. *)
Definition sizeof_header : Z := 32.

Record HeapSegmentHeader := mkHeader {
  last : Z;
  next : Z;
  length : Z;
  free_flag : bool
}.

Definition set_last (a : Z) (s : HeapSegmentHeader) := mkHeader a (next s) (length s) (free_flag s).
Definition set_next (a : Z) (s : HeapSegmentHeader) := mkHeader (last s) a (length s) (free_flag s).
Definition set_length (n : Z) (s : HeapSegmentHeader) := mkHeader (last s) (next s) n (free_flag s).
Definition set_free (b : bool) (s : HeapSegmentHeader) := mkHeader (last s) (next s) (length s) b.

(** The headers in memory and the three globals. *)
Record heap := mkHeap {
  headers : gmap Z HeapSegmentHeader;
  sHeapStart : Z;
  sHeapEnd : Z;
  sLastHeader : Z
}.

Definition with_headers (hs : gmap Z HeapSegmentHeader) (h : heap) : heap :=
  mkHeap hs (sHeapStart h) (sHeapEnd h) (sLastHeader h).
Definition with_sLastHeader (a : Z) (h : heap) : heap :=
  mkHeap (headers h) (sHeapStart h) (sHeapEnd h) a.
Definition with_sHeapEnd (a : Z) (h : heap) : heap :=
  mkHeap (headers h) (sHeapStart h) a (sLastHeader h).

(** [p->...] as a read, and as an update of the fields through [f]. *)
Definition header (p : Z) (h : heap) : outcome HeapSegmentHeader := deref (headers h !! p).
Definition store (p : Z) (s : HeapSegmentHeader) (h : heap) : heap := with_headers (<[p := s]> (headers h)) h.
Definition modify (p : Z) (f : HeapSegmentHeader -> HeapSegmentHeader) (h : heap) : outcome heap :=
  s ← header p h; Done (store p (f s) h).

Definition combine_forward (this : Z) (h : heap) : outcome heap :=
  s ← header this h;
  if next s =? 0 then Done h
  else
    n ← header (next s) h;
    if negb (free_flag n) then Done h
    else
      let h := if next s =? sLastHeader h then with_sLastHeader this h else h in
      h ← (if negb (next n =? 0) then modify (next n) (set_last this) h else Done h);
      n ← header (next s) h;
      modify this (fun s => set_next (next n) (set_length ((length s +64 length n) +64 sizeof_header) s)) h.

Definition combine_backward (this : Z) (h : heap) : outcome heap :=
  s ← header this h;
  if last s =? 0 then Done h
  else
    l ← header (last s) h;
    if negb (free_flag l) then Done h
    else combine_forward (last s) h.

(** The result is the header split, or null. *)
Definition split (this splitLength : Z) (h : heap) : outcome (Z * heap) :=
  s ← header this h;
  if length s <? splitLength +64 sizeof_header then Done (0, h)
  else if splitLength <? HEAP_BYTE_ALIGN then Done (0, h)
  else
    let splitSegmentLength := (length s -64 splitLength) -64 sizeof_header in
    if splitSegmentLength <? HEAP_BYTE_ALIGN then Done (0, h)
    else
      let splitHeader := (this +64 sizeof_header) +64 splitLength in
      h ← (if negb (next s =? 0) then modify (next s) (set_last splitHeader) h
           else Done (with_sLastHeader splitHeader h));
      let h := store splitHeader (mkHeader this (next s) splitSegmentLength (free_flag s)) h in
      h ← modify this (fun s => set_length splitLength (set_next splitHeader s)) h;
      Done (this, h).

(** What the heap needs of the rest of the kernel: a fresh frame mapped at the
    given virtual address, in the active page map only ([init_heap]) or, zeroed,
    in the page map of every process as well ([expand_heap]). *)
Class PageProvider (P : Type) := {
  pp_map_first : Z -> P -> outcome P;
  pp_map_page : Z -> P -> outcome P;
  (** Pages that can still be provided, and when they can be. *)
  pp_left : P -> Z;
  pp_ready : P -> Prop;
  pp_map_page_ok : forall va p,
    pp_ready p -> HEAP_VIRTUAL_BASE <= va < 2 ^ 64 -> va mod PAGE_SIZE = 0 -> 1 <= pp_left p ->
    exists p', pp_map_page va p = Done p' /\ pp_ready p' /\ pp_left p - 1 <= pp_left p'
}.

Section Allocation.
Context {P : Type} `{!PageProvider P}.

(** [for (u64 i = 0; i < numPages * PAGE_SIZE; i += PAGE_SIZE)] *)
Fixpoint provide_pages (provide : Z -> P -> outcome P) (count : nat) (base i : Z) (p : P) : outcome P :=
  match count with
  | O => Done p
  | S n => p ← provide (base +64 i) p; provide_pages provide n base (i + PAGE_SIZE) p
  end.

Definition init_heap (p : P) : outcome (heap * P) :=
  let numBytes := HEAP_INITIAL_PAGES * PAGE_SIZE in
  p ← provide_pages pp_map_first (Z.to_nat HEAP_INITIAL_PAGES) HEAP_VIRTUAL_BASE 0 p;
  Done (mkHeap {[ HEAP_VIRTUAL_BASE := mkHeader 0 0 (numBytes - sizeof_header) true ]}
          HEAP_VIRTUAL_BASE (HEAP_VIRTUAL_BASE +64 numBytes) HEAP_VIRTUAL_BASE, p).

Definition expand_heap (numBytes : Z) (h : heap) (p : P) : outcome (heap * P) :=
  let numPages := numBytes / PAGE_SIZE + 1 in
  let numBytes := numPages *64 PAGE_SIZE in
  p ← provide_pages pp_map_page (Z.to_nat (numBytes / PAGE_SIZE)) (sHeapEnd h) 0 p;
  let extension := sHeapEnd h in
  let h := with_sHeapEnd (extension +64 numBytes) h in
  let h := store extension (mkHeader (sLastHeader h) 0 (numBytes -64 sizeof_header) true) h in
  h ← modify (sLastHeader h) (set_next extension) h;
  let h := with_sLastHeader extension h in
  h ← combine_backward extension h;
  Done (h, p).

(** The search of [malloc] from [current] on: the payload address, or nothing
    when the last segment has been looked at. *)
Fixpoint malloc_search (fuel : nat) (numBytes current : Z) (h : heap) : outcome (option Z * heap) :=
  match fuel with
  | O => Stop Hung
  | S f =>
      c ← header current h;
      let advance h :=
        c ← header current h;
        if next c =? 0 then Done (None, h) else malloc_search f numBytes (next c) h in
      if free_flag c then
        if numBytes <? length c then
          '(split_header, h) ← split current numBytes h;
          if negb (split_header =? 0) then
            h ← modify split_header (set_free false) h;
            Done (Some (split_header +64 sizeof_header), h)
          else advance h
        else if length c =? numBytes then
          h ← modify current (set_free false) h;
          Done (Some (current +64 sizeof_header), h)
        else advance h
      else advance h
  end.

Definition round_up (numBytes : Z) : Z :=
  if 0 <? numBytes mod HEAP_BYTE_ALIGN then
    (numBytes -64 (numBytes mod HEAP_BYTE_ALIGN)) +64 HEAP_BYTE_ALIGN
  else numBytes.

(** [rounds] bounds the recursion that follows an expansion. *)
Fixpoint malloc (rounds : nat) (numBytes : Z) (h : heap) (p : P) : outcome (Z * (heap * P)) :=
  match rounds with
  | O => Stop Hung
  | S r =>
      if numBytes =? 0 then Done (0, (h, p))
      else
        let numBytes := round_up numBytes in
        '(found, h) ← malloc_search (S (size (headers h))) numBytes (sHeapStart h) h;
        match found with
        | Some address => Done (address, (h, p))
        | None => '(h, p) ← expand_heap numBytes h p; malloc r numBytes h p
        end
  end.

End Allocation.

Definition free (address : Z) (h : heap) : outcome heap :=
  if negb (Z.land address HEAP_VIRTUAL_BASE =? HEAP_VIRTUAL_BASE) then Done h
  else
    let segment := address -64 sizeof_header in
    h ← modify segment (set_free true) h;
    h ← combine_forward segment h;
    combine_backward segment h.

(** [aligned_new] and [aligned_delete]; [words] are the pointers stored in front
    of over-aligned blocks. *)
Section Aligned.
Context {P : Type} `{!PageProvider P}.

Definition aligned_new (rounds : nat) (size align : Z) (h : heap) (words : gmap Z Z) (p : P) :
    outcome (Z * (heap * gmap Z Z * P)) :=
  if align <=? HEAP_BYTE_ALIGN then
    '(a, (h, p)) ← malloc rounds size h p; Done (a, (h, words, p))
  else
    '(addr, (h, p)) ← malloc rounds ((size +64 align) +64 8) h p;
    let addr_int := addr +64 8 in
    let addr_int := addr_int +64 ((align -64 (addr_int mod align)) mod align) in
    Done (addr_int, (h, <[addr_int -64 8 := addr]> words, p)).

Definition aligned_delete (addr align : Z) (h : heap) (words : gmap Z Z) : outcome heap :=
  if align <=? HEAP_BYTE_ALIGN then free addr h
  else if negb (Z.land addr HEAP_VIRTUAL_BASE =? HEAP_VIRTUAL_BASE) then Done h
  else
    ptr_to_free ← deref (words !! (addr -64 8));
    free ptr_to_free h.

End Aligned.

(** ** The abstract heap

    A heap is a base address and the list of its segments, each a payload
    length and whether it is free; a segment occupies its header and its
    payload, and the next segment follows directly. *)

Definition segs := list (Z * bool).

Fixpoint extent (l : segs) : Z :=
  match l with
  | [] => 0
  | (n, _) :: l => sizeof_header + n + extent l
  end.

(** Address of the last segment of [l], which begins at [a]; [prev] if empty. *)
Fixpoint last_addr (prev a : Z) (l : segs) : Z :=
  match l with
  | [] => prev
  | (n, _) :: l => last_addr a (a + sizeof_header + n) l
  end.

(** The headers of [l] are in memory at [a] and after, linked both ways; the
    last one's [next] is [nxt]. *)
Fixpoint chain (hs : gmap Z HeapSegmentHeader) (prev a : Z) (l : segs) (nxt : Z) : Prop :=
  match l with
  | [] => True
  | (n, b) :: l' =>
      hs !! a = Some (mkHeader prev (match l' with [] => nxt | _ => a + sizeof_header + n end) n b) /\
      chain hs a (a + sizeof_header + n) l' nxt
  end.

(** Payload lengths are multiples of the alignment, and not zero. *)
Definition lengths_ok (l : segs) : Prop :=
  Forall (fun s => HEAP_BYTE_ALIGN <= s.1 /\ s.1 mod HEAP_BYTE_ALIGN = 0) l.

Record represents (h : heap) (l : segs) : Prop := {
  rep_chain : chain (headers h) 0 (sHeapStart h) l 0;
  rep_nonempty : l ≠ [];
  rep_last : sLastHeader h = last_addr 0 (sHeapStart h) l;
  rep_end : sHeapEnd h = sHeapStart h + extent l;
  rep_lengths : lengths_ok l;
  rep_start : 0 < sHeapStart h;
  rep_align : sHeapStart h mod HEAP_BYTE_ALIGN = 0;
  rep_limit : sHeapEnd h < 2 ^ 64
}.

(** No two neighbours are both free; [prev] says whether what comes before [l]
    is free. *)
Fixpoint coalesced_from (prev : bool) (l : segs) : Prop :=
  match l with
  | [] => True
  | (_, b) :: l' => prev && b = false /\ coalesced_from b l'
  end.

Definition coalesced (l : segs) : Prop := coalesced_from false l.

(** The blocks in use: payload address and length. *)
Fixpoint used (a : Z) (l : segs) : list (Z * Z) :=
  match l with
  | [] => []
  | (n, b) :: l' =>
      (if b : bool then [] else [(a + sizeof_header, n)]) ++ used (a + sizeof_header + n) l'
  end.

(** ** Lemmas on chains *)

Lemma extent_app l1 l2 : extent (l1 ++ l2) = extent l1 + extent l2.
Proof. induction l1 as [|[n b] l1 IH]; cbn [extent app]; lia. Qed.

Lemma extent_nonneg l : lengths_ok l -> 0 <= extent l /\ 0 <= Z.of_nat (List.length l) * 48 <= extent l.
Proof.
  unfold lengths_ok, sizeof_header, HEAP_BYTE_ALIGN.
  induction 1 as [|[n b] l [Hn _] _ IH]; cbn [extent List.length fst] in *; unfold sizeof_header; lia.
Qed.

Lemma last_addr_app prev a l1 l2 :
  last_addr prev a (l1 ++ l2) = last_addr (last_addr prev a l1) (a + extent l1) l2.
Proof.
  revert prev a. induction l1 as [|[n b] l1 IH]; intros prev a; cbn [last_addr extent app].
  - by rewrite Z.add_0_r.
  - rewrite IH. f_equal. lia.
Qed.

Lemma segs_chain_app hs prev a l1 l2 nxt :
  l2 ≠ [] ->
  chain hs prev a (l1 ++ l2) nxt <->
  chain hs prev a l1 (a + extent l1) /\ chain hs (last_addr prev a l1) (a + extent l1) l2 nxt.
Proof.
  intros Hne. revert prev a. induction l1 as [|[n b] l1 IH]; intros prev a; cbn [chain extent last_addr app].
  - rewrite Z.add_0_r. tauto.
  - rewrite IH. replace (a + (sizeof_header + n + extent l1)) with (a + sizeof_header + n + extent l1) by lia.
    destruct l1 as [|s l1]; cbn [app extent].
    + rewrite Z.add_0_r. destruct l2; [done|]. tauto.
    + tauto.
Qed.

Lemma last_addr_ge prev a l : lengths_ok l -> l ≠ [] -> a <= last_addr prev a l.
Proof.
  intros Hl. revert prev a. induction Hl as [|[n b] l [Hn _] Hl IH]; intros prev a Hne; [done|].
  cbn [last_addr fst] in *. destruct l; [done|]. unfold HEAP_BYTE_ALIGN, sizeof_header in *.
  specialize (IH a (a + 32 + n) ltac:(done)). lia.
Qed.

(** Writes outside the segments. *)
Lemma chain_insert hs prev a l nxt k s :
  lengths_ok l -> k < a \/ a + extent l <= k ->
  chain (<[k := s]> hs) prev a l nxt <-> chain hs prev a l nxt.
Proof.
  intros Hl. revert prev a. induction Hl as [|[n b] l [Hn _] Hl IH]; intros prev a Hk; [done|].
  pose proof (extent_nonneg l Hl). cbn [chain extent fst] in *. unfold HEAP_BYTE_ALIGN, sizeof_header in *.
  rewrite IH by lia. rewrite lookup_insert_ne by lia. done.
Qed.

(** The back pointer of the first segment. *)
Lemma chain_set_last hs prev prev' a n b l nxt :
  lengths_ok ((n, b) :: l) -> chain hs prev a ((n, b) :: l) nxt ->
  exists s, hs !! a = Some s /\ chain (<[a := set_last prev' s]> hs) prev' a ((n, b) :: l) nxt.
Proof.
  intros Hl [Ha Hc]. eexists. split; [done|]. apply Forall_cons in Hl as [[Hn _] Hl].
  cbn [chain fst] in *. unfold HEAP_BYTE_ALIGN, sizeof_header in *.
  split; [by rewrite lookup_insert_eq|]. apply chain_insert; [done|lia|done].
Qed.

Lemma lengths_app l1 l2 : lengths_ok (l1 ++ l2) <-> lengths_ok l1 /\ lengths_ok l2.
Proof. apply Forall_app. Qed.

(** The address of the segment after the prefix [l1]. *)
Definition at_seg (h : heap) (l1 : segs) : Z := sHeapStart h + extent l1.

Lemma focus h l1 n b l2 :
  represents h (l1 ++ (n, b) :: l2) ->
  headers h !! at_seg h l1 =
    Some (mkHeader (last_addr 0 (sHeapStart h) l1)
            (match l2 with [] => 0 | _ => at_seg h l1 + sizeof_header + n end) n b) /\
  0 < at_seg h l1 /\ at_seg h l1 + sizeof_header + n + extent l2 = sHeapEnd h /\
  lengths_ok l1 /\ (16 <= n /\ n mod 16 = 0) /\ lengths_ok l2 /\ 0 <= extent l1 /\ 0 <= extent l2 /\
  sHeapEnd h < 2 ^ 64.
Proof.
  intros R. pose proof (rep_chain _ _ R) as Hc. apply segs_chain_app in Hc as [_ [Hh _]]; [|done].
  pose proof (rep_lengths _ _ R) as Hl. apply lengths_app in Hl as [H1 H2]. apply Forall_cons in H2 as [Hn H2].
  pose proof (extent_nonneg l1 H1). pose proof (extent_nonneg l2 H2).
  pose proof (rep_end _ _ R) as He. rewrite extent_app in He. cbn [extent] in He.
  pose proof (rep_start _ _ R). pose proof (rep_limit _ _ R). unfold at_seg.
  unfold HEAP_BYTE_ALIGN in Hn. cbn [fst] in Hn. split_and!; (done || lia).
Qed.

(** Replacing what follows a prefix by other segments of the same extent. *)
Lemma represents_replace h h' l1 l2 l2' :
  represents h (l1 ++ l2) -> l2 ≠ [] -> l2' ≠ [] ->
  sHeapStart h' = sHeapStart h -> sHeapEnd h' = sHeapEnd h -> extent l2' = extent l2 -> lengths_ok l2' ->
  chain (headers h') 0 (sHeapStart h) l1 (at_seg h l1) ->
  chain (headers h') (last_addr 0 (sHeapStart h) l1) (at_seg h l1) l2' 0 ->
  sLastHeader h' = last_addr (last_addr 0 (sHeapStart h) l1) (at_seg h l1) l2' ->
  represents h' (l1 ++ l2').
Proof.
  intros R Hn Hn' Hs He Hx Hl C1 C2 HL. pose proof (rep_lengths _ _ R) as H. apply lengths_app in H as [H1 _].
  split.
  - rewrite Hs. apply segs_chain_app; [done|]. by split.
  - by destruct l1.
  - by rewrite Hs, last_addr_app.
  - rewrite He, Hs, (rep_end _ _ R), !extent_app. lia.
  - by apply lengths_app.
  - rewrite Hs. apply R.
  - rewrite Hs. apply R.
  - rewrite He. apply R.
Qed.

Lemma represents_prefix h l1 l2 :
  represents h (l1 ++ l2) -> l2 ≠ [] ->
  chain (headers h) 0 (sHeapStart h) l1 (at_seg h l1) /\ lengths_ok l1 /\
  chain (headers h) (last_addr 0 (sHeapStart h) l1) (at_seg h l1) l2 0 /\ lengths_ok l2.
Proof.
  intros R Hn. pose proof (rep_chain _ _ R) as H. apply segs_chain_app in H as [? ?]; [|done].
  pose proof (rep_lengths _ _ R) as Hl. apply lengths_app in Hl as [? ?]. done.
Qed.

(** Only the free flag of one segment changes. *)
Lemma modify_free h l1 n b b' l2 :
  represents h (l1 ++ (n, b) :: l2) ->
  exists h', modify (at_seg h l1) (set_free b') h = Done h' /\ represents h' (l1 ++ (n, b') :: l2) /\
    sHeapStart h' = sHeapStart h /\ size (headers h') = size (headers h).
Proof.
  intros R. destruct (focus _ _ _ _ _ R) as (Hh & Hpos & Hend & L1 & Ln & L2 & X1 & X2 & Hlim).
  destruct (represents_prefix _ _ _ R ltac:(done)) as (C1 & _ & [_ C2] & _).
  unfold modify, header. rewrite Hh. cbn [deref mbind outcome_bind]. eexists. split_and!; [done| |done|].
  - eapply represents_replace; [exact R|done|done|done|done|done| | | |].
    + by constructor.
    + cbn. apply chain_insert; [done|unfold at_seg; lia|done].
    + cbn [headers store with_headers chain]. rewrite lookup_insert_eq. split; [done|].
      apply chain_insert; [done|unfold sizeof_header; lia|done].
    + cbn. rewrite (rep_last _ _ R), last_addr_app. done.
  - cbn. by rewrite map_size_insert, Hh.
Qed.

(** The size of the header store after an update in place. *)
Lemma size_update (hs : gmap Z HeapSegmentHeader) k s s' :
  hs !! k = Some s -> size (<[k := s']> hs) = size hs.
Proof. intros H. by rewrite map_size_insert, H. Qed.

Lemma combine_forward_merges h l1 n1 b n2 l2 :
  represents h (l1 ++ (n1, b) :: (n2, true) :: l2) ->
  exists h', combine_forward (at_seg h l1) h = Done h' /\
    represents h' (l1 ++ (n1 + n2 + sizeof_header, b) :: l2) /\
    sHeapStart h' = sHeapStart h.
Proof.
  intros R. destruct (focus _ _ _ _ _ R) as (Hh & Hpos & Hend & L1 & Ln & L2 & X1 & X2 & Hlim).
  assert (R2 : represents h ((l1 ++ [(n1, b)]) ++ (n2, true) :: l2)) by by rewrite <- app_assoc.
  destruct (focus _ _ _ _ _ R2) as (Hh2 & Hpos2 & Hend2 & _ & Ln2 & L2' & _ & X2' & _).
  assert (E2 : at_seg h (l1 ++ [(n1, b)]) = at_seg h l1 + sizeof_header + n1)
    by (unfold at_seg; rewrite extent_app; cbn [extent]; lia).
  destruct (represents_prefix _ _ _ R ltac:(done)) as (C1 & _ & [_ [_ C2]] & _).
  rewrite E2 in *. set (A := at_seg h l1) in *. set (B := A + sizeof_header + n1) in *.
  cbn [extent] in X2. unfold sizeof_header in *.
  assert (Hlast : sLastHeader h = last_addr A B ((n2, true) :: l2))
    by (rewrite (rep_last _ _ R), last_addr_app; done).
  unfold combine_forward, header, modify. rewrite Hh. cbn [deref mbind outcome_bind next].
  rewrite (proj2 (Z.eqb_neq B 0)) by lia. unfold header. rewrite Hh2. cbn [deref mbind outcome_bind free_flag negb next].
  rewrite last_addr_app in *. cbn [last_addr] in *. fold A in Hlast.
  assert (Hlen : (n1 +64 n2) +64 32 = n1 + n2 + 32).
  { rewrite (wrap64_small (n1 + n2)) by (unfold is_u64; lia). apply wrap64_small. unfold is_u64. lia. }
  assert (Lnew : lengths_ok ((n1 + n2 + 32, b) :: l2)).
  { constructor; [|done]. unfold HEAP_BYTE_ALIGN. cbn [fst]. split; [lia|dlia]. }
  destruct l2 as [|[n3 b3] l3].
  - cbn [last_addr] in Hlast. rewrite Hlast, !Z.eqb_refl. cbn [negb mbind outcome_bind headers with_sLastHeader].
    rewrite Hh2, Hh. cbn [deref mbind outcome_bind length next]. unfold sizeof_header. rewrite Hlen.
    eexists. split_and!; [done| |done]. eapply represents_replace; [exact R|done..| | | | |]; cbn [extent].
    + unfold sizeof_header. lia.
    + done.
    + cbn. apply chain_insert; [done|unfold A, at_seg; lia|done].
    + cbn [chain headers store with_headers]. by rewrite lookup_insert_eq.
    + done.
  - set (C := B + 32 + n2) in *. change (sLastHeader h = last_addr B C ((n3, b3) :: l3)) in Hlast.
    destruct (chain_set_last (headers h) B A C n3 b3 l3 0) as (s3 & H3 & C3); [exact L2'|exact C2|].
    pose proof (last_addr_ge B C ((n3, b3) :: l3) L2' ltac:(done)) as Hge.
    rewrite (proj2 (Z.eqb_neq B (sLastHeader h))) by lia.
    rewrite (proj2 (Z.eqb_neq C 0)) by lia. cbn [negb]. rewrite H3. cbn [deref mbind outcome_bind headers store with_headers].
    rewrite (lookup_insert_ne _ C B), Hh2 by lia. cbn [deref mbind outcome_bind].
    rewrite (lookup_insert_ne _ C A), Hh by lia. cbn [deref mbind outcome_bind length next]. unfold sizeof_header.
    rewrite Hlen. eexists. split_and!; [done| |done].
    eapply represents_replace; [exact R|done..| | | | |]; cbn [extent].
    + unfold sizeof_header. lia.
    + done.
    + cbn. rewrite !chain_insert by (done || unfold C, B, A, at_seg in *; lia). done.
    + cbn [chain headers store with_headers]. rewrite lookup_insert_eq. unfold sizeof_header.
      fold A. replace (A + 32 + (n1 + n2 + 32)) with C by lia. split; [done|].
      refine (proj2 (chain_insert _ A C ((n3, b3) :: l3) 0 A _ L2' _) C3). lia.
    + cbn [sLastHeader store with_headers]. rewrite Hlast. cbn [last_addr]. unfold sizeof_header.
      f_equal; lia.
Qed.

Lemma combine_forward_skips h l1 n b l2 :
  represents h (l1 ++ (n, b) :: l2) -> (match l2 with (_, true) :: _ => False | _ => True end) ->
  combine_forward (at_seg h l1) h = Done h.
Proof.
  intros R Hl2. destruct (focus _ _ _ _ _ R) as (Hh & Hpos & _ & _ & Ln & _).
  unfold combine_forward, header. rewrite Hh. cbn [deref mbind outcome_bind next].
  destruct l2 as [|[n2 []] l2]; [done|done|].
  assert (R2 : represents h ((l1 ++ [(n, b)]) ++ (n2, false) :: l2)) by by rewrite <- app_assoc.
  destruct (focus _ _ _ _ _ R2) as (Hh2 & _). unfold at_seg in Hh2. rewrite extent_app in Hh2. cbn [extent] in Hh2.
  replace (sHeapStart h + (extent l1 + (sizeof_header + n + 0)))
    with (at_seg h l1 + sizeof_header + n) in Hh2 by (unfold at_seg; lia).
  rewrite (proj2 (Z.eqb_neq (at_seg h l1 + sizeof_header + n) 0)) by (unfold sizeof_header; lia).
  unfold header. by rewrite Hh2.
Qed.

(** The two segments [combine_forward] leaves. *)
Definition merge_next (n : Z) (b : bool) (l : segs) : segs :=
  match l with
  | (n2, true) :: l' => (n + n2 + sizeof_header, b) :: l'
  | _ => (n, b) :: l
  end.

Lemma combine_forward_spec h l1 n b l2 :
  represents h (l1 ++ (n, b) :: l2) ->
  exists h', combine_forward (at_seg h l1) h = Done h' /\ represents h' (l1 ++ merge_next n b l2) /\
    sHeapStart h' = sHeapStart h.
Proof.
  intros R. destruct l2 as [|[n2 []] l2]; cbn [merge_next].
  - exists h. split_and!; [by eapply combine_forward_skips|done|done].
  - by apply combine_forward_merges.
  - exists h. split_and!; [by eapply combine_forward_skips|done|done].
Qed.

(** [combine_backward] at a free segment that follows [l1]. *)
Definition merge_last (l1 : segs) (n : Z) (l2 : segs) : segs :=
  match reverse l1 with
  | (n0, true) :: r => reverse r ++ (n0 + n + sizeof_header, true) :: l2
  | _ => l1 ++ (n, true) :: l2
  end.

Lemma combine_backward_spec h l1 n l2 :
  represents h (l1 ++ (n, true) :: l2) ->
  exists h', combine_backward (at_seg h l1) h = Done h' /\ represents h' (merge_last l1 n l2) /\
    sHeapStart h' = sHeapStart h.
Proof.
  intros R. destruct (focus _ _ _ _ _ R) as (Hh & Hpos & _).
  unfold combine_backward, header, merge_last. rewrite Hh. cbn [deref mbind outcome_bind last].
  destruct l1 as [|[n0 b0] r _] using rev_ind; [by exists h|].
  rewrite reverse_snoc, last_addr_app. cbn [last_addr].
  assert (R0 : represents h (r ++ (n0, b0) :: (n, true) :: l2)) by by rewrite <- app_assoc in R.
  destruct (focus _ _ _ _ _ R0) as (Hh0 & Hpos0 & _). fold (at_seg h r).
  rewrite (proj2 (Z.eqb_neq (at_seg h r) 0)) by lia. unfold header. rewrite Hh0. cbn [deref mbind outcome_bind free_flag].
  destruct b0; cbn [negb]; [|by exists h]. rewrite reverse_involutive. by apply combine_forward_merges.
Qed.

(** ** [split] *)

Lemma split_spec h l1 m b l2 n :
  represents h (l1 ++ (m, b) :: l2) -> 16 <= n -> n mod 16 = 0 -> n + 48 <= m ->
  exists h', split (at_seg h l1) n h = Done (at_seg h l1, h') /\
    represents h' (l1 ++ (n, b) :: (m - n - sizeof_header, b) :: l2) /\ sHeapStart h' = sHeapStart h.
Proof.
  intros R Hn Hnm Hfit. destruct (focus _ _ _ _ _ R) as (Hh & Hpos & Hend & L1 & Lm & L2 & X1 & X2 & Hlim).
  destruct (represents_prefix _ _ _ R ltac:(done)) as (C1 & _ & [_ C2] & _).
  set (A := at_seg h l1) in *. set (N := A + sizeof_header + n). set (C := A + sizeof_header + m) in *.
  assert (Hlast : sLastHeader h = last_addr A C l2) by (rewrite (rep_last _ _ R), last_addr_app; done).
  unfold sizeof_header in *.
  assert (Lnew : lengths_ok ((n, b) :: (m - n - 32, b) :: l2)).
  { unfold lengths_ok, HEAP_BYTE_ALIGN. repeat constructor; cbn [fst]; [lia..|dlia|done]. }
  unfold split, header, modify. rewrite Hh. cbn [deref mbind outcome_bind length next free_flag].
  unfold HEAP_BYTE_ALIGN, sizeof_header.
  rewrite (wrap64_small (n + 32)) by (unfold is_u64; lia). rewrite (proj2 (Z.ltb_ge _ _)) by lia.
  rewrite (proj2 (Z.ltb_ge _ _)) by lia.
  rewrite (wrap64_small (m - n)) by (unfold is_u64; lia). rewrite (wrap64_small (m - n - 32)) by (unfold is_u64; lia).
  rewrite (proj2 (Z.ltb_ge _ _)) by lia.
  rewrite (wrap64_small (A + 32)), (wrap64_small (A + 32 + n)) by (unfold is_u64; lia). fold N.
  destruct l2 as [|[n3 b3] l3].
  - cbn [negb Z.eqb mbind outcome_bind store with_headers headers with_sLastHeader].
    unfold header. cbn [headers store with_headers with_sLastHeader].
    rewrite (lookup_insert_ne _ N A), Hh by lia. cbn [deref mbind outcome_bind].
    eexists. split_and!; [done| |done]. eapply represents_replace; [exact R|done..| |done| | |done]; cbn [extent].
    + unfold sizeof_header. lia.
    + cbn. rewrite !chain_insert by (done || unfold N, A, at_seg in *; lia). done.
    + cbn [chain headers store with_headers]. rewrite lookup_insert_eq. fold A. unfold sizeof_header. fold N.
      rewrite lookup_insert_ne, lookup_insert_eq by lia. done.
  - destruct (chain_set_last (headers h) A N C n3 b3 l3 0) as (s3 & H3 & C3); [exact L2|exact C2|].
    rewrite (proj2 (Z.eqb_neq C 0)) by lia. cbn [negb]. unfold header. rewrite H3.
    cbn [deref mbind outcome_bind headers store with_headers].
    rewrite (lookup_insert_ne _ N A), (lookup_insert_ne _ C A), Hh by lia. cbn [deref mbind outcome_bind].
    eexists. split_and!; [done| |done]. eapply represents_replace; [exact R|done..| |done| | |]; cbn [extent].
    + unfold sizeof_header. lia.
    + cbn. rewrite !chain_insert by (done || unfold N, C, A, at_seg in *; lia). done.
    + cbn [headers store with_headers]. fold A.
      assert (Hc : chain (<[A := set_length n (set_next N (mkHeader (last_addr 0 (sHeapStart h) l1) C m b))]>
                     (<[N := mkHeader A C (m - n - 32) b]> (<[C := set_last N s3]> (headers h)))) N C ((n3, b3) :: l3) 0).
      { apply chain_insert; [exact L2|lia|]. apply chain_insert; [exact L2|lia|]. exact C3. }
      cbn [chain] in Hc |- *. rewrite lookup_insert_eq. unfold sizeof_header in *. fold N.
      rewrite (lookup_insert_ne _ A N), lookup_insert_eq by lia.
      replace (N + 32 + (m - n - 32)) with C by lia. done.
    + cbn [sLastHeader store with_headers last_addr]. rewrite Hlast. fold A. unfold sizeof_header. cbn [last_addr].
      f_equal; unfold sizeof_header; lia.
Qed.

Lemma split_refuses h l1 m b l2 n :
  represents h (l1 ++ (m, b) :: l2) -> 16 <= n -> n < m -> m < n + 48 ->
  split (at_seg h l1) n h = Done (0, h).
Proof.
  intros R Hn Hlt Hno. destruct (focus _ _ _ _ _ R) as (Hh & Hpos & Hend & L1 & Lm & L2 & X1 & X2 & Hlim).
  unfold split, header. rewrite Hh. cbn [deref mbind outcome_bind length]. unfold HEAP_BYTE_ALIGN, sizeof_header in *.
  rewrite (wrap64_small (n + 32)) by (unfold is_u64; lia).
  destruct (Z.ltb_spec m (n + 32)); [done|]. rewrite (proj2 (Z.ltb_ge _ _)) by lia.
  rewrite (wrap64_small (m - n)) by (unfold is_u64; lia). rewrite (wrap64_small (m - n - 32)) by (unfold is_u64; lia).
  by rewrite (proj2 (Z.ltb_lt _ _)) by lia.
Qed.

(** ** First fit *)

(** A free payload of [m] bytes can serve a request for [n]: exactly, or with
    room for another header and a smallest payload. *)
Definition fits (n m : Z) : bool := (m =? n) || (n + sizeof_header + HEAP_BYTE_ALIGN <=? m).

Definition carve (n m : Z) : segs :=
  if m =? n then [(n, false)] else [(n, false); (m - n - sizeof_header, true)].

(** The abstract [malloc] search, from the segment at [a]. *)
Fixpoint take_first (n a : Z) (l : segs) : option (Z * segs) :=
  match l with
  | [] => None
  | (m, b) :: l' =>
      if b && fits n m then Some (a + sizeof_header, carve n m ++ l')
      else '(p, l'') ← take_first n (a + sizeof_header + m) l'; Some (p, (m, b) :: l'')
  end.

Lemma malloc_search_refines fuel n h l1 l2 :
  represents h (l1 ++ l2) -> l2 ≠ [] -> (List.length l2 <= fuel)%nat -> 16 <= n -> n mod 16 = 0 ->
  match take_first n (at_seg h l1) l2 with
  | Some (p, l') => exists h', malloc_search fuel n (at_seg h l1) h = Done (Some p, h') /\
      represents h' (l1 ++ l') /\ sHeapStart h' = sHeapStart h
  | None => malloc_search fuel n (at_seg h l1) h = Done (None, h)
  end.
Proof.
  intros R Hne Hf Hn Hnm. revert l1 l2 R Hne Hf.
  induction fuel as [|fuel IH]; intros l1 [|[m b] l2] R Hne Hf; [done|cbn in Hf; lia|done|].
  destruct (focus _ _ _ _ _ R) as (Hh & Hpos & Hend & L1 & Lm & L2 & X1 & X2 & Hlim).
  set (A := at_seg h l1) in *. cbn [malloc_search take_first].
  assert (HA : exists c, header A h = Done c /\ free_flag c = b /\ length c = m)
    by (eexists; unfold header; rewrite Hh; cbn [deref]; done).
  destruct HA as (c & HA & Hcf & Hcl). rewrite HA. cbn [mbind outcome_bind]. rewrite Hcf, Hcl.
  unfold sizeof_header in Hend.
  (* the rest of the list *)
  assert (Hadv : match ('(p, l'') ← take_first n (A + sizeof_header + m) l2; Some (p, (m, b) :: l'')) with
                 | Some (p, l') => exists h',
                     (c ← header A h; if next c =? 0 then Done (None, h) else malloc_search fuel n (next c) h)
                       = Done (Some p, h') /\ represents h' (l1 ++ l') /\ sHeapStart h' = sHeapStart h
                 | None => (c ← header A h; if next c =? 0 then Done (None, h) else malloc_search fuel n (next c) h)
                       = Done (None, h)
                 end).
  { unfold header. rewrite Hh. cbn [deref mbind outcome_bind next].
    destruct l2 as [|s2 l2]; [done|]. rewrite (proj2 (Z.eqb_neq (A + sizeof_header + m) 0)) by (unfold sizeof_header; lia).
    assert (R2 : represents h ((l1 ++ [(m, b)]) ++ s2 :: l2)) by by rewrite <- app_assoc.
    specialize (IH _ _ R2 ltac:(done) ltac:(cbn in Hf |- *; lia)).
    replace (at_seg h (l1 ++ [(m, b)])) with (A + sizeof_header + m) in IH
      by (unfold A, at_seg; rewrite extent_app; cbn [extent]; lia).
    destruct (take_first n (A + sizeof_header + m) (s2 :: l2)) as [[p l']|]; cbn [mbind option_bind]; [|done].
    destruct IH as (h' & E & R' & S'). exists h'. by rewrite <- app_assoc in R'. }
  rewrite HA in Hadv. cbn [mbind outcome_bind] in Hadv.
  destruct b; cbn [andb]; [|exact Hadv].
  destruct (Z.ltb_spec n m) as [Hlt|Hge].
  - unfold fits. rewrite (proj2 (Z.eqb_neq m n)) by lia. cbn [orb]. unfold sizeof_header at 1, HEAP_BYTE_ALIGN.
    destruct (Z.leb_spec (n + 32 + 16) m) as [Hfit|Hno].
    + destruct (split_spec h l1 m true l2 n R Hn Hnm ltac:(lia)) as (h1 & E1 & R1 & S1). fold A in E1.
      rewrite E1. cbn [mbind outcome_bind]. rewrite (proj2 (Z.eqb_neq A 0)) by lia. cbn [negb].
      destruct (modify_free h1 l1 n true false _ R1) as (h2 & E2 & R2 & S2 & _).
      replace (at_seg h1 l1) with A in E2 by (unfold A, at_seg; by rewrite S1).
      rewrite E2. cbn [mbind outcome_bind]. unfold sizeof_header at 1. rewrite wrap64_small by (unfold is_u64; lia).
      eexists. split_and!; [done| |congruence]. unfold carve. by rewrite (proj2 (Z.eqb_neq m n)) by lia.
    + pose proof (split_refuses h l1 m true l2 n R Hn Hlt ltac:(lia)) as E1. fold A in E1. rewrite E1.
      cbn [mbind outcome_bind Z.eqb negb]. rewrite HA. exact Hadv.
  - destruct (Z.eqb_spec m n) as [->|Hne'].
    + unfold fits. rewrite Z.eqb_refl. cbn [orb].
      destruct (modify_free h l1 n true false _ R) as (h2 & E2 & R2 & S2 & _). fold A in E2.
      rewrite E2. cbn [mbind outcome_bind]. unfold sizeof_header at 1. rewrite wrap64_small by (unfold is_u64; lia).
      eexists. split_and!; [done| |done]. unfold carve. by rewrite Z.eqb_refl.
    + unfold fits. rewrite (proj2 (Z.eqb_neq m n)), (proj2 (Z.leb_gt _ _)) by (unfold sizeof_header, HEAP_BYTE_ALIGN; lia).
      exact Hadv.
Qed.

(** The fuel of the search is enough: every segment has its own header. *)
Lemma segs_chain_size hs prev a l nxt :
  lengths_ok l -> chain hs prev a l nxt -> (List.length l <= size hs)%nat.
Proof.
  intros Hl Hc.
  assert (H : exists ks : list Z, NoDup ks /\ List.length ks = List.length l /\
            forall k, k ∈ ks -> a <= k /\ is_Some (hs !! k)).
  { revert prev a Hc. induction Hl as [|[n b] l [Hn _] Hl IH]; intros prev a Hc.
    - exists []. split_and!; [constructor|done|]. intros k Hk. by apply not_elem_of_nil in Hk.
    - cbn [chain fst] in *. destruct Hc as [Ha Hc]. destruct (IH _ _ Hc) as (ks & Hnd & Hlen & Hks).
      unfold HEAP_BYTE_ALIGN, sizeof_header in *. exists (a :: ks). split_and!.
      + constructor; [|done]. intros Hin. apply Hks in Hin. lia.
      + cbn. lia.
      + intros k [->|Hk]%elem_of_cons; [split; [lia|by eexists]|]. destruct (Hks k Hk). split; [lia|done]. }
  destruct H as (ks & Hnd & <- & Hks). rewrite <- size_dom, <- (size_list_to_set (C := gset Z) ks Hnd).
  apply subseteq_size. intros k Hk%elem_of_list_to_set. apply elem_of_dom. by apply Hks.
Qed.

Lemma search_refines n h l :
  represents h l -> 16 <= n -> n mod 16 = 0 ->
  match take_first n (sHeapStart h) l with
  | Some (p, l') => exists h', malloc_search (S (size (headers h))) n (sHeapStart h) h = Done (Some p, h') /\
      represents h' l' /\ sHeapStart h' = sHeapStart h
  | None => malloc_search (S (size (headers h))) n (sHeapStart h) h = Done (None, h)
  end.
Proof.
  intros R Hn Hnm. pose proof (malloc_search_refines (S (size (headers h))) n h [] l R (rep_nonempty _ _ R)) as H.
  unfold at_seg in H. cbn [extent app] in H. rewrite Z.add_0_r in H. apply H; [|done..].
  pose proof (segs_chain_size _ _ _ _ _ (rep_lengths _ _ R) (rep_chain _ _ R)). lia.
Qed.

(** ** [expand_heap] *)

(** The number of bytes an expansion for [n] bytes adds. *)
Definition growth (n : Z) : Z := (n / PAGE_SIZE + 1) * PAGE_SIZE.

Lemma append_segment h l n :
  represents h l -> 16 <= n -> n mod 16 = 0 -> sHeapEnd h + sizeof_header + n < 2 ^ 64 ->
  let extension := sHeapEnd h in
  let h1 := store extension (mkHeader (sLastHeader h) 0 n true) (with_sHeapEnd (extension + sizeof_header + n) h) in
  exists h2, modify (sLastHeader h) (set_next extension) h1 = Done h2 /\
    represents (with_sLastHeader extension h2) (l ++ [(n, true)]) /\ sHeapStart h2 = sHeapStart h.
Proof.
  intros R Hn Hnm Hlim. destruct l as [|[m b] r _] using rev_ind; [by destruct (rep_nonempty _ _ R)|].
  destruct (focus _ _ _ _ _ R) as (Hh & Hpos & Hend & L1 & Lm & _ & X1 & _ & _).
  destruct (represents_prefix _ _ _ R ltac:(done)) as (C1 & _ & _ & _).
  cbv zeta. rewrite (rep_last _ _ R), last_addr_app. cbn [last_addr]. fold (at_seg h r).
  set (A := at_seg h r) in *. set (E := sHeapEnd h) in *. cbn [extent] in Hend. unfold sizeof_header in *.
  unfold modify, header. cbn [headers store with_headers with_sHeapEnd].
  rewrite lookup_insert_ne, Hh by lia. cbn [deref mbind outcome_bind].
  eexists. split_and!; [done| |done].
  assert (HE : sHeapStart h + extent (r ++ [(m, b)]) = E) by (by rewrite <- (rep_end _ _ R)).
  split; cbn [headers sHeapStart sHeapEnd sLastHeader store with_headers with_sHeapEnd with_sLastHeader].
  - apply segs_chain_app; [done|]. rewrite HE. split; cbn [chain].
    + apply segs_chain_app; [done|]. fold (at_seg h r). fold A. split.
      * rewrite !chain_insert by (done || unfold A, at_seg in *; lia). done.
      * cbn [chain]. by rewrite lookup_insert_eq.
    + rewrite last_addr_app. cbn [last_addr]. fold (at_seg h r). fold A.
      rewrite (lookup_insert_ne _ A E), lookup_insert_eq by lia. done.
  - by destruct r.
  - rewrite last_addr_app. cbn [last_addr]. by rewrite HE.
  - rewrite extent_app. cbn [extent]. unfold sizeof_header. lia.
  - apply lengths_app. split; [apply R|]. by repeat constructor.
  - apply R.
  - apply R.
  - done.
Qed.

Section Expand.
Context {P : Type} `{!PageProvider P}.

Lemma provide_pages_ok count base i p :
  pp_ready p -> HEAP_VIRTUAL_BASE <= base -> base mod PAGE_SIZE = 0 -> 0 <= i -> i mod PAGE_SIZE = 0 ->
  base + i + Z.of_nat count * PAGE_SIZE < 2 ^ 64 -> Z.of_nat count <= pp_left p ->
  exists p', provide_pages pp_map_page count base i p = Done p' /\ pp_ready p' /\
    pp_left p - Z.of_nat count <= pp_left p'.
Proof.
  intros Hr Hb Hbm. revert i p Hr. unfold HEAP_VIRTUAL_BASE, PAGE_SIZE in *.
  induction count as [|n IH]; intros i p Hr Hi Him Hlim Hav; cbn [provide_pages].
  { exists p. split_and!; [done..|lia]. }
  rewrite wrap64_small by (unfold is_u64; lia).
  destruct (pp_map_page_ok (base + i) p) as (p1 & -> & Hr1 & Hl1);
    [done|unfold HEAP_VIRTUAL_BASE; lia|unfold PAGE_SIZE; dlia|lia|].
  cbn [mbind outcome_bind]. unfold PAGE_SIZE. destruct (IH (i + 4096) p1) as (p2 & -> & Hr2 & Hl2); [done|lia|dlia|lia|lia|].
  exists p2. split_and!; [done..|lia].
Qed.

Lemma expand_heap_spec n h l p :
  represents h l -> 0 <= n -> HEAP_VIRTUAL_BASE <= sHeapEnd h -> sHeapEnd h mod PAGE_SIZE = 0 ->
  sHeapEnd h + growth n < 2 ^ 64 -> pp_ready p -> growth n / PAGE_SIZE <= pp_left p ->
  exists h' p', expand_heap n h p = Done (h', p') /\
    represents h' (merge_last l (growth n - sizeof_header) []) /\
    sHeapStart h' = sHeapStart h /\ sHeapEnd h' = sHeapEnd h + growth n /\
    pp_ready p' /\ pp_left p - growth n / PAGE_SIZE <= pp_left p'.
Proof.
  intros R Hn Hb Hbm Hlim Hr Hav. unfold expand_heap.
  assert (Hg : (n / PAGE_SIZE + 1) *64 PAGE_SIZE = growth n).
  { apply wrap64_small. unfold is_u64, growth, HEAP_VIRTUAL_BASE, PAGE_SIZE in *. dlia. }
  assert (Hgm : 4096 <= growth n /\ growth n mod 4096 = 0)
    by (unfold growth, PAGE_SIZE; split; [dlia|by rewrite Z.mod_mul]).
  rewrite Hg. unfold HEAP_VIRTUAL_BASE, PAGE_SIZE, sizeof_header in *.
  assert (Hc : Z.of_nat (Z.to_nat (growth n / 4096)) = growth n / 4096) by (apply Z2Nat.id; dlia).
  destruct (provide_pages_ok (Z.to_nat (growth n / 4096)) (sHeapEnd h) 0 p) as (p' & E & Hr' & Hl');
    [done|done|done|lia|done|rewrite Hc; unfold PAGE_SIZE; dlia|by rewrite Hc|]. rewrite E. cbn [mbind outcome_bind].
  rewrite (wrap64_small (sHeapEnd h + growth n)), (wrap64_small (growth n - 32)) by (unfold is_u64; lia).
  destruct (append_segment h l (growth n - 32)) as (h2 & E2 & R2 & S2); [done|lia|dlia|unfold sizeof_header; lia|].
  unfold sizeof_header in E2. replace (sHeapEnd h + 32 + (growth n - 32)) with (sHeapEnd h + growth n) in E2 by lia.
  cbn [sLastHeader with_sHeapEnd store with_headers] in *. rewrite E2. cbn [mbind outcome_bind].
  destruct (combine_backward_spec _ _ _ _ R2) as (h3 & E3 & R3 & S3).
  replace (at_seg (with_sLastHeader (sHeapEnd h) h2) l) with (sHeapEnd h) in E3.
  2: { unfold at_seg. cbn. rewrite S2. apply R. }
  rewrite E3. cbn [mbind outcome_bind]. exists h3, p'.
  assert (S3' : sHeapStart h3 = sHeapStart h) by (rewrite S3; cbn; done).
  split_and!; [done|done|done| |done|lia].
  rewrite (rep_end _ _ R3), S3', (rep_end _ _ R). unfold merge_last.
  destruct l as [|[m b] r _] using rev_ind; [by destruct (rep_nonempty _ _ R)|].
  rewrite reverse_snoc. destruct b; rewrite ?reverse_involutive, ?extent_app; cbn [extent]; unfold sizeof_header; lia.
Qed.

End Expand.

(** ** Segments, blocks and flags of lists *)

Lemma used_app a l1 l2 : used a (l1 ++ l2) = used a l1 ++ used (a + extent l1) l2.
Proof.
  revert a. induction l1 as [|[n b] l1 IH]; intros a; cbn [used extent app]; [by rewrite Z.add_0_r|].
  rewrite IH, <- app_assoc. do 3 f_equal. lia.
Qed.

(** The flag of the last segment of [l], or [prev]. *)
Fixpoint last_flag (prev : bool) (l : segs) : bool :=
  match l with
  | [] => prev
  | (_, b) :: l' => last_flag b l'
  end.

Lemma coalesced_app prev l1 l2 :
  coalesced_from prev (l1 ++ l2) <-> coalesced_from prev l1 /\ coalesced_from (last_flag prev l1) l2.
Proof.
  revert prev. induction l1 as [|[n b] l1 IH]; intros prev; cbn [coalesced_from last_flag app]; [tauto|].
  rewrite IH. tauto.
Qed.

Lemma last_flag_app prev l1 l2 : last_flag prev (l1 ++ l2) = last_flag (last_flag prev l1) l2.
Proof. revert prev. induction l1 as [|[n b] l1 IH]; intros prev; cbn [last_flag app]; [done|apply IH]. Qed.

Lemma coalesced_weaken prev l : coalesced_from true l -> coalesced_from prev l.
Proof. destruct l as [|[n b] l]; [done|]. cbn [coalesced_from]. intros [H ?]. by destruct b, prev. Qed.

(** What a merge with the next or the last segment does to blocks and flags. *)
Lemma merge_next_used a n b l :
  used a (merge_next n b l) = used a ((n, b) :: l) \/ b = false.
Proof.
  destruct b; [left|by right]. destruct l as [|[n2 []] l]; cbn [merge_next used app]; [done| |done].
  f_equal. lia.
Qed.

Lemma merge_last_used a l1 n l2 : used a (merge_last l1 n l2) = used a (l1 ++ (n, true) :: l2).
Proof.
  unfold merge_last. destruct l1 as [|[n0 b0] r _] using rev_ind; [done|]. rewrite reverse_snoc.
  destruct b0; [|done]. rewrite reverse_involutive, !used_app, extent_app. cbn [used app extent].
  rewrite app_nil_r. do 2 f_equal. lia.
Qed.

Lemma merge_last_coalesced l1 n l2 :
  coalesced l1 -> coalesced_from true l2 -> coalesced (merge_last l1 n l2).
Proof.
  intros H1 H2. unfold merge_last, coalesced in *. destruct l1 as [|[n0 b0] r _] using rev_ind.
  { cbn. done. }
  rewrite reverse_snoc. apply coalesced_app in H1 as [Hr Hb]. cbn [coalesced_from] in Hb. destruct b0.
  - rewrite reverse_involutive. apply coalesced_app. split; [done|]. cbn [coalesced_from]. tauto.
  - rewrite <- app_assoc. apply coalesced_app. split; [done|]. cbn [coalesced_from app].
    by rewrite andb_false_r.
Qed.

Lemma fits_aligned n m : 16 <= n -> fits n m = true -> m = n \/ n + 48 <= m.
Proof. unfold fits, sizeof_header, HEAP_BYTE_ALIGN. intros ? [?%Z.eqb_eq|?%Z.leb_le]%orb_true_iff; lia. Qed.

(** Allocation at the list level: one block is added, nothing else changes. *)
Lemma take_first_spec n a l p l' prev :
  take_first n a l = Some (p, l') -> coalesced_from prev l ->
  (exists U1 U2, used a l = U1 ++ U2 /\ used a l' = U1 ++ (p, n) :: U2) /\
  coalesced_from prev l' /\ extent l' = extent l /\ l' ≠ [].
Proof.
  revert a prev p l'. induction l as [|[m b] l IH]; intros a prev p l' E Hc; cbn [take_first] in E; [done|].
  cbn [coalesced_from] in Hc. destruct Hc as [Hpb Hc]. destruct (b && fits n m) eqn:Hfit.
  - injection E as <- <-. apply andb_true_iff in Hfit as [-> Hfit]. cbn [used app extent].
    unfold carve. destruct (Z.eqb_spec m n) as [->|Hne]; cbn [used app coalesced_from extent].
    + split_and!; [by exists [], (used (a + sizeof_header + n) l)| | |done|done].
      * by destruct prev.
      * by apply coalesced_weaken.
    + split_and!; [|by destruct prev|done|done|lia|done].
      exists [], (used (a + sizeof_header + m) l). split; [done|]. cbn [app]. do 2 f_equal. lia.
  - destruct (take_first n (a + sizeof_header + m) l) as [[q l'']|] eqn:E1; [|done]. cbn [mbind option_bind] in E.
    injection E as <- <-. destruct (IH _ b _ _ E1 Hc) as ((U1 & U2 & HU1 & HU2) & Hc' & He & Hn).
    cbn [used coalesced_from extent]. split_and!; [|done|done|lia|done].
    exists ((if b then [] else [(a + sizeof_header, m)]) ++ U1), U2. rewrite HU1, HU2, <- !app_assoc. done.
Qed.

Lemma take_first_some n a l m : (m, true) ∈ l -> fits n m = true -> is_Some (take_first n a l).
Proof.
  revert a. induction l as [|[m' b] l IH]; intros a Hin Hf; [by apply not_elem_of_nil in Hin|].
  cbn [take_first]. destruct (b && fits n m') eqn:E; [by eexists|].
  apply elem_of_cons in Hin as [Heq|Hin]; [injection Heq as <- <-; cbn in E; congruence|].
  destruct (IH (a + sizeof_header + m') Hin Hf) as [[p l'] ->]. by eexists.
Qed.

(** An expansion leaves one free segment at the end, at least as long as the
    bytes added. *)
Lemma merge_last_grows l n :
  lengths_ok l -> exists r m, merge_last l n [] = r ++ [(m, true)] /\ n <= m.
Proof.
  intros Hl. unfold merge_last. destruct l as [|[n0 b0] r _] using rev_ind; [by exists [], n|].
  rewrite reverse_snoc. apply Forall_app in Hl as [_ Hl]. apply Forall_cons in Hl as [[Hn _] _].
  unfold HEAP_BYTE_ALIGN in Hn. cbn [fst] in Hn. destruct b0.
  - rewrite reverse_involutive. exists r, (n0 + n + sizeof_header). unfold sizeof_header. split; [done|lia].
  - by exists (r ++ [(n0, false)]), n.
Qed.

Lemma merge_last_free r m n : merge_last (r ++ [(m, true)]) n [] = r ++ [(m + n + sizeof_header, true)].
Proof. unfold merge_last. by rewrite reverse_snoc, reverse_involutive. Qed.

(** ** The heap invariant and the client's view *)

Record heap_inv (h : heap) (l : segs) : Prop := {
  hi_rep : represents h l;
  hi_coalesced : coalesced l;
  hi_start : sHeapStart h = HEAP_VIRTUAL_BASE;
  hi_page : sHeapEnd h mod PAGE_SIZE = 0
}.

(** The blocks the heap has handed out. *)
Definition blocks (h : heap) (l : segs) : list (Z * Z) := used (sHeapStart h) l.

Lemma round_up_spec n :
  0 < n -> n <= 2 ^ 64 - 16 -> n <= round_up n < n + 16 /\ round_up n mod 16 = 0 /\ 16 <= round_up n < 2 ^ 64.
Proof.
  intros Hn Hlim. unfold round_up, HEAP_BYTE_ALIGN. destruct (Z.ltb_spec 0 (n mod 16)) as [H|H].
  - rewrite (wrap64_small (n - n mod 16)) by (unfold is_u64; dlia).
    rewrite wrap64_small by (unfold is_u64; dlia). split_and!; dlia.
  - split_and!; dlia.
Qed.

Lemma round_up_idem n : 16 <= n -> n mod 16 = 0 -> round_up n = n.
Proof. intros Hn Hm. unfold round_up, HEAP_BYTE_ALIGN. by rewrite Hm. Qed.

Section Malloc.
Context {P : Type} `{!PageProvider P}.

(** A served request, seen by the client. *)
Definition served (n : Z) (h : heap) (l : segs) (r : outcome (Z * (heap * P))) : Prop :=
  exists addr h' p' l', r = Done (addr, (h', p')) /\ heap_inv h' l' /\
    (exists U1 U2, blocks h l = U1 ++ U2 /\ blocks h' l' = U1 ++ (addr, n) :: U2).

Lemma malloc_found rounds n h l p :
  heap_inv h l -> 16 <= n -> n mod 16 = 0 -> is_Some (take_first n (sHeapStart h) l) ->
  served n h l (malloc (S rounds) n h p).
Proof.
  intros I Hn Hm [[addr l'] E]. pose proof (search_refines n h l (hi_rep _ _ I) Hn Hm) as H. rewrite E in H.
  destruct H as (h' & Es & R' & S').
  destruct (take_first_spec _ _ _ _ _ _ E (hi_coalesced _ _ I)) as (HU & Hc & He & _).
  exists addr, h', p, l'. split_and!.
  - cbn [malloc]. rewrite (proj2 (Z.eqb_neq n 0)), round_up_idem, Es by (done || lia). done.
  - split; [done|done|by rewrite S', (hi_start _ _ I)|].
    rewrite (rep_end _ _ R'), S', He, <- (rep_end _ _ (hi_rep _ _ I)). apply I.
  - unfold blocks. by rewrite S'.
Qed.

(** One round that finds nothing: the heap grows, the blocks stay. *)
Lemma malloc_grows rounds n h l p :
  heap_inv h l -> 16 <= n -> n mod 16 = 0 -> take_first n (sHeapStart h) l = None ->
  sHeapEnd h + growth n < 2 ^ 64 -> pp_ready p -> growth n / PAGE_SIZE <= pp_left p ->
  exists h' p', malloc (S rounds) n h p = malloc rounds n h' p' /\
    heap_inv h' (merge_last l (growth n - sizeof_header) []) /\
    blocks h' (merge_last l (growth n - sizeof_header) []) = blocks h l /\
    sHeapStart h' = sHeapStart h /\ sHeapEnd h' = sHeapEnd h + growth n /\
    pp_ready p' /\ pp_left p - growth n / PAGE_SIZE <= pp_left p'.
Proof.
  intros I Hn Hm E Hlim Hr Hav. pose proof (search_refines n h l (hi_rep _ _ I) Hn Hm) as H. rewrite E in H.
  pose proof (extent_nonneg l (rep_lengths _ _ (hi_rep _ _ I))).
  destruct (expand_heap_spec n h l p (hi_rep _ _ I)) as (h' & p' & Ee & R' & S' & E' & Hr' & Hl');
    [lia|rewrite (rep_end _ _ (hi_rep _ _ I)), (hi_start _ _ I); lia|apply I|done..|].
  exists h', p'. split_and!; [|split|..]; try done.
  - cbn [malloc]. rewrite (proj2 (Z.eqb_neq n 0)), round_up_idem, H by (done || lia).
    cbn [mbind outcome_bind]. by rewrite Ee.
  - apply merge_last_coalesced; [apply I|done].
  - by rewrite S', (hi_start _ _ I).
  - pose proof (hi_page _ _ I) as Hp. rewrite E'. unfold growth, PAGE_SIZE in *. dlia.
  - unfold blocks. rewrite merge_last_used, used_app, S'. cbn [used app]. by rewrite app_nil_r.
Qed.

Lemma served_trans n h l h' l' r : blocks h' l' = blocks h l -> served n h' l' r -> served n h l r.
Proof. intros E (a & h2 & p2 & l2 & -> & I & H). rewrite E in H. by exists a, h2, p2, l2. Qed.

(** Two expansions are always enough. *)
Lemma malloc_aligned rounds n h l p :
  heap_inv h l -> 16 <= n -> n mod 16 = 0 -> sHeapEnd h + 2 * growth n < 2 ^ 64 ->
  pp_ready p -> 2 * (growth n / PAGE_SIZE) <= pp_left p ->
  served n h l (malloc (S (S (S rounds))) n h p).
Proof.
  intros I Hn Hm Hlim Hr Hav.
  assert (Hg : n < growth n /\ 4096 <= growth n) by (unfold growth, PAGE_SIZE; split; dlia).
  assert (Hgp : 0 <= growth n / PAGE_SIZE) by (unfold PAGE_SIZE; dlia).
  destruct (take_first n (sHeapStart h) l) eqn:E1; [by apply malloc_found|].
  destruct (malloc_grows (S (S rounds)) n h l p I Hn Hm E1) as (h1 & p1 & -> & I1 & B1 & S1 & X1 & Hr1 & Hl1);
    [lia|done|lia|].
  apply (served_trans n h l _ _ _ B1).
  destruct (merge_last_grows l (growth n - sizeof_header) (rep_lengths _ _ (hi_rep _ _ I))) as (r & m & Er & Hmr).
  rewrite Er in *.
  destruct (take_first n (sHeapStart h1) (r ++ [(m, true)])) eqn:E2; [by apply malloc_found|].
  destruct (malloc_grows (S rounds) n h1 _ p1 I1 Hn Hm E2) as (h2 & p2 & -> & I2 & B2 & _);
    [lia|done|lia|]. rewrite merge_last_free in I2, B2.
  apply (served_trans n h1 _ _ _ _ B2), malloc_found; [done..|].
  apply (take_first_some _ _ _ (m + (growth n - sizeof_header) + sizeof_header)).
  - apply elem_of_app. right. by left.
  - unfold fits, sizeof_header, HEAP_BYTE_ALIGN in *. apply orb_true_iff. right. apply Z.leb_le. lia.
Qed.

Lemma malloc_round rounds n h p :
  0 < n -> n <= 2 ^ 64 - 16 -> malloc (S rounds) n h p = malloc (S rounds) (round_up n) h p.
Proof.
  intros Hn Hlim. destruct (round_up_spec n Hn Hlim) as (_ & Hm & Hb). cbn [malloc].
  rewrite (proj2 (Z.eqb_neq n 0)), (proj2 (Z.eqb_neq (round_up n) 0)) by lia.
  by rewrite (round_up_idem (round_up n)) by lia.
Qed.

End Malloc.

(** The layout of the blocks in use: they are aligned, follow each other with a
    header between them, and lie inside the heap. *)
Lemma used_layout a l :
  lengths_ok l -> a mod 16 = 0 ->
  Forall (fun '(p, n) => p mod 16 = 0 /\ a + sizeof_header <= p /\ p + n <= a + extent l /\ 16 <= n) (used a l) /\
  (forall U1 U2 U3 p n q m, used a l = U1 ++ (p, n) :: U2 ++ (q, m) :: U3 -> p + n + sizeof_header <= q).
Proof.
  intros Hl. revert a. induction Hl as [|[n b] l [Hn Hm] Hl IH]; intros a Ha; cbn [used extent].
  { split; [constructor|]. intros [] ? ? ? ? ? ? E; done. }
  unfold HEAP_BYTE_ALIGN in *. cbn [fst] in *. pose proof (extent_nonneg l Hl) as [Hx _].
  destruct (IH (a + sizeof_header + n)) as [IH1 IH2]; [unfold sizeof_header; dlia|]. unfold sizeof_header in *.
  split.
  - destruct b; cbn [app].
    + eapply Forall_impl; [exact IH1|]. intros [p k] (? & ? & ? & ?). split_and!; (done || lia).
    + constructor; [split_and!; (lia || dlia)|]. eapply Forall_impl; [exact IH1|].
      intros [p k] (? & ? & ? & ?). split_and!; (done || lia).
  - intros U1 U2 U3 p k q m E. destruct b; cbn [app] in E; [by eapply IH2|].
    destruct U1 as [|u U1]; cbn [app] in E.
    + injection E as <- <- Et. rewrite Et in IH1. apply Forall_app in IH1 as [_ IH1].
      apply Forall_cons in IH1 as [(_ & ? & _) _]. lia.
    + injection E as _ Et. by eapply IH2.
Qed.

(** ** [free] *)

Lemma used_split a l U1 p n U2 :
  used a l = U1 ++ (p, n) :: U2 ->
  exists l1 l2, l = l1 ++ (n, false) :: l2 /\ p = a + extent l1 + sizeof_header /\
    used a l1 = U1 /\ used (a + extent l1 + sizeof_header + n) l2 = U2.
Proof.
  revert a U1. induction l as [|[m b] l IH]; intros a U1 E; cbn [used] in E; [by destruct U1|].
  destruct b; cbn [app] in E.
  - destruct (IH _ _ E) as (l1 & l2 & -> & Hp & H1 & H2). exists ((m, true) :: l1), l2. cbn [used extent app].
    split_and!; [done|lia|done|]. by replace (a + (sizeof_header + m + extent l1)) with (a + sizeof_header + m + extent l1) by lia.
  - destruct U1 as [|u U1].
    + injection E as <- <- <-. exists [], l. cbn [used extent app]. rewrite !Z.add_0_r. done.
    + injection E as <- E. destruct (IH _ _ E) as (l1 & l2 & -> & Hp & H1 & H2).
      exists ((m, false) :: l1), l2. cbn [used extent app]. rewrite H1.
      split_and!; [done|lia|done|]. by replace (a + (sizeof_header + m + extent l1)) with (a + sizeof_header + m + extent l1) by lia.
Qed.

(** Heap addresses pass the test in [free]. *)
Lemma heap_address_mask a : HEAP_VIRTUAL_BASE <= a < 2 ^ 64 -> Z.land a HEAP_VIRTUAL_BASE = HEAP_VIRTUAL_BASE.
Proof.
  unfold HEAP_VIRTUAL_BASE. intros Ha.
  assert (Hd : Z.shiftr a 24 = Z.ones 40) by (rewrite Z.shiftr_div_pow2 by lia; change (Z.ones 40) with (2 ^ 40 - 1); dlia).
  change 0xffffffffff000000 with (Z.shiftl (Z.ones 40) 24). apply Z.bits_inj'. intros i Hi.
  rewrite Z.land_spec. destruct (Z.ltb_spec i 24).
  - rewrite Z.shiftl_spec_low by lia. apply andb_false_r.
  - rewrite Z.shiftl_spec by lia. rewrite <- Hd at 2. rewrite <- Hd, !Z.shiftr_spec by lia.
    replace (i - 24 + 24) with i by lia. apply andb_diag.
Qed.

Lemma merge_next_shape n l :
  exists n' l', merge_next n true l = (n', true) :: l' /\
    sizeof_header + n' + extent l' = sizeof_header + n + extent l /\
    (forall a, used (a + n') l' = used (a + n) l) /\
    (coalesced_from false l -> coalesced_from true l').
Proof.
  destruct l as [|[n2 []] l]; cbn [merge_next].
  - by exists n, [].
  - exists (n + n2 + sizeof_header), l. cbn [extent used app coalesced_from]. split_and!; [done|lia| |tauto].
    intros a. f_equal. lia.
  - by exists n, ((n2, false) :: l).
Qed.

Lemma free_spec h l U1 addr n U2 :
  heap_inv h l -> blocks h l = U1 ++ (addr, n) :: U2 ->
  exists h' l', free addr h = Done h' /\ heap_inv h' l' /\ blocks h' l' = U1 ++ U2 /\ sHeapEnd h' = sHeapEnd h.
Proof.
  intros I HU. unfold blocks in HU. destruct (used_split _ _ _ _ _ _ HU) as (l1 & l2 & -> & Hp & H1 & H2).
  pose proof (hi_rep _ _ I) as R. pose proof (hi_start _ _ I) as Hs.
  destruct (focus _ _ _ _ _ R) as (_ & Hpos & Hend & L1 & Ln & L2 & X1 & X2 & Hlim). unfold at_seg in Hend.
  unfold free. rewrite heap_address_mask by (unfold sizeof_header in *; lia). rewrite Z.eqb_refl. cbn [negb].
  replace (addr -64 sizeof_header) with (at_seg h l1)
    by (rewrite Hp, wrap64_small; unfold is_u64, at_seg, sizeof_header in *; lia).
  destruct (modify_free h l1 n false true l2 R) as (h1 & -> & R1 & S1 & _). cbn [mbind outcome_bind].
  replace (at_seg h l1) with (at_seg h1 l1) by (unfold at_seg; by rewrite S1).
  destruct (combine_forward_spec _ _ _ _ _ R1) as (h2 & -> & R2 & S2). cbn [mbind outcome_bind].
  replace (at_seg h1 l1) with (at_seg h2 l1) by (unfold at_seg; by rewrite S2).
  destruct (merge_next_shape n l2) as (n' & l' & Em & Hx & Hu & Hc). rewrite Em in R2.
  destruct (combine_backward_spec _ _ _ _ R2) as (h3 & -> & R3 & S3).
  assert (S : sHeapStart h3 = sHeapStart h) by congruence.
  assert (E : sHeapEnd h3 = sHeapEnd h).
  { rewrite (rep_end _ _ R3), (rep_end _ _ R), S. unfold merge_last.
    destruct l1 as [|[m b] r _] using rev_ind; [cbn -[Z.add sizeof_header]; lia|].
    rewrite reverse_snoc. destruct b; rewrite ?reverse_involutive, !extent_app; cbn [extent]; lia. }
  pose proof (hi_coalesced _ _ I) as HC. apply coalesced_app in HC as [HC1 HC2]. cbn [coalesced_from] in HC2.
  exists h3, (merge_last l1 n' l'). split_and!; [done| | |done].
  - split; [done| |by rewrite S|by rewrite E; apply I]. apply merge_last_coalesced; [done|]. apply Hc, HC2.
  - unfold blocks. rewrite merge_last_used, used_app, S, H1. cbn [used app]. by rewrite Hu, H2.
Qed.

(** ** Claims *)

Section Claims.
Context {P : Type} `{!PageProvider P}.

(** C7: a request for [n] bytes (no more than the word allows for rounding)
    finishes after at most two expansions of the heap, as long as they stay
    below the top of the address space and pages remain; the blocks handed out
    so far stay as they are and one block is added, of [n] bytes rounded up to
    16, at an aligned address inside the heap. *)
Theorem malloc_adds_one_block rounds n h l p :
  heap_inv h l -> (3 <= rounds)%nat -> 0 < n -> n <= 2 ^ 64 - 16 ->
  sHeapEnd h + 2 * growth (round_up n) < 2 ^ 64 ->
  pp_ready p -> 2 * (growth (round_up n) / PAGE_SIZE) <= pp_left p ->
  exists addr h' p' l', malloc rounds n h p = Done (addr, (h', p')) /\ heap_inv h' l' /\
    (exists U1 U2, blocks h l = U1 ++ U2 /\ blocks h' l' = U1 ++ (addr, round_up n) :: U2) /\
    addr mod 16 = 0 /\ sHeapStart h' <= addr /\ addr + n <= sHeapEnd h'.
Proof.
  intros I Hr Hn Hn' Hlim Hrd Hav. destruct (round_up_spec n Hn Hn') as (H1 & H2 & H3).
  do 3 (destruct rounds as [|rounds]; [lia|]). rewrite malloc_round by done.
  destruct (malloc_aligned rounds (round_up n) h l p) as (addr & h' & p' & l' & E & I' & U1 & U2 & HU & HU');
    [done|lia|done..|].
  exists addr, h', p', l'.
  pose proof (rep_align _ _ (hi_rep _ _ I')) as Ha. unfold HEAP_BYTE_ALIGN in Ha.
  destruct (used_layout _ _ (rep_lengths _ _ (hi_rep _ _ I')) Ha) as [HF _].
  unfold blocks in HU'. rewrite HU' in HF. apply Forall_app in HF as [_ HF]. apply Forall_cons in HF as [(A1 & A2 & A3 & _) _].
  rewrite <- (rep_end _ _ (hi_rep _ _ I')) in A3. unfold sizeof_header in A2.
  split_and!; [done|done|by exists U1, U2|done|lia|lia].
Qed.

End Claims.

(** C8: freeing a block that was handed out takes exactly that block from the
    blocks in use, and merges the free space around it: again no two
    neighbouring segments are free. *)
Theorem free_removes_one_block h l U1 addr n U2 :
  heap_inv h l -> blocks h l = U1 ++ (addr, n) :: U2 ->
  exists h' l', free addr h = Done h' /\ heap_inv h' l' /\ blocks h' l' = U1 ++ U2 /\ sHeapEnd h' = sHeapEnd h.
Proof. apply free_spec. Qed.

(** Blocks in use never overlap, and the header of a segment lies between any two
    of them; all of them lie inside the heap. *)
Lemma blocks_apart h l :
  heap_inv h l ->
  (forall U1 U2 U3 p n q m, blocks h l = U1 ++ (p, n) :: U2 ++ (q, m) :: U3 -> p + n + sizeof_header <= q) /\
  (forall p n, (p, n) ∈ blocks h l ->
     p mod 16 = 0 /\ sHeapStart h + sizeof_header <= p /\ p + n <= sHeapEnd h /\ 16 <= n).
Proof.
  intros I. pose proof (rep_align _ _ (hi_rep _ _ I)) as Ha. unfold HEAP_BYTE_ALIGN in Ha.
  destruct (used_layout _ _ (rep_lengths _ _ (hi_rep _ _ I)) Ha) as [HF HS]. split; [exact HS|].
  intros p n Hin. rewrite Forall_forall in HF. specialize (HF _ Hin). cbn in HF.
  by rewrite (rep_end _ _ (hi_rep _ _ I)).
Qed.

(** Two places of a list hold blocks that lie apart. *)
Lemma blocks_places h l i j p n q m :
  heap_inv h l -> blocks h l !! i = Some (p, n) -> blocks h l !! j = Some (q, m) -> i ≠ j ->
  p + n + sizeof_header <= q \/ q + m + sizeof_header <= p.
Proof.
  intros I. destruct (blocks_apart h l I) as [HS _].
  assert (G : forall i j x y, (i < j)%nat -> blocks h l !! i = Some x -> blocks h l !! j = Some y -> x.1 + x.2 + sizeof_header <= y.1).
  { intros i' j' [p' n'] [q' m'] Hlt Hi Hj. cbn. pose proof (take_drop_middle _ _ _ Hi) as E.
    assert (Hj' : drop (S i') (blocks h l) !! (j' - S i')%nat = Some (q', m')) by (rewrite lookup_drop; rewrite <- Hj; f_equal; lia).
    rewrite <- (take_drop_middle _ _ _ Hj') in E. by eapply (HS _ _ _ p' n' q' m'). }
  intros Hi Hj Hne. destruct (decide (i < j)%nat) as [Hlt|Hge]; [left; exact (G i j _ _ Hlt Hi Hj)|].
  right. exact (G j i _ _ ltac:(lia) Hj Hi).
Qed.

Section Histories.
Context {P : Type} `{!PageProvider P} (rounds : nat).
Hypothesis Hrounds : (3 <= rounds)%nat.

(** There is room for a request: two expansions stay below the top of the address
    space, and the pages for them can be had. *)
Definition room_for (n : Z) (h : heap) (p : P) : Prop :=
  0 < n /\ n <= 2 ^ 64 - 16 /\ sHeapEnd h + 2 * growth (round_up n) < 2 ^ 64 /\
  pp_ready p /\ 2 * (growth (round_up n) / PAGE_SIZE) <= pp_left p.

(** The heap after calls of the rest of the kernel; the list has the pointers that
    are held, each with the number of bytes that was asked for. *)
Inductive heap_uses : heap -> P -> list (Z * Z) -> Prop :=
| heap_uses_init p h p' : init_heap p = Done (h, p') -> heap_uses h p' []
| heap_uses_malloc h p H n a h' p' :
    heap_uses h p H -> room_for n h p -> malloc rounds n h p = Done (a, (h', p')) -> heap_uses h' p' ((a, n) :: H)
| heap_uses_free h p H1 a n H2 h' :
    heap_uses h p (H1 ++ (a, n) :: H2) -> free a h = Done h' -> heap_uses h' p (H1 ++ H2).

Definition rounded (b : Z * Z) : Z * Z := (b.1, round_up b.2).

Lemma init_heap_inv p h p' : init_heap p = Done (h, p') -> heap_inv h [(4064, true)].
Proof.
  unfold init_heap. destruct (provide_pages _ _ _ _ _) as [q|]; [|done]. cbn [mbind outcome_bind]. intros [= <- <-].
  split; [split|..]; try done. by repeat constructor.
Qed.

Lemma malloc_served n h l p :
  heap_inv h l -> room_for n h p -> served (round_up n) h l (malloc rounds n h p).
Proof.
  intros I (Hn & Hn' & Hlim & Hrd & Hav). destruct (round_up_spec n Hn Hn') as (H1 & H2 & H3).
  destruct rounds as [|[|[|r]]]; [lia..|]. rewrite malloc_round by done. apply malloc_aligned; (done || lia).
Qed.

(** Held pointers are the blocks of the heap. *)
Lemma heap_uses_spec h p H :
  heap_uses h p H -> Forall (fun b => 0 < b.2 <= 2 ^ 64 - 16) H /\ exists l, heap_inv h l /\ blocks h l ≡ₚ (rounded <$> H).
Proof.
  induction 1 as [p h p' E|h p H n a h' p' _ (HF & l & I & HB) Hroom E|h p H1 a n H2 h' _ (HF & l & I & HB) E].
  - split; [constructor|]. exists [(4064, true)]. split; [by eapply init_heap_inv|done].
  - destruct (malloc_served n h l p I Hroom) as (a' & h1 & p1 & l1 & E1 & I1 & U1 & U2 & HU & HU'). rewrite E in E1. injection E1 as <- <- <-.
    split; [constructor; [|done]; cbn; destruct Hroom as (? & ? & _); lia|].
    exists l1. split; [done|]. rewrite HU', fmap_cons, <- Permutation_middle. apply Permutation_skip. by rewrite <- HU.
  - assert (Hin : rounded (a, n) ∈ blocks h l) by (rewrite HB, fmap_app; apply elem_of_app; right; by left).
    apply list_elem_of_split in Hin as (U1 & U2 & HU). unfold rounded in HU. cbn [fst snd] in HU.
    destruct (free_spec h l U1 a (round_up n) U2 I HU) as (h1 & l1 & E1 & I1 & HU1 & _). rewrite E in E1. injection E1 as <-.
    split; [by apply Forall_app in HF as [? [_ ?]%Forall_cons]; apply Forall_app|].
    exists l1. split; [done|]. rewrite HU1. rewrite HU, !fmap_app, fmap_cons, <- !Permutation_middle in HB.
    rewrite fmap_app. unfold rounded at 1 in HB. cbn [fst snd] in HB. by apply (inj (cons _)) in HB.
Qed.

(** C9: However the kernel uses [malloc] and [free], from the heap [init_heap] makes
    and as long as there is room for what it asks: the blocks it holds are aligned
    to 16 bytes, lie in the heap, do not overlap and have a segment header between
    them; each can be freed, and the next request is served. *)
Theorem held_kernel_blocks_never_overlap h p H :
  heap_uses h p H ->
  (forall a n, (a, n) ∈ H -> a mod 16 = 0 /\ HEAP_VIRTUAL_BASE + sizeof_header <= a /\ a + n <= sHeapEnd h /\ exists h', free a h = Done h') /\
  (forall i j a n b k, H !! i = Some (a, n) -> H !! j = Some (b, k) -> i ≠ j -> a + n + sizeof_header <= b \/ b + k + sizeof_header <= a) /\
  (forall n, room_for n h p -> exists a h' p', malloc rounds n h p = Done (a, (h', p'))).
Proof.
  intros Hu. destruct (heap_uses_spec h p H Hu) as (HF & l & I & HB). destruct (blocks_apart h l I) as [_ Hin].
  assert (Hsz : forall a n, (a, n) ∈ H -> n <= round_up n).
  { intros a n Ha. rewrite Forall_forall in HF. specialize (HF _ Ha). cbn in HF. by apply (round_up_spec n); lia. }
  split_and!.
  - intros a n Ha. assert (Hb : (a, round_up n) ∈ blocks h l) by (rewrite HB; apply list_elem_of_fmap; by exists (a, n)).
    destruct (Hin _ _ Hb) as (A1 & A2 & A3 & _). rewrite (hi_start _ _ I) in A2. specialize (Hsz a n Ha).
    apply list_elem_of_split in Hb as (U1 & U2 & HU). destruct (free_spec h l U1 a _ U2 I HU) as (h' & l' & E & _).
    split_and!; [done|done|lia|by exists h'].
  - intros i j a n b k Hi Hj Hne. pose proof (Hsz a n (list_elem_of_lookup_2 _ _ _ Hi)). pose proof (Hsz b k (list_elem_of_lookup_2 _ _ _ Hj)).
    symmetry in HB. destruct (Permutation_inj (rounded <$> H) (blocks h l)) as [HP _]. destruct (HP HB) as (_ & f & Hf & Hfl).
    assert (Hi' : blocks h l !! f i = Some (a, round_up n)) by (rewrite <- Hfl, list_lookup_fmap, Hi; done).
    assert (Hj' : blocks h l !! f j = Some (b, round_up k)) by (rewrite <- Hfl, list_lookup_fmap, Hj; done).
    destruct (blocks_places h l (f i) (f j) _ _ _ _ I Hi' Hj') as [?|?]; [intros E; by apply Hne, (inj f)|lia|lia].
  - intros n Hroom. destruct (malloc_served n h l p I Hroom) as (a & h' & p' & _ & E & _). by exists a, h', p'.
Qed.

End Histories.

Section AlignedClaims.
Context {P : Type} `{!PageProvider P}.

(** [aligned_new] returns an address that is a multiple of the alignment,
    with [size] bytes of one freshly allocated block behind it and the block's
    own address in the word in front of it; [aligned_delete] of that address
    frees this very block, so the blocks in use are again those of before. *)
Theorem aligned_new_then_delete rounds size align h l words p :
  let n := size + align + 8 in
  heap_inv h l -> (3 <= rounds)%nat -> 0 < size -> 16 < align -> n <= 2 ^ 64 - 16 ->
  sHeapEnd h + 2 * growth (round_up n) < 2 ^ 64 ->
  pp_ready p -> 2 * (growth (round_up n) / PAGE_SIZE) <= pp_left p ->
  exists a h' words' p' l', aligned_new rounds size align h words p = Done (a, (h', words', p')) /\
    heap_inv h' l' /\ a mod align = 0 /\
    (exists U1 U2 block, blocks h l = U1 ++ U2 /\ blocks h' l' = U1 ++ (block, round_up n) :: U2 /\
       block + 8 <= a /\ a + size <= block + round_up n) /\
    exists h'' l'', aligned_delete a align h' words' = Done h'' /\ heap_inv h'' l'' /\ blocks h'' l'' = blocks h l.
Proof.
  intros n I Hr Hs Ha Hn Hlim Hrd Hav. destruct (round_up_spec n ltac:(lia) Hn) as (H1 & H2 & H3).
  do 3 (destruct rounds as [|rounds]; [lia|]).
  destruct (malloc_aligned rounds (round_up n) h l p) as (b & h' & p' & l' & E & I' & U1 & U2 & HU & HU');
    [done|lia|done..|]. rewrite <- malloc_round in E by lia.
  pose proof (rep_align _ _ (hi_rep _ _ I')) as Hal. unfold HEAP_BYTE_ALIGN in Hal.
  destruct (used_layout _ _ (rep_lengths _ _ (hi_rep _ _ I')) Hal) as [HF _].
  pose proof HU' as HB. unfold blocks in HB. rewrite HB in HF.
  apply Forall_app in HF as [_ HF]. apply Forall_cons in HF as [(A1 & A2 & A3 & _) _].
  rewrite <- (rep_end _ _ (hi_rep _ _ I')) in A3. pose proof (rep_limit _ _ (hi_rep _ _ I')) as Hl'.
  pose proof (hi_start _ _ I') as Hst. unfold sizeof_header, HEAP_VIRTUAL_BASE in *.
  pose proof (Z.mod_pos_bound (b + 8) align ltac:(lia)) as Hm.
  set (r := (align - (b + 8) mod align) mod align).
  assert (Hrr : 0 <= r < align) by (apply Z.mod_pos_bound; lia).
  unfold aligned_new. rewrite (proj2 (Z.leb_gt align HEAP_BYTE_ALIGN)) by (unfold HEAP_BYTE_ALIGN; lia).
  rewrite (wrap64_small (size + align)), (wrap64_small (size + align + 8)) by (unfold is_u64; lia).
  fold n. rewrite E. cbn [mbind outcome_bind].
  rewrite (wrap64_small (b + 8)) by (unfold is_u64; lia).
  rewrite (wrap64_small (align - (b + 8) mod align)) by (unfold is_u64; lia). fold r.
  rewrite (wrap64_small (b + 8 + r)), (wrap64_small (b + 8 + r - 8)) by (unfold is_u64; lia).
  eexists _, _, _, _, l'. split_and!; [done|done| |exists U1, U2, b; split_and!; (done || lia)|].
  - unfold r. rewrite Z.add_mod_idemp_r by lia.
    replace (b + 8 + (align - (b + 8) mod align)) with (align * ((b + 8) / align + 1))
      by (rewrite (Z.div_mod (b + 8) align) at 2; lia).
    rewrite Z.mul_comm. by apply Z.mod_mul; lia.
  - unfold aligned_delete. rewrite (proj2 (Z.leb_gt align HEAP_BYTE_ALIGN)) by (unfold HEAP_BYTE_ALIGN; lia).
    rewrite heap_address_mask by (unfold HEAP_VIRTUAL_BASE; lia). rewrite Z.eqb_refl. cbn [negb].
    rewrite (wrap64_small (b + 8 + r - 8)), lookup_insert_eq by (unfold is_u64; lia). cbn [deref mbind outcome_bind].
    destruct (free_spec h' l' U1 b (round_up n) U2 I' HU') as (h2 & l2 & E2 & I2 & B2 & _).
    exists h2, l2. split_and!; [done|done|by rewrite B2, HU].
Qed.

End AlignedClaims.

(** ** Concrete heaps *)

(** A provider that only counts the pages it may still hand out. *)
Record page_budget := mkBudget { pages_left : Z }.

Definition spend (va : Z) (p : page_budget) : outcome page_budget :=
  if 0 <? pages_left p then Done (mkBudget (pages_left p - 1)) else Stop Panicked.

Lemma spend_ok va p :
  True -> HEAP_VIRTUAL_BASE <= va < 2 ^ 64 -> va mod PAGE_SIZE = 0 -> 1 <= pages_left p ->
  exists p', spend va p = Done p' /\ True /\ pages_left p - 1 <= pages_left p'.
Proof.
  intros _ _ _ H. unfold spend. exists (mkBudget (pages_left p - 1)).
  rewrite (proj2 (Z.ltb_lt _ _)) by lia. split_and!; (done || cbn; lia).
Qed.

#[export] Instance budget_provider : PageProvider page_budget := {
  pp_map_first := spend;
  pp_map_page := spend;
  pp_left := pages_left;
  pp_ready := fun _ => True;
  pp_map_page_ok := spend_ok
}.

Definition first_heap : heap :=
  mkHeap {[ HEAP_VIRTUAL_BASE := mkHeader 0 0 4064 true ]} HEAP_VIRTUAL_BASE (HEAP_VIRTUAL_BASE + 4096) HEAP_VIRTUAL_BASE.

Lemma init_heap_first n : 0 < n -> init_heap (mkBudget n) = Done (first_heap, mkBudget (n - 1)).
Proof.
  intros Hn. unfold init_heap. change (Z.to_nat HEAP_INITIAL_PAGES) with 1%nat.
  cbn [provide_pages pp_map_first budget_provider]. unfold spend. cbn [pages_left].
  rewrite (proj2 (Z.ltb_lt 0 n)) by lia. reflexivity.
Qed.

Lemma first_heap_inv : heap_inv first_heap [(4064, true)].
Proof. split; [split|..]; try done. by repeat constructor. Qed.

Lemma malloc_adds_one_block_witness :
  exists addr h' p' l', malloc 3 5000 first_heap (mkBudget 10) = Done (addr, (h', p')) /\ heap_inv h' l' /\
    (exists U1 U2, blocks first_heap [(4064, true)] = U1 ++ U2 /\ blocks h' l' = U1 ++ (addr, round_up 5000) :: U2) /\
    addr mod 16 = 0 /\ sHeapStart h' <= addr /\ addr + 5000 <= sHeapEnd h'.
Proof.
  apply (malloc_adds_one_block 3 5000 first_heap [(4064, true)] (mkBudget 10));
    [apply first_heap_inv|lia|lia|lia|vm_compute; reflexivity|exact I|vm_compute; discriminate].
Defined.

(** The first heap with its first 16 bytes handed out. *)
Definition one_block : heap :=
  mkHeap {[ HEAP_VIRTUAL_BASE := mkHeader 0 (HEAP_VIRTUAL_BASE + 48) 16 false;
            HEAP_VIRTUAL_BASE + 48 := mkHeader HEAP_VIRTUAL_BASE 0 4016 true ]}
    HEAP_VIRTUAL_BASE (HEAP_VIRTUAL_BASE + 4096) (HEAP_VIRTUAL_BASE + 48).

Lemma one_block_inv : heap_inv one_block [(16, false); (4016, true)].
Proof. split; [split|..]; try done. by repeat constructor. Qed.

Lemma free_removes_one_block_witness :
  exists h' l', free (HEAP_VIRTUAL_BASE + 32) one_block = Done h' /\ heap_inv h' l' /\
    blocks h' l' = [] ++ [] /\ sHeapEnd h' = sHeapEnd one_block.
Proof.
  apply (free_removes_one_block one_block [(16, false); (4016, true)] [] (HEAP_VIRTUAL_BASE + 32) 16 []);
    [apply one_block_inv|reflexivity].
Defined.

(** Ten pages: the first for the heap, then a block of 16 bytes and one of 5000. *)
Lemma held_kernel_blocks_never_overlap_witness :
  exists a1 h1 p1 a2 h2 p2, malloc 3 16 first_heap (mkBudget 9) = Done (a1, (h1, p1)) /\ malloc 3 5000 h1 p1 = Done (a2, (h2, p2)) /\
    (a2 + 5000 + sizeof_header <= a1 \/ a1 + 16 + sizeof_header <= a2) /\ exists h3, free a1 h2 = Done h3.
Proof.
  assert (U0 : heap_uses 3 first_heap (mkBudget 9) []) by (apply (heap_uses_init 3 (mkBudget 10)), (init_heap_first 10); lia).
  assert (R1 : room_for 16 first_heap (mkBudget 9)) by (split_and!; [lia|lia|vm_compute; reflexivity|exact I|vm_compute; discriminate]).
  destruct (malloc 3 16 first_heap (mkBudget 9)) as [[a1 [h1 p1]]|] eqn:E1; [|vm_compute in E1; discriminate E1].
  pose proof (heap_uses_malloc 3 _ _ _ _ _ _ _ U0 R1 E1) as U1.
  assert (R2 : room_for 5000 h1 p1).
  { vm_compute in E1. injection E1 as _ <- <-. split_and!; [lia|lia|vm_compute; reflexivity|exact I|vm_compute; discriminate]. }
  destruct (malloc 3 5000 h1 p1) as [[a2 [h2 p2]]|] eqn:E2.
  2:{ exfalso. vm_compute in E1. injection E1 as _ <- <-. vm_compute in E2. discriminate E2. }
  pose proof (heap_uses_malloc 3 _ _ _ _ _ _ _ U1 R2 E2) as U2.
  destruct (held_kernel_blocks_never_overlap 3 ltac:(lia) h2 p2 _ U2) as (Hin & Hap & _).
  exists a1, h1, p1, a2, h2, p2. split_and!; [reflexivity|exact E2|apply (Hap 0%nat 1%nat a2 5000 a1 16); [reflexivity|reflexivity|lia]|].
  apply (Hin a1 16). right. left.
Defined.

Lemma aligned_new_then_delete_witness :
  let n := 100 + 64 + 8 in
  exists a h' words' p' l', aligned_new 3 100 64 one_block ∅ (mkBudget 10) = Done (a, (h', words', p')) /\
    heap_inv h' l' /\ a mod 64 = 0 /\
    (exists U1 U2 block, blocks one_block [(16, false); (4016, true)] = U1 ++ U2 /\
       blocks h' l' = U1 ++ (block, round_up n) :: U2 /\ block + 8 <= a /\ a + 100 <= block + round_up n) /\
    exists h'' l'', aligned_delete a 64 h' words' = Done h'' /\ heap_inv h'' l'' /\
      blocks h'' l'' = blocks one_block [(16, false); (4016, true)].
Proof.
  apply (aligned_new_then_delete 3 100 64 one_block [(16, false); (4016, true)] ∅ (mkBudget 10));
    [apply one_block_inv|lia|lia|lia|lia|vm_compute; reflexivity|exact I|vm_compute; discriminate].
Defined.

(** A heap that has grown to one page below the top of the address space, its
    last segment in use. *)
Definition tall_heap : heap :=
  mkHeap {[ HEAP_VIRTUAL_BASE := mkHeader 0 0 (2 ^ 24 - 4096 - 32) false ]}
    HEAP_VIRTUAL_BASE (2 ^ 64 - 4096) HEAP_VIRTUAL_BASE.

(** The heap begins 16 MiB below the top of the address space and nothing
    checks its end: the expansion that reaches the top leaves [sHeapEnd] at
    address zero, and the one after it puts a segment header at the null
    address, so the segment before it still looks like the last one. *)
Theorem heap_wraps_to_null :
  match expand_heap 100 tall_heap (mkBudget 10) with
  | Done (h1, p1) =>
      sHeapEnd h1 = 0 /\
      match expand_heap 100 h1 p1 with
      | Done (h2, _) => is_Some (headers h2 !! 0) /\ sLastHeader h2 = 0 /\
          next <$> (headers h2 !! (2 ^ 64 - 4096)) = Some 0
      | Stop _ => False
      end
  | Stop _ => False
  end.
Proof. vm_compute. split_and!; try reflexivity. by eexists. Qed.

End KHeap.
