(* ===== verification/Algorithm.v ===== *)
(** * Algorithms on ranges

    Models src/std/include/algorithm and [swap] of src/std/include/utility,
    which the containers and the streams use.  An iterator is an index into
    the array [arr] it points into, one past the end included; reading or
    writing outside the array is undefined.  [left x] is what a move leaves
    behind where [x] was.  [copy_if], [copy_n], [generate_n] and the second
    [transform] name things that do not exist and cannot be instantiated. *)

From stdpp Require Import sorting.
From S2P Require Import Prelude.

Module Algo.

(** The rest of the arguments of the variadic functions is a list. *)
Fixpoint min (a b : Z) (ints : list Z) : Z :=
  match ints with
  | [] => if a <? b then a else b
  | c :: ints => min (if a <? b then a else b) c ints
  end.

Fixpoint max (a b : Z) (ints : list Z) : Z :=
  match ints with
  | [] => if a <? b then a else b
  | c :: ints => max (if a <? b then a else b) c ints
  end.

Lemma max_is_min a b ints : max a b ints = min a b ints.
Proof. revert a b. induction ints as [|c ints IH]; intros a b; [done|apply IH]. Qed.

Section Ranges.
Local Open Scope nat_scope.
Context {T : Type} (left : T -> T).

(** A predicate may look at the array, as that of [sort] does. *)
Definition predicate := list T -> T -> outcome bool.
Definition pure (q : T -> bool) : predicate := fun _ x => Done (q x).

Definition load (i : nat) (arr : list T) : outcome T := deref (arr !! i).
Definition store (i : nat) (x : T) (arr : list T) : outcome (list T) :=
  if decide (i < length arr) then Done (<[i := x]> arr) else Stop Undefined.
Definition take_out (i : nat) (arr : list T) : outcome (T * list T) :=
  x ← load i arr; Done (x, <[i := left x]> arr).

(** Every loop below moves an iterator forward and reads through it, so that it
    has left the array after as many rounds as there are elements. *)
Definition rounds (arr : list T) : nat := S (length arr).

Fixpoint find_if_loop (fuel first last : nat) (p : predicate) (want : bool) (arr : list T) : outcome nat :=
  match fuel with
  | O => Stop Hung
  | S fuel =>
      if decide (first = last) then Done first
      else
        x ← load first arr;
        c ← p arr x;
        if Bool.eqb c want then Done first else find_if_loop fuel (first + 1) last p want arr
  end.

Definition find_if (first last : nat) (p : predicate) (arr : list T) : outcome nat :=
  find_if_loop (rounds arr) first last p true arr.
Definition find_if_not (first last : nat) (p : predicate) (arr : list T) : outcome nat :=
  find_if_loop (rounds arr) first last p false arr.
Definition find (eqb : T -> T -> bool) (first last : nat) (element : T) (arr : list T) : outcome nat :=
  find_if first last (pure (fun e => eqb e element)) arr.

(** [it] has just been incremented. *)
Fixpoint remove_loop (fuel first it last : nat) (p : predicate) (arr : list T) : outcome (nat * list T) :=
  match fuel with
  | O => Stop Hung
  | S fuel =>
      if decide (it = last) then Done (first, arr)
      else
        x ← load it arr;
        c ← p arr x;
        if negb c then
          '(x, arr) ← take_out it arr;
          arr ← store first x arr;
          remove_loop fuel (first + 1) (it + 1) last p arr
        else remove_loop fuel first (it + 1) last p arr
  end.

Definition remove_if (first last : nat) (p : predicate) (arr : list T) : outcome (nat * list T) :=
  first ← find_if first last p arr;
  if decide (first ≠ last) then remove_loop (rounds arr) first (first + 1) last p arr
  else Done (first, arr).

Definition remove (eqb : T -> T -> bool) (first last : nat) (value : T) (arr : list T) : outcome (nat * list T) :=
  first ← find eqb first last value arr;
  if decide (first ≠ last) then remove_loop (rounds arr) first (first + 1) last (pure (fun e => eqb e value)) arr
  else Done (first, arr).

(** [swap] of [<utility>], of the elements two iterators point to. *)
Definition iter_swap (a b : nat) (arr : list T) : outcome (list T) :=
  '(c, arr) ← take_out a arr;
  '(x, arr) ← take_out b arr;
  arr ← store a x arr;
  store b c arr.

Fixpoint partition_loop (fuel first it last : nat) (p : predicate) (arr : list T) : outcome (nat * list T) :=
  match fuel with
  | O => Stop Hung
  | S fuel =>
      if decide (it = last) then Done (first, arr)
      else
        x ← load it arr;
        c ← p arr x;
        if (c : bool) then
          arr ← iter_swap it first arr;
          partition_loop fuel (first + 1) (it + 1) last p arr
        else partition_loop fuel first (it + 1) last p arr
  end.

Definition partition (first last : nat) (p : predicate) (arr : list T) : outcome (nat * list T) :=
  first ← find_if_not first last p arr;
  if decide (first = last) then Done (first, arr)
  else partition_loop (rounds arr) first (first + 1) last p arr.

(** [fuel] bounds the depth of the recursion. *)
Fixpoint sort (ltb : T -> T -> bool) (fuel first last : nat) (arr : list T) : outcome (list T) :=
  match fuel with
  | O => Stop Hung
  | S fuel =>
      if decide (last <= first) then Done arr
      else
        let back := last - 1 in
        '(pivot, arr) ← partition first last (fun arr i => b ← load back arr; Done (ltb i b)) arr;
        arr ← iter_swap pivot back arr;
        arr ← sort ltb fuel first pivot arr;
        sort ltb fuel (pivot + 1) last arr
  end.

(** [--end] in front of the array is undefined. *)
Fixpoint reverse_loop (fuel first last : nat) (arr : list T) : outcome (list T) :=
  match fuel with
  | O => Stop Hung
  | S fuel =>
      if decide (first = last) then Done arr
      else
        match last with
        | O => Stop Undefined
        | S last => arr ← iter_swap first last arr; reverse_loop fuel (first + 1) last arr
        end
  end.

Definition reverse (first last : nat) (arr : list T) : outcome (list T) :=
  reverse_loop (rounds arr) first last arr.

(** Whether some element of the range gives the answer [want]. *)
Fixpoint some_loop (fuel first last : nat) (p : predicate) (want : bool) (arr : list T) : outcome bool :=
  match fuel with
  | O => Stop Hung
  | S fuel =>
      if decide (first = last) then Done false
      else
        x ← load first arr;
        c ← p arr x;
        if Bool.eqb c want then Done true else some_loop fuel (first + 1) last p want arr
  end.

Definition all_of (first last : nat) (p : predicate) (arr : list T) : outcome bool :=
  b ← some_loop (rounds arr) first last p false arr; Done (negb b).
Definition any_of (first last : nat) (p : predicate) (arr : list T) : outcome bool :=
  some_loop (rounds arr) first last p true arr.
Definition none_of (first last : nat) (p : predicate) (arr : list T) : outcome bool :=
  b ← some_loop (rounds arr) first last p true arr; Done (negb b).

(** The condition of the loop is [__first == __last]. *)
Definition for_each {S} (first last : nat) (f : T -> S -> S) (arr : list T) (s : S) : outcome S :=
  if decide (first = last) then x ← load first arr; Done (f x s) else Done s.

Fixpoint for_each_n {S} (first n : nat) (f : T -> S -> S) (arr : list T) (s : S) : outcome (nat * S) :=
  match n with
  | O => Done (first, s)
  | Datatypes.S n => x ← load first arr; for_each_n (first + 1) n f arr (f x s)
  end.

(** [for (; first != last; ++first)], threading a state. *)
Fixpoint for_range {S} (fuel first last : nat) (body : nat -> S -> outcome S) (s : S) : outcome S :=
  match fuel with
  | O => Stop Hung
  | Datatypes.S fuel =>
      if decide (first = last) then Done s else body first s ≫= for_range fuel (first + 1) last body
  end.

Definition count_if (first last : nat) (q : T -> bool) (arr : list T) : outcome Z :=
  for_range (rounds arr) first last (fun i out => x ← load i arr; Done (if q x then (out + 1)%Z else out)) 0%Z.
Definition count (eqb : T -> T -> bool) (first last : nat) (value : T) (arr : list T) : outcome Z :=
  count_if first last (fun x => eqb x value) arr.

(** Both ranges are in [arr]; the state is the destination and the array. *)
Definition transform (f : T -> T) (first last destination : nat) (arr : list T) : outcome (nat * list T) :=
  for_range (rounds arr) first last
    (fun i '(d, arr) => x ← load i arr; arr ← store d (f x) arr; Done (d + 1, arr)) (destination, arr).
Definition copy (first last destination : nat) (arr : list T) : outcome (nat * list T) :=
  transform id first last destination arr.
Definition move_range (first last destination : nat) (arr : list T) : outcome (nat * list T) :=
  for_range (rounds arr) first last
    (fun i '(d, arr) => '(x, arr) ← take_out i arr; arr ← store d x arr; Done (d + 1, arr)) (destination, arr).

Definition generate {S} (generator : S -> T * S) (first last : nat) (arr : list T) (s : S) : outcome (list T * S) :=
  for_range (rounds arr) first last
    (fun i '(arr, s) => let '(x, s) := generator s in arr ← store i x arr; Done (arr, s)) (arr, s).

Definition replace_if (first last : nat) (q : T -> bool) (new_value : T) (arr : list T) : outcome (list T) :=
  for_range (rounds arr) first last
    (fun i arr => x ← load i arr; if q x then store i new_value arr else Done arr) arr.
Definition replace (eqb : T -> T -> bool) (first last : nat) (old_value new_value : T) (arr : list T) : outcome (list T) :=
  replace_if first last (fun x => eqb x old_value) new_value arr.

Definition swap_ranges (first1 last1 first2 : nat) (arr : list T) : outcome (nat * list T) :=
  for_range (rounds arr) first1 last1
    (fun i '(j, arr) => arr ← iter_swap i j arr; Done (j + 1, arr)) (first2, arr).

(** [while (n--)] with a negative [n] takes the iterator out of any array. *)
Definition shift_left (first last : nat) (n : Z) (arr : list T) : outcome (nat * list T) :=
  if negb (n =? 0)%Z && (n <? Z.of_nat last - Z.of_nat first)%Z then
    if (n <? 0)%Z then Stop Undefined
    else
      '(_, arr) ← for_range (rounds arr) first last
                    (fun i '(it, arr) => '(x, arr) ← take_out it arr; arr ← store i x arr; Done (it + 1, arr))
                    (first + Z.to_nat n, arr);
      Done (last, arr)
  else Done (first, arr).

(** ** Arrays in pieces *)

Lemma load_app pre x post i : i = length pre -> load i (pre ++ x :: post) = Done x.
Proof. intros ->. unfold load. by rewrite list_lookup_middle. Qed.

Lemma store_app pre x y post i : i = length pre -> store i y (pre ++ x :: post) = Done (pre ++ y :: post).
Proof.
  intros ->. unfold store. rewrite decide_True by (rewrite length_app; cbn; lia).
  by rewrite insert_app_r_alt, Nat.sub_diag by lia.
Qed.

Lemma take_out_app pre x post i : i = length pre -> take_out i (pre ++ x :: post) = Done (x, pre ++ left x :: post).
Proof.
  intros ->. unfold take_out. rewrite load_app by done. cbn [mbind outcome_bind].
  by rewrite insert_app_r_alt, Nat.sub_diag by lia.
Qed.

Lemma iter_swap_spec a b x y arr :
  arr !! a = Some x -> arr !! b = Some y -> iter_swap a b arr = Done (<[a := y]> (<[b := x]> arr)).
Proof.
  intros Ha Hb. pose proof (lookup_lt_Some _ _ _ Ha). pose proof (lookup_lt_Some _ _ _ Hb).
  unfold iter_swap, take_out, load, store. rewrite Ha. cbn [deref mbind outcome_bind].
  destruct (decide (a = b)) as [->|Hne].
  - rewrite list_lookup_insert_eq by done. cbn [deref mbind outcome_bind]. rewrite !length_insert, decide_True by done.
    cbn [mbind outcome_bind]. rewrite !length_insert, decide_True by done.
    rewrite !list_insert_insert_eq. congruence.
  - rewrite list_lookup_insert_ne, Hb by done. cbn [deref mbind outcome_bind]. rewrite !length_insert, decide_True by done.
    cbn [mbind outcome_bind]. rewrite !length_insert, decide_True by done. f_equal.
    rewrite (list_insert_insert_ne _ b a), list_insert_insert_eq by done.
    rewrite (list_insert_insert_ne _ a b), list_insert_insert_eq by done. by rewrite (list_insert_insert_ne _ b a).
Qed.

Lemma swap_apart pre x mid y post a b :
  a = length pre -> b = length pre + S (length mid) ->
  iter_swap a b (pre ++ x :: mid ++ y :: post) = Done (pre ++ y :: mid ++ x :: post) /\
  iter_swap b a (pre ++ x :: mid ++ y :: post) = Done (pre ++ y :: mid ++ x :: post).
Proof.
  intros Ea Eb. set (arr := pre ++ x :: mid ++ y :: post).
  assert (Ha : arr !! a = Some x) by (subst; apply list_lookup_middle; done).
  assert (Earr : arr = (pre ++ x :: mid) ++ y :: post) by (unfold arr; by rewrite <- app_assoc).
  assert (Hb : arr !! b = Some y) by (rewrite Earr; apply list_lookup_middle; rewrite length_app; done).
  assert (E : <[a := y]> (<[b := x]> arr) = pre ++ y :: mid ++ x :: post).
  { rewrite Earr, insert_app_r_alt by (rewrite length_app; cbn; lia).
    replace (b - length (pre ++ x :: mid)) with 0 by (rewrite length_app; cbn; lia). cbn [insert list_insert].
    rewrite <- app_assoc, insert_app_r_alt by lia. replace (a - length pre) with 0 by lia. done. }
  rewrite (iter_swap_spec a b x y), (iter_swap_spec b a y x) by done. rewrite (list_insert_insert_ne _ b a), E by lia. done.
Qed.

(** ** Searching *)

(** The loop goes past the elements that do not have the answer it looks for. *)
Lemma find_if_loop_spec (p : predicate) q want rest post : forall a fuel pre arr first last,
  arr = pre ++ a ++ rest ++ post -> first = length pre -> last = first + length a + length rest ->
  length a < fuel -> (forall x, p arr x = Done (q x)) ->
  Forall (fun x => q x = negb want) a -> match rest with [] => True | x :: _ => q x = want end ->
  find_if_loop fuel first last p want arr = Done (first + length a).
Proof.
  induction a as [|x a IH]; intros fuel pre arr first last Earr Ef El Hf Hp Ha Hr; cbn in *;
    (destruct fuel as [|fuel]; [lia|]); cbn [find_if_loop].
  - case_decide as Hd; [by rewrite Nat.add_0_r|]. destruct rest as [|x rest]; [cbn in *; lia|].
    rewrite Earr at 1. cbn [app]. rewrite load_app by done. cbn [mbind outcome_bind]. rewrite Hp, Hr. cbn [mbind outcome_bind].
    rewrite Bool.eqb_reflx. by rewrite Nat.add_0_r.
  - rewrite decide_False by lia. rewrite Earr at 1. rewrite load_app by done. cbn [mbind outcome_bind].
    apply Forall_cons in Ha as [Hx Ha]. rewrite Hp, Hx. cbn [mbind outcome_bind].
    replace (Bool.eqb (negb want) want) with false by (by destruct want).
    rewrite (IH fuel (pre ++ [x]) arr (first + 1) last); rewrite ?length_app; cbn; try done; try lia; [f_equal; lia|].
    by rewrite Earr, <- app_assoc.
Qed.

Lemma split_at_first (q : T -> bool) want : forall mid, exists a rest,
  mid = a ++ rest /\ Forall (fun x => q x = negb want) a /\ match rest with [] => True | x :: _ => q x = want end.
Proof.
  induction mid as [|x mid (a & rest & -> & Ha & Hr)]; [by exists [], []|].
  destruct (decide (q x = want)) as [Hx|Hx].
  - exists [], (x :: a ++ rest). by split_and!.
  - exists (x :: a), rest. split_and!; [done| |done]. constructor; [|done]. by destruct (q x), want.
Qed.

(** ** Removing *)

(** [kept] holds what the loop has kept, [junk] the places it has freed. *)
Lemma remove_if_loop_spec q post : forall mid fuel kept junk arr first it last,
  arr = kept ++ junk ++ mid ++ post -> first = length kept -> it = first + length junk -> last = it + length mid ->
  0 < length junk -> length mid < fuel ->
  exists junk', remove_loop fuel first it last (pure q) arr =
    Done (first + length (filter (fun x => q x = false) mid), kept ++ filter (fun x => q x = false) mid ++ junk' ++ post) /\
  length junk + length mid = length (filter (fun x => q x = false) mid) + length junk'.
Proof.
  induction mid as [|x mid IH]; intros fuel kept junk arr first it last -> Ef Ei El Hj Hf;
    (destruct fuel as [|fuel]; [cbn in *; lia|]); cbn [remove_loop length] in *.
  - rewrite decide_True by lia. exists junk. rewrite Nat.add_0_r. done.
  - rewrite decide_False by lia. rewrite app_assoc. cbn [app].
    rewrite load_app by (rewrite length_app; lia). cbn [mbind outcome_bind pure].
    destruct (q x) eqn:Hx; cbn [negb].
    + edestruct (IH fuel kept (junk ++ [x])) as (junk' & -> & Hl); rewrite ?length_app; cbn [length]; try done; try lia.
      { by rewrite <- !app_assoc. }
      exists junk'. rewrite filter_cons_False by congruence. rewrite length_app in Hl. cbn in Hl. split; [done|lia].
    + rewrite take_out_app by (rewrite length_app; lia). cbn [mbind outcome_bind].
      destruct junk as [|j junk]; [cbn in Hj; lia|]. rewrite <- app_assoc. cbn [app].
      rewrite store_app by done. cbn [mbind outcome_bind].
      edestruct (IH fuel (kept ++ [x]) (junk ++ [left x])) as (junk' & -> & Hl); rewrite ?length_app; cbn [length] in *; try done; try lia.
      { by rewrite <- !app_assoc. }
      exists junk'. rewrite filter_cons_True by done. rewrite length_app in Hl. cbn in Hl. split; [|cbn; lia].
      rewrite <- app_assoc. cbn. do 2 f_equal. lia.
Qed.

Lemma filter_all (q : T -> bool) l : Forall (fun x => q x = false) l -> filter (fun x => q x = false) l = l.
Proof. induction 1 as [|x l Hx Hl IH]; [done|]. by rewrite filter_cons_True, IH. Qed.

(** [remove_if] brings what it keeps to the front, in order, and returns where
    it ends. *)
Lemma remove_if_spec q pre mid post first last :
  first = length pre -> last = first + length mid ->
  exists junk, remove_if first last (pure q) (pre ++ mid ++ post) =
    Done (first + length (filter (fun x => q x = false) mid), pre ++ filter (fun x => q x = false) mid ++ junk ++ post) /\
  length mid = length (filter (fun x => q x = false) mid) + length junk.
Proof.
  intros Ef El. destruct (split_at_first q true mid) as (a & rest & -> & Ha & Hr). unfold remove_if, find_if.
  rewrite (find_if_loop_spec (pure q) q true rest post a _ pre); try done;
    [|by rewrite <- app_assoc|rewrite length_app in El; lia|unfold rounds; rewrite !length_app; lia].
  cbn [mbind outcome_bind]. rewrite filter_app, (filter_all q a) by done. destruct rest as [|x rest].
  - rewrite app_nil_r in *. rewrite decide_False by lia.
    exists []. change (filter (fun x => q x = false) []) with (@nil T). rewrite app_nil_r. split; [done|cbn; lia].
  - rewrite decide_True by (rewrite length_app in El; cbn in El; lia).
    edestruct (remove_if_loop_spec q post rest (rounds (pre ++ (a ++ x :: rest) ++ post)) (pre ++ a) [x]) as (junk & -> & Hl);
      rewrite ?length_app in *; cbn [length] in *; try done; try lia; [by rewrite <- !app_assoc|unfold rounds; rewrite !length_app; cbn; lia|].
    exists junk. rewrite filter_cons_False by congruence. rewrite <- !app_assoc. split; [do 2 f_equal; lia|lia].
Qed.

(** [remove] is [remove_if] with a comparison. *)
Lemma remove_is_remove_if eqb first last value arr :
  remove eqb first last value arr = remove_if first last (pure (fun e => eqb e value)) arr.
Proof. done. Qed.

(** ** Sorting *)

(** Elements that do not pass stay where they are. *)
Lemma partition_loop_skip (p : predicate) q first last arr post : (forall x, p arr x = Done (q x)) ->
  forall ys fuel it pre,
  arr = pre ++ ys ++ post -> it = length pre -> last = it + length ys -> length ys < fuel ->
  Forall (fun x => q x = false) ys -> partition_loop fuel first it last p arr = Done (first, arr).
Proof.
  intros Hp. induction ys as [|y ys IH]; intros fuel it pre Earr Ei El Hf Hy;
    (destruct fuel as [|fuel]; [cbn in *; lia|]); cbn [partition_loop length] in *.
  - by rewrite decide_True by lia.
  - rewrite decide_False by lia. apply Forall_cons in Hy as [Hy Hys].
    replace (load it arr) with (@Done T y) by (rewrite Earr; symmetry; by apply load_app).
    cbn [mbind outcome_bind]. rewrite Hp, Hy. cbn [mbind outcome_bind].
    apply (IH fuel _ (pre ++ [y])); rewrite ?length_app; cbn; [by rewrite <- app_assoc|lia|lia|lia|done].
Qed.

(** [low] has passed the predicate and [high] has not; the elements of [fixed],
    at the end of the range, do not pass. *)
Lemma partition_loop_spec (p : predicate) q pre fixed post n : Forall (fun x => q x = false) fixed ->
  (forall m x, length m = n -> p (pre ++ m ++ fixed ++ post) x = Done (q x)) ->
  forall mid fuel low high first it last,
  length low + length high + length mid = n -> first = length pre + length low -> it = first + length high ->
  last = it + length mid + length fixed -> 0 < length high -> length mid + length fixed < fuel ->
  Forall (fun x => q x = true) low -> Forall (fun x => q x = false) high ->
  exists low' high', partition_loop fuel first it last p (pre ++ (low ++ high ++ mid) ++ fixed ++ post) =
    Done (length pre + length low', pre ++ (low' ++ high') ++ fixed ++ post) /\
  Forall (fun x => q x = true) low' /\ Forall (fun x => q x = false) high' /\ low' ++ high' ≡ₚ low ++ high ++ mid.
Proof.
  intros Hx Hp. induction mid as [|x mid IH]; intros fuel low high first it last Hn Ef Ei El Hh Hf Hlow Hhigh; cbn [length] in *.
  - rewrite app_nil_r. exists low, high. split_and!; try done. rewrite Ef in *.
    apply (partition_loop_skip p q _ _ _ post) with (ys := fixed) (pre := pre ++ low ++ high); try done; try lia.
    + intros y. apply Hp. rewrite length_app. lia.
    + by rewrite <- !app_assoc.
    + rewrite !length_app. lia.
  - destruct fuel as [|fuel]; [lia|]. cbn [partition_loop]. rewrite decide_False by lia.
    assert (Hload : load it (pre ++ (low ++ high ++ x :: mid) ++ fixed ++ post) = Done x).
    { replace (pre ++ (low ++ high ++ x :: mid) ++ fixed ++ post) with ((pre ++ low ++ high) ++ x :: mid ++ fixed ++ post) by (by rewrite <- !app_assoc).
      apply load_app. rewrite !length_app. lia. }
    rewrite Hload. cbn [mbind outcome_bind]. rewrite Hp by (rewrite !length_app; cbn; lia). cbn [mbind outcome_bind].
    destruct (q x) eqn:Hq.
    + destruct high as [|h high]; [cbn in Hh; lia|]. apply Forall_cons in Hhigh as [Hqh Hhigh].
      replace (pre ++ (low ++ (h :: high) ++ x :: mid) ++ fixed ++ post) with ((pre ++ low) ++ h :: high ++ x :: mid ++ fixed ++ post) by (repeat (rewrite <- app_assoc; cbn); done).
      rewrite (proj2 (swap_apart (pre ++ low) h high x (mid ++ fixed ++ post) first it ltac:(rewrite length_app; lia) ltac:(rewrite length_app; cbn in *; lia))).
      cbn [mbind outcome_bind].
      replace ((pre ++ low) ++ x :: high ++ h :: mid ++ fixed ++ post) with (pre ++ ((low ++ [x]) ++ (high ++ [h]) ++ mid) ++ fixed ++ post) by (repeat (rewrite <- app_assoc; cbn); done).
      edestruct (IH fuel (low ++ [x]) (high ++ [h])) as (low' & high' & -> & Hl & Hhi & Hperm);
        rewrite ?length_app; cbn [length] in *; try done; try lia; [by apply Forall_app; split; [|constructor]..|].
      exists low', high'. split_and!; try done. rewrite Hperm. rewrite <- !app_assoc. apply Permutation_app_head. cbn.
      rewrite <- (Permutation_middle high mid h), <- (Permutation_middle high mid x). apply Permutation_swap.
    + replace (low ++ high ++ x :: mid) with (low ++ (high ++ [x]) ++ mid) by (by rewrite <- !app_assoc).
      apply IH; rewrite ?length_app; cbn [length] in *; try done; try lia. apply Forall_app. by split; [|constructor].
Qed.

(** [partition] brings the elements that pass to the front. *)
Lemma partition_spec (p : predicate) q pre mid fixed post first last : Forall (fun x => q x = false) fixed ->
  (forall m x, length m = length mid -> p (pre ++ m ++ fixed ++ post) x = Done (q x)) ->
  first = length pre -> last = first + length mid + length fixed ->
  exists low high, partition first last p (pre ++ mid ++ fixed ++ post) =
    Done (first + length low, pre ++ (low ++ high) ++ fixed ++ post) /\
  Forall (fun x => q x = true) low /\ Forall (fun x => q x = false) high /\ low ++ high ≡ₚ mid.
Proof.
  intros Hx Hp Ef El. destruct (split_at_first q false mid) as (a & rest & -> & Ha & Hr). rewrite length_app in *.
  unfold partition, find_if_not.
  rewrite (find_if_loop_spec p q false (rest ++ fixed) post a _ pre);
    [|by rewrite <- !app_assoc|done|rewrite length_app; lia|unfold rounds; rewrite !length_app; lia|by intros; apply Hp; rewrite length_app|done|].
  2:{ destruct rest; [|done]. destruct Hx; done. }
  cbn [mbind outcome_bind]. case_decide as Hd.
  { destruct rest; [|cbn in *; lia]. exists a, []. rewrite !app_nil_r. by split_and!. }
  destruct rest as [|x rest].
  - destruct fixed as [|x fixed]; [cbn in *; lia|]. apply Forall_cons in Hx as [Hx0 Hx]. exists a, []. rewrite !app_nil_r in *. split_and!; try done.
    apply (partition_loop_skip p q _ _ _ post) with (ys := fixed) (pre := pre ++ a ++ [x]); try done.
    + intros y. apply Hp. cbn. lia.
    + by rewrite <- !app_assoc.
    + rewrite !length_app. cbn. lia.
    + cbn in *. lia.
    + unfold rounds. rewrite !length_app. cbn. lia.
  - change (x :: rest) with ([x] ++ rest).
    rewrite Ef in *. apply (partition_loop_spec p q pre fixed post (length a + length (x :: rest)) Hx);
      cbn [length] in *; try done; try lia; [|by constructor].
    unfold rounds. rewrite !length_app. cbn. lia.
Qed.

(** A strict weak order, of which [>=] is then transitive. *)
Class WeakOrder (ltb : T -> T -> bool) : Prop := {
  ltb_asym x y : ltb x y = true -> ltb y x = false;
  geb_trans x y z : ltb x y = false -> ltb y z = false -> ltb x z = false
}.

(** No element is less than one before it. *)
Definition sorted (ltb : T -> T -> bool) (l : list T) : Prop := StronglySorted (fun x y => ltb y x = false) l.

Section Sort.
Context (ltb : T -> T -> bool) `{!WeakOrder ltb}.

Lemma sorted_around low b high : sorted ltb low -> sorted ltb high ->
  Forall (fun x => ltb x b = true) low -> Forall (fun x => ltb x b = false) high -> sorted ltb (low ++ b :: high).
Proof.
  intros Hl Hh Lb Hb. unfold sorted. induction low as [|x low IH]; cbn.
  - constructor; [done|]. apply Hb.
  - inversion Hl as [|? ? Hl' Hx]; subst. apply Forall_cons in Lb as [Hxb Lb]. constructor; [by apply IH|].
    apply Forall_app. split; [done|]. constructor; [by apply ltb_asym|].
    eapply Forall_impl; [exact Hb|]. intros y Hy. cbn in Hy. by apply (geb_trans y b x), ltb_asym.
Qed.

(** The pivot, which is the last element of the range, is brought between the
    two parts; both are shorter than the range. *)
Lemma sort_spec : forall fuel pre mid post first last,
  length mid < fuel -> first = length pre -> last = first + length mid ->
  exists mid', sort ltb fuel first last (pre ++ mid ++ post) = Done (pre ++ mid' ++ post) /\ mid' ≡ₚ mid /\ sorted ltb mid'.
Proof.
  induction fuel as [|fuel IH]; intros pre mid post first last Hf Ef El; [lia|]. cbn [sort].
  destruct mid as [|b mid _] using rev_ind.
  { rewrite decide_True by (cbn in El; lia). exists []. split_and!; [done|done|constructor]. }
  rewrite length_app in *. cbn [length] in *. rewrite decide_False by lia.
  assert (Hirr : ltb b b = false) by (destruct (ltb b b) eqn:E; [pose proof (ltb_asym _ _ E); congruence|done]).
  rewrite <- app_assoc.
  destruct (partition_spec (fun arr i => y ← load (last - 1) arr; Done (ltb i y)) (fun i => ltb i b) pre mid [b] post first last)
    as (low & high & -> & Hl & Hh & Hperm); [by constructor| |done|cbn; lia|].
  { intros m x Hm. replace (pre ++ m ++ [b] ++ post) with ((pre ++ m) ++ b :: post) by (by rewrite <- app_assoc).
    by rewrite load_app by (rewrite length_app; lia). }
  cbn [mbind outcome_bind app]. apply Permutation_length in Hperm as Hlen. rewrite length_app in Hlen.
  assert (Hsw : exists high', high' ≡ₚ high /\ iter_swap (first + length low) (last - 1) (pre ++ (low ++ high) ++ b :: post) = Done (pre ++ low ++ b :: high' ++ post)).
  { destruct high as [|h high].
    - exists []. split; [done|]. rewrite app_nil_r. cbn in Hlen. cbn [app].
      assert (Hb : (pre ++ low ++ b :: post) !! (first + length low) = Some b).
      { rewrite app_assoc. apply list_lookup_middle. rewrite length_app. lia. }
      replace (last - 1) with (first + length low) by lia. rewrite (iter_swap_spec _ _ b b) by done. by rewrite list_insert_insert_eq, list_insert_id by done.
    - exists (high ++ [h]). split; [by rewrite Permutation_app_comm|]. cbn [length] in Hlen.
      replace (pre ++ (low ++ h :: high) ++ b :: post) with ((pre ++ low) ++ h :: high ++ b :: post) by (repeat (rewrite <- app_assoc; cbn); done).
      rewrite (proj1 (swap_apart (pre ++ low) h high b post (first + length low) (last - 1) ltac:(rewrite length_app; lia) ltac:(rewrite length_app; lia))).
      repeat (rewrite <- app_assoc; cbn). done. }
  destruct Hsw as (high' & Hph & ->). cbn [mbind outcome_bind].
  destruct (IH pre low (b :: high' ++ post) first (first + length low)) as (low' & -> & Hpl & Hsl); [lia|done|done|].
  cbn [mbind outcome_bind]. apply Permutation_length in Hph as Hlh. apply Permutation_length in Hpl as Hll.
  destruct (IH (pre ++ low' ++ [b]) high' post (first + length low + 1) last) as (high'' & E & Hph' & Hsh);
    [lia|rewrite !length_app; cbn; lia|lia|].
  exists (low' ++ b :: high''). split_and!.
  - replace (pre ++ low' ++ b :: high' ++ post) with ((pre ++ low' ++ [b]) ++ high' ++ post) by (repeat (rewrite <- app_assoc; cbn); done).
    rewrite E. repeat (rewrite <- app_assoc; cbn). done.
  - rewrite Hph', Hph, Hpl, <- Hperm, <- app_assoc. apply Permutation_app_head, Permutation_cons_append.
  - apply sorted_around; [done|done|by rewrite Hpl|by rewrite Hph', Hph].
Qed.

End Sort.

(** ** Reversing *)

Lemma iter_swap_undefined a b arr : length arr <= a \/ length arr <= b -> iter_swap a b arr = Stop Undefined.
Proof.
  intros H. unfold iter_swap, take_out, load. destruct (arr !! a) as [x|] eqn:Ha; [|done]. cbn [deref mbind outcome_bind].
  apply lookup_lt_Some in Ha. by rewrite lookup_ge_None_2 by (rewrite length_insert; lia).
Qed.

(** A range with an even number of elements is reversed. *)
Lemma reverse_even : forall n pre mid post fuel first last,
  length mid = n + n -> n < fuel -> first = length pre -> last = first + length mid ->
  reverse_loop fuel first last (pre ++ mid ++ post) = Done (pre ++ rev mid ++ post).
Proof.
  induction n as [|n IH]; intros pre mid post fuel first last Hm Hf Ef El; (destruct fuel as [|fuel]; [lia|]); cbn [reverse_loop].
  - destruct mid; [|done]. by rewrite decide_True by (cbn in El; lia).
  - destruct mid as [|x mid]; [done|]. destruct mid as [|y mid _] using rev_ind; [cbn in Hm; lia|].
    cbn [length] in *. rewrite length_app in *. cbn [length] in *. rewrite decide_False by lia.
    destruct last as [|last]; [lia|].
    replace (pre ++ (x :: mid ++ [y]) ++ post) with (pre ++ x :: mid ++ y :: post) by (repeat (cbn; rewrite <- app_assoc); done).
    rewrite (proj1 (swap_apart pre x mid y post first last Ef ltac:(lia))). cbn [mbind outcome_bind].
    replace (pre ++ y :: mid ++ x :: post) with ((pre ++ [y]) ++ mid ++ x :: post) by (by rewrite <- app_assoc).
    rewrite (IH (pre ++ [y]) mid (x :: post)); [|lia|lia|rewrite length_app; cbn; lia|lia].
    f_equal. cbn. rewrite rev_app_distr. cbn. by repeat (cbn; rewrite <- app_assoc).
Qed.

(** With an odd number of elements the two iterators pass each other: the loop
    swaps everything back and goes on until one leaves the array. *)
Lemma reverse_odd : forall fuel first last arr,
  first <= length arr -> length arr < first + fuel -> Nat.odd (first + last) = true ->
  reverse_loop fuel first last arr = Stop Undefined.
Proof.
  induction fuel as [|fuel IH]; intros first last arr Hfst Hf Ho; [lia|]. cbn [reverse_loop].
  rewrite decide_False.
  2:{ intros ->. rewrite <- Nat.negb_even, Nat.even_add in Ho. by destruct (Nat.even last). }
  destruct last as [|last]; [done|].
  destruct (decide (length arr <= first \/ length arr <= last)) as [H|H].
  - by rewrite iter_swap_undefined.
  - destruct (lookup_lt_is_Some_2 arr first) as [x Hx]; [lia|]. destruct (lookup_lt_is_Some_2 arr last) as [y Hy]; [lia|].
    rewrite (iter_swap_spec _ _ x y) by done. cbn [mbind outcome_bind]. apply IH; rewrite ?length_insert; [lia|lia|].
    by replace (first + 1 + last) with (first + S last) by lia.
Qed.

Lemma reverse_spec pre mid post :
  reverse (length pre) (length pre + length mid) (pre ++ mid ++ post) =
  if Nat.even (length mid) then Done (pre ++ rev mid ++ post) else Stop Undefined.
Proof.
  unfold reverse, rounds. destruct (Nat.even (length mid)) eqn:E.
  - apply Nat.even_spec in E as [n Hn]. apply (reverse_even n); try done; [lia|rewrite !length_app; lia].
  - apply reverse_odd; [rewrite length_app; lia|lia|].
    rewrite <- Nat.negb_even, Nat.add_assoc, Nat.even_add, E, Nat.even_add. by destruct (Nat.even (length pre)).
Qed.

(** ** The other loops *)

(** [for_each] does not look at a range that is not empty. *)
Lemma for_each_skips_the_range {S} first last (f : T -> S -> S) arr s : first < last -> for_each first last f arr s = Done s.
Proof. intros H. unfold for_each. by rewrite decide_False by lia. Qed.

Lemma replace_if_spec q y pre mid post :
  replace_if (length pre) (length pre + length mid) q y (pre ++ mid ++ post) =
  Done (pre ++ map (fun x => if q x then y else x) mid ++ post).
Proof.
  unfold replace_if.
  assert (G : forall fuel first, length mid < fuel -> first = length pre ->
    for_range fuel first (first + length mid) (fun i arr => x ← load i arr; if q x then store i y arr else Done arr) (pre ++ mid ++ post) =
    Done (pre ++ map (fun x => if q x then y else x) mid ++ post)).
  { revert pre. induction mid as [|x mid IH]; intros pre fuel first Hf Ef; (destruct fuel as [|fuel]; [cbn in Hf; lia|]); cbn [for_range length app map].
    - by rewrite decide_True by lia.
    - rewrite decide_False by lia. rewrite load_app by done. cbn [mbind outcome_bind].
      set (z := if q x then y else x).
      assert (E : (if q x then store first y (pre ++ x :: mid ++ post) else Done (pre ++ x :: mid ++ post)) = Done ((pre ++ [z]) ++ mid ++ post)).
      { rewrite <- app_assoc. unfold z. destruct (q x); [by apply store_app|done]. }
      rewrite E. cbn [mbind outcome_bind].
      replace (first + S (length mid)) with (first + 1 + length mid) by lia.
      rewrite IH; [by rewrite <- app_assoc|cbn in Hf; lia|rewrite length_app; cbn; lia]. }
  apply G; [|done]. unfold rounds. rewrite !length_app. lia.
Qed.

Lemma for_range_undefined {S} (body : nat -> S -> outcome S) (I : nat -> S -> Prop) last n :
  (forall i s, I i s -> i < n -> body i s = Stop Undefined \/ exists s', body i s = Done s' /\ I (i + 1) s') ->
  (forall i s, I i s -> i < n) -> forall fuel first s,
  n <= last -> n < first + fuel -> I first s -> for_range fuel first last body s = Stop Undefined.
Proof.
  intros Hb Hn. induction fuel as [|fuel IH]; intros first s Hl Hf HI; pose proof (Hn _ _ HI); [lia|]. cbn [for_range].
  rewrite decide_False by lia. destruct (Hb first s HI) as [->|(s' & -> & HI')]; [done|done|]. apply IH; [done|lia|done].
Qed.

(** [shift_left] goes on to read behind the end of the range. *)
Lemma shift_left_overruns first n arr :
  0 < n -> first + n < length arr -> shift_left first (length arr) (Z.of_nat n) arr = Stop Undefined.
Proof.
  intros Hn Hl. unfold shift_left.
  rewrite (proj2 (Z.eqb_neq _ _)), (proj2 (Z.ltb_lt _ _)), (proj2 (Z.ltb_ge _ _)) by lia. cbn [negb andb].
  rewrite (for_range_undefined _ (fun i '(it, a) => it = i + n /\ length a = length arr /\ i + n <= length arr) _ (length arr)); [done| | |lia|unfold rounds; lia|].
  - intros i [it a] (-> & Ha & Hi) _. unfold take_out, load.
    destruct (a !! (i + n)) as [x|] eqn:Hx; [|by left]. right. cbn [deref mbind outcome_bind]. apply lookup_lt_Some in Hx as Hlt.
    eexists (_, _). unfold store. rewrite decide_True by (rewrite length_insert; lia). cbn [mbind outcome_bind].
    split; [reflexivity|]. cbn beta iota. rewrite !length_insert. lia.
  - intros i [it a] (-> & Ha & Hi). lia.
  - rewrite Nat2Z.id. lia.
Qed.

End Ranges.

(** C37: [sort] always returns, and leaves the range a sorted permutation of what it
    was and everything else in the array as it was: for every strict weak
    order, and though the predicate of [partition] reads the pivot out of the
    array that [partition] is changing.  The recursion is never deeper than
    the range is long. *)
Theorem sort_sorts {T} (left : T -> T) (ltb : T -> T -> bool) `{!WeakOrder ltb} (pre mid post : list T) (fuel : nat) :
  (length mid < fuel)%nat ->
  exists mid',
    sort left ltb fuel (length pre) (length pre + length mid) (pre ++ mid ++ post) = Done (pre ++ mid' ++ post) /\
    mid' ≡ₚ mid /\ sorted ltb mid'.
Proof. intros H. by apply sort_spec. Qed.

#[export] Instance Z_weak_order : WeakOrder Z.ltb.
Proof. split; intros *; rewrite ?Z.ltb_lt, ?Z.ltb_ge; lia. Qed.

(** The middle five of seven numbers, one of them twice; a move leaves zero. *)
Lemma sort_sorts_witness : exists mid',
  sort (fun _ => 0) Z.ltb 6 1 6 [9; 3; 1; 2; 3; -4; 0] = Done ([9] ++ mid' ++ [0]) /\ mid' ≡ₚ [3; 1; 2; 3; -4] /\ sorted Z.ltb mid'.
Proof. apply (sort_sorts (fun _ => 0) Z.ltb [9] [3; 1; 2; 3; -4] [0] 6). apply Nat.ltb_lt. reflexivity. Defined.

Example sort_example : sort (fun _ => 0) Z.ltb 6 1 6 [9; 3; 1; 2; 3; -4; 0] = Done [9; -4; 1; 2; 3; 3; 0].
Proof. reflexivity. Qed.
End Algo.
