(* ===== verification/Vector.v ===== *)
(** * Vectors

    Models [__vector] of src/std/include/vector, with [erase] and [erase_if] of
    the same file.  The buffers are in a store, so that what two vectors share,
    what is freed twice and what is never freed can be seen; [new] gives a
    buffer that was never used before, which is what the allocators promise.

    A position in a vector is an index; the checks of iterators against the
    ends are empty in the code.  Reading or writing outside a buffer, or
    through the null pointer, is undefined. *)

From S2P Require Import Prelude Algorithm.
Local Open Scope u64_scope.

Module Vector.

Section Ops.
(** [init] is what an element of a new buffer holds: the default value of a
    class, or whatever was in the memory for a type without a constructor;
    [left x] is what a move leaves behind where [x] was. *)
Context {T : Type} (init : T) (left : T -> T).

(** ** Buffers *)

Record heap := mkHeap { next : Z; blocks : gmap Z (list T) }.

(** The null pointer has no elements. *)
Definition block (p : Z) (h : heap) : option (list T) :=
  if p =? 0 then Some [] else blocks h !! p.

Definition new_array (n : Z) (h : heap) : Z * heap :=
  (next h, mkHeap (next h + 1) (<[next h := replicate (Z.to_nat n) init]> (blocks h))).

Definition delete_array (p : Z) (h : heap) : outcome heap :=
  if p =? 0 then Done h
  else _ ← deref (blocks h !! p); Done (mkHeap (next h) (delete p (blocks h))).

Definition get (p i : Z) (h : heap) : outcome T :=
  b ← deref (block p h);
  if 0 <=? i then deref (b !! Z.to_nat i) else Stop Undefined.

Definition put (p i : Z) (x : T) (h : heap) : outcome heap :=
  b ← deref (block p h);
  if (0 <=? i) && (i <? Z.of_nat (length b)) then
    Done (mkHeap (next h) (<[p := <[Z.to_nat i := x]> b]> (blocks h)))
  else Stop Undefined.

(** [to[j] = std::move(from[i])] *)
Definition move_element (from i to j : Z) (h : heap) : outcome heap :=
  x ← get from i h;
  h ← put from i (left x) h;
  put to j x h.

(** ** The vector *)

Record vector := mkVector { ptr : Z; sz : Z; cap : Z }.

Definition empty_vector : vector := mkVector 0 0 0.

Definition sized_vector (n : Z) (h : heap) : vector * heap :=
  let '(p, h) := new_array n h in (mkVector p n n, h).

Definition filled_vector (n : Z) (x : T) (h : heap) : outcome (vector * heap) :=
  let '(p, h) := new_array n h in
  h ← for_loopM (Z.to_nat n) 0 (fun i h => put p i x h) h;
  Done (mkVector p n n, h).

(** The range is the list of what reading through [__first] gives. *)
Definition vector_of_range (l : list T) (h : heap) : outcome (vector * heap) :=
  let n := Z.of_nat (length l) in
  let '(p, h) := new_array n h in
  h ← for_loopM (Z.to_nat n) 0 (fun i h => x ← deref (l !! Z.to_nat i); put p i x h) h;
  Done (mkVector p n n, h).

(** The copy gets a buffer for [__sz] elements and the capacity of the original. *)
Definition copy_vector (other : vector) (h : heap) : outcome (vector * heap) :=
  let '(p, h) := new_array (sz other) h in
  h ← for_loopM (Z.to_nat (sz other)) 0 (fun i h => x ← get (ptr other) i h; put p i x h) h;
  Done (mkVector p (sz other) (cap other), h).

(** The new vector and what is left of the other one. *)
Definition move_vector (other : vector) : vector * vector := (other, empty_vector).

(** [self]: both are the same object.  The old buffer is not freed. *)
Definition assign_copy (self : bool) (v other : vector) (h : heap) : outcome (vector * heap) :=
  if self then Done (v, h) else copy_vector other h.
Definition assign_move (self : bool) (v other : vector) : vector * vector :=
  if self then (v, v) else (other, empty_vector).

Definition destroy (v : vector) (h : heap) : outcome heap := delete_array (ptr v) h.

Definition empty (v : vector) : bool := sz v =? 0.
Definition size (v : vector) : Z := sz v.
Definition capacity (v : vector) : Z := cap v.

(** What [reserve] and [shrink_to_fit] do with a buffer of [n] elements. *)
Definition reallocate (n : Z) (v : vector) (h : heap) : outcome (vector * heap) :=
  let '(p, h) := new_array n h in
  h ← for_loopM (Z.to_nat (sz v)) 0 (fun i h => move_element (ptr v) i p i h) h;
  h ← delete_array (ptr v) h;
  Done (mkVector p (sz v) n, h).

Definition reserve (n : Z) (v : vector) (h : heap) : outcome (vector * heap) :=
  if cap v <? n then reallocate n v h else Done (v, h).

Definition shrink_to_fit (v : vector) (h : heap) : outcome (vector * heap) :=
  if sz v <? cap v then reallocate (sz v) v h else Done (v, h).

Definition resize (n : Z) (v : vector) (h : heap) : outcome (vector * heap) :=
  '(v, h) ← (if cap v <? n then reserve n v h else Done (v, h));
  Done (mkVector (ptr v) n (cap v), h).

Definition resize_with (n : Z) (x : T) (v : vector) (h : heap) : outcome (vector * heap) :=
  '(v, h) ← (if cap v <? n then reserve n v h else Done (v, h));
  h ← (if sz v <? n then for_loopM (Z.to_nat (n - sz v)) (sz v) (fun i h => put (ptr v) i x h) h else Done h);
  Done (mkVector (ptr v) n (cap v), h).

(** [operator[]] and [at], which does not check either. *)
Definition at_ (i : Z) (v : vector) (h : heap) : outcome T := get (ptr v) i h.
Definition front (v : vector) (h : heap) : outcome T := get (ptr v) 0 h.
Definition back (v : vector) (h : heap) : outcome T := get (ptr v) (sz v -64 1) h.

Definition grown (c : Z) : Z := if c =? 0 then 1 else c *64 2.

(** What a reference argument is bound to: a value that lives elsewhere, or an
    element of a buffer. *)
Inductive argument := Value (x : T) | Element (p i : Z).
Definition read_argument (a : argument) (h : heap) : outcome T :=
  match a with Value x => Done x | Element p i => get p i h end.

(** [push_back] and [emplace_back]: the argument is read after the growth. *)
Definition push_back (a : argument) (v : vector) (h : heap) : outcome (vector * heap) :=
  '(v, h) ← (if sz v =? cap v then reserve (grown (cap v)) v h else Done (v, h));
  x ← read_argument a h;
  h ← put (ptr v) (sz v) x h;
  Done (mkVector (ptr v) (sz v +64 1) (cap v), h).

Definition pop_back (v : vector) : vector := mkVector (ptr v) (sz v -64 1) (cap v).
Definition clear (v : vector) : vector := mkVector (ptr v) 0 (cap v).

(** [for (i = from; count times; --i)] *)
Fixpoint downto {S} (count : nat) (from : Z) (body : Z -> S -> outcome S) (s : S) : outcome S :=
  match count with
  | O => Done s
  | Datatypes.S count => body from s ≫= downto count (from - 1) body
  end.

(** The index is signed. *)
Definition insert (idx : Z) (x : T) (v : vector) (h : heap) : outcome (vector * heap) :=
  '(v, h) ← (if sz v =? cap v then reserve (grown (cap v)) v h else Done (v, h));
  h ← downto (Z.to_nat (sz v - idx)) (sz v) (fun i h => y ← get (ptr v) (i - 1) h; put (ptr v) i y h) h;
  h ← put (ptr v) idx x h;
  Done (mkVector (ptr v) (sz v +64 1) (cap v), h).

(** [for (size_type i = i; i >= low; --i)], where [i] wraps around below zero. *)
Fixpoint shift_up (fuel : nat) (i low n p : Z) (h : heap) : outcome heap :=
  match fuel with
  | O => Stop Hung
  | S fuel =>
      if low <=? i then
        y ← get p (i -64 n) h;
        h ← put p i y h;
        shift_up fuel (i -64 1) low n p h
      else Done h
  end.

(** [l] is what the range holds.  The elements from the end down to the index
    are fewer than the rounds that the loop is given. *)
Definition insert_range (idx : Z) (l : list T) (v : vector) (h : heap) : outcome (vector * heap) :=
  let n := Z.of_nat (length l) in
  '(v, h) ← (if cap v <? sz v +64 n then reserve (Algo.max (sz v +64 n) (grown (cap v)) []) v h else Done (v, h));
  h ← shift_up (S (S (Z.to_nat (sz v +64 n)))) ((sz v +64 n) -64 1) (idx +64 n) n (ptr v) h;
  h ← for_loopM (Z.to_nat n) 0 (fun i h => x ← deref (l !! Z.to_nat i); put (ptr v) (idx + i) x h) h;
  Done (mkVector (ptr v) (sz v +64 n) (cap v), h).

Definition erase_range (first last : Z) (v : vector) (h : heap) : outcome (vector * heap) :=
  let n := last - first in
  h ← for_loopM (Z.to_nat ((sz v -64 n) - first)) first (fun i h => y ← get (ptr v) (i +64 n) h; put (ptr v) i y h) h;
  Done (mkVector (ptr v) (sz v -64 n) (cap v), h).

Definition erase_at (pos : Z) (v : vector) (h : heap) : outcome (vector * heap) := erase_range pos (pos + 1) v h.

(** [remove_if] runs over the buffer. *)
Definition erase_if (q : T -> bool) (v : vector) (h : heap) : outcome (Z * vector * heap) :=
  let size := sz v in
  b ← deref (block (ptr v) h);
  '(k, b) ← Algo.remove_if left 0 (Z.to_nat (sz v)) (Algo.pure q) b;
  let h := mkHeap (next h) (if ptr v =? 0 then blocks h else <[ptr v := b]> (blocks h)) in
  '(v, h) ← erase_range (Z.of_nat k) (sz v) v h;
  Done (size -64 sz v, v, h).

Definition erase (eqb : T -> T -> bool) (x : T) (v : vector) (h : heap) : outcome (Z * vector * heap) :=
  let size := sz v in
  b ← deref (block (ptr v) h);
  '(k, b) ← Algo.remove left eqb 0 (Z.to_nat (sz v)) x b;
  let h := mkHeap (next h) (if ptr v =? 0 then blocks h else <[ptr v := b]> (blocks h)) in
  '(v, h) ← erase_range (Z.of_nat k) (sz v) v h;
  Done (size -64 sz v, v, h).


(** ** Buffers in pieces *)

Definition set_block (p : Z) (b : list T) (h : heap) : heap := mkHeap (next h) (<[p := b]> (blocks h)).

Lemma block_set p b h : p <> 0 -> block p (set_block p b h) = Some b.
Proof. intros Hp. unfold block. rewrite (proj2 (Z.eqb_neq p 0)) by done. cbn. by rewrite lookup_insert_eq. Qed.

Lemma block_set_ne p q b h : p <> q -> block q (set_block p b h) = block q h.
Proof. intros Hp. unfold block. cbn. by rewrite lookup_insert_ne. Qed.

Lemma set_set p b b' h : set_block p b' (set_block p b h) = set_block p b' h.
Proof. unfold set_block. cbn. by rewrite insert_insert_eq. Qed.

Lemma set_same p b h : p <> 0 -> block p h = Some b -> set_block p b h = h.
Proof.
  intros Hp. unfold block, set_block. rewrite (proj2 (Z.eqb_neq p 0)) by done. destruct h as [n m]. cbn. intros H.
  by rewrite insert_id.
Qed.

Lemma block_nonempty p a x b h : block p h = Some (a ++ x :: b) -> p <> 0.
Proof. unfold block. intros H ->. cbn in H. by destruct a. Qed.

Lemma get_app p a x b h i : block p h = Some (a ++ x :: b) -> i = Z.of_nat (length a) -> get p i h = Done x.
Proof.
  intros Hb ->. unfold get. rewrite Hb. cbn [deref mbind outcome_bind]. rewrite (proj2 (Z.leb_le _ _)) by lia.
  by rewrite Nat2Z.id, list_lookup_middle.
Qed.

Lemma put_app p a x y b h i : block p h = Some (a ++ x :: b) -> i = Z.of_nat (length a) ->
  put p i y h = Done (set_block p (a ++ y :: b) h).
Proof.
  intros Hb ->. unfold put. rewrite Hb. cbn [deref mbind outcome_bind].
  rewrite (proj2 (Z.leb_le _ _)), (proj2 (Z.ltb_lt _ _)) by (rewrite ?length_app; cbn; lia). cbn [andb].
  by rewrite Nat2Z.id, insert_app_r_alt, Nat.sub_diag by lia.
Qed.

(** A loop that stores one value in each of the next places; [pos] is the place
    of a round and [f] what it stores, which may depend on the other buffers. *)
Lemma put_loop p (pos : Z -> Z) (f : Z -> heap -> outcome T) xs : forall fill a b h i,
  (forall a' x c h', xs = a' ++ x :: c -> (forall r, r <> p -> block r h' = block r h) -> f (i + Z.of_nat (length a')) h' = Done x) ->
  (forall k, pos (i + k) = Z.of_nat (length a) + k) ->
  block p h = Some (a ++ fill ++ b) -> length fill = length xs ->
  for_loopM (length xs) i (fun i h => x ← f i h; put p (pos i) x h) h =
  Done (match xs with [] => h | _ => set_block p (a ++ xs ++ b) h end).
Proof.
  induction xs as [|x xs IH]; intros fill a b h i Hf Hi Hb Hl; [done|].
  destruct fill as [|y fill]; [done|]. cbn [length for_loopM app] in *.
  pose proof (block_nonempty _ _ _ _ _ Hb) as Hp.
  assert (Hx : f i h = Done x) by (rewrite <- (Hf [] x xs h eq_refl) by done; f_equal; cbn; lia).
  pose proof (Hi 0) as Hi0. rewrite !Z.add_0_r in Hi0.
  rewrite Hx. cbn [mbind outcome_bind]. rewrite (put_app p a y x (fill ++ b)) by done. cbn [mbind outcome_bind].
  rewrite (IH fill (a ++ [x]) b); [| | |by rewrite block_set, <- app_assoc|lia].
  - destruct xs; [destruct fill; [done|done]|]. by rewrite set_set, <- app_assoc.
  - intros a' z c h' E Hr. rewrite <- (Hf (x :: a') z c h'); [f_equal; cbn; lia|by rewrite E|].
    intros r Hne. by rewrite Hr, block_set_ne by done.
  - intros k. rewrite <- Z.add_assoc, Hi, length_app. cbn. lia.
Qed.

(** ** What a vector holds

    The buffer begins with the elements; [spare] is the rest of its capacity. *)

Definition heap_ok (h : heap) : Prop := 0 < next h /\ blocks h !! 0 = None /\ forall p, next h <= p -> blocks h !! p = None.

Record holds (v : vector) (l : list T) (h : heap) : Prop := {
  hold_heap : heap_ok h;
  hold_size : sz v = Z.of_nat (length l);
  hold_cap : cap v < 2 ^ 64;
  hold_block : exists spare, block (ptr v) h = Some (l ++ spare) /\ cap v = Z.of_nat (length l + length spare)
}.

(** The buffers of everybody else. *)
Definition rest (v : vector) (h : heap) : gmap Z (list T) := delete (ptr v) (blocks h).

(** Taking the vector from [l] to [l'] succeeds and changes no other buffer. *)
Definition leads_to (r : outcome (vector * heap)) (v : vector) (h : heap) (l' : list T) : Prop :=
  exists v' h', r = Done (v', h') /\ holds v' l' h' /\ rest v' h' = rest v h.

Lemma empty_holds h : heap_ok h -> holds empty_vector [] h.
Proof. intros H. split; [done|done|cbn; lia|]. by exists []. Qed.

Lemma heap_ok_set p b h : heap_ok h -> block p h <> None -> p <> 0 -> heap_ok (set_block p b h).
Proof.
  intros (H0 & Hn & Hf) Hb Hp. unfold block in Hb. rewrite (proj2 (Z.eqb_neq p 0)) in Hb by done.
  split_and!; [done|cbn; by rewrite lookup_insert_ne|]. cbn. intros q Hq.
  rewrite lookup_insert_ne; [by apply Hf|]. intros ->. by apply Hb, Hf.
Qed.

(** Changes inside the buffer. *)
Lemma holds_set v l h b l' spare' n : holds v l h -> b = l' ++ spare' -> n = Z.of_nat (length l') ->
  Z.of_nat (length b) = cap v -> ptr v <> 0 ->
  holds (mkVector (ptr v) n (cap v)) l' (set_block (ptr v) b h) /\
  rest (mkVector (ptr v) n (cap v)) (set_block (ptr v) b h) = rest v h.
Proof.
  intros [Hh Hs Hc (spare & Hb & Hcap)] -> -> Hl Hp. split.
  - split; cbn; [apply heap_ok_set; [done|by rewrite Hb|done]|done|done|].
    exists spare'. rewrite block_set by done. split; [done|]. by rewrite <- length_app.
  - unfold rest. cbn. by rewrite delete_insert_eq.
Qed.

(** The elements move to the new buffer. *)
Lemma move_loop p q todo : p <> q -> forall fill front spare back h i,
  block p h = Some (map left front ++ todo ++ spare) -> block q h = Some (front ++ fill ++ back) ->
  length fill = length todo -> i = Z.of_nat (length front) ->
  exists b h', for_loopM (length todo) i (fun i h => move_element p i q i h) h = Done h' /\
  next h' = next h /\ (todo <> [] -> p <> 0 /\ q <> 0) /\
  blocks h' = match todo with [] => blocks h | _ => <[q := front ++ todo ++ back]> (<[p := b]> (blocks h)) end.
Proof.
  intros Hpq. induction todo as [|x todo IH]; intros fill front spare back h i Hp Hq Hl Hi; [by exists [], h|].
  destruct fill as [|y fill]; [done|]. cbn [length for_loopM app] in *.
  pose proof (block_nonempty _ _ _ _ _ Hp) as Hp0. pose proof (block_nonempty _ _ _ _ _ Hq) as Hq0.
  assert (Hm : move_element p i q i h = Done (set_block q (front ++ x :: fill ++ back) (set_block p (map left front ++ left x :: todo ++ spare) h))).
  { unfold move_element. rewrite (get_app _ _ _ _ _ _ Hp) by (rewrite length_map; lia). cbn [mbind outcome_bind].
    rewrite (put_app _ _ _ (left x) _ _ _ Hp) by (rewrite length_map; lia). cbn [mbind outcome_bind].
    rewrite <- (block_set_ne p q (map left front ++ left x :: todo ++ spare)) in Hq by done.
    by rewrite (put_app _ _ _ x _ _ _ Hq) by done. }
  rewrite Hm. cbn [mbind outcome_bind]. clear Hm.
  destruct (IH fill (front ++ [x]) spare back (set_block q (front ++ x :: fill ++ back) (set_block p (map left front ++ left x :: todo ++ spare) h)) (i + 1))
    as (b & h' & -> & Hn & _ & Hb).
  - rewrite block_set_ne, block_set by done. f_equal. rewrite map_app, <- app_assoc. done.
  - rewrite block_set by done. by rewrite <- app_assoc.
  - lia.
  - rewrite length_app. cbn. lia.
  - destruct todo as [|z todo].
    + destruct fill; [|done]. by exists (map left front ++ left x :: spare), h'.
    + exists b, h'. split_and!; [done|done|done|]. rewrite Hb. cbn [blocks set_block].
      rewrite (insert_insert_ne _ q p), insert_insert_eq by done. rewrite (insert_insert_ne _ p q), insert_insert_eq by done.
      by rewrite <- app_assoc.
Qed.

Lemma new_array_spec n h p h' : heap_ok h -> new_array n h = (p, h') ->
  p = next h /\ heap_ok h' /\ p <> 0 /\ blocks h !! p = None /\ blocks h' = <[p := replicate (Z.to_nat n) init]> (blocks h) /\
  block p h' = Some (replicate (Z.to_nat n) init).
Proof.
  intros (H0 & Hn & Hf) E. injection E as <- <-. split_and!; try done; cbn.
  - split_and!; cbn; [lia|rewrite lookup_insert_ne by lia; done|]. intros p Hp. rewrite lookup_insert_ne by lia. apply Hf. lia.
  - lia.
  - apply Hf. lia.
  - unfold block. rewrite (proj2 (Z.eqb_neq _ _)) by lia. cbn. by rewrite lookup_insert_eq.
Qed.

Lemma replicate_split (a b : nat) : (a <= b)%nat -> replicate b init = replicate a init ++ replicate (b - a) init.
Proof. intros H. rewrite <- replicate_add. f_equal. lia. Qed.

(** After the elements have moved: the old buffer is freed, the new one is owned. *)
Lemma delete_old p q b h h' : heap_ok h -> p <> q -> q <> 0 -> blocks h !! q = None -> next h' = next h + 1 -> q = next h ->
  block p h <> None ->
  (exists c, blocks h' = <[q := b]> (<[p := c]> (blocks h)) /\ p <> 0 \/ blocks h' = <[q := b]> (blocks h)) ->
  exists h'', delete_array p h' = Done h'' /\ heap_ok h'' /\ block q h'' = Some b /\ delete q (blocks h'') = delete p (blocks h).
Proof.
  intros (H0 & Hn & Hf) Hpq Hq0 Hq Hnx -> Hp Hb'.
  assert (G : forall m, (forall r, r <> p -> r <> next h -> m !! r = blocks h !! r) -> m !! next h = Some b -> m !! p = None ->
    heap_ok (mkHeap (next h') m) /\ block (next h) (mkHeap (next h') m) = Some b /\ delete (next h) m = delete p (blocks h)).
  { intros m Hm Hmq Hmp. split_and!.
    - split_and!; cbn; [lia| |].
      + destruct (decide (p = 0)) as [->|Hp0]; [done|]. by rewrite Hm.
      + intros r Hr. destruct (decide (r = p)) as [->|]; [done|]. rewrite Hm by (done || lia). apply Hf. lia.
    - unfold block. rewrite (proj2 (Z.eqb_neq _ _)) by done. done.
    - apply map_eq. intros r. rewrite !lookup_delete. repeat case_decide; subst; try done. by apply Hm. }
  unfold delete_array. destruct (Z.eqb_spec p 0) as [->|Hp0].
  - destruct Hb' as [c [[_ ?]|E]]; [done|]. exists h'. split; [done|]. destruct h' as [nx m]. cbn in *. apply G; subst m.
    + intros r _ Hr. by rewrite lookup_insert_ne.
    + by rewrite lookup_insert_eq.
    + by rewrite lookup_insert_ne.
  - unfold block in Hp. rewrite (proj2 (Z.eqb_neq _ _)) in Hp by done.
    assert (Hs : is_Some (blocks h' !! p)).
    { destruct Hb' as [c [[E _]|E]]; rewrite E, lookup_insert_ne by done; [by rewrite lookup_insert_eq|by apply not_eq_None_Some]. }
    destruct Hs as [old Hold]. rewrite Hold. cbn [deref mbind outcome_bind]. eexists. split; [done|]. cbn [blocks]. apply G.
    + intros r Hr Hrq. rewrite lookup_delete_ne by done. destruct Hb' as [c [[E _]|E]]; by rewrite E, ?lookup_insert_ne.
    + rewrite lookup_delete_ne by done. destruct Hb' as [c [[E _]|E]]; by rewrite E, lookup_insert_eq.
    + by rewrite lookup_delete_eq.
Qed.

Lemma reallocate_spec n v l h : holds v l h -> Z.of_nat (length l) <= n < 2 ^ 64 ->
  exists v' h', reallocate n v h = Done (v', h') /\ holds v' l h' /\ rest v' h' = rest v h /\ cap v' = n /\ sz v' = sz v.
Proof.
  intros [Hh Hs Hc (spare & Hb & Hcap)] Hn. unfold reallocate. destruct (new_array n h) as [q h1] eqn:E.
  pose proof Hh as (Hnx & H0 & Hf).
  destruct (new_array_spec n h q h1 Hh E) as (Eq & Hh1 & Hq0 & Hqn & Hb1 & Hbq).
  assert (Hpq : ptr v <> q).
  { intros Ep. unfold block in Hb. rewrite Ep, (proj2 (Z.eqb_neq _ _)), Hqn in Hb by done. done. }
  rewrite (replicate_split (length l)) in Hbq by lia.
  assert (Hbp : block (ptr v) h1 = Some (l ++ spare)).
  { rewrite <- Hb. unfold block. rewrite Hb1. by rewrite lookup_insert_ne. }
  destruct (move_loop (ptr v) q l Hpq (replicate (length l) init) [] spare (replicate (Z.to_nat n - length l) init) h1 0) as (b & h2 & E2 & Hn2 & Hnz & Hb2);
    [done|done|by rewrite length_replicate|done|].
  rewrite Hs, Nat2Z.id, E2. cbn [mbind outcome_bind app] in *.
  destruct (delete_old (ptr v) q (l ++ replicate (Z.to_nat n - length l) init) h h2) as (h3 & -> & Hh3 & Hq3 & Hr3); try done.
  - rewrite Hn2. injection E as _ <-. done.
  - by rewrite Hb.
  - destruct l as [|x l].
    + exists []. right. rewrite Hb2, Hb1. f_equal. cbn. by rewrite Nat.sub_0_r.
    + exists b. left. split; [|by apply Hnz]. rewrite Hb2, Hb1, (insert_insert_ne _ (ptr v) q), insert_insert_eq by done. done.
  - cbn [mbind outcome_bind]. eexists _, _. split; [done|]. cbn. split_and!; try done. split; cbn; [done|done|lia|].
    eexists. split; [done|]. rewrite length_replicate. lia.
Qed.

Lemma reserve_spec n v l h : holds v l h -> n < 2 ^ 64 ->
  exists v' h', reserve n v h = Done (v', h') /\ holds v' l h' /\ rest v' h' = rest v h /\ cap v' = Z.max n (cap v) /\ sz v' = sz v.
Proof.
  intros H Hn. unfold reserve. pose proof H as [_ _ _ (spare & _ & Hc)]. destruct (Z.ltb_spec (cap v) n) as [Hlt|Hge].
  - destruct (reallocate_spec n v l h H) as (v' & h' & E & Hv & Hr & Hcap & Hs); [lia|].
    exists v', h'. split_and!; try done. lia.
  - exists v, h. split_and!; try done. lia.
Qed.

Lemma shrink_spec v l h : holds v l h -> leads_to (shrink_to_fit v h) v h l.
Proof.
  intros H. unfold shrink_to_fit, leads_to. pose proof H as [_ Hs Hc (spare & _ & Hcap)]. destruct (Z.ltb_spec (sz v) (cap v)).
  - destruct (reallocate_spec (sz v) v l h H) as (v' & h' & E & Hv & Hr & _); [lia|]. by exists v', h'.
  - by exists v, h.
Qed.

(** Room for one more element. *)
Lemma grow_spec v l h : holds v l h -> Z.of_nat (length l) < 2 ^ 63 ->
  exists v' h' y spare, (if sz v =? cap v then reserve (grown (cap v)) v h else Done (v, h)) = Done (v', h') /\
  holds v' l h' /\ rest v' h' = rest v h /\ sz v' = sz v /\ block (ptr v') h' = Some (l ++ y :: spare) /\
  cap v' = Z.of_nat (length (l ++ y :: spare)) /\ ptr v' <> 0.
Proof.
  intros H Hl. pose proof H as [_ Hs Hc (spare0 & Hb0 & Hcap0)].
  assert (G : exists v' h', (if sz v =? cap v then reserve (grown (cap v)) v h else Done (v, h)) = Done (v', h') /\
    holds v' l h' /\ rest v' h' = rest v h /\ sz v' = sz v /\ sz v' < cap v').
  { destruct (Z.eqb_spec (sz v) (cap v)) as [E|Hne].
    - assert (Hg : cap v < grown (cap v) < 2 ^ 64).
      { unfold grown. destruct (Z.eqb_spec (cap v) 0); [lia|]. rewrite wrap64_small; unfold is_u64; lia. }
      destruct (reserve_spec (grown (cap v)) v l h H) as (v' & h' & -> & Hv & Hr & Hcap & Hsz); [lia|].
      exists v', h'. split_and!; try done. lia.
    - exists v, h. split_and!; try done. lia. }
  destruct G as (v' & h' & -> & Hv & Hr & Hsz & Hlt). pose proof Hv as [_ Hs' _ (spare & Hb & Hcap)].
  destruct spare as [|y spare]; [cbn in Hcap; lia|]. exists v', h', y, spare. split_and!; try done; [by rewrite length_app|].
  by apply block_nonempty in Hb.
Qed.

Lemma push_back_spec x v l h : holds v l h -> Z.of_nat (length l) < 2 ^ 63 -> leads_to (push_back (Value x) v h) v h (l ++ [x]).
Proof.
  intros H Hl. unfold push_back. destruct (grow_spec v l h H Hl) as (v' & h' & y & spare & -> & Hv & Hr & Hs & Hb & Hc & Hp).
  cbn [mbind outcome_bind read_argument]. pose proof (hold_size _ _ _ Hv) as Hsz.
  rewrite (put_app _ _ _ x _ _ _ Hb Hsz). cbn [mbind outcome_bind].
  destruct (holds_set v' l h' (l ++ x :: spare) (l ++ [x]) spare (sz v' +64 1) Hv) as [Hv' Hr'].
  - by rewrite <- app_assoc.
  - rewrite length_app. cbn. rewrite wrap64_small; unfold is_u64; lia.
  - rewrite Hc. rewrite !length_app. cbn. lia.
  - done.
  - eexists _, _. split; [done|]. split; [done|]. by rewrite Hr'.
Qed.

(** A vector that only forgets elements at its end. *)
Lemma holds_take v l h n : holds v l h -> (n <= length l)%nat ->
  holds (mkVector (ptr v) (Z.of_nat n) (cap v)) (take n l) h.
Proof.
  intros [Hh Hs Hc (spare & Hb & Hcap)] Hn. split; cbn; [done|by rewrite length_take_le|done|].
  exists (drop n l ++ spare). rewrite app_assoc, take_drop. split; [done|]. rewrite length_app, length_take_le, length_drop by done. lia.
Qed.

Lemma pop_back_spec v l h : holds v l h -> l <> [] -> holds (pop_back v) (removelast l) h.
Proof.
  intros H Hl. pose proof (hold_size _ _ _ H) as Hs. pose proof H as [_ _ Hc (sp & _ & Hcap)].
  assert (0 < length l)%nat by (destruct l; [done|cbn; lia]).
  unfold pop_back. rewrite Hs, wrap64_small by (unfold is_u64; lia).
  rewrite removelast_firstn_len. replace (Z.of_nat (length l) - 1) with (Z.of_nat (pred (length l))) by lia.
  apply holds_take; [done|lia].
Qed.

(** The loop of [insert] moves [c] up by one place. *)
Lemma shift_one p a c : forall y spare h i,
  block p h = Some (a ++ c ++ y :: spare) -> i = Z.of_nat (length a + length c) ->
  exists z, downto (length c) i (fun i h => y ← get p (i - 1) h; put p i y h) h = Done (set_block p (a ++ z :: c ++ spare) h).
Proof.
  induction c as [|w c IH] using rev_ind; intros y spare h i Hb Hi.
  - exists y. cbn [downto length app]. f_equal. symmetry. apply set_same; [by apply block_nonempty in Hb|done].
  - rewrite length_app in *. cbn [length] in *. rewrite Nat.add_1_r. cbn [downto].
    assert (Hb1 : block p h = Some ((a ++ c) ++ w :: y :: spare)) by (rewrite Hb; by repeat (rewrite <- app_assoc; cbn)).
    assert (Hb2 : block p h = Some ((a ++ c ++ [w]) ++ y :: spare)) by (rewrite Hb; by repeat (rewrite <- app_assoc; cbn)).
    rewrite (get_app _ _ _ _ _ (i - 1) Hb1) by (rewrite length_app; lia). cbn [mbind outcome_bind].
    rewrite (put_app _ _ _ w _ _ i Hb2) by (rewrite !length_app; cbn; lia). cbn [mbind outcome_bind].
    destruct (IH w (w :: spare) (set_block p ((a ++ c ++ [w]) ++ w :: spare) h) (i - 1)) as (z & E).
    + rewrite block_set by (by apply block_nonempty in Hb1). by repeat (rewrite <- app_assoc; cbn).
    + lia.
    + exists z. cbn [mbind outcome_bind] in E. rewrite E, set_set. do 3 f_equal. by rewrite <- app_assoc.
Qed.

Lemma insert_spec (idx : nat) x v l h : holds v l h -> Z.of_nat (length l) < 2 ^ 63 -> (idx <= length l)%nat ->
  leads_to (insert (Z.of_nat idx) x v h) v h (take idx l ++ x :: drop idx l).
Proof.
  intros H Hl Hi. unfold insert. destruct (grow_spec v l h H Hl) as (v' & h' & y & spare & -> & Hv & Hr & Hs & Hb & Hc & Hp).
  cbn [mbind outcome_bind]. pose proof (hold_size _ _ _ Hv) as Hsz.
  replace (Z.to_nat (sz v' - Z.of_nat idx)) with (length (drop idx l)) by (rewrite length_drop; lia).
  destruct (shift_one (ptr v') (take idx l) (drop idx l) y spare h' (sz v')) as (z & ->).
  { by rewrite app_assoc, take_drop. }
  { rewrite length_take_le, length_drop by done. lia. }
  cbn [mbind outcome_bind].
  erewrite put_app; [|by apply block_set|by rewrite length_take_le]. cbn [mbind outcome_bind]. rewrite set_set.
  destruct (holds_set v' l h' (take idx l ++ x :: drop idx l ++ spare) (take idx l ++ x :: drop idx l) spare (sz v' +64 1) Hv) as [Hv' Hr'].
  - by rewrite <- app_assoc.
  - rewrite length_app, length_take_le by done. cbn. rewrite length_drop. rewrite wrap64_small; unfold is_u64; lia.
  - rewrite Hc. rewrite !length_app. cbn. rewrite length_app, length_take_le, length_drop by done. lia.
  - done.
  - eexists _, _. split; [done|]. split; [done|]. by rewrite Hr'.
Qed.

(** The loop of [erase] moves [c] down over [mid]. *)
Lemma shift_down p spare n c : forall a mid h i,
  block p h = Some (a ++ mid ++ c ++ spare) -> i = Z.of_nat (length a) -> n = Z.of_nat (length mid) ->
  Z.of_nat (length (a ++ mid ++ c)) < 2 ^ 64 ->
  exists junk, for_loopM (length c) i (fun i h => y ← get p (i +64 n) h; put p i y h) h =
    Done (match c with [] => h | _ => set_block p (a ++ c ++ junk ++ spare) h end) /\ length junk = length mid /\ (c = [] -> junk = mid).
Proof.
  induction c as [|x c IH]; intros a mid h i Hb Hi Hn Hw; [by exists mid|]. cbn [length for_loopM].
  rewrite !length_app in Hw. cbn [length] in Hw.
  assert (Hb1 : block p h = Some ((a ++ mid) ++ x :: c ++ spare)) by (rewrite Hb; by repeat (rewrite <- app_assoc; cbn)).
  pose proof (block_nonempty _ _ _ _ _ Hb1) as Hp.
  rewrite (get_app _ _ _ _ _ (i +64 n) Hb1) by (rewrite wrap64_small; rewrite ?length_app; unfold is_u64; lia). cbn [mbind outcome_bind].
  assert (Hput : exists mid', length mid' = length mid /\ put p i x h = Done (set_block p ((a ++ [x]) ++ mid' ++ c ++ spare) h)).
  { destruct mid as [|m mid].
    - exists []. split; [done|]. rewrite (put_app _ _ _ x _ _ i Hb1) by (rewrite app_nil_r; done). by rewrite app_nil_r, <- app_assoc.
    - exists (mid ++ [x]). split; [rewrite length_app; cbn; lia|]. rewrite (put_app _ a m x (mid ++ x :: c ++ spare) _ i) by done.
      do 2 f_equal. by repeat (rewrite <- app_assoc; cbn). }
  destruct Hput as (mid' & Hl & ->). cbn [mbind outcome_bind].
  destruct (IH (a ++ [x]) mid' (set_block p ((a ++ [x]) ++ mid' ++ c ++ spare) h) (i + 1)) as (junk & -> & Hj & Hj0);
    [by apply block_set|rewrite length_app; cbn; lia|lia|rewrite !length_app; cbn; lia|].
  exists junk. split_and!; [|lia|done]. destruct c as [|y c].
  - rewrite (Hj0 eq_refl). by rewrite <- app_assoc.
  - rewrite set_set. by rewrite <- app_assoc.
Qed.

Lemma erase_range_spec (i j : nat) v l h : holds v l h -> (i <= j <= length l)%nat ->
  leads_to (erase_range (Z.of_nat i) (Z.of_nat j) v h) v h (take i l ++ drop j l).
Proof.
  intros H Hij. pose proof H as [Hh Hs Hc (spare & Hb & Hcap)]. unfold erase_range. rewrite Hs.
  rewrite wrap64_small by (unfold is_u64; lia).
  replace (Z.to_nat _) with (length (drop j l)) by (rewrite length_drop; lia).
  assert (El : l = take i l ++ take (j - i) (drop i l) ++ drop j l).
  { replace (drop j l) with (drop (j - i) (drop i l)) by (rewrite drop_drop; f_equal; lia). by rewrite !take_drop. }
  destruct (shift_down (ptr v) spare (Z.of_nat j - Z.of_nat i) (drop j l) (take i l) (take (j - i) (drop i l)) h (Z.of_nat i)) as (junk & -> & Hj & Hj0).
  { rewrite Hb. rewrite El at 1. by rewrite <- !app_assoc. }
  { rewrite length_take_le; lia. }
  { rewrite length_take_le; [lia|rewrite length_drop; lia]. }
  { rewrite <- El. lia. }
  rewrite length_take_le in Hj by (rewrite length_drop; lia).
  cbn [mbind outcome_bind]. destruct (drop j l) as [|y c] eqn:Ed.
  - eexists _, _. split; [done|]. split; [|done]. rewrite app_nil_r.
    assert (length (drop j l) = 0%nat) by (by rewrite Ed). rewrite length_drop in *.
    replace (Z.of_nat (length l) - (Z.of_nat j - Z.of_nat i)) with (Z.of_nat i) by lia. apply holds_take; [done|lia].
  - assert (Hlen : length (y :: c) = (length l - j)%nat) by (by rewrite <- Ed, length_drop).
    destruct (holds_set v l h (take i l ++ (y :: c) ++ junk ++ spare) (take i l ++ y :: c) (junk ++ spare) (Z.of_nat (length l) - (Z.of_nat j - Z.of_nat i)) H) as [Hv Hr].
    + by rewrite <- app_assoc.
    + rewrite length_app, length_take_le, Hlen by lia. lia.
    + rewrite !length_app, Hlen, length_take_le by lia. lia.
    + intros E0. rewrite E0 in Hb. unfold block in Hb. cbn in Hb. injection Hb as Hb. symmetry in Hb. apply app_nil in Hb as [-> _]. by rewrite drop_nil in Ed.
    + by eexists _, _.
Qed.

(** What [remove_if] makes of the buffer. *)
Lemma removed_holds q v l h : holds v l h -> exists b k junk h1,
  block (ptr v) h = Some b /\
  Algo.remove_if left 0 (Z.to_nat (sz v)) (Algo.pure q) b = Done (k, filter (fun x => q x = false) l ++ junk ++ drop (length l) b) /\
  k = length (filter (fun x => q x = false) l) /\ length l = (k + length junk)%nat /\
  h1 = mkHeap (next h) (if ptr v =? 0 then blocks h else <[ptr v := filter (fun x => q x = false) l ++ junk ++ drop (length l) b]> (blocks h)) /\
  holds v (filter (fun x => q x = false) l ++ junk) h1 /\ rest v h1 = rest v h.
Proof.
  intros H. pose proof H as [Hh Hs Hc (spare & Hb & Hcap)].
  destruct (Algo.remove_if_spec left q [] l spare 0 (Z.to_nat (sz v))) as (junk & E & Hl); [done|cbn; lia|]. cbn [app] in E.
  exists (l ++ spare), (length (filter (fun x => q x = false) l)), junk. eexists.
  rewrite drop_app_length. split_and!; [done|exact E|done|done|done| |].
  - destruct (Z.eqb_spec (ptr v) 0) as [E0|Hp].
    + rewrite E0 in Hb. cbn in Hb. injection Hb as Hb. symmetry in Hb. apply app_nil in Hb as [-> ->].
      destruct junk; [|cbn in Hl; lia]. by destruct h.
    + destruct (holds_set v l h (filter (fun x => q x = false) l ++ junk ++ spare) (filter (fun x => q x = false) l ++ junk) spare (sz v) H) as [Hv _];
        [by rewrite <- app_assoc|rewrite length_app; lia|rewrite !length_app; lia|done|]. by destruct v.
  - unfold rest. cbn. destruct (Z.eqb_spec (ptr v) 0); [done|]. by rewrite delete_insert_eq.
Qed.

(** [erase_if] keeps the elements that do not pass and returns how many did. *)
Lemma erase_if_spec q v l h : holds v l h -> exists v' h',
  erase_if q v h = Done (Z.of_nat (length (filter (fun x => q x = true) l)), v', h') /\
  holds v' (filter (fun x => q x = false) l) h' /\ rest v' h' = rest v h.
Proof.
  intros H. destruct (removed_holds q v l h H) as (b & k & junk & h1 & Hb & E & Ek & Hl & Eh & Hv & Hr).
  unfold erase_if. rewrite Hb. cbn [deref mbind outcome_bind]. rewrite E. cbn [mbind outcome_bind]. rewrite <- Eh.
  pose proof (hold_size _ _ _ H) as Hs. pose proof H as [_ _ Hc (spare & _ & Hcap)].
  destruct (erase_range_spec k (length l) v _ h1 Hv) as (v' & h' & Ee & Hv' & Hr'); [rewrite length_app; lia|].
  rewrite Ek, take_app_length, Hl, drop_ge, app_nil_r in Hv' by (rewrite length_app; lia).
  rewrite <- Hs in Ee. rewrite Ee. cbn [mbind outcome_bind]. exists v', h'. split_and!; [|done|by rewrite Hr'].
  pose proof (hold_size _ _ _ Hv') as Hs'. rewrite Hs, Hs'.
  assert (Hsum : length l = (length (filter (fun x => q x = true) l) + length (filter (fun x => q x = false) l))%nat).
  { clear. induction l as [|x l IH]; [done|]. rewrite !filter_cons. repeat case_decide; cbn; try lia; destruct (q x); done. }
  rewrite wrap64_small by (unfold is_u64; lia). do 3 f_equal. lia.
Qed.

Lemma erase_value_spec eqb x v l h : holds v l h -> exists v' h',
  erase eqb x v h = Done (Z.of_nat (length (filter (fun y => eqb y x = true) l)), v', h') /\
  holds v' (filter (fun y => eqb y x = false) l) h' /\ rest v' h' = rest v h.
Proof. apply (erase_if_spec (fun y => eqb y x)). Qed.

Lemma resize_with_spec n x v l h : holds v l h -> 0 <= n < 2 ^ 64 ->
  leads_to (resize_with n x v h) v h (take (Z.to_nat n) l ++ replicate (Z.to_nat n - length l) x).
Proof.
  intros H Hn. unfold resize_with.
  assert (G : exists v1 h1, (if cap v <? n then reserve n v h else Done (v, h)) = Done (v1, h1) /\ holds v1 l h1 /\ rest v1 h1 = rest v h /\ n <= cap v1).
  { destruct (Z.ltb_spec (cap v) n).
    - destruct (reserve_spec n v l h H) as (v1 & h1 & -> & Hv & Hr & Hc & _); [lia|]. exists v1, h1. split_and!; try done. lia.
    - by exists v, h. }
  destruct G as (v1 & h1 & -> & Hv & Hr & Hle). cbn [mbind outcome_bind]. pose proof Hv as [Hh Hs Hc (spare & Hb & Hcap)].
  rewrite Hs. destruct (Z.ltb_spec (Z.of_nat (length l)) n) as [Hlt|Hge].
  - rewrite take_ge by lia. set (k := (Z.to_nat n - length l)%nat).
    replace (Z.to_nat (n - Z.of_nat (length l))) with (length (replicate k x)) by (rewrite length_replicate; lia).
    rewrite (put_loop (ptr v1) (fun i => i) (fun _ _ => Done x) (replicate k x) (take k spare) l (drop k spare));
      [|..|done|by rewrite take_drop|rewrite length_replicate, length_take_le; lia].
    2:{ intros a' y c h' E _. f_equal. symmetry. apply (elem_of_replicate_inv y k). rewrite E. set_solver. }
    destruct k as [|k'] eqn:Ek; [lia|]. cbn [replicate mbind outcome_bind]. rewrite <- Ek. change (x :: replicate k' x) with (replicate (S k') x). rewrite <- Ek.
    destruct (holds_set v1 l h1 (l ++ replicate k x ++ drop k spare) (l ++ replicate k x) (drop k spare) n Hv) as [Hv' Hr'].
    + by rewrite <- app_assoc.
    + rewrite length_app, length_replicate. lia.
    + rewrite !length_app, length_replicate, length_drop. lia.
    + intros E0. rewrite E0 in Hb. cbn in Hb. injection Hb as Hb. symmetry in Hb. apply app_nil in Hb as [-> ->]. cbn in *. lia.
    + eexists _, _. split; [done|]. split; [done|]. by rewrite Hr'.
  - replace (Z.to_nat n - length l)%nat with 0%nat by lia. cbn [replicate mbind outcome_bind]. rewrite app_nil_r.
    eexists _, _. split; [done|]. split; [|done]. rewrite <- (Z2Nat.id n) at 1 by lia. apply holds_take; [done|lia].
Qed.

(** The loop of the range insertion moves [c] up by [n] places. *)
Lemma shift_up_spec p a n low c : low = Z.of_nat (length a) + n -> 0 < low -> forall fill spare h i fuel,
  block p h = Some (a ++ c ++ fill ++ spare) -> n = Z.of_nat (length fill) ->
  i = Z.of_nat (length a + length c) + n - 1 -> (length c < fuel)%nat -> Z.of_nat (length a + length c) + n < 2 ^ 64 ->
  exists junk, shift_up fuel i low n p h = Done (match c with [] => h | _ => set_block p (a ++ junk ++ c ++ spare) h end) /\
  length junk = length fill /\ (c = [] -> junk = fill).
Proof.
  intros Hlow Hpos. induction c as [|w c IH] using rev_ind; intros fill spare h i fuel Hb Hn Hi Hf Hw;
    (destruct fuel as [|fuel]; [lia|]); cbn [shift_up].
  - exists fill. rewrite (proj2 (Z.leb_gt _ _)) by (cbn in Hi; lia). done.
  - rewrite length_app in *. cbn [length] in *. rewrite (proj2 (Z.leb_le _ _)) by lia.
    assert (Hb1 : block p h = Some ((a ++ c) ++ w :: fill ++ spare)) by (rewrite Hb; by repeat (rewrite <- app_assoc; cbn)).
    pose proof (block_nonempty _ _ _ _ _ Hb1) as Hp.
    rewrite (get_app _ _ _ _ _ (i -64 n) Hb1) by (rewrite wrap64_small; rewrite ?length_app; unfold is_u64; lia). cbn [mbind outcome_bind].
    assert (Hput : exists fill', length fill' = length fill /\ put p i w h = Done (set_block p (a ++ c ++ fill' ++ w :: spare) h)).
    { destruct fill as [|f fill _] using rev_ind.
      - exists []. split; [done|]. rewrite (put_app _ _ _ w _ _ i Hb1) by (rewrite length_app; cbn in Hn; lia). by rewrite <- app_assoc.
      - exists (w :: fill). rewrite length_app in *. cbn [length] in *. split; [lia|].
        rewrite (put_app p ((a ++ c) ++ w :: fill) f w spare h i); [by repeat (rewrite <- app_assoc; cbn)| |].
        + rewrite Hb1. by repeat (rewrite <- app_assoc; cbn).
        + rewrite !length_app. cbn. lia. }
    destruct Hput as (fill' & Hl & ->). cbn [mbind outcome_bind]. rewrite wrap64_small by (unfold is_u64; lia).
    destruct (IH fill' (w :: spare) (set_block p (a ++ c ++ fill' ++ w :: spare) h) (i - 1) fuel) as (junk & -> & Hj & Hj0);
      [by apply block_set|lia|lia|lia|lia|].
    exists junk. split_and!; [|lia|by destruct c].
    replace (match c ++ [w] with [] => h | _ => set_block p (a ++ junk ++ (c ++ [w]) ++ spare) h end) with (set_block p (a ++ junk ++ (c ++ [w]) ++ spare) h) by (by destruct c).
    rewrite <- (app_assoc c [w] spare). cbn [app]. destruct c as [|z c]; [by rewrite (Hj0 eq_refl)|by rewrite set_set].
Qed.

(** The room that the range insertion asks for: [max] is the smaller number. *)
Lemma range_room n v l h : holds v l h -> 0 <= n -> Z.of_nat (length l) + n < 2 ^ 64 ->
  Z.of_nat (length l) + n <= cap v \/ Z.of_nat (length l) + n <= grown (cap v) ->
  exists v1 h1, (if cap v <? Z.of_nat (length l) + n then reserve (Algo.max (Z.of_nat (length l) + n) (grown (cap v)) []) v h else Done (v, h)) = Done (v1, h1) /\
  holds v1 l h1 /\ rest v1 h1 = rest v h /\ exists fill spare,
  block (ptr v1) h1 = Some (l ++ fill ++ spare) /\ Z.of_nat (length fill) = n /\ cap v1 = Z.of_nat (length (l ++ fill ++ spare)).
Proof.
  intros H Hn Hw Hcap.
  assert (G : exists v1 h1, (if cap v <? Z.of_nat (length l) + n then reserve (Algo.max (Z.of_nat (length l) + n) (grown (cap v)) []) v h else Done (v, h)) = Done (v1, h1) /\
    holds v1 l h1 /\ rest v1 h1 = rest v h /\ Z.of_nat (length l) + n <= cap v1).
  { destruct (Z.ltb_spec (cap v) (Z.of_nat (length l) + n)) as [Hlt|Hge].
    - set (m := Algo.max _ _ _). assert (Em : m = Z.of_nat (length l) + n) by (unfold m; cbn; zcases; lia).
      destruct (reserve_spec m v l h H) as (v1 & h1 & -> & Hv & Hr & Hc & _); [lia|]. exists v1, h1. split_and!; try done. lia.
    - by exists v, h. }
  destruct G as (v1 & h1 & -> & Hv & Hr & Hle). exists v1, h1. split_and!; [done..|].
  pose proof Hv as [_ _ _ (spare & Hb & Hc)]. exists (take (Z.to_nat n) spare), (drop (Z.to_nat n) spare).
  rewrite take_drop. split_and!; [done|rewrite length_take_le; lia|rewrite length_app; lia].
Qed.

(** Where the capacity need not grow to more than twice what it was, and unless
    nothing is inserted at the very beginning, a range is inserted. *)
Lemma insert_range_spec (idx : nat) xs v l h : holds v l h -> (idx <= length l)%nat -> (0 < idx + length xs)%nat ->
  Z.of_nat (length l + length xs) < 2 ^ 64 ->
  Z.of_nat (length l + length xs) <= cap v \/ Z.of_nat (length l + length xs) <= grown (cap v) ->
  leads_to (insert_range (Z.of_nat idx) xs v h) v h (take idx l ++ xs ++ drop idx l).
Proof.
  intros H Hi Hpos Hw Hcap. unfold insert_range. rewrite (hold_size _ _ _ H).
  rewrite Nat2Z.inj_add in *. rewrite (wrap64_small (Z.of_nat (length l) + Z.of_nat (length xs))) by (unfold is_u64; lia).
  destruct (range_room (Z.of_nat (length xs)) v l h H ltac:(lia) Hw Hcap) as (v1 & h1 & -> & Hv & Hr & fill & spare & Hb & Hlf & Hc).
  cbn [mbind outcome_bind]. pose proof (hold_size _ _ _ Hv) as Hs. rewrite Hs.
  rewrite !(wrap64_small (Z.of_nat _ + Z.of_nat _)) by (unfold is_u64; lia). rewrite wrap64_small by (unfold is_u64; lia).
  assert (Hlt : length (take idx l) = idx) by (rewrite length_take_le; lia).
  assert (Hld : length (drop idx l) = (length l - idx)%nat) by (by rewrite length_drop).
  assert (Hb1 : block (ptr v1) h1 = Some (take idx l ++ drop idx l ++ fill ++ spare)) by (by rewrite Hb, (app_assoc (take idx l)), take_drop).
  assert (Hp : ptr v1 <> 0).
  { intros E0. rewrite E0 in Hb. cbn in Hb. injection Hb as Hb. symmetry in Hb. apply app_nil in Hb as [-> Hb]. apply app_nil in Hb as [-> ->]. cbn in *. lia. }
  destruct (shift_up_spec (ptr v1) (take idx l) (Z.of_nat (length xs)) (Z.of_nat idx + Z.of_nat (length xs)) (drop idx l) ltac:(lia) ltac:(lia)
    fill spare h1 (Z.of_nat (length l) + Z.of_nat (length xs) - 1) (S (S (Z.to_nat (Z.of_nat (length l) + Z.of_nat (length xs)))))
    Hb1 ltac:(lia) ltac:(lia) ltac:(lia) ltac:(lia)) as (junk & -> & Hj & Hj0).
  cbn [mbind outcome_bind]. set (h2 := match drop idx l with [] => h1 | _ => _ end). rewrite Nat2Z.id.
  assert (Hb2 : block (ptr v1) h2 = Some (take idx l ++ junk ++ drop idx l ++ spare)).
  { unfold h2. destruct (drop idx l); [by rewrite (Hj0 eq_refl)|by apply block_set]. }
  rewrite (put_loop (ptr v1) (fun i => Z.of_nat idx + i) (fun i _ => deref (xs !! Z.to_nat i)) xs junk (take idx l) (drop idx l ++ spare)); [|..|done|lia].
  2:{ intros a' x c h' -> _. rewrite Z.add_0_l, Nat2Z.id, list_lookup_middle by done. done. }
  2:{ intros k. rewrite Hlt. lia. }
  cbn [mbind outcome_bind]. set (h3 := match xs with [] => h2 | _ => _ end).
  assert (E3 : h3 = set_block (ptr v1) (take idx l ++ xs ++ drop idx l ++ spare) h1).
  { assert (E2 : forall b, set_block (ptr v1) b h2 = set_block (ptr v1) b h1) by (intros b; unfold h2; destruct (drop idx l); [done|apply set_set]).
    rewrite <- E2. unfold h3. destruct xs; [|done]. symmetry. apply set_same; [done|]. destruct junk; [done|cbn in *; lia]. }
  destruct (holds_set v1 l h1 (take idx l ++ xs ++ drop idx l ++ spare) (take idx l ++ xs ++ drop idx l) spare
    (Z.of_nat (length l) + Z.of_nat (length xs)) Hv) as [Hv' Hr'].
  - by rewrite <- !app_assoc.
  - rewrite !length_app, Hlt, Hld. lia.
  - rewrite Hc, !length_app, Hlt, Hld. lia.
  - done.
  - rewrite E3. eexists _, _. split; [done|]. split; [done|]. by rewrite Hr'.
Qed.

(** ** Where the code goes wrong *)

Lemma put_outside p i x b h : block p h = Some b -> Z.of_nat (length b) <= i -> put p i x h = Stop Undefined.
Proof.
  intros Hb Hi. unfold put. rewrite Hb. cbn [deref mbind outcome_bind].
  by rewrite (proj2 (Z.ltb_ge i (Z.of_nat (length b)))), andb_false_r by lia.
Qed.

Lemma put_inside p i x b h : block p h = Some b -> 0 <= i < Z.of_nat (length b) ->
  put p i x h = Done (set_block p (<[Z.to_nat i := x]> b) h).
Proof.
  intros Hb Hi. unfold put. rewrite Hb. cbn [deref mbind outcome_bind].
  by rewrite (proj2 (Z.leb_le _ _)), (proj2 (Z.ltb_lt _ _)) by lia.
Qed.

(** A loop that stores more than there is room for. *)
Lemma put_loop_overruns p xs idx : 0 <= idx -> forall n b h (i : nat), block p h = Some b -> (i + n = length xs)%nat ->
  Z.of_nat (length b) < idx + Z.of_nat (length xs) -> idx + Z.of_nat i <= Z.of_nat (length b) ->
  for_loopM n (Z.of_nat i) (fun i h => x ← deref (xs !! Z.to_nat i); put p (idx + i) x h) h = Stop Undefined.
Proof.
  intros Hidx. induction n as [|n IH]; intros b h i Hb Hn Hl Hi; [lia|]. cbn [for_loopM].
  destruct (lookup_lt_is_Some_2 xs i) as [x Hx]; [lia|]. rewrite Nat2Z.id, Hx. cbn [deref mbind outcome_bind].
  destruct (decide (idx + Z.of_nat i = Z.of_nat (length b))) as [E|Hne]; [by rewrite (put_outside _ _ _ b) by (done || lia)|].
  rewrite (put_inside _ _ _ b) by (done || lia). cbn [mbind outcome_bind].
  replace (Z.of_nat i + 1) with (Z.of_nat (S i)) by lia.
  assert (Hp : p <> 0) by (intros ->; cbn in Hb; injection Hb as <-; cbn in *; lia).
  apply (IH (<[Z.to_nat (idx + Z.of_nat i) := x]> b)); rewrite ?length_insert; try lia. by apply (block_set p _ h).
Qed.

(** A range that needs more than twice the capacity is written past the buffer. *)
Lemma insert_range_overruns (idx : nat) xs v l h : holds v l h -> (idx <= length l)%nat ->
  Z.of_nat (length l + length xs) < 2 ^ 64 -> cap v < 2 ^ 63 -> grown (cap v) < Z.of_nat (length l + length xs) ->
  insert_range (Z.of_nat idx) xs v h = Stop Undefined.
Proof.
  intros H Hi Hw Hc63 Hg. pose proof H as [_ Hs Hc (sp & _ & Hcap)].
  assert (Hgr : cap v < grown (cap v) < 2 ^ 64).
  { unfold grown in *. destruct (Z.eqb_spec (cap v) 0); [lia|]. rewrite wrap64_small; unfold is_u64; lia. }
  unfold insert_range. rewrite Hs, Nat2Z.inj_add in *.
  rewrite (wrap64_small (Z.of_nat (length l) + Z.of_nat (length xs))) by (unfold is_u64; lia).
  rewrite (proj2 (Z.ltb_lt (cap v) _)) by lia. cbn [Algo.max]. rewrite (proj2 (Z.ltb_ge _ (grown (cap v)))) by lia.
  destruct (reserve_spec (grown (cap v)) v l h H) as (v1 & h1 & -> & Hv & _ & Hc1 & Hs1); [lia|].
  cbn [mbind outcome_bind]. rewrite Hs1, Hs. pose proof Hv as [_ _ _ (spare & Hb & Hcap1)].
  rewrite !(wrap64_small (Z.of_nat _ + Z.of_nat _)) by (unfold is_u64; lia). rewrite wrap64_small by (unfold is_u64; lia).
  cbn [shift_up]. destruct (Z.leb_spec (Z.of_nat idx + Z.of_nat (length xs)) (Z.of_nat (length l) + Z.of_nat (length xs) - 1)) as [Hlo|Hhi].
  - destruct (lookup_lt_is_Some_2 l (length l - 1)) as [x Hx]; [lia|]. apply list_elem_of_split_length in Hx as (l1 & l2 & -> & El).
    rewrite (get_app (ptr v1) l1 x (l2 ++ spare)); [|by rewrite Hb, <- app_assoc|rewrite wrap64_small by (unfold is_u64; lia); lia].
    cbn [mbind outcome_bind]. rewrite (put_outside _ _ _ _ _ Hb) by (rewrite length_app; lia). done.
  - cbn [mbind outcome_bind]. rewrite Nat2Z.id.
    pose proof (put_loop_overruns (ptr v1) xs (Z.of_nat idx) ltac:(lia) (length xs) (l ++ spare) h1 0 Hb) as Ho.
    change (Z.of_nat 0) with 0 in Ho. rewrite Ho; [done|done|rewrite length_app; lia|rewrite length_app; lia].
Qed.

(** So does an empty vector with any two elements. *)
Corollary insert_two_into_empty x y xs h : heap_ok h -> Z.of_nat (length (x :: y :: xs)) < 2 ^ 64 ->
  insert_range 0 (x :: y :: xs) empty_vector h = Stop Undefined.
Proof. intros Hh Hl. apply (insert_range_overruns 0 (x :: y :: xs) empty_vector []); [by apply empty_holds|cbn in *; lia..]. Qed.

(** With nothing to insert in front of everything, the index of the loop wraps
    around below zero and the loop goes on. *)
Lemma shift_up_wraps p b : Z.of_nat (length b) < 2 ^ 64 -> forall k fuel h, block p h = Some b -> (k <= length b)%nat -> (k < fuel)%nat ->
  shift_up fuel (Z.of_nat k -64 1) 0 0 p h = Stop Undefined.
Proof.
  intros Hlen. induction k as [|k IH]; intros fuel h Hb Hk Hf; (destruct fuel as [|fuel]; [lia|]); cbn [shift_up].
  - change ((Z.of_nat 0 -64 1)) with (2 ^ 64 - 1). cbn [Z.leb Z.compare]. unfold get. rewrite Hb. cbn [deref mbind outcome_bind].
    change ((2 ^ 64 - 1) -64 0) with (2 ^ 64 - 1). by rewrite lookup_ge_None_2 by lia.
  - replace (Z.of_nat (S k) -64 1) with (Z.of_nat k) by (rewrite wrap64_small; unfold is_u64; lia).
    rewrite (proj2 (Z.leb_le _ _)) by lia. rewrite Z.sub_0_r, (wrap64_small (Z.of_nat k)) by (unfold is_u64; lia).
    destruct (lookup_lt_is_Some_2 b k) as [x Hx]; [lia|]. apply list_elem_of_split_length in Hx as (b1 & b2 & -> & Ek).
    rewrite (get_app _ _ _ _ _ _ Hb) by lia. cbn [mbind outcome_bind]. rewrite (put_app _ _ _ x _ _ _ Hb) by lia. cbn [mbind outcome_bind].
    rewrite set_same by (done || by apply block_nonempty in Hb). apply IH; [done|lia|lia].
Qed.

Lemma insert_nothing_in_front v l h : holds v l h -> insert_range 0 [] v h = Stop Undefined.
Proof.
  intros [_ Hs Hc (spare & Hb & Hcap)]. unfold insert_range. change (Z.of_nat (length [])) with 0.
  assert (Hw : (sz v +64 0) = sz v) by (rewrite Z.add_0_r, wrap64_small; [done|unfold is_u64; lia]).
  rewrite Hw, (proj2 (Z.ltb_ge _ _)) by lia. cbn [mbind outcome_bind]. rewrite Hw, Hs. change (0 +64 0) with 0.
  rewrite (shift_up_wraps (ptr v) (l ++ spare)); [done|rewrite length_app; lia|done|rewrite length_app; lia|lia].
Qed.

(** Pushing an element of a full vector onto it reads the buffer that has just
    been freed. *)
Lemma push_back_own_element i v l h : holds v l h -> l <> [] -> sz v = cap v -> Z.of_nat (length l) < 2 ^ 63 ->
  push_back (Element (ptr v) i) v h = Stop Undefined.
Proof.
  intros H Hl Hfull Hb63. unfold push_back. rewrite (proj2 (Z.eqb_eq _ _) Hfull).
  pose proof H as [Hh Hs Hc (spare & Hb & Hcap)].
  assert (Hp : ptr v <> 0) by (intros E; rewrite E in Hb; cbn in Hb; by destruct l).
  assert (Hg : cap v < grown (cap v) < 2 ^ 64).
  { unfold grown. destruct (Z.eqb_spec (cap v) 0); [lia|]. rewrite wrap64_small; unfold is_u64; lia. }
  destruct (reserve_spec (grown (cap v)) v l h H) as (v1 & h1 & E & Hv & Hr & Hc1 & Hs1); [lia|]. rewrite E. cbn [mbind outcome_bind].
  assert (Hne : ptr v1 <> ptr v).
  { unfold reserve, reallocate in E. rewrite (proj2 (Z.ltb_lt _ _)) in E by lia.
    destruct (new_array (grown (cap v)) h) as [q h0] eqn:En. destruct (new_array_spec _ _ _ _ Hh En) as (_ & _ & _ & Hq & _).
    done_inv E. done_inv E. injection E as <- _. cbn. intros ->. unfold block in Hb. rewrite (proj2 (Z.eqb_neq _ _)), Hq in Hb by done. done. }
  unfold read_argument, get, block. rewrite (proj2 (Z.eqb_neq _ _)) by done.
  apply (f_equal (fun m => m !! ptr v)) in Hr. unfold rest in Hr. rewrite lookup_delete_ne, lookup_delete_eq in Hr by done. by rewrite Hr.
Qed.

(** ** Copies *)

(** A copy holds the same elements in a buffer of its own, which is only as long
    as they are; the capacity is that of the original. *)
Lemma copy_vector_spec v l h : holds v l h -> exists p h',
  copy_vector v h = Done (mkVector p (sz v) (cap v), h') /\ block p h' = Some l /\ p <> 0 /\ p <> ptr v /\
  delete p (blocks h') = blocks h.
Proof.
  intros [Hh Hs Hc (spare & Hb & Hcap)]. unfold copy_vector. destruct (new_array (sz v) h) as [p h1] eqn:E.
  destruct (new_array_spec _ _ _ _ Hh E) as (_ & _ & Hp0 & Hpn & Hb1 & Hbp).
  assert (Hne : p <> ptr v).
  { intros ->. unfold block in Hb. rewrite (proj2 (Z.eqb_neq _ _)), Hpn in Hb by done. done. }
  assert (Hv1 : block (ptr v) h1 = Some (l ++ spare)) by (rewrite <- Hb; unfold block; by rewrite Hb1, lookup_insert_ne).
  rewrite Hs, Nat2Z.id in *.
  rewrite (put_loop p (fun i => i) (fun i h => get (ptr v) i h) l (replicate (length l) init) [] []); [|..|done|by rewrite app_nil_r|by rewrite length_replicate].
  2:{ intros a' x c h' -> Hr. apply (get_app _ a' x (c ++ spare)); [|done]. rewrite Hr, Hv1 by done. by rewrite <- app_assoc. }
  cbn [mbind outcome_bind app]. rewrite app_nil_r. exists p. eexists. split; [done|]. split_and!; [|done|done|].
  - destruct l; [done|]. by apply block_set.
  - assert (G : forall b, delete p (<[p := b]> (blocks h)) = blocks h) by (intros b; by rewrite delete_insert_eq, delete_id).
    destruct l; cbn [blocks set_block]; rewrite Hb1, ?insert_insert_eq; apply G.
Qed.

(** Pushing to the copy of a vector with spare capacity writes past its buffer. *)
Lemma push_to_copy_overruns x v l h : holds v l h -> sz v < cap v -> exists c h',
  copy_vector v h = Done (c, h') /\ push_back (Value x) c h' = Stop Undefined.
Proof.
  intros H Hlt. destruct (copy_vector_spec v l h H) as (p & h' & E & Hb & _). eexists _, h'. split; [done|].
  unfold push_back. cbn [sz cap ptr]. rewrite (proj2 (Z.eqb_neq _ _)) by lia. cbn [mbind outcome_bind read_argument].
  pose proof (hold_size _ _ _ H) as Hs. cbn [sz cap ptr]. by rewrite (put_outside p (sz v) x l h' Hb) by lia.
Qed.

(** Assignment leaves the old buffer allocated. *)
Lemma assignment_leaks v l other l' h : holds v l h -> holds other l' h -> ptr v <> 0 -> exists c h',
  assign_copy false v other h = Done (c, h') /\ ptr c <> ptr v /\ block (ptr v) h' = block (ptr v) h.
Proof.
  intros Hv Ho Hp. destruct (copy_vector_spec other l' h Ho) as (p & h' & E & Hb & Hp0 & Hpo & Hd).
  exists (mkVector p (sz other) (cap other)), h'. split; [done|]. cbn [ptr].
  assert (Hpv : p <> ptr v).
  { intros ->. pose proof Hv as [_ _ _ (spare & Hbv & _)]. unfold block in Hbv. rewrite (proj2 (Z.eqb_neq _ _)) in Hbv by done.
    rewrite <- Hd, lookup_delete_eq in Hbv. done. }
  split; [done|]. unfold block. rewrite <- Hd, lookup_delete_ne by done. done.
Qed.

(** ** Vectors are lists *)

(** The operations that work on every vector; [Cut] is a [resize] that does not
    grow, and what is pushed or inserted is not an element of the vector. *)
Inductive operation :=
| Push (x : T)
| Pop
| Insert (i : nat) (x : T)
| Erase (i j : nat)
| EraseIf (q : T -> bool)
| Clear
| Reserve (n : Z)
| ShrinkToFit
| ResizeWith (n : Z) (x : T)
| Cut (n : nat).

Definition exec (o : operation) (v : vector) (h : heap) : outcome (vector * heap) :=
  match o with
  | Push x => push_back (Value x) v h
  | Pop => Done (pop_back v, h)
  | Insert i x => insert (Z.of_nat i) x v h
  | Erase i j => erase_range (Z.of_nat i) (Z.of_nat j) v h
  | EraseIf q => '(_, v, h) ← erase_if q v h; Done (v, h)
  | Clear => Done (clear v, h)
  | Reserve n => reserve n v h
  | ShrinkToFit => shrink_to_fit v h
  | ResizeWith n x => resize_with n x v h
  | Cut n => resize (Z.of_nat n) v h
  end.

(** What the operation means. *)
Definition meaning (o : operation) (l : list T) : list T :=
  match o with
  | Push x => l ++ [x]
  | Pop => removelast l
  | Insert i x => take i l ++ x :: drop i l
  | Erase i j => take i l ++ drop j l
  | EraseIf q => filter (fun x => q x = false) l
  | Clear => []
  | Reserve _ | ShrinkToFit => l
  | ResizeWith n x => take (Z.to_nat n) l ++ replicate (Z.to_nat n - length l) x
  | Cut n => take n l
  end.

(** When it may be called: positions are inside, and sizes fit [size_type]. *)
Definition legal (o : operation) (l : list T) : Prop :=
  match o with
  | Push _ => Z.of_nat (length l) < 2 ^ 63
  | Pop => l <> []
  | Insert i _ => Z.of_nat (length l) < 2 ^ 63 /\ (i <= length l)%nat
  | Erase i j => (i <= j <= length l)%nat
  | EraseIf _ | Clear | ShrinkToFit => True
  | Reserve n => n < 2 ^ 64
  | ResizeWith n _ => 0 <= n < 2 ^ 64
  | Cut n => (n <= length l)%nat
  end.

Lemma exec_spec o v l h : holds v l h -> legal o l -> leads_to (exec o v h) v h (meaning o l).
Proof.
  intros H Ho. destruct o; cbn [exec meaning legal] in *.
  - by apply push_back_spec.
  - eexists _, _. split; [done|]. split; [by apply pop_back_spec|done].
  - destruct Ho. by apply insert_spec.
  - by apply erase_range_spec.
  - destruct (erase_if_spec q v l h H) as (v' & h' & -> & Hv & Hr). by exists v', h'.
  - eexists _, _. split; [done|]. split; [|done]. apply (holds_take v l h 0 H). lia.
  - destruct (reserve_spec n v l h H Ho) as (v' & h' & E & Hv & Hr & _). by exists v', h'.
  - by apply shrink_spec.
  - by apply resize_with_spec.
  - unfold resize. pose proof H as [_ Hs _ (spare & _ & Hc)]. rewrite (proj2 (Z.ltb_ge _ _)) by (rewrite Hc; lia).
    cbn [mbind outcome_bind]. eexists _, _. split; [done|]. split; [|done]. by apply (holds_take v l h n H).
Qed.

Fixpoint run (os : list operation) (v : vector) (h : heap) : outcome (vector * heap) :=
  match os with
  | [] => Done (v, h)
  | o :: os => '(v, h) ← exec o v h; run os v h
  end.

Fixpoint all_legal (os : list operation) (l : list T) : Prop :=
  match os with
  | [] => True
  | o :: os => legal o l /\ all_legal os (meaning o l)
  end.

Lemma run_spec os : forall v l h, holds v l h -> all_legal os l ->
  leads_to (run os v h) v h (fold_left (fun l o => meaning o l) os l).
Proof.
  induction os as [|o os IH]; intros v l h H Hl; cbn [run fold_left]; [by exists v, h|]. destruct Hl as [Ho Hl].
  destruct (exec_spec o v l h H Ho) as (v1 & h1 & -> & Hv & Hr). cbn [mbind outcome_bind].
  destruct (IH v1 _ h1 Hv Hl) as (v2 & h2 & -> & Hv2 & Hr2). exists v2, h2. split_and!; [done|done|by rewrite Hr2].
Qed.

Lemma at_spec i x v l h : holds v l h -> l !! i = Some x -> at_ (Z.of_nat i) v h = Done x.
Proof.
  intros [_ _ _ (spare & Hb & _)] Hi. apply list_elem_of_split_length in Hi as (l1 & l2 & -> & ->).
  apply (get_app _ l1 x (l2 ++ spare)); [|done]. by rewrite Hb, <- app_assoc.
Qed.

Lemma front_back_spec v l h x y : holds v l h -> head l = Some x -> last l = Some y -> front v h = Done x /\ back v h = Done y.
Proof.
  intros H Hx Hy. split.
  - apply (at_spec 0 x v l h H). by destruct l.
  - unfold back. rewrite last_lookup in Hy. pose proof (lookup_lt_Some _ _ _ Hy). pose proof H as [_ Hs Hc (sp & _ & Hcap)].
    rewrite Hs, wrap64_small by (unfold is_u64; lia).
    replace (Z.of_nat (length l) - 1) with (Z.of_nat (pred (length l))) by lia. by apply (at_spec _ _ _ l).
Qed.

Lemma destroy_frees v l h : holds v l h -> exists h', destroy v h = Done h' /\ blocks h' = rest v h.
Proof.
  intros [(Hn & H0 & Hf) _ _ (spare & Hb & _)]. unfold destroy, delete_array, rest. unfold block in Hb.
  destruct (Z.eqb_spec (ptr v) 0) as [E|Hp].
  - exists h. split; [done|]. by rewrite E, delete_id.
  - rewrite Hb. cbn. by eexists.
Qed.
End Ops.

(** C13: Whatever sequence of [push_back], [pop_back], insertion of one element,
    [erase], [erase_if], [clear], [reserve], [shrink_to_fit], [resize] with a value
    and [resize] to fewer elements a program performs on a vector, from the empty
    one on and with positions inside it, the vector holds exactly the list that
    the operations give when they are read as operations on lists; reserving and
    shrinking change nothing that can be seen.  Every read inside the vector gives
    the element of the list, no buffer of anybody else changes, and when the
    vector is destroyed nothing of it is left in the heap.  Elements of the vector
    itself are not pushed, and copies, assignments and insertion of ranges are not
    among the operations: for those the lemmas above show where the code goes
    wrong. *)
Theorem vector_refines_list {T} (init : T) (left : T -> T) (os : list (@operation T)) (h : @heap T) :
  heap_ok h -> all_legal os [] ->
  let l := fold_left (fun l o => meaning o l) os [] in
  exists v' h', run init left os empty_vector h = Done (v', h') /\
  size v' = Z.of_nat (length l) /\
  (forall i x, l !! i = Some x -> at_ (Z.of_nat i) v' h' = Done x) /\
  exists h'', destroy v' h' = Done h'' /\ blocks h'' = blocks h.
Proof.
  intros Hh Hl l. destruct (run_spec init left os empty_vector [] h (empty_holds h Hh) Hl) as (v' & h' & E & Hv & Hr).
  exists v', h'. split_and!; [done|by apply hold_size in Hv| |].
  - intros i x. by apply at_spec.
  - destruct (destroy_frees v' _ h' Hv) as (h'' & Ed & Hb). exists h''. split; [done|]. rewrite Hb, Hr.
    unfold rest. cbn. apply delete_id. apply (proj1 (proj2 Hh)).
Qed.

Definition demo_heap : @heap Z := mkHeap 5 {[3 := [42]]}.
Definition demo : list (@operation Z) :=
  [Push 1; Push 2; Push 3; Insert 1 7; Reserve 9; EraseIf Z.even; ShrinkToFit; Erase 0 1; ResizeWith 4 8; Pop; Cut 2].

(** Eleven operations, with somebody else's buffer in the heap; a move leaves zero. *)
Lemma vector_refines_list_witness : exists v' h', run 0 (fun _ => 0) demo empty_vector demo_heap = Done (v', h') /\
  size v' = 2 /\
  (forall i x, [7; 3] !! i = Some x -> at_ (Z.of_nat i) v' h' = Done x) /\
  exists h'', destroy v' h' = Done h'' /\ blocks h'' = {[3 := [42]]}.
Proof.
  apply (vector_refines_list 0 (fun _ => 0) demo demo_heap).
  - split; [apply Z.ltb_lt; reflexivity|]. split; [apply lookup_singleton_ne; lia|].
    intros p Hp. apply lookup_singleton_ne. cbn in Hp. lia.
  - repeat split; vm_compute; first [reflexivity | discriminate | lia].
Defined.
End Vector.
