(* ===== verification/LinkedList.v ===== *)
(** * Singly linked lists

    Models [SinglyLinkedList] and [SinglyLinkedListNode] of
    src/kernel/src/linked_list.h at the level of its nodes: a store of nodes by
    address, the [Head] and [Tail] pointers and the [Length] counter.  [new]
    takes an address never used before and [delete] removes the node, so that a
    dangling pointer is undefined behaviour when it is used. *)

From S2P Require Import Prelude.

Module SLL.

Section Ops.
Context {T : Type}.

Record node := mkNode { Data : T; Next : Z }.

Record slist := mkList {
  nodes : gmap Z node;
  brk : Z;
  Length : Z;
  Head : Z;
  Tail : Z
}.

(** A default-constructed list; [b] is the first address [new] returns. *)
Definition empty (b : Z) : slist := mkList ∅ b 0 0 0.

Definition with_nodes (ns : gmap Z node) (s : slist) := mkList ns (brk s) (Length s) (Head s) (Tail s).
Definition with_Length (n : Z) (s : slist) := mkList (nodes s) (brk s) n (Head s) (Tail s).
Definition with_Head (a : Z) (s : slist) := mkList (nodes s) (brk s) (Length s) a (Tail s).
Definition with_Tail (a : Z) (s : slist) := mkList (nodes s) (brk s) (Length s) (Head s) a.

(** [new Node(value, next)] and [delete node]. *)
Definition new_node (value : T) (next : Z) (s : slist) : Z * slist :=
  (brk s, mkList (<[brk s := mkNode value next]> (nodes s)) (brk s + 1) (Length s) (Head s) (Tail s)).
Definition delete_node (a : Z) (s : slist) : slist := with_nodes (delete a (nodes s)) s.

Definition get (a : Z) (s : slist) : outcome node := deref (nodes s !! a).
Definition next (a : Z) (s : slist) : outcome Z := n ← get a s; Done (Next n).
Definition value (a : Z) (s : slist) : outcome T := n ← get a s; Done (Data n).
Definition set_next (a nx : Z) (s : slist) : outcome slist :=
  n ← get a s; Done (with_nodes (<[a := mkNode (Data n) nx]> (nodes s)) s).

Definition add (v : T) (s : slist) : slist :=
  let '(newHead, s) := new_node v (Head s) s in
  let s := with_Head newHead s in
  let s := if Tail s =? 0 then with_Tail (Head s) s else s in
  with_Length (Length s +64 1) s.

Definition add_end (v : T) (s : slist) : outcome slist :=
  if Head s =? 0 then Done (add v s)
  else
    let '(newTail, s) := new_node v 0 s in
    let s := if Tail s =? 0 then with_Tail (Head s) s else s in
    s ← set_next (Tail s) newTail s;
    t ← next (Tail s) s;
    Done (with_Length (Length s +64 1) (with_Tail t s)).

(** [while (it && index--)] *)
Fixpoint at_loop (fuel : nat) (it out index : Z) (s : slist) : outcome Z :=
  match fuel with
  | O => Stop Hung
  | S f =>
      if it =? 0 then Done out
      else if index =? 0 then Done out
      else nx ← next it s; at_loop f nx it (index -64 1) s
  end.

Definition at_index (index : Z) (s : slist) : outcome T :=
  out ← at_loop (S (size (nodes s))) (Head s) 0 (index +64 1) s;
  value out s.

(** The nodes visited by [for_each] and by the iterators, with their values. *)
Fixpoint walk (fuel : nat) (it : Z) (s : slist) : outcome (list (Z * T)) :=
  match fuel with
  | O => Stop Hung
  | S f =>
      if it =? 0 then Done []
      else
        n ← get it s;
        rest ← walk f (Next n) s;
        Done ((it, Data n) :: rest)
  end.

Definition for_each (s : slist) : outcome (list (Z * T)) := walk (S (size (nodes s))) (Head s) s.

(** The [while (current)] loop of [remove]; the result is
    ([prev], [current], [next]). *)
Fixpoint remove_loop (fuel : nat) (index i prev current nx : Z) (s : slist) : outcome (Z * Z * Z) :=
  match fuel with
  | O => Stop Hung
  | S f =>
      if current =? 0 then Done (prev, current, nx)
      else
        current ← next current s;
        nx ← (if negb (current =? 0) then next current s else Done nx);
        if index <=? i then Done (prev, current, nx)
        else remove_loop f index (i + 1) current current nx s
  end.

Definition remove (index : Z) (s : slist) : outcome (bool * slist) :=
  if Length s <=? index then Done (false, s)
  else if index =? 0 then
    if negb (Head s =? 0) then
      let old := Head s in
      h ← next (Head s) s;
      Done (true, delete_node old (with_Length (Length s -64 1) (with_Head h s)))
    else Done (true, with_Tail 0 s)
  else
    nx ← next (Head s) s;
    '(prev, current, nx) ← remove_loop (S (size (nodes s))) index 1 (Head s) (Head s) nx s;
    let s := if nx =? 0 then with_Tail prev s else s in
    s ← set_next prev nx s;
    Done (true, delete_node current (with_Length (Length s -64 1) s)).

(** The destructor. *)
Fixpoint destroy_loop (fuel : nat) (s : slist) : outcome slist :=
  match fuel with
  | O => Stop Hung
  | S f =>
      if Head s =? 0 then Done s
      else
        let tmp := Head s in
        h ← next (Head s) s;
        destroy_loop f (delete_node tmp (with_Head h s))
  end.

Definition destroy (s : slist) : outcome slist := destroy_loop (S (size (nodes s))) s.

(** ** What a list represents *)

(** The nodes at the addresses [ns] hold the values [xs], each pointing to the
    next and the last one to [e]. *)
Fixpoint chain (m : gmap Z node) (ns : list Z) (xs : list T) (e : Z) : Prop :=
  match ns, xs with
  | [], [] => True
  | n :: ns', x :: xs' => n ≠ 0 /\ m !! n = Some (mkNode x (List.hd e ns')) /\ chain m ns' xs' e
  | _, _ => False
  end.

Record represents (s : slist) (ns : list Z) (xs : list T) : Prop := {
  rep_chain : chain (nodes s) ns xs 0;
  rep_nodup : NoDup ns;
  rep_head : Head s = List.hd 0 ns;
  rep_tail : Tail s = List.last ns 0;
  rep_length : Length s = Z.of_nat (length xs);
  rep_fits : Length s < 2 ^ 64 - 1;
  rep_fresh : forall a, brk s <= a -> nodes s !! a = None;
  rep_brk : 0 < brk s
}.

End Ops.
Arguments node T : clear implicits.
Arguments slist T : clear implicits.

Section Lemmas.
Context {T : Type}.
Implicit Types (s : slist T) (ns : list Z) (xs : list T).

Lemma chain_length (m : gmap Z (node T)) ns xs e : chain m ns xs e -> length ns = length xs.
Proof. revert xs. induction ns as [|n ns IH]; intros [|x xs]; cbn; [done..|]. intros (_ & _ & H). f_equal. by apply IH. Qed.

Lemma chain_ext (m m' : gmap Z (node T)) ns xs e :
  (forall n, n ∈ ns -> m' !! n = m !! n) -> chain m ns xs e -> chain m' ns xs e.
Proof.
  revert xs. induction ns as [|n ns IH]; intros [|x xs] Hm; cbn [chain]; [done..|].
  intros (H0 & H1 & H2). split_and!; [done| |].
  - rewrite Hm; [done|by left].
  - apply IH; [|done]. intros k Hk. apply Hm. by right.
Qed.

Lemma chain_in (m : gmap Z (node T)) ns xs e n : chain m ns xs e -> n ∈ ns -> n ≠ 0 /\ is_Some (m !! n).
Proof.
  revert xs. induction ns as [|k ns IH]; intros [|x xs]; cbn [chain]; intros H Hin;
    [by apply not_elem_of_nil in Hin|done|done|].
  destruct H as (H0 & H1 & H2). apply elem_of_cons in Hin as [->|Hin]; [by eauto|by eapply IH].
Qed.

Lemma chain_app (m : gmap Z (node T)) ns1 ns2 xs1 xs2 e :
  length ns1 = length xs1 ->
  chain m (ns1 ++ ns2) (xs1 ++ xs2) e <-> chain m ns1 xs1 (List.hd e ns2) /\ chain m ns2 xs2 e.
Proof.
  revert xs1. induction ns1 as [|n ns1 IH]; intros [|x xs1]; cbn [chain app length]; intros Hl; try done; [tauto|].
  rewrite IH by lia. destruct ns1; cbn [app List.hd]; tauto.
Qed.

Lemma chain_lookup (m : gmap Z (node T)) ns1 n ns2 xs1 x xs2 e :
  length ns1 = length xs1 -> chain m (ns1 ++ n :: ns2) (xs1 ++ x :: xs2) e ->
  n ≠ 0 /\ m !! n = Some (mkNode x (List.hd e ns2)).
Proof. intros Hl H. apply chain_app in H as [_ H]; [|done]. cbn [chain] in H. tauto. Qed.

Lemma chain_size (m : gmap Z (node T)) ns xs e : NoDup ns -> chain m ns xs e -> (length ns <= size m)%nat.
Proof.
  intros Hnd Hc. rewrite <- size_dom, <- (size_list_to_set (C := gset Z) ns Hnd). apply subseteq_size.
  intros n Hn%elem_of_list_to_set. apply elem_of_dom. by apply (chain_in _ _ _ _ n Hc).
Qed.

Lemma last_snoc (ns : list Z) n d : List.last (ns ++ [n]) d = n.
Proof. induction ns as [|k ns IH]; [done|]. cbn [app List.last]. destruct (ns ++ [n]) eqn:E; [by destruct ns|done]. Qed.

Lemma last_default (ns : list Z) d d' : ns ≠ [] -> List.last ns d = List.last ns d'.
Proof. destruct ns as [|n ns _] using rev_ind; [done|]. by rewrite !last_snoc. Qed.

Lemma last_in (ns : list Z) d : ns ≠ [] -> List.last ns d ∈ ns.
Proof. destruct ns as [|n ns _] using rev_ind; [done|]. rewrite last_snoc. intros _. apply elem_of_app. right. by left. Qed.

Lemma next_known s a n : nodes s !! a = Some n -> next a s = Done (Next n).
Proof. intros H. unfold next, get. by rewrite H. Qed.

Lemma represents_empty b : 0 < b -> represents (empty (T := T) b) [] [].
Proof. intros Hb. split; cbn; (done || constructor || lia). Qed.

Lemma represents_nonnull s ns xs n : represents s ns xs -> n ∈ ns -> n ≠ 0 /\ n < brk s.
Proof.
  intros R Hn. destruct (chain_in _ _ _ _ _ (rep_chain _ _ _ R) Hn) as [H0 [x Hx]]. split; [done|].
  destruct (decide (n < brk s)); [done|]. rewrite (rep_fresh _ _ _ R) in Hx by lia. done.
Qed.

Lemma head_null s ns xs : represents s ns xs -> (Head s =? 0) = bool_decide (ns = []).
Proof.
  intros R. rewrite (rep_head _ _ _ R). destruct ns as [|n ns]; [done|].
  destruct (represents_nonnull _ _ _ n R) as [H0 _]; [by left|]. cbn [List.hd]. by rewrite (proj2 (Z.eqb_neq n 0)).
Qed.

Lemma tail_null s ns xs : represents s ns xs -> (Tail s =? 0) = bool_decide (ns = []).
Proof.
  intros R. rewrite (rep_tail _ _ _ R). destruct (decide (ns = [])) as [->|Hne]; [done|].
  rewrite bool_decide_false by done. apply Z.eqb_neq. apply (represents_nonnull _ _ _ _ R), last_in, Hne.
Qed.

(** [add] puts the value in front. *)
Lemma add_spec s ns xs v :
  represents s ns xs -> Length s < 2 ^ 64 - 2 -> represents (add v s) (brk s :: ns) (v :: xs).
Proof.
  intros R Hlen. pose proof (tail_null _ _ _ R) as Ht. pose proof (rep_brk _ _ _ R) as Hb.
  pose proof (rep_length _ _ _ R) as HL.
  assert (Hni : brk s ∉ ns) by (intros Hin; apply (represents_nonnull _ _ _ _ R) in Hin; lia).
  unfold add, new_node. cbn [Tail with_Head]. rewrite Ht.
  assert (Hc : chain (<[brk s := mkNode v (Head s)]> (nodes s)) (brk s :: ns) (v :: xs) 0).
  { cbn [chain]. split_and!; [lia| |].
    - rewrite lookup_insert_eq. do 2 f_equal. apply R.
    - eapply chain_ext; [|apply R]. intros n Hn. rewrite lookup_insert_ne; [done|]. by intros <-. }
  assert (Hf : forall a, brk s + 1 <= a -> <[brk s := mkNode v (Head s)]> (nodes s) !! a = None).
  { intros a Ha. rewrite lookup_insert_ne by lia. apply R. lia. }
  rewrite wrap64_small in * by (destruct (bool_decide _); unfold is_u64; cbn; lia).
  case_bool_decide as E.
  - split; cbn; rewrite ?E; try done; try lia; [by rewrite E in Hc|by apply NoDup_singleton].
  - split; cbn [nodes Head Tail Length brk with_Head with_Length]; try done; try lia.
    + constructor; [done|apply R].
    + rewrite (rep_tail _ _ _ R). by destruct ns.
    + cbn [length]. lia.
Qed.

(** [add_end] puts it at the back. *)
Lemma add_end_spec s ns xs v :
  represents s ns xs -> Length s < 2 ^ 64 - 2 ->
  exists s', add_end v s = Done s' /\ represents s' (ns ++ [brk s]) (xs ++ [v]) /\ brk s' = brk s + 1 /\
    forall n, n ∈ ns -> value n s' = value n s.
Proof.
  intros R Hlen. unfold add_end. rewrite (head_null _ _ _ R).
  pose proof (chain_length _ _ _ _ (rep_chain _ _ _ R)) as Hll.
  destruct ns as [|t ns _] using rev_ind.
  { destruct xs; [|done]. cbn. exists (add v s). split_and!; [done|by apply (add_spec s [] [])| |].
    - unfold add, new_node. cbn. by destruct (Tail s =? 0).
    - intros n Hn. by apply not_elem_of_nil in Hn. }
  rewrite bool_decide_false by (by destruct ns).
  destruct xs as [|xt xs _] using rev_ind; [rewrite length_app in Hll; cbn in Hll; lia|].
  rewrite !length_app in Hll. cbn in Hll.
  unfold new_node. cbn [Tail]. rewrite (tail_null _ _ _ R), bool_decide_false by (by destruct ns).
  unfold set_next, get, next. cbn [Tail nodes]. rewrite (rep_tail _ _ _ R), last_snoc.
  destruct (represents_nonnull _ _ _ t R) as [Ht0 Htb]; [apply elem_of_app; right; by left|].
  destruct (chain_lookup _ ns t [] xs xt [] 0 ltac:(lia) (rep_chain _ _ _ R)) as [_ Ht]. cbn [List.hd] in Ht.
  rewrite lookup_insert_ne, Ht by lia. cbn [deref mbind outcome_bind Data with_nodes Tail nodes].
  unfold get. cbn [nodes with_nodes Tail]. rewrite lookup_insert_eq. cbn [deref mbind outcome_bind Next].
  pose proof (rep_nodup _ _ _ R) as Hnd. apply NoDup_app in Hnd as (Hnd1 & Hdis & _).
  assert (Htn : t ∉ ns) by (intros Hin; apply (Hdis t Hin); by left).
  assert (Hbn : forall n, n ∈ ns ++ [t] -> n ≠ brk s) by (intros n Hn; apply (represents_nonnull _ _ _ _ R) in Hn; lia).
  pose proof (rep_length _ _ _ R) as HL. rewrite length_app in HL. cbn in HL. pose proof (rep_brk _ _ _ R).
  eexists. split_and!; [done| |done|].
  - split; cbn [nodes Head Tail Length brk with_nodes with_Tail with_Length].
    + pose proof (rep_chain _ _ _ R) as Hc. apply chain_app in Hc as [Hc _]; [|lia].
      rewrite <- !app_assoc. apply chain_app; [lia|]. cbn [app List.hd chain]. split_and!; [|done| |lia| |done].
      * eapply chain_ext; [|exact Hc]. intros n Hn. rewrite !lookup_insert_ne; [done|..].
        -- apply not_eq_sym, Hbn, elem_of_app. by left.
        -- by intros <-.
      * by rewrite lookup_insert_eq.
      * rewrite lookup_insert_ne, lookup_insert_eq by lia. done.
    + apply NoDup_app. split_and!; [apply R| |apply NoDup_singleton].
      intros n Hn ->%list_elem_of_singleton. by apply (Hbn _ Hn).
    + rewrite (rep_head _ _ _ R). by destruct ns.
    + by rewrite last_snoc.
    + rewrite wrap64_small by (unfold is_u64; lia). rewrite !length_app. cbn. lia.
    + rewrite wrap64_small by (unfold is_u64; lia). lia.
    + intros a Ha. rewrite !lookup_insert_ne by lia. apply R. lia.
    + lia.
  - intros n Hn. unfold value, get. cbn [nodes with_nodes with_Tail with_Length].
    destruct (decide (n = t)) as [->|Hne]; [by rewrite lookup_insert_eq, Ht|].
    rewrite !lookup_insert_ne; [done| |done]. by apply not_eq_sym, Hbn.
Qed.

(** Iteration visits every node once, in order. *)
Lemma walk_spec s ns xs fuel :
  chain (nodes s) ns xs 0 -> (length ns < fuel)%nat -> walk fuel (List.hd 0 ns) s = Done (zip ns xs).
Proof.
  revert xs fuel. induction ns as [|n ns IH]; intros [|x xs] [|fuel] Hc Hf; cbn [chain length] in *; try done; try lia.
  destruct Hc as (H0 & H1 & H2). cbn [walk List.hd]. rewrite (proj2 (Z.eqb_neq n 0)) by done.
  unfold get. rewrite H1. cbn [deref mbind outcome_bind Next Data].
  rewrite (IH xs fuel) by (done || lia). done.
Qed.

Lemma for_each_spec s ns xs : represents s ns xs -> for_each s = Done (zip ns xs).
Proof.
  intros R. unfold for_each. rewrite (rep_head _ _ _ R). apply walk_spec; [apply R|].
  pose proof (chain_size _ _ _ _ (rep_nodup _ _ _ R) (rep_chain _ _ _ R)). lia.
Qed.

Lemma at_loop_spec s ns xs fuel out index :
  chain (nodes s) ns xs 0 -> (length ns < fuel)%nat -> is_u64 index ->
  at_loop fuel (List.hd 0 ns) out index s = Done (List.last (take (Z.to_nat index) ns) out).
Proof.
  revert xs fuel out index. induction ns as [|n ns IH]; intros [|x xs] [|fuel] out index Hc Hf Hi;
    cbn [chain length] in *; try done; try lia.
  { cbn [at_loop List.hd Z.eqb]. by rewrite take_nil. }
  destruct Hc as (H0 & H1 & H2). cbn [at_loop List.hd]. rewrite (proj2 (Z.eqb_neq n 0)) by done.
  destruct (Z.eqb_spec index 0) as [->|Hne]; [done|]. unfold next, get. rewrite H1. cbn [deref mbind outcome_bind Next].
  unfold is_u64 in Hi. rewrite wrap64_small by (unfold is_u64; lia).
  rewrite (IH xs fuel n (index - 1)) by (done || lia || (unfold is_u64; lia)).
  replace (Z.to_nat index) with (S (Z.to_nat (index - 1))) by lia. cbn [take firstn]. f_equal.
  destruct (take (Z.to_nat (index - 1)) ns) as [|k l]; [done|]. exact (last_default (k :: l) n out ltac:(done)).
Qed.

Lemma last_take_lookup (ns : list Z) k d n : ns !! k = Some n -> List.last (take (S k) ns) d = n.
Proof. intros H. rewrite (take_S_r _ _ _ H). apply last_snoc. Qed.

Lemma at_index_spec s ns xs i x :
  represents s ns xs -> 0 <= i -> xs !! Z.to_nat i = Some x -> at_index i s = Done x.
Proof.
  intros R Hi Hx. pose proof (chain_length _ _ _ _ (rep_chain _ _ _ R)) as Hll.
  pose proof (lookup_lt_Some _ _ _ Hx) as Hlt. pose proof (rep_length _ _ _ R). pose proof (rep_fits _ _ _ R).
  unfold at_index. rewrite wrap64_small by (unfold is_u64; lia). rewrite (rep_head _ _ _ R).
  rewrite (at_loop_spec s ns xs) by
    (apply R || (unfold is_u64; lia) || (pose proof (chain_size _ _ _ _ (rep_nodup _ _ _ R) (rep_chain _ _ _ R)); lia)).
  cbn [mbind outcome_bind]. destruct (lookup_lt_is_Some_2 ns (Z.to_nat i)) as [n Hn]; [lia|].
  replace (Z.to_nat (i + 1)) with (S (Z.to_nat i)) by lia. rewrite (last_take_lookup _ _ _ _ Hn).
  apply list_elem_of_split_length in Hn as (ns1 & ns2 & -> & Hn1).
  apply list_elem_of_split_length in Hx as (xs1 & xs2 & -> & Hx1).
  destruct (chain_lookup _ ns1 n ns2 xs1 x xs2 0 ltac:(lia) (rep_chain _ _ _ R)) as [_ Hm].
  unfold value, get. by rewrite Hm.
Qed.

(** The pointers [remove] works with: the node before, the node, and the one
    after it. *)
Lemma remove_loop_spec s d fuel index nx a ns xs :
  chain (nodes s) (a :: ns) xs 0 -> (d < length ns)%nat -> (d < fuel)%nat ->
  exists l1 p c l2, a :: ns = l1 ++ p :: c :: l2 /\ length l1 = d /\
    remove_loop fuel index (index - Z.of_nat d) a a nx s = Done (p, c, List.hd 0 l2).
Proof.
  revert fuel nx a ns xs. induction d as [|d IH]; intros [|fuel] nx a ns xs Hc Hd Hf; try lia;
    (destruct xs as [|x xs]; [done|]); destruct ns as [|b ns]; cbn [length] in Hd; try lia;
    cbn [chain] in Hc; destruct xs as [|y xs]; try tauto; destruct Hc as (Ha0 & Ha & Hb0 & Hb & Hc);
    cbn [remove_loop]; rewrite (proj2 (Z.eqb_neq a 0)) by done; rewrite (next_known _ _ _ Ha);
    cbn [mbind outcome_bind Next List.hd]; rewrite (proj2 (Z.eqb_neq b 0)) by done; cbn [negb];
    rewrite (next_known _ _ _ Hb); cbn [mbind outcome_bind Next].
  - exists [], a, b, ns. split_and!; [done..|]. by rewrite (proj2 (Z.leb_le _ _)) by lia.
  - rewrite (proj2 (Z.leb_gt _ _)) by lia.
    destruct (IH fuel (List.hd 0 ns) b ns (y :: xs)) as (l1 & p & c & l2 & E & Hl & Er); [by cbn [chain]|lia|lia|].
    exists (a :: l1), p, c, l2. split_and!; [by rewrite E|cbn; lia|].
    replace (index - Z.of_nat (S d) + 1) with (index - Z.of_nat d) by lia. exact Er.
Qed.

(** Removing the node after the first [length l1 + 1] ones. *)
Lemma unlink_represents s l1 p c l2 y1 xp xc y2 s' :
  represents s (l1 ++ p :: c :: l2) (y1 ++ xp :: xc :: y2) -> length l1 = length y1 ->
  nodes s' = delete c (<[p := mkNode xp (List.hd 0 l2)]> (nodes s)) ->
  brk s' = brk s -> Head s' = Head s -> Length s' = Length s - 1 ->
  Tail s' = (if List.hd 0 l2 =? 0 then p else Tail s) ->
  represents s' (l1 ++ p :: l2) (y1 ++ xp :: y2).
Proof.
  intros R Hll Hn Hb Hh HL HT. pose proof (rep_nodup _ _ _ R) as Hnd.
  pose proof (rep_chain _ _ _ R) as Hc. apply chain_app in Hc as [Hc1 Hc2]; [|done]. cbn [chain] in Hc2.
  destruct Hc2 as (Hp0 & Hp & Hc0 & Hcc & Hc2). cbn [List.hd] in Hc1.
  pose proof Hnd as Hnd'. apply NoDup_app in Hnd' as (Hnd1 & Hdis & Hnd2).
  apply NoDup_cons in Hnd2 as [Hp' Hnd2]. apply NoDup_cons in Hnd2 as [Hc' Hnd2].
  rewrite not_elem_of_cons in Hp'. destruct Hp' as [Hpc Hp2].
  assert (H1 : forall n, n ∈ l1 -> n ≠ p /\ n ≠ c).
  { intros n Hin. specialize (Hdis n Hin). rewrite !not_elem_of_cons in Hdis. tauto. }
  assert (Hsame : forall n, n ≠ p -> n ≠ c -> nodes s' !! n = nodes s !! n)
    by (intros n ? ?; rewrite Hn, lookup_delete_ne, lookup_insert_ne by done; done).
  split.
  - apply chain_app; [done|]. split; cbn [List.hd chain].
    + eapply chain_ext; [|exact Hc1]. intros n Hin. apply Hsame; by apply H1.
    + split_and!; [done| |].
      * rewrite Hn, lookup_delete_ne, lookup_insert_eq by done. done.
      * eapply chain_ext; [|exact Hc2]. intros n Hin. apply Hsame; intros ->; done.
  - apply NoDup_app. split_and!; [done| |by constructor]. intros n Hin. specialize (Hdis n Hin).
    rewrite !not_elem_of_cons in *. tauto.
  - rewrite Hh, (rep_head _ _ _ R). by destruct l1.
  - rewrite HT, (rep_tail _ _ _ R). destruct l2 as [|k l2]; cbn [List.hd].
    + rewrite Z.eqb_refl. by rewrite last_snoc.
    + rewrite (proj2 (Z.eqb_neq k 0)).
      * clear. induction l1 as [|a l1 IH]; [done|]. cbn [app]. destruct l1; cbn [app List.last] in *; done.
      * apply (represents_nonnull _ _ _ k R). apply elem_of_app. right. right. right. by left.
  - pose proof (rep_length _ _ _ R) as HLs. rewrite HL, HLs, !length_app. cbn. lia.
  - pose proof (rep_fits _ _ _ R). lia.
  - intros a Ha. rewrite Hb in Ha. pose proof (rep_fresh _ _ _ R a Ha) as Hf.
    rewrite Hsame; [done|..]; intros ->; congruence.
  - rewrite Hb. apply R.
Qed.

Lemma remove_head_spec s n ns x xs :
  represents s (n :: ns) (x :: xs) -> ns ≠ [] ->
  exists s', remove 0 s = Done (true, s') /\ represents s' ns xs /\ brk s' = brk s.
Proof.
  intros R Hne. pose proof (rep_length _ _ _ R) as HL. cbn [length] in HL. pose proof (rep_fits _ _ _ R).
  unfold remove. rewrite (proj2 (Z.leb_gt (Length s) 0)) by lia. cbn [Z.eqb].
  rewrite (head_null _ _ _ R), bool_decide_false by done. cbn [negb].
  pose proof (rep_chain _ _ _ R) as (H0 & H1 & H2). pose proof (rep_head _ _ _ R) as Hh. cbn [List.hd] in Hh.
  rewrite Hh, (next_known _ _ _ H1). cbn [mbind outcome_bind Next].
  pose proof (rep_nodup _ _ _ R) as Hnd. apply NoDup_cons in Hnd as [Hn Hnd].
  eexists. split_and!; [done| |done].
  split; cbn [nodes Head Tail Length brk delete_node with_nodes with_Length with_Head]; try done.
  - eapply chain_ext; [|exact H2]. intros k Hk. rewrite lookup_delete_ne; [done|]. by intros <-.
  - rewrite (rep_tail _ _ _ R). by destruct ns.
  - rewrite wrap64_small by (unfold is_u64; lia). lia.
  - rewrite wrap64_small by (unfold is_u64; lia). lia.
  - intros a Ha. destruct (decide (a = n)) as [->|]; [by rewrite lookup_delete_eq|].
    rewrite lookup_delete_ne by done. by apply R.
  - apply R.
Qed.

Lemma remove_inner_spec s ns xs index :
  represents s ns xs -> 1 <= index < Z.of_nat (length xs) ->
  exists s', remove index s = Done (true, s') /\
    represents s' (delete (Z.to_nat index) ns) (delete (Z.to_nat index) xs) /\ brk s' = brk s.
Proof.
  intros R Hi. pose proof (rep_length _ _ _ R) as HL. pose proof (rep_fits _ _ _ R).
  pose proof (chain_length _ _ _ _ (rep_chain _ _ _ R)) as Hll.
  pose proof (chain_size _ _ _ _ (rep_nodup _ _ _ R) (rep_chain _ _ _ R)) as Hsz.
  unfold remove. rewrite (proj2 (Z.leb_gt (Length s) index)), (proj2 (Z.eqb_neq index 0)) by lia.
  destruct ns as [|a ns]; [cbn in Hll; lia|]. rewrite (rep_head _ _ _ R). cbn [List.hd].
  destruct xs as [|x xs]; [done|]. pose proof (rep_chain _ _ _ R) as (H0 & H1 & _).
  rewrite (next_known _ _ _ H1). cbn [mbind outcome_bind Next]. cbn [length] in *.
  destruct (remove_loop_spec s (Z.to_nat (index - 1)) (S (size (nodes s))) index (List.hd 0 ns) a ns (x :: xs))
    as (l1 & p & c & l2 & E & Hl1 & Er); [apply R|lia|lia|].
  replace (index - Z.of_nat (Z.to_nat (index - 1))) with 1 in Er by lia. rewrite Er. cbn [mbind outcome_bind].
  rewrite E in R |- *.
  destruct (lookup_lt_is_Some_2 (x :: xs) (length l1)) as [xp Hxp]; [cbn; lia|].
  apply list_elem_of_split_length in Hxp as (y1 & y2 & Ex & Hy1). rewrite Ex in *.
  destruct y2 as [|xc y2]; [apply (f_equal length) in Ex; rewrite length_app in Ex; cbn in Ex; lia|].
  destruct (chain_lookup _ l1 p (c :: l2) y1 xp (xc :: y2) 0 ltac:(lia) (rep_chain _ _ _ R)) as [_ Hp].
  assert (Hidx : Z.to_nat index = S (length l1)) by lia.
  assert (Hdel : forall {A} (u : list A) b d v k, length u = k -> delete (S k) (u ++ b :: d :: v) = u ++ b :: v).
  { clear. intros A u b d v k <-. induction u as [|w u IH]; cbn; [done|]. by f_equal. }
  rewrite Hidx, (Hdel _ l1), (Hdel _ y1) by done.
  set (s1 := if List.hd 0 l2 =? 0 then with_Tail p s else s).
  assert (Hn1 : nodes s1 = nodes s) by (unfold s1; by destruct (_ =? _)).
  unfold set_next, get. rewrite Hn1, Hp. cbn [deref mbind outcome_bind Data].
  eexists. split_and!; [done| |unfold s1; by destruct (_ =? _)].
  eapply unlink_represents; [exact R|lia|..]; unfold s1;
    destruct (List.hd 0 l2 =? 0); cbn [nodes brk Head Length Tail delete_node with_nodes with_Length with_Tail];
    (done || (rewrite wrap64_small; [done|unfold is_u64; lia])).
Qed.

Lemma remove_spec s ns xs i :
  represents s ns xs -> 0 <= i < Z.of_nat (length xs) -> (2 <= length xs)%nat ->
  exists s', remove i s = Done (true, s') /\ represents s' (delete (Z.to_nat i) ns) (delete (Z.to_nat i) xs).
Proof.
  intros R Hi H2. destruct (decide (i = 0)) as [->|Hne].
  - pose proof (chain_length _ _ _ _ (rep_chain _ _ _ R)) as Hll.
    destruct ns as [|n ns], xs as [|x xs]; cbn [length] in *; try lia.
    destruct (remove_head_spec s n ns x xs R) as (s' & ? & ? & _); [by destruct ns; [cbn in Hll; lia|]|]. eauto.
  - destruct (remove_inner_spec s ns xs i R ltac:(lia)) as (s' & ? & ? & _). eauto.
Qed.

(** The node of a removed element is gone. *)
Lemma remove_deletes s ns xs i n s' :
  represents s ns xs -> 0 <= i -> ns !! Z.to_nat i = Some n -> remove i s = Done (true, s') -> nodes s' !! n = None.
Proof.
  intros R Hi Hn. unfold remove. destruct (_ <=? i); [done|]. destruct (Z.eqb_spec i 0) as [->|Hne].
  - destruct ns as [|n0 ns]; [done|]. injection Hn as ->. rewrite (rep_head _ _ _ R). cbn [List.hd].
    rewrite (proj2 (Z.eqb_neq n 0)) by (eapply (represents_nonnull _ _ _ n R); by left). cbn [negb].
    destruct (next n s) as [h|]; [|done]. cbn [mbind outcome_bind]. intros [= <-]. cbn. apply lookup_delete_eq.
  - destruct (next (Head s) s) as [nx|]; [|done]. cbn [mbind outcome_bind]. destruct ns as [|a ns]; [done|].
    rewrite (rep_head _ _ _ R). cbn [List.hd]. pose proof (lookup_lt_Some _ _ _ Hn) as Hlt. cbn [length] in Hlt.
    pose proof (chain_size _ _ _ _ (rep_nodup _ _ _ R) (rep_chain _ _ _ R)) as Hsz. cbn [length] in Hsz.
    destruct (remove_loop_spec s (Z.to_nat i - 1) (S (size (nodes s))) i nx a ns xs (rep_chain _ _ _ R) ltac:(lia) ltac:(lia))
      as (l1 & p & c & l2 & Hl & Hlen & E). replace (i - Z.of_nat (Z.to_nat i - 1)) with 1 in E by lia. rewrite E. cbn [mbind outcome_bind].
    destruct (set_next _ _ _) as [s1|]; [|done]. cbn [mbind outcome_bind]. intros [= <-]. cbn.
    rewrite Hl in Hn. replace (Z.to_nat i) with (length l1 + 1)%nat in Hn by lia. rewrite lookup_app_r in Hn by lia.
    replace (length l1 + 1 - length l1)%nat with 1%nat in Hn by lia. injection Hn as ->. apply lookup_delete_eq.
Qed.

(** ** Claims *)

(** A list that represents a sequence behaves like it: [add] prepends,
    [add_end] appends, [at] returns the element at an index within the
    sequence, [remove] of such an index takes exactly that element out (for a
    sequence of more than one element), an index past the end removes nothing,
    and iteration visits all elements in order. *)
Theorem list_refines_sequence s ns xs :
  represents s ns xs -> Length s < 2 ^ 64 - 2 ->
  (forall v, represents (add v s) (brk s :: ns) (v :: xs)) /\
  (forall v, exists s', add_end v s = Done s' /\ represents s' (ns ++ [brk s]) (xs ++ [v])) /\
  (forall i x, 0 <= i -> xs !! Z.to_nat i = Some x -> at_index i s = Done x) /\
  (forall i, 0 <= i < Z.of_nat (length xs) -> (2 <= length xs)%nat ->
     exists s', remove i s = Done (true, s') /\ represents s' (delete (Z.to_nat i) ns) (delete (Z.to_nat i) xs)) /\
  (forall i, Z.of_nat (length xs) <= i -> remove i s = Done (false, s)) /\
  for_each s = Done (zip ns xs).
Proof.
  intros R Hlen. split_and!.
  - intros v. by apply add_spec.
  - intros v. destruct (add_end_spec s ns xs v R Hlen) as (s' & ? & ? & _). eauto.
  - intros i x Hi Hx. by eapply at_index_spec.
  - intros i Hi H2. by apply remove_spec.
  - intros i Hi. unfold remove. by rewrite (proj2 (Z.leb_le _ _)) by (rewrite (rep_length _ _ _ R); lia).
  - by apply for_each_spec.
Qed.

(** [remove(0)] of the only element clears [Head] and not [Tail]. A value
    appended afterwards goes in front of a list whose tail pointer still names
    the deleted node, so the next [add_end] writes through a dangling
    pointer. *)
Theorem emptied_list_keeps_stale_tail (a b c : T) :
  exists s1 s2, remove 0 (add a (empty 1)) = Done (true, s1) /\ Head s1 = 0 /\ nodes s1 !! Tail s1 = None /\
    Tail s1 ≠ 0 /\ add_end b s1 = Done s2 /\ add_end c s2 = Stop Undefined.
Proof. eexists _, _. split_and!; [reflexivity|reflexivity|reflexivity|discriminate|reflexivity|reflexivity]. Qed.

End Lemmas.

(** Three numbers, appended to an empty list. *)
Definition three : slist Z :=
  mkList {[ 1 := mkNode 10 2; 2 := mkNode 20 3; 3 := mkNode 30 0 ]} 4 3 1 3.

Lemma three_represents : represents three [1; 2; 3] [10; 20; 30].
Proof.
  split; try done; [apply (bool_decide_unpack _); vm_compute; done|].
  intros a Ha. cbn in *. rewrite !lookup_insert_ne by lia. apply lookup_singleton_ne. lia.
Qed.

Lemma list_refines_sequence_witness :
  (forall v, represents (add v three) [4; 1; 2; 3] (v :: [10; 20; 30])) /\
  (forall v, exists s', add_end v three = Done s' /\ represents s' ([1; 2; 3] ++ [4]) ([10; 20; 30] ++ [v])) /\
  (forall i x, 0 <= i -> [10; 20; 30] !! Z.to_nat i = Some x -> at_index i three = Done x) /\
  (forall i, 0 <= i < 3 -> (2 <= 3)%nat ->
     exists s', remove i three = Done (true, s') /\
       represents s' (delete (Z.to_nat i) [1; 2; 3]) (delete (Z.to_nat i) [10; 20; 30])) /\
  (forall i, 3 <= i -> remove i three = Done (false, three)) /\
  for_each three = Done (zip [1; 2; 3] [10; 20; 30]).
Proof. apply (list_refines_sequence three [1; 2; 3] [10; 20; 30]); [apply three_represents|cbn; lia]. Defined.

End SLL.
