(* ===== verification/SparseVector.v ===== *)
(** * Sparse vectors

    Models [sparse_vector] of src/std/include/extensions_sparse_vector, the
    vector with stable indices that holds the file descriptor tables.  The
    vectors it is made of are lists, which Vector shows they implement. *)

From S2P Require Import Prelude.

Module Sparse.

(** [els] is [__els]; [idxs] is [__idxs], the stack of free positions, its last
    element on top.  [invalid] marks a free position. *)
Section Ops.
Context {T : Type} `{!EqDecision T} (invalid : T).

Record sparse_vector := mkSparse { els : list T; idxs : list Z }.

Definition empty : sparse_vector := mkSparse [] [].

Definition allocated_size (v : sparse_vector) : Z := Z.of_nat (length (els v)).

(** A read or write of [__els[i]] outside the vector is undefined. *)
Definition el (i : Z) (v : sparse_vector) : outcome T := deref (els v !! Z.to_nat i).

Definition allocate (v : sparse_vector) : Z * bool * sparse_vector :=
  match last (idxs v) with
  | Some idx => (idx, false, mkSparse (els v) (removelast (idxs v)))
  | None => (allocated_size v, true, mkSparse (els v ++ [invalid]) (idxs v))
  end.

Definition push_back (x : T) (v : sparse_vector) : Z * bool * sparse_vector :=
  if decide (x = invalid) then (0, false, v)
  else
    let '(idx, _, v) := allocate v in
    (idx, true, mkSparse (<[Z.to_nat idx := x]> (els v)) (idxs v)).

Definition replace (i : Z) (x : T) (v : sparse_vector) : outcome (bool * sparse_vector) :=
  if allocated_size v <? i then Done (false, v)
  else
    e ← el i v;
    let v := if decide (e = invalid) then mkSparse (els v) (filter (fun j => j ≠ i) (idxs v)) else v in
    Done (true, mkSparse (<[Z.to_nat i := x]> (els v)) (idxs v)).

Definition erase (i : Z) (v : sparse_vector) : outcome (bool * sparse_vector) :=
  if allocated_size v <? i then Done (false, v)
  else
    e ← el i v;
    if decide (e = invalid) then Done (false, v)
    else Done (true, mkSparse (<[Z.to_nat i := invalid]> (els v)) (idxs v ++ [i])).

(** [operator[]]: a pointer to the element, or null. *)
Definition get (i : Z) (v : sparse_vector) : option T :=
  if allocated_size v <=? i then None else els v !! Z.to_nat i.

(** What iterating over [pairs()] visits. *)
Fixpoint pairs_from (i : Z) (l : list T) : list (Z * T) :=
  match l with
  | [] => []
  | x :: l => (if decide (x = invalid) then [] else [(i, x)]) ++ pairs_from (i + 1) l
  end.

Definition pairs (v : sparse_vector) : list (Z * T) := pairs_from 0 (els v).

Definition clear_and_delete (v : sparse_vector) : sparse_vector := empty.

(** [while (i < __els.size() && (__els[i] == __invalid) == free) i++] *)
Fixpoint skip (fuel : nat) (free : bool) (i : nat) (l : list T) : nat :=
  match fuel with
  | O => i
  | S fuel =>
      match l !! i with
      | Some x => if Bool.eqb (bool_decide (x = invalid)) free then skip fuel free (S i) l else i
      | None => i
      end
  end.

(** Moves the elements from [el] on to [hole], and returns where they end. *)
Fixpoint gather (fuel hole el : nat) (l : list T) : nat * list T :=
  match fuel with
  | O => (hole, l)
  | S fuel =>
      match l !! el with
      | Some x => if decide (x = invalid) then gather fuel hole (S el) l else gather fuel (S hole) (S el) (<[hole := x]> l)
      | None => (hole, l)
      end
  end.

(** Every loop goes over the elements once. *)
Definition compact (v : sparse_vector) : sparse_vector :=
  let size := length (els v) in
  let hole := skip size false 0 (els v) in
  if decide (hole = size) then v
  else
    let el := skip size true (S hole) (els v) in
    if decide (el = size) then mkSparse (take hole (els v)) []
    else
      let '(hole, l) := gather size hole el (els v) in
      mkSparse (take hole l) [].

(** ** Invariant: the free positions are exactly the invalid elements *)

Record wf (v : sparse_vector) : Prop := {
  wf_nodup : NoDup (idxs v);
  wf_idxs : forall i, i ∈ idxs v <-> 0 <= i /\ els v !! Z.to_nat i = Some invalid
}.

(** The map a sparse vector stands for. *)
Definition lookup_valid (v : sparse_vector) (i : Z) : option T :=
  match get i v with
  | Some x => if decide (x = invalid) then None else Some x
  | None => None
  end.

End Ops.
Arguments sparse_vector T : clear implicits.

Section Lemmas.
Context {T : Type} `{!EqDecision T} (invalid : T).
Implicit Types (v : sparse_vector T).
Local Notation wf := (wf invalid).
Local Notation lookup_valid := (lookup_valid invalid).

Lemma get_spec i v : 0 <= i -> get i v = els v !! Z.to_nat i.
Proof.
  intros Hi. unfold get, allocated_size. destruct (Z.leb_spec (Z.of_nat (length (els v))) i); [|done].
  symmetry. apply lookup_ge_None. lia.
Qed.

Lemma sparse_empty_wf : wf empty.
Proof.
  split; [constructor|]. intros i. cbn. split; [intros H; by apply not_elem_of_nil in H|]. intros [_ H]. done.
Qed.

Lemma last_removelast (l : list Z) x : last l = Some x -> l = removelast l ++ [x].
Proof. destruct l as [|y l _] using rev_ind; [done|]. rewrite last_snoc, removelast_last. by intros [= ->]. Qed.

(** The position [push_back] fills was free, and is the only one it changes. *)
Lemma sparse_push_spec x v i ok v' :
  wf v -> x ≠ invalid -> push_back invalid x v = (i, ok, v') ->
  wf v' /\ ok = true /\ 0 <= i /\ lookup_valid v i = None /\
  forall j, 0 <= j -> lookup_valid v' j = if decide (j = i) then Some x else lookup_valid v j.
Proof.
  intros W Hx. unfold push_back. rewrite decide_False by done. unfold allocate.
  destruct (last (idxs v)) as [idx|] eqn:El.
  - intros [= <- <- <-]. pose proof (last_removelast _ _ El) as Es. pose proof (wf_nodup _ _ W) as Hnd.
    destruct (proj1 (wf_idxs _ _ W idx)) as [H0 Hidx]; [rewrite Es; apply elem_of_app; right; by left|].
    rewrite Es in Hnd. apply NoDup_app in Hnd as (Hnd & Hdis & _).
    assert (Hni : idx ∉ removelast (idxs v)) by (intros Hin; apply (Hdis _ Hin); by left).
    assert (Hlt := lookup_lt_Some _ _ _ Hidx).
    split_and!; [|done|done| |].
    + split; cbn [els idxs]; [done|]. intros i. pose proof (wf_idxs _ _ W i) as Hi. rewrite Es, elem_of_app in Hi.
      rewrite list_elem_of_singleton in Hi. destruct (decide (i = idx)) as [->|Hne].
      * split; [done|]. intros [_ H]. rewrite list_lookup_insert_eq in H by done. congruence.
      * split.
        -- intros Hin. destruct Hi as [Hi _]. destruct Hi as [Hi0 Hi]; [by left|]. split; [done|].
           rewrite list_lookup_insert_ne by lia. done.
        -- intros [Hi0 H]. rewrite list_lookup_insert_ne in H by lia. destruct Hi as [_ Hi]. by destruct Hi.
    + unfold Sparse.lookup_valid. rewrite get_spec, Hidx by done. by rewrite decide_True.
    + intros j Hj. unfold Sparse.lookup_valid. rewrite !get_spec by done. cbn [els].
      destruct (decide (j = idx)) as [->|Hne].
      * rewrite list_lookup_insert_eq by done. by rewrite decide_False.
      * by rewrite list_lookup_insert_ne by lia.
  - intros [= <- <- <-]. apply last_None in El. unfold allocated_size. rewrite Nat2Z.id. cbn [els idxs].
    assert (Hno : forall j, 0 <= j -> els v !! Z.to_nat j ≠ Some invalid).
    { intros j Hj H. assert (Hin : j ∈ idxs v) by (by apply W). rewrite El in Hin. by apply not_elem_of_nil in Hin. }
    split_and!; [|done|lia| |].
    + split; cbn [els idxs]; [apply W|]. rewrite El. intros j. split; [intros H; by apply not_elem_of_nil in H|].
      intros [Hj H]. exfalso. destruct (decide (j = Z.of_nat (length (els v)))) as [->|Hne].
      * rewrite Nat2Z.id, list_lookup_insert_eq in H by (rewrite length_app; cbn; lia). congruence.
      * rewrite list_lookup_insert_ne in H by lia. apply (Hno j Hj).
        apply lookup_app_Some in H as [H|[Hge H]]; [done|]. apply list_lookup_singleton_Some in H as [H _]. lia.
    + unfold Sparse.lookup_valid. rewrite get_spec, Nat2Z.id by lia. by rewrite lookup_ge_None_2.
    + intros j Hj. unfold Sparse.lookup_valid. rewrite !get_spec by done. cbn [els].
      destruct (decide (j = Z.of_nat (length (els v)))) as [->|Hne].
      * rewrite Nat2Z.id, list_lookup_insert_eq by (rewrite length_app; cbn; lia). by rewrite decide_False.
      * rewrite list_lookup_insert_ne by lia. destruct (decide (Z.to_nat j < length (els v))%nat).
        -- by rewrite lookup_app_l.
        -- rewrite !lookup_ge_None_2 by (rewrite ?length_app; cbn; lia). done.
Qed.

(** [erase] frees a position that was in use. *)
Lemma erase_spec i v x :
  wf v -> 0 <= i -> lookup_valid v i = Some x ->
  exists v', erase invalid i v = Done (true, v') /\ wf v' /\
    forall j, 0 <= j -> lookup_valid v' j = if decide (j = i) then None else lookup_valid v j.
Proof.
  intros W Hi. unfold Sparse.lookup_valid at 1. rewrite get_spec by done.
  destruct (els v !! Z.to_nat i) as [y|] eqn:Ey; [|done]. case_decide as Hy; [done|]. intros [= ->].
  pose proof (lookup_lt_Some _ _ _ Ey) as Hlt.
  unfold erase, allocated_size, el. rewrite (proj2 (Z.ltb_ge _ _)), Ey by lia. cbn [deref mbind outcome_bind].
  rewrite decide_False by done. eexists. split_and!; [done| |].
  - split; cbn [els idxs].
    + apply NoDup_app. split_and!; [apply W| |apply NoDup_singleton].
      intros j Hj ->%list_elem_of_singleton. apply W in Hj as [_ Hj]. congruence.
    + intros j. rewrite elem_of_app, list_elem_of_singleton, (wf_idxs _ _ W). destruct (decide (j = i)) as [->|Hne].
      * rewrite list_lookup_insert_eq by done. split; [done|by right].
      * split.
        -- intros [[Hj H]|]; [|done]. split; [done|]. by rewrite list_lookup_insert_ne by lia.
        -- intros [Hj H]. rewrite list_lookup_insert_ne in H by lia. by left.
  - intros j Hj. unfold Sparse.lookup_valid. rewrite !get_spec by done. cbn [els].
    destruct (decide (j = i)) as [->|Hne].
    + rewrite list_lookup_insert_eq by done. by rewrite decide_True.
    + by rewrite list_lookup_insert_ne by lia.
Qed.

(** [replace] at an allocated position. *)
Lemma erase_size i v b v' : erase invalid i v = Done (b, v') -> allocated_size v' = allocated_size v.
Proof.
  unfold erase. destruct (_ <? _); [by intros [= _ <-]|]. destruct (el i v) as [e|]; [|done]. cbn [mbind outcome_bind].
  case_decide; intros [= _ <-]; [done|]. unfold allocated_size. cbn. by rewrite length_insert.
Qed.

Lemma replace_spec i x v :
  wf v -> 0 <= i < allocated_size v -> x ≠ invalid ->
  exists v', replace invalid i x v = Done (true, v') /\ wf v' /\
    forall j, 0 <= j -> lookup_valid v' j = if decide (j = i) then Some x else lookup_valid v j.
Proof.
  intros W Hi Hx. unfold allocated_size in Hi. destruct (lookup_lt_is_Some_2 (els v) (Z.to_nat i)) as [e He]; [lia|].
  unfold replace, allocated_size, el. rewrite (proj2 (Z.ltb_ge _ _)), He by lia. cbn [deref mbind outcome_bind].
  set (ids := if decide (e = invalid) then filter (fun j => j ≠ i) (idxs v) else idxs v).
  exists (mkSparse (<[Z.to_nat i := x]> (els v)) ids). split_and!.
  - unfold ids. by case_decide.
  - assert (Hids : NoDup ids /\ forall j, j ∈ ids <-> j ≠ i /\ j ∈ idxs v).
    { unfold ids. case_decide as D.
      - split; [by apply NoDup_filter, W|]. intros j. by rewrite list_elem_of_filter.
      - split; [apply W|]. intros j. split; [|tauto]. intros Hj. split; [|done]. intros ->. apply W in Hj as [_ Hj]. congruence. }
    destruct Hids as [Hnd Hids]. split; cbn [els idxs]; [done|].
    intros j. rewrite Hids, (wf_idxs _ _ W). destruct (decide (j = i)) as [->|Hne].
    + rewrite list_lookup_insert_eq by lia. split; [tauto|]. intros [_ H]. congruence.
    + split.
      * intros (_ & Hj & H). split; [done|]. by rewrite list_lookup_insert_ne by lia.
      * intros [Hj H]. rewrite list_lookup_insert_ne in H by lia. done.
  - intros j Hj. unfold Sparse.lookup_valid. rewrite !get_spec by done. cbn [els].
    destruct (decide (j = i)) as [->|Hne].
    + rewrite list_lookup_insert_eq by lia. by rewrite decide_False.
    + by rewrite list_lookup_insert_ne by lia.
Qed.

Lemma pairs_from_elem k l i x :
  (i, x) ∈ pairs_from invalid k l <-> k <= i /\ l !! Z.to_nat (i - k) = Some x /\ x ≠ invalid.
Proof.
  revert k. induction l as [|y l IH]; intros k; cbn [pairs_from].
  { split; [intros H; by apply not_elem_of_nil in H|]. intros (_ & H & _). done. }
  rewrite elem_of_app, IH. destruct (decide (i = k)) as [->|Hne].
  - replace (k - k) with 0 by lia. cbn. case_decide as D; rewrite ?list_elem_of_singleton.
    + subst y. split; [|naive_solver]. intros [H|H]; [by apply not_elem_of_nil in H|lia].
    + split; [intros [[= <-]|H]; [naive_solver lia|lia]|]. intros (_ & [= <-] & _). by left.
  - split.
    + intros [H|(H1 & H2 & H3)].
      * case_decide; [by apply not_elem_of_nil in H|]. apply list_elem_of_singleton in H as [= -> _]. done.
      * split_and!; [lia| |done]. replace (Z.to_nat (i - k)) with (S (Z.to_nat (i - (k + 1)))) by lia. done.
    + intros (H1 & H2 & H3). right. split_and!; [lia| |done].
      by replace (Z.to_nat (i - k)) with (S (Z.to_nat (i - (k + 1)))) in H2 by lia.
Qed.

(** [pairs()] lists exactly the positions in use. *)
Lemma pairs_spec v i x : (i, x) ∈ pairs invalid v <-> 0 <= i /\ lookup_valid v i = Some x.
Proof.
  unfold pairs. rewrite pairs_from_elem, Z.sub_0_r. unfold Sparse.lookup_valid. split.
  - intros (Hi & H & Hx). split; [done|]. rewrite get_spec, H by done. by rewrite decide_False.
  - intros [Hi H]. rewrite get_spec in H by done. destruct (els v !! Z.to_nat i) as [y|]; [|done].
    case_decide; [done|]. by injection H as ->.
Qed.

(** The index [push_back] returns, and the elements as bindings. *)
Lemma sparse_push_bound x v i ok v' :
  wf v -> push_back invalid x v = (i, ok, v') -> x ≠ invalid -> 0 <= i <= allocated_size v.
Proof.
  intros W E Hx. destruct (sparse_push_spec x v i ok v' W Hx E) as (_ & _ & Hi & _). split; [done|].
  revert E. unfold push_back. rewrite decide_False by done. unfold allocate. destruct (last (idxs v)) as [j|] eqn:El.
  - intros [= <- _ _]. apply last_removelast in El. destruct (proj1 (wf_idxs _ _ W j)) as [_ Hj];
      [rewrite El; apply elem_of_app; right; by left|]. apply lookup_lt_Some in Hj. unfold allocated_size. lia.
  - intros [= <- _ _]. lia.
Qed.

Lemma sparse_push_size x v i ok v' : push_back invalid x v = (i, ok, v') -> allocated_size v' <= allocated_size v + 1.
Proof.
  unfold push_back, allocate, allocated_size. case_decide; [intros [= _ _ <-]; lia|].
  destruct (last (idxs v)); intros [= _ _ <-]; cbn; rewrite ?length_insert, ?length_app; cbn; lia.
Qed.

Lemma els_lookup_valid v x : x ≠ invalid -> (x ∈ els v <-> exists i, 0 <= i /\ lookup_valid v i = Some x).
Proof.
  intros Hx. rewrite list_elem_of_lookup. split.
  - intros [i Hi]. exists (Z.of_nat i). split; [lia|]. unfold Sparse.lookup_valid. rewrite get_spec, Nat2Z.id, Hi by lia.
    by rewrite decide_False.
  - intros (i & Hi & H). exists (Z.to_nat i). unfold Sparse.lookup_valid in H. rewrite get_spec in H by done.
    destruct (els v !! Z.to_nat i) as [y|]; [|done]. case_decide; [done|]. by injection H as ->.
Qed.

Lemma lookup_valid_ne v i x : lookup_valid v i = Some x -> x ≠ invalid /\ get i v = Some x.
Proof. unfold Sparse.lookup_valid. destruct (get i v) as [y|]; [|done]. case_decide; [done|]. by intros [= ->]. Qed.

Lemma get_lookup_valid v i x : get i v = Some x -> x ≠ invalid -> lookup_valid v i = Some x.
Proof. intros H Hx. unfold Sparse.lookup_valid. rewrite H. by rewrite decide_False. Qed.

Lemma lookup_valid_allocated v i x : 0 <= i -> lookup_valid v i = Some x -> i < allocated_size v.
Proof.
  intros Hi H. apply lookup_valid_ne in H as [_ H]. unfold get in H. destruct (Z.leb_spec (allocated_size v) i); [done|lia].
Qed.

(** C12: a sparse vector whose free list holds exactly its invalid positions is a
    finite map from indices: [push_back] of a valid element returns an index
    that was not in use and binds it, [erase] unbinds an index in use,
    [replace] rebinds any allocated index, no operation touches another index,
    all three keep the free list exact, and [pairs()] lists exactly the
    bindings. *)
Theorem sparse_vector_refines_map v :
  wf v ->
  (forall x, x ≠ invalid ->
     let '(i, ok, v') := push_back invalid x v in
     wf v' /\ ok = true /\ 0 <= i /\ lookup_valid v i = None /\
     forall j, 0 <= j -> lookup_valid v' j = if decide (j = i) then Some x else lookup_valid v j) /\
  (forall i x, 0 <= i -> lookup_valid v i = Some x ->
     exists v', erase invalid i v = Done (true, v') /\ wf v' /\
       forall j, 0 <= j -> lookup_valid v' j = if decide (j = i) then None else lookup_valid v j) /\
  (forall i x, 0 <= i < allocated_size v -> x ≠ invalid ->
     exists v', replace invalid i x v = Done (true, v') /\ wf v' /\
       forall j, 0 <= j -> lookup_valid v' j = if decide (j = i) then Some x else lookup_valid v j) /\
  (forall i x, (i, x) ∈ pairs invalid v <-> 0 <= i /\ lookup_valid v i = Some x).
Proof.
  intros W. split_and!.
  - intros x Hx. destruct (push_back invalid x v) as [[i ok] v'] eqn:E. by apply sparse_push_spec.
  - intros i x Hi Hx. by apply (erase_spec i v x).
  - intros i x Hi Hx. by apply replace_spec.
  - intros i x. apply pairs_spec.
Qed.

(** [erase] and [replace] compare the index with the size by [>], so the
    index one past the last element passes the test and they read and write
    outside the vector; every larger index is refused. *)
Theorem sparse_index_at_size_is_out_of_bounds v x :
  erase invalid (allocated_size v) v = Stop Undefined /\
  replace invalid (allocated_size v) x v = Stop Undefined /\
  forall i, allocated_size v < i -> erase invalid i v = Done (false, v) /\ replace invalid i x v = Done (false, v).
Proof.
  assert (Hel : el (allocated_size v) v = Stop Undefined).
  { unfold el, allocated_size. by rewrite Nat2Z.id, lookup_ge_None_2. }
  unfold erase, replace. rewrite Z.ltb_irrefl, Hel. split_and!; [done..|].
  intros i Hi. by rewrite (proj2 (Z.ltb_lt _ _) Hi).
Qed.

(** Both searches stop at the first element of the other kind. *)
Lemma skip_spec free a rest : Forall (fun x => bool_decide (x = invalid) = free) a ->
  match rest with [] => True | x :: _ => bool_decide (x = invalid) = negb free end ->
  forall pre fuel i, i = length pre -> (length a <= fuel)%nat ->
  skip invalid fuel free i (pre ++ a ++ rest) = (i + length a)%nat.
Proof.
  intros Ha Hr. induction Ha as [|x a Hx Ha IH]; intros pre fuel i Hi Hf.
  - cbn [length app]. rewrite Nat.add_0_r. destruct fuel as [|fuel]; [done|]. cbn [skip]. destruct rest as [|x rest].
    + by rewrite lookup_ge_None_2 by (rewrite app_nil_r; lia).
    + rewrite list_lookup_middle, Hr by done. by destruct free.
  - destruct fuel as [|fuel]; [cbn in Hf; lia|]. cbn [skip length app]. rewrite list_lookup_middle, Hx, Bool.eqb_reflx by done.
    replace (pre ++ x :: a ++ rest) with ((pre ++ [x]) ++ a ++ rest) by (by rewrite <- app_assoc).
    rewrite IH by (cbn in Hf; rewrite ?length_app; cbn; lia). lia.
Qed.

Lemma gather_spec l : forall fuel kept junk hole el,
  hole = length kept -> el = (hole + length junk)%nat -> (0 < length junk)%nat -> (length l <= fuel)%nat ->
  exists n l', gather invalid fuel hole el (kept ++ junk ++ l) = (n, l') /\ take n l' = kept ++ filter (fun x => x ≠ invalid) l.
Proof.
  induction l as [|x l IH]; intros fuel kept junk hole el Hh He Hj Hf.
  - exists hole, (kept ++ junk ++ []). split.
    + destruct fuel; [done|]. cbn [gather]. by rewrite lookup_ge_None_2 by (rewrite !length_app; cbn; lia).
    + rewrite Hh, take_app_length. by rewrite app_nil_r.
  - destruct fuel as [|fuel]; [cbn in Hf; lia|]. cbn [gather].
    rewrite app_assoc. rewrite list_lookup_middle by (rewrite length_app; lia). rewrite filter_cons. case_decide as Hx.
    + rewrite decide_False by tauto. rewrite <- app_assoc. replace (junk ++ x :: l) with ((junk ++ [x]) ++ l) by (by rewrite <- app_assoc).
      apply IH; [done|rewrite length_app; cbn; lia|rewrite length_app; cbn; lia|cbn in Hf; lia].
    + rewrite decide_True by done. destruct junk as [|j junk]; [cbn in Hj; lia|].
      rewrite <- app_assoc. cbn [app]. rewrite insert_app_r_alt, Hh, Nat.sub_diag by lia. cbn [insert list_insert].
      destruct (IH fuel (kept ++ [x]) (junk ++ [x]) (S (length kept)) (S el)) as (n & l' & E & Ht); rewrite ?length_app; cbn [length] in *; try lia.
      exists n, l'. repeat (rewrite <- app_assoc in E; cbn [app] in E). rewrite <- app_assoc in Ht. by split.
Qed.

Lemma split_valid l : exists a rest, l = a ++ rest /\ Forall (fun x => bool_decide (x = invalid) = false) a /\
  match rest with [] => True | x :: _ => x = invalid end.
Proof.
  induction l as [|x l (a & rest & -> & Ha & Hr)]; [by exists [], []|]. destruct (decide (x = invalid)) as [->|Hx].
  - by exists [], (invalid :: a ++ rest).
  - exists (x :: a), rest. split_and!; [done| |done]. constructor; [by apply bool_decide_eq_false|done].
Qed.

Lemma split_free l : exists a rest, l = a ++ rest /\ Forall (fun x => bool_decide (x = invalid) = true) a /\
  match rest with [] => True | x :: _ => bool_decide (x = invalid) = false end.
Proof.
  induction l as [|x l (a & rest & -> & Ha & Hr)]; [by exists [], []|]. destruct (decide (x = invalid)) as [Hx|Hx].
  - exists (x :: a), rest. split_and!; [done| |done]. constructor; [by apply bool_decide_eq_true|done].
  - exists [], (x :: a ++ rest). split_and!; [done|done|by apply bool_decide_eq_false].
Qed.

Lemma filter_valid a : Forall (fun x => bool_decide (x = invalid) = false) a -> filter (fun x => x ≠ invalid) a = a.
Proof. induction 1 as [|x a Hx Ha IH]; [done|]. apply bool_decide_eq_false in Hx. by rewrite filter_cons_True, IH. Qed.

Lemma filter_free a : Forall (fun x => bool_decide (x = invalid) = true) a -> filter (fun x => x ≠ invalid) a = [].
Proof. induction 1 as [|x a Hx Ha IH]; [done|]. apply bool_decide_eq_true in Hx. by rewrite filter_cons_False by tauto. Qed.

(** [compact] closes the holes: the valid elements stay, in order, and nothing
    is free any more. *)
Theorem compact_closes_the_holes v : wf v ->
  els (compact invalid v) = filter (fun x => x ≠ invalid) (els v) /\ idxs (compact invalid v) = [] /\ wf (compact invalid v).
Proof.
  intros W. destruct (split_valid (els v)) as (a & rest & E & Ha & Hr).
  assert (G : els (compact invalid v) = filter (fun x => x ≠ invalid) (els v) /\ idxs (compact invalid v) = []).
  { unfold compact. rewrite E. rewrite (skip_spec false a rest Ha ltac:(by destruct rest; [|by apply bool_decide_eq_true]) []); [|done|rewrite length_app; lia].
    cbn [Nat.add]. rewrite filter_app, (filter_valid a) by done. case_decide as Hd.
    { rewrite length_app in Hd. destruct rest; [|cbn in Hd; lia]. rewrite E. rewrite !app_nil_r in *. split; [done|].
      destruct (idxs v) as [|i js] eqn:Ei; [done|]. exfalso. destruct (proj1 (wf_idxs _ v W i)) as [_ Hi]; [rewrite Ei; set_solver|].
      rewrite E in Hi. apply list_elem_of_lookup_2 in Hi. rewrite Forall_forall in Ha. specialize (Ha _ Hi). by apply bool_decide_eq_false in Ha. }
    destruct rest as [|x rest]; [rewrite app_nil_r in Hd; done|]. subst x. rewrite filter_cons_False by tauto.
    destruct (split_free rest) as (b & rest' & -> & Hb & Hr').
    replace (a ++ invalid :: b ++ rest') with ((a ++ [invalid]) ++ b ++ rest') by (by rewrite <- app_assoc).
    rewrite (skip_spec true b rest' Hb ltac:(by destruct rest') (a ++ [invalid])); rewrite ?length_app; cbn [length]; [|lia|lia].
    rewrite filter_app, (filter_free b) by done. cbn [app].
    case_decide as Hd2.
    - destruct rest'; [|cbn in Hd2; lia]. rewrite <- app_assoc, take_app_length. cbn. by rewrite app_nil_r.
    - destruct (gather_spec rest' (length a + 1 + (length b + length rest')) a (invalid :: b) (length a) (S (length a) + length b)) as (n & l' & Eg & Ht);
        [done|cbn; lia|cbn; lia|lia|].
      replace ((a ++ [invalid]) ++ b ++ rest') with (a ++ (invalid :: b) ++ rest') by (by rewrite <- app_assoc).
      rewrite Eg. cbn [els idxs]. by rewrite Ht. }
  destruct G as [G1 G2]. split_and!; [done|done|]. split; [rewrite G2; constructor|]. intros i. rewrite G1, G2. split; [set_solver|].
  intros [_ Hi]. apply list_elem_of_lookup_2, list_elem_of_filter in Hi as [Hi _]. done.
Qed.

End Lemmas.

(** Positions 0 and 2 in use, position 1 free. *)
Definition holed : sparse_vector Z := mkSparse [7; -1; 9] [1].

Lemma holed_wf : wf (-1) holed.
Proof.
  split; [apply NoDup_singleton|]. intros i. change (idxs holed) with [1]. rewrite list_elem_of_singleton. split; [by intros ->|].
  intros [Hi H]. cbn in H. destruct (Z.to_nat i) as [|[|[|n]]] eqn:E; try done. lia.
Qed.

Lemma sparse_vector_refines_map_witness :
  (forall x, x ≠ -1 ->
     let '(i, ok, v') := push_back (-1) x holed in
     wf (-1) v' /\ ok = true /\ 0 <= i /\ lookup_valid (-1) holed i = None /\
     forall j, 0 <= j -> lookup_valid (-1) v' j = if decide (j = i) then Some x else lookup_valid (-1) holed j) /\
  (forall i x, 0 <= i -> lookup_valid (-1) holed i = Some x ->
     exists v', erase (-1) i holed = Done (true, v') /\ wf (-1) v' /\
       forall j, 0 <= j -> lookup_valid (-1) v' j = if decide (j = i) then None else lookup_valid (-1) holed j) /\
  (forall i x, 0 <= i < allocated_size holed -> x ≠ -1 ->
     exists v', replace (-1) i x holed = Done (true, v') /\ wf (-1) v' /\
       forall j, 0 <= j -> lookup_valid (-1) v' j = if decide (j = i) then Some x else lookup_valid (-1) holed j) /\
  (forall i x, (i, x) ∈ pairs (-1) holed <-> 0 <= i /\ lookup_valid (-1) holed i = Some x).
Proof. apply (sparse_vector_refines_map (-1) holed), holed_wf. Defined.

End Sparse.
