(* ===== verification/RingBuffer.v ===== *)
(** * Ring buffers

    Models [ring_buffer] of src/std/include/extensions_ring_buffer, which holds
    the events of an event queue. *)

From S2P Require Import Prelude.

Module Ring.

Section Ops.
Context {T : Type} (Size : Z).

Record ring_buffer := mkRing { data : list T; head : Z; tail : Z }.

Definition size (r : ring_buffer) : Z :=
  if head r <=? tail r then tail r - head r else (Size - head r) + tail r.

(** A write or read of [__data] outside the array is undefined. *)
Definition push_back (x : T) (r : ring_buffer) : outcome ring_buffer :=
  if (0 <=? tail r) && (tail r <? Z.of_nat (length (data r))) then
    let d := <[Z.to_nat (tail r) := x]> (data r) in
    let t := tail r + 1 in
    let h := if t =? head r then head r + 1 else head r in
    Done (mkRing d h (if Size <=? t then 0 else t))
  else Stop Undefined.

Definition pop_front (r : ring_buffer) : outcome (T * ring_buffer) :=
  out ← deref (data r !! Z.to_nat (head r));
  let h := head r + 1 in
  Done (out, mkRing (data r) (if Size <=? h then 0 else h) (tail r)).

(** The elements from head to tail. *)
Definition contents (r : ring_buffer) : list T :=
  take (Z.to_nat (size r)) (drop (Z.to_nat (head r)) (data r) ++ data r).

Record wf (r : ring_buffer) : Prop := {
  wf_data : Z.of_nat (length (data r)) = Size;
  wf_head : 0 <= head r < Size;
  wf_tail : 0 <= tail r < Size
}.

Lemma contents_lookup r i :
  wf r -> contents r !! i =
  if decide (Z.of_nat i < size r) then data r !! Z.to_nat ((head r + Z.of_nat i) mod Size) else None.
Proof.
  intros [Hd Hh Ht]. unfold contents. case_decide as Hi.
  - rewrite lookup_take_lt by lia. assert (size r < Size) by (unfold size in *; zcases; lia).
    destruct (decide (head r + Z.of_nat i < Size)).
    + rewrite lookup_app_l by (rewrite length_drop; lia). rewrite lookup_drop, Z.mod_small by lia. f_equal. lia.
    + rewrite lookup_app_r by (rewrite length_drop; lia). rewrite length_drop. f_equal.
      rewrite <- (Z_mod_plus_full _ (-1)), Z.mod_small by lia. lia.
  - apply lookup_take_ge. lia.
Qed.

(** As long as one more slot stays unused, the ring is a queue. *)
Lemma ring_push_spec x r :
  wf r -> size r + 1 < Size ->
  exists r', push_back x r = Done r' /\ wf r' /\ size r' = size r + 1 /\ contents r' = contents r ++ [x].
Proof.
  intros W Hs. pose proof W as [Hd Hh Ht]. unfold push_back.
  rewrite (proj2 (Z.leb_le _ _)), (proj2 (Z.ltb_lt _ _)) by lia. cbn [andb].
  rewrite (proj2 (Z.eqb_neq (tail r + 1) (head r))) by (unfold size in Hs; zcases; lia).
  eexists. split; [done|]. set (r' := mkRing _ _ _).
  assert (W' : wf r').
  { split; cbn; [by rewrite length_insert|lia|]. zcases; lia. }
  assert (Hs' : size r' = size r + 1) by (unfold size in *; cbn; zcases; lia).
  split_and!; [done|done|]. apply list_eq. intros i.
  assert (Hlen : length (contents r) = Z.to_nat (size r)).
  { unfold contents. rewrite length_take, length_app, length_drop. unfold size in *. zcases; lia. }
  assert (0 <= size r) by (unfold size; zcases; lia).
  assert (Htl : tail r = (head r + size r) mod Size).
  { unfold size. destruct (Z.leb_spec (head r) (tail r)).
    - rewrite Z.mod_small; lia.
    - rewrite <- (Z_mod_plus_full _ (-1)), Z.mod_small; lia. }
  rewrite (contents_lookup r' i W'), Hs'. cbn [data head r']. case_decide as Hi.
  - destruct (decide (Z.of_nat i = size r)) as [Ei|Hne].
    + rewrite Ei, <- Htl, list_lookup_insert_eq by lia. rewrite lookup_app_r by lia. by replace (i - length (contents r))%nat with 0%nat by lia.
    + rewrite list_lookup_insert_ne.
      * rewrite lookup_app_l, contents_lookup by (done || lia). by rewrite decide_True by lia.
      * rewrite Htl. intros E. apply Z2Nat.inj in E; [|apply Z.mod_pos_bound; lia..].
        assert (D : (size r - Z.of_nat i) mod Size = 0).
        { replace (size r - Z.of_nat i) with ((head r + size r) - (head r + Z.of_nat i)) by lia.
          rewrite Zminus_mod, E, Z.sub_diag. apply Z.mod_0_l. lia. }
        rewrite Z.mod_small in D; lia.
  - symmetry. apply lookup_ge_None. rewrite length_app. cbn. lia.
Qed.

Lemma ring_pop_spec r :
  wf r -> 0 < size r ->
  exists x r', pop_front r = Done (x, r') /\ wf r' /\ size r' = size r - 1 /\ contents r = x :: contents r'.
Proof.
  intros W Hs. pose proof W as [Hd Hh Ht]. unfold pop_front.
  destruct (lookup_lt_is_Some_2 (data r) (Z.to_nat (head r))) as [x Hx]; [lia|]. rewrite Hx. cbn [deref mbind outcome_bind].
  exists x. eexists. split; [done|]. set (r' := mkRing _ _ _).
  assert (W' : wf r') by (split; cbn; [done|zcases; lia|lia]).
  assert (Hs' : size r' = size r - 1) by (unfold size in *; cbn; zcases; lia).
  split_and!; [done|done|]. apply list_eq. intros [|i].
  - rewrite contents_lookup by done. rewrite decide_True by lia. cbn. rewrite Z.add_0_r, Z.mod_small by lia. done.
  - cbn [lookup list_lookup]. rewrite (contents_lookup r) by done. change (list_lookup i (contents r')) with (contents r' !! i).
    rewrite (contents_lookup r') by done. rewrite Hs'. case_decide as Hi; case_decide as Hi'; try lia; [|done].
    cbn [data head r']. f_equal. f_equal.
    assert (E : (if Size <=? head r + 1 then 0 else head r + 1) = (head r + 1) mod Size).
    { destruct (Z.leb_spec Size (head r + 1)); [|by rewrite Z.mod_small by lia].
      replace (head r + 1) with Size by lia. by rewrite Z_mod_same_full. }
    rewrite E, Z.add_mod_idemp_l by lia. f_equal. lia.
Qed.

(** With at most [Size - 2] elements in it the ring buffer is a first-in
    first-out queue: [push_back] appends, and [pop_front] of a non-empty ring
    returns and removes the oldest element. *)
Theorem ring_refines_queue r :
  wf r ->
  (forall x, size r + 1 < Size ->
     exists r', push_back x r = Done r' /\ wf r' /\ size r' = size r + 1 /\ contents r' = contents r ++ [x]) /\
  (0 < size r ->
     exists x r', pop_front r = Done (x, r') /\ wf r' /\ size r' = size r - 1 /\ contents r = x :: contents r').
Proof. intros W. split; [intros x; by apply ring_push_spec|by apply ring_pop_spec]. Qed.

(** The full test of [push_back] compares head and tail before the tail
    wraps around, and never wraps the head. Pushing to a ring that begins at
    slot 0 and holds [Size - 1] elements makes it look empty; pushing to one
    that begins at the last slot moves the head one past the array, and the
    next [pop_front] reads there. *)
Theorem push_to_full_ring_breaks_it d x :
  Z.of_nat (length d) = Size -> 2 <= Size ->
  (exists r, push_back x (mkRing d 0 (Size - 1)) = Done r /\ size r = 0) /\
  (exists r, push_back x (mkRing d (Size - 1) (Size - 2)) = Done r /\ head r = Size /\ pop_front r = Stop Undefined).
Proof.
  intros Hd HS. unfold push_back. cbn [data head tail].
  rewrite !(proj2 (Z.leb_le 0 _)), !(proj2 (Z.ltb_lt _ (Z.of_nat (length d)))) by lia. cbn [andb]. split.
  - eexists. split; [done|]. rewrite (proj2 (Z.eqb_neq (Size - 1 + 1) 0)), (proj2 (Z.leb_le Size (Size - 1 + 1))) by lia. done.
  - eexists. split; [done|]. replace (Size - 2 + 1) with (Size - 1) by lia. rewrite Z.eqb_refl.
    split; [cbn; lia|]. unfold pop_front. cbn [head data]. by rewrite lookup_ge_None_2 by (rewrite length_insert; lia).
Qed.

End Ops.
Arguments ring_buffer T : clear implicits.

Definition four_slots : ring_buffer Z := mkRing [1; 2; 3; 4] 3 1.

Lemma four_slots_wf : wf 4 four_slots.
Proof. by split. Qed.

Lemma ring_refines_queue_witness :
  (forall x, size 4 four_slots + 1 < 4 ->
     exists r', push_back 4 x four_slots = Done r' /\ wf 4 r' /\ size 4 r' = size 4 four_slots + 1 /\
       contents 4 r' = contents 4 four_slots ++ [x]) /\
  (0 < size 4 four_slots ->
     exists x r', pop_front 4 four_slots = Done (x, r') /\ wf 4 r' /\ size 4 r' = size 4 four_slots - 1 /\
       contents 4 four_slots = x :: contents 4 r').
Proof. apply (ring_refines_queue 4 four_slots), four_slots_wf. Defined.

Lemma push_to_full_ring_breaks_it_witness :
  (exists r, push_back 4 9 (mkRing [1; 2; 3; 4] 0 (4 - 1)) = Done r /\ size 4 r = 0) /\
  (exists r, push_back 4 9 (mkRing [1; 2; 3; 4] (4 - 1) (4 - 2)) = Done r /\ head r = 4 /\ pop_front 4 r = Stop Undefined).
Proof. apply (push_to_full_ring_breaks_it 4 [1; 2; 3; 4] 9); [reflexivity|lia]. Defined.

End Ring.
