(* ===== verification/Event.v ===== *)
(** * Events

    Models src/kernel/src/event.h: event types, event queues with their filters
    and the event manager's table of listeners.  An event filter is the process
    file descriptor it names (the only member of the union).  The two [notify]
    functions of event.cpp need processes and are in the scheduler's file. *)

From S2P Require Import Prelude SparseVector RingBuffer.

Inductive EventType := INVALID | READY_TO_READ | READY_TO_WRITE | COUNT.

#[export] Instance EventType_eq_dec : EqDecision EventType.
Proof. solve_decision. Defined.

#[export] Instance EventType_countable : Countable EventType.
Proof.
  refine (inj_countable' (fun e => match e with INVALID => 0 | READY_TO_READ => 1 | READY_TO_WRITE => 2 | COUNT => 3 end)
            (fun z => if decide (z = 0) then INVALID else if decide (z = 1) then READY_TO_READ
                      else if decide (z = 2) then READY_TO_WRITE else COUNT) _).
  by intros [].
Defined.

(** [e >= EventType::COUNT] *)
Definition at_or_past_count (e : EventType) : bool := bool_decide (e = COUNT).

Record Event := mkEvent {
  Type_ : EventType;
  Filter : Z;
  Data : list Z
}.

(** The event [pop] returns when there is none: an invalid type, the invalid
    descriptor as filter and zeroes. *)
Definition no_event : Event := mkEvent INVALID (2 ^ 64 - 1) (replicate 128 0).

(** ** The event manager *)

Record EventManager := mkManager { Listeners : gmap EventType (list Z) }.

(** [Listeners[event_type]]: a missing entry is created empty. *)
Definition listeners (e : EventType) (m : EventManager) : list Z := default [] (Listeners m !! e).
Definition with_listeners (e : EventType) (l : list Z) (m : EventManager) : EventManager :=
  mkManager (<[e := l]> (Listeners m)).

Definition register_listener (event_type : EventType) (new_listener : Z) (m : EventManager) : EventManager :=
  if at_or_past_count event_type then m
  else
    let l := listeners event_type m in
    (* std::find(...) != end() *)
    if bool_decide (new_listener ∈ l) then with_listeners event_type (l ++ [new_listener]) m
    else with_listeners event_type l m.

Definition unregister_listener (event_type : EventType) (listener : Z) (m : EventManager) : bool * EventManager :=
  if at_or_past_count event_type then (false, m)
  else
    let l := listeners event_type m in
    let l' := filter (fun p => p ≠ listener) l in
    (negb (length l =? length l')%nat, with_listeners event_type l' m).

(** ** Event queues *)

Record EventQueue := mkQueue {
  ID : Z;
  PID : Z;
  Events : Ring.ring_buffer Event;
  Filters : gmap EventType (list Z)
}.

(** [EventQueueSize] *)
Definition N : Z := 32.

Definition new_queue (id pid : Z) : EventQueue :=
  mkQueue id pid (Ring.mkRing (replicate (Z.to_nat N) no_event) 0 0) ∅.

Definition filters (e : EventType) (q : EventQueue) : list Z := default [] (Filters q !! e).
Definition with_filters (e : EventType) (l : list Z) (q : EventQueue) : EventQueue :=
  mkQueue (ID q) (PID q) (Events q) (<[e := l]> (Filters q)).

Definition register_listening (e : EventType) (efilt : Z) (q : EventQueue) (m : EventManager) :
    EventQueue * EventManager :=
  if at_or_past_count e then (q, m)
  else (with_filters e (filters e q ++ [efilt]) q, register_listener e (PID q) m).

Definition unregister_listening (e : EventType) (efilt : Z) (q : EventQueue) (m : EventManager) :
    EventQueue * EventManager :=
  if at_or_past_count e then (q, m)
  else
    let l := filter (fun f => f ≠ efilt) (filters e q) in
    let q := with_filters e l q in
    match l with
    | [] => (q, (unregister_listener e (PID q) m).2)
    | _ => (q, m)
    end.

Definition listens (e : EventType) (efilt : Z) (q : EventQueue) : bool :=
  if at_or_past_count e then false else bool_decide (efilt ∈ filters e q).

Definition push (e : Event) (q : EventQueue) : outcome EventQueue :=
  r ← Ring.push_back N e (Events q);
  Done (mkQueue (ID q) (PID q) r (Filters q)).

Definition pop (q : EventQueue) : outcome (Event * EventQueue) :=
  if Ring.size N (Events q) =? 0 then Done (no_event, q)
  else
    '(e, r) ← Ring.pop_front N (Events q);
    Done (e, mkQueue (ID q) (PID q) r (Filters q)).

Definition has_events (q : EventQueue) : bool := negb (Ring.size N (Events q) =? 0).

(** ** Lemmas *)

Lemma listeners_with e e' l m : listeners e (with_listeners e' l m) = if decide (e = e') then l else listeners e m.
Proof.
  unfold listeners, with_listeners. cbn. case_decide as E.
  - subst. by rewrite lookup_insert_eq.
  - by rewrite lookup_insert_ne.
Qed.

(** Nobody listens. *)
Definition silent (m : EventManager) : Prop := forall e, listeners e m = [].

Lemma register_listener_silent e p m : silent m -> silent (register_listener e p m).
Proof.
  intros H e'. unfold register_listener. destruct (at_or_past_count e); [done|]. rewrite (H e).
  rewrite bool_decide_false by apply not_elem_of_nil. rewrite listeners_with. by case_decide.
Qed.

Lemma unregister_listener_silent e p m : silent m -> silent (unregister_listener e p m).2.
Proof.
  intros H e'. unfold unregister_listener. destruct (at_or_past_count e); [done|]. rewrite (H e). cbn.
  rewrite listeners_with. by case_decide.
Qed.

(** What the queues of all processes do to the manager. *)
Inductive manager_step : EventManager -> EventManager -> Prop :=
| step_register e f q m : manager_step m (register_listening e f q m).2
| step_unregister e f q m : manager_step m (unregister_listening e f q m).2.

Lemma manager_step_silent m m' : silent m -> manager_step m m' -> silent m'.
Proof.
  intros H Hs. destruct Hs as [e f q m|e f q m]; unfold register_listening, unregister_listening;
    destruct (at_or_past_count e); try done; cbn.
  - by apply register_listener_silent.
  - destruct (filter _ _); cbn; [by apply unregister_listener_silent|done].
Qed.

(** [register_listener] adds a listener only when it is already there (the
    test against [end()] is the wrong way round), so whatever queues start and
    stop listening, the manager that begins empty never has a listener. *)
Theorem manager_never_gains_a_listener m :
  rtc manager_step (mkManager ∅) m -> forall e, listeners e m = [].
Proof.
  intros Hr. assert (H0 : silent (mkManager ∅)) by done. revert H0. generalize (mkManager ∅) Hr. clear Hr.
  intros m0 Hr. induction Hr; intros H0; [done|]. by eapply IHHr, manager_step_silent.
Qed.

Lemma manager_never_gains_a_listener_witness :
  listeners READY_TO_READ (register_listening READY_TO_READ 3 (new_queue 1 7) (mkManager ∅)).2 = [].
Proof. apply (manager_never_gains_a_listener _). eapply rtc_l; [apply step_register|apply rtc_refl]. Defined.
