(* ===== verification/Process.v ===== *)
(** * Processes

    Models [struct Process] of src/kernel/src/scheduler.h with its member
    functions, [Memory::Region] of memory/region.h and [CPUState] of
    x86_64/cpu.h.  [Memories] is the sequence its linked list represents
    ([SLL.list_refines_sequence]). [Process::destroy] needs the file system and
    is in [ProcessLife]. *)

From S2P Require Import Prelude SparseVector RingBuffer Event.

(** ** Memory regions *)

Record Region := mkRegion {
  vaddr : Z;
  paddr : Z;
  rlength : Z;
  pages : Z;
  rflags : Z
}.

(** The constructor. *)
Definition region (vaddress paddress bytes flag : Z) : Region :=
  mkRegion vaddress paddress bytes
    (if bytes mod PAGE_SIZE =? 0 then bytes / PAGE_SIZE else 1 + bytes / PAGE_SIZE) flag.

(** ** Saved processor state *)

Record InterruptFrame := mkFrame { ip : Z; cs : Z; flags : Z; sp : Z; ss : Z }.

Record CPUState := mkCPU {
  RSP : Z; RBX : Z; RCX : Z; RDX : Z; RSI : Z; RDI : Z; RBP : Z;
  R8 : Z; R9 : Z; R10 : Z; R11 : Z; R12 : Z; R13 : Z; R14 : Z; R15 : Z;
  FS : Z; GS : Z; RAX : Z; Frame : InterruptFrame
}.

Definition with_RAX (v : Z) (c : CPUState) : CPUState :=
  mkCPU (RSP c) (RBX c) (RCX c) (RDX c) (RSI c) (RDI c) (RBP c) (R8 c) (R9 c) (R10 c) (R11 c) (R12 c)
    (R13 c) (R14 c) (R15 c) (FS c) (GS c) v (Frame c).
Definition with_FS_GS (fs gs : Z) (c : CPUState) : CPUState :=
  mkCPU (RSP c) (RBX c) (RCX c) (RDX c) (RSI c) (RDI c) (RBP c) (R8 c) (R9 c) (R10 c) (R11 c) (R12 c)
    (R13 c) (R14 c) (R15 c) fs gs (RAX c) (Frame c).

(** ** Processes *)

Inductive ProcessState := RUNNING | SLEEPING.

#[export] Instance ProcessState_eq_dec : EqDecision ProcessState.
Proof. solve_decision. Defined.

Record ZombieState := mkZombie { ZombiePID : Z; ReturnStatus : Z }.

(** File descriptors are words; the largest is [Invalid] for both kinds. *)
Definition FD_Invalid : Z := 2 ^ 64 - 1.

Record Process := mkProcess {
  ProcessID : Z;
  State : ProcessState;
  Memories : list Region;
  next_region_vaddr : Z;
  ParentProcess : Z;
  WaitingList : list Z;
  Zombies : list ZombieState;
  FileDescriptors : Sparse.sparse_vector Z;
  EventQueues : list EventQueue;
  ExecutablePath : string;
  WorkingDirectory : string;
  CPU : CPUState;
  CPUExtra : list Z;
  CPUExtraSet : bool;
  CR3 : Z
}.

Definition zero_frame : InterruptFrame := mkFrame 0 0 0 0 0.
Definition zero_cpu : CPUState := mkCPU 0 0 0 0 0 0 0 0 0 0 0 0 0 0 0 0 0 0 zero_frame.

(** A default-constructed process. The processor state of the source is left
    uninitialised; it is written before it is used. *)
Definition new_process : Process :=
  mkProcess 0 RUNNING [] 0xf8000000 (2 ^ 64 - 1) [] [] Sparse.empty [] "" "" zero_cpu (replicate 512 0) false 0.

(** *** Field updates *)

Definition with_ProcessID (x : Z) (p : Process) : Process :=
  mkProcess x (State p) (Memories p) (next_region_vaddr p) (ParentProcess p) (WaitingList p) (Zombies p)
    (FileDescriptors p) (EventQueues p) (ExecutablePath p) (WorkingDirectory p) (CPU p) (CPUExtra p) (CPUExtraSet p) (CR3 p).
Definition with_State (x : ProcessState) (p : Process) : Process :=
  mkProcess (ProcessID p) x (Memories p) (next_region_vaddr p) (ParentProcess p) (WaitingList p) (Zombies p)
    (FileDescriptors p) (EventQueues p) (ExecutablePath p) (WorkingDirectory p) (CPU p) (CPUExtra p) (CPUExtraSet p) (CR3 p).
Definition with_Memories (x : list Region) (p : Process) : Process :=
  mkProcess (ProcessID p) (State p) x (next_region_vaddr p) (ParentProcess p) (WaitingList p) (Zombies p)
    (FileDescriptors p) (EventQueues p) (ExecutablePath p) (WorkingDirectory p) (CPU p) (CPUExtra p) (CPUExtraSet p) (CR3 p).
Definition with_next_region_vaddr (x : Z) (p : Process) : Process :=
  mkProcess (ProcessID p) (State p) (Memories p) x (ParentProcess p) (WaitingList p) (Zombies p)
    (FileDescriptors p) (EventQueues p) (ExecutablePath p) (WorkingDirectory p) (CPU p) (CPUExtra p) (CPUExtraSet p) (CR3 p).
Definition with_ParentProcess (x : Z) (p : Process) : Process :=
  mkProcess (ProcessID p) (State p) (Memories p) (next_region_vaddr p) x (WaitingList p) (Zombies p)
    (FileDescriptors p) (EventQueues p) (ExecutablePath p) (WorkingDirectory p) (CPU p) (CPUExtra p) (CPUExtraSet p) (CR3 p).
Definition with_WaitingList (x : list Z) (p : Process) : Process :=
  mkProcess (ProcessID p) (State p) (Memories p) (next_region_vaddr p) (ParentProcess p) x (Zombies p)
    (FileDescriptors p) (EventQueues p) (ExecutablePath p) (WorkingDirectory p) (CPU p) (CPUExtra p) (CPUExtraSet p) (CR3 p).
Definition with_Zombies (x : list ZombieState) (p : Process) : Process :=
  mkProcess (ProcessID p) (State p) (Memories p) (next_region_vaddr p) (ParentProcess p) (WaitingList p) x
    (FileDescriptors p) (EventQueues p) (ExecutablePath p) (WorkingDirectory p) (CPU p) (CPUExtra p) (CPUExtraSet p) (CR3 p).
Definition with_FileDescriptors (x : Sparse.sparse_vector Z) (p : Process) : Process :=
  mkProcess (ProcessID p) (State p) (Memories p) (next_region_vaddr p) (ParentProcess p) (WaitingList p) (Zombies p)
    x (EventQueues p) (ExecutablePath p) (WorkingDirectory p) (CPU p) (CPUExtra p) (CPUExtraSet p) (CR3 p).
Definition with_EventQueues (x : list EventQueue) (p : Process) : Process :=
  mkProcess (ProcessID p) (State p) (Memories p) (next_region_vaddr p) (ParentProcess p) (WaitingList p) (Zombies p)
    (FileDescriptors p) x (ExecutablePath p) (WorkingDirectory p) (CPU p) (CPUExtra p) (CPUExtraSet p) (CR3 p).
Definition with_paths (x y : string) (p : Process) : Process :=
  mkProcess (ProcessID p) (State p) (Memories p) (next_region_vaddr p) (ParentProcess p) (WaitingList p) (Zombies p)
    (FileDescriptors p) (EventQueues p) x y (CPU p) (CPUExtra p) (CPUExtraSet p) (CR3 p).
Definition with_CPU (x : CPUState) (p : Process) : Process :=
  mkProcess (ProcessID p) (State p) (Memories p) (next_region_vaddr p) (ParentProcess p) (WaitingList p) (Zombies p)
    (FileDescriptors p) (EventQueues p) (ExecutablePath p) (WorkingDirectory p) x (CPUExtra p) (CPUExtraSet p) (CR3 p).
Definition with_CPUExtra (x : list Z) (set : bool) (p : Process) : Process :=
  mkProcess (ProcessID p) (State p) (Memories p) (next_region_vaddr p) (ParentProcess p) (WaitingList p) (Zombies p)
    (FileDescriptors p) (EventQueues p) (ExecutablePath p) (WorkingDirectory p) (CPU p) x set (CR3 p).
Definition with_CR3 (x : Z) (p : Process) : Process :=
  mkProcess (ProcessID p) (State p) (Memories p) (next_region_vaddr p) (ParentProcess p) (WaitingList p) (Zombies p)
    (FileDescriptors p) (EventQueues p) (ExecutablePath p) (WorkingDirectory p) (CPU p) (CPUExtra p) (CPUExtraSet p) x.

(** *** Member functions *)

Definition sysfd_to_procfd (predicate_sysfd : Z) (p : Process) : Z :=
  match list_find (fun '(_, sysfd) => sysfd = predicate_sysfd) (Sparse.pairs FD_Invalid (FileDescriptors p)) with
  | Some (_, (procfd, _)) => procfd
  | None => FD_Invalid
  end.

Definition add_memory_region (va pa size flag : Z) (p : Process) : Process :=
  with_Memories (region va pa size flag :: Memories p) p.

(** The overload that takes a region. *)
Definition add_memory_region_of (m : Region) (p : Process) : Process :=
  with_Memories (region (vaddr m) (paddr m) (rlength m) (rflags m) :: Memories p) p.

(** The first region at that address goes. *)
Fixpoint remove_region (va : Z) (l : list Region) : list Region :=
  match l with
  | [] => []
  | r :: l => if vaddr r =? va then l else r :: remove_region va l
  end.

Definition remove_memory_region (va : Z) (p : Process) : Process :=
  with_Memories (remove_region va (Memories p)) p.

Definition in_region (va : Z) (r : Region) : bool :=
  (vaddr r <=? va) && (va <? vaddr r +64 rlength r).

Definition valid_address (va : Z) (p : Process) : bool :=
  if va =? 0 then false else existsb (in_region va) (Memories p).

Definition set_return_value (value : Z) (p : Process) : Process := with_CPU (with_RAX value (CPU p)) p.

Definition unblock (setReturn : bool) (returnValue : Z) (p : Process) : Process :=
  with_State RUNNING (if setReturn then set_return_value returnValue p else p).

(** ** Lemmas *)

Lemma region_pages va pa bytes f : 0 <= bytes -> bytes <= pages (region va pa bytes f) * PAGE_SIZE < bytes + PAGE_SIZE.
Proof. intros H. unfold region. cbn. unfold PAGE_SIZE. destruct (Z.eqb_spec (bytes mod 4096) 0); dlia. Qed.

Lemma valid_address_spec va p :
  valid_address va p = true <->
  va ≠ 0 /\ exists r, r ∈ Memories p /\ vaddr r <= va < vaddr r +64 rlength r.
Proof.
  unfold valid_address. destruct (Z.eqb_spec va 0) as [->|Hne]; [naive_solver|].
  rewrite existsb_exists. split.
  - intros (r & Hin & Hr). split; [done|]. exists r. apply list_elem_of_In in Hin. split; [done|].
    unfold in_region in Hr. apply andb_true_iff in Hr as [?%Z.leb_le ?%Z.ltb_lt]. lia.
  - intros (_ & r & Hin & Hr). exists r. split; [by apply list_elem_of_In|].
    unfold in_region. apply andb_true_iff. split; [apply Z.leb_le|apply Z.ltb_lt]; lia.
Qed.
