(* ===== verification/Scheduler.v ===== *)
(** * The scheduler

    Models namespace [Scheduler] of src/kernel/src/scheduler.cpp (the process
    queue, process identifiers, the round-robin switch) and the [notify]
    functions of src/kernel/src/event.cpp.  Processes are objects at addresses;
    the queue is the linked list of [LinkedList], and [CurrentProcess] is the
    address of one of its nodes.  [remove_process] and
    [CopyUserspaceProcess], which reach into the file system, are in
    [ProcessLife]. *)

From S2P Require Import Prelude PhysMem Bitmap FrameAlloc Paging PageMap LinkedList SparseVector RingBuffer Event Process.

Record sched := mkSched {
  procs : gmap Z Process;
  ProcessQueue : SLL.slist Z;
  CurrentProcess : Z;
  the_pid : Z;
  PageMapsToFree : list Z;
  Init : Z;
  gEvents : EventManager
}.

Definition with_procs (x : gmap Z Process) (s : sched) : sched :=
  mkSched x (ProcessQueue s) (CurrentProcess s) (the_pid s) (PageMapsToFree s) (Init s) (gEvents s).
Definition with_ProcessQueue (x : SLL.slist Z) (s : sched) : sched :=
  mkSched (procs s) x (CurrentProcess s) (the_pid s) (PageMapsToFree s) (Init s) (gEvents s).
Definition with_CurrentProcess (x : Z) (s : sched) : sched :=
  mkSched (procs s) (ProcessQueue s) x (the_pid s) (PageMapsToFree s) (Init s) (gEvents s).
Definition with_the_pid (x : Z) (s : sched) : sched :=
  mkSched (procs s) (ProcessQueue s) (CurrentProcess s) x (PageMapsToFree s) (Init s) (gEvents s).
Definition with_PageMapsToFree (x : list Z) (s : sched) : sched :=
  mkSched (procs s) (ProcessQueue s) (CurrentProcess s) (the_pid s) x (Init s) (gEvents s).
Definition with_Init (x : Z) (s : sched) : sched :=
  mkSched (procs s) (ProcessQueue s) (CurrentProcess s) (the_pid s) (PageMapsToFree s) x (gEvents s).
Definition with_gEvents (x : EventManager) (s : sched) : sched :=
  mkSched (procs s) (ProcessQueue s) (CurrentProcess s) (the_pid s) (PageMapsToFree s) (Init s) x.

(** A [Process*] dereferenced, and an update of the process it points to. *)
Definition proc (a : Z) (s : sched) : outcome Process := deref (procs s !! a).
Definition modify_proc (a : Z) (f : Process -> Process) (s : sched) : outcome sched :=
  p ← proc a s; Done (with_procs (<[a := f p]> (procs s)) s).

(** Loops over the queue visit each node once. *)
Definition queue_fuel (s : sched) : nat := S (size (SLL.nodes (ProcessQueue s))).

Definition request_pid (s : sched) : Z * sched :=
  let s := with_the_pid (the_pid s +64 1) s in (the_pid s, s).

Fixpoint process_from (fuel : nat) (it pid : Z) (s : sched) : outcome Z :=
  match fuel with
  | O => Stop Hung
  | S f =>
      if it =? 0 then Done 0
      else
        a ← SLL.value it (ProcessQueue s);
        p ← proc a s;
        if ProcessID p =? pid then Done a
        else nx ← SLL.next it (ProcessQueue s); process_from f nx pid s
  end.

(** The process with that identifier, or null. *)
Definition process (pid : Z) (s : sched) : outcome Z :=
  process_from (queue_fuel s) (SLL.Head (ProcessQueue s)) pid s.

Definition last_process (s : sched) : outcome Z := SLL.value (SLL.Tail (ProcessQueue s)) (ProcessQueue s).

Definition add_process (a : Z) (s : sched) : outcome (Z * sched) :=
  let '(pid, s) := request_pid s in
  s ← modify_proc a (with_ProcessID pid) s;
  q ← SLL.add_end a (ProcessQueue s);
  Done (pid, with_ProcessQueue q s).

(** [initialize]: the running code becomes process 0, at the address of
    [StartupProcess]; [q] is the list [new] returned. *)
Definition initialize (StartupProcess : Z) (q : SLL.slist Z) (v : vmm) (s : sched) : outcome (vmm * sched) :=
  let '(active, v) := active_page_map v in
  s ← modify_proc StartupProcess
        (fun p => with_ProcessID 0 (with_State RUNNING (with_CR3 active p))) s;
  let q := SLL.add StartupProcess q in
  Done (v, with_CurrentProcess (SLL.Head q) (with_ProcessQueue q s)).

Inductive IncludeGivenProcess := Include_Yes | Include_No.

Fixpoint find_viable (fuel : nat) (NextProcess : Z) (s : sched) : outcome Z :=
  match fuel with
  | O => Stop Hung
  | S f =>
      if NextProcess =? 0 then Done NextProcess
      else
        a ← SLL.value NextProcess (ProcessQueue s);
        if a =? 0 then Done NextProcess
        else
          p ← proc a s;
          if decide (State p = RUNNING) then Done NextProcess
          else nx ← SLL.next NextProcess (ProcessQueue s); find_viable f nx s
  end.

Definition find_next_viable_process_after (startProcess : Z) (include : IncludeGivenProcess) (s : sched) : outcome Z :=
  NextProcess ←
    match include with
    | Include_No => if startProcess =? 0 then Done startProcess else SLL.next startProcess (ProcessQueue s)
    | Include_Yes => Done startProcess
    end;
  find_viable (queue_fuel s) NextProcess s.

Definition next_viable_process (startProcess : Z) (include : IncludeGivenProcess) (s : sched) : outcome Z :=
  NextProcess ← find_next_viable_process_after startProcess include s;
  if NextProcess =? 0 then
    NextProcess ← find_next_viable_process_after (SLL.Head (ProcessQueue s)) Include_Yes s;
    if NextProcess =? 0 then Stop Hung else Done NextProcess
  else Done NextProcess.

(** *** The switch *)

(** What a switch works on besides the processes: the saved registers it was
    handed, the floating point unit and the active page map. *)
Record machine := mkMachine { regs : CPUState; fpu : list Z; vm : vmm }.

(** What [fxrstor64] depends on besides the saved bytes: the offset of [CPUExtra]
    inside a process, the bytes in memory behind that array of the process at an
    address, and whether the processor accepts 512 bytes as a floating point state
    (it faults on reserved bits of MXCSR). *)
Record fx_unit := mkFx { extra_offset : Z; behind : Z -> list Z; fx_valid : list Z -> bool }.

Section Switch.
(** [fxsr_enabled()] *)
Context (fxsr_enabled : bool) (fx : fx_unit).

(** The 512 bytes from [CPUExtra[i]] on, for the process at [a] whose array holds
    [extra]: from the next 512-byte boundary, past the end of the array when it
    does not begin at one. *)
Definition fx_index (a : Z) : nat := Z.to_nat ((512 - (a + extra_offset fx) mod 512) mod 512).
Definition fx_bytes (a : Z) (extra : list Z) : list Z := drop (fx_index a) extra ++ take (fx_index a) (behind fx a).

(** [fxrstor64] of [CPUExtra[i]]; the handler of the fault hangs. *)
Definition restore_fpu (a : Z) (p : Process) (hw : machine) : outcome machine :=
  if fxsr_enabled && CPUExtraSet p then
    if fx_valid fx (fx_bytes a (CPUExtra p)) then Done (mkMachine (regs hw) (fx_bytes a (CPUExtra p)) (vm hw)) else Stop Hung
  else Done hw.

Definition load_process (hw : machine) (s : sched) : outcome (machine * sched) :=
  a ← SLL.value (CurrentProcess s) (ProcessQueue s);
  p ← proc a s;
  let hw := mkMachine (CPU p) (fpu hw) (vm hw) in
  hw ← restore_fpu a p hw;
  let hw := mkMachine (regs hw) (fpu hw) (flush_page_map (CR3 p) (vm hw)) in
  let selector := ss (Frame (regs hw)) in
  Done (mkMachine (with_FS_GS selector selector (regs hw)) (fpu hw) (vm hw), s).

Definition switch_process_impl (hw : machine) (s : sched) : outcome (machine * sched) :=
  nx ← SLL.next (CurrentProcess s) (ProcessQueue s);
  if nx =? 0 then
    if CurrentProcess s =? SLL.Head (ProcessQueue s) then Done (hw, s)
    else
      n ← next_viable_process (SLL.Head (ProcessQueue s)) Include_Yes s;
      load_process hw (with_CurrentProcess n s)
  else
    n ← next_viable_process (CurrentProcess s) Include_No s;
    load_process hw (with_CurrentProcess n s).

Definition switch_process (hw : machine) (s : sched) : outcome (machine * sched) :=
  a ← SLL.value (CurrentProcess s) (ProcessQueue s);
  s ← modify_proc a (with_CPU (regs hw)) s;
  s ← (if fxsr_enabled then modify_proc a (with_CPUExtra (fpu hw) true) s else Done s);
  switch_process_impl hw s.

(** [yield]: the registers the new state starts from are not initialised. *)
Definition yield (uninitialised : CPUState) (hw : machine) (s : sched) : outcome (machine * sched) :=
  switch_process_impl (mkMachine uninitialised (fpu hw) (vm hw)) s.

End Switch.

(** *** Page maps of all processes *)

Section MapAll.
Context {F : Type} `{!FrameAllocator F}.

Fixpoint map_pages_from (fuel : nat) (it va pa mf count : Z) (s : sched) (st : mem * F) : outcome (mem * F) :=
  match fuel with
  | O => Stop Hung
  | S f =>
      if it =? 0 then Done st
      else
        a ← SLL.value it (ProcessQueue s);
        p ← proc a s;
        st ← map_pages (CR3 p) va pa mf count st;
        nx ← SLL.next it (ProcessQueue s);
        map_pages_from f nx va pa mf count s st
  end.

Definition map_pages_in_all_processes (va pa mf count : Z) (s : sched) (st : mem * F) : outcome (mem * F) :=
  map_pages_from (queue_fuel s) (SLL.Head (ProcessQueue s)) va pa mf count s st.

End MapAll.

(** *** Notifications *)

(** Pushes the event to every queue that listens for it. *)
Fixpoint push_to_queues (e : Event) (qs : list EventQueue) : outcome (bool * list EventQueue) :=
  match qs with
  | [] => Done (false, [])
  | q :: qs =>
      if listens (Type_ e) (Filter e) q then
        q ← push e q;
        '(_, qs) ← push_to_queues e qs;
        Done (true, q :: qs)
      else
        '(found, qs) ← push_to_queues e qs;
        Done (found, q :: qs)
  end.

(** [notify(event, process)] *)
Definition notify_process (e : Event) (a : Z) (s : sched) : outcome sched :=
  if (a =? 0) || at_or_past_count (Type_ e) then Done s
  else
    p ← proc a s;
    '(found, qs) ← push_to_queues e (EventQueues p);
    s ← modify_proc a (with_EventQueues qs) s;
    if found : bool then Done s
    else Done (with_gEvents (unregister_listener (Type_ e) (ProcessID p) (gEvents s)).2 s).

(** [notify(event, pid)] *)
Definition notify_pid (e : Event) (pid : Z) (s : sched) : outcome sched :=
  a ← process pid s; notify_process e a s.

Fixpoint notify_each (e : Event) (pids : list Z) (s : sched) : outcome sched :=
  match pids with
  | [] => Done s
  | pid :: pids => a ← process pid s; s ← notify_process e a s; notify_each e pids s
  end.

(** [notify(event)] *)
Definition notify (e : Event) (s : sched) : outcome sched :=
  match Type_ e with
  | COUNT => Done s
  | READY_TO_READ | READY_TO_WRITE => Done s
  | INVALID => notify_each e (listeners (Type_ e) (gEvents s)) s
  end.

(** ** Queues and viable processes *)

(** The queue holds the processes [ps], at the nodes [ns]; all of them exist. *)
Record queue_ok (s : sched) (ns ps : list Z) : Prop := {
  qo_rep : SLL.represents (ProcessQueue s) ns ps;
  qo_procs : forall a, a ∈ ps -> a ≠ 0 /\ is_Some (procs s !! a)
}.

Definition running (s : sched) (a : Z) : bool :=
  match procs s !! a with
  | Some p => bool_decide (State p = RUNNING)
  | None => false
  end.

(** The first running process after position [c], or else the first one of the
    whole queue. *)
Definition next_index (run : list bool) (c : nat) : option nat :=
  match list_find (fun b => b = true) (drop (S c) run) with
  | Some (i, _) => Some (S c + i)%nat
  | None => fst <$> list_find (fun b => b = true) run
  end.

Lemma node_value s ns ps i n a :
  queue_ok s ns ps -> ns !! i = Some n -> ps !! i = Some a ->
  n ≠ 0 /\ SLL.value n (ProcessQueue s) = Done a /\
  SLL.next n (ProcessQueue s) = Done (List.hd 0 (drop (S i) ns)).
Proof.
  intros Q Hn Ha. pose proof (qo_rep _ _ _ Q) as R.
  pose proof (SLL.chain_length _ _ _ _ (SLL.rep_chain _ _ _ R)) as Hl.
  apply list_elem_of_split_length in Hn as (ns1 & ns2 & -> & ->).
  apply list_elem_of_split_length in Ha as (ps1 & ps2 & -> & Hp1).
  destruct (SLL.chain_lookup _ ns1 n ns2 ps1 a ps2 0 ltac:(lia) (SLL.rep_chain _ _ _ R)) as [H0 Hm].
  split_and!; [done|unfold SLL.value, SLL.get; by rewrite Hm|].
  rewrite (SLL.next_known _ _ _ Hm). cbn. f_equal.
  by rewrite (cons_middle n ns1 ns2), app_assoc, drop_app_length' by (rewrite length_app; cbn; lia).
Qed.

Lemma find_viable_spec s ns ps i fuel :
  queue_ok s ns ps -> (i <= length ns)%nat -> (length ns - i < fuel)%nat ->
  find_viable fuel (List.hd 0 (drop i ns)) s =
  Done (match list_find (fun b => b = true) (drop i (running s <$> ps)) with
        | Some (j, _) => ns !!! (i + j)%nat
        | None => 0
        end).
Proof.
  intros Q. pose proof (SLL.chain_length _ _ _ _ (SLL.rep_chain _ _ _ (qo_rep _ _ _ Q))) as Hl.
  revert i. induction fuel as [|fuel IH]; intros i Hi Hf; [lia|].
  destruct (decide (i = length ns)) as [->|Hne].
  { rewrite !drop_ge by (rewrite ?length_fmap; lia). done. }
  destruct (lookup_lt_is_Some_2 ns i) as [n Hn]; [lia|]. destruct (lookup_lt_is_Some_2 ps i) as [a Ha]; [lia|].
  destruct (node_value s ns ps i n a Q Hn Ha) as (H0 & Hv & Hx).
  destruct (qo_procs _ _ _ Q a) as [Ha0 [p Hp]]; [by eapply list_elem_of_lookup_2|].
  rewrite (drop_S ns n i Hn). cbn [find_viable List.hd].
  rewrite (drop_S (running s <$> ps) (running s a) i) by (by rewrite list_lookup_fmap, Ha).
  rewrite (proj2 (Z.eqb_neq n 0) H0), Hv. cbn [mbind outcome_bind].
  rewrite (proj2 (Z.eqb_neq a 0) Ha0). unfold proc. rewrite Hp. cbn [deref mbind outcome_bind list_find].
  assert (Hr : running s a = bool_decide (State p = RUNNING)) by (unfold running; by rewrite Hp).
  rewrite Hr. case_decide as D.
  - rewrite bool_decide_true by done. destruct (decide (true = true)); [|done].
    rewrite Nat.add_0_r. by rewrite (list_lookup_total_correct _ _ _ Hn).
  - rewrite bool_decide_false by done. rewrite Hx. cbn [mbind outcome_bind]. rewrite (IH (S i)) by lia.
    destruct (decide (false = true)); [done|].
    destruct (list_find _ (drop (S i) (running s <$> ps))) as [[j b]|]; cbn; [|done].
    by replace (i + S j)%nat with (S (i + j)) by lia.
Qed.

Lemma queue_fuel_enough s ns ps : queue_ok s ns ps -> (length ns < queue_fuel s)%nat.
Proof.
  intros Q. unfold queue_fuel.
  pose proof (SLL.chain_size _ _ _ _ (SLL.rep_nodup _ _ _ (qo_rep _ _ _ Q)) (SLL.rep_chain _ _ _ (qo_rep _ _ _ Q))). lia.
Qed.

Lemma list_find_lt (P : bool -> Prop) `{!forall b, Decision (P b)} (l : list bool) i b :
  list_find P l = Some (i, b) -> (i < length l)%nat.
Proof. intros E. apply list_find_Some in E as (E & _). by eapply lookup_lt_Some. Qed.

Lemma node_nonnull s ns ps i : queue_ok s ns ps -> (i < length ns)%nat -> ns !!! i ≠ 0.
Proof.
  intros Q Hi. destruct (lookup_lt_is_Some_2 ns i Hi) as [n Hn]. rewrite (list_lookup_total_correct _ _ _ Hn).
  by eapply (SLL.represents_nonnull _ _ _ n (qo_rep _ _ _ Q)), list_elem_of_lookup_2.
Qed.

(** The node the switch picks. *)
Lemma next_viable_spec s ns ps c n :
  queue_ok s ns ps -> ns !! c = Some n -> (S c < length ns)%nat ->
  next_viable_process n Include_No s =
  match next_index (running s <$> ps) c with
  | Some d => Done (ns !!! d)
  | None => Stop Hung
  end.
Proof.
  intros Q Hn Hc. pose proof (SLL.chain_length _ _ _ _ (SLL.rep_chain _ _ _ (qo_rep _ _ _ Q))) as Hl.
  pose proof (queue_fuel_enough _ _ _ Q) as Hf.
  destruct (lookup_lt_is_Some_2 ps c) as [a Ha]; [lia|].
  destruct (node_value s ns ps c n a Q Hn Ha) as (H0 & _ & Hx).
  unfold next_viable_process, find_next_viable_process_after, next_index.
  rewrite (proj2 (Z.eqb_neq n 0) H0), Hx. cbn [mbind outcome_bind].
  rewrite (find_viable_spec s ns ps (S c)) by (done || lia). cbn [mbind outcome_bind].
  destruct (list_find _ (drop (S c) _)) as [[i b]|] eqn:E1.
  - pose proof (list_find_lt _ _ _ _ E1) as Hi. rewrite length_drop, length_fmap in Hi.
    rewrite (proj2 (Z.eqb_neq _ 0)); [done|]. apply (node_nonnull s ns ps); (done || lia).
  - cbn [Z.eqb]. rewrite (SLL.rep_head _ _ _ (qo_rep _ _ _ Q)).
    change (List.hd 0 ns) with (List.hd 0 (drop 0 ns)).
    rewrite (find_viable_spec s ns ps 0) by (done || lia). rewrite drop_0. cbn [mbind outcome_bind].
    destruct (list_find _ (running s <$> ps)) as [[i b]|] eqn:E2; cbn; [|done].
    pose proof (list_find_lt _ _ _ _ E2) as Hi. rewrite length_fmap in Hi.
    rewrite (proj2 (Z.eqb_neq _ 0)); [done|]. apply (node_nonnull s ns ps); (done || lia).
Qed.

(** ... and when the current process is the last of the queue. *)
Lemma next_viable_head_spec s ns ps c :
  queue_ok s ns ps -> S c = length ns ->
  next_viable_process (SLL.Head (ProcessQueue s)) Include_Yes s =
  match next_index (running s <$> ps) c with
  | Some d => Done (ns !!! d)
  | None => Stop Hung
  end.
Proof.
  intros Q Hc. pose proof (SLL.chain_length _ _ _ _ (SLL.rep_chain _ _ _ (qo_rep _ _ _ Q))) as Hl.
  pose proof (queue_fuel_enough _ _ _ Q) as Hf.
  unfold next_viable_process, find_next_viable_process_after, next_index.
  rewrite (drop_ge (running s <$> ps)) by (rewrite length_fmap; lia). cbn [list_find mbind outcome_bind].
  rewrite (SLL.rep_head _ _ _ (qo_rep _ _ _ Q)). change (List.hd 0 ns) with (List.hd 0 (drop 0 ns)).
  rewrite (find_viable_spec s ns ps 0) by (done || lia). rewrite drop_0. cbn [mbind outcome_bind].
  destruct (list_find _ (running s <$> ps)) as [[i b]|] eqn:E2; cbn [fmap option_fmap option_map fst].
  - pose proof (list_find_lt _ _ _ _ E2) as Hi. rewrite length_fmap in Hi.
    rewrite (proj2 (Z.eqb_neq _ 0)); [done|]. apply (node_nonnull s ns ps); (done || lia).
  - cbn. done.
Qed.

(** ** The switch *)

Section SwitchSpec.
Context (fxsr_enabled : bool) (fx : fx_unit).

(** The process record after its context has been saved. *)
Definition saved (hw : machine) (p : Process) : Process :=
  let p := with_CPU (regs hw) p in
  if fxsr_enabled then with_CPUExtra (fpu hw) true p else p.

Definition save_context (hw : machine) (a : Z) (p : Process) (s : sched) : sched :=
  with_procs (<[a := saved hw p]> (procs s)) s.

(** The floating point state after the switch to a process, and whether the
    processor takes it. *)
Definition restored (a : Z) (p : Process) (f : list Z) : list Z :=
  if fxsr_enabled && CPUExtraSet p then fx_bytes fx a (CPUExtra p) else f.
Definition accepted (a : Z) (p : Process) : bool :=
  negb (fxsr_enabled && CPUExtraSet p) || fx_valid fx (fx_bytes fx a (CPUExtra p)).

(** An area that begins at a 512-byte boundary is restored as it was saved. *)
Lemma fx_bytes_aligned a extra : (a + extra_offset fx) mod 512 = 0 -> fx_bytes fx a extra = extra.
Proof. intros H. unfold fx_bytes, fx_index. rewrite H. cbn. apply app_nil_r. Qed.

(** The machine that runs process [q] at [b] next. *)
Definition runs (hw : machine) (b : Z) (q : Process) : machine :=
  mkMachine (with_FS_GS (ss (Frame (CPU q))) (ss (Frame (CPU q))) (CPU q)) (restored b q (fpu hw)) (mkVmm (CR3 q) (CR3 q)).

Lemma load_process_spec hw s ns ps d b q :
  queue_ok s ns ps -> ns !! d = Some (CurrentProcess s) -> ps !! d = Some b -> procs s !! b = Some q ->
  load_process fxsr_enabled fx hw s = if accepted b q then Done (runs hw b q, s) else Stop Hung.
Proof.
  intros Q Hn Hb Hq. destruct (node_value s ns ps d _ b Q Hn Hb) as (_ & Hv & _).
  unfold load_process, proc. rewrite Hv. cbn [mbind outcome_bind]. rewrite Hq. cbn [deref mbind outcome_bind].
  unfold restore_fpu, accepted, runs, restored. destruct (fxsr_enabled && CPUExtraSet q); cbn [negb orb]; [|done].
  by destruct (fx_valid _ _).
Qed.

Lemma queue_ok_with_procs s ns ps m :
  queue_ok s ns ps -> (forall a, is_Some (procs s !! a) -> is_Some (m !! a)) -> queue_ok (with_procs m s) ns ps.
Proof. intros Q Hm. split; [apply Q|]. intros a Ha. destruct (qo_procs _ _ _ Q a Ha). auto. Qed.

Lemma running_save hw a p s b : procs s !! a = Some p -> running (save_context hw a p s) b = running s b.
Proof.
  intros Hp. unfold running, save_context. cbn [procs with_procs]. destruct (decide (b = a)) as [->|Hne].
  - rewrite lookup_insert_eq, Hp. unfold saved. by destruct fxsr_enabled.
  - by rewrite lookup_insert_ne.
Qed.

Lemma save_context_ok hw a p s ns ps : queue_ok s ns ps -> procs s !! a = Some p -> queue_ok (save_context hw a p s) ns ps.
Proof.
  intros Q Hp. apply queue_ok_with_procs; [done|]. intros b Hb.
  destruct (decide (b = a)) as [->|Hne]; [by rewrite lookup_insert_eq|by rewrite lookup_insert_ne].
Qed.

Lemma switch_impl_spec hw s ns ps c :
  queue_ok s ns ps -> ns !! c = Some (CurrentProcess s) -> (2 <= length ps)%nat ->
  match next_index (running s <$> ps) c with
  | None => switch_process_impl fxsr_enabled fx hw s = Stop Hung
  | Some d => switch_process_impl fxsr_enabled fx hw s =
      load_process fxsr_enabled fx hw (with_CurrentProcess (ns !!! d) s)
  end.
Proof.
  intros Q Hn H2. pose proof (SLL.chain_length _ _ _ _ (SLL.rep_chain _ _ _ (qo_rep _ _ _ Q))) as Hl.
  pose proof (lookup_lt_Some _ _ _ Hn) as Hc.
  destruct (lookup_lt_is_Some_2 ps c) as [a Ha]; [lia|].
  destruct (node_value s ns ps c _ a Q Hn Ha) as (H0 & _ & Hx).
  unfold switch_process_impl. rewrite Hx. cbn [mbind outcome_bind].
  destruct (decide (S c = length ns)) as [Hlast|Hlast].
  - rewrite drop_ge by lia. cbn [List.hd Z.eqb].
    assert (Hnh : CurrentProcess s ≠ SLL.Head (ProcessQueue s)).
    { rewrite (SLL.rep_head _ _ _ (qo_rep _ _ _ Q)). destruct ns as [|n0 ns]; [done|]. cbn [List.hd]. intros E.
      pose proof (SLL.rep_nodup _ _ _ (qo_rep _ _ _ Q)) as Hnd.
      assert (c = 0%nat) by (eapply (NoDup_lookup _ c 0); [exact Hnd|exact Hn|by rewrite E]). cbn in Hlast, Hl. lia. }
    rewrite (proj2 (Z.eqb_neq _ _) Hnh), (next_viable_head_spec s ns ps c) by done.
    by destruct (next_index (running s <$> ps) c).
  - destruct (lookup_lt_is_Some_2 ns (S c)) as [n' Hn']; [lia|]. rewrite (drop_S ns n' (S c) Hn'). cbn [List.hd].
    rewrite (proj2 (Z.eqb_neq n' 0)) by (by eapply (SLL.represents_nonnull _ _ _ n' (qo_rep _ _ _ Q)), list_elem_of_lookup_2).
    rewrite (next_viable_spec s ns ps c) by (done || lia). by destruct (next_index (running s <$> ps) c).
Qed.


Lemma switch_spec hw s ns ps c a p :
  queue_ok s ns ps -> ns !! c = Some (CurrentProcess s) -> ps !! c = Some a -> procs s !! a = Some p ->
  (2 <= length ps)%nat ->
  match next_index (running s <$> ps) c with
  | None => switch_process fxsr_enabled fx hw s = Stop Hung
  | Some d => forall b q, ps !! d = Some b -> procs (save_context hw a p s) !! b = Some q ->
      switch_process fxsr_enabled fx hw s =
        if accepted b q then Done (runs hw b q, with_CurrentProcess (ns !!! d) (save_context hw a p s)) else Stop Hung
  end.
Proof.
  intros Q Hn Ha Hp H2. destruct (node_value s ns ps c _ a Q Hn Ha) as (_ & Hv & _).
  assert (E : switch_process fxsr_enabled fx hw s =
              switch_process_impl fxsr_enabled fx hw (save_context hw a p s)).
  { unfold switch_process, modify_proc, proc. rewrite Hv. cbn [mbind outcome_bind]. rewrite Hp. cbn [deref mbind outcome_bind].
    unfold save_context, saved. destruct fxsr_enabled; [|done]. cbn [procs with_procs]. rewrite lookup_insert_eq.
    cbn [deref mbind outcome_bind]. unfold with_procs. cbn. by rewrite insert_insert_eq. }
  pose proof (save_context_ok hw a p s ns ps Q Hp) as Q1.
  assert (Er : running (save_context hw a p s) <$> ps = running s <$> ps)
    by (apply list_fmap_ext; intros; by apply running_save).
  pose proof (switch_impl_spec hw (save_context hw a p s) ns ps c Q1 Hn H2) as H. rewrite Er in H.
  destruct (next_index (running s <$> ps) c) as [d|] eqn:En; [|by rewrite E].
  intros b q Hb Hq. rewrite E, H.
  pose proof (SLL.chain_length _ _ _ _ (SLL.rep_chain _ _ _ (qo_rep _ _ _ Q))) as Hl.
  destruct (lookup_lt_is_Some_2 ns d) as [n' Hn']; [rewrite Hl; by eapply lookup_lt_Some|].
  rewrite (list_lookup_total_correct _ _ _ Hn').
  apply (load_process_spec hw (with_CurrentProcess n' (save_context hw a p s)) ns ps d b q); try done.
  split; [apply Q1|apply Q1].
Qed.

(** ** Fairness *)








(** ** Claims *)

(** C10: with at least two processes in the queue, a timer tick saves the
    registers and, if FXSR is enabled, the floating point state of the current
    process and continues with the first running process after it in the queue,
    starting over at the front; its saved registers (with FS and GS set to the
    stack segment) and its page map are loaded. If it has a saved floating point
    state, the processor is given the 512 bytes from the first 512-byte boundary
    in or behind its area on, which are what was saved if the area begins at one;
    if the processor refuses them, the fault never returns. With no running
    process the tick never returns either. *)
Theorem switch_is_round_robin hw s ns ps c a p :
  queue_ok s ns ps -> ns !! c = Some (CurrentProcess s) -> ps !! c = Some a -> procs s !! a = Some p ->
  (2 <= length ps)%nat ->
  match next_index (running s <$> ps) c with
  | None => switch_process fxsr_enabled fx hw s = Stop Hung
  | Some d => forall b q, ps !! d = Some b -> procs (save_context hw a p s) !! b = Some q ->
      switch_process fxsr_enabled fx hw s =
        (if accepted b q then Done (runs hw b q, with_CurrentProcess (ns !!! d) (save_context hw a p s)) else Stop Hung) /\
      ((b + extra_offset fx) mod 512 = 0 -> fxsr_enabled = true -> CPUExtraSet q = true -> fpu (runs hw b q) = CPUExtra q)
  end.
Proof.
  intros Q Hn Ha Hp H2. pose proof (switch_spec hw s ns ps c a p Q Hn Ha Hp H2) as H.
  destruct (next_index (running s <$> ps) c) as [d|]; [|exact H]. intros b q Hb Hq. split; [by apply H|].
  intros Hal Hf He. cbn [fpu runs]. unfold restored. rewrite Hf, He. cbn [andb]. by apply fx_bytes_aligned.
Qed.


(** A queue of one process is never examined: the switch returns to it even
    when it is sleeping and there is nothing viable to run. *)
Theorem lone_process_runs_even_asleep hw s n a :
  queue_ok s [n] [a] -> CurrentProcess s = n -> switch_process_impl fxsr_enabled fx hw s = Done (hw, s).
Proof.
  intros Q Hn. destruct (node_value s [n] [a] 0 n a Q eq_refl eq_refl) as (_ & _ & Hx).
  unfold switch_process_impl. rewrite Hn, Hx. cbn [drop List.hd mbind outcome_bind Z.eqb].
  rewrite (SLL.rep_head _ _ _ (qo_rep _ _ _ Q)). cbn [List.hd]. by rewrite Z.eqb_refl.
Qed.

End SwitchSpec.

(** The floating point state is saved at the start of [CPUExtra] and restored
    from the next 512-byte boundary. For a process whose area is only 16-byte
    aligned that is past the first saved bytes, and the rest of what is restored
    lies behind the array. *)
Theorem misaligned_fpu_area_is_not_restored fx hw s ns ps d b q :
  queue_ok s ns ps -> ns !! d = Some (CurrentProcess s) -> ps !! d = Some b -> procs s !! b = Some q ->
  CPUExtraSet q = true -> (b + extra_offset fx) mod 512 ≠ 0 -> fx_valid fx (fx_bytes fx b (CPUExtra q)) = true ->
  exists hw' i, load_process true fx hw s = Done (hw', s) /\ (0 < i < 512)%nat /\ fpu hw' = drop i (CPUExtra q) ++ take i (behind fx b).
Proof.
  intros Q Hn Hb Hq Hset Hmis Hv. rewrite (load_process_spec true fx hw s ns ps d b q Q Hn Hb Hq). unfold accepted.
  rewrite Hset, Hv. cbn [andb negb orb]. exists (runs true fx hw b q), (fx_index fx b). split_and!; [done|..].
  - unfold fx_index. pose proof (Z.mod_pos_bound (b + extra_offset fx) 512 ltac:(lia)). rewrite Z.mod_small; lia.
  - unfold fx_index. pose proof (Z.mod_pos_bound (b + extra_offset fx) 512 ltac:(lia)). rewrite Z.mod_small; lia.
  - cbn [fpu runs]. unfold restored. by rewrite Hset.
Qed.

(** ** Process identifiers *)

Definition has_pid (s : sched) (pid a : Z) : bool :=
  match procs s !! a with
  | Some p => ProcessID p =? pid
  | None => false
  end.

Lemma process_from_spec s ns ps pid i fuel :
  queue_ok s ns ps -> (i <= length ns)%nat -> (length ns - i < fuel)%nat ->
  process_from fuel (List.hd 0 (drop i ns)) pid s =
  Done (match list_find (fun a => has_pid s pid a = true) (drop i ps) with
        | Some (_, a) => a
        | None => 0
        end).
Proof.
  intros Q. pose proof (SLL.chain_length _ _ _ _ (SLL.rep_chain _ _ _ (qo_rep _ _ _ Q))) as Hl.
  revert i. induction fuel as [|fuel IH]; intros i Hi Hf; [lia|].
  destruct (decide (i = length ns)) as [->|Hne]; [by rewrite !drop_ge by lia|].
  destruct (lookup_lt_is_Some_2 ns i) as [n Hn]; [lia|]. destruct (lookup_lt_is_Some_2 ps i) as [a Ha]; [lia|].
  destruct (node_value s ns ps i n a Q Hn Ha) as (H0 & Hv & Hx).
  destruct (qo_procs _ _ _ Q a) as [Ha0 [p Hp]]; [by eapply list_elem_of_lookup_2|].
  rewrite (drop_S ns n i Hn), (drop_S ps a i Ha). cbn [process_from List.hd list_find].
  rewrite (proj2 (Z.eqb_neq n 0) H0), Hv. cbn [mbind outcome_bind]. unfold proc. rewrite Hp. cbn [deref mbind outcome_bind].
  assert (Hh : has_pid s pid a = (ProcessID p =? pid)) by (unfold has_pid; by rewrite Hp). rewrite Hh.
  destruct (ProcessID p =? pid).
  - by destruct (decide (true = true)).
  - destruct (decide (false = true)); [done|]. rewrite Hx. cbn [mbind outcome_bind]. rewrite (IH (S i)) by lia.
    by destruct (list_find _ (drop (S i) ps)) as [[j b]|].
Qed.

Lemma process_spec s ns ps pid :
  queue_ok s ns ps ->
  process pid s = Done (match list_find (fun a => has_pid s pid a = true) ps with Some (_, a) => a | None => 0 end).
Proof.
  intros Q. unfold process. rewrite (SLL.rep_head _ _ _ (qo_rep _ _ _ Q)).
  change (List.hd 0 ns) with (List.hd 0 (drop 0 ns)). rewrite (process_from_spec s ns ps) by
    (done || lia || (pose proof (queue_fuel_enough _ _ _ Q); lia)). by rewrite drop_0.
Qed.

(** Identifiers in use are at most the last one handed out, and distinct. *)
Record pids_ok (s : sched) (ps : list Z) : Prop := {
  po_bound : forall a p, a ∈ ps -> procs s !! a = Some p -> ProcessID p <= the_pid s;
  po_inj : forall a b p q, a ∈ ps -> b ∈ ps -> procs s !! a = Some p -> procs s !! b = Some q ->
    ProcessID p = ProcessID q -> a = b
}.

Lemma add_process_spec s ns ps a p :
  queue_ok s ns ps -> pids_ok s ps -> procs s !! a = Some p -> a ≠ 0 -> a ∉ ps ->
  0 <= the_pid s < 2 ^ 64 - 1 -> SLL.Length (ProcessQueue s) < 2 ^ 64 - 2 ->
  exists s' n, add_process a s = Done (the_pid s + 1, s') /\
    queue_ok s' (ns ++ [n]) (ps ++ [a]) /\ pids_ok s' (ps ++ [a]) /\
    procs s' = <[a := with_ProcessID (the_pid s + 1) p]> (procs s) /\
    (forall b q, b ∈ ps -> procs s !! b = Some q -> ProcessID q ≠ the_pid s + 1) /\
    process (the_pid s + 1) s' = Done a.
Proof.
  intros Q [Hb Hi] Hp Ha0 Hna Hpid Hlen. unfold add_process, request_pid.
  destruct (SLL.add_end_spec (ProcessQueue s) ns ps a (qo_rep _ _ _ Q) Hlen) as (q' & Eq & Rq & _).
  unfold modify_proc, proc. cbn [procs with_the_pid the_pid]. rewrite wrap64_small by (unfold is_u64; lia).
  rewrite Hp. cbn [deref mbind outcome_bind ProcessQueue with_procs with_the_pid]. rewrite Eq. cbn [mbind outcome_bind].
  set (p' := with_ProcessID (the_pid s + 1) p).
  assert (Hnew : forall b q, b ∈ ps -> procs s !! b = Some q -> ProcessID q ≠ the_pid s + 1)
    by (intros b q Hin Hq E; pose proof (Hb b q Hin Hq); lia).
  set (s' := with_ProcessQueue _ _).
  assert (Hps : procs s' = <[a := p']> (procs s)) by done.
  assert (Hold : forall b q, b ∈ ps -> procs s' !! b = Some q -> procs s !! b = Some q)
    by (intros b q Hin; rewrite Hps, lookup_insert_ne by (intros <-; done); done).
  assert (Q' : queue_ok s' (ns ++ [SLL.brk (ProcessQueue s)]) (ps ++ [a])).
  { split; [exact Rq|]. intros b [Hin| ->%list_elem_of_singleton]%elem_of_app.
    - destruct (qo_procs _ _ _ Q b Hin). split; [done|]. rewrite Hps, lookup_insert_ne by (intros <-; done). done.
    - split; [done|]. rewrite Hps, lookup_insert_eq. done. }
  exists s', (SLL.brk (ProcessQueue s)). split_and!; [done|done| |done|done|].
  - split.
    + intros b q [Hin| ->%list_elem_of_singleton]%elem_of_app Hq; cbn [the_pid s' with_ProcessQueue with_procs with_the_pid].
      * pose proof (Hb b q Hin (Hold b q Hin Hq)). lia.
      * rewrite Hps, lookup_insert_eq in Hq. injection Hq as <-. cbn. lia.
    + intros b c q r [Hinb| ->%list_elem_of_singleton]%elem_of_app [Hinc| ->%list_elem_of_singleton]%elem_of_app Hq Hr E.
      * by eapply (Hi b c q r); auto.
      * rewrite Hps, lookup_insert_eq in Hr. injection Hr as <-. by destruct (Hnew b q Hinb (Hold b q Hinb Hq)).
      * rewrite Hps, lookup_insert_eq in Hq. injection Hq as <-. by destruct (Hnew c r Hinc (Hold c r Hinc Hr)).
      * done.
  - rewrite (process_spec s' _ _ _ Q').
    assert (Hf : list_find (fun b => has_pid s' (the_pid s + 1) b = true) (ps ++ [a]) = Some (length ps, a)); [|by rewrite Hf].
    apply list_find_Some. split_and!.
    + by rewrite lookup_app_r, Nat.sub_diag by lia.
    + unfold has_pid. rewrite Hps, lookup_insert_eq. cbn. lia.
    + intros j b Hj Hjl. rewrite lookup_app_l in Hj by lia. pose proof (list_elem_of_lookup_2 _ _ _ Hj) as Hin.
      unfold has_pid. destruct (procs s' !! b) as [q|] eqn:Hq; [|done].
      pose proof (Hnew b q Hin (Hold b q Hin Hq)). by destruct (Z.eqb_spec (ProcessID q) (the_pid s + 1)).
Qed.

(** [add_process] puts the process at the end of the queue under an
    identifier no queued process has; identifiers stay distinct, and
    [process(pid)] finds the new process under it. *)
Theorem add_process_gives_fresh_pid s ns ps a p :
  queue_ok s ns ps -> pids_ok s ps -> procs s !! a = Some p -> a ≠ 0 -> a ∉ ps ->
  0 <= the_pid s < 2 ^ 64 - 1 -> SLL.Length (ProcessQueue s) < 2 ^ 64 - 2 ->
  exists s' n, add_process a s = Done (the_pid s + 1, s') /\
    queue_ok s' (ns ++ [n]) (ps ++ [a]) /\ pids_ok s' (ps ++ [a]) /\
    procs s' = <[a := with_ProcessID (the_pid s + 1) p]> (procs s) /\
    (forall b q, b ∈ ps -> procs s !! b = Some q -> ProcessID q ≠ the_pid s + 1) /\
    process (the_pid s + 1) s' = Done a.
Proof. apply add_process_spec. Qed.

(** ** A concrete queue for the witnesses

    Processes 0, 1 and 2 at addresses 512, 1024 and 1536, the second one
    sleeping; process 0 is current. *)

Definition trio : sched :=
  mkSched {[ 512 := new_process; 1024 := with_ProcessID 1 (with_State SLEEPING new_process);
             1536 := with_ProcessID 2 new_process; 2048 := new_process ]}
    (SLL.mkList {[ 1 := SLL.mkNode 512 2; 2 := SLL.mkNode 1024 3; 3 := SLL.mkNode 1536 0 ]} 4 3 1 3)
    1 2 [] 0 (mkManager ∅).

Definition idle : machine := mkMachine zero_cpu [] (mkVmm 0 0).

Lemma trio_ok : queue_ok trio [1; 2; 3] [512; 1024; 1536].
Proof.
  split.
  - split; try done; [apply (bool_decide_unpack _); vm_compute; done|].
    intros a Ha. cbn in *. rewrite !lookup_insert_ne by lia. apply lookup_singleton_ne. lia.
  - intros a Ha. rewrite !elem_of_cons in Ha. destruct Ha as [->|[->|[->|Ha]]]; [by split; [|eexists]..|].
    by apply not_elem_of_nil in Ha.
Qed.

(** Areas at the start of the processes, nothing behind them, and a processor that
    takes what has the length of a floating point state. *)
Definition plain_fx : fx_unit := mkFx 0 (fun _ => []) (fun _ => true).

Lemma switch_is_round_robin_witness :
  let s' := save_context true idle 512 new_process trio in
  exists q, procs s' !! 1536 = Some q /\
    (switch_process true plain_fx idle trio = Done (runs true plain_fx idle 1536 q, with_CurrentProcess 3 s')).
Proof.
  intros s'. exists (with_ProcessID 2 new_process). split; [reflexivity|].
  apply (switch_is_round_robin true plain_fx idle trio [1; 2; 3] [512; 1024; 1536] 0 512 new_process trio_ok eq_refl eq_refl
           eq_refl ltac:(cbn; lia) 1536 (with_ProcessID 2 new_process) eq_refl). reflexivity.
Defined.


(** One sleeping process. *)
Definition sleeper : sched :=
  mkSched {[ 512 := with_State SLEEPING new_process ]} (SLL.mkList {[ 1 := SLL.mkNode 512 0 ]} 2 1 1 1)
    1 0 [] 0 (mkManager ∅).

Lemma sleeper_ok : queue_ok sleeper [1] [512].
Proof.
  split.
  - split; try done; [apply NoDup_singleton|]. intros a Ha. cbn in *. apply lookup_singleton_ne. lia.
  - intros a ->%list_elem_of_singleton. by split; [|eexists].
Qed.

Lemma lone_process_runs_even_asleep_witness :
  running sleeper 512 = false /\ switch_process_impl true plain_fx idle sleeper = Done (idle, sleeper).
Proof. split; [reflexivity|]. apply (lone_process_runs_even_asleep true plain_fx idle sleeper 1 512 sleeper_ok eq_refl). Defined.

(** The first process of [trio] with a saved floating point area, whose address
    is 16 bytes past a 512-byte boundary. *)
Definition trio_saved : sched := with_procs (<[512 := with_CPUExtra (replicate 512 7) true new_process]> (procs trio)) trio.

Definition odd_fx : fx_unit := mkFx 16 (fun _ => replicate 496 0) (fun _ => true).

Lemma misaligned_fpu_area_is_not_restored_witness :
  exists hw' i, load_process true odd_fx idle trio_saved = Done (hw', trio_saved) /\ (0 < i < 512)%nat /\
    fpu hw' = drop i (replicate 512 7) ++ take i (replicate 496 0).
Proof.
  apply (misaligned_fpu_area_is_not_restored odd_fx idle trio_saved [1; 2; 3] [512; 1024; 1536] 0 512
           (with_CPUExtra (replicate 512 7) true new_process)); [|reflexivity|reflexivity|reflexivity|reflexivity|done|reflexivity].
  apply queue_ok_with_procs; [apply trio_ok|]. intros a Ha.
  destruct (decide (a = 512)) as [->|]; [by rewrite lookup_insert_eq|by rewrite lookup_insert_ne].
Defined.

Lemma add_process_gives_fresh_pid_witness :
  exists s' n, add_process 2048 trio = Done (3, s') /\
    queue_ok s' ([1; 2; 3] ++ [n]) ([512; 1024; 1536] ++ [2048]) /\ pids_ok s' ([512; 1024; 1536] ++ [2048]) /\
    procs s' = <[2048 := with_ProcessID 3 new_process]> (procs trio) /\
    (forall b q, b ∈ [512; 1024; 1536] -> procs trio !! b = Some q -> ProcessID q ≠ 3) /\
    process 3 s' = Done 2048.
Proof.
  apply (add_process_gives_fresh_pid trio [1; 2; 3] [512; 1024; 1536] 2048 new_process);
    [apply trio_ok| |reflexivity|done|apply (bool_decide_unpack _); vm_compute; done|cbn; lia|cbn; lia].
  split.
  - intros a p Ha Hp. rewrite !elem_of_cons in Ha. destruct Ha as [->|[->|[->|Ha]]];
      [vm_compute in Hp; injection Hp as <-; cbn; lia..|]. by apply not_elem_of_nil in Ha.
  - intros a b p q Ha Hb Hp Hq E. rewrite !elem_of_cons in Ha, Hb.
    destruct Ha as [->|[->|[->|Ha]]], Hb as [->|[->|[->|Hb]]]; try done; try (by apply not_elem_of_nil in Ha);
      try (by apply not_elem_of_nil in Hb); vm_compute in Hp; vm_compute in Hq; injection Hp as <-; injection Hq as <-; done.
Defined.
