(* ===== verification/KernelPages.v ===== *)
(** * Pages for the heap

    The kernel's implementation of what the heap asks for: the loop bodies of
    [init_heap] and [expand_heap] (src/kernel/src/memory/heap.cpp), composed of
    the frame allocator, the page mapper and the scheduler's
    [map_pages_in_all_processes].  The instance at the end discharges the
    interface the heap is verified against. *)

From S2P Require Import Prelude PhysMem Bitmap FrameAlloc Paging PageMap Heap LinkedList SparseVector RingBuffer Event Process Scheduler.
Import MemRoutines.

(** The parts of the kernel's state these loops touch. *)
Record kpages := mkPages { kp_sched : sched; kp_vmm : vmm; kp_mem : mem; kp_frames : pmm }.

(** [Present | ReadWrite] *)
Definition heap_page_flags : Z := Z.lor (flag_value Present) (flag_value ReadWrite).

(** [Memory::map(HEAP_VIRTUAL_BASE + i, request_page(), ...)] *)
Definition map_first (va : Z) (k : kpages) : outcome kpages :=
  '(addr, fr) ← request_page (kp_frames k);
  '(m, fr) ← map_active va addr heap_page_flags (kp_vmm k) (kp_mem k, fr);
  Done (mkPages (kp_sched k) (kp_vmm k) m fr).

(** The body of the loop in [expand_heap]. *)
Definition map_heap_page (va : Z) (k : kpages) : outcome kpages :=
  '(addr, fr) ← request_page (kp_frames k);
  let m := memset addr 0 PAGE_SIZE (kp_mem k) in
  st ← map_pages_in_all_processes va addr heap_page_flags 1 (kp_sched k) (m, fr);
  let '(active, v) := active_page_map (kp_vmm k) in
  '(m, fr) ← map active va addr heap_page_flags st;
  Done (mkPages (kp_sched k) v m fr).

(** Frames one heap page may cost: the page itself and up to three tables in the
    page map of every process and in the active one. *)
Definition frames_per_page (k : kpages) : Z := 4 + 3 * SLL.Length (ProcessQueue (kp_sched k)).

Definition pages_left_for_heap (k : kpages) : Z := fa_avail (kp_frames k) / frames_per_page k.

Definition heap_pages_ready (k : kpages) : Prop :=
  fa_inv (kp_frames k) /\ exists ns ps, queue_ok (kp_sched k) ns ps.

Lemma map_one_page root va pa mf m fr :
  fa_inv fr ->
  exists m' fr', map_pages root va pa mf 1 (m, fr) = Done (m', fr') /\ fa_inv fr' /\
    fa_avail fr - 3 <= fa_avail fr'.
Proof.
  intros Hi. unfold map_pages. change (Z.to_nat 1) with 1%nat. cbn [map_pages_loop].
  destruct (va <? _); [|by exists m, fr; split_and!; [| |lia]].
  destruct (map_progress root va pa mf m fr Hi) as (m' & fr' & -> & Hi' & Ha' & _).
  by exists m', fr'.
Qed.

Lemma map_in_all_ok s ns ps i fuel va pa mf m fr :
  queue_ok s ns ps -> (i <= length ns)%nat -> (length ns - i < fuel)%nat ->
  fa_inv fr -> 3 * Z.of_nat (length ns - i) <= fa_avail fr ->
  exists m' fr', map_pages_from fuel (List.hd 0 (drop i ns)) va pa mf 1 s (m, fr) = Done (m', fr') /\ fa_inv fr' /\
    fa_avail fr - 3 * Z.of_nat (length ns - i) <= fa_avail fr'.
Proof.
  intros Q. pose proof (SLL.chain_length _ _ _ _ (SLL.rep_chain _ _ _ (qo_rep _ _ _ Q))) as Hl.
  revert i m fr. induction fuel as [|fuel IH]; intros i m fr Hi Hf Hinv Hav; [lia|].
  destruct (decide (i = length ns)) as [->|Hne].
  { rewrite drop_ge by lia. cbn. exists m, fr. split_and!; [done..|lia]. }
  destruct (lookup_lt_is_Some_2 ns i) as [n Hn]; [lia|]. destruct (lookup_lt_is_Some_2 ps i) as [a Ha]; [lia|].
  destruct (node_value s ns ps i n a Q Hn Ha) as (H0 & Hv & Hx).
  destruct (qo_procs _ _ _ Q a) as [_ [p Hp]]; [by eapply list_elem_of_lookup_2|].
  rewrite (drop_S ns n i Hn). cbn [map_pages_from List.hd].
  rewrite (proj2 (Z.eqb_neq n 0) H0), Hv. cbn [mbind outcome_bind]. unfold proc. rewrite Hp. cbn [deref mbind outcome_bind].
  destruct (map_one_page (CR3 p) va pa mf m fr Hinv) as (m1 & fr1 & -> & Hi1 & Ha1). cbn [mbind outcome_bind].
  rewrite Hx. cbn [mbind outcome_bind].
  destruct (IH (S i) m1 fr1 ltac:(lia) ltac:(lia) Hi1 ltac:(lia)) as (m2 & fr2 & -> & Hi2 & Ha2).
  exists m2, fr2. split_and!; [done..|lia].
Qed.

Lemma map_heap_page_ok va k :
  heap_pages_ready k -> KHeap.HEAP_VIRTUAL_BASE <= va < 2 ^ 64 -> va mod PAGE_SIZE = 0 -> 1 <= pages_left_for_heap k ->
  exists k', map_heap_page va k = Done k' /\ heap_pages_ready k' /\ pages_left_for_heap k - 1 <= pages_left_for_heap k'.
Proof.
  intros (Hinv & ns & ps & Q) _ _ Hl. unfold pages_left_for_heap, frames_per_page in *.
  pose proof (SLL.chain_length _ _ _ _ (SLL.rep_chain _ _ _ (qo_rep _ _ _ Q))) as Hlen.
  pose proof (SLL.rep_length _ _ _ (qo_rep _ _ _ Q)) as HL. rewrite HL in *.
  set (n := Z.of_nat (length ps)) in *. assert (Hav : 4 + 3 * n <= fa_avail (kp_frames k)) by (destruct (Z.le_gt_cases (4 + 3 * n) (fa_avail (kp_frames k))); [done|]; assert (fa_avail (kp_frames k) / (4 + 3 * n) < 1) by (apply Z.div_lt_upper_bound; lia); lia).
  unfold map_heap_page.
  change (request_page (kp_frames k)) with (fa_request (kp_frames k)).
  destruct (fa_request_some (kp_frames k) Hinv ltac:(lia)) as (addr & fr & -> & Hi1 & _ & _ & _ & _ & Hra). cbn [mbind outcome_bind].
  pose proof (queue_fuel_enough _ _ _ Q).
  destruct (map_in_all_ok (kp_sched k) ns ps 0 (queue_fuel (kp_sched k)) va addr heap_page_flags
              (memset addr 0 PAGE_SIZE (kp_mem k)) fr Q) as (m2 & fr2 & E2 & Hi2 & Ha2); [lia|lia|done|lia|].
  unfold map_pages_in_all_processes. rewrite (SLL.rep_head _ _ _ (qo_rep _ _ _ Q)).
  rewrite drop_0 in E2. rewrite E2. cbn [mbind outcome_bind].
  destruct (active_page_map (kp_vmm k)) as [active v].
  destruct (map_progress active va addr heap_page_flags m2 fr2 Hi2) as (m3 & fr3 & -> & Hi3 & Ha3 & _).
  cbn [mbind outcome_bind]. eexists. split_and!; [done|split; [done|by exists ns, ps]|].
  cbn [kp_sched kp_frames]. rewrite HL. fold n.
  replace (fa_avail (kp_frames k) / (4 + 3 * n) - 1) with ((fa_avail (kp_frames k) - 1 * (4 + 3 * n)) / (4 + 3 * n))
    by (rewrite <- Z.add_opp_r, <- Z.mul_opp_l, Z.div_add by lia; lia).
  apply Z.div_le_mono; lia.
Qed.

#[export] Instance kernel_page_provider : KHeap.PageProvider kpages := {
  KHeap.pp_map_first := map_first;
  KHeap.pp_map_page := map_heap_page;
  KHeap.pp_left := pages_left_for_heap;
  KHeap.pp_ready := heap_pages_ready;
  KHeap.pp_map_page_ok := map_heap_page_ok
}.
