(* ===== verification/FileMeta.v ===== *)
(** * What filesystem drivers share

    Models [FileMetadata] and [DirectoryEntry] of
    src/kernel/src/storage/file_metadata.h, the loops of the drivers that run
    the processes waiting on a buffer, and the objects drivers keep: a store of
    [new]ed objects by address, and byte buffers as lists copied to and from
    memory. *)

From Stdlib Require Import Ascii String.
From stdpp Require Import pretty.
From S2P Require Import Prelude PhysMem LinkedList SparseVector RingBuffer Event Process Scheduler.

(** ** Objects *)

Module Store.

(** [new] takes an address never used before; [brk] is the next one. *)
Record store (A : Type) := mkStore { objs : gmap Z A; brk : Z }.
Arguments mkStore {A} objs brk.
Arguments objs {A} s.
Arguments brk {A} s.

Section Ops.
Context {A : Type}.
Implicit Types s : store A.

Definition get (a : Z) (s : store A) : outcome A := deref (objs s !! a).
Definition put (a : Z) (x : A) (s : store A) : store A := mkStore (<[a := x]> (objs s)) (brk s).
Definition new (x : A) (s : store A) : Z * store A := (brk s, mkStore (<[brk s := x]> (objs s)) (brk s + 1)).
Definition del (a : Z) (s : store A) : store A := mkStore (delete a (objs s)) (brk s).

(** Addresses in use are positive and below the next one. *)
Definition wf (s : store A) : Prop := 0 < brk s /\ forall a x, objs s !! a = Some x -> 0 < a < brk s.

Lemma put_wf a x s : wf s -> is_Some (objs s !! a) -> wf (put a x s).
Proof.
  intros [Hb H] [y Hy]. split; [done|]. intros c z. cbn [put objs]. destruct (decide (c = a)) as [->|Hne].
  - intros _. by eapply H.
  - rewrite lookup_insert_ne by done. apply H.
Qed.

Lemma new_wf x s : wf s -> wf (new x s).2.
Proof.
  intros [Hb H]. split; cbn; [lia|]. intros c z. destruct (decide (c = brk s)) as [->|Hne].
  - lia.
  - rewrite lookup_insert_ne by done. intros Hc%H. lia.
Qed.

Lemma del_wf a s : wf s -> wf (del a s).
Proof.
  intros [Hb H]. split; [done|]. intros c z. cbn [del objs]. rewrite lookup_delete_Some. intros [_ Hc]. by eapply H.
Qed.

Lemma brk_unused s : wf s -> objs s !! brk s = None.
Proof. intros [_ H]. destruct (objs s !! brk s) eqn:E; [|done]. apply H in E. lia. Qed.

Lemma put_get s a x : objs s !! a = Some x -> put a x s = s.
Proof. intros H. unfold put. rewrite insert_id by done. by destruct s. Qed.

End Ops.

End Store.

(** ** Byte buffers *)

(** The [n] bytes at [a], and [memcpy] of the bytes of a kernel buffer to [a]. *)
Fixpoint load_bytes (m : mem) (a : Z) (n : nat) : list Z :=
  match n with
  | O => []
  | S n => read8 m a :: load_bytes m (a + 1) n
  end.

Fixpoint store_bytes (a : Z) (l : list Z) (m : mem) : mem :=
  match l with
  | [] => m
  | b :: l => store_bytes (a + 1) l (write8 m a b)
  end.

(** [memcpy(Data + off, bytes)]; [memmove(Data, Data + n, size - n)]. *)
Definition put_bytes (off : Z) (bytes data : list Z) : list Z :=
  take (Z.to_nat off) data ++ bytes ++ drop (Z.to_nat off + length bytes) data.

Definition shift_down (n : Z) (data : list Z) : list Z :=
  drop (Z.to_nat n) data ++ drop (length data - Z.to_nat n) data.

Definition is_byte (b : Z) : Prop := 0 <= b < 256.

Lemma length_load_bytes m a n : length (load_bytes m a n) = n.
Proof. revert a. induction n as [|n IH]; intros a; cbn; [done|]. by rewrite IH. Qed.

Lemma load_bytes_byte m a n : Forall is_byte (load_bytes m a n).
Proof. revert a. induction n as [|n IH]; intros a; cbn; constructor; [apply read8_range|apply IH]. Qed.

Lemma load_bytes_frame m1 m2 a n :
  (forall x, a <= x < a + Z.of_nat n -> read8 m1 x = read8 m2 x) -> load_bytes m1 a n = load_bytes m2 a n.
Proof.
  revert a. induction n as [|n IH]; intros a H; cbn; [done|].
  f_equal; [apply H; lia|]. apply IH. intros x Hx. apply H. lia.
Qed.

Lemma store_bytes_frame a l m x : x < a \/ a + Z.of_nat (length l) <= x -> read8 (store_bytes a l m) x = read8 m x.
Proof.
  revert a m. induction l as [|b l IH]; intros a m H; cbn [store_bytes length] in *; [done|].
  rewrite IH by lia. apply read8_write8_ne. lia.
Qed.

Lemma load_store_bytes a l m : Forall is_byte l -> load_bytes (store_bytes a l m) a (length l) = l.
Proof.
  intros Hl. revert a m. induction Hl as [|b l Hb Hl IH]; intros a m; cbn; [done|]. f_equal; [|apply IH].
  rewrite store_bytes_frame by lia. rewrite read8_write8_eq. apply Z.mod_small, Hb.
Qed.

Lemma store_bytes_app a l1 l2 m : store_bytes a (l1 ++ l2) m = store_bytes (a + Z.of_nat (length l1)) l2 (store_bytes a l1 m).
Proof.
  revert a m. induction l1 as [|b l1 IH]; intros a m; cbn [app store_bytes length]; [by rewrite Z.add_0_r|].
  rewrite IH. f_equal. lia.
Qed.

Lemma length_put_bytes off bytes data :
  0 <= off -> (Z.to_nat off + length bytes <= length data)%nat ->
  length (put_bytes off bytes data) = length data.
Proof. intros H0 H. unfold put_bytes. rewrite !length_app, length_take, length_drop. lia. Qed.

Lemma take_put_bytes off bytes data :
  0 <= off -> (Z.to_nat off + length bytes <= length data)%nat ->
  take (Z.to_nat off + length bytes) (put_bytes off bytes data) = take (Z.to_nat off) data ++ bytes.
Proof.
  intros H0 H. unfold put_bytes. rewrite app_assoc, take_app_length'; [done|].
  rewrite length_app, length_take. lia.
Qed.

Lemma length_shift_down n data : (Z.to_nat n <= length data)%nat -> length (shift_down n data) = length data.
Proof. intros H. unfold shift_down. rewrite length_app, !length_drop. lia. Qed.

Lemma take_shift_down n k data :
  (Z.to_nat n + k <= length data)%nat -> take k (shift_down n data) = drop (Z.to_nat n) (take (Z.to_nat n + k) data).
Proof.
  intros H. unfold shift_down. rewrite take_app_le by (rewrite length_drop; lia).
  by rewrite skipn_firstn_comm, Nat.add_comm, Nat.add_sub.
Qed.

(** *** A buffer that is filled at [off] and emptied at its front *)

Record fifo_ok (N : Z) (data : list Z) (off : Z) : Prop := {
  fo_length : Z.of_nat (length data) = N;
  fo_offset : 0 <= off <= N;
  fo_bytes : Forall is_byte data;
  fo_size : N < 2 ^ 63
}.

Definition queued (data : list Z) (off : Z) : list Z := take (Z.to_nat off) data.

Lemma fifo_zero N : 0 <= N < 2 ^ 63 -> fifo_ok N (replicate (Z.to_nat N) 0) 0.
Proof. intros H. split; [rewrite length_replicate; lia|lia|apply Forall_replicate; unfold is_byte; lia|lia]. Qed.

Lemma fifo_get N data off n :
  fifo_ok N data off -> 0 <= n <= off ->
  fifo_ok N (shift_down n data) (off -64 n) /\
  queued (shift_down n data) (off -64 n) = drop (Z.to_nat n) (queued data off) /\
  length (take (Z.to_nat n) data) = Z.to_nat n.
Proof.
  intros [Hl Ho Hb Hs] Hn. assert (Ew : off -64 n = off - n) by (apply wrap64_small; unfold is_u64; lia). rewrite Ew.
  split_and!.
  - split; [rewrite length_shift_down by lia; done|lia| |done].
    unfold shift_down. apply Forall_app. split; by apply Forall_drop.
  - unfold queued. rewrite take_shift_down by lia. do 2 f_equal. lia.
  - rewrite length_take. lia.
Qed.

Lemma fifo_put N data off bytes :
  fifo_ok N data off -> Forall is_byte bytes -> off + Z.of_nat (length bytes) <= N ->
  fifo_ok N (put_bytes off bytes data) (off +64 Z.of_nat (length bytes)) /\
  queued (put_bytes off bytes data) (off +64 Z.of_nat (length bytes)) = queued data off ++ bytes.
Proof.
  intros [Hl Ho Hb Hs] Hby Hle.
  assert (Ew : off +64 Z.of_nat (length bytes) = off + Z.of_nat (length bytes)) by (apply wrap64_small; unfold is_u64; lia).
  rewrite Ew. split.
  - split; [rewrite length_put_bytes by lia; done|lia| |done].
    unfold put_bytes. repeat (apply Forall_app; split); [by apply Forall_take|done|by apply Forall_drop].
  - unfold queued. rewrite Z2Nat.inj_add, Nat2Z.id by lia. apply take_put_bytes; lia.
Qed.

(** ** Strings *)

Definition bytes_of_string (s : string) : list Z := (fun c => Z.of_N (N_of_ascii c)) <$> list_ascii_of_string s.
Definition string_of_bytes (l : list Z) : string := string_of_list_ascii ((fun b => ascii_of_N (Z.to_N b)) <$> l).

Lemma string_of_bytes_of_string s : string_of_bytes (bytes_of_string s) = s.
Proof.
  unfold string_of_bytes, bytes_of_string. rewrite <- (string_of_list_ascii_of_string s) at 2. f_equal.
  induction (list_ascii_of_string s) as [|c l IH]; [done|]. cbn [fmap list_fmap]. f_equal; [|exact IH].
  by rewrite N2Z.id, ascii_N_embedding.
Qed.

(** ** File metadata *)

Inductive FileType := Regular | Directory.

(** The driver objects a [FileDriver] pointer can refer to. *)
Inductive FilesystemDriver := PipesDriver | InputDriver | SocketsDriver | DbgOutDriver | FatDriver (device : Z).

#[export] Instance FileType_eq_dec : EqDecision FileType.
Proof. solve_decision. Defined.
#[export] Instance FilesystemDriver_eq_dec : EqDecision FilesystemDriver.
Proof. solve_decision. Defined.

Record FileMetadata := mkMeta {
  Type_of_file : FileType;
  Name : string;
  Invalid : bool;
  FileDriver : option FilesystemDriver;
  FileSize : Z;
  DriverData : Z;
  offset : Z
}.

(** [FileMetadata::Make] *)
Definition make_meta (type : FileType) (name : string) (driver : FilesystemDriver) (size data : Z) : FileMetadata :=
  mkMeta type name false (Some driver) size data 0.

(** The default constructor. *)
Definition invalid_meta : FileMetadata := mkMeta Regular "" true None (2 ^ 64 - 1) 0 0.

Definition with_offset (x : Z) (f : FileMetadata) : FileMetadata :=
  mkMeta (Type_of_file f) (Name f) (Invalid f) (FileDriver f) (FileSize f) (DriverData f) x.

Record DirectoryEntry := mkDirent { entry_type : FileType; entry_name : string }.

(** ** Waking processes *)

(** [usz(-1)] and [usz(-2)], the values a woken process finds in RAX. *)
Definition RET_EOF : Z := 2 ^ 64 - 1.
Definition RET_RETRY : Z := 2 ^ 64 - 2.

(** [for (pid_t pid : pids) { process = Scheduler::process(pid); if (!process)
    continue; process->unblock(true, ret); }] *)
Fixpoint unblock_all (ret : Z) (pids : list Z) (s : sched) : outcome sched :=
  match pids with
  | [] => Done s
  | pid :: pids =>
      a ← process pid s;
      s ← (if a =? 0 then Done s else modify_proc a (unblock true ret) s);
      unblock_all ret pids s
  end.

Definition current (s : sched) : outcome Process :=
  a ← SLL.value (CurrentProcess s) (ProcessQueue s); proc a s.

(** The process [process(pid)] finds among the queued ones [ps]. *)
Definition find_pid (s : sched) (ps : list Z) (pid : Z) : option Z :=
  snd <$> list_find (fun a => has_pid s pid a = true) ps.

(** [s'] is [s] with the processes in [W] woken with result [ret]. *)
Definition woken (ret : Z) (W : list Z) (s s' : sched) : Prop :=
  s' = with_procs (procs s') s /\
  forall a, procs s' !! a = (if bool_decide (a ∈ W) then unblock true ret else id) <$> procs s !! a.

Lemma woken_refl ret s : woken ret [] s s.
Proof. split; [by destruct s|]. intros a. rewrite bool_decide_false by apply not_elem_of_nil. by destruct (_ !! a). Qed.

Lemma woken_has_pid ret W s s' pid a : woken ret W s s' -> has_pid s' pid a = has_pid s pid a.
Proof.
  intros [_ H]. unfold has_pid. rewrite H. destruct (procs s !! a) as [p|]; [|done]. cbn. by case_bool_decide.
Qed.

Lemma woken_queue_ok ret W s s' ns ps : woken ret W s s' -> queue_ok s ns ps -> queue_ok s' ns ps.
Proof.
  intros [-> H] Q. apply queue_ok_with_procs; [done|]. intros a Ha. rewrite H. by apply fmap_is_Some.
Qed.

Lemma woken_trans ret W1 W2 s1 s2 s3 :
  woken ret W1 s1 s2 -> woken ret W2 s2 s3 -> woken ret (W1 ++ W2) s1 s3.
Proof.
  intros [E1 H1] [E2 H2]. split; [rewrite E2, E1; by destruct s1|]. intros a. rewrite H2, H1.
  destruct (procs s1 !! a) as [p|]; [|done]. cbn. f_equal.
  repeat case_bool_decide; cbn; try done; exfalso; rewrite elem_of_app in *; tauto.
Qed.

Lemma woken_one ret a p s :
  procs s !! a = Some p -> woken ret [a] s (with_procs (<[a := unblock true ret p]> (procs s)) s).
Proof.
  intros Hp. split; [done|]. intros b. cbn [procs with_procs]. destruct (decide (b = a)) as [->|Hne].
  - rewrite lookup_insert_eq, Hp, bool_decide_true by (by left). done.
  - rewrite lookup_insert_ne, bool_decide_false by (done || by rewrite list_elem_of_singleton). by destruct (_ !! b).
Qed.

Lemma woken_current ret W s s' p : woken ret W s s' -> current s = Done p -> exists p', current s' = Done p' /\ ProcessID p' = ProcessID p.
Proof.
  intros [Es H] Hp. assert (Ec : CurrentProcess s' = CurrentProcess s) by (by rewrite Es).
  assert (Eq : ProcessQueue s' = ProcessQueue s) by (by rewrite Es). unfold current in *. rewrite Ec, Eq.
  destruct (SLL.value _ _) as [a|]; [|discriminate Hp]. cbn [mbind outcome_bind] in *. unfold proc in *. rewrite H.
  destruct (procs s !! a) as [q|]; [|discriminate Hp]. injection Hp as ->. cbn. eexists. split; [done|]. by case_bool_decide.
Qed.

(** The loop wakes exactly the processes with those identifiers. *)
Lemma unblock_all_spec ret pids s ns ps :
  queue_ok s ns ps -> exists s', unblock_all ret pids s = Done s' /\ woken ret (omap (find_pid s ps) pids) s s'.
Proof.
  revert s. induction pids as [|pid pids IH]; intros s Q.
  { exists s. split; [done|]. apply woken_refl. }
  cbn [unblock_all]. rewrite (process_spec s ns ps pid Q). cbn [mbind outcome_bind].
  assert (Hs : exists s1, (if (match list_find (fun a => has_pid s pid a = true) ps with Some (_, a) => a | None => 0 end) =? 0
                           then Done s else modify_proc (match list_find (fun a => has_pid s pid a = true) ps with Some (_, a) => a | None => 0 end)
                                              (unblock true ret) s) = Done s1 /\
                          woken ret (omap (find_pid s ps) [pid]) s s1).
  { cbn [omap list_omap]. unfold find_pid. destruct (list_find _ ps) as [[i a]|] eqn:E; cbn.
    - apply list_find_Some in E as (E & _ & _). destruct (qo_procs _ _ _ Q a) as [H0 [p Hp]]; [by eapply list_elem_of_lookup_2|].
      rewrite (proj2 (Z.eqb_neq a 0) H0). unfold modify_proc, proc. rewrite Hp. cbn. eexists. split; [done|]. by apply woken_one.
    - exists s. split; [done|]. apply woken_refl. }
  destruct Hs as (s1 & -> & W1). cbn [mbind outcome_bind].
  destruct (IH s1) as (s' & -> & W2); [by eapply woken_queue_ok|]. exists s'. split; [done|].
  change (pid :: pids) with ([pid] ++ pids). rewrite omap_app. eapply woken_trans; [done|].
  replace (omap (find_pid s ps) pids) with (omap (find_pid s1 ps) pids); [done|].
  apply list_omap_ext, Forall2_same_length_lookup_2; [done|]. intros i x y Hx Hy. rewrite Hx in Hy. injection Hy as ->.
  unfold find_pid. f_equal. apply list_find_ext. intros a. by rewrite (woken_has_pid _ _ _ _ _ _ W1).
Qed.

(** A queued process with a listed identifier is found. *)
Lemma find_pid_own s ps a p :
  pids_ok s ps -> a ∈ ps -> procs s !! a = Some p -> find_pid s ps (ProcessID p) = Some a.
Proof.
  intros O Ha Hp. unfold find_pid. destruct (list_find (fun b => has_pid s (ProcessID p) b = true) ps) as [[i b]|] eqn:E; cbn.
  - apply list_find_Some in E as (Hb & Hh & _). unfold has_pid in Hh. destruct (procs s !! b) as [q|] eqn:Hq; [|done].
    apply Z.eqb_eq in Hh. f_equal. by apply (po_inj _ _ O b a q p); [eapply list_elem_of_lookup_2| | | |].
  - exfalso. apply list_find_None in E. rewrite Forall_forall in E. apply (E a Ha). unfold has_pid. rewrite Hp. apply Z.eqb_refl.
Qed.
