(* ===== verification/PipeDriver.v ===== *)
(** * Pipes

    Models src/kernel/src/storage/filesystem_drivers/pipe.h and pipe.cpp: pipe
    buffers and pipe ends are objects by address; [DriverData] of a file's
    metadata is the address of its pipe end. *)

From stdpp Require Import pretty.
From S2P Require Import Prelude PhysMem LinkedList SparseVector RingBuffer Event Process Scheduler FileMeta.

Module Pipe.

Definition PIPE_BUFSZ : Z := 512.

Record PipeBuffer := mkBuffer {
  Data : list Z;
  Offset : Z;
  ReadClosed : bool;
  WriteClosed : bool;
  PIDsWaitingOnReadToWrite : list Z;
  PIDsWaitingOnWriteToRead : list Z
}.

Definition new_buffer : PipeBuffer := mkBuffer (replicate 512 0) 0 false false [] [].

(** [PipeBuffer::clear]; [memset] zeroes the bytes. *)
Definition clear (b : PipeBuffer) : PipeBuffer :=
  let b := mkBuffer (Data b) (Offset b) (ReadClosed b) (WriteClosed b) [] [] in
  mkBuffer (replicate (length (Data b)) 0) 0 false false (PIDsWaitingOnReadToWrite b) (PIDsWaitingOnWriteToRead b).

Definition with_data (d : list Z) (o : Z) (b : PipeBuffer) : PipeBuffer :=
  mkBuffer d o (ReadClosed b) (WriteClosed b) (PIDsWaitingOnReadToWrite b) (PIDsWaitingOnWriteToRead b).
Definition with_ReadClosed (x : bool) (b : PipeBuffer) : PipeBuffer :=
  mkBuffer (Data b) (Offset b) x (WriteClosed b) (PIDsWaitingOnReadToWrite b) (PIDsWaitingOnWriteToRead b).
Definition with_WriteClosed (x : bool) (b : PipeBuffer) : PipeBuffer :=
  mkBuffer (Data b) (Offset b) (ReadClosed b) x (PIDsWaitingOnReadToWrite b) (PIDsWaitingOnWriteToRead b).
Definition with_writers (l : list Z) (b : PipeBuffer) : PipeBuffer :=
  mkBuffer (Data b) (Offset b) (ReadClosed b) (WriteClosed b) l (PIDsWaitingOnWriteToRead b).
Definition with_readers (l : list Z) (b : PipeBuffer) : PipeBuffer :=
  mkBuffer (Data b) (Offset b) (ReadClosed b) (WriteClosed b) (PIDsWaitingOnReadToWrite b) l.

Inductive EndType := READ | WRITE.

Record PipeEnd := mkEnd { Buffer : Z; End : EndType }.

(** [PipeBuffers] holds (name, buffer). [counter] is the static variable of
    [lay_pipe]. *)
Record PipeDriver := mkDriver {
  PipeBuffers : list (string * Z);
  FreePipeBuffers : list Z;
  buffers : Store.store PipeBuffer;
  ends : Store.store PipeEnd;
  counter : Z
}.

Definition with_buffers (x : Store.store PipeBuffer) (d : PipeDriver) : PipeDriver :=
  mkDriver (PipeBuffers d) (FreePipeBuffers d) x (ends d) (counter d).
Definition with_ends (x : Store.store PipeEnd) (d : PipeDriver) : PipeDriver :=
  mkDriver (PipeBuffers d) (FreePipeBuffers d) (buffers d) x (counter d).
Definition with_lists (names : list (string * Z)) (free : list Z) (d : PipeDriver) : PipeDriver :=
  mkDriver names free (buffers d) (ends d) (counter d).

(** [pipe->Buffer->...] read and updated through the address of the buffer. *)
Definition buf (a : Z) (d : PipeDriver) : outcome PipeBuffer := Store.get a (buffers d).
Definition put_buf (a : Z) (b : PipeBuffer) (d : PipeDriver) : PipeDriver := with_buffers (Store.put a b (buffers d)) d.

(** The part of [close] that frees the buffer once both ends are closed. *)
Definition release (name : string) (a : Z) (d : PipeDriver) : outcome PipeDriver :=
  let names :=
    match list_find (fun e => e.1 = name) (PipeBuffers d) with
    | Some (i, _) => delete i (PipeBuffers d)
    | None => PipeBuffers d
    end in
  let d := with_lists names (FreePipeBuffers d) d in
  if bool_decide (a ∈ FreePipeBuffers d) then Done d
  else
    b ← buf a d;
    let d := put_buf a (clear b) d in
    Done (with_lists (PipeBuffers d) (FreePipeBuffers d ++ [a]) d).

Definition close (meta : option FileMetadata) (st : PipeDriver * sched) : outcome (PipeDriver * sched) :=
  let '(d, s) := st in
  match meta with
  | None => Done (d, s)
  | Some meta =>
      pipe ← Store.get (DriverData meta) (ends d);
      let pipeBuffer := Buffer pipe in
      b ← buf pipeBuffer d;
      '(closed, d, s) ←
        match End pipe with
        | READ =>
            if ReadClosed b then Done (false, d, s)
            else
              let b := with_ReadClosed true b in
              s ← unblock_all RET_EOF (PIDsWaitingOnReadToWrite b) s;
              Done (true, put_buf pipeBuffer (with_writers [] b) d, s)
        | WRITE =>
            if WriteClosed b then Done (false, d, s)
            else
              let b := with_WriteClosed true b in
              s ← unblock_all RET_EOF (PIDsWaitingOnWriteToRead b) s;
              Done (true, put_buf pipeBuffer (with_readers [] b) d, s)
        end;
      if negb closed then Done (d, s)
      else
        let d := with_ends (Store.del (DriverData meta) (ends d)) d in
        b ← buf pipeBuffer d;
        if negb (ReadClosed b) || negb (WriteClosed b) then Done (d, s)
        else d ← release (Name meta) pipeBuffer d; Done (d, s)
  end.

(** [open] is not supported: it panics and hangs. *)
Definition open (path : string) (st : PipeDriver * sched) : outcome (option FileMetadata * (PipeDriver * sched)) :=
  Stop Panicked.

Definition read (meta : option FileMetadata) (byteCount buffer : Z) (st : PipeDriver * sched) (m : mem) :
    outcome (Z * (PipeDriver * sched) * mem) :=
  let '(d, s) := st in
  match meta with
  | None => Done (-1, (d, s), m)
  | Some meta =>
      if DriverData meta =? 0 then Done (-1, (d, s), m)
      else
        pipe ← Store.get (DriverData meta) (ends d);
        b ← buf (Buffer pipe) d;
        if Offset b =? 0 then
          if WriteClosed b then Done (-1, (d, s), m)
          else
            process ← current s;
            Done (-2, (put_buf (Buffer pipe) (with_readers (PIDsWaitingOnWriteToRead b ++ [ProcessID process]) b) d, s), m)
        else
          let byteCount := if Offset b <? byteCount then Offset b else byteCount in
          let m := store_bytes buffer (take (Z.to_nat byteCount) (Data b)) m in
          let b := with_data (shift_down byteCount (Data b)) (Offset b -64 byteCount) b in
          s ← unblock_all RET_RETRY (PIDsWaitingOnReadToWrite b) s;
          Done (byteCount, (put_buf (Buffer pipe) (with_writers [] b) d, s), m)
  end.

Definition write (meta : option FileMetadata) (byteCount buffer : Z) (st : PipeDriver * sched) (m : mem) :
    outcome (Z * (PipeDriver * sched)) :=
  let '(d, s) := st in
  match meta with
  | None => Done (-1, (d, s))
  | Some meta =>
      if DriverData meta =? 0 then Done (-1, (d, s))
      else if byteCount =? 0 then Done (0, (d, s))
      else
        pipe ← Store.get (DriverData meta) (ends d);
        let byteCount := if PIPE_BUFSZ <? byteCount then PIPE_BUFSZ else byteCount in
        b ← buf (Buffer pipe) d;
        if PIPE_BUFSZ <? Offset b +64 byteCount then
          process ← current s;
          Done (-2, (put_buf (Buffer pipe) (with_writers (PIDsWaitingOnReadToWrite b ++ [ProcessID process]) b) d, s))
        else
          let b := with_data (put_bytes (Offset b) (load_bytes m buffer (Z.to_nat byteCount)) (Data b)) (Offset b +64 byteCount) b in
          s ← unblock_all RET_RETRY (PIDsWaitingOnWriteToRead b) s;
          Done (byteCount, (put_buf (Buffer pipe) (with_readers [] b) d, s))
  end.

Definition lay_pipe (d : PipeDriver) : FileMetadata * FileMetadata * PipeDriver :=
  let '(pipe, d) :=
    match last (FreePipeBuffers d) with
    | None => let '(a, bs) := Store.new new_buffer (buffers d) in (a, with_buffers bs d)
    | Some a => (a, with_lists (PipeBuffers d) (removelast (FreePipeBuffers d)) d)
    end in
  let '(readEnd, es) := Store.new (mkEnd pipe READ) (ends d) in
  let '(writeEnd, es) := Store.new (mkEnd pipe WRITE) es in
  let d := mkDriver (PipeBuffers d) (FreePipeBuffers d) (buffers d) es (counter d +64 1) in
  let path := String.append "panon" (pretty (counter d)) in
  (make_meta Regular path PipesDriver PIPE_BUFSZ readEnd, make_meta Regular path PipesDriver PIPE_BUFSZ writeEnd, d).

(** ** The driver's invariant *)

Definition end_closed (k : EndType) (b : PipeBuffer) : bool :=
  match k with READ => ReadClosed b | WRITE => WriteClosed b end.

Definition contents (b : PipeBuffer) : list Z := queued (Data b) (Offset b).

Definition buffer_ok (b : PipeBuffer) : Prop := fifo_ok PIPE_BUFSZ (Data b) (Offset b).

(** Every open end has a live buffer on which it is not closed, no two ends are
    the same end of one buffer, and free buffers are blank, distinct and not in
    use. *)
Record inv (d : PipeDriver) : Prop := {
  inv_buffers_wf : Store.wf (buffers d);
  inv_ends_wf : Store.wf (ends d);
  inv_names : PipeBuffers d = [];
  inv_buffer : forall a b, Store.objs (buffers d) !! a = Some b -> buffer_ok b;
  inv_end : forall e x, Store.objs (ends d) !! e = Some x ->
    Buffer x ∉ FreePipeBuffers d /\
    exists b, Store.objs (buffers d) !! Buffer x = Some b /\ end_closed (End x) b = false;
  inv_unique : forall e1 e2 x, Store.objs (ends d) !! e1 = Some x -> Store.objs (ends d) !! e2 = Some x -> e1 = e2;
  inv_free : NoDup (FreePipeBuffers d) /\
    forall a, a ∈ FreePipeBuffers d -> Store.objs (buffers d) !! a = Some new_buffer
}.

Definition empty_driver (b : Z) : PipeDriver := mkDriver [] [] (Store.mkStore ∅ b) (Store.mkStore ∅ b) 0.

Lemma empty_driver_inv b : 0 < b -> inv (empty_driver b).
Proof.
  intros Hb. assert (W : forall A, Store.wf (Store.mkStore (A := A) ∅ b)).
  { intros A. split; [done|]. intros a x Hx. cbn in Hx. by rewrite lookup_empty in Hx. }
  split; cbn; try done; try (intros * Hx; by rewrite lookup_empty in Hx).
  split; [constructor|]. intros a Ha. by apply not_elem_of_nil in Ha.
Qed.

Lemma new_buffer_ok : buffer_ok new_buffer.
Proof. apply (fifo_zero PIPE_BUFSZ). unfold PIPE_BUFSZ. lia. Qed.

Lemma clear_blank b : buffer_ok b -> clear b = new_buffer.
Proof. intros B. unfold clear, new_buffer. cbn [Data]. pose proof (fo_length _ _ _ B) as Hl. unfold PIPE_BUFSZ in Hl. by replace (length (Data b)) with 512%nat by lia. Qed.

(** Replacing a buffer in use by one of the same openness keeps the invariant. *)
Lemma put_buf_inv a b b' d :
  inv d -> Store.objs (buffers d) !! a = Some b -> a ∉ FreePipeBuffers d -> buffer_ok b' ->
  (forall e x, Store.objs (ends d) !! e = Some x -> Buffer x = a -> end_closed (End x) b' = false) ->
  inv (put_buf a b' d).
Proof.
  intros I Hb Hf B' Hc. split; cbn [put_buf with_buffers buffers ends PipeBuffers FreePipeBuffers Store.put Store.objs];
    try apply I.
  - apply Store.put_wf; [apply I|by eexists].
  - intros c b1. destruct (decide (c = a)) as [->|Hne]; [rewrite lookup_insert_eq; by intros [= <-]|].
    rewrite lookup_insert_ne by done. apply I.
  - intros e x Hx. destruct (inv_end _ I e x Hx) as (Hnf & b1 & Hb1 & Ho). split; [done|].
    destruct (decide (Buffer x = a)) as [E|Hne].
    + rewrite E, lookup_insert_eq. exists b'. split; [done|]. by eapply Hc.
    + rewrite lookup_insert_ne by done. by exists b1.
  - split; [apply I|]. intros c Hcf. rewrite lookup_insert_ne by (by intros ->). by apply I.
Qed.

(** ** What each call does *)

Section Calls.
Context (meta : FileMetadata) (d : PipeDriver) (x : PipeEnd) (b : PipeBuffer).
Hypothesis (I : inv d) (He : Store.objs (ends d) !! DriverData meta = Some x)
  (Hb : Store.objs (buffers d) !! Buffer x = Some b).

Lemma end_nonnull : (DriverData meta =? 0) = false.
Proof. apply Z.eqb_neq. apply (inv_ends_wf _ I) in He. lia. Qed.

Lemma read_equation n buffer s m :
  0 <= n ->
  read (Some meta) n buffer (d, s) m =
  if Offset b =? 0 then
    if WriteClosed b then Done (-1, (d, s), m)
    else
      p ← current s;
      Done (-2, (put_buf (Buffer x) (with_readers (PIDsWaitingOnWriteToRead b ++ [ProcessID p]) b) d, s), m)
  else
    let k := Z.min n (Offset b) in
    s' ← unblock_all RET_RETRY (PIDsWaitingOnReadToWrite b) s;
    Done (k, (put_buf (Buffer x) (with_writers [] (with_data (shift_down k (Data b)) (Offset b -64 k) b)) d, s'),
          store_bytes buffer (take (Z.to_nat k) (contents b)) m).
Proof.
  intros Hn. unfold read. rewrite end_nonnull. unfold Store.get, buf, Store.get. rewrite He. cbn [deref mbind outcome_bind].
  rewrite Hb. cbn [deref mbind outcome_bind]. destruct (Offset b =? 0); [done|]. cbv zeta.
  assert (Ek : (if Offset b <? n then Offset b else n) = Z.min n (Offset b)) by (destruct (Z.ltb_spec (Offset b) n); lia).
  rewrite Ek. unfold contents, queued. rewrite take_take, Nat.min_l by lia. done.
Qed.

Lemma write_equation n buffer s m :
  0 < n ->
  write (Some meta) n buffer (d, s) m =
  let k := Z.min n PIPE_BUFSZ in
  if PIPE_BUFSZ <? Offset b + k then
    p ← current s;
    Done (-2, (put_buf (Buffer x) (with_writers (PIDsWaitingOnReadToWrite b ++ [ProcessID p]) b) d, s))
  else
    s' ← unblock_all RET_RETRY (PIDsWaitingOnWriteToRead b) s;
    Done (k, (put_buf (Buffer x)
                (with_readers [] (with_data (put_bytes (Offset b) (load_bytes m buffer (Z.to_nat k)) (Data b)) (Offset b +64 k) b)) d, s')).
Proof.
  intros Hn. unfold write. rewrite end_nonnull, (proj2 (Z.eqb_neq n 0)) by lia. unfold Store.get, buf, Store.get.
  rewrite He. cbn [deref mbind outcome_bind]. rewrite Hb. cbn [deref mbind outcome_bind]. cbv zeta.
  assert (Ek : (if PIPE_BUFSZ <? n then PIPE_BUFSZ else n) = Z.min n PIPE_BUFSZ) by (destruct (Z.ltb_spec PIPE_BUFSZ n); lia).
  rewrite Ek. pose proof (fo_offset _ _ _ (inv_buffer _ I _ _ Hb)) as Ho. unfold PIPE_BUFSZ in *.
  rewrite (wrap64_small (Offset b + _)) by (unfold is_u64; lia). done.
Qed.

(** The buffer after one end is closed, before it is given back. *)
Definition half_closed : PipeBuffer :=
  match End x with
  | READ => with_writers [] (with_ReadClosed true b)
  | WRITE => with_readers [] (with_WriteClosed true b)
  end.

Definition waiting_on_end : list Z :=
  match End x with
  | READ => PIDsWaitingOnReadToWrite b
  | WRITE => PIDsWaitingOnWriteToRead b
  end.

Definition other_closed : bool := match End x with READ => WriteClosed b | WRITE => ReadClosed b end.

(** The driver after [close]. *)
Definition after_close : PipeDriver :=
  let d := with_ends (Store.del (DriverData meta) (ends d)) (put_buf (Buffer x) half_closed d) in
  if other_closed then with_lists (PipeBuffers d) (FreePipeBuffers d ++ [Buffer x]) (put_buf (Buffer x) new_buffer d) else d.

Lemma close_equation s :
  close (Some meta) (d, s) = (s' ← unblock_all RET_EOF waiting_on_end s; Done (after_close, s')).
Proof.
  destruct (inv_end _ I _ _ He) as (Hnf & b0 & Hb0 & Ho). rewrite Hb in Hb0. injection Hb0 as <-.
  pose proof (inv_buffer _ I _ _ Hb) as B.
  assert (Hrel : forall y d0, PipeBuffers d0 = [] -> FreePipeBuffers d0 = FreePipeBuffers d ->
            Store.objs (buffers d0) !! Buffer x = Some y -> buffer_ok y ->
            release (Name meta) (Buffer x) d0 =
            Done (with_lists (PipeBuffers d0) (FreePipeBuffers d0 ++ [Buffer x]) (put_buf (Buffer x) new_buffer d0))).
  { intros y d0 E1 E2 Hy By. unfold release. rewrite E1. cbn [list_find with_lists FreePipeBuffers]. rewrite E2.
    rewrite bool_decide_false by done. unfold buf, Store.get. cbn [with_lists buffers]. rewrite Hy.
    cbn [deref mbind outcome_bind]. by rewrite clear_blank. }
  unfold close, Store.get, buf, Store.get. rewrite He. cbn [deref mbind outcome_bind]. rewrite Hb. cbn [deref mbind outcome_bind].
  unfold waiting_on_end, after_close, half_closed, other_closed. destruct (End x) eqn:Ek; cbn [end_closed] in Ho; rewrite Ho.
  - cbn [with_ReadClosed PIDsWaitingOnReadToWrite]. destruct (unblock_all _ _ s) as [s'|]; [|done]. cbn [mbind outcome_bind negb].
    cbn [with_ends put_buf with_buffers buffers Store.put Store.objs]. rewrite lookup_insert_eq. cbn [deref mbind outcome_bind].
    cbn [with_writers with_ReadClosed ReadClosed WriteClosed negb orb].
    destruct (WriteClosed b) eqn:Ew; cbn [negb]; [|done].
    erewrite Hrel; [cbn [mbind outcome_bind]; reflexivity|apply I|done|apply lookup_insert_eq|].
    exact B.
  - cbn [with_WriteClosed PIDsWaitingOnWriteToRead]. destruct (unblock_all _ _ s) as [s'|]; [|done]. cbn [mbind outcome_bind negb].
    cbn [with_ends put_buf with_buffers buffers Store.put Store.objs]. rewrite lookup_insert_eq. cbn [deref mbind outcome_bind].
    cbn [with_readers with_WriteClosed ReadClosed WriteClosed negb orb]. rewrite orb_false_r.
    destruct (ReadClosed b) eqn:Er; cbn [negb]; [|done].
    erewrite Hrel; [cbn [mbind outcome_bind]; reflexivity|apply I|done|apply lookup_insert_eq|].
    exact B.
Qed.

Lemma half_closed_ok : buffer_ok half_closed /\ contents half_closed = contents b.
Proof. pose proof (inv_buffer _ I _ _ Hb) as B. unfold half_closed. destruct (End x); split; done. Qed.

(** Ends other than the one being closed see no change of their own flag. *)
Lemma half_closed_other e y :
  Store.objs (ends d) !! e = Some y -> e ≠ DriverData meta -> Buffer y = Buffer x -> end_closed (End y) half_closed = false.
Proof.
  intros Hy Hne Eb. destruct (inv_end _ I e y Hy) as (_ & b0 & Hb0 & Ho). rewrite Eb, Hb in Hb0. injection Hb0 as <-.
  assert (Hk : End y ≠ End x).
  { intros Ek. apply Hne, (inv_unique _ I _ _ x); [|done]. rewrite Hy. f_equal. destruct x, y; cbn in *; by subst. }
  unfold half_closed. destruct (End x), (End y); cbn in *; done.
Qed.

Lemma close_inv : inv after_close.
Proof.
  destruct (inv_end _ I _ _ He) as (Hnf & b0 & Hb0 & Ho). rewrite Hb in Hb0. injection Hb0 as <-.
  set (d1 := with_ends (Store.del (DriverData meta) (ends d)) d).
  assert (I1 : inv d1).
  { split; cbn [d1 with_ends ends buffers PipeBuffers FreePipeBuffers Store.del Store.objs]; try apply I.
    - apply Store.del_wf, I.
    - intros e y. rewrite lookup_delete_Some. intros [_ Hy]. by eapply inv_end.
    - intros e1 e2 y. rewrite !lookup_delete_Some. intros [_ H1] [_ H2]. by eapply inv_unique. }
  assert (Hother : forall e y, Store.objs (ends d1) !! e = Some y -> Buffer y = Buffer x -> end_closed (End y) half_closed = false).
  { intros e y. cbn. rewrite lookup_delete_Some. intros [Hne Hy]. by apply (half_closed_other e). }
  assert (I2 : inv (put_buf (Buffer x) half_closed d1)).
  { eapply put_buf_inv; [done|exact Hb|done|apply half_closed_ok|exact Hother]. }
  unfold after_close. change (with_ends _ (put_buf (Buffer x) half_closed d)) with (put_buf (Buffer x) half_closed d1).
  destruct other_closed eqn:Eo; [|done].
  assert (Hnone : forall e y, Store.objs (ends d1) !! e = Some y -> Buffer y ≠ Buffer x).
  { intros e y Hy E. pose proof (Hother e y Hy E) as Hc. unfold half_closed, other_closed in *.
    destruct (End x), (End y); cbn in *; congruence. }
  split; cbn [with_lists put_buf with_buffers buffers ends PipeBuffers FreePipeBuffers Store.put Store.objs]; try apply I2.
  - do 2 (apply Store.put_wf; [|by eexists; (apply lookup_insert_eq || exact Hb)]). apply I.
  - intros c b1. destruct (decide (c = Buffer x)) as [->|Hne]; [rewrite lookup_insert_eq; intros [= <-]; apply new_buffer_ok|].
    rewrite !lookup_insert_ne by done. apply I.
  - intros e y Hy. destruct (inv_end _ I1 e y Hy) as (Hyf & b1 & Hb1 & Hc). pose proof (Hnone e y Hy) as Hne. split.
    + rewrite elem_of_app, list_elem_of_singleton. tauto.
    + rewrite !lookup_insert_ne by done. by exists b1.
  - destruct (inv_free _ I) as [Hnd Hfree]. split.
    + apply NoDup_app. split_and!; [done| |apply NoDup_singleton]. intros c Hc ->%list_elem_of_singleton. done.
    + intros c. rewrite elem_of_app, list_elem_of_singleton. intros [Hc| ->]; [|apply lookup_insert_eq].
      rewrite !lookup_insert_ne by (intros E; by rewrite <- E in Hc). by apply Hfree.
Qed.

End Calls.

(** ** Laying a pipe *)

Lemma lay_spec d r w d' :
  inv d -> lay_pipe d = (r, w, d') ->
  exists a, Store.objs (ends d') !! DriverData r = Some (mkEnd a READ) /\
    Store.objs (ends d') !! DriverData w = Some (mkEnd a WRITE) /\
    Store.objs (buffers d') !! a = Some new_buffer /\ inv d' /\
    (forall e x, Store.objs (ends d) !! e = Some x -> Buffer x ≠ a /\ Store.objs (ends d') !! e = Some x) /\
    (forall c, c ∈ FreePipeBuffers d' <-> c ∈ FreePipeBuffers d /\ c ≠ a) /\
    (forall c b, Store.objs (buffers d) !! c = Some b -> Store.objs (buffers d') !! c = Some b).
Proof.
  intros I. unfold lay_pipe.
  set (st := match last (FreePipeBuffers d) with None => _ | Some a => _ end).
  assert (Hst : exists a d1, st = (a, d1) /\ ends d1 = ends d /\ PipeBuffers d1 = [] /\
            Store.objs (buffers d1) !! a = Some new_buffer /\ Store.wf (buffers d1) /\ NoDup (FreePipeBuffers d1) /\
            (forall c b, Store.objs (buffers d) !! c = Some b -> Store.objs (buffers d1) !! c = Some b) /\
            (forall c b, Store.objs (buffers d1) !! c = Some b -> buffer_ok b) /\
            (forall c, c ∈ FreePipeBuffers d1 <-> c ∈ FreePipeBuffers d /\ c ≠ a) /\
            (forall e x, Store.objs (ends d) !! e = Some x -> Buffer x ≠ a)).
  { destruct (inv_free _ I) as [Hnd Hfree]. unfold st. destruct (last (FreePipeBuffers d)) as [a|] eqn:El.
    - apply Sparse.last_removelast in El. exists a, (with_lists (PipeBuffers d) (removelast (FreePipeBuffers d)) d).
      assert (Ha : a ∈ FreePipeBuffers d) by (rewrite El; apply elem_of_app; right; by left).
      assert (Hnd' := Hnd). rewrite El in Hnd'. apply NoDup_app in Hnd' as (Hnd1 & Hdis & _).
      split_and!; try done; try apply I; [exact Ha| |].
      + intros c. cbn [with_lists FreePipeBuffers]. rewrite El, removelast_last, elem_of_app, list_elem_of_singleton.
        split; [|tauto]. intros Hc. split; [by left|]. intros ->. apply (Hdis _ Hc). by left.
      + intros e x Hx E. destruct (inv_end _ I e x Hx) as [Hnf _]. by rewrite E in Hnf.
    - apply last_None in El. cbn [Store.new]. exists (Store.brk (buffers d)). eexists. split; [reflexivity|].
      cbn [with_buffers ends PipeBuffers buffers FreePipeBuffers Store.objs]. rewrite El.
      pose proof (Store.brk_unused _ (inv_buffers_wf _ I)) as Hu.
      split_and!; try done; [apply I|apply lookup_insert_eq|apply (Store.new_wf new_buffer _ (inv_buffers_wf _ I))|constructor| | | |].
      + intros c b Hc. rewrite lookup_insert_ne; [done|]. intros <-. congruence.
      + intros c b. destruct (decide (c = Store.brk (buffers d))) as [->|Hne];
          [rewrite lookup_insert_eq; intros [= <-]; apply new_buffer_ok|rewrite lookup_insert_ne by done; apply I].
      + intros c. split; [intros H; by apply not_elem_of_nil in H|tauto].
      + intros e x Hx E. destruct (inv_end _ I e x Hx) as (_ & b & Hb & _). rewrite E in Hb. congruence. }
  destruct Hst as (a & d1 & -> & Ee & En & Ha & Wb & Hnd & Hkeep & Hok & Hfr & Hnew).
  cbn [Store.new]. intros [= <- <- <-]. exists a. cbn [make_meta DriverData ends buffers FreePipeBuffers Store.objs].
  rewrite Ee. pose proof (inv_ends_wf _ I) as We. pose proof (Store.brk_unused _ We) as Hu.
  assert (Hold : forall e x, Store.objs (ends d) !! e = Some x -> e ≠ Store.brk (ends d) /\ e ≠ Store.brk (ends d) + 1).
  { intros e x Hx. apply We in Hx. lia. }
  assert (Hends : forall e x, <[Store.brk (ends d) + 1 := mkEnd a WRITE]> (<[Store.brk (ends d) := mkEnd a READ]> (Store.objs (ends d))) !! e = Some x ->
            (e = Store.brk (ends d) + 1 /\ x = mkEnd a WRITE) \/ (e = Store.brk (ends d) /\ x = mkEnd a READ) \/
            Store.objs (ends d) !! e = Some x).
  { intros e x. rewrite !lookup_insert_Some. intuition congruence. }
  split_and!; [rewrite lookup_insert_ne by lia; apply lookup_insert_eq|apply lookup_insert_eq|done| | |done|done].
  - split; cbn [PipeBuffers FreePipeBuffers buffers ends Store.objs]; try done.
    + apply (Store.new_wf (mkEnd a WRITE) (Store.new (mkEnd a READ) (ends d)).2), Store.new_wf, We.
    + intros e x Hx. destruct (Hends e x Hx) as [[-> ->]|[[-> ->]|Hx']]; cbn [Buffer End].
      * split; [rewrite Hfr; tauto|]. by exists new_buffer.
      * split; [rewrite Hfr; tauto|]. by exists new_buffer.
      * destruct (inv_end _ I e x Hx') as (Hnf & b & Hb & Ho). split; [rewrite Hfr; tauto|]. exists b. auto.
    + intros e1 e2 x H1 H2. destruct (Hends _ _ H1) as [[-> ->]|[[-> ->]|H1']]; destruct (Hends _ _ H2) as [[-> E]|[[-> E]|H2']];
        try done; try (by apply Hnew in H2'); try (by subst; apply Hnew in H1'). by eapply inv_unique.
    + split; [done|]. intros c Hc. apply Hkeep, I. by apply Hfr.
  - intros e x Hx. split; [by eapply Hnew|]. destruct (Hold e x Hx). by rewrite !lookup_insert_ne by lia.
Qed.

(** ** Runs of the driver *)

(** What a call tells about a buffer: it was laid, bytes went in or came out. *)
Inductive event := Laid (a : Z) | Put (a : Z) (bytes : list Z) | Got (a : Z) (bytes : list Z) | Silent.

Definition put_to (a : Z) (ev : event) : list Z :=
  match ev with Put c l => if decide (c = a) then l else [] | _ => [] end.
Definition got_from (a : Z) (ev : event) : list Z :=
  match ev with Got c l => if decide (c = a) then l else [] | _ => [] end.

(** Calls on open ends, in any order, on any pipe and through either end; the
    rest of the system changes processes and memory at will. *)
Inductive step : PipeDriver * sched * mem -> event -> PipeDriver * sched * mem -> Prop :=
| step_lay d s m r w d' a :
    lay_pipe d = (r, w, d') -> Store.objs (ends d') !! DriverData r = Some (mkEnd a READ) ->
    step (d, s, m) (Laid a) (d', s, m)
| step_close d s m meta x d' s' :
    Store.objs (ends d) !! DriverData meta = Some x -> close (Some meta) (d, s) = Done (d', s') ->
    step (d, s, m) Silent (d', s', m)
| step_read d s m meta x n buffer r d' s' m' :
    Store.objs (ends d) !! DriverData meta = Some x -> 0 <= n ->
    read (Some meta) n buffer (d, s) m = Done (r, (d', s'), m') ->
    step (d, s, m) (Got (Buffer x) (load_bytes m' buffer (Z.to_nat r))) (d', s', m')
| step_write d s m meta x n buffer r d' s' :
    Store.objs (ends d) !! DriverData meta = Some x -> 0 <= n ->
    write (Some meta) n buffer (d, s) m = Done (r, (d', s')) ->
    step (d, s, m) (Put (Buffer x) (load_bytes m buffer (Z.to_nat r))) (d', s', m)
| step_other d s m s' m' : step (d, s, m) Silent (d, s', m').

Inductive run : PipeDriver * sched * mem -> list event -> PipeDriver * sched * mem -> Prop :=
| run_nil w : run w [] w
| run_cons w1 ev w2 evs w3 : step w1 ev w2 -> run w2 evs w3 -> run w1 (ev :: evs) w3.

(** What one step does to the buffer at [a]: it moves bytes as a queue does. *)
Definition moves (d d' : PipeDriver) (ev : event) : Prop :=
  inv d' /\
  forall a b, Store.objs (buffers d) !! a = Some b -> ev ≠ Laid a ->
    (a ∈ FreePipeBuffers d -> a ∈ FreePipeBuffers d') /\
    exists b', Store.objs (buffers d') !! a = Some b' /\
      (a ∉ FreePipeBuffers d' -> contents b ++ put_to a ev = got_from a ev ++ contents b').

Lemma moves_silent d ev : inv d -> (forall a, put_to a ev = [] /\ got_from a ev = []) -> moves d d ev.
Proof.
  intros I He. split; [done|]. intros a b Hb _. split; [done|]. exists b. split; [done|]. intros _.
  destruct (He a) as [-> ->]. by rewrite app_nil_r.
Qed.

Lemma moves_put d x b b' ev e :
  inv d -> Store.objs (ends d) !! e = Some x -> Store.objs (buffers d) !! Buffer x = Some b -> buffer_ok b' ->
  ReadClosed b' = ReadClosed b -> WriteClosed b' = WriteClosed b ->
  (forall a, a ≠ Buffer x -> put_to a ev = [] /\ got_from a ev = []) ->
  contents b ++ put_to (Buffer x) ev = got_from (Buffer x) ev ++ contents b' ->
  moves d (put_buf (Buffer x) b' d) ev.
Proof.
  intros I He Hb B' Er Ew Hother Hown. destruct (inv_end _ I _ _ He) as [Hnf _]. split.
  - eapply put_buf_inv; [done|exact Hb|done|done|]. intros e' y Hy E. destruct (inv_end _ I e' y Hy) as (_ & b0 & Hb0 & Ho).
    rewrite E, Hb in Hb0. injection Hb0 as <-. destruct (End y); cbn in *; congruence.
  - intros a c Hc _. split; [done|]. cbn [put_buf with_buffers buffers Store.put Store.objs].
    destruct (decide (a = Buffer x)) as [->|Hne].
    + rewrite lookup_insert_eq. exists b'. split; [done|]. rewrite Hb in Hc. injection Hc as <-. done.
    + rewrite lookup_insert_ne by done. exists c. split; [done|]. intros _. destruct (Hother a Hne) as [-> ->]. by rewrite app_nil_r.
Qed.

Lemma close_moves d meta x b :
  inv d -> Store.objs (ends d) !! DriverData meta = Some x -> Store.objs (buffers d) !! Buffer x = Some b ->
  moves d (after_close meta d x b) Silent.
Proof.
  intros I He Hb. split; [by apply close_inv|]. intros a c Hc _. unfold after_close.
  destruct (half_closed_ok d x b I Hb) as [_ Hk].
  assert (Hcase : exists b', <[Buffer x := half_closed x b]> (Store.objs (buffers d)) !! a = Some b' /\ contents c ++ [] = [] ++ contents b').
  { destruct (decide (a = Buffer x)) as [->|Hne].
    - rewrite lookup_insert_eq. eexists. split; [done|]. rewrite Hb in Hc. injection Hc as <-. by rewrite Hk, app_nil_r.
    - rewrite lookup_insert_ne by done. exists c. by rewrite app_nil_r. }
  destruct Hcase as (b' & Hb' & Hcont). destruct (other_closed x b).
  - cbn. split; [intros; apply elem_of_app; by left|]. destruct (decide (a = Buffer x)) as [->|Hne].
    + rewrite lookup_insert_eq. eexists. split; [done|]. intros []. apply elem_of_app. right. by left.
    + rewrite lookup_insert_ne by done. exists b'. auto.
  - split; [done|]. exists b'. auto.
Qed.

Lemma step_moves d s m ev d' s' m' : inv d -> step (d, s, m) ev (d', s', m') -> moves d d' ev.
Proof.
  intros I H. remember (d, s, m) as w1. remember (d', s', m') as w2.
  destruct H as [d1 s1 m1 r w d2 a Hl Hr|d1 s1 m1 meta x d2 s2 He Hc|d1 s1 m1 meta x n buffer r d2 s2 m2 He Hn Hr
    |d1 s1 m1 meta x n buffer r d2 s2 He Hn Hr|d1 s1 m1 s2 m2]; simplify_eq.
  - destruct (lay_spec d r w d' I Hl) as (a' & Ha' & _ & _ & I' & _ & Hf & Hk). rewrite Hr in Ha'. injection Ha' as <-.
    split; [done|]. intros c b Hb Hne. split; [intros Hc; apply Hf; split; [done|congruence]|].
    exists b. split; [by apply Hk|]. intros _. cbn. by rewrite app_nil_r.
  - destruct (inv_end _ I _ _ He) as (_ & b & Hb & _). rewrite (close_equation meta d x b I He Hb) in Hc. done_inv Hc.
    injection Hc as <- <-. by apply close_moves.
  - destruct (inv_end _ I _ _ He) as (_ & b & Hb & _). pose proof (inv_buffer _ I _ _ Hb) as B.
    pose proof (fo_offset _ _ _ B) as Ho. unfold PIPE_BUFSZ in Ho.
    rewrite (read_equation meta d x b I He Hb n buffer s m Hn) in Hr. destruct (Z.eqb_spec (Offset b) 0) as [E0|E0].
    + destruct (WriteClosed b).
      * injection Hr as <- <- _ <-. apply moves_silent; [done|]. intros a. cbn. by case_decide.
      * done_inv Hr. injection Hr as <- <- _ <-. eapply moves_put; try done.
        -- intros a Hne. cbn. by rewrite decide_False.
        -- cbn. case_decide; by rewrite app_nil_r.
    + cbv zeta in Hr. done_inv Hr. injection Hr as <- <- _ <-.
      destruct (fifo_get _ _ _ (Z.min n (Offset b)) B ltac:(lia)) as (B' & Hc' & Hlen).
      set (k := Z.min n (Offset b)) in *.
      assert (Et : take (Z.to_nat k) (contents b) = take (Z.to_nat k) (Data b)).
      { unfold contents, queued. rewrite take_take, Nat.min_l; [done|]. unfold k. lia. }
      eapply moves_put; try done.
      * intros a Hne. cbn. by rewrite decide_False.
      * cbn [put_to got_from]. rewrite decide_True by done. rewrite app_nil_r.
        assert (El : load_bytes (store_bytes buffer (take (Z.to_nat k) (contents b)) m) buffer (Z.to_nat k) = take (Z.to_nat k) (contents b)).
        { rewrite Et. rewrite <- Hlen at 2. apply load_store_bytes, Forall_take, (fo_bytes _ _ _ B). }
        rewrite El. change (contents (with_writers _ (with_data ?x ?y b))) with (queued x y). rewrite Hc'. by rewrite take_drop.
  - destruct (inv_end _ I _ _ He) as (_ & b & Hb & _). pose proof (inv_buffer _ I _ _ Hb) as B.
    pose proof (fo_offset _ _ _ B) as Ho.
    destruct (decide (n = 0)) as [->|Hn0].
    { unfold write in Hr. rewrite (end_nonnull meta d x I He) in Hr. cbn in Hr. injection Hr as <- <- <-.
      apply moves_silent; [done|]. intros a. cbn. by case_decide. }
    rewrite (write_equation meta d x b I He Hb n buffer s m ltac:(lia)) in Hr. cbv zeta in Hr.
    set (k := Z.min n PIPE_BUFSZ) in *. assert (Hk : 0 < k <= PIPE_BUFSZ) by (unfold k, PIPE_BUFSZ; lia).
    destruct (Z.ltb_spec PIPE_BUFSZ (Offset b + k)) as [Hfull|Hfit].
    + done_inv Hr. injection Hr as <- <- _. eapply moves_put; try done.
      * intros a Hne. cbn. by rewrite decide_False.
      * cbn. case_decide; by rewrite app_nil_r.
    + done_inv Hr. injection Hr as <- <- _.
      destruct (fifo_put _ _ _ (load_bytes m buffer (Z.to_nat k)) B (load_bytes_byte _ _ _)
                  ltac:(rewrite length_load_bytes; lia)) as [B' Hc'].
      rewrite length_load_bytes, Z2Nat.id in B', Hc' by lia.
      eapply moves_put; try done.
      * intros a Hne. cbn. by rewrite decide_False.
      * cbn [put_to got_from]. rewrite decide_True by done. change (contents (with_readers _ (with_data ?x ?y b))) with (queued x y).
        by rewrite Hc'.
  - apply moves_silent; done.
Qed.

Lemma run_inv w evs w' : run w evs w' -> inv w.1.1 -> inv w'.1.1.
Proof.
  induction 1 as [w|[[d s] m] ev [[d2 s2] m2] evs w3 Hs _ IH]; intros I; [done|]. apply IH. cbn in *. by eapply step_moves.
Qed.

Lemma run_free w evs w' a b :
  run w evs w' -> inv w.1.1 -> Store.objs (buffers w.1.1) !! a = Some b -> Laid a ∉ evs ->
  a ∈ FreePipeBuffers w.1.1 -> a ∈ FreePipeBuffers w'.1.1.
Proof.
  intros H. revert b. induction H as [w|[[d s] m] ev [[d2 s2] m2] evs w3 Hs _ IH]; intros b I Hb Hl Hf; [done|]. cbn in *.
  rewrite not_elem_of_cons in Hl. destruct Hl as [Hl1 Hl2].
  destruct (step_moves _ _ _ _ _ _ _ I Hs) as [I2 Hm]. destruct (Hm a b Hb ltac:(congruence)) as (Hf2 & b2 & Hb2 & _). eauto.
Qed.

Lemma find_pid_sound s ps pid a p : find_pid s ps pid = Some a -> procs s !! a = Some p -> ProcessID p = pid.
Proof.
  unfold find_pid. destruct (list_find _ ps) as [[i c]|] eqn:E; [|done]. cbn. intros [= ->] Hp.
  apply list_find_Some in E as (_ & Hh & _). unfold has_pid in Hh. rewrite Hp in Hh. by apply Z.eqb_eq.
Qed.

Lemma woken_other ret s s' ps pids a p :
  woken ret (omap (find_pid s ps) pids) s s' -> procs s !! a = Some p -> ProcessID p ∉ pids -> procs s' !! a = Some p.
Proof.
  intros [_ H] Hp Hn. rewrite H, Hp, bool_decide_false; [done|]. intros (q & Hq & Hf)%list_elem_of_omap.
  by rewrite (find_pid_sound _ _ _ _ _ Hf Hp) in Hn.
Qed.

(** ** Claims *)

(** C24: Pipes are queues: whatever is laid, read, written and closed in between,
    the bytes a pipe held and those written to it are, in order, the bytes read
    from it and those it holds now, as long as its buffer is not given back. *)
Theorem pipe_is_fifo w evs w' a b b' :
  inv w.1.1 -> run w evs w' -> Laid a ∉ evs -> Store.objs (buffers w.1.1) !! a = Some b ->
  Store.objs (buffers w'.1.1) !! a = Some b' -> a ∉ FreePipeBuffers w'.1.1 ->
  contents b ++ concat (put_to a <$> evs) = concat (got_from a <$> evs) ++ contents b'.
Proof.
  intros I H. revert b I. induction H as [w|[[d s] m] ev [[d2 s2] m2] evs w3 Hs Hr IH]; intros b I Hl Hb Hb' Hf.
  { rewrite Hb in Hb'. injection Hb' as ->. cbn. by rewrite app_nil_r. }
  cbn [fst] in *. rewrite not_elem_of_cons in Hl. destruct Hl as [Hl1 Hl2].
  destruct (step_moves _ _ _ _ _ _ _ I Hs) as [I2 Hm]. destruct (Hm a b Hb ltac:(congruence)) as (_ & b2 & Hb2 & Hc).
  assert (Hf2 : a ∉ FreePipeBuffers d2) by (intros Hf2; apply Hf; by eapply (run_free (d2, s2, m2))).
  specialize (IH b2 I2 Hl2 Hb2 Hb' Hf). specialize (Hc Hf2). rewrite !fmap_cons. cbn [concat].
  by rewrite app_assoc, Hc, <- app_assoc, IH, app_assoc.
Qed.

(** In every state the driver reaches, two open ends of the same kind belong
    to different pipes, and a pipe laid now is empty, has both ends open and
    shares its buffer with no open end, though buffers are used again. *)
Theorem pipes_never_share_a_buffer k s m evs d' s' m' :
  0 < k -> run (empty_driver k, s, m) evs (d', s', m') ->
  (forall e1 e2 x1 x2, Store.objs (ends d') !! e1 = Some x1 -> Store.objs (ends d') !! e2 = Some x2 ->
     Buffer x1 = Buffer x2 -> End x1 = End x2 -> e1 = e2) /\
  forall r w d2, lay_pipe d' = (r, w, d2) -> exists a,
    Store.objs (ends d2) !! DriverData r = Some (mkEnd a READ) /\
    Store.objs (ends d2) !! DriverData w = Some (mkEnd a WRITE) /\
    Store.objs (buffers d2) !! a = Some new_buffer /\
    forall e x, Store.objs (ends d') !! e = Some x -> Buffer x ≠ a /\ Store.objs (ends d2) !! e = Some x.
Proof.
  intros Hk Hr. pose proof (run_inv _ _ _ Hr (empty_driver_inv k Hk)) as I. cbn in I. split.
  - intros e1 e2 [b1 k1] [b2 k2] H1 H2 Eb Ek. cbn in *. subst. by eapply inv_unique.
  - intros r w d2 Hl. destruct (lay_spec d' r w d2 I Hl) as (a & Hr' & Hw & Hn & _ & Ho & _). eauto 10.
Qed.

(** Calls on an open end always return. A read of an empty pipe says end of
    file or puts the caller on the waiting list; other reads, writes that fit and
    [close] run every process that waited for them, with the result that says
    retry or end of file, and clear the list. *)
Theorem pipe_calls_return_and_wake meta d s m ns ps x b n buffer c p0 :
  inv d -> Store.objs (ends d) !! DriverData meta = Some x -> Store.objs (buffers d) !! Buffer x = Some b ->
  queue_ok s ns ps -> current s = Done p0 -> 0 < n -> c = Z.min n PIPE_BUFSZ ->
  (exists r b' s', read (Some meta) n buffer (d, s) m =
       Done (r, (put_buf (Buffer x) b' d, s'), store_bytes buffer (take (Z.to_nat r) (contents b)) m) /\
     if Offset b =? 0 then
       s' = s /\ if WriteClosed b then r = -1 /\ b' = b
                 else r = -2 /\ PIDsWaitingOnWriteToRead b' = PIDsWaitingOnWriteToRead b ++ [ProcessID p0]
     else r = Z.min n (Offset b) /\ PIDsWaitingOnReadToWrite b' = [] /\
          woken RET_RETRY (omap (find_pid s ps) (PIDsWaitingOnReadToWrite b)) s s') /\
  (exists r b' s', write (Some meta) n buffer (d, s) m = Done (r, (put_buf (Buffer x) b' d, s')) /\
     if PIPE_BUFSZ <? Offset b + c then
       s' = s /\ r = -2 /\ PIDsWaitingOnReadToWrite b' = PIDsWaitingOnReadToWrite b ++ [ProcessID p0]
     else r = c /\ PIDsWaitingOnWriteToRead b' = [] /\
          woken RET_RETRY (omap (find_pid s ps) (PIDsWaitingOnWriteToRead b)) s s') /\
  (exists d' s', close (Some meta) (d, s) = Done (d', s') /\ Store.objs (ends d') !! DriverData meta = None /\
     woken RET_EOF (omap (find_pid s ps) (waiting_on_end x b)) s s').
Proof.
  intros I He Hb Q Hp Hn ->. split_and!.
  - rewrite (read_equation meta d x b I He Hb n buffer s m) by lia. destruct (Offset b =? 0).
    + destruct (WriteClosed b).
      * exists (-1), b, s. cbn [Z.to_nat take store_bytes]. unfold put_buf. rewrite Store.put_get by done. by destruct d.
      * rewrite Hp. cbn [mbind outcome_bind]. eexists (-2), _, _. split; [reflexivity|]. done.
    + cbv zeta. destruct (unblock_all_spec RET_RETRY (PIDsWaitingOnReadToWrite b) s ns ps Q) as (s' & -> & Hw).
      eexists _, _, s'. split; [reflexivity|]. done.
  - rewrite (write_equation meta d x b I He Hb n buffer s m Hn). cbv zeta. destruct (PIPE_BUFSZ <? _).
    + rewrite Hp. cbn [mbind outcome_bind]. eexists _, _, _. split; [reflexivity|]. done.
    + destruct (unblock_all_spec RET_RETRY (PIDsWaitingOnWriteToRead b) s ns ps Q) as (s' & -> & Hw).
      eexists _, _, s'. split; [reflexivity|]. done.
  - rewrite (close_equation meta d x b I He Hb s).
    destruct (unblock_all_spec RET_EOF (waiting_on_end x b) s ns ps Q) as (s' & -> & Hw).
    eexists _, s'. split; [reflexivity|]. split; [|done]. unfold after_close. destruct (other_closed x b); cbn; apply lookup_delete_eq.
Qed.

(** A process that blocked writing to a pipe whose read end is closed is
    never run again: no write to the pipe touches it, and closing the write end
    clears the waiting list it is on without running it. *)
Theorem abandoned_writer_is_forgotten meta d s m ns ps x b a p n buffer :
  inv d -> Store.objs (ends d) !! DriverData meta = Some x -> Store.objs (buffers d) !! Buffer x = Some b ->
  queue_ok s ns ps -> End x = WRITE -> ReadClosed b = true -> 0 < n ->
  procs s !! a = Some p -> ProcessID p ∈ PIDsWaitingOnReadToWrite b -> ProcessID p ∉ PIDsWaitingOnWriteToRead b ->
  (forall r d' s', write (Some meta) n buffer (d, s) m = Done (r, (d', s')) -> procs s' !! a = Some p) /\
  (exists d' s', close (Some meta) (d, s) = Done (d', s') /\ procs s' !! a = Some p /\
     Store.objs (buffers d') !! Buffer x = Some new_buffer).
Proof.
  intros I He Hb Q Hk Hrc Hn Hp Hin Hout. split.
  - intros r d' s'. rewrite (write_equation meta d x b I He Hb n buffer s m Hn). cbv zeta. destruct (PIPE_BUFSZ <? _).
    + intros H. done_inv H. by injection H as <- <- <-.
    + destruct (unblock_all_spec RET_RETRY (PIDsWaitingOnWriteToRead b) s ns ps Q) as (s1 & -> & Hw).
      intros [= <- <- <-]. by eapply woken_other.
  - rewrite (close_equation meta d x b I He Hb s).
    destruct (unblock_all_spec RET_EOF (waiting_on_end x b) s ns ps Q) as (s' & -> & Hw).
    eexists _, s'. split; [reflexivity|]. split.
    + eapply woken_other; [exact Hw|done|]. unfold waiting_on_end. by rewrite Hk.
    + unfold after_close, other_closed. rewrite Hk, Hrc. cbn. apply lookup_insert_eq.
Qed.

(** ** Witnesses *)

(** A pipe on a fresh driver, and a message of three bytes. *)
Definition laid : FileMetadata * FileMetadata * PipeDriver := lay_pipe (empty_driver 1).
Definition reader : FileMetadata := laid.1.1.
Definition writer : FileMetadata := laid.1.2.
Definition message : mem := store_bytes 4096 [104; 105; 33] (fun _ => 0).

Definition written : outcome (Z * (PipeDriver * sched)) := write (Some writer) 3 4096 (laid.2, trio) message.

Lemma laid_inv : inv laid.2.
Proof.
  destruct (lay_spec (empty_driver 1) reader writer laid.2 (empty_driver_inv 1 ltac:(lia)) eq_refl) as (? & _ & _ & _ & I & _). done.
Qed.

Lemma pipe_is_fifo_witness :
  exists b', contents new_buffer ++ [104; 105; 33] = [104; 105] ++ contents b'.
Proof.
  destruct written as [[r [d1 s1]]|] eqn:Ew; [|vm_compute in Ew; discriminate Ew].
  destruct (read (Some reader) 2 8192 (d1, s1) message) as [[[r2 [d2 s2]] m2]|] eqn:Er.
  2: { exfalso. vm_compute in Ew. injection Ew as <- <- <-. vm_compute in Er. discriminate Er. }
  assert (Hd : exists b', Store.objs (buffers d2) !! 1 = Some b' /\ FreePipeBuffers d2 = [] /\
                 load_bytes m2 8192 (Z.to_nat r2) = [104; 105] /\ load_bytes message 4096 (Z.to_nat r) = [104; 105; 33] /\
                 Store.objs (ends d1) !! DriverData reader = Some (mkEnd 1 READ)).
  { vm_compute in Ew. injection Ew as <- <- <-. vm_compute in Er. injection Er as <- <- <- <-. eexists. vm_compute. done. }
  destruct Hd as (b' & Hb' & Hf & E2 & E1 & He). exists b'.
  pose proof (pipe_is_fifo (laid.2, trio, message)
    [Put 1 (load_bytes message 4096 (Z.to_nat r)); Got 1 (load_bytes m2 8192 (Z.to_nat r2))] (d2, s2, m2) 1 new_buffer b' laid_inv) as H.
  rewrite E1, E2 in H. apply H.
  - eapply run_cons; [|eapply run_cons; [|apply run_nil]].
    + rewrite <- E1. apply (step_write laid.2 trio message writer (mkEnd 1 WRITE) 3 4096 r d1 s1); [reflexivity|lia|exact Ew].
    + rewrite <- E2. apply (step_read d1 s1 message reader (mkEnd 1 READ) 2 8192 r2 d2 s2 m2); [exact He|lia|exact Er].
  - intros Hin. rewrite !elem_of_cons in Hin. destruct Hin as [Hin|[Hin|Hin]]; [discriminate Hin..|]. by apply not_elem_of_nil in Hin.
  - reflexivity.
  - exact Hb'.
  - cbn. rewrite Hf. apply not_elem_of_nil.
Defined.

Lemma pipes_never_share_a_buffer_witness :
  exists a, Store.objs (ends (lay_pipe laid.2).2) !! DriverData (lay_pipe laid.2).1.1 = Some (mkEnd a READ) /\ a ≠ 1.
Proof.
  destruct (pipes_never_share_a_buffer 1 trio message [Laid 1] laid.2 trio message) as [_ H]; [lia| |].
  - eapply run_cons; [|apply run_nil]. by apply (step_lay _ _ _ reader writer).
  - destruct (lay_pipe laid.2) as [[r w] d2] eqn:E. destruct (H r w d2 eq_refl) as (a & Hr & _ & _ & Ho). exists a. split; [exact Hr|].
    intros ->. by destruct (Ho 1 (mkEnd 1 READ) eq_refl).
Defined.

Lemma pipe_calls_return_and_wake_witness :
  exists r b' s', read (Some reader) 2 8192 (laid.2, trio) message =
    Done (r, (put_buf 1 b' laid.2, s'), store_bytes 8192 (take (Z.to_nat r) (contents new_buffer)) message) /\
    r = -2 /\ PIDsWaitingOnWriteToRead b' = [0].
Proof.
  destruct (pipe_calls_return_and_wake reader laid.2 trio message [1; 2; 3] [512; 1024; 1536] (mkEnd 1 READ) new_buffer 2 8192 2
              new_process laid_inv eq_refl eq_refl trio_ok eq_refl ltac:(lia) eq_refl) as [(r & b' & s' & Hr & Hc) _].
  exists r, b', s'. split; [exact Hr|]. destruct Hc as (_ & -> & ->). done.
Defined.

(** A pipe whose reader is gone, full, with process 1 waiting to write. *)
Definition full_buffer : PipeBuffer := mkBuffer (replicate 512 7) 512 true false [1] [].
Definition abandoned : PipeDriver :=
  mkDriver [] [] (Store.mkStore {[ 1 := full_buffer ]} 2) (Store.mkStore {[ 2 := mkEnd 1 WRITE ]} 3) 1.

Lemma abandoned_inv : inv abandoned.
Proof.
  assert (B : buffer_ok full_buffer).
  { split; [done|cbn; unfold PIPE_BUFSZ; lia| |unfold PIPE_BUFSZ; lia]. apply Forall_replicate. unfold is_byte. lia. }
  split; cbn [abandoned PipeBuffers FreePipeBuffers buffers ends Store.objs].
  - split; cbn; [lia|]. intros a x [<- _]%lookup_singleton_Some. lia.
  - split; cbn; [lia|]. intros a x [<- _]%lookup_singleton_Some. lia.
  - done.
  - intros a b [<- <-]%lookup_singleton_Some. done.
  - intros e x [<- <-]%lookup_singleton_Some. split; [apply not_elem_of_nil|]. by exists full_buffer.
  - intros e1 e2 x [<- _]%lookup_singleton_Some [<- _]%lookup_singleton_Some. done.
  - split; [constructor|]. intros a Ha. by apply not_elem_of_nil in Ha.
Qed.

Lemma abandoned_writer_is_forgotten_witness :
  exists d' s', close (Some writer) (abandoned, trio) = Done (d', s') /\
    procs s' !! 1024 = Some (with_State SLEEPING (with_ProcessID 1 new_process)).
Proof.
  destruct (abandoned_writer_is_forgotten writer abandoned trio message [1; 2; 3] [512; 1024; 1536] (mkEnd 1 WRITE) full_buffer
              1024 (with_State SLEEPING (with_ProcessID 1 new_process)) 4 4096 abandoned_inv eq_refl eq_refl trio_ok eq_refl eq_refl ltac:(lia) eq_refl)
    as [_ (d' & s' & Hc & Hp & _)]; [by left|apply not_elem_of_nil|].
  exists d', s'. split; [exact Hc|exact Hp].
Defined.

End Pipe.
