(* ===== verification/InputDriver.v ===== *)
(** * Input buffers

    Models src/kernel/src/storage/filesystem_drivers/input.h and input.cpp.  An
    entry of [InputBuffers] keeps a weak pointer to the metadata it was opened
    with: [lock] yields null once that metadata is gone from the store. *)

From S2P Require Import Prelude PhysMem LinkedList SparseVector RingBuffer Event Process Scheduler FileMeta.

Module Input.

(** [PAGE_SIZE - sizeof(usz) - sizeof(std::vector<pid_t>)]: a vector is a
    pointer and two sizes. *)
Definition INPUT_BUFSZ : Z := PAGE_SIZE - 8 - 24.

Record InputBuffer := mkInput { Data : list Z; Offset : Z; PIDsWaiting : list Z }.

Definition new_input : InputBuffer := mkInput (replicate (Z.to_nat INPUT_BUFSZ) 0) 0 [].

Record NamedInputBuffer := mkNamed { Meta : Z; NName : string; NBuffer : Z }.

Record InputDriver := mkDriver {
  InputBuffers : list NamedInputBuffer;
  FreeInputBuffers : list Z;
  inputs : Store.store InputBuffer
}.

Definition with_inputs (x : Store.store InputBuffer) (d : InputDriver) : InputDriver :=
  mkDriver (InputBuffers d) (FreeInputBuffers d) x.

(** [weak_ptr::lock] *)
Definition lock (a : Z) (metas : Store.store FileMetadata) : Z :=
  match Store.objs metas !! a with
  | Some _ => a
  | None => 0
  end.

Definition close (file : option FileMetadata) (d : InputDriver) : InputDriver :=
  match file with
  | None => d
  | Some file => mkDriver (InputBuffers d) (FreeInputBuffers d ++ [DriverData file]) (inputs d)
  end.

Definition open (path : string) (d : InputDriver) (metas : Store.store FileMetadata) :
    Z * InputDriver * Store.store FileMetadata :=
  match list_find (fun e => NName e = path) (InputBuffers d) with
  | Some (_, e) => (lock (Meta e) metas, d, metas)
  | None =>
      let '(input, d) :=
        match last (FreeInputBuffers d) with
        | None => let '(a, ins) := Store.new new_input (inputs d) in (a, with_inputs ins d)
        | Some a => (a, mkDriver (InputBuffers d) (removelast (FreeInputBuffers d)) (inputs d))
        end in
      let '(f, metas) := Store.new (make_meta Regular path FileMeta.InputDriver INPUT_BUFSZ input) metas in
      (f, mkDriver (InputBuffers d ++ [mkNamed f path input]) (FreeInputBuffers d) (inputs d), metas)
  end.

Definition read (file : option FileMetadata) (bytes buffer : Z) (st : InputDriver * sched) (m : mem) :
    outcome (Z * (InputDriver * sched) * mem) :=
  let '(d, s) := st in
  match file with
  | None => Done (-1, (d, s), m)
  | Some file =>
      if DriverData file =? 0 then Done (-1, (d, s), m)
      else
        input ← Store.get (DriverData file) (inputs d);
        if Offset input =? 0 then
          process ← current s;
          let input := mkInput (Data input) (Offset input) (PIDsWaiting input ++ [ProcessID process]) in
          Done (-2, (with_inputs (Store.put (DriverData file) input (inputs d)) d, s), m)
        else
          let bytes := if Offset input <? bytes then Offset input else bytes in
          let m := store_bytes buffer (take (Z.to_nat bytes) (Data input)) m in
          let input := mkInput (shift_down bytes (Data input)) (Offset input -64 bytes) (PIDsWaiting input) in
          Done (bytes, (with_inputs (Store.put (DriverData file) input (inputs d)) d, s), m)
  end.

Definition write (file : option FileMetadata) (bytes buffer : Z) (st : InputDriver * sched) (m : mem) :
    outcome (Z * (InputDriver * sched)) :=
  let '(d, s) := st in
  match file with
  | None => Done (-1, (d, s))
  | Some file =>
      if DriverData file =? 0 then Done (-1, (d, s))
      else
        input ← Store.get (DriverData file) (inputs d);
        let bytes := if INPUT_BUFSZ <? Offset input +64 bytes then INPUT_BUFSZ -64 Offset input else bytes in
        let input := mkInput (put_bytes (Offset input) (load_bytes m buffer (Z.to_nat bytes)) (Data input))
                       (Offset input +64 bytes) (PIDsWaiting input) in
        s ← unblock_all RET_RETRY (PIDsWaiting input) s;
        Done (bytes, (with_inputs (Store.put (DriverData file) (mkInput (Data input) (Offset input) []) (inputs d)) d, s))
  end.

(** ** Lemmas *)

Definition input_ok (i : InputBuffer) : Prop := fifo_ok INPUT_BUFSZ (Data i) (Offset i).

Definition typed (i : InputBuffer) : list Z := queued (Data i) (Offset i).

Lemma new_input_ok : input_ok new_input.
Proof. apply fifo_zero. unfold INPUT_BUFSZ, PAGE_SIZE. lia. Qed.

Section Calls.
Context (file : FileMetadata) (d : InputDriver) (i : InputBuffer) (s : sched) (ns ps : list Z) (p0 : Process).
Hypothesis (Hi : Store.objs (inputs d) !! DriverData file = Some i) (Hok : input_ok i) (H0 : DriverData file ≠ 0)
  (Q : queue_ok s ns ps) (Hp : current s = Done p0).

Lemma input_write_spec bytes buffer m :
  0 <= bytes < 2 ^ 63 ->
  let k := Z.min bytes (INPUT_BUFSZ - Offset i) in
  exists i' s', write (Some file) bytes buffer (d, s) m =
      Done (k, (with_inputs (Store.put (DriverData file) i' (inputs d)) d, s')) /\
    input_ok i' /\ typed i' = typed i ++ load_bytes m buffer (Z.to_nat k) /\ PIDsWaiting i' = [] /\
    woken RET_RETRY (omap (find_pid s ps) (PIDsWaiting i)) s s'.
Proof.
  intros Hb k. pose proof (fo_offset _ _ _ Hok) as Ho. unfold INPUT_BUFSZ, PAGE_SIZE in *.
  unfold write, Store.get. rewrite (proj2 (Z.eqb_neq _ 0) H0), Hi. cbn [deref mbind outcome_bind].
  rewrite (wrap64_small (Offset i + bytes)) by (unfold is_u64; lia).
  rewrite (wrap64_small (INPUT_BUFSZ - Offset i)) by (unfold is_u64, INPUT_BUFSZ, PAGE_SIZE; lia).
  unfold INPUT_BUFSZ, PAGE_SIZE in *.
  assert (Ek : (if 4096 - 8 - 24 <? Offset i + bytes then 4096 - 8 - 24 - Offset i else bytes) = k).
  { unfold k. destruct (Z.ltb_spec (4096 - 8 - 24) (Offset i + bytes)); lia. }
  rewrite Ek. cbn [PIDsWaiting].
  destruct (unblock_all_spec RET_RETRY (PIDsWaiting i) s ns ps Q) as (s' & -> & Hw). cbn [mbind outcome_bind].
  destruct (fifo_put _ _ _ (load_bytes m buffer (Z.to_nat k)) Hok (load_bytes_byte _ _ _)) as [Hok' Hc].
  { rewrite length_load_bytes. unfold k, INPUT_BUFSZ, PAGE_SIZE. lia. }
  rewrite length_load_bytes, Z2Nat.id in Hok', Hc by (unfold k; lia).
  eexists _, s'. split; [reflexivity|]. done.
Qed.

Lemma input_read_spec bytes buffer m :
  0 <= bytes ->
  exists r i', read (Some file) bytes buffer (d, s) m =
      Done (r, (with_inputs (Store.put (DriverData file) i' (inputs d)) d, s),
            store_bytes buffer (take (Z.to_nat r) (typed i)) m) /\
    input_ok i' /\ typed i' = drop (Z.to_nat r) (typed i) /\
    (if Offset i =? 0 then r = -2 /\ PIDsWaiting i' = PIDsWaiting i ++ [ProcessID p0]
     else r = Z.min bytes (Offset i) /\ PIDsWaiting i' = PIDsWaiting i).
Proof.
  intros Hb. pose proof (fo_offset _ _ _ Hok) as Ho.
  unfold read, Store.get. rewrite (proj2 (Z.eqb_neq _ 0) H0), Hi. cbn [deref mbind outcome_bind].
  destruct (Z.eqb_spec (Offset i) 0) as [E0|E0].
  - rewrite Hp. cbn [mbind outcome_bind]. eexists (-2), _. split; [reflexivity|]. done.
  - set (k := if Offset i <? bytes then Offset i else bytes).
    assert (Ek : k = Z.min bytes (Offset i)) by (unfold k; destruct (Z.ltb_spec (Offset i) bytes); lia).
    destruct (fifo_get _ _ _ k Hok ltac:(lia)) as (Hok' & Hc & Hlen).
    assert (Et : take (Z.to_nat k) (typed i) = take (Z.to_nat k) (Data i)).
    { unfold typed, queued. rewrite take_take, Nat.min_l; [done|lia]. }
    eexists k, _. rewrite Et. split; [reflexivity|]. done.
Qed.

End Calls.
(** ** Claims *)

(** Closing an input file leaves its name taken and its buffer as it was: no
    later [open] of that name succeeds, and the next file opened under a new name
    gets the buffer with the bytes that were typed into the closed one. *)
Theorem closed_input_file_leaves_traces path other d metas f d1 metas1 meta i :
  list_find (fun e => NName e = path) (InputBuffers d) = None ->
  list_find (fun e => NName e = other) (InputBuffers d) = None -> other ≠ path -> Store.wf metas ->
  open path d metas = (f, d1, metas1) -> Store.objs metas1 !! f = Some meta ->
  Store.objs (inputs d1) !! DriverData meta = Some i ->
  let d2 := close (Some meta) d1 in
  let metas2 := Store.del f metas1 in
  open path d2 metas2 = (0, d2, metas2) /\
  exists f' d3 metas3 meta', open other d2 metas2 = (f', d3, metas3) /\ Store.objs metas3 !! f' = Some meta' /\
    Name meta' = other /\ DriverData meta' = DriverData meta /\ Store.objs (inputs d3) !! DriverData meta' = Some i.
Proof.
  intros Hp Ho Hne W. unfold open at 1. rewrite Hp.
  set (st := match last (FreeInputBuffers d) with None => _ | Some a => _ end).
  assert (Hst : InputBuffers st.2 = InputBuffers d) by (unfold st; by destruct (last _)).
  destruct st as [a d0]. cbn [snd] in Hst. cbn [Store.new]. intros [= <- <- <-]. cbn [Store.objs]. rewrite lookup_insert_eq.
  intros [= <-] Hi. cbn [make_meta DriverData inputs close InputBuffers FreeInputBuffers] in *. cbv zeta.
  set (d2 := mkDriver _ (_ ++ [a]) _). set (metas2 := Store.del _ _).
  assert (Hf : list_find (fun e => NName e = path) (InputBuffers d ++ [mkNamed (Store.brk metas) path a])
               = Some (length (InputBuffers d), mkNamed (Store.brk metas) path a)).
  { apply list_find_app_Some. right. split_and!; [lia|done|]. rewrite Nat.sub_diag. cbn. by destruct (decide (path = path)). }
  assert (Hfo : list_find (fun e => NName e = other) (InputBuffers d ++ [mkNamed (Store.brk metas) path a]) = None).
  { apply list_find_None, Forall_app. split; [apply list_find_None in Ho; exact Ho|]. constructor; [cbn; congruence|constructor]. }
  split.
  - unfold open. cbn [d2 InputBuffers]. rewrite Hst, Hf. cbn [Meta]. unfold lock. cbn. by rewrite lookup_delete_eq.
  - unfold open. cbn [d2 InputBuffers FreeInputBuffers]. rewrite Hst, Hfo, last_snoc. cbn [Store.new].
    eexists _, _, _, _. split; [reflexivity|]. cbn [Store.objs]. rewrite lookup_insert_eq. split_and!; done.
Qed.

Definition no_metas : Store.store FileMetadata := Store.mkStore ∅ 1.
Definition fresh_input : InputDriver := mkDriver [] [] (Store.mkStore ∅ 1).

Lemma closed_input_file_leaves_traces_witness :
  let '(f, d1, metas1) := open "kbd" fresh_input no_metas in
  let meta := make_meta Regular "kbd" FileMeta.InputDriver INPUT_BUFSZ 1 in
  open "kbd" (close (Some meta) d1) (Store.del f metas1) = (0, close (Some meta) d1, Store.del f metas1).
Proof.
  apply (closed_input_file_leaves_traces "kbd" "mouse" fresh_input no_metas 1 _ _ _ new_input); try reflexivity; [done|].
  split; [cbn; lia|]. intros a x Hx. cbn in Hx. by rewrite lookup_empty in Hx.
Defined.

(** The input buffer is a queue: a write appends the bytes that fit and runs
    every waiting process with the value that says retry, and a read takes the
    oldest bytes, or waits when there are none. *)
Theorem input_buffer_is_a_queue file d i s ns ps p0 bytes buffer m n dest :
  Store.objs (inputs d) !! DriverData file = Some i -> input_ok i -> DriverData file ≠ 0 -> queue_ok s ns ps ->
  current s = Done p0 -> 0 < bytes < 2 ^ 63 -> 0 <= n -> Offset i < INPUT_BUFSZ ->
  let k := Z.min bytes (INPUT_BUFSZ - Offset i) in
  exists i1 s1, write (Some file) bytes buffer (d, s) m =
      Done (k, (with_inputs (Store.put (DriverData file) i1 (inputs d)) d, s1)) /\
    woken RET_RETRY (omap (find_pid s ps) (PIDsWaiting i)) s s1 /\
  exists i2, read (Some file) n dest (with_inputs (Store.put (DriverData file) i1 (inputs d)) d, s1) m =
      Done (Z.min n (Offset i + k), (with_inputs (Store.put (DriverData file) i2 (inputs d)) d, s1),
            store_bytes dest (take (Z.to_nat (Z.min n (Offset i + k))) (typed i ++ load_bytes m buffer (Z.to_nat k))) m) /\
    typed i2 = drop (Z.to_nat (Z.min n (Offset i + k))) (typed i ++ load_bytes m buffer (Z.to_nat k)).
Proof.
  intros Hi Hok H0 Q Hp Hb Hn Hroom k.
  destruct (input_write_spec file d i s ns ps Hi Hok H0 Q bytes buffer m ltac:(lia)) as (i1 & s1 & Hw & Hok1 & Ht1 & Hpw & Hwk).
  fold k in Hw, Ht1. exists i1, s1. split_and!; [done|done|].
  set (d1 := with_inputs (Store.put (DriverData file) i1 (inputs d)) d).
  assert (Hi1 : Store.objs (inputs d1) !! DriverData file = Some i1) by apply lookup_insert_eq.
  pose proof (fo_offset _ _ _ Hok) as Ho. pose proof (fo_offset _ _ _ Hok1) as Ho1.
  assert (Hlen : Offset i1 = Offset i + k).
  { assert (E : length (typed i1) = length (typed i ++ load_bytes m buffer (Z.to_nat k))) by (by rewrite Ht1).
    unfold typed, queued in E. rewrite length_app, length_load_bytes, !length_take in E.
    pose proof (fo_length _ _ _ Hok). pose proof (fo_length _ _ _ Hok1). unfold k in *. lia. }
  destruct (woken_current _ _ _ _ _ Hwk Hp) as (p1 & Hc1 & _).
  destruct (input_read_spec file d1 i1 s1 p1 Hi1 Hok1 H0 Hc1 n dest m Hn) as (r & i2 & Hr & _ & Ht2 & Hcase).
  assert (Hnz : (Offset i1 =? 0) = false) by (apply Z.eqb_neq; unfold k in *; lia). rewrite Hnz, Hlen in Hcase.
  destruct Hcase as [-> _]. exists i2. rewrite Ht1 in Ht2, Hr. split; [|done]. rewrite Hr. cbn [d1 with_inputs inputs InputBuffers FreeInputBuffers].
  unfold Store.put. cbn [Store.objs Store.brk]. by rewrite insert_insert_eq.
Qed.

Lemma input_buffer_is_a_queue_witness :
  let d := mkDriver [] [] (Store.mkStore {[ 1 := new_input ]} 2) in
  let file := make_meta Regular "kbd" FileMeta.InputDriver INPUT_BUFSZ 1 in
  let m := store_bytes 4096 [104; 105] (fun _ => 0) in
  exists i1 s1, write (Some file) 2 4096 (d, trio) m = Done (2, (with_inputs (Store.put 1 i1 (inputs d)) d, s1)).
Proof.
  cbv zeta.
  destruct (input_buffer_is_a_queue (make_meta Regular "kbd" FileMeta.InputDriver INPUT_BUFSZ 1)
    (mkDriver [] [] (Store.mkStore {[ 1 := new_input ]} 2)) new_input trio [1; 2; 3] [512; 1024; 1536] new_process 2 4096
    (store_bytes 4096 [104; 105] (fun _ => 0)) 5 8192 ltac:(apply lookup_singleton_eq) new_input_ok ltac:(done) trio_ok eq_refl ltac:(lia) ltac:(lia) ltac:(done))
    as (i1 & s1 & Hw & _).
  exists i1, s1. exact Hw.
Defined.

End Input.
