(* ===== verification/SocketDriver.v ===== *)
(** * Sockets

    Models src/kernel/src/storage/filesystem_drivers/socket.h and socket.cpp:
    the two queues of a connection, socket objects by address, and the table of
    bound addresses.  [DriverData] of a file's metadata is the address of its
    [SocketData]; [Data] of that is the address of the [SocketBuffers]. *)

From S2P Require Import Prelude PhysMem LinkedList SparseVector RingBuffer Event Process Scheduler FileMeta.

Module Socket.

(** ** FIFO buffers *)

Record FIFOBuffer := mkFifo {
  Bytes : list Z;
  Offset : Z;
  PIDsWaitingUntilRead : list Z;
  PIDsWaitingUntilWrite : list Z
}.

Section Fifo.
(** The template parameter. *)
Context (N : Z).

Definition new_fifo : FIFOBuffer := mkFifo (replicate (Z.to_nat N) 0) 0 [] [].

Definition clear_fifo (b : FIFOBuffer) : FIFOBuffer := mkFifo (replicate (length (Bytes b)) 0) 0 [] [].

Definition fifo_read (pid byteCount buffer : Z) (b : FIFOBuffer) (s : sched) (m : mem) :
    outcome (Z * FIFOBuffer * sched * mem) :=
  if Offset b =? 0 then
    Done (-2, mkFifo (Bytes b) (Offset b) (PIDsWaitingUntilRead b) (PIDsWaitingUntilWrite b ++ [pid]), s, m)
  else
    let byteCount := if Offset b <? byteCount then Offset b else byteCount in
    let m := store_bytes buffer (take (Z.to_nat byteCount) (Bytes b)) m in
    let b := mkFifo (shift_down byteCount (Bytes b)) (Offset b -64 byteCount) (PIDsWaitingUntilRead b) (PIDsWaitingUntilWrite b) in
    s ← unblock_all RET_RETRY (PIDsWaitingUntilRead b) s;
    Done (byteCount, mkFifo (Bytes b) (Offset b) [] (PIDsWaitingUntilWrite b), s, m).

Definition fifo_write (pid byteCount buffer : Z) (b : FIFOBuffer) (s : sched) (m : mem) :
    outcome (Z * FIFOBuffer * sched) :=
  if N <? Offset b +64 byteCount then
    Done (-2, mkFifo (Bytes b) (Offset b) (PIDsWaitingUntilRead b ++ [pid]) (PIDsWaitingUntilWrite b), s)
  else
    let b := mkFifo (put_bytes (Offset b) (load_bytes m buffer (Z.to_nat byteCount)) (Bytes b)) (Offset b +64 byteCount)
               (PIDsWaitingUntilRead b) (PIDsWaitingUntilWrite b) in
    s ← unblock_all RET_RETRY (PIDsWaitingUntilWrite b) s;
    Done (byteCount, mkFifo (Bytes b) (Offset b) (PIDsWaitingUntilRead b) [], s).

End Fifo.

(** ** Sockets *)

Definition SOCKET_TX_BUFFER_SIZE : Z := PAGE_SIZE / 2.
Definition SOCKET_RX_BUFFER_SIZE : Z := PAGE_SIZE / 2 - 8.

Record SocketBuffers := mkBuffers { TXBuffer : FIFOBuffer; RXBuffer : FIFOBuffer; RefCount : Z }.

Definition new_buffers : SocketBuffers := mkBuffers (new_fifo SOCKET_TX_BUFFER_SIZE) (new_fifo SOCKET_RX_BUFFER_SIZE) 1.

Definition clear_buffers (b : SocketBuffers) : SocketBuffers :=
  mkBuffers (clear_fifo (TXBuffer b)) (clear_fifo (RXBuffer b)) (RefCount b).

Inductive SocketType := LENSOR.

Inductive AddressType := UNBOUND | LENSOR16.
#[export] Instance AddressType_eq_dec : EqDecision AddressType.
Proof. solve_decision. Defined.

Record SocketAddress := mkAddress { AType : AddressType; AData : list Z }.

(** [SocketAddress::operator==] *)
Definition address_eq (a b : SocketAddress) : bool :=
  if decide (AType a = AType b) then
    match AType a with
    | UNBOUND => true
    | LENSOR16 => bool_decide (take 16 (AData a) = take 16 (AData b))
    end
  else false.

Record SocketConnection := mkConnection { CAddress : SocketAddress; CSocket : Z; CPID : Z }.

Inductive ClientServerKind := CLIENT | SERVER.

Record SocketData := mkSocket {
  SType : SocketType;
  SPID : Z;
  SFD : Z;
  Address : SocketAddress;
  WaitingOnConnection : bool;
  ConnectionQueue : list SocketConnection;
  ClientServer : ClientServerKind;
  SData : Z
}.

Definition new_socket : SocketData :=
  mkSocket LENSOR (2 ^ 64 - 1) FD_Invalid (mkAddress UNBOUND (replicate 16 0)) false [] CLIENT 0.

Definition with_SPID (x : Z) (d : SocketData) : SocketData :=
  mkSocket (SType d) x (SFD d) (Address d) (WaitingOnConnection d) (ConnectionQueue d) (ClientServer d) (SData d).
Definition with_SFD (x : Z) (d : SocketData) : SocketData :=
  mkSocket (SType d) (SPID d) x (Address d) (WaitingOnConnection d) (ConnectionQueue d) (ClientServer d) (SData d).
Definition with_Address (x : SocketAddress) (d : SocketData) : SocketData :=
  mkSocket (SType d) (SPID d) (SFD d) x (WaitingOnConnection d) (ConnectionQueue d) (ClientServer d) (SData d).
Definition with_Waiting (x : bool) (d : SocketData) : SocketData :=
  mkSocket (SType d) (SPID d) (SFD d) (Address d) x (ConnectionQueue d) (ClientServer d) (SData d).
Definition with_Queue (x : list SocketConnection) (d : SocketData) : SocketData :=
  mkSocket (SType d) (SPID d) (SFD d) (Address d) (WaitingOnConnection d) x (ClientServer d) (SData d).
Definition with_ClientServer (x : ClientServerKind) (d : SocketData) : SocketData :=
  mkSocket (SType d) (SPID d) (SFD d) (Address d) (WaitingOnConnection d) (ConnectionQueue d) x (SData d).
Definition with_SData (x : Z) (d : SocketData) : SocketData :=
  mkSocket (SType d) (SPID d) (SFD d) (Address d) (WaitingOnConnection d) (ConnectionQueue d) (ClientServer d) x.

Record SocketBinding := mkBinding { BAddress : SocketAddress; BData : Z }.

Record SocketDriver := mkDriver {
  Bindings : list SocketBinding;
  datas : Store.store SocketData;
  sbuffers : Store.store SocketBuffers
}.

Definition with_datas (x : Store.store SocketData) (d : SocketDriver) : SocketDriver := mkDriver (Bindings d) x (sbuffers d).
Definition with_sbuffers (x : Store.store SocketBuffers) (d : SocketDriver) : SocketDriver := mkDriver (Bindings d) (datas d) x.
Definition with_Bindings (x : list SocketBinding) (d : SocketDriver) : SocketDriver := mkDriver x (datas d) (sbuffers d).

(** *** Bindings *)

Definition bind (sock : Z) (address : SocketAddress) (d : SocketDriver) : outcome (bool * SocketDriver) :=
  if existsb (fun b => address_eq (BAddress b) address) (Bindings d) then Done (false, d)
  else
    data ← Store.get sock (datas d);
    let d := with_datas (Store.put sock (with_Address address data) (datas d)) d in
    Done (true, with_Bindings (Bindings d ++ [mkBinding address sock]) d).

Definition unbind (addr : SocketAddress) (d : SocketDriver) : bool * SocketDriver :=
  let kept := List.filter (fun b => negb (address_eq (BAddress b) addr)) (Bindings d) in
  (negb (length kept =? length (Bindings d))%nat, with_Bindings kept d).

Definition get_bound_socket (address : SocketAddress) (d : SocketDriver) : Z :=
  match List.find (fun b => address_eq (BAddress b) address) (Bindings d) with
  | Some b => BData b
  | None => 0
  end.

(** *** Driver operations *)

Definition open (path : string) (d : SocketDriver) (s : sched) : outcome (FileMetadata * SocketDriver) :=
  process ← current s;
  let '(data, ds) := Store.new (with_SPID (ProcessID process) new_socket) (datas d) in
  Done (make_meta Regular "new_socket" SocketsDriver SOCKET_RX_BUFFER_SIZE data, with_datas ds d).

Definition socket (domain : SocketType) (type protocol : Z) (d : SocketDriver) (s : sched) :
    outcome (option FileMetadata * SocketDriver) :=
  match domain with
  | LENSOR =>
      '(f, d) ← open "" d s;
      data ← Store.get (DriverData f) (datas d);
      let '(b, bs) := Store.new new_buffers (sbuffers d) in
      let d := with_sbuffers bs d in
      Done (Some f, with_datas (Store.put (DriverData f) (with_SData b data) (datas d)) d)
  end.

Definition close (meta : option FileMetadata) (d : SocketDriver) : outcome SocketDriver :=
  match meta with
  | None => Done d
  | Some meta =>
      if DriverData meta =? 0 then Done d
      else
        data ← Store.get (DriverData meta) (datas d);
        d ← match SType data with
            | LENSOR =>
                if SData data =? 0 then Done d
                else
                  let buffers := SData data in
                  let d := with_datas (Store.put (DriverData meta) (with_SData 0 data) (datas d)) d in
                  b ← Store.get buffers (sbuffers d);
                  let b := mkBuffers (TXBuffer b) (RXBuffer b) (RefCount b -64 1) in
                  let d := with_sbuffers (Store.put buffers b (sbuffers d)) d in
                  if RefCount b =? 0 then
                    let d := if decide (AType (Address data) = UNBOUND) then d else (unbind (Address data) d).2 in
                    Done (with_sbuffers (Store.del buffers (sbuffers d)) d)
                  else Done d
            end;
        Done (with_datas (Store.del (DriverData meta) (datas d)) d)
  end.

(** A call of [fifo_read] or [fifo_write] on one of the buffers of a socket. *)
Definition read (meta : option FileMetadata) (byteCount buffer : Z) (st : SocketDriver * sched) (m : mem) :
    outcome (Z * (SocketDriver * sched) * mem) :=
  let '(d, s) := st in
  match meta with
  | None => Done (-1, (d, s), m)
  | Some meta =>
      if DriverData meta =? 0 then Done (-1, (d, s), m)
      else
        data ← Store.get (DriverData meta) (datas d);
        match SType data with
        | LENSOR =>
            if SData data =? 0 then Done (-1, (d, s), m)
            else
              process ← current s;
              bufs ← Store.get (SData data) (sbuffers d);
              match ClientServer data with
              | CLIENT =>
                  '(r, b, s, m) ← fifo_read (ProcessID process) byteCount buffer (TXBuffer bufs) s m;
                  Done (r, (with_sbuffers (Store.put (SData data) (mkBuffers b (RXBuffer bufs) (RefCount bufs)) (sbuffers d)) d, s), m)
              | SERVER =>
                  '(r, b, s, m) ← fifo_read (ProcessID process) byteCount buffer (RXBuffer bufs) s m;
                  Done (r, (with_sbuffers (Store.put (SData data) (mkBuffers (TXBuffer bufs) b (RefCount bufs)) (sbuffers d)) d, s), m)
              end
        end
  end.

Definition write (meta : option FileMetadata) (byteCount buffer : Z) (st : SocketDriver * sched) (m : mem) :
    outcome (Z * (SocketDriver * sched)) :=
  let '(d, s) := st in
  match meta with
  | None => Done (-1, (d, s))
  | Some meta =>
      if DriverData meta =? 0 then Done (-1, (d, s))
      else
        data ← Store.get (DriverData meta) (datas d);
        match SType data with
        | LENSOR =>
            if SData data =? 0 then Done (-1, (d, s))
            else
              process ← current s;
              bufs ← Store.get (SData data) (sbuffers d);
              match ClientServer data with
              | CLIENT =>
                  '(r, b, s) ← fifo_write SOCKET_RX_BUFFER_SIZE (ProcessID process) byteCount buffer (RXBuffer bufs) s m;
                  Done (r, (with_sbuffers (Store.put (SData data) (mkBuffers (TXBuffer bufs) b (RefCount bufs)) (sbuffers d)) d, s))
              | SERVER =>
                  '(r, b, s) ← fifo_write SOCKET_TX_BUFFER_SIZE (ProcessID process) byteCount buffer (TXBuffer bufs) s m;
                  Done (r, (with_sbuffers (Store.put (SData data) (mkBuffers b (RXBuffer bufs) (RefCount bufs)) (sbuffers d)) d, s))
              end
        end
  end.

(** ** The queues *)

Definition fifo_wf (N : Z) (b : FIFOBuffer) : Prop := fifo_ok N (Bytes b) (Offset b).

Definition pending (b : FIFOBuffer) : list Z := queued (Bytes b) (Offset b).

Lemma pending_length N b : fifo_wf N b -> Z.of_nat (length (pending b)) = Offset b.
Proof. intros [Hl Ho _ _]. unfold pending, queued. rewrite length_take. lia. Qed.

Lemma new_fifo_wf N : 0 <= N < 2 ^ 63 -> fifo_wf N (new_fifo N).
Proof. apply fifo_zero. Qed.

Section FifoSpec.
Context (N : Z) (b : FIFOBuffer) (s : sched) (ns ps : list Z).
Hypothesis (Hwf : fifo_wf N b) (Q : queue_ok s ns ps).

Lemma fifo_read_spec pid n buffer m :
  0 <= n ->
  exists r b' s', fifo_read pid n buffer b s m = Done (r, b', s', store_bytes buffer (take (Z.to_nat r) (pending b)) m) /\
    fifo_wf N b' /\ pending b' = drop (Z.to_nat r) (pending b) /\
    if Offset b =? 0 then r = -2 /\ s' = s /\ PIDsWaitingUntilWrite b' = PIDsWaitingUntilWrite b ++ [pid]
    else r = Z.min n (Offset b) /\ PIDsWaitingUntilRead b' = [] /\
         woken RET_RETRY (omap (find_pid s ps) (PIDsWaitingUntilRead b)) s s'.
Proof.
  intros Hn. pose proof (fo_offset _ _ _ Hwf) as Ho. unfold fifo_read. destruct (Z.eqb_spec (Offset b) 0) as [E0|E0].
  - eexists (-2), _, s. split; [reflexivity|]. done.
  - set (k := if Offset b <? n then Offset b else n).
    assert (Ek : k = Z.min n (Offset b)) by (unfold k; destruct (Z.ltb_spec (Offset b) n); lia).
    destruct (fifo_get _ _ _ k Hwf ltac:(lia)) as (Hok' & Hc & _).
    assert (Et : take (Z.to_nat k) (pending b) = take (Z.to_nat k) (Bytes b)).
    { unfold pending, queued. rewrite take_take, Nat.min_l; [done|lia]. }
    cbn [PIDsWaitingUntilRead].
    destruct (unblock_all_spec RET_RETRY (PIDsWaitingUntilRead b) s ns ps Q) as (s' & -> & Hw). cbn [mbind outcome_bind].
    eexists k, _, s'. rewrite Et. split; [reflexivity|]. done.
Qed.

Lemma fifo_write_spec pid n buffer m :
  0 <= n < 2 ^ 63 ->
  exists r b' s', fifo_write N pid n buffer b s m = Done (r, b', s') /\ fifo_wf N b' /\
    if N <? Offset b + n then
      r = -2 /\ s' = s /\ pending b' = pending b /\ PIDsWaitingUntilRead b' = PIDsWaitingUntilRead b ++ [pid]
    else r = n /\ pending b' = pending b ++ load_bytes m buffer (Z.to_nat n) /\ PIDsWaitingUntilWrite b' = [] /\
         woken RET_RETRY (omap (find_pid s ps) (PIDsWaitingUntilWrite b)) s s'.
Proof.
  intros Hn. pose proof (fo_offset _ _ _ Hwf) as Ho. pose proof (fo_size _ _ _ Hwf) as Hs. unfold fifo_write.
  rewrite (wrap64_small (Offset b + n)) by (unfold is_u64; lia). destruct (Z.ltb_spec N (Offset b + n)) as [Hf|Hf].
  - eexists (-2), _, s. split; [reflexivity|]. done.
  - cbn [PIDsWaitingUntilWrite].
    destruct (unblock_all_spec RET_RETRY (PIDsWaitingUntilWrite b) s ns ps Q) as (s' & -> & Hw). cbn [mbind outcome_bind].
    destruct (fifo_put _ _ _ (load_bytes m buffer (Z.to_nat n)) Hwf (load_bytes_byte _ _ _)) as [Hok' Hc].
    { rewrite length_load_bytes. lia. }
    rewrite length_load_bytes, Z2Nat.id in Hok', Hc by lia. unfold wrap64 in *.
    rewrite Z.mod_small in Hok', Hc by lia.
    eexists n, _, s'. split; [reflexivity|]. done.
Qed.

End FifoSpec.

(** ** Claims *)

Section Ends.
Context (meta : FileMetadata) (d : SocketDriver) (data : SocketData) (bufs : SocketBuffers) (s : sched) (ns ps : list Z) (p0 : Process).
Hypothesis (Hd : Store.objs (datas d) !! DriverData meta = Some data) (H0 : DriverData meta ≠ 0)
  (Hb : Store.objs (sbuffers d) !! SData data = Some bufs) (Hb0 : SData data ≠ 0)
  (Htx : fifo_wf SOCKET_TX_BUFFER_SIZE (TXBuffer bufs)) (Hrx : fifo_wf SOCKET_RX_BUFFER_SIZE (RXBuffer bufs))
  (Q : queue_ok s ns ps) (Hp : current s = Done p0).

(** The queue this end reads from and the one it writes to. *)
Definition inbox : FIFOBuffer := match ClientServer data with CLIENT => TXBuffer bufs | SERVER => RXBuffer bufs end.
Definition outbox : FIFOBuffer := match ClientServer data with CLIENT => RXBuffer bufs | SERVER => TXBuffer bufs end.
Definition outbox_size : Z := match ClientServer data with CLIENT => SOCKET_RX_BUFFER_SIZE | SERVER => SOCKET_TX_BUFFER_SIZE end.

Definition with_inbox (b : FIFOBuffer) : SocketDriver :=
  with_sbuffers (Store.put (SData data)
    (match ClientServer data with CLIENT => mkBuffers b (RXBuffer bufs) (RefCount bufs) | SERVER => mkBuffers (TXBuffer bufs) b (RefCount bufs) end)
    (sbuffers d)) d.
Definition with_outbox (b : FIFOBuffer) : SocketDriver :=
  with_sbuffers (Store.put (SData data)
    (match ClientServer data with CLIENT => mkBuffers (TXBuffer bufs) b (RefCount bufs) | SERVER => mkBuffers b (RXBuffer bufs) (RefCount bufs) end)
    (sbuffers d)) d.

Lemma socket_read_spec n buffer m :
  0 <= n ->
  exists r b' s', read (Some meta) n buffer (d, s) m =
      Done (r, (with_inbox b', s'), store_bytes buffer (take (Z.to_nat r) (pending inbox)) m) /\
    pending b' = drop (Z.to_nat r) (pending inbox) /\
    if Offset inbox =? 0 then r = -2 /\ s' = s /\ PIDsWaitingUntilWrite b' = PIDsWaitingUntilWrite inbox ++ [ProcessID p0]
    else r = Z.min n (Offset inbox) /\ woken RET_RETRY (omap (find_pid s ps) (PIDsWaitingUntilRead inbox)) s s'.
Proof.
  intros Hn. unfold read, Store.get. rewrite (proj2 (Z.eqb_neq _ 0) H0), Hd. cbn [deref mbind outcome_bind].
  destruct (SType data). rewrite (proj2 (Z.eqb_neq _ 0) Hb0), Hp. cbn [deref mbind outcome_bind]. rewrite Hb. cbn [deref mbind outcome_bind].
  unfold inbox, with_inbox. destruct (ClientServer data).
  - destruct (fifo_read_spec _ _ s ns ps Htx Q (ProcessID p0) n buffer m Hn) as (r & b' & s' & -> & _ & Hc & Hcase).
    cbn [mbind outcome_bind]. exists r, b', s'. split_and!; [done|done|]. destruct (Offset _ =? 0); tauto.
  - destruct (fifo_read_spec _ _ s ns ps Hrx Q (ProcessID p0) n buffer m Hn) as (r & b' & s' & -> & _ & Hc & Hcase).
    cbn [mbind outcome_bind]. exists r, b', s'. split_and!; [done|done|]. destruct (Offset _ =? 0); tauto.
Qed.

Lemma socket_write_spec n buffer m :
  0 <= n < 2 ^ 63 ->
  exists r b' s', write (Some meta) n buffer (d, s) m = Done (r, (with_outbox b', s')) /\ fifo_wf outbox_size b' /\
    if outbox_size <? Offset outbox + n then
      r = -2 /\ s' = s /\ pending b' = pending outbox /\ PIDsWaitingUntilRead b' = PIDsWaitingUntilRead outbox ++ [ProcessID p0]
    else r = n /\ pending b' = pending outbox ++ load_bytes m buffer (Z.to_nat n) /\
         woken RET_RETRY (omap (find_pid s ps) (PIDsWaitingUntilWrite outbox)) s s'.
Proof.
  intros Hn. unfold write, Store.get. rewrite (proj2 (Z.eqb_neq _ 0) H0), Hd. cbn [deref mbind outcome_bind].
  destruct (SType data). rewrite (proj2 (Z.eqb_neq _ 0) Hb0), Hp. cbn [deref mbind outcome_bind]. rewrite Hb. cbn [deref mbind outcome_bind].
  unfold outbox, with_outbox, outbox_size. destruct (ClientServer data).
  - destruct (fifo_write_spec _ _ s ns ps Hrx Q (ProcessID p0) n buffer m Hn) as (r & b' & s' & -> & Hwf' & Hcase).
    cbn [mbind outcome_bind]. exists r, b', s'. split_and!; [done|done|]. destruct (_ <? _); tauto.
  - destruct (fifo_write_spec _ _ s ns ps Htx Q (ProcessID p0) n buffer m Hn) as (r & b' & s' & -> & Hwf' & Hcase).
    cbn [mbind outcome_bind]. exists r, b', s'. split_and!; [done|done|]. destruct (_ <? _); tauto.
Qed.

End Ends.

(** C25: The two ends of a connection are joined crosswise: bytes that one end
    writes, when they fit, are appended to what the other end reads, which it
    gets in order; a process waiting for them is run and told to retry. *)
Theorem socket_delivers_in_order m1 m2 d data1 data2 bufs s ns ps p0 n buffer k dest m :
  Store.objs (datas d) !! DriverData m1 = Some data1 -> Store.objs (datas d) !! DriverData m2 = Some data2 ->
  DriverData m1 ≠ 0 -> DriverData m2 ≠ 0 -> SData data1 = SData data2 -> SData data1 ≠ 0 ->
  Store.objs (sbuffers d) !! SData data1 = Some bufs -> ClientServer data1 ≠ ClientServer data2 ->
  fifo_wf SOCKET_TX_BUFFER_SIZE (TXBuffer bufs) -> fifo_wf SOCKET_RX_BUFFER_SIZE (RXBuffer bufs) ->
  queue_ok s ns ps -> current s = Done p0 -> 0 < n -> 0 <= k ->
  Offset (inbox data2 bufs) + n <= outbox_size data1 ->
  exists d1 s1, write (Some m1) n buffer (d, s) m = Done (n, (d1, s1)) /\
    woken RET_RETRY (omap (find_pid s ps) (PIDsWaitingUntilWrite (inbox data2 bufs))) s s1 /\
    let sent := pending (inbox data2 bufs) ++ load_bytes m buffer (Z.to_nat n) in
    let r := Z.min k (Offset (inbox data2 bufs) + n) in
    exists d2 s2 bufs2, read (Some m2) k dest (d1, s1) m = Done (r, (d2, s2), store_bytes dest (take (Z.to_nat r) sent) m) /\
      Store.objs (sbuffers d2) !! SData data2 = Some bufs2 /\
      pending (inbox data2 bufs2) = drop (Z.to_nat r) sent /\ inbox data1 bufs2 = inbox data1 bufs.
Proof.
  intros Hd1 Hd2 H1 H2 Es Hs0 Hb Hk Htx Hrx Q Hp Hn Hk0 Hfit.
  assert (Hbox : outbox data1 bufs = inbox data2 bufs) by (unfold outbox, inbox; destruct (ClientServer data1), (ClientServer data2); done).
  assert (Hwf : fifo_wf (outbox_size data1) (inbox data2 bufs)).
  { rewrite <- Hbox. unfold outbox, outbox_size. by destruct (ClientServer data1). }
  assert (Hsz : outbox_size data1 < 2 ^ 63) by apply (fo_size _ _ _ Hwf). pose proof (fo_offset _ _ _ Hwf) as Hoff.
  destruct (socket_write_spec m1 d data1 bufs s ns ps p0 Hd1 H1 Hb Hs0 Htx Hrx Q Hp n buffer m ltac:(lia)) as (r & b1 & s1 & Hw & Hwf1 & Hc).
  rewrite Hbox, (proj2 (Z.ltb_ge _ _)) in Hc by lia. destruct Hc as (-> & Hpend & Hwk).
  exists (with_outbox d data1 bufs b1), s1. split_and!; [done|done|]. cbv zeta.
  set (bufs1 := match ClientServer data1 with CLIENT => mkBuffers (TXBuffer bufs) b1 (RefCount bufs) | SERVER => mkBuffers b1 (RXBuffer bufs) (RefCount bufs) end).
  assert (Hin1 : inbox data2 bufs1 = b1) by (unfold inbox, bufs1; destruct (ClientServer data1), (ClientServer data2); done).
  assert (Hin2 : inbox data1 bufs1 = inbox data1 bufs) by (unfold inbox, bufs1; destruct (ClientServer data1); done).
  assert (Hb1 : Store.objs (sbuffers (with_outbox d data1 bufs b1)) !! SData data2 = Some bufs1).
  { rewrite <- Es. unfold with_outbox. cbn [with_sbuffers sbuffers Store.put Store.objs]. apply lookup_insert_eq. }
  assert (Htx1 : fifo_wf SOCKET_TX_BUFFER_SIZE (TXBuffer bufs1) /\ fifo_wf SOCKET_RX_BUFFER_SIZE (RXBuffer bufs1)).
  { unfold bufs1, outbox_size in *. destruct (ClientServer data1); done. }
  destruct Htx1 as [Htx1 Hrx1]. destruct (woken_current _ _ _ _ _ Hwk Hp) as (p1 & Hp1 & _).
  pose proof (woken_queue_ok _ _ _ _ _ _ Hwk Q) as Q1.
  destruct (socket_read_spec m2 (with_outbox d data1 bufs b1) data2 bufs1 s1 ns ps p1 Hd2 H2 Hb1 ltac:(congruence) Htx1 Hrx1 Q1 Hp1 k dest m Hk0)
    as (r2 & b2 & s2 & Hr & Hpend2 & Hcase).
  rewrite Hin1 in Hr, Hpend2, Hcase.
  assert (Hoff1 : Offset b1 = Offset (inbox data2 bufs) + n).
  { rewrite <- (pending_length _ b1 Hwf1), Hpend, length_app, length_load_bytes.
    pose proof (pending_length _ _ Hwf). lia. }
  rewrite (proj2 (Z.eqb_neq _ 0)) in Hcase by lia. rewrite Hoff1 in Hcase. destruct Hcase as [-> _]. rewrite Hpend in Hr, Hpend2.
  eexists _, s2, _. split; [exact Hr|]. unfold with_inbox. cbn [with_sbuffers sbuffers Store.put Store.objs].
  split; [apply lookup_insert_eq|]. rewrite <- Hin2. clear - Hk Hpend2. clearbody bufs1. unfold inbox in *.
  destruct (ClientServer data2), (ClientServer data1); try done; cbn; (split; [exact Hpend2|done]).
Qed.

(** A client and the socket [accept] made of it, joined by fresh buffers. *)
Definition joined : SocketDriver :=
  mkDriver [] (Store.mkStore {[ 1 := with_SData 7 new_socket; 2 := with_ClientServer SERVER (with_SData 7 new_socket) ]} 3)
    (Store.mkStore {[ 7 := new_buffers ]} 8).

Definition end_meta (a : Z) : FileMetadata := make_meta Regular "new_socket" SocketsDriver SOCKET_RX_BUFFER_SIZE a.

Lemma socket_delivers_in_order_witness :
  let m := store_bytes 4096 [104; 105] (fun _ => 0) in
  exists d1 s1, write (Some (end_meta 1)) 2 4096 (joined, trio) m = Done (2, (d1, s1)) /\
  exists d2 s2, read (Some (end_meta 2)) 10 8192 (d1, s1) m = Done (2, (d2, s2), store_bytes 8192 [104; 105] m).
Proof.
  cbv zeta.
  destruct (socket_delivers_in_order (end_meta 1) (end_meta 2) joined (with_SData 7 new_socket)
    (with_ClientServer SERVER (with_SData 7 new_socket)) new_buffers trio [1; 2; 3] [512; 1024; 1536] new_process 2 4096 10 8192
    (store_bytes 4096 [104; 105] (fun _ => 0))) as (d1 & s1 & Hw & _ & d2 & s2 & _ & Hr & _);
    [reflexivity|reflexivity|done|done|done|done
    |apply lookup_singleton_eq|done|apply new_fifo_wf; unfold SOCKET_TX_BUFFER_SIZE, PAGE_SIZE; dlia
    |apply new_fifo_wf; unfold SOCKET_RX_BUFFER_SIZE, PAGE_SIZE; dlia|apply trio_ok|reflexivity|lia|lia|done|].
  exists d1, s1. split; [exact Hw|]. exists d2, s2. exact Hr.
Defined.

(** *** Addresses *)

Lemma address_eq_refl a : address_eq a a = true.
Proof. unfold address_eq. rewrite decide_True by done. destruct (AType a); [done|]. by apply bool_decide_eq_true. Qed.

Lemma address_eq_sym a b : address_eq a b = address_eq b a.
Proof.
  destruct a as [[] x], b as [[] y]; try done.
  change (bool_decide (take 16 x = take 16 y) = bool_decide (take 16 y = take 16 x)). apply bool_decide_ext. split; congruence.
Qed.

Lemma address_eq_trans a b c : address_eq a b = true -> address_eq a c = address_eq b c.
Proof.
  destruct a as [[] x], b as [[] y], c as [[] z]; try done; intros H; try done.
  change (bool_decide (take 16 x = take 16 y) = true) in H. apply bool_decide_eq_true in H.
  change (bool_decide (take 16 x = take 16 z) = bool_decide (take 16 y = take 16 z)). by rewrite H.
Qed.

(** No address is bound twice, and only to sockets. *)
Record bindings_ok (d : SocketDriver) : Prop := {
  bo_distinct : forall i j b c, Bindings d !! i = Some b -> Bindings d !! j = Some c ->
    address_eq (BAddress b) (BAddress c) = true -> i = j;
  bo_nonnull : Forall (fun b => BData b ≠ 0) (Bindings d)
}.

Lemma find_none_existsb {A} (f : A -> bool) l : List.find f l = None <-> existsb f l = false.
Proof. induction l as [|x l IH]; cbn; [done|]. by destruct (f x). Qed.

Lemma find_app {A} (f : A -> bool) l1 l2 :
  List.find f (l1 ++ l2) = match List.find f l1 with Some x => Some x | None => List.find f l2 end.
Proof. induction l1 as [|x l IH]; cbn; [done|]. by destruct (f x). Qed.

Lemma find_filter_negb {A} (f g : A -> bool) l :
  (forall x, g x = true -> f x = false) -> List.find g (List.filter (fun x => negb (f x)) l) = List.find g l.
Proof.
  intros H. induction l as [|x l IH]; cbn; [done|]. destruct (f x) eqn:Ef; cbn; destruct (g x) eqn:Eg; try done.
  apply H in Eg. congruence.
Qed.

(** At most one socket is bound to an address: [bind] refuses an address that
    is taken and otherwise makes [get_bound_socket] find the socket, touching no
    other address; [unbind] makes the address free again, touching no other. *)
Theorem bind_is_exclusive sock addr d data :
  bindings_ok d -> Store.objs (datas d) !! sock = Some data -> sock ≠ 0 ->
  exists ok d', bind sock addr d = Done (ok, d') /\ bindings_ok d' /\
    (ok = negb (existsb (fun b => address_eq (BAddress b) addr) (Bindings d))) /\
    (ok = false -> d' = d /\ get_bound_socket addr d ≠ 0) /\
    (ok = true -> get_bound_socket addr d = 0 /\ get_bound_socket addr d' = sock /\
       (forall a, address_eq addr a = false -> get_bound_socket a d' = get_bound_socket a d) /\
       get_bound_socket addr (unbind addr d').2 = 0 /\
       forall a, address_eq addr a = false -> get_bound_socket a (unbind addr d').2 = get_bound_socket a d).
Proof.
  intros B Hs H0. unfold bind. destruct (existsb _ (Bindings d)) eqn:Ex.
  { exists false, d. split_and!; try done. intros _. split; [done|]. unfold get_bound_socket.
    destruct (List.find _ (Bindings d)) as [b|] eqn:Ef; [|apply find_none_existsb in Ef; congruence].
    apply List.find_some in Ef as [Hin _]. apply list_elem_of_In in Hin. by apply (proj1 (Forall_forall _ _) (bo_nonnull _ B)). }
  unfold Store.get. rewrite Hs. cbn [deref mbind outcome_bind with_datas with_Bindings Bindings datas sbuffers].
  eexists true, _. split; [reflexivity|]. pose proof (proj2 (find_none_existsb _ _) Ex) as Hno.
  assert (Hother : forall a, address_eq addr a = false -> List.find (fun b => address_eq (BAddress b) a) [mkBinding addr sock] = None).
  { intros a Ha. cbn. by rewrite Ha. }
  split_and!; [|done|done|].
  - split; cbn [Bindings].
    + intros i j b c Hi Hj E. apply lookup_app_Some in Hi as [Hi|[Hge Hi]]; apply lookup_app_Some in Hj as [Hj|[Hge' Hj]];
        [by eapply bo_distinct| | |].
      * apply list_lookup_singleton_Some in Hj as [_ <-]. exfalso. cbn in E.
        assert (existsb (fun b => address_eq (BAddress b) addr) (Bindings d) = true); [|congruence].
        apply existsb_exists. exists b. split; [by eapply list_elem_of_In, list_elem_of_lookup_2|done].
      * apply list_lookup_singleton_Some in Hi as [_ <-]. exfalso. cbn in E. rewrite address_eq_sym in E.
        assert (existsb (fun b => address_eq (BAddress b) addr) (Bindings d) = true); [|congruence].
        apply existsb_exists. exists c. split; [by eapply list_elem_of_In, list_elem_of_lookup_2|done].
      * apply list_lookup_singleton_Some in Hi as [? _]. apply list_lookup_singleton_Some in Hj as [? _]. lia.
    + apply Forall_app. split; [apply B|]. by constructor.
  - intros _. unfold get_bound_socket, unbind. cbn [Bindings fst snd with_Bindings]. rewrite Hno, find_app, Hno. cbn [List.find BAddress].
    rewrite address_eq_refl. split_and!; try done.
    + intros a Ha. rewrite find_app, (Hother a Ha). by destruct (List.find (fun b => address_eq (BAddress b) a) (Bindings d)).
    + rewrite (proj2 (find_none_existsb _ _)); [done|]. apply not_true_is_false. intros (b & Hin & Hb)%existsb_exists.
      apply List.filter_In in Hin as [_ Hf]. by rewrite Hb in Hf.
    + intros a Ha. rewrite find_filter_negb, find_app, (Hother a Ha); [by destruct (List.find (fun b => address_eq (BAddress b) a) (Bindings d))|].
      intros b Hb. apply not_true_is_false. intros Hb2. rewrite address_eq_sym in Hb2.
      rewrite <- (address_eq_trans _ _ a Hb2) in Hb. congruence.
Qed.

Lemma bind_is_exclusive_witness :
  let addr := mkAddress LENSOR16 (replicate 16 65) in
  exists ok d', bind 1 addr joined = Done (ok, d') /\ ok = true /\ get_bound_socket addr d' = 1.
Proof.
  cbv zeta. destruct (bind_is_exclusive 1 (mkAddress LENSOR16 (replicate 16 65)) joined (with_SData 7 new_socket)) as (ok & d' & Hb & _ & Hok & _ & Ht);
    [split; [by intros i j b c Hb|constructor]|reflexivity|done|].
  exists ok, d'. split_and!; [exact Hb|exact Hok|]. apply Ht, Hok.
Defined.

End Socket.
