(* ===== verification/Utf.v ===== *)
(** * UTF-16 to UTF-8

    Models src/kernel/src/utf.cpp: strings are lists of bytes.  A [char] is
    signed, so a byte above 127 is sign-extended where the code widens a [char]
    without going through [u8]. *)

From S2P Require Import Prelude FileMeta.

Module Utf.

(** [u16 x = c] for a [char c]. *)
Definition char_to_u16 (b : Z) : Z := if b <? 128 then b else Z.lor 0xff00 b.

Definition append_codepoint_as_utf8 (appendee : list Z) (codepoint : Z) : list Z :=
  if codepoint <=? 0x7f then appendee ++ [codepoint]
  else if codepoint <=? 0x07ff then
    appendee ++ [Z.lor 0xc0 (Z.shiftr codepoint 6)] ++ [Z.lor 0x80 (Z.land codepoint 0x3f)]
  else if codepoint <=? 0xffff then
    appendee ++ [Z.lor 0xe0 (Z.shiftr codepoint 12)] ++ [Z.lor 0x80 (Z.land (Z.shiftr codepoint 6) 0x3f)]
             ++ [Z.lor 0x80 (Z.land codepoint 0x3f)]
  else if codepoint <=? 0x10ffff then
    appendee ++ [Z.lor 0xf0 (Z.shiftr codepoint 18)] ++ [Z.lor 0x80 (Z.land (Z.shiftr codepoint 12) 0x3f)]
             ++ [Z.lor 0x80 (Z.land (Z.shiftr codepoint 6) 0x3f)] ++ [Z.lor 0x80 (Z.land codepoint 0x3f)]
  else appendee.

(** The loop from a position on: [utf16] is what is left of the input. *)
Fixpoint utf16_loop (utf16 out : list Z) : list Z :=
  match utf16 with
  | lower :: upper :: rest =>
      let code_unit := Z.lor lower (Z.shiftl upper 8) in
      if (code_unit <=? 0xd7ff) || (0xe000 <? code_unit) then utf16_loop rest (append_codepoint_as_utf8 out code_unit)
      else
        let high_surrogate_translated := wrap16 (Z.shiftl (code_unit - 0xd800) 10) in
        match rest with
        | low_lower :: low_upper :: _ =>
            let low_surrogate := wrap16 (Z.lor (char_to_u16 low_lower) (Z.shiftl (char_to_u16 low_upper) 8)) in
            if (low_surrogate <? 0xd800) || (0xdfff <? low_surrogate) then utf16_loop rest out
            else
              let low_surrogate_translated := wrap16 (low_surrogate - 0xdc00) in
              let codepoint := 0x100000 + high_surrogate_translated + low_surrogate_translated in
              utf16_loop rest (append_codepoint_as_utf8 out codepoint)
        | _ => out
        end
  | _ => out
  end.

Definition utf16_to_utf8 (utf16 : list Z) : list Z := utf16_loop utf16 [].

(** ** Reference encodings *)

(** The two bytes of a code unit, low byte first; the UTF-8 bytes of a code
    point of the basic plane, by division. *)
Definition unit_bytes (u : Z) : list Z := [u mod 256; u / 256].

Definition utf8 (u : Z) : list Z :=
  if u <? 128 then [u]
  else if u <? 2048 then [192 + u / 64; 128 + u mod 64]
  else [224 + u / 4096; 128 + u / 64 mod 64; 128 + u mod 64].

(** Code points that are one UTF-16 unit and that the converter takes as such. *)
Definition plain (u : Z) : Prop := 0 <= u <= 0xd7ff \/ 0xe000 < u <= 0xffff.

Lemma unit_of_bytes u : Z.lor (u mod 256) (Z.shiftl (u / 256) 8) = u.
Proof. rewrite Z.lor_comm, lor_shiftl_add by dlia. dlia. Qed.

(** A marker in the high bits and a field in the low ones. *)
Lemma lor_field m a k : 0 <= k -> m mod 2 ^ k = 0 -> 0 <= a < 2 ^ k -> Z.lor m a = m + a.
Proof.
  intros Hk Hm Ha. pose proof (Z.div_mod m (2 ^ k)) as E. rewrite Hm in E.
  replace m with (Z.shiftl (m / 2 ^ k) k) at 1; [rewrite lor_shiftl_add by done; lia|].
  rewrite Z.shiftl_mul_pow2 by done. lia.
Qed.

Lemma land_3f v : Z.land v 0x3f = v mod 64.
Proof. change 0x3f with (Z.ones 6). by rewrite Z.land_ones. Qed.

Lemma append_plain out u : plain u -> append_codepoint_as_utf8 out u = out ++ utf8 u.
Proof.
  unfold plain, append_codepoint_as_utf8, utf8. intros H. rewrite !land_3f, !Z.shiftr_div_pow2 by lia.
  change (2 ^ 6) with 64. change (2 ^ 12) with 4096. zcases; try lia; try done.
  - by rewrite (lor_field 192 (u / 64) 6), (lor_field 128 (u mod 64) 6) by dlia.
  - by rewrite (lor_field 224 (u / 4096) 4), (lor_field 128 (u / 64 mod 64) 6), (lor_field 128 (u mod 64) 6) by dlia.
Qed.

Lemma utf16_loop_plain us out :
  Forall plain us -> utf16_loop (us ≫= unit_bytes) out = out ++ (us ≫= utf8).
Proof.
  intros H. revert out. induction H as [|u us Hu _ IH]; intros out; cbn [mbind list_bind].
  { by rewrite app_nil_r. }
  cbn [unit_bytes app utf16_loop]. rewrite unit_of_bytes.
  replace ((u <=? 0xd7ff) || (0xe000 <? u)) with true by (unfold plain in Hu; zcases; cbn; lia || done).
  fold (mbind (M:=list) unit_bytes us). rewrite IH, append_plain by done. by rewrite <- app_assoc.
Qed.

(** Text of the basic plane is converted unit by unit. *)
Lemma utf16_to_utf8_plain us : Forall plain us -> utf16_to_utf8 (us ≫= unit_bytes) = us ≫= utf8.
Proof. apply utf16_loop_plain. Qed.

(** U+1F600 in UTF-16 does not become its UTF-8 form F0 9F 98 80. *)
Example surrogates_are_not_decoded :
  utf16_to_utf8 [0x3d; 0xd8; 0x00; 0xde] = [0xf4; 0x8f; 0x98; 0x80].
Proof. reflexivity. Qed.

End Utf.
