(* ===== verification/Fat.v ===== *)
(** * The FAT driver

    Models src/kernel/src/fat_definitions.h and
    src/kernel/src/storage/filesystem_drivers/file_allocation_table.h and .cpp.
    Strings are lists of bytes.  The storage device below the driver is a
    parameter: [read_raw offs count] gives the value returned and the bytes put
    at the front of the buffer. *)

From S2P Require Import Prelude PhysMem LinkedList SparseVector RingBuffer Event Process Scheduler FileMeta Utf.

Module Fat.

(** ** Boot record *)

(** The little-endian integer in a list of bytes. *)
Fixpoint le (bytes : list Z) : Z :=
  match bytes with
  | [] => 0
  | b :: bytes => b + 256 * le bytes
  end.

Definition field (bytes : list Z) (off size : nat) : Z := le (take size (drop off bytes)).

(** Division by a value from the disk: by zero it is undefined. *)
Definition divide (a b : Z) : outcome Z := if b =? 0 then Stop Undefined else Done (a / b).

Definition FAT_DIRECTORY_SIZE_BYTES : Z := 32.

Record BIOSParameterBlock := mkBpb {
  JumpCode : list Z;
  OEMID : list Z;
  NumBytesPerSector : Z;
  NumSectorsPerCluster : Z;
  NumReservedSectors : Z;
  NumFATsPresent : Z;
  NumEntriesInRoot : Z;
  TotalSectors16 : Z;
  MediaDescriptorType : Z;
  NumSectorsPerFAT : Z;
  NumSectorsPerTrack : Z;
  NumHeadsOrSides : Z;
  NumHiddenSectors : Z;
  TotalSectors32 : Z
}.

Record BootRecord := mkBr { BPB : BIOSParameterBlock; Extended : list Z; BootCode : list Z; Magic : Z }.

(** [NumSectorsPerFAT] of [Extended] seen as a [BootRecordExtension32]. *)
Definition extension32_sectors_per_fat (br : BootRecord) : Z := field (Extended br) 0 4.

Definition sizeof_boot_record : Z := 512.

(** The record the 512 bytes of the first sector spell out. *)
Definition boot_record (bytes : list Z) : BootRecord :=
  mkBr (mkBpb (take 3 bytes) (take 8 (drop 3 bytes)) (field bytes 11 2) (field bytes 13 1) (field bytes 14 2) (field bytes 16 1)
          (field bytes 17 2) (field bytes 19 2) (field bytes 21 1) (field bytes 22 2) (field bytes 24 2) (field bytes 26 2)
          (field bytes 28 4) (field bytes 32 4))
    (take 54 (drop 36 bytes)) (take 420 (drop 90 bytes)) (field bytes 510 2).

Definition first_fat_sector (b : BIOSParameterBlock) : Z := NumReservedSectors b.
Definition cluster_size (b : BIOSParameterBlock) : Z := NumSectorsPerCluster b * NumBytesPerSector b.

Definition root_directory_sectors (b : BIOSParameterBlock) : outcome Z :=
  divide (NumEntriesInRoot b * FAT_DIRECTORY_SIZE_BYTES + (NumBytesPerSector b - 1)) (NumBytesPerSector b).

Definition total_sectors (b : BIOSParameterBlock) : Z :=
  if TotalSectors16 b =? 0 then TotalSectors32 b else TotalSectors16 b.

Definition fat_sectors (br : BootRecord) : Z :=
  if NumSectorsPerFAT (BPB br) =? 0 then extension32_sectors_per_fat br else NumSectorsPerFAT (BPB br).

Definition first_data_sector (br : BootRecord) : outcome Z :=
  r ← root_directory_sectors (BPB br);
  Done (NumReservedSectors (BPB br) + NumFATsPresent (BPB br) * fat_sectors br + r).

Definition data_sectors (br : BootRecord) : outcome Z :=
  f ← first_data_sector br; Done (total_sectors (BPB br) -64 f).

Definition total_clusters (br : BootRecord) : outcome Z :=
  d ← data_sectors br; divide d (NumSectorsPerCluster (BPB br)).

Definition first_root_directory_sector (br : BootRecord) : outcome Z :=
  f ← first_data_sector br; r ← root_directory_sectors (BPB br); Done (f -64 r).

Definition cluster_to_sector (br : BootRecord) (cluster : Z) : outcome Z :=
  f ← first_data_sector br; Done ((cluster -64 2) *64 NumSectorsPerCluster (BPB br) +64 f).

Definition sector_to_cluster (br : BootRecord) (sector : Z) : outcome Z :=
  f ← first_data_sector br; q ← divide (sector -64 f) (NumSectorsPerCluster (BPB br)); Done (q +64 2).

Inductive FATType := INVALID | FAT12 | FAT16 | FAT32 | ExFAT.

Definition fat_type (br : BootRecord) : outcome FATType :=
  totalClusters ← total_clusters br;
  Done (if totalClusters =? 0 then ExFAT else if totalClusters <? 4085 then FAT12
        else if totalClusters <? 65525 then FAT16 else FAT32).

(** ** Directory entries *)

(** A directory entry is its 32 bytes. *)
Definition FileNameOf (ce : list Z) : list Z := take 11 ce.
Definition FileName0 (ce : list Z) : Z := field ce 0 1.
Definition Attributes (ce : list Z) : Z := field ce 11 1.
Definition FileSizeInBytes (ce : list Z) : Z := field ce 28 4.

Definition get_cluster_number (ce : list Z) : Z := Z.lor (field ce 26 2) (Z.shiftl (field ce 20 2) 16).

Definition read_only (ce : list Z) : bool := Z.testbit (Attributes ce) 0.
Definition hidden (ce : list Z) : bool := Z.testbit (Attributes ce) 1.
Definition system (ce : list Z) : bool := Z.testbit (Attributes ce) 2.
Definition volume_id (ce : list Z) : bool := Z.testbit (Attributes ce) 3.
Definition directory (ce : list Z) : bool := Z.testbit (Attributes ce) 4.
Definition archive (ce : list Z) : bool := Z.testbit (Attributes ce) 5.
Definition long_file_name (ce : list Z) : bool := read_only ce && hidden ce && system ce && volume_id ce.

(** The date and time fields as the accessors take them apart. *)
Definition ctime_second (CTime : Z) : Z := Z.land (Z.shiftr CTime 11) 0x1f.
Definition ctime_minute (CTime : Z) : Z := Z.land (Z.shiftr CTime 5) 0x3f.
Definition ctime_hour (CTime : Z) : Z := Z.land CTime 0x1f.
Definition cdate_day (CDate : Z) : Z := Z.land (Z.shiftr CDate 11) 0x1f.
Definition cdate_month (CDate : Z) : Z := Z.land (Z.shiftr CDate 7) 0xf.
Definition cdate_year (CDate : Z) : Z := Z.land CDate 0x7f.

(** The characters of a long-name entry: bytes 1-10, 14-25 and 28-31. *)
Definition lfn_characters (ce : list Z) : list Z :=
  take 10 (drop 1 ce) ++ take 12 (drop 14 ce) ++ take 4 (drop 28 ce).

(** ** File names *)

(** [find_first_of] and [find_last_of] of one character; [None] is [npos]. *)
Definition find_first (c : Z) (s : list Z) : option nat := fst <$> list_find (fun x => x = c) s.
Definition find_last (c : Z) (s : list Z) : option nat := (fun i => (length s - 1 - i)%nat) <$> find_first c (reverse s).

Definition slash : Z := 47.
Definition dot : Z := 46.
Definition space : Z := 32.

Definition strip_slash (path : list Z) : list Z :=
  match path with
  | c :: rest => if c =? slash then rest else path
  | [] => path
  end.

(** The name, and what the parameter is overwritten with. *)
Definition pop_filename_from_front_of_path (raw_path : list Z) : list Z * list Z :=
  let path := strip_slash raw_path in
  match path with
  | [] => (raw_path, raw_path)
  | _ =>
      match find_first slash path with
      | None => (path, path)
      | Some first_sep =>
          let out := take first_sep path in
          let raw_path := drop first_sep path in
          (out, if decide (raw_path = [slash]) then out else raw_path)
      end
  end.

Definition toupper (c : Z) : Z := if (97 <=? c) && (c <=? 122) then c - 32 else c.

(** The UTF-16 form of a name, from position [i] on. *)
Definition append_utf16_codepoint (out : list Z) (codepoint : Z) : list Z :=
  out ++ [codepoint mod 256] ++ [codepoint / 256].

Fixpoint utf16_of (raw out : list Z) : list Z :=
  match raw with
  | [] => out
  | c :: rest =>
      if negb (Z.testbit c 7) then utf16_of rest (out ++ [c] ++ [0])
      else if Z.land c 0xf8 =? 0xf0 then
        match rest with
        | c1 :: c2 :: c3 :: rest =>
            let codepoint := Z.lor (Z.lor (Z.lor (Z.shiftl (Z.land c 0x07) 18) (Z.shiftl (Z.land c1 0x3f) 12))
                                      (Z.shiftl (Z.land c2 0x3f) 6)) (Z.land c3 0x3f) in
            let codepoint_adjusted := wrap32 (codepoint - 0x10000) in
            let leading := wrap16 (0xd800 + Z.land codepoint_adjusted (Z.shiftl 0x3ff 10)) in
            let trailing := wrap16 (0xdc00 + Z.land codepoint_adjusted 0x3ff) in
            utf16_of rest (append_utf16_codepoint (append_utf16_codepoint out leading) trailing)
        | _ => out
        end
      else if Z.land c 0xf0 =? 0xe0 then
        match rest with
        | c1 :: c2 :: rest =>
            let codepoint := Z.lor (Z.lor (Z.shiftl (Z.land c 0x0f) 12) (Z.shiftl (Z.land c1 0x3f) 6)) (Z.land c2 0x3f) in
            utf16_of rest (append_utf16_codepoint out codepoint)
        | _ => out
        end
      else if Z.land c 0xe0 =? 0xc0 then
        match rest with
        | c1 :: rest =>
            let codepoint := Z.lor (Z.shiftl (Z.land c 0x1f) 6) (Z.land c1 0x3f) in
            utf16_of rest (append_utf16_codepoint out codepoint)
        | _ => out
        end
      else utf16_of rest out
  end.

(** [find_last_of] on an empty string reads outside it. *)
Definition translate_filename (raw_filename : list Z) : outcome (list Z) :=
  let path := toupper <$> raw_filename in
  if (length path =? 12)%nat && bool_decide (path !! 8%nat = Some dot) then Done (delete 8%nat path)
  else if (length path <=? 12)%nat then
    if (length path =? 0)%nat then Stop Undefined
    else
      match find_last dot path with
      | Some last_dot =>
          if (8 <? last_dot)%nat then Done raw_filename
          else
            let extension := take 3 (drop (last_dot + 1) path ++ [space] ++ [space] ++ [space]) in
            let name := take last_dot path in
            let name := name ++ replicate (8 - length name) space in
            Done (name ++ extension)
      | None =>
          if (8 <? length path)%nat then Done (utf16_of raw_filename [])
          else Done (path ++ replicate (11 - length path) space)
      end
  else Done path.

(** ** The driver *)

Record FileAllocationTableDriver := mkFat { BR : BootRecord; Type_of_fat : FATType }.

(** The constructor. *)
Definition make_driver (br : BootRecord) : outcome FileAllocationTableDriver :=
  t ← fat_type br; Done (mkFat br t).

(** [read_raw(.., n, buffer)] put [bytes] at the front of [buffer]. *)
Definition into (buffer bytes : list Z) : outcome (list Z) :=
  if (length bytes <=? length buffer)%nat then Done (bytes ++ drop (length bytes) buffer) else Stop Undefined.

(** The boot record [br] passes the checks. *)
Definition is_fat (br : BootRecord) : bool :=
  let b := BPB br in
  (Magic br =? 0xaa55) && negb (total_sectors b =? 0) && (512 <=? NumBytesPerSector b) && (NumBytesPerSector b <=? 4096)
  && (Z.land (NumBytesPerSector b) (NumBytesPerSector b - 1) =? 0)
  && (Z.land (NumSectorsPerCluster b) (NumSectorsPerCluster b - 1) =? 0)
  && (0 <? NumFATsPresent b).

Record EntryType := mkEntry { CE : list Z; ByteOffset : Z; FileName : list Z; LongFileName : list Z }.

(** [ce_index] is the entry [CE] points to. *)
Record Iterator := mkIter {
  ClusterIndex : Z;
  ClusterContents : list Z;
  LastFATSector : Z;
  MoreClusters : bool;
  ClearLFN : bool;
  ce_index : nat;
  EByteOffset : Z;
  EFileName : list Z;
  ELongFileName : list Z
}.

Definition with_CE (i : nat) (it : Iterator) : Iterator :=
  mkIter (ClusterIndex it) (ClusterContents it) (LastFATSector it) (MoreClusters it) (ClearLFN it) i
    (EByteOffset it) (EFileName it) (ELongFileName it).
Definition with_LFN (clear : bool) (lfn : list Z) (it : Iterator) : Iterator :=
  mkIter (ClusterIndex it) (ClusterContents it) (LastFATSector it) (MoreClusters it) clear (ce_index it)
    (EByteOffset it) (EFileName it) lfn.
Definition with_names (off : Z) (name lfn : list Z) (it : Iterator) : Iterator :=
  mkIter (ClusterIndex it) (ClusterContents it) (LastFATSector it) (MoreClusters it) (ClearLFN it) (ce_index it) off name lfn.
Definition with_Cluster (c : Z) (last : Z) (more : bool) (it : Iterator) : Iterator :=
  mkIter c (ClusterContents it) last more (ClearLFN it) (ce_index it) (EByteOffset it) (EFileName it) (ELongFileName it).
Definition with_Contents (contents : list Z) (it : Iterator) : Iterator :=
  mkIter (ClusterIndex it) contents (LastFATSector it) (MoreClusters it) false 0 (EByteOffset it) (EFileName it) [].

(** The entry [i] of a cluster; past its end the pointer is out of bounds. *)
Definition entry_at (contents : list Z) (i : nat) : outcome (list Z) :=
  if (32 * i + 32 <=? length contents)%nat then Done (take 32 (drop (32 * i) contents)) else Stop Undefined.

(** [__remove_trailing] of one character. *)
Fixpoint drop_front (c : Z) (s : list Z) : list Z :=
  match s with
  | x :: rest => if x =? c then drop_front c rest else s
  | [] => []
  end.
Definition remove_trailing (c : Z) (s : list Z) : list Z := reverse (drop_front c (reverse s)).

(** What the iterator makes of the collected name parts. *)
Definition finish_lfn (lfn : list Z) : list Z :=
  let lfn := remove_trailing 0xff lfn in
  if (2 <? length lfn)%nat then take (length lfn - 2) lfn else lfn.

Section Driver.
(** The device, the bytes new memory holds, and this driver object. *)
Context (read_raw : Z -> Z -> Z * list Z) (fresh : nat -> list Z) (fs : FileAllocationTableDriver).

Definition bytes_per_sector : Z := NumBytesPerSector (BPB (BR fs)).

Definition ReadNextCluster (it : Iterator) : outcome Iterator :=
  clusterSector ← cluster_to_sector (BR fs) (ClusterIndex it);
  contents ← into (ClusterContents it) (read_raw (clusterSector *64 bytes_per_sector) (cluster_size (BPB (BR fs)))).2;
  Done (with_Contents contents it).

Definition FAToffset (clusterNumber : Z) : Z :=
  match Type_of_fat fs with
  | FAT12 => clusterNumber + clusterNumber / 2
  | FAT16 => clusterNumber * 2
  | ExFAT | FAT32 | INVALID => clusterNumber * 4
  end.

(** The table value at [entryOffset], and whether it ends the chain. *)
Definition table_value (clusterNumber entryOffset : Z) (FAT : list Z) : outcome (Z * bool) :=
  let at_offset (n : nat) : outcome Z := if (Z.to_nat entryOffset + n <=? length FAT)%nat then Done (field FAT (Z.to_nat entryOffset) n) else Stop Undefined in
  match Type_of_fat fs with
  | FAT12 =>
      v ← at_offset 2%nat;
      let v := if Z.testbit clusterNumber 0 then Z.shiftr v 4 else Z.land v 0x0fff in
      Done (v, 0x0ff8 <=? v)
  | FAT16 => v ← at_offset 2%nat; let v := Z.land v 0xffff in Done (v, 0xfff8 <=? v)
  | FAT32 => v ← at_offset 4%nat; let v := Z.land v 0xfffffff in Done (v, 0x0ffffff8 <=? v)
  | ExFAT => v ← at_offset 4%nat; Done (v, false)
  | INVALID => Done (0, false)
  end.

Definition TryReadNextCluster (it : Iterator) : outcome Iterator :=
  ce ← entry_at (ClusterContents it) (ce_index it);
  let clusterNumber := get_cluster_number ce in
  let off := FAToffset clusterNumber in
  q ← divide off bytes_per_sector;
  let FATsector := first_fat_sector (BPB (BR fs)) +64 q in
  let entryOffset := off mod bytes_per_sector in
  if (entryOffset <=? 1) || (FATsector =? LastFATSector it) then
    Done (with_Cluster (ClusterIndex it) (LastFATSector it) false it)
  else
    FAT ← into (fresh (Z.to_nat bytes_per_sector))
            (read_raw (FATsector *64 bytes_per_sector) (fat_sectors (BR fs) *64 bytes_per_sector)).2;
    '(tableValue, ends) ← table_value clusterNumber entryOffset FAT;
    let more := negb ends && MoreClusters it in
    let it := with_Cluster (wrap32 tableValue) FATsector more it in
    if MoreClusters it then ReadNextCluster it else Done it.

(** The loops of [operator++]; each step of [fuel] is one turn of a loop. *)
Fixpoint advance (fuel : nat) (it : Iterator) : outcome Iterator :=
  match fuel with
  | O => Stop Hung
  | S fuel =>
      if negb (MoreClusters it) then Done it
      else
        ce ← entry_at (ClusterContents it) (ce_index it);
        if FileName0 ce =? 0 then it ← TryReadNextCluster it; advance fuel it
        else if FileName0 ce =? 0xe5 then advance fuel it
        else
          let it := if ClearLFN it then with_LFN false [] it else it in
          if long_file_name ce then
            advance fuel (with_CE (S (ce_index it)) (with_LFN (ClearLFN it) (ELongFileName it ++ lfn_characters ce) it))
          else
            let it := with_LFN true (ELongFileName it) it in
            sector ← cluster_to_sector (BR fs) (get_cluster_number ce);
            Done (with_names (sector *64 bytes_per_sector) (FileNameOf ce) (finish_lfn (ELongFileName it)) it)
  end.

(** [operator++] *)
Definition next_entry (fuel : nat) (it : Iterator) : outcome Iterator := advance fuel (with_CE (S (ce_index it)) it).

(** The constructor. *)
Definition begin (fuel : nat) (directoryCluster : Z) : outcome Iterator :=
  let it := mkIter directoryCluster (fresh (Z.to_nat (cluster_size (BPB (BR fs))))) 0 true false 0 0 [] [] in
  it ← ReadNextCluster it; next_entry fuel it.

(** [operator*] *)
Definition current_entry (it : Iterator) : outcome EntryType :=
  ce ← entry_at (ClusterContents it) (ce_index it);
  Done (mkEntry ce (EByteOffset it) (EFileName it) (ELongFileName it)).

(** [for (const auto& Entry : ...) body]: the body goes on with a new state or
    leaves the loop with a result. *)
Fixpoint for_each {S R : Type} (fuel : nat) (body : EntryType -> S -> outcome (S + R)) (it : Iterator) (s : S) : outcome (S + R) :=
  match fuel with
  | O => Stop Hung
  | S fuel =>
      if negb (MoreClusters it) then Done (inl s)
      else
        e ← current_entry it;
        r ← body e s;
        match r with
        | inr r => Done (inr r)
        | inl s => it ← next_entry fuel it; for_each fuel body it s
        end
  end.

Definition for_each_dir_entry_in {S R : Type} (fuel : nat) (directoryCluster : Z) (body : EntryType -> S -> outcome (S + R)) (s : S) :
    outcome (S + R) :=
  it ← begin fuel directoryCluster; for_each fuel body it s.

Definition names (filename : list Z) (e : EntryType) : bool :=
  bool_decide (FileName e = filename) || bool_decide (LongFileName e = filename).

Definition root_cluster : outcome Z :=
  s ← first_root_directory_sector (BR fs); c ← sector_to_cluster (BR fs) s; Done (wrap32 c).

Definition entry_type_of (ce : list Z) : FileType := if directory ce then Directory else Regular.

(** [traverse_path]; a null pointer is [None]. [device] names this driver in
    the metadata it makes. *)
Fixpoint traverse_path (fuel : nat) (device : Z) (raw_path : list Z) (directoryCluster : Z) : outcome (option FileMetadata) :=
  match fuel with
  | O => Stop Hung
  | S fuel =>
      directoryCluster ← (if directoryCluster =? 2 ^ 32 - 1 then root_cluster else Done directoryCluster);
      let raw_path := strip_slash raw_path in
      match raw_path with
      | [] => Done None
      | _ =>
          let '(raw_filename, path) := pop_filename_from_front_of_path raw_path in
          filename ← translate_filename raw_filename;
          r ← for_each_dir_entry_in fuel directoryCluster
            (fun e _ =>
               if negb (names filename e) then Done (inl tt)
               else if decide (path = raw_filename) then
                 Done (inr (Some (make_meta (entry_type_of (CE e)) (string_of_bytes filename) (FatDriver device)
                                    (FileSizeInBytes (CE e)) (ByteOffset e))))
               else if negb (directory (CE e)) then Done (inr None)
               else r ← traverse_path fuel device path (get_cluster_number (CE e)); Done (inr r)) tt;
          Done (match r with inr m => m | inl _ => None end)
      end
  end.

Definition open (fuel : nat) (device : Z) (raw_path : list Z) : outcome (option FileMetadata) :=
  traverse_path fuel device raw_path (2 ^ 32 - 1).

(** [traverse_path_for_cluster]; [u32(-1)] stands for no directory. *)
Fixpoint traverse_path_for_cluster (fuel : nat) (raw_path : list Z) (directory_cluster : Z) : outcome Z :=
  match fuel with
  | O => Stop Hung
  | S fuel =>
      let '(raw_filename, path) := pop_filename_from_front_of_path raw_path in
      filename ← translate_filename raw_filename;
      r ← for_each_dir_entry_in fuel directory_cluster
        (fun e _ =>
           if negb (names filename e) then Done (inl tt)
           else if decide (path = raw_filename) then
             Done (inr (if negb (directory (CE e)) then 2 ^ 32 - 1 else get_cluster_number (CE e)))
           else if negb (directory (CE e)) then Done (inr (2 ^ 32 - 1))
           else r ← traverse_path_for_cluster fuel path (get_cluster_number (CE e)); Done (inr r)) tt;
      Done (match r with inr c => c | inl _ => 2 ^ 32 - 1 end)
  end.

(** *** Listing a directory *)

Definition tolower (c : Z) : Z := if (65 <=? c) && (c <=? 90) then c + 32 else c.

(** [while (s.back() == ' ') s.erase(s.size() - 1)] on the reversed string:
    [back] of an empty string reads outside it. *)
Fixpoint strip_back (s : list Z) : outcome (list Z) :=
  match s with
  | [] => Stop Undefined
  | c :: rest => if c =? space then strip_back rest else Done s
  end.
Definition strip_spaces (s : list Z) : outcome (list Z) := r ← strip_back (reverse s); Done (reverse r).

Definition display_name (e : EntryType) : outcome (list Z) :=
  if negb (length (LongFileName e) =? 0)%nat then Done (Utf.utf16_to_utf8 (LongFileName e))
  else if (length (FileName e) =? 11)%nat then
    let filename := tolower <$> FileName e in
    name ← strip_spaces (take 8 filename);
    extension ← strip_spaces (take 3 (drop 8 filename));
    Done (if negb (length extension =? 0)%nat then name ++ [dot] ++ extension else name)
  else Done (FileName e).

Definition sizeof_name : nat := 248.

(** [out[count]] is written: its name, then its type. *)
Definition write_dirent (out count : Z) (name : list Z) (type : FileType) (m : mem) : mem :=
  let entry := out + (4 + Z.of_nat sizeof_name) * count in
  let m := store_bytes (entry + 4) (take sizeof_name name) m in
  write_le 4 m entry (match type with Regular => 0 | Directory => 1 end).

Definition directory_data (fuel : nat) (path : list Z) (max_entry_count out : Z) (m : mem) : outcome (Z * mem) :=
  if max_entry_count =? 0 then Done (0, m)
  else if out =? 0 then Done (-1, m)
  else
    root ← root_cluster;
    c ← (if negb (length path =? 0)%nat && negb (bool_decide (path = [slash])) then traverse_path_for_cluster fuel path root
         else Done root);
    if negb (length path =? 0)%nat && negb (bool_decide (path = [slash])) && (c =? 2 ^ 32 - 1) then Done (-1, m)
    else
      r ← for_each_dir_entry_in fuel c
        (fun e '(count, m) =>
           if volume_id (CE e) then Done (inl (count, m))
           else
             name ← display_name e;
             let m := write_dirent out count name (entry_type_of (CE e)) m in
             if max_entry_count <=? count + 1 then Done (inr (count + 1, m)) else Done (inl (count + 1, m))) (0, m);
      Done (match r with inl r => r | inr r => r end).

(** *** File contents: [driver_data] is the byte offset of the first cluster. *)

Definition read (file : FileMetadata) (offs size : Z) : Z * list Z := read_raw (DriverData file +64 offs) size.

End Driver.

(** [try_create] *)
Definition try_create (read_raw : Z -> Z -> Z * list Z) (fresh : nat -> list Z) : outcome (option FileAllocationTableDriver) :=
  let '(n_read, bytes) := read_raw 0 sizeof_boot_record in
  if negb (n_read =? sizeof_boot_record) then Done None
  else
    bytes ← into (fresh 512%nat) bytes;
    let br := boot_record bytes in
    if negb (is_fat br) then Done None else fs ← make_driver br; Done (Some fs).

(** Metadata made by [open] names this driver. *)
Lemma for_each_result {T R : Type} read_raw fresh fs fuel (body : EntryType -> T -> outcome (T + R)) (P : R -> Prop) it s r :
  (forall e s r, body e s = Done (inr r) -> P r) -> for_each read_raw fresh fs fuel body it s = Done (inr r) -> P r.
Proof.
  intros Hb. revert it s. induction fuel as [|fuel IH]; intros it s; [done|]. cbn [for_each].
  destruct (MoreClusters it); [|done]. cbn [negb]. intros H. done_inv H. done_inv H. destruct r1 as [s'|r']; [|injection H as <-; by eapply Hb].
  done_inv H. by eapply IH.
Qed.

Lemma open_driver read_raw fresh fs fuel device path f :
  open read_raw fresh fs fuel device path = Done (Some f) -> FileDriver f = Some (FatDriver device).
Proof.
  unfold open. generalize (2 ^ 32 - 1) as c. revert path f. induction fuel as [|fuel IH]; intros path f c; [done|]. cbn [traverse_path]. intros H.
  done_inv H. destruct (strip_slash path); [done|]. destruct (pop_filename_from_front_of_path _) as [raw rest].
  done_inv H. done_inv H. destruct r1 as [|[m|]]; [done| |done]. injection H as ->. unfold for_each_dir_entry_in in E1. done_inv E1.
  eapply (for_each_result _ _ _ _ _ (fun o => forall m, o = Some m -> FileDriver m = Some (FatDriver device))); [|exact E1|done].
  intros e u o. cbn beta. destruct (names r0 e); cbn [negb]; [|discriminate]. case_decide; [intros [= <-]; by intros m [= <-]|].
  destruct (directory (CE e)); cbn [negb]; [|by intros [= <-]]. intros Ho. done_inv Ho. injection Ho as <-. intros m ->. by eapply IH.
Qed.

(** ** Directories as lists of entries *)

Section Directories.
Context (read_raw : Z -> Z -> Z * list Z) (fresh : nat -> list Z) (fs : FileAllocationTableDriver).

(** Where the data of cluster [c] begins on the device. *)
Definition sector_of (c : Z) : Z := default 0 (match cluster_to_sector (BR fs) c with Done s => Some s | Stop _ => None end).
Definition offset_of (c : Z) : Z := sector_of c *64 bytes_per_sector fs.

(** The files of a directory: name parts collected so far, remaining entries. *)
Fixpoint listing (lfn : list Z) (entries : list (list Z)) : list EntryType :=
  match entries with
  | [] => []
  | ce :: entries =>
      if long_file_name ce then listing (lfn ++ lfn_characters ce) entries
      else mkEntry ce (offset_of (get_cluster_number ce)) (FileNameOf ce) (finish_lfn lfn) :: listing [] entries
  end.

Definition sized (ce : list Z) : Prop := length ce = 32%nat.
Definition in_use (ce : list Z) : Prop := FileName0 ce ≠ 0 /\ FileName0 ce ≠ 0xe5.

(** The entries of a cluster are [es], in use, then a blank one. *)
Record laid_out (contents : list Z) (es : list (list Z)) : Prop := {
  lo_used : Forall sized es;
  lo_live : Forall in_use es;
  lo_blank : exists rest, contents = mjoin es ++ replicate 32 0 ++ rest
}.

(** Cluster [c] holds a directory: an entry that is never looked at, [es], and
    a blank entry. *)
Definition directory_at (c : Z) (es : list (list Z)) : Prop :=
  exists first bytes, length bytes = Z.to_nat (cluster_size (BPB (BR fs))) /\
    (read_raw (offset_of c) (cluster_size (BPB (BR fs)))).2 = bytes /\ laid_out bytes (first :: es).

Hypothesis (Hbps : bytes_per_sector fs ≠ 0) (Hfresh : forall n, length (fresh n) = n).

Lemma cluster_to_sector_done c : exists s, cluster_to_sector (BR fs) c = Done s /\ sector_of c = s.
Proof.
  unfold sector_of, cluster_to_sector, first_data_sector, root_directory_sectors, divide, bytes_per_sector in *.
  rewrite (proj2 (Z.eqb_neq _ _) Hbps). cbn [mbind outcome_bind]. by eexists.
Qed.

Lemma mjoin_length32 es : Forall sized es -> length (mjoin es) = (32 * length es)%nat.
Proof. induction 1 as [|ce es H _ IH]; [done|]. change (mjoin (ce :: es)) with (ce ++ mjoin es).
  rewrite length_app, IH, H. cbn [length]. lia. Qed.

(** The entry after [es1]. *)
Lemma entry_at_app es1 ce rest :
  Forall sized es1 -> length ce = 32%nat ->
  entry_at (mjoin es1 ++ ce ++ rest) (length es1) = Done ce.
Proof.
  intros H1 H2. pose proof (mjoin_length32 _ H1) as Hl. unfold entry_at.
  unfold sized in H2. rewrite !length_app, Hl, H2. rewrite (proj2 (Nat.leb_le _ _)) by lia.
  rewrite drop_app_length' by lia. by rewrite take_app_length' by lia.
Qed.

Lemma blank_entry_at es contents : laid_out contents es -> entry_at contents (length es) = Done (replicate 32 0).
Proof. intros [Hl _ [rest ->]]. by apply entry_at_app. Qed.

Lemma used_entry_at es1 ce es2 contents : laid_out contents (es1 ++ ce :: es2) -> entry_at contents (length es1) = Done ce /\ in_use ce.
Proof.
  intros [Hl Hu [rest ->]]. apply Forall_app in Hl as [Hl1 Hl2]. apply Forall_cons in Hl2 as [Hc _].
  apply Forall_app in Hu as [_ Hu]. apply Forall_cons in Hu as [Hu _]. split; [|done].
  rewrite join_app. change (mjoin (ce :: es2)) with (ce ++ mjoin es2). rewrite <- !app_assoc. by apply entry_at_app.
Qed.

(** At the blank entry the iterator ends. *)
Lemma advance_blank fuel es it :
  laid_out (ClusterContents it) es -> MoreClusters it = true -> ce_index it = length es ->
  exists it', advance read_raw fresh fs (S (S fuel)) it = Done it' /\ MoreClusters it' = false.
Proof.
  intros L Hm Hi. cbn [advance]. rewrite Hm. cbn [negb]. rewrite Hi, (blank_entry_at es _ L). cbn [mbind outcome_bind].
  change (FileName0 (replicate 32 0) =? 0) with true. cbv iota.
  unfold TryReadNextCluster. rewrite Hi, (blank_entry_at es _ L). cbn [mbind outcome_bind].
  change (get_cluster_number (replicate 32 0)) with 0.
  assert (E0 : FAToffset fs 0 = 0) by (unfold FAToffset; by destruct (Type_of_fat fs)). rewrite E0.
  unfold divide. rewrite (proj2 (Z.eqb_neq _ _) Hbps). cbn [mbind outcome_bind]. rewrite Z.mod_0_l by done. cbn [Z.leb Z.compare orb].
  eexists. by cbn.
Qed.

(** The iterator before entry [length es1] of a directory [es1 ++ es2]. *)
Record iter_at (es1 es2 : list (list Z)) (it : Iterator) : Prop := {
  ia_layout : laid_out (ClusterContents it) (es1 ++ es2);
  ia_more : MoreClusters it = true;
  ia_index : ce_index it = length es1
}.

Definition collected (it : Iterator) : list Z := if ClearLFN it then [] else ELongFileName it.

Lemma advance_spec fuel es1 es2 it :
  iter_at es1 es2 it -> (length es2 + 1 < fuel)%nat ->
  exists it', advance read_raw fresh fs fuel it = Done it' /\
    match listing (collected it) es2 with
    | [] => MoreClusters it' = false
    | e :: l => exists es1' ce es2', es1 ++ es2 = (es1' ++ [ce]) ++ es2' /\ (length es2' < length es2)%nat /\
        iter_at es1' (ce :: es2') it' /\ ClearLFN it' = true /\ current_entry it' = Done e /\ l = listing [] es2'
    end.
Proof.
  revert es1 fuel it. induction es2 as [|ce es2 IH]; intros es1 fuel it [L Hm Hi] Hf; cbn [length] in Hf.
  - rewrite app_nil_r in L. destruct fuel as [|[|fuel]]; [lia|lia|]. destruct (advance_blank fuel es1 it L Hm Hi) as (it' & E & Hm').
    by exists it'.
  - destruct fuel as [|fuel]; [lia|]. destruct (used_entry_at es1 ce es2 _ L) as [He [Hn0 He5]].
    cbn [advance]. rewrite Hm, Hi, He. cbn [negb mbind outcome_bind].
    rewrite (proj2 (Z.eqb_neq _ _) Hn0), (proj2 (Z.eqb_neq _ _) He5).
    set (it1 := if ClearLFN it then with_LFN false [] it else it).
    assert (H1 : ClusterContents it1 = ClusterContents it /\ MoreClusters it1 = true /\ ce_index it1 = length es1 /\
                 ClearLFN it1 = false /\ ELongFileName it1 = collected it).
    { unfold it1, collected. by destruct (ClearLFN it) eqn:Ec. }
    destruct H1 as (Hc1 & Hm1 & Hi1 & Hcl1 & Hlf1). cbn [listing]. destruct (long_file_name ce).
    + destruct (IH (es1 ++ [ce]) fuel (with_CE (S (ce_index it1)) (with_LFN (ClearLFN it1) (ELongFileName it1 ++ lfn_characters ce) it1)))
        as (it' & E & Hspec); [|lia|].
      { split; cbn; [by rewrite Hc1, <- app_assoc|done|]. rewrite Hi1, length_app. cbn. lia. }
      exists it'. split; [done|]. revert Hspec. unfold collected at 1. cbn [with_CE with_LFN ClearLFN ELongFileName]. rewrite Hcl1, Hlf1.
      destruct (listing _ es2) as [|e l]; [done|]. intros (a & c & b & E1 & Hlen & H2). exists a, c, b. split; [by rewrite <- E1, <- app_assoc|].
      split; [cbn; lia|]. done.
    + destruct (cluster_to_sector_done (get_cluster_number ce)) as (sec & Es & Eo). rewrite Es. cbn [mbind outcome_bind].
      eexists. split; [reflexivity|]. exists es1, ce, es2. split_and!; cbn; try done; [by rewrite <- app_assoc|lia| |].
      * split; cbn; [by rewrite Hc1|done|done].
      * unfold current_entry. cbn. rewrite Hc1, Hi1, He. cbn. rewrite Hlf1. unfold offset_of. by rewrite Eo.
Qed.

(** Running the loop body over a list of files. *)
Fixpoint run_body {T R : Type} (body : EntryType -> T -> outcome (T + R)) (l : list EntryType) (s : T) : outcome (T + R) :=
  match l with
  | [] => Done (inl s)
  | e :: l => r ← body e s; match r with inr r => Done (inr r) | inl s => run_body body l s end
  end.

Lemma next_entry_spec fuel es1 ce es2 it :
  iter_at es1 (ce :: es2) it -> ClearLFN it = true -> (length es2 + 1 < fuel)%nat ->
  exists it', next_entry read_raw fresh fs fuel it = Done it' /\
    match listing [] es2 with
    | [] => MoreClusters it' = false
    | e :: l => exists es1' ce' es2', (length es2' < length es2)%nat /\
        iter_at es1' (ce' :: es2') it' /\ ClearLFN it' = true /\ current_entry it' = Done e /\ l = listing [] es2'
    end.
Proof.
  intros [L Hm Hi] Hc Hf.
  destruct (advance_spec fuel (es1 ++ [ce]) es2 (with_CE (S (ce_index it)) it)) as (it' & E & Hspec); [|done|].
  - split; cbn; [by rewrite <- app_assoc|done|]. rewrite Hi, length_app. cbn. lia.
  - exists it'. split; [done|]. unfold collected in Hspec. cbn [with_CE ClearLFN] in Hspec. rewrite Hc in Hspec.
    destruct (listing [] es2); [done|]. destruct Hspec as (a & c & b & _ & H). by exists a, c, b.
Qed.

Lemma for_each_entry_spec {T R : Type} fuel (body : EntryType -> T -> outcome (T + R)) es1 ce es2 it e s :
  iter_at es1 (ce :: es2) it -> ClearLFN it = true -> current_entry it = Done e -> (length es2 + 2 < fuel)%nat ->
  for_each read_raw fresh fs fuel body it s = run_body body (e :: listing [] es2) s.
Proof.
  revert fuel es1 ce it e s. induction es2 as [es2 IH] using (induction_ltof1 _ (@length _)); unfold ltof in IH.
  intros fuel es1 ce it e s Hit Hc He Hf. destruct fuel as [|fuel]; [lia|].
  cbn [for_each run_body]. rewrite (ia_more _ _ _ Hit), He. cbn [negb mbind outcome_bind].
  destruct (body e s) as [[s'|r]|]; [|done|done]. cbn [mbind outcome_bind].
  destruct (next_entry_spec fuel es1 ce es2 it Hit Hc) as (it' & -> & Hspec); [lia|]. cbn [mbind outcome_bind].
  destruct (listing [] es2) as [|e' l].
  - destruct fuel as [|fuel]; [lia|]. cbn [for_each run_body]. by rewrite Hspec.
  - destruct Hspec as (a & c & b & Hlen & Hit' & Hc' & He' & ->). apply (IH b Hlen fuel a c it' e' s'); try done. lia.
Qed.

(** The iterator once the first cluster is read, before its first [++]. *)
Definition fresh_iterator (c : Z) (bytes : list Z) : Iterator := mkIter c bytes 0 true false 0 0 [] [].

Lemma begin_reads fuel c bytes :
  (read_raw (offset_of c) (cluster_size (BPB (BR fs)))).2 = bytes -> length bytes = Z.to_nat (cluster_size (BPB (BR fs))) ->
  begin read_raw fresh fs fuel c = next_entry read_raw fresh fs fuel (fresh_iterator c bytes).
Proof.
  intros Hread Hlen. unfold begin, ReadNextCluster. cbn [ClusterIndex ClusterContents].
  destruct (cluster_to_sector_done c) as (sec & Es & Eo). rewrite Es. cbn [mbind outcome_bind].
  unfold offset_of in Hread. rewrite Eo in Hread. rewrite Hread. unfold into. rewrite Hfresh, Hlen, Nat.leb_refl. cbn [mbind outcome_bind].
  by rewrite drop_ge, app_nil_r by (rewrite Hfresh; lia).
Qed.

(** The loop over a directory runs its body over the directory's files. *)
Lemma for_each_dir_entry_in_spec {T R : Type} fuel c es (body : EntryType -> T -> outcome (T + R)) s :
  directory_at c es -> (length es + 3 < fuel)%nat ->
  for_each_dir_entry_in read_raw fresh fs fuel c body s = run_body body (listing [] es) s.
Proof.
  intros (first & bytes & Hlen & Hread & L) Hf. unfold for_each_dir_entry_in. rewrite (begin_reads fuel c bytes Hread Hlen).
  set (it := fresh_iterator c bytes).
  destruct (advance_spec fuel [first] es (with_CE (S (ce_index it)) it)) as (it' & E & Hspec); [by split|lia|].
  unfold next_entry. rewrite E. cbn [mbind outcome_bind]. unfold collected in Hspec. cbn [with_CE ClearLFN it ELongFileName fresh_iterator] in Hspec.
  destruct (listing [] es) as [|e l].
  - destruct fuel as [|fuel']; [lia|]. cbn [for_each run_body]. by rewrite Hspec.
  - destruct Hspec as (a & ce & b & _ & Hlb & Hit' & Hc' & He' & ->). apply (for_each_entry_spec fuel body a ce b it' e s); try done. lia.
Qed.

(** On a deleted entry the iterator does not move. *)
Lemma advance_deleted fuel it ce :
  MoreClusters it = true -> entry_at (ClusterContents it) (ce_index it) = Done ce -> FileName0 ce = 0xe5 ->
  advance read_raw fresh fs fuel it = Stop Hung.
Proof.
  intros Hm He H5. induction fuel as [|fuel IH]; [done|]. cbn [advance]. rewrite Hm, He. cbn [negb mbind outcome_bind]. by rewrite H5.
Qed.

(** ** Paths *)

(** The directory of each cluster that is one. *)
Context (dirs : Z -> option (list (list Z))).
Context (largest : nat).
Hypothesis (Hdirs : forall c es, dirs c = Some es -> directory_at c es /\ c ≠ 2 ^ 32 - 1 /\ (length es <= largest)%nat).

(** What a path means, component by component: [None] when a directory on the
    way cannot be read, else the name looked for and the entry found, if any. *)
Fixpoint resolve (comps : list (list Z)) (c : Z) : option (option (list Z * EntryType)) :=
  match comps with
  | [] => Some None
  | n :: comps =>
      es ← dirs c;
      t ← (match translate_filename n with Done t => Some t | Stop _ => None end);
      match List.find (names t) (listing [] es) with
      | None => Some None
      | Some e =>
          match comps with
          | [] => Some (Some (t, e))
          | _ => if directory (CE e) then resolve comps (get_cluster_number (CE e)) else Some None
          end
      end
  end.

Definition component (n : list Z) : Prop := n ≠ [] /\ slash ∉ n.

Definition join_path (comps : list (list Z)) : list Z := comps ≫= cons slash.

Lemma find_first_slash n rest :
  slash ∉ n -> find_first slash (n ++ rest) = (fun i => length n + i)%nat <$> find_first slash rest.
Proof.
  unfold find_first. induction n as [|c n IH]; intros Hn; cbn [app list_find].
  - by destruct (list_find _ rest) as [[i x]|].
  - apply not_elem_of_cons in Hn as [Hc Hn]. rewrite decide_False by done. specialize (IH Hn).
    destruct (list_find _ (n ++ rest)) as [[i x]|]; destruct (list_find _ rest) as [[j y]|]; cbn in *; try done.
    by injection IH as ->.
Qed.

Lemma pop_component n comps :
  component n -> Forall component comps ->
  pop_filename_from_front_of_path (n ++ join_path comps) = (n, match comps with [] => n | _ => join_path comps end) /\
  strip_slash (slash :: n ++ join_path comps) = n ++ join_path comps /\ n ++ join_path comps ≠ [].
Proof.
  intros [Hne Hs] Hc. destruct n as [|c n]; [done|]. split_and!; [|done|done].
  assert (Hsl : (c =? slash) = false) by (apply Z.eqb_neq; intros ->; apply Hs; by left).
  unfold pop_filename_from_front_of_path. cbn [app strip_slash]. rewrite Hsl.
  change (c :: n ++ join_path comps) with ((c :: n) ++ join_path comps). rewrite find_first_slash by done.
  destruct Hc as [|d comps [Hd _] _]; [cbn; by rewrite app_nil_r|].
  change (join_path (d :: comps)) with (slash :: d ++ join_path comps). unfold find_first at 1. cbn [list_find]. rewrite decide_True by done.
  cbn [fmap option_fmap option_map fst]. rewrite Nat.add_0_r, take_app_length, drop_app_length. by destruct d.
Qed.

Lemma translate_total n : n ≠ [] -> exists t, translate_filename n = Done t.
Proof.
  intros Hn. unfold translate_filename. destruct (_ && _); [by eexists|]. destruct (_ <=? _)%nat; [|by eexists].
  destruct n; [done|]. cbn [length fmap list_fmap Nat.eqb]. destruct (find_last _ _); destruct (_ <? _)%nat; by eexists.
Qed.

(** A body that stops at the first file with the name. *)
Lemma run_body_find {R : Type} t (body : EntryType -> unit -> outcome (unit + R)) found l :
  (forall e, body e tt = if negb (names t e) then Done (inl tt) else r ← found e; Done (inr r)) ->
  run_body body l tt = match List.find (names t) l with None => Done (inl tt) | Some e => r ← found e; Done (inr r) end.
Proof.
  intros Hb. induction l as [|e l IH]; [done|]. cbn [run_body List.find]. rewrite Hb. destruct (names t e); cbn [negb]; [|done].
  by destruct (found e).
Qed.

Definition meta_of (device : Z) (r : list Z * EntryType) : FileMetadata :=
  make_meta (entry_type_of (CE r.2)) (string_of_bytes r.1) (FatDriver device) (FileSizeInBytes (CE r.2)) (ByteOffset r.2).

Lemma traverse_path_spec fuel device comps c r :
  Forall component comps -> comps ≠ [] -> resolve comps c = Some r -> (length comps + largest + 4 < fuel)%nat ->
  traverse_path read_raw fresh fs fuel device (join_path comps) c = Done (meta_of device <$> r).
Proof.
  intros Hc. revert fuel c. induction Hc as [|n comps Hn Hc IH]; intros fuel c Hne Hr Hf; [done|]. clear Hne.
  destruct fuel as [|fuel]; [lia|]. cbn [length] in Hf. cbn [resolve] in Hr.
  destruct (dirs c) as [es|] eqn:Ed; [|done]. destruct (Hdirs c es Ed) as (D & Hc1 & Hlen). cbn [mbind option_bind] in Hr.
  destruct (translate_total n (proj1 Hn)) as [t Et]. rewrite Et in Hr. cbn [mbind option_bind] in Hr.
  destruct (pop_component n comps Hn Hc) as (Epop & Estrip & Hnil).
  cbn [traverse_path]. rewrite (proj2 (Z.eqb_neq _ _) Hc1). cbn [mbind outcome_bind].
  change (join_path (n :: comps)) with (slash :: n ++ join_path comps). rewrite Estrip.
  destruct (n ++ join_path comps) as [|x xs] eqn:Ex; [done|]. rewrite <- Ex in *. clear x xs Ex. rewrite Epop, Et. cbn [mbind outcome_bind].
  set (path := match comps with [] => n | _ => join_path comps end).
  rewrite (for_each_dir_entry_in_spec fuel c es _ tt D) by lia.
  rewrite (run_body_find t _ (fun e => if decide (path = n) then Done (Some (meta_of device (t, e)))
      else if negb (directory (CE e)) then Done None
      else traverse_path read_raw fresh fs fuel device path (get_cluster_number (CE e))) (listing [] es)).
  2: { intros e. destruct (names t e); cbn [negb]; [|done]. destruct (decide (path = n)); [done|]. by destruct (directory (CE e)). }
  destruct (List.find (names t) (listing [] es)) as [e|]; [|by injection Hr as <-].
  destruct comps as [|d comps].
  - rewrite decide_True by done. injection Hr as <-. done.
  - rewrite decide_False.
    2: { unfold path. intros E. apply (proj2 Hn). rewrite <- E. cbn. by left. }
    destruct (directory (CE e)); cbn [negb]; [|by injection Hr as <-].
    unfold path. rewrite (IH fuel _ ltac:(done) Hr) by (cbn [length] in *; lia). done.
Qed.

End Directories.

(** ** Clusters and sectors *)

(** The ranges of the fields, and sizes the checks of [try_create] let through
    (a cluster of no sectors apart). *)
Record sane (br : BootRecord) : Prop := {
  sane_bps : 512 <= NumBytesPerSector (BPB br) <= 4096;
  sane_spc : NumSectorsPerCluster (BPB br) ∈ [1; 2; 4; 8; 16; 32; 64; 128];
  sane_reserved : 0 <= NumReservedSectors (BPB br) < 2 ^ 16;
  sane_fats : 0 <= NumFATsPresent (BPB br) < 2 ^ 8;
  sane_fat : 0 <= fat_sectors br < 2 ^ 32;
  sane_root : 0 <= NumEntriesInRoot (BPB br) < 2 ^ 16
}.

Lemma power_of_two_byte n : 0 < n < 256 -> Z.land n (n - 1) = 0 -> n ∈ [1; 2; 4; 8; 16; 32; 64; 128].
Proof.
  assert (H : Forall (fun n => Z.land n (n - 1) = 0 -> n ∈ [1; 2; 4; 8; 16; 32; 64; 128]) (seqZ 1 255)).
  { apply (bool_decide_unpack _). by vm_compute. }
  rewrite Forall_forall in H. intros Hn. apply H, elem_of_seqZ. lia.
Qed.

Lemma le_range l : Forall is_byte l -> 0 <= le l < 256 ^ Z.of_nat (length l).
Proof.
  unfold is_byte. induction 1 as [|b l Hb _ IH]; cbn [le length]; [lia|]. rewrite Nat2Z.inj_succ, Z.pow_succ_r by lia. lia.
Qed.

Lemma field_range l off n : Forall is_byte l -> 0 <= field l off n < 256 ^ Z.of_nat n.
Proof.
  intros H. unfold field. pose proof (le_range (take n (drop off l)) (Forall_take _ _ _ (Forall_drop _ _ _ H))) as Hr.
  split; [lia|]. eapply Z.lt_le_trans; [apply Hr|]. apply Z.pow_le_mono_r; [lia|]. rewrite length_take. lia.
Qed.

(** An accepted boot record with a cluster of at least one sector has sector,
    cluster and table sizes in the ranges the arithmetic on sectors relies on. *)
Lemma accepted_is_sane bytes :
  Forall is_byte bytes -> is_fat (boot_record bytes) = true -> NumSectorsPerCluster (BPB (boot_record bytes)) ≠ 0 ->
  sane (boot_record bytes).
Proof.
  intros Hb H Hspc. unfold is_fat in H. rewrite !andb_true_iff in H.
  destruct H as ((((((_ & _) & H1) & H2) & _) & H3) & _).
  pose proof (fun o n => field_range bytes o n Hb) as R.
  split; cbn [boot_record BPB NumBytesPerSector NumSectorsPerCluster NumReservedSectors NumFATsPresent
    NumEntriesInRoot NumSectorsPerFAT] in *.
  - lia.
  - specialize (R 13%nat 1%nat). change (256 ^ Z.of_nat 1) with 256 in R. apply power_of_two_byte; [lia|]. by apply Z.eqb_eq.
  - exact (R 14%nat 2%nat).
  - exact (R 16%nat 1%nat).
  - unfold fat_sectors, extension32_sectors_per_fat. cbn [boot_record BPB NumSectorsPerFAT Extended].
    pose proof (field_range (take 54 (drop 36 bytes)) 0 4 ltac:(by apply Forall_take, Forall_drop)) as R1.
    pose proof (R 22%nat 2%nat) as R2. change (256 ^ Z.of_nat 4) with (2 ^ 32) in R1. change (256 ^ Z.of_nat 2) with (2 ^ 16) in R2.
    destruct (field bytes 22 2 =? 0); lia.
  - exact (R 17%nat 2%nat).
Qed.

(** The first sector of a FAT32 volume. *)
Definition example_boot_sector : list Z :=
  [0xeb; 0xfe; 0x90] ++ replicate 8 32 ++ [0; 2; 4; 32; 0; 2; 0; 0; 0; 0; 0xf8; 0; 0; 0; 0; 0; 0; 0; 0; 0; 0; 0; 0; 4; 0; 128; 0; 0; 0]
  ++ replicate 470 0 ++ [0x55; 0xaa].

Lemma first_data_sector_done br :
  sane br -> exists r f, root_directory_sectors (BPB br) = Done r /\ first_data_sector br = Done f /\ 0 <= r <= 2 ^ 13 /\ r <= f < 2 ^ 41.
Proof.
  intros [Hb Hs Hr Hf Hfs He]. unfold first_data_sector, root_directory_sectors, divide, FAT_DIRECTORY_SIZE_BYTES.
  rewrite (proj2 (Z.eqb_neq _ 0)) by lia. cbn [mbind outcome_bind]. do 2 eexists. split_and!; try reflexivity.
  - apply Z.div_pos; lia.
  - apply Z.lt_succ_r, Z.div_lt_upper_bound; nia.
  - nia.
  - assert (Hq : (NumEntriesInRoot (BPB br) * 32 + (NumBytesPerSector (BPB br) - 1)) / NumBytesPerSector (BPB br) < 2 ^ 14)
      by (apply Z.div_lt_upper_bound; nia).
    assert (NumFATsPresent (BPB br) * fat_sectors br <= 2 ^ 8 * 2 ^ 32) by (apply Z.mul_le_mono_nonneg; lia). lia.
Qed.

Ltac each_size H := repeat (apply elem_of_cons in H as [H|H]); [..|by apply not_elem_of_nil in H]; rewrite H in *.

(** Cluster numbers and sectors: every data cluster has its own sectors,
    [sector_to_cluster] finds the cluster of any sector of it, and
    [cluster_to_sector] of consecutive clusters is consecutive. *)
Theorem cluster_sector_round_trip br c k :
  sane br -> 2 <= c < 2 ^ 32 -> 0 <= k < NumSectorsPerCluster (BPB br) ->
  exists s, cluster_to_sector br c = Done s /\ sector_to_cluster br (s + k) = Done c /\
    cluster_to_sector br (c + 1) = Done (s + NumSectorsPerCluster (BPB br)).
Proof.
  intros S Hc Hk. destruct (first_data_sector_done br S) as (r & f & Er & Ef & Hr & Hf). pose proof (sane_spc _ S) as Hs.
  unfold cluster_to_sector, sector_to_cluster, divide. rewrite Ef. cbn [mbind outcome_bind].
  set (n := NumSectorsPerCluster (BPB br)) in *. assert (Hn : 1 <= n <= 128) by (each_size Hs; lia).
  assert (E1 : (c -64 2) *64 n +64 f = (c - 2) * n + f).
  { rewrite (wrap64_small (c - 2)), (wrap64_small ((c - 2) * n)) by (unfold is_u64; nia). apply wrap64_small. unfold is_u64. nia. }
  assert (E2 : (c + 1 -64 2) *64 n +64 f = (c - 2) * n + f + n).
  { rewrite (wrap64_small (c + 1 - 2)), (wrap64_small ((c + 1 - 2) * n)) by (unfold is_u64; nia).
    rewrite wrap64_small by (unfold is_u64; nia). lia. }
  eexists. split_and!; [reflexivity| |by rewrite E1, E2].
  rewrite E1, (proj2 (Z.eqb_neq n 0)) by lia. cbn [mbind outcome_bind]. f_equal.
  rewrite (wrap64_small ((c - 2) * n + f + k - f)) by (unfold is_u64; nia).
  replace ((c - 2) * n + f + k - f) with ((c - 2) * n + k) by lia. rewrite Z.div_add_l, (Z.div_small k n) by lia.
  rewrite wrap64_small by (unfold is_u64; lia). lia.
Qed.

(** ** Which volumes are taken for FAT *)

(** The bytes of the first sector that the checks are about: the signature, a
    sector of 512, 1024, 2048 or 4096 bytes, a cluster of no sector or of a power
    of two, a number of tables, a number of sectors in one of the two fields. *)
Record fat_volume (bytes : list Z) : Prop := {
  fv_signature : bytes !! 510%nat = Some 0x55 /\ bytes !! 511%nat = Some 0xaa;
  fv_sector : bytes !! 11%nat = Some 0 /\ (exists b, bytes !! 12%nat = Some b /\ b ∈ [2; 4; 8; 16]);
  fv_cluster : exists b, bytes !! 13%nat = Some b /\ b ∈ [0; 1; 2; 4; 8; 16; 32; 64; 128];
  fv_tables : bytes !! 16%nat ≠ Some 0;
  fv_sectors : exists i, i ∈ [19; 20; 32; 33; 34; 35]%nat /\ bytes !! i ≠ Some 0
}.

Lemma field_cons bytes off n b : bytes !! off = Some b -> field bytes off (S n) = b + 256 * field bytes (S off) n.
Proof. intros H. unfold field. by rewrite (drop_S _ _ _ H). Qed.

Lemma field_nil bytes off : field bytes off 0 = 0.
Proof. unfold field. by rewrite take_0. Qed.

Lemma sector_size_bytes lo hi :
  0 <= lo < 256 -> 0 <= hi < 256 ->
  (512 <=? lo + 256 * hi) && (lo + 256 * hi <=? 4096) && (Z.land (lo + 256 * hi) (lo + 256 * hi - 1) =? 0) = true <-> lo = 0 /\ hi ∈ [2; 4; 8; 16].
Proof.
  intros Hlo Hhi.
  assert (H : Forall (fun n => (512 <=? n) && (n <=? 4096) && (Z.land n (n - 1) =? 0) = true <-> n mod 256 = 0 /\ n / 256 ∈ [2; 4; 8; 16]) (seqZ 0 4097))
    by (apply (bool_decide_unpack _); vm_compute; done).
  assert (E : (lo + 256 * hi) mod 256 = lo /\ (lo + 256 * hi) / 256 = hi) by dlia. destruct E as [E1 E2].
  destruct (Z.le_gt_cases (lo + 256 * hi) 4096) as [Hle|Hgt].
  - rewrite Forall_forall in H. specialize (H (lo + 256 * hi)). rewrite E1, E2 in H. apply H, elem_of_seqZ. lia.
  - rewrite (proj2 (Z.leb_gt _ 4096)), andb_false_r by lia. split; [done|]. intros [-> Hin]. each_size Hin; lia.
Qed.

Lemma cluster_size_byte n : 0 <= n < 256 -> (Z.land n (n - 1) =? 0) = true <-> n ∈ [0; 1; 2; 4; 8; 16; 32; 64; 128].
Proof.
  assert (H : Forall (fun n => (Z.land n (n - 1) =? 0) = true <-> n ∈ [0; 1; 2; 4; 8; 16; 32; 64; 128]) (seqZ 0 256))
    by (apply (bool_decide_unpack _); vm_compute; done).
  rewrite Forall_forall in H. intros Hn. apply H, elem_of_seqZ. lia.
Qed.

Lemma byte_at bytes i : length bytes = 512%nat -> Forall is_byte bytes -> (i <? 512)%nat = true -> exists b, bytes !! i = Some b /\ 0 <= b < 256.
Proof.
  intros Hl Hb Hi%Nat.ltb_lt. rewrite <- Hl in Hi. destruct (lookup_lt_is_Some_2 bytes i Hi) as [b Hbi]. exists b. split; [done|]. by eapply Forall_lookup_1 in Hb.
Qed.

(** The checks of [try_create] are those of [fat_volume]. *)
Lemma is_fat_spec bytes : length bytes = 512%nat -> Forall is_byte bytes -> is_fat (boot_record bytes) = true <-> fat_volume bytes.
Proof.
  intros Hl Hb. pose proof (fun i => byte_at bytes i Hl Hb) as B.
  destruct (B 510%nat eq_refl) as (m0 & M0 & Rm0). destruct (B 511%nat eq_refl) as (m1 & M1 & Rm1). destruct (B 11%nat eq_refl) as (lo & L0 & Rlo).
  destruct (B 12%nat eq_refl) as (hi & L1 & Rhi). destruct (B 13%nat eq_refl) as (c & C & Rc). destruct (B 16%nat eq_refl) as (n & N & Rn).
  destruct (B 19%nat eq_refl) as (t0 & T0 & Rt0). destruct (B 20%nat eq_refl) as (t1 & T1 & Rt1). destruct (B 32%nat eq_refl) as (u0 & U0 & Ru0).
  destruct (B 33%nat eq_refl) as (u1 & U1 & Ru1). destruct (B 34%nat eq_refl) as (u2 & U2 & Ru2). destruct (B 35%nat eq_refl) as (u3 & U3 & Ru3).
  unfold is_fat, total_sectors. cbn [boot_record BPB Magic NumBytesPerSector NumSectorsPerCluster NumFATsPresent TotalSectors16 TotalSectors32].
  rewrite (field_cons _ 510 1 _ M0), (field_cons _ 511 0 _ M1), (field_cons _ 11 1 _ L0), (field_cons _ 12 0 _ L1), (field_cons _ 13 0 _ C),
    (field_cons _ 16 0 _ N), (field_cons _ 19 1 _ T0), (field_cons _ 20 0 _ T1), (field_cons _ 32 3 _ U0), (field_cons _ 33 2 _ U1),
    (field_cons _ 34 1 _ U2), (field_cons _ 35 0 _ U3), !field_nil, !Z.mul_0_r, !Z.add_0_r.
  pose proof (sector_size_bytes lo hi Rlo Rhi) as Hs. pose proof (cluster_size_byte c Rc) as Hc.
  rewrite !andb_true_iff in Hs. rewrite !andb_true_iff, negb_true_iff, (Z.eqb_eq (m0 + _)), Z.eqb_neq, Z.ltb_lt.
  assert (Ht : (if t0 + 256 * t1 =? 0 then u0 + 256 * (u1 + 256 * (u2 + 256 * u3)) else t0 + 256 * t1) ≠ 0 <->
    t0 ≠ 0 \/ t1 ≠ 0 \/ u0 ≠ 0 \/ u1 ≠ 0 \/ u2 ≠ 0 \/ u3 ≠ 0) by (destruct (Z.eqb_spec (t0 + 256 * t1) 0); lia).
  rewrite Ht. clear Ht. split.
  - intros ((((((Hm & Ht) & H1) & H2) & H3) & H4) & H5). destruct (proj1 Hs) as [-> Hhi]; [tauto|]. split.
    + rewrite M0, M1. split; f_equal; lia.
    + rewrite L0. split; [done|]. by exists hi.
    + exists c. split; [done|]. by apply Hc.
    + rewrite N. intros [= ->]. lia.
    + destruct Ht as [?|[?|[?|[?|[?|?]]]]]; [exists 19%nat|exists 20%nat|exists 32%nat|exists 33%nat|exists 34%nat|exists 35%nat];
        (split; [by apply (bool_decide_unpack _)|]); rewrite ?T0, ?T1, ?U0, ?U1, ?U2, ?U3; congruence.
  - intros [[S0 S1] [Z0 (b & Z1 & Hb1)] (b2 & Z2 & Hb2) H0 (i & Hi & Hi0)].
    rewrite M0 in S0. rewrite M1 in S1. rewrite L0 in Z0. rewrite L1 in Z1. rewrite C in Z2. rewrite N in H0.
    injection S0 as ->. injection S1 as ->. injection Z0 as ->. injection Z1 as <-. injection Z2 as <-.
    destruct (proj2 Hs (conj eq_refl Hb1)) as [[? ?] ?]. split_and!; try done; [|by apply Hc|assert (n ≠ 0) by congruence; lia].
    rewrite !elem_of_cons, elem_of_nil in Hi. destruct Hi as [->|[->|[->|[->|[->|[->|[]]]]]]];
      rewrite ?T0, ?T1, ?U0, ?U1, ?U2, ?U3 in Hi0; assert (forall x y : Z, Some x ≠ Some y -> x ≠ y) as X by congruence; apply X in Hi0; tauto.
Qed.

Lemma make_driver_done br : sane br -> exists fs, make_driver br = Done fs /\ BR fs = br.
Proof.
  intros S. destruct (first_data_sector_done br S) as (r & f & _ & Ef & _). pose proof (sane_spc _ S) as Hn.
  unfold make_driver, fat_type, total_clusters, data_sectors, divide. rewrite Ef. cbn [mbind outcome_bind].
  rewrite (proj2 (Z.eqb_neq (NumSectorsPerCluster _) 0)) by (intros E; rewrite E in Hn; each_size Hn; done). cbn [mbind outcome_bind]. by eexists.
Qed.

(** C27: [try_create] takes a device for a FAT volume exactly if the device gives
    the whole first sector and its bytes pass the listed checks: signature, sector
    size of 512 to 4096 bytes that is a power of two, cluster size that is a power
    of two, at least one table, a number of sectors that is not zero. The driver
    then has this boot record, and every cluster number from 2 to 2^32-1 has
    sectors of its own, from which the number is found again. The only other
    outcome is that of a cluster of no sectors, which passes the checks: the driver
    divides by zero. *)
Theorem fat_volumes_are_recognised read_raw fresh n bytes :
  length bytes = 512%nat -> Forall is_byte bytes -> length (fresh 512%nat) = 512%nat -> read_raw 0 512 = (n, bytes) ->
  (n ≠ 512 \/ ~ fat_volume bytes -> try_create read_raw fresh = Done None) /\
  (n = 512 -> fat_volume bytes -> bytes !! 13%nat = Some 0 -> try_create read_raw fresh = Stop Undefined) /\
  (n = 512 -> fat_volume bytes -> bytes !! 13%nat ≠ Some 0 -> exists fs, try_create read_raw fresh = Done (Some fs) /\ BR fs = boot_record bytes /\
     forall c k, 2 <= c < 2 ^ 32 -> 0 <= k < NumSectorsPerCluster (BPB (BR fs)) ->
       exists s, cluster_to_sector (BR fs) c = Done s /\ sector_to_cluster (BR fs) (s + k) = Done c /\
         cluster_to_sector (BR fs) (c + 1) = Done (s + NumSectorsPerCluster (BPB (BR fs)))).
Proof.
  intros Hl Hb Hf Hr. unfold try_create, sizeof_boot_record. rewrite Hr.
  assert (Ei : into (fresh 512%nat) bytes = Done bytes) by (unfold into; rewrite Hl, Hf, drop_ge, app_nil_r by lia; done). rewrite Ei. cbn [mbind outcome_bind].
  pose proof (is_fat_spec bytes Hl Hb) as Hs. destruct (byte_at bytes 13 Hl Hb eq_refl) as (c & Hc & Rc).
  assert (Ec : NumSectorsPerCluster (BPB (boot_record bytes)) = c) by (cbn; rewrite (field_cons _ 13 0 _ Hc), field_nil; lia).
  split_and!.
  - intros H. destruct (Z.eqb_spec n 512) as [En|En]; [|done]. destruct H as [?|H]; [done|]. cbn [negb].
    destruct (is_fat (boot_record bytes)); [|done]. by destruct H; apply Hs.
  - intros -> V H0. rewrite Z.eqb_refl, (proj2 Hs V). cbn [negb]. rewrite Hc in H0. injection H0 as ->.
    assert (V' := proj2 Hs V). unfold is_fat in V'. rewrite !andb_true_iff in V'. destruct V' as ((((((_ & _) & H1) & _) & _) & _) & _).
    unfold make_driver, fat_type, total_clusters, data_sectors, first_data_sector, root_directory_sectors, divide.
    rewrite (proj2 (Z.eqb_neq (NumBytesPerSector _) 0)) by lia. cbn [mbind outcome_bind]. by rewrite Ec.
  - intros -> V H0. rewrite Z.eqb_refl, (proj2 Hs V). cbn [negb].
    assert (S : sane (boot_record bytes)) by (apply accepted_is_sane; [done|by apply Hs|congruence]).
    destruct (make_driver_done _ S) as (fs & -> & Efs). cbn [mbind outcome_bind]. exists fs. rewrite Efs. split_and!; [done..|].
    intros c' k Hc' Hk. by apply cluster_sector_round_trip.
Qed.

Lemma example_boot_sector_fat : fat_volume example_boot_sector.
Proof.
  split; [split; reflexivity|split; [reflexivity|exists 2; split; [reflexivity|set_solver]]|exists 4; split; [reflexivity|set_solver]|discriminate|].
  exists 34%nat. split; [by apply (bool_decide_unpack _)|discriminate].
Qed.

Lemma fat_volumes_are_recognised_witness :
  exists fs, try_create (fun _ _ => (512, example_boot_sector)) (fun n => replicate n 0) = Done (Some fs) /\
    exists s, cluster_to_sector (BR fs) 7 = Done s /\ sector_to_cluster (BR fs) (s + 3) = Done 7.
Proof.
  destruct (fat_volumes_are_recognised (fun _ _ => (512, example_boot_sector)) (fun n => replicate n 0) 512 example_boot_sector) as (_ & _ & H);
    [reflexivity|apply (bool_decide_unpack (Forall (fun b => 0 <= b < 256) _)); vm_compute; reflexivity|reflexivity|reflexivity|].
  destruct H as (fs & E & Eb & H); [reflexivity|exact example_boot_sector_fat|discriminate|]. exists fs. split; [exact E|].
  destruct (H 7 3) as (s & H1 & H2 & _); [lia|rewrite Eb; split; [lia|reflexivity]|]. by exists s.
Defined.

Definition example_fat : BootRecord := mkBr (mkBpb [] [] 512 4 32 2 0 0 0xf8 0 0 0 0 262144) [128; 0; 0; 0] [] 0xaa55.

Lemma example_fat_sane : sane example_fat.
Proof. split; cbn; try lia. set_solver. Qed.

Lemma cluster_sector_round_trip_witness :
  exists s, cluster_to_sector example_fat 7 = Done s /\ sector_to_cluster example_fat (s + 3) = Done 7 /\
    cluster_to_sector example_fat (7 + 1) = Done (s + NumSectorsPerCluster (BPB example_fat)).
Proof. apply (cluster_sector_round_trip example_fat 7 3); [apply example_fat_sane|lia|cbn; lia]. Defined.

(** The driver finds the root directory by turning its first sector into a
    cluster number of 32 bits and back.  It arrives at the right sector exactly
    when the root directory area is empty (FAT32), one cluster or two clusters
    long; otherwise the listing starts at another sector. *)
Theorem root_directory_found_iff fs c s r :
  sane (BR fs) -> root_cluster fs = Done c -> first_root_directory_sector (BR fs) = Done s -> root_directory_sectors (BPB (BR fs)) = Done r ->
  cluster_to_sector (BR fs) c = Done s <->
    exists k, 0 <= k <= 2 /\ r = k * NumSectorsPerCluster (BPB (BR fs)).
Proof.
  intros S Hc Hs Hr0. destruct (first_data_sector_done _ S) as (r' & f & Er & Ef & Hr & Hf). rewrite Hr0 in Er. injection Er as <-.
  pose proof (sane_spc _ S) as Hn. unfold root_cluster in Hc. rewrite Hs in Hc. cbn [mbind outcome_bind] in Hc.
  unfold first_root_directory_sector in Hs. rewrite Ef, Hr0 in Hs. cbn [mbind outcome_bind] in Hs. injection Hs as <-.
  unfold sector_to_cluster, divide in Hc. unfold cluster_to_sector. rewrite Ef in *. cbn [mbind outcome_bind] in *.
  set (n := NumSectorsPerCluster (BPB (BR fs))) in *.
  rewrite (proj2 (Z.eqb_neq n 0)) in Hc by (each_size Hn; lia). cbn [mbind outcome_bind] in Hc. injection Hc as <-.
  rewrite (wrap64_small (f - r)) by (unfold is_u64; lia). replace (f - r - f) with (- r) by lia.
  set (q := (r + n - 1) / n).
  assert (Hq : wrap32 (wrap64 (- r) / n +64 2) = (2 - q) mod 2 ^ 32).
  { unfold q, wrap32, wrap64. each_size Hn; dlia. }
  rewrite Hq. assert (Hqn : q * n - n < r <= q * n /\ 0 <= q) by (unfold q; each_size Hn; dlia).
  assert (Hn' : 1 <= n <= 128) by (each_size Hn; lia). clearbody q n. clear Hn Hq.
  destruct (Z.le_gt_cases q 2) as [Hle|Hgt].
  - assert (Ew : ((2 - q) mod 2 ^ 32 -64 2) *64 n +64 f = wrap64 (f - q * n)).
    { rewrite Z.mod_small by lia. unfold wrap64. rewrite Zmult_mod_idemp_l, Zplus_mod_idemp_l. f_equal. lia. }
    assert (Ec : wrap64 (f - q * n) = f - q * n \/ wrap64 (f - q * n) = f - q * n + 2 ^ 64).
    { destruct (Z.le_gt_cases (q * n) f); [left; apply wrap64_small; unfold is_u64; nia|right].
      symmetry. apply (Z.mod_unique _ _ (-1)); nia. }
    rewrite Ew. split; [intros [= H]; exists q; nia|]. intros (k & Hk & ->). f_equal. assert (k = q) as -> by nia.
    apply wrap64_small. unfold is_u64. lia.
  - assert (Hq14 : q <= 2 ^ 14) by nia.
    assert (Ew : ((2 - q) mod 2 ^ 32 -64 2) *64 n +64 f = (2 ^ 32 - q) * n + f).
    { replace ((2 - q) mod 2 ^ 32) with (2 ^ 32 + (2 - q)) by (apply (Z.mod_unique _ _ (-1)); lia).
      rewrite (wrap64_small (2 ^ 32 + (2 - q) - 2)) by (unfold is_u64; nia).
      rewrite (wrap64_small (_ * n)) by (unfold is_u64; nia). rewrite wrap64_small by (unfold is_u64; nia). lia. }
    rewrite Ew. split; [intros [= H]; nia|]. intros (k & Hk & ->). nia.
Qed.

(** A volume of 4-sector clusters with 512 entries in its root directory. *)
Definition example_fat16 : FileAllocationTableDriver := mkFat (mkBr (mkBpb [] [] 512 4 4 2 512 0 0xf8 64 0 0 0 65536) [] [] 0xaa55) FAT16.

Lemma root_directory_found_iff_witness :
  cluster_to_sector (BR example_fat16) 4294967290 = Done 132 <->
    exists k, 0 <= k <= 2 /\ 32 = k * NumSectorsPerCluster (BPB (BR example_fat16)).
Proof.
  apply (root_directory_found_iff example_fat16); try reflexivity. split; cbn; try lia. set_solver.
Defined.

(** ** File names *)

(** Characters of a short name. *)
Definition name_char (c : Z) : Prop := 33 <= c < 127 /\ c ≠ dot.

Lemma tolower_toupper c : tolower (toupper c) = tolower c.
Proof. unfold toupper. zcases; cbn; unfold tolower; zcases; cbn; lia. Qed.

Lemma toupper_name_char c : name_char c -> name_char (toupper c).
Proof. unfold name_char, toupper, dot. intros H. zcases; cbn; lia. Qed.

Lemma toupper_chars l : Forall name_char l -> Forall name_char (toupper <$> l).
Proof. intros H. apply Forall_fmap. eapply Forall_impl; [done|]. apply toupper_name_char. Qed.

Lemma find_last_dot name ext :
  dot ∉ ext -> find_last dot (name ++ dot :: ext) = Some (length name).
Proof.
  intros He. unfold find_last, find_first. rewrite reverse_app, reverse_cons, <- app_assoc.
  assert (H : list_find (fun x => x = dot) (reverse ext ++ dot :: reverse name) = Some (length ext, dot)).
  { apply list_find_Some. rewrite lookup_app_r by (rewrite length_reverse; lia). rewrite length_reverse, Nat.sub_diag. split_and!; [done|done|].
    intros j y Hj Hlt. rewrite lookup_app_l in Hj by (rewrite length_reverse; lia).
    apply list_elem_of_lookup_2 in Hj. rewrite elem_of_reverse in Hj. by intros ->. }
  cbn [app]. rewrite H. cbn. f_equal. rewrite length_app. cbn. lia.
Qed.

Lemma no_dot l : Forall name_char l -> dot ∉ l.
Proof. intros H Hin. rewrite Forall_forall in H. by apply (H _ Hin). Qed.

(** The 8.3 form of a name with an extension. *)
Definition pad (n : nat) (l : list Z) : list Z := l ++ replicate (n - length l) space.

Lemma translate_short name ext :
  Forall name_char name -> Forall name_char ext -> (length name <= 8)%nat -> (1 <= length ext <= 3)%nat ->
  translate_filename (name ++ dot :: ext) = Done (pad 8 (toupper <$> name) ++ pad 3 (toupper <$> ext)).
Proof.
  intros Hn He Ln Le. unfold translate_filename. rewrite fmap_app. cbn [fmap list_fmap]. change (toupper dot) with dot.
  fold (fmap (M:=list) toupper ext). set (N := toupper <$> name). set (X := toupper <$> ext).
  assert (LN : length N = length name) by (unfold N; by rewrite length_fmap).
  assert (LX : length X = length ext) by (unfold X; by rewrite length_fmap).
  rewrite length_app, LN. cbn [length]. rewrite LX. unfold pad. rewrite LN, LX.
  destruct (Nat.eqb_spec (length name + S (length ext)) 12) as [E|E]; cbn [andb].
  - assert (E8 : length name = 8%nat) by lia. assert (E3 : length ext = 3%nat) by lia.
    rewrite bool_decide_true by (rewrite lookup_app_r, LN, E8 by lia; done).
    rewrite E8, E3, Nat.sub_diag. cbn [replicate]. rewrite !app_nil_r. f_equal.
    rewrite <- E8, <- LN. rewrite delete_middle. done.
  - rewrite (proj2 (Nat.leb_le _ _)) by lia. rewrite (proj2 (Nat.eqb_neq _ _)) by lia.
    rewrite find_last_dot by (apply no_dot, toupper_chars; done). rewrite LN. rewrite (proj2 (Nat.ltb_ge _ _)) by lia.
    rewrite take_app_length' by done. rewrite LN. f_equal. f_equal.
    rewrite <- drop_drop, drop_app_length' by done. cbn [drop]. rewrite drop_0, take_app_ge by lia. f_equal. rewrite LX.
    destruct ext as [|? [|? [|? [|]]]]; cbn [length] in *; try lia; done.
Qed.

Lemma strip_back_chars l : l ≠ [] -> Forall name_char l -> strip_back l = Done l.
Proof. intros Hne H. destruct H as [|c l [Hc _] _]; [done|]. cbn. rewrite (proj2 (Z.eqb_neq c space)) by (unfold space; lia). done. Qed.

Lemma strip_back_spaces n l : strip_back (replicate n space ++ l) = strip_back l.
Proof. induction n as [|n IH]; [done|]. cbn. done. Qed.

Lemma strip_spaces_pad n l : l ≠ [] -> Forall name_char l -> strip_spaces (pad n l) = Done l.
Proof.
  intros Hne H. unfold strip_spaces, pad. rewrite reverse_app, reverse_replicate, strip_back_spaces, strip_back_chars.
  - cbn. by rewrite reverse_involutive.
  - intros E. apply Hne. by rewrite <- (reverse_involutive l), E.
  - by apply Forall_reverse.
Qed.

Lemma pad_length n l : (length l <= n)%nat -> length (pad n l) = n.
Proof. intros H. unfold pad. rewrite length_app, length_replicate. lia. Qed.

Lemma fmap_pad n l : tolower <$> pad n l = pad n (tolower <$> l).
Proof. unfold pad. by rewrite fmap_app, fmap_replicate, length_fmap. Qed.

Lemma tolower_chars l : Forall name_char l -> Forall name_char (tolower <$> l).
Proof.
  intros H. apply Forall_fmap. eapply Forall_impl; [done|]. intros c. unfold name_char, tolower, dot. cbn. intros Hc. zcases; cbn; lia.
Qed.

(** A name with an extension that fits 8.3 is looked up under the padded
    upper-case name, and a directory entry with that name is listed as the
    original in lower case. *)
Theorem short_name_round_trip name ext ce off :
  Forall name_char name -> Forall name_char ext -> (1 <= length name <= 8)%nat -> (1 <= length ext <= 3)%nat ->
  exists t, translate_filename (name ++ dot :: ext) = Done t /\ length t = 11%nat /\
    display_name (mkEntry ce off t []) = Done (tolower <$> (name ++ dot :: ext)).
Proof.
  intros Hn He Ln Le. eexists. split; [apply translate_short; done || lia|].
  assert (L8 : length (pad 8 (toupper <$> name)) = 8%nat) by (apply pad_length; rewrite length_fmap; lia).
  assert (L3 : length (pad 3 (toupper <$> ext)) = 3%nat) by (apply pad_length; rewrite length_fmap; lia).
  split; [by rewrite length_app, L8, L3|].
  unfold display_name. cbn [LongFileName FileName length Nat.eqb negb]. rewrite length_app, L8, L3. cbn [Nat.add Nat.eqb].
  rewrite fmap_app. rewrite take_app_length' by (by rewrite length_fmap). rewrite drop_app_length' by (by rewrite length_fmap).
  rewrite take_ge by (rewrite length_fmap; lia). rewrite !fmap_pad, <- !list_fmap_compose.
  assert (Ef : forall l : list Z, (tolower ∘ toupper) <$> l = tolower <$> l).
  { intros l. apply list_fmap_ext. intros i c _. apply tolower_toupper. }
  rewrite !Ef. rewrite !strip_spaces_pad; try (by apply tolower_chars); try (intros E%(f_equal length); rewrite length_fmap in E; cbn in E; lia).
  cbn [mbind outcome_bind]. rewrite length_fmap. destruct ext as [|e ext]; [cbn in Le; lia|]. cbn [length Nat.eqb negb].
  by rewrite fmap_app.
Qed.

Lemma short_name_round_trip_witness :
  exists t, translate_filename (bytes_of_string "notes.t") = Done t /\ length t = 11%nat /\
    display_name (mkEntry [] 0 t []) = Done (tolower <$> bytes_of_string "notes.t").
Proof.
  apply (short_name_round_trip (bytes_of_string "notes") (bytes_of_string "t") [] 0); [| |cbn; lia|cbn; lia];
    apply (bool_decide_unpack (Forall (fun c => 33 <= c < 127 /\ c ≠ 46) _)); by vm_compute.
Defined.

(** *** Long names *)









(** ** Opening files *)

(** C26: [open] resolves a path component by component, on a volume where every
    directory on the way fills at most one cluster, has no deleted entry and ends
    with a blank one: it returns the metadata of the file that the list of files of
    each directory gives, and nothing when a component is missing or not a
    directory; it does return, within as many steps as the path has components and
    the largest directory entries. The list of files of a directory leaves out its
    first entry, which the iterator skips. On a deleted entry [open] would not
    return. *)
Theorem fat_open_resolves_path read_raw fresh fs dirs largest fuel device comps root r :
  bytes_per_sector fs ≠ 0 -> (forall n, length (fresh n) = n) ->
  (forall c es, dirs c = Some es -> directory_at read_raw fs c es /\ c ≠ 2 ^ 32 - 1 /\ (length es <= largest)%nat) ->
  root_cluster fs = Done root -> root ≠ 2 ^ 32 - 1 -> Forall component comps -> comps ≠ [] ->
  resolve fs dirs comps root = Some r -> (length comps + largest + 4 < fuel)%nat ->
  open read_raw fresh fs fuel device (join_path comps) = Done (meta_of device <$> r).
Proof.
  intros Hb Hf Hd Hroot Hne Hc Hcs Hr Hfuel.
  rewrite <- (traverse_path_spec read_raw fresh fs Hb Hf dirs largest Hd fuel device comps root r Hc Hcs Hr Hfuel).
  unfold open. destruct fuel as [|fuel]; [lia|]. cbn [traverse_path]. rewrite (proj2 (Z.eqb_neq root _) Hne).
  change (2 ^ 32 - 1 =? 2 ^ 32 - 1) with true. cbv iota. by rewrite Hroot.
Qed.

(** A volume with a directory and a file in it. *)
Definition example_entry (name : string) (attributes cluster size : Z) : list Z :=
  bytes_of_string name ++ [attributes] ++ replicate 14 0 ++ [cluster; 0; size; 0; 0; 0].
Definition example_root : list (list Z) := [example_entry "DIR        " 0x10 3 0].
Definition example_dir : list (list Z) := [example_entry "A       TXT" 0x20 4 5].
Definition example_label : list Z := example_entry "LABEL      " 0x08 0 0.
Definition example_cluster (es : list (list Z)) : list Z := mjoin (example_label :: es) ++ replicate (512 - 32 * S (length es)) 0.
Definition example_disk (offs n : Z) : Z * list Z :=
  (n, if offs =? 1024 then example_cluster example_root else if offs =? 1536 then example_cluster example_dir else replicate 512 0).
Definition example_volume : FileAllocationTableDriver := mkFat (mkBr (mkBpb [] [] 512 1 1 1 0 100 0xf8 1 0 0 0 0) [] [] 0xaa55) FAT12.
Definition example_fresh (n : nat) : list Z := replicate n 0xcd.
Definition example_dirs (c : Z) : option (list (list Z)) :=
  if c =? 2 then Some example_root else if c =? 3 then Some example_dir else None.

Lemma example_laid_out es :
  Forall sized es -> Forall in_use es -> (length es < 14)%nat -> laid_out (example_cluster es) (example_label :: es).
Proof.
  intros H1 H2 H3. split; [by constructor|by constructor|]. exists (replicate (480 - 32 * S (length es)) 0). unfold example_cluster.
  f_equal. rewrite <- replicate_add. f_equal. lia.
Qed.

Lemma example_directories c es :
  example_dirs c = Some es -> directory_at example_disk example_volume c es /\ c ≠ 2 ^ 32 - 1 /\ (length es <= 1)%nat.
Proof.
  unfold example_dirs. destruct (Z.eqb_spec c 2) as [->|_]; [|destruct (Z.eqb_spec c 3) as [->|_]; [|done]]; intros [= <-].
  all: split; [|split; [lia|by cbn]]; exists example_label; eexists; split; [|split; [reflexivity|]]; [reflexivity|];
    apply example_laid_out; [by repeat constructor|by repeat constructor|cbn; lia].
Qed.

Lemma fat_open_resolves_path_witness :
  open example_disk example_fresh example_volume 9 7 (bytes_of_string "/dir/a.txt") =
  Done (Some (make_meta Regular "A       TXT" (FatDriver 7) 5 2048)).
Proof.
  apply (fat_open_resolves_path example_disk example_fresh example_volume example_dirs 1 9 7
    [bytes_of_string "dir"; bytes_of_string "a.txt"] 2
    (Some (bytes_of_string "A       TXT", mkEntry (example_entry "A       TXT" 0x20 4 5) 2048 (bytes_of_string "A       TXT") [])));
    try reflexivity; try done; try lia.
  - intros n. apply length_replicate.
  - apply example_directories.
  - repeat constructor; vm_compute; set_solver.
  - cbn. lia.
Defined.

(** A directory with a deleted entry cannot be walked: the iterator stays on
    the entry for ever, whatever the fuel, so the call never returns. *)
Theorem deleted_entry_hangs read_raw fresh fs T R fuel c first gone rest (body : EntryType -> T -> outcome (T + R)) s :
  bytes_per_sector fs ≠ 0 -> (forall n, length (fresh n) = n) ->
  sized first -> sized gone -> FileName0 gone = 0xe5 ->
  (read_raw (offset_of fs c) (cluster_size (BPB (BR fs)))).2 = first ++ gone ++ rest ->
  length (first ++ gone ++ rest) = Z.to_nat (cluster_size (BPB (BR fs))) ->
  for_each_dir_entry_in read_raw fresh fs fuel c body s = Stop Hung.
Proof.
  intros Hb Hf H1 H2 He Hread Hlen. unfold for_each_dir_entry_in.
  rewrite (begin_reads read_raw fresh fs Hb Hf fuel c _ Hread Hlen). unfold next_entry. rewrite (advance_deleted _ _ _ _ _ gone); [done|done| |done].
  cbn [fresh_iterator with_CE ClusterContents ce_index]. rewrite <- (entry_at_app [first] gone rest) by (by repeat constructor).
  cbn. by rewrite app_nil_r.
Qed.

Lemma deleted_entry_hangs_witness :
  for_each_dir_entry_in (fun _ n => (n, example_label ++ (0xe5 :: drop 1 example_label) ++ replicate 448 0)) example_fresh example_volume
    1000 2 (fun _ n => Done (inl (n + 1) : Z + unit)) 0 = Stop Hung.
Proof.
  apply (deleted_entry_hangs (fun _ n => (n, example_label ++ (0xe5 :: drop 1 example_label) ++ replicate 448 0)) example_fresh example_volume
    Z unit 1000 2 example_label (0xe5 :: drop 1 example_label) (replicate 448 0)); try done.
  intros n. apply length_replicate.
Defined.


End Fat.
