(* ===== verification/Ahci.v ===== *)
(** * The AHCI port driver

    Models [PortController] of
    src/kernel/src/storage/device_drivers/port_controller.h and .cpp with the
    command structures of src/kernel/src/ahci.h and ahci.cpp.  The device behind
    the port is a parameter: what it does with a command is given by the fields
    of the command as the ATA standard reads them. *)

From S2P Require Import Prelude PhysMem Bitmap FrameAlloc FileMeta.

Module Ahci.

(** ** Command structures *)

Definition MAX_READ_PAGES : Z := 0x100.
Definition MAX_READ_BYTES : Z := MAX_READ_PAGES * PAGE_SIZE.
Definition ATA_CMD_READ_DMA_EXT : Z := 0x25.
Definition ATA_CMD_WRITE_DMA_EXT : Z := 0x35.

(** Addresses kept as two 32-bit halves ([set_command_list_base],
    [set_command_table_base], [set_data_base] and their readers). *)
Definition low_half (address : Z) : Z := wrap32 address.
Definition high_half (address : Z) : Z := wrap32 (Z.shiftr address 32).
Definition of_halves (low high : Z) : Z := low + Z.shiftl high 32.

(** [FIS_REG_H2D]; the fields left out stay zero in every command. *)
Record FIS_REG_H2D := mkFis {
  FisType : Z;
  CommandControl : bool;
  Command : Z;
  LBA0 : Z; LBA1 : Z; LBA2 : Z;
  DeviceRegister : Z;
  LBA3 : Z; LBA4 : Z; LBA5 : Z;
  CountLow : Z; CountHigh : Z
}.

Definition REG_H2D : Z := 0x27.

Definition set_logical_block_addresses (sector : Z) (f : FIS_REG_H2D) : FIS_REG_H2D :=
  let sectorLow := wrap32 sector in
  let sectorHigh := wrap32 (Z.shiftr sector 32) in
  mkFis (FisType f) (CommandControl f) (Command f)
    (wrap8 sectorLow) (wrap8 (Z.shiftr sectorLow 8)) (wrap8 (Z.shiftr sectorLow 16)) (DeviceRegister f)
    (wrap8 sectorHigh) (wrap8 (Z.shiftr sectorHigh 8)) (wrap8 (Z.shiftr sectorHigh 16)) (CountLow f) (CountHigh f).

Definition set_count (newCount : Z) (f : FIS_REG_H2D) : FIS_REG_H2D :=
  mkFis (FisType f) (CommandControl f) (Command f) (LBA0 f) (LBA1 f) (LBA2 f) (DeviceRegister f) (LBA3 f) (LBA4 f) (LBA5 f)
    (wrap8 newCount) (wrap8 (Z.shiftr newCount 8)).

Definition count (f : FIS_REG_H2D) : Z := CountLow f + Z.shiftl (CountHigh f) 8.

(** [HBA_PRDTEntry] *)
Record HBA_PRDTEntry := mkPrdt { DataBaseAddress : Z; DataBaseAddressUpper : Z; Information : Z }.

Definition set_data_base (a : Z) (p : HBA_PRDTEntry) : HBA_PRDTEntry := mkPrdt (low_half a) (high_half a) (Information p).
Definition data_base (p : HBA_PRDTEntry) : Z := of_halves (DataBaseAddress p) (DataBaseAddressUpper p).

Definition byte_count_mask : Z := 0x3fffff.
Definition set_byte_count (newByteCount : Z) (p : HBA_PRDTEntry) : HBA_PRDTEntry :=
  mkPrdt (DataBaseAddress p) (DataBaseAddressUpper p)
    (Z.lor (Z.ldiff (Information p) byte_count_mask) (Z.land newByteCount byte_count_mask)).
Definition byte_count (p : HBA_PRDTEntry) : Z := Z.land (Information p) byte_count_mask.

Definition HBA_PRDT_INTERRUPT_ON_COMPLETION : Z := Z.shiftl 1 31.
Definition set_interrupt_on_completion (value : bool) (p : HBA_PRDTEntry) : HBA_PRDTEntry :=
  let i := Z.ldiff (Information p) HBA_PRDT_INTERRUPT_ON_COMPLETION in
  mkPrdt (DataBaseAddress p) (DataBaseAddressUpper p) (if value then Z.lor i HBA_PRDT_INTERRUPT_ON_COMPLETION else i).

(** The command in slot 0: header, table. *)
Record Slot := mkSlot { CommandFISLength : Z; Write : bool; PRDTLength : Z; PRDTEntry0 : HBA_PRDTEntry; CommandFIS : FIS_REG_H2D }.

Inductive PortType := PNone | SATA | SEMB | PM | SATAPI.

#[export] Instance PortType_eq_dec : EqDecision PortType.
Proof. solve_decision. Defined.

Definition get_port_type (SataStatus signature : Z) : PortType :=
  let interfacePowerManagement := Z.land (Z.shiftr SataStatus 8) 7 in
  let deviceDetection := Z.land SataStatus 7 in
  if negb (deviceDetection =? 3) || negb (interfacePowerManagement =? 1) then PNone
  else if signature =? 0xeb140101 then SATAPI
  else if signature =? 0x00000101 then SATA
  else if signature =? 0xc33c0101 then SEMB
  else if signature =? 0x96690101 then PM
  else PNone.

(** ** The port *)

Definition BYTES_PER_SECTOR : Z := 512.
Definition PORT_BUFFER_PAGES : Z := 0x100.
Definition PORT_BUFFER_BYTES : Z := PORT_BUFFER_PAGES * 0x1000.

(** The controller object: [Buffer] is the bytes of the transfer buffer. *)
Record PortController := mkPort { Type_of_port : PortType; BufferAddress : Z; Buffer : list Z }.

Definition with_Buffer (b : list Z) (p : PortController) : PortController := mkPort (Type_of_port p) (BufferAddress p) b.

(** The command [read_low_level] and [write_low_level] put in slot 0. *)
Definition transfer_command (write : bool) (buffer sector sectors : Z) : Slot :=
  let prdt := mkPrdt 0 0 0 in
  let prdt := set_data_base buffer prdt in
  let prdt := set_byte_count (wrap32 (Z.shiftl sectors 9 - 1)) prdt in
  let prdt := set_interrupt_on_completion true prdt in
  let fis := mkFis REG_H2D true (if write then ATA_CMD_WRITE_DMA_EXT else ATA_CMD_READ_DMA_EXT) 0 0 0 0 0 0 0 0 0 in
  let fis := set_logical_block_addresses sector fis in
  let fis := mkFis (FisType fis) (CommandControl fis) (Command fis) (LBA0 fis) (LBA1 fis) (LBA2 fis) (Z.shiftl 1 6) (LBA3 fis) (LBA4 fis) (LBA5 fis)
               (CountLow fis) (CountHigh fis) in
  let fis := set_count (wrap16 sectors) fis in
  mkSlot (20 / 4) write 1 prdt fis.

(** A device: it is ready or not after the wait, and carries out a command on
    the transfer buffer, or fails with a task file error. *)
Class AtaDevice (Dev : Type) := {
  ready : Dev -> bool;
  issue : Slot -> list Z -> Dev -> option (list Z * Dev)
}.

Section Transfers.
Context {Dev : Type} `{!AtaDevice Dev}.

Definition read_low_level (sector sectors : Z) (st : PortController * Dev) : bool * (PortController * Dev) :=
  let '(p, d) := st in
  if negb (ready d) then (false, (p, d))
  else
    match issue (transfer_command false (BufferAddress p) sector sectors) (Buffer p) d with
    | None => (false, (p, d))
    | Some (buffer, d) => (true, (with_Buffer buffer p, d))
    end.

Definition write_low_level (sector sectors : Z) (st : PortController * Dev) : bool * (PortController * Dev) :=
  let '(p, d) := st in
  if negb (ready d) then (false, (p, d))
  else
    match issue (transfer_command true (BufferAddress p) sector sectors) (Buffer p) d with
    | None => (false, (p, d))
    | Some (buffer, d) => (true, (with_Buffer buffer p, d))
    end.

(** The sectors a range of bytes lies in. *)
Definition sectors_of (byteOffset byteCount : Z) : Z * Z * Z :=
  let sector := byteOffset / BYTES_PER_SECTOR in
  let within := byteOffset mod BYTES_PER_SECTOR in
  let sectors := (within +64 byteCount +64 BYTES_PER_SECTOR -64 1) / BYTES_PER_SECTOR in
  (sector, within, if within +64 byteCount <=? BYTES_PER_SECTOR then 1 else sectors).

(** [read_raw]: the result, and the bytes copied to the caller's buffer. *)
Definition read_raw (byteOffset byteCount buffer : Z) (st : PortController * Dev) : Z * list Z * (PortController * Dev) :=
  if negb (bool_decide (Type_of_port st.1 = SATA)) then (-1, [], st)
  else if buffer =? 0 then (-1, [], st)
  else if MAX_READ_BYTES <? byteCount then (-1, [], st)
  else
    let '(sector, within, sectors) := sectors_of byteOffset byteCount in
    if PORT_BUFFER_BYTES <? sectors *64 BYTES_PER_SECTOR then (-1, [], st)
    else
      let '(ok, st) := read_low_level sector sectors st in
      let bytes := if ok then take (Z.to_nat byteCount) (drop (Z.to_nat within) (Buffer st.1)) else [] in
      (byteCount, bytes, st).

Definition read (byteOffset byteCount buffer : Z) (st : PortController * Dev) : Z * list Z * (PortController * Dev) :=
  read_raw byteOffset byteCount buffer st.

(** [write_raw]: [data] is what the caller's buffer holds. *)
Definition write_raw (byteOffset byteCount buffer : Z) (data : list Z) (st : PortController * Dev) : Z * (PortController * Dev) :=
  if negb (bool_decide (Type_of_port st.1 = SATA)) then (-1, st)
  else if buffer =? 0 then (-1, st)
  else if MAX_READ_BYTES <? byteCount then (-1, st)
  else
    let '(sector, within, sectors) := sectors_of byteOffset byteCount in
    if PORT_BUFFER_BYTES <? sectors *64 BYTES_PER_SECTOR then (-1, st)
    else if negb (within =? 0) || negb (byteCount mod BYTES_PER_SECTOR =? 0) then
      let '(ok, st) := read_low_level sector sectors st in
      if negb ok then (-1, st)
      else
        let st := (with_Buffer (put_bytes within (take (Z.to_nat byteCount) data) (Buffer st.1)) st.1, st.2) in
        let '(ok, st) := write_low_level sector sectors st in
        if negb ok then (-1, st) else (byteCount, st)
    else
      let '(ok, st) := write_low_level sector sectors st in
      if negb ok then (-1, st) else (byteCount, st).

Definition write (byteOffset byteCount buffer : Z) (data : list Z) (st : PortController * Dev) : Z * (PortController * Dev) :=
  write_raw byteOffset byteCount buffer data st.

End Transfers.

(** ** What a device does with a command *)

(** The sector number as the device puts it together. *)
Definition lba (f : FIS_REG_H2D) : Z :=
  LBA0 f + 2 ^ 8 * LBA1 f + 2 ^ 16 * LBA2 f + 2 ^ 24 * LBA3 f + 2 ^ 32 * LBA4 f + 2 ^ 40 * LBA5 f.

(** The bytes from [a] on of a disk with contents [c]. *)
Definition disk_bytes (c : Z -> Z) (a : Z) (n : nat) : list Z := c <$> seqZ a (Z.of_nat n).

(** The ATA standard on READ and WRITE DMA EXT, when they complete. *)
Class AtaLaws (Dev : Type) `{!AtaDevice Dev} := {
  content : Dev -> Z -> Z;
  issue_read s b d b' d' :
    Command (CommandFIS s) = ATA_CMD_READ_DMA_EXT -> issue s b d = Some (b', d') ->
    let n := Z.to_nat (512 * count (CommandFIS s)) in
    (n <= length b)%nat -> byte_count (PRDTEntry0 s) = Z.of_nat n - 1 ->
    content d' = content d /\ b' = disk_bytes (content d) (512 * lba (CommandFIS s)) n ++ drop n b;
  issue_write s b d b' d' :
    Command (CommandFIS s) = ATA_CMD_WRITE_DMA_EXT -> issue s b d = Some (b', d') ->
    let n := Z.to_nat (512 * count (CommandFIS s)) in
    (n <= length b)%nat -> byte_count (PRDTEntry0 s) = Z.of_nat n - 1 ->
    b' = b /\ forall a, content d' a =
      if decide (512 * lba (CommandFIS s) <= a < 512 * lba (CommandFIS s) + Z.of_nat n)
      then nth (Z.to_nat (a - 512 * lba (CommandFIS s))) b 0 else content d a
}.

Lemma transfer_lba w buffer sector sectors :
  0 <= sector -> lba (CommandFIS (transfer_command w buffer sector sectors)) = sector mod 2 ^ 24 + 2 ^ 24 * (sector / 2 ^ 32 mod 2 ^ 24).
Proof.
  intros Hs. unfold lba, transfer_command. cbn -[Z.pow Z.mul Z.shiftl Z.shiftr wrap8 wrap32].
  unfold wrap8, wrap32. rewrite !Z.shiftr_div_pow2 by lia. dlia.
Qed.

Lemma transfer_count w buffer sector sectors :
  0 <= sectors < 2 ^ 16 -> count (CommandFIS (transfer_command w buffer sector sectors)) = sectors.
Proof.
  intros Hs. unfold count, transfer_command. cbn -[Z.pow Z.mul Z.shiftl Z.shiftr wrap8 wrap16].
  unfold wrap8, wrap16. rewrite Z.shiftl_mul_pow2, Z.shiftr_div_pow2 by lia. dlia.
Qed.

Lemma transfer_byte_count w buffer sector sectors :
  0 < sectors <= 2 ^ 11 -> byte_count (PRDTEntry0 (transfer_command w buffer sector sectors)) = 512 * sectors - 1.
Proof.
  intros Hs. unfold byte_count, transfer_command. cbn -[Z.pow Z.mul Z.shiftl wrap32 byte_count_mask Z.ldiff Z.lor Z.land HBA_PRDT_INTERRUPT_ON_COMPLETION].
  rewrite Z.shiftl_mul_pow2 by lia. unfold wrap32. rewrite (Z.mod_small (sectors * 2 ^ 9 - 1)) by lia.
  rewrite Z.ldiff_0_l, Z.lor_0_l. change byte_count_mask with (Z.ones 22). change HBA_PRDT_INTERRUPT_ON_COMPLETION with (2 ^ 31).
  rewrite (Z.land_ones (sectors * 2 ^ 9 - 1)), (Z.mod_small (sectors * 2 ^ 9 - 1)) by lia.
  rewrite Z.land_ones by lia. rewrite <- (Z.mod_small (512 * sectors - 1) (2 ^ 22)) by lia.
  apply Z.bits_inj'. intros i Hi. destruct (Z.lt_ge_cases i 22) as [Hl|Hl].
  - rewrite !Z.mod_pow2_bits_low, Z.lor_spec, Z.ldiff_spec, Z.pow2_bits_false by lia. cbn. rewrite andb_true_r, orb_false_r. f_equal. lia.
  - by rewrite !Z.mod_pow2_bits_high by lia.
Qed.

(** ** Reads and writes of bytes *)

Lemma sectors_of_spec off n sector within sectors :
  0 <= off -> 0 <= n <= MAX_READ_BYTES -> sectors_of off n = (sector, within, sectors) ->
  sector = off / 512 /\ within = off mod 512 /\ 0 < sectors <= 2 ^ 12 /\ within + n <= 512 * sectors /\
  512 * sectors < within + n + 512 + 512.
Proof.
  unfold MAX_READ_BYTES, MAX_READ_PAGES, PAGE_SIZE, sectors_of, BYTES_PER_SECTOR. intros Ho Hn [= <- <- <-].
  assert (Hw : 0 <= off mod 512 < 512) by (apply Z.mod_pos_bound; lia). set (w := off mod 512) in *. clearbody w.
  rewrite (wrap64_small (w + n)) by (unfold is_u64; lia).
  rewrite (wrap64_small (w + n + 512)) by (unfold is_u64; lia). rewrite (wrap64_small (w + n + 512 - 1)) by (unfold is_u64; lia).
  split_and!; try done; destruct (Z.leb_spec (w + n) 512); dlia.
Qed.

Lemma nth_app_ge {A} (l k : list A) i d : (length l <= i)%nat -> nth i (l ++ k) d = nth (i - length l) k d.
Proof. intros H. by rewrite app_nth2. Qed.

Lemma take_drop_disk_bytes c a n w k :
  (w + k <= n)%nat -> take k (drop w (disk_bytes c a n)) = disk_bytes c (a + Z.of_nat w) k.
Proof.
  intros H. unfold disk_bytes. rewrite <- fmap_drop, <- fmap_take. f_equal. apply list_eq. intros i.
  destruct (decide (i < k)%nat) as [Hi|Hi].
  - rewrite lookup_take_lt by done. rewrite lookup_drop, !lookup_seqZ_lt by lia. f_equal. lia.
  - rewrite lookup_take_ge by lia. symmetry. apply lookup_seqZ_ge. lia.
Qed.

Lemma length_disk_bytes c a n : length (disk_bytes c a n) = n.
Proof. unfold disk_bytes. rewrite length_fmap, length_seqZ. lia. Qed.

Lemma nth_disk_bytes c a n i d : (i < n)%nat -> nth i (disk_bytes c a n) d = c (a + Z.of_nat i).
Proof.
  intros H. rewrite nth_lookup. unfold disk_bytes. rewrite list_lookup_fmap, lookup_seqZ_lt by lia. done.
Qed.

(** A byte of a patched buffer. *)
Lemma nth_put_bytes off bytes data i :
  0 <= off -> (Z.to_nat off + length bytes <= length data)%nat ->
  nth i (put_bytes off bytes data) 0 =
  if decide (Z.to_nat off <= i < Z.to_nat off + length bytes)%nat then nth (i - Z.to_nat off) bytes 0 else nth i data 0.
Proof.
  intros H0 H. unfold put_bytes. rewrite !nth_lookup. case_decide as Hi.
  - rewrite lookup_app_r, length_take, Nat.min_l by (rewrite ?length_take; lia). by rewrite lookup_app_l by lia.
  - destruct (decide (i < Z.to_nat off)%nat) as [Hl|Hl].
    + rewrite lookup_app_l by (rewrite length_take; lia). by rewrite lookup_take_lt by lia.
    + rewrite lookup_app_r by (rewrite length_take; lia). rewrite lookup_app_r by (rewrite length_take; lia).
      rewrite lookup_drop, length_take. do 2 f_equal. lia.
Qed.

Section PortSpec.
Context {Dev : Type} `{!AtaDevice Dev, !AtaLaws Dev}.
Context (p : PortController) (d : Dev) (off n buffer : Z).

(** A request the driver carries out: on a SATA port, to a buffer, within the
    sizes it accepts and the sectors a command can name. *)
Record request : Prop := {
  rq_type : Type_of_port p = SATA;
  rq_length : length (Buffer p) = Z.to_nat PORT_BUFFER_BYTES;
  rq_buffer : buffer ≠ 0;
  rq_offset : 0 <= off;
  rq_count : 0 <= n <= MAX_READ_BYTES;
  rq_fits : forall sector within sectors, sectors_of off n = (sector, within, sectors) -> 512 * sectors <= PORT_BUFFER_BYTES;
  rq_low : off / 512 < 2 ^ 24
}.
Hypothesis (R : request).

Definition first_sector : Z := off / 512.
Definition offset_within : Z := off mod 512.
Definition sector_count : Z := (sectors_of off n).2.

Lemma request_sectors :
  sectors_of off n = (first_sector, offset_within, sector_count) /\ 0 < sector_count <= 2 ^ 11 /\
  0 <= offset_within < 512 /\ offset_within + n <= 512 * sector_count /\ off = 512 * first_sector + offset_within /\ 0 <= first_sector < 2 ^ 24.
Proof.
  destruct (sectors_of off n) as [[s w] c] eqn:E. pose proof (rq_fits R _ _ _ E) as Hf.
  destruct (sectors_of_spec off n s w c (rq_offset R) (rq_count R) E) as (-> & -> & Hc & Hle & _).
  unfold first_sector, offset_within, sector_count. rewrite E. cbn [snd]. unfold PORT_BUFFER_BYTES, PORT_BUFFER_PAGES in Hf.
  pose proof (rq_low R). pose proof (rq_offset R). split_and!; try done; try lia; dlia.
Qed.

(** The command for this request, as the device reads it. *)
Lemma request_command w :
  let s := transfer_command w (BufferAddress p) first_sector sector_count in
  512 * lba (CommandFIS s) = 512 * first_sector /\ Z.to_nat (512 * count (CommandFIS s)) = Z.to_nat (512 * sector_count) /\
  byte_count (PRDTEntry0 s) = Z.of_nat (Z.to_nat (512 * count (CommandFIS s))) - 1 /\
  (Z.to_nat (512 * sector_count) <= Z.to_nat PORT_BUFFER_BYTES)%nat.
Proof.
  cbv zeta. destruct request_sectors as (_ & Hc & _ & _ & _ & Hs).
  rewrite transfer_lba, transfer_count, transfer_byte_count by lia.
  assert (E1 : first_sector mod 2 ^ 24 = first_sector) by (apply Z.mod_small; lia).
  assert (E2 : first_sector / 2 ^ 32 = 0) by (apply Z.div_small; lia). rewrite E1, E2. change (0 mod 2 ^ 24) with 0.
  unfold PORT_BUFFER_BYTES, PORT_BUFFER_PAGES. split_and!; [lia|done|lia|lia].
Qed.

Lemma read_low_level_spec b' d' :
  ready d = true -> issue (transfer_command false (BufferAddress p) first_sector sector_count) (Buffer p) d = Some (b', d') ->
  read_low_level first_sector sector_count (p, d) = (true, (with_Buffer b' p, d')) /\ content d' = content d /\
  b' = disk_bytes (content d) (512 * first_sector) (Z.to_nat (512 * sector_count)) ++ drop (Z.to_nat (512 * sector_count)) (Buffer p) /\
  length b' = length (Buffer p).
Proof.
  intros Hr Hi. destruct (request_command false) as (El & Ec & Eb & Hfit).
  destruct (issue_read _ _ _ _ _ (eq_refl : Command (CommandFIS (transfer_command false _ _ _)) = _) Hi) as [Hcont Hb];
    [by rewrite Ec, (rq_length R)|done|].
  rewrite El, Ec in Hb. split_and!; try done; [unfold read_low_level; by rewrite Hr, Hi|].
  rewrite Hb, length_app, length_disk_bytes, length_drop. pose proof (rq_length R). lia.
Qed.

Lemma write_low_level_spec q b' d' :
  BufferAddress q = BufferAddress p -> length (Buffer q) = length (Buffer p) -> ready d = true ->
  issue (transfer_command true (BufferAddress p) first_sector sector_count) (Buffer q) d = Some (b', d') ->
  write_low_level first_sector sector_count (q, d) = (true, (with_Buffer b' q, d')) /\ b' = Buffer q /\
  forall a, content d' a = if decide (512 * first_sector <= a < 512 * first_sector + 512 * sector_count)
                           then nth (Z.to_nat (a - 512 * first_sector)) (Buffer q) 0 else content d a.
Proof.
  intros Ea Elen Hr Hi. destruct (request_command true) as (El & Ec & Eb & Hfit). destruct request_sectors as (_ & Hc & _).
  destruct (issue_write _ _ _ _ _ (eq_refl : Command (CommandFIS (transfer_command true _ _ _)) = _) Hi) as [Hb Hcont];
    [by rewrite Ec, Elen, (rq_length R)|done|].
  split_and!; [unfold write_low_level; by rewrite Hr, Ea, Hi|done|]. intros a. rewrite Hcont, El, Ec.
  replace (Z.of_nat (Z.to_nat (512 * sector_count))) with (512 * sector_count) by lia. done.
Qed.

(** The guards of both calls let the request through. *)
Lemma request_passes :
  bool_decide (Type_of_port p = SATA) = true /\ (buffer =? 0) = false /\ (MAX_READ_BYTES <? n) = false /\
  (PORT_BUFFER_BYTES <? sector_count *64 BYTES_PER_SECTOR) = false.
Proof.
  destruct request_sectors as (E & Hc & _). pose proof (rq_fits R _ _ _ E) as Hf. pose proof (rq_count R).
  rewrite (wrap64_small (sector_count * BYTES_PER_SECTOR)) by (unfold is_u64, BYTES_PER_SECTOR; lia). unfold BYTES_PER_SECTOR.
  split_and!; [apply bool_decide_eq_true, R|apply Z.eqb_neq, R|apply Z.ltb_ge; lia|apply Z.ltb_ge; lia].
Qed.

End PortSpec.

(** *** A disk in memory *)

Definition ram_disk : Type := Z -> Z.

#[export] Instance ram_device : AtaDevice ram_disk := {
  ready _ := true;
  issue s b d :=
    let n := Z.to_nat (512 * count (CommandFIS s)) in
    let first := 512 * lba (CommandFIS s) in
    if Command (CommandFIS s) =? ATA_CMD_READ_DMA_EXT then Some (disk_bytes d first n ++ drop n b, d)
    else if Command (CommandFIS s) =? ATA_CMD_WRITE_DMA_EXT then
      Some (b, fun a => if decide (first <= a < first + Z.of_nat n) then nth (Z.to_nat (a - first)) b 0 else d a)
    else None
}.

#[export] Instance ram_laws : AtaLaws ram_disk.
Proof.
  refine {| content := fun d : ram_disk => d |}.
  - intros s b d b' d' E. cbn. rewrite E. by intros [= <- <-].
  - intros s b d b' d' E. cbn. rewrite E. by intros [= <- <-].
Defined.

Definition example_port : PortController := mkPort SATA 0x100000 (replicate (Z.to_nat PORT_BUFFER_BYTES) 0xaa).

Definition example_disk : ram_disk := fun a => a mod 256.

Lemma example_request n off : 0 <= n <= 1024 -> 0 <= off < 2 ^ 20 -> request example_port off n 1.
Proof.
  intros Hn Ho. assert (Hmax : 0 <= n <= MAX_READ_BYTES) by (unfold MAX_READ_BYTES, MAX_READ_PAGES, PAGE_SIZE; lia). split.
  - reflexivity.
  - unfold example_port. cbn [Buffer]. apply length_replicate.
  - lia.
  - lia.
  - exact Hmax.
  - intros s w c E. destruct (sectors_of_spec off n s w c) as (_ & -> & _ & _ & H); [lia|exact Hmax|exact E|].
    unfold PORT_BUFFER_BYTES, PORT_BUFFER_PAGES. dlia.
  - dlia.
Qed.

(** ** Claims *)

(** C29: A read of at most 1 MiB, counted in whole sectors, whose first sector is
    below 2^24, on a port that is ready and completes the command, returns exactly
    the bytes on the disk, wherever the range starts and ends within its sectors,
    and leaves the disk alone. Further sectors are addressed wrongly, and a command
    that fails is reported as complete; neither is claimed here. *)
Theorem port_read_returns_disk_bytes {Dev : Type} `{!AtaDevice Dev, !AtaLaws Dev} p (d : Dev) off n buffer :
  request p off n buffer -> ready d = true ->
  is_Some (issue (transfer_command false (BufferAddress p) (off / 512) (sector_count off n)) (Buffer p) d) ->
  exists p' d', read_raw off n buffer (p, d) = (n, disk_bytes (content d) off (Z.to_nat n), (p', d')) /\ content d' = content d.
Proof.
  intros R Hr [[b' d'] Hi]. destruct (request_sectors p off n buffer R) as (E & Hc & Hw & Hle & Eo & Hs).
  destruct (request_passes p off n buffer R) as (E1 & E2 & E3 & E4).
  destruct (read_low_level_spec p d off n buffer R b' d' Hr Hi) as (El & Hcont & Hb & Hlen).
  exists (with_Buffer b' p), d'. split; [|done]. unfold read_raw. cbn [fst]. rewrite E1, E2, E3, E, E4, El. cbn [negb fst with_Buffer Buffer].
  do 2 f_equal. pose proof (rq_count _ _ _ _ R). rewrite Hb, drop_app_le, take_app_le.
  2: rewrite length_drop, length_disk_bytes; lia.
  2: rewrite length_disk_bytes; lia.
  rewrite take_drop_disk_bytes by lia. f_equal. lia.
Qed.

Lemma port_read_returns_disk_bytes_witness :
  exists p' d', read_raw 1000 30 1 (example_port, example_disk) =
    (30, disk_bytes (content example_disk) 1000 (Z.to_nat 30), (p', d')) /\ content d' = content example_disk.
Proof.
  apply (port_read_returns_disk_bytes example_port example_disk 1000 30 1); [apply example_request; lia|reflexivity|by eexists].
Defined.

(** A write that does not start and end on sector boundaries changes exactly
    the bytes of its range: the driver reads the sectors, patches them and
    writes them back. *)
Theorem port_partial_write_patches {Dev : Type} `{!AtaDevice Dev, !AtaLaws Dev} p (d : Dev) off n buffer data :
  request p off n buffer -> ready d = true -> (Z.to_nat n <= length data)%nat ->
  off mod 512 ≠ 0 \/ n mod 512 ≠ 0 ->
  (forall d', ready d' = true) ->
  (forall w b d', is_Some (issue (transfer_command w (BufferAddress p) (off / 512) (sector_count off n)) b d')) ->
  exists p' d', write_raw off n buffer data (p, d) = (n, (p', d')) /\
    forall a, content d' a = if decide (off <= a < off + n) then nth (Z.to_nat (a - off)) data 0 else content d a.
Proof.
  intros R Hr Hdata Hpart Hready Hissue. destruct (request_sectors p off n buffer R) as (E & Hc & Hw & Hle & Eo & Hs).
  destruct (request_passes p off n buffer R) as (E1 & E2 & E3 & E4). pose proof (rq_count _ _ _ _ R) as Hn.
  destruct (Hissue false (Buffer p) d) as [[b1 d1] Hi]. destruct (read_low_level_spec p d off n buffer R b1 d1 Hr Hi) as (El & Hcont & Hb & Hlen).
  set (q := with_Buffer (put_bytes (offset_within off) (take (Z.to_nat n) data) b1) p).
  pose proof (rq_length _ _ _ _ R) as Hbl. assert (Hlt : length (take (Z.to_nat n) data) = Z.to_nat n) by (rewrite length_take; lia).
  assert (Hin : (Z.to_nat (offset_within off) + length (take (Z.to_nat n) data) <= length b1)%nat).
  { rewrite Hlt, Hlen, Hbl. pose proof (rq_fits _ _ _ _ R _ _ _ E). lia. }
  destruct (Hissue true (Buffer q) d1) as [[b2 d2] Hi2].
  destruct (write_low_level_spec p d1 off n buffer R q b2 d2) as (Ew & _ & Hc2); try done.
  { unfold q. cbn [with_Buffer Buffer]. rewrite length_put_bytes; [done|lia|done]. }
  exists (with_Buffer b2 q), d2. split.
  - unfold write_raw. cbn [fst]. rewrite E1, E2, E3, E, E4. cbn [negb]. unfold BYTES_PER_SECTOR.
    replace (negb (offset_within off =? 0) || negb (n mod 512 =? 0)) with true.
    2: { symmetry. apply orb_true_iff. rewrite !negb_true_iff, !Z.eqb_neq. done. }
    rewrite El. cbn [negb fst snd]. match goal with |- context [write_low_level _ _ (?x, _)] => change x with q end. by rewrite Ew.
  - intros a. rewrite Hc2. unfold q. cbn [with_Buffer Buffer]. rewrite nth_put_bytes, Hlt by (lia || done).
    destruct (decide (off <= a < off + n)) as [Ha|Ha].
    + rewrite !decide_True by lia. rewrite !nth_lookup, lookup_take_lt by lia. do 2 f_equal. lia.
    + destruct (decide (512 * first_sector off <= a < _)) as [Hsec|Hsec]; [|by rewrite Hcont]. rewrite decide_False by lia. rewrite Hb, app_nth1 by (rewrite length_disk_bytes; lia).
      rewrite nth_disk_bytes by lia. f_equal. lia.
Qed.

Lemma port_partial_write_patches_witness :
  exists p' d', write_raw 1000 3 1 [1; 2; 3] (example_port, example_disk) = (3, (p', d')) /\
    forall a, content d' a = if decide (1000 <= a < 1000 + 3) then nth (Z.to_nat (a - 1000)) [1; 2; 3] 0 else content example_disk a.
Proof.
  apply (port_partial_write_patches example_port example_disk 1000 3 1 [1; 2; 3]); [apply example_request; lia|reflexivity|cbn; lia|by left| |].
  - reflexivity.
  - intros w b d'. destruct w; by eexists.
Defined.

(** A write of whole sectors stores whatever the transfer buffer held from
    an earlier request: the caller's bytes are never copied, though the call
    reports success. *)
Theorem port_whole_sector_write_stores_stale_bytes {Dev : Type} `{!AtaDevice Dev, !AtaLaws Dev} p (d : Dev) off n buffer data b' d' :
  request p off n buffer -> ready d = true -> off mod 512 = 0 -> n mod 512 = 0 -> 0 < n ->
  issue (transfer_command true (BufferAddress p) (off / 512) (sector_count off n)) (Buffer p) d = Some (b', d') ->
  write_raw off n buffer data (p, d) = (n, (with_Buffer b' p, d')) /\
  forall a, off <= a < off + n -> content d' a = nth (Z.to_nat (a - off)) (Buffer p) 0.
Proof.
  intros R Hr Ho Hn Hpos Hi. destruct (request_sectors p off n buffer R) as (E & Hc & Hw & Hle & Eo & Hs).
  destruct (request_passes p off n buffer R) as (E1 & E2 & E3 & E4).
  destruct (write_low_level_spec p d off n buffer R p b' d') as (Ew & _ & Hc2); try done.
  assert (Ew0 : offset_within off = 0) by done. split.
  - unfold write_raw. cbn [fst]. rewrite E1, E2, E3, E, E4. unfold BYTES_PER_SECTOR. rewrite Ew0, Hn. cbn [negb Z.eqb orb].
    by rewrite Ew.
  - intros a Ha. rewrite Hc2, decide_True by lia. do 2 f_equal. lia.
Qed.

Lemma port_whole_sector_write_stores_stale_bytes_witness :
  exists b' d', write_raw 512 512 1 (replicate 512 7) (example_port, example_disk) = (512, (with_Buffer b' example_port, d')) /\
  forall a, 512 <= a < 512 + 512 -> content d' a = nth (Z.to_nat (a - 512)) (Buffer example_port) 0.
Proof.
  eexists _, _. apply (port_whole_sector_write_stores_stale_bytes example_port example_disk 512 512 1 (replicate 512 7));
    [apply example_request; lia|reflexivity|reflexivity|reflexivity|lia|reflexivity].
Defined.

(** Bits 24 to 31 of a sector number are lost when the command is built, so
    sectors 2^24 apart (8 GiB of disk) are read and written at the same place. *)
Theorem sectors_alias_every_8_gib w buffer sector sectors k :
  0 <= sector < 2 ^ 24 -> 0 <= k < 2 ^ 8 ->
  transfer_command w buffer (sector + 2 ^ 24 * k) sectors = transfer_command w buffer sector sectors /\
  lba (CommandFIS (transfer_command w buffer (sector + 2 ^ 24 * k) sectors)) = sector.
Proof.
  intros Hs Hk. split.
  - unfold transfer_command, set_logical_block_addresses. cbn [FisType CommandControl Command LBA0 LBA1 LBA2 LBA3 LBA4 LBA5 DeviceRegister CountLow CountHigh].
    unfold wrap8, wrap32. rewrite !Z.shiftr_div_pow2 by lia. do 3 f_equal; dlia.
  - rewrite transfer_lba by lia. dlia.
Qed.

Lemma sectors_alias_every_8_gib_witness :
  transfer_command false 0x1000 (5 + 2 ^ 24 * 3) 1 = transfer_command false 0x1000 5 1 /\
  lba (CommandFIS (transfer_command false 0x1000 (5 + 2 ^ 24 * 3) 1)) = 5.
Proof. apply (sectors_alias_every_8_gib false 0x1000 5 1 3); lia. Defined.

End Ahci.
