(* ===== verification/Gpt.v ===== *)
(** * Partitions

    Models src/kernel/src/guid.h, gpt_partition_type_guids.h, gpt.h, gpt.cpp,
    the partition driver of
    src/kernel/src/storage/device_drivers/gpt_partition.h and the search for
    partitions, [discover_partitions] of src/kernel/src/kstage1.cpp.  What a disk
    driver's [read_raw] puts in the buffer is a parameter. *)

From S2P Require Import Prelude PhysMem FileMeta Utf Fat.

Module Gpt.

(** ** GUIDs *)

Record GUID := mkGuid { Data1 : Z; Data2 : Z; Data3 : Z; Data4 : list Z }.

(** [operator==] *)
#[export] Instance GUID_eq_dec : EqDecision GUID.
Proof. solve_decision. Defined.

Definition NullGUID : GUID := mkGuid 0 0 0 [0; 0; 0; 0; 0; 0; 0; 0].

Definition PartitionType_Unused : GUID := mkGuid 0 0 0 [0; 0; 0; 0; 0; 0; 0; 0].
Definition PartitionType_MBR : GUID := mkGuid 0x024dee41 0x33e7 0x11d3 [0x9d; 0x69; 0x00; 0x08; 0xc7; 0x81; 0xf3; 0x9f].
Definition PartitionType_EFISystem : GUID := mkGuid 0xc12a7328 0xf81f 0x11d2 [0xba; 0x4b; 0x00; 0xa0; 0xc9; 0x3e; 0xc9; 0x3b].
Definition PartitionType_BIOSBoot : GUID := mkGuid 0x21686148 0x6449 0x6e6f [0x74; 0x4e; 0x65; 0x65; 0x64; 0x45; 0x46; 0x49].
Definition PartitionType_IntelFastFlash : GUID := mkGuid 0xd3bfe2de 0x3daf 0x11df [0xba; 0x40; 0xe3; 0xa5; 0x56; 0xd8; 0x96; 0x93].
Definition PartitionType_MSWindows_Reserved : GUID := mkGuid 0xe3c9e316 0x0b5c 0x4db8 [0x81; 0x7d; 0xf9; 0x2d; 0xf0; 0x02; 0x15; 0xae].
Definition PartitionType_MSWindows_BasicData : GUID := mkGuid 0xebd0a0a2 0xb9e5 0x4433 [0x87; 0xc0; 0x68; 0xb6; 0xb7; 0x26; 0x99; 0xc7].
Definition PartitionType_MSWindows_LogicalDiskManagerMetadata : GUID := mkGuid 0x5808c8aa 0x7e8f 0x42e0 [0x85; 0xd2; 0xe1; 0xe9; 0x04; 0x34; 0xcf; 0xb3].
Definition PartitionType_MSWindows_LogicalDiskManagerData : GUID := mkGuid 0xaf9b60a0 0x1431 0x4f62 [0xbc; 0x68; 0x33; 0x11; 0x71; 0x4a; 0x69; 0xad].
Definition PartitionType_MSWindows_Recovery : GUID := mkGuid 0xde94bba4 0x06d1 0x4d40 [0xa1; 0x6a; 0xbf; 0xd5; 0x01; 0x79; 0xd6; 0xac].
Definition PartitionType_MSWindows_IBMGeneralParallelFileSystem : GUID := mkGuid 0x37affc90 0xef7d 0x4e96 [0x91; 0xc3; 0x2d; 0x7a; 0xe0; 0x55; 0xb1; 0x74].
Definition PartitionType_Linux_FileSystemData : GUID := mkGuid 0x0fc63daf 0x8483 0x4772 [0x8e; 0x79; 0x3d; 0x69; 0xd8; 0x47; 0x7d; 0xe4].
Definition PartitionType_Linux_RAID : GUID := mkGuid 0xa19d880f 0x05fc 0x4d3b [0xa0; 0x06; 0x74; 0x3f; 0x0f; 0x84; 0x91; 0x1e].
Definition PartitionType_Linux_Swap : GUID := mkGuid 0x0657fd6d 0xa4ab 0x43c4 [0x84; 0xe5; 0x09; 0x33; 0xc8; 0x4b; 0x4f; 0x4f].
Definition PartitionType_Linux_LogicalVolumeManager : GUID := mkGuid 0xe6d6d379 0xf507 0x44c2 [0xa2; 0x3c; 0x23; 0x8f; 0x2a; 0x3d; 0xf9; 0x28].
Definition PartitionType_Linux_Reserved : GUID := mkGuid 0x8da63339 0x0007 0x60c0 [0xc4; 0x36; 0x08; 0x3a; 0xc8; 0x23; 0x09; 0x08].
Definition PartitionType_FreeBSD_Boot : GUID := mkGuid 0x83bd6b9d 0x7f41 0x11dc [0xbe; 0x0b; 0x00; 0x15; 0x60; 0xb8; 0x4f; 0x0f].
Definition PartitionType_FreeBSD_Data : GUID := mkGuid 0x516e7cb4 0x6ecf 0x11d6 [0x8f; 0xf8; 0x00; 0x02; 0x2d; 0x09; 0x71; 0x2b].
Definition PartitionType_FreeBSD_Swap : GUID := mkGuid 0x516e7cb5 0x6ecf 0x11d6 [0x8f; 0xf8; 0x00; 0x02; 0x2d; 0x09; 0x71; 0x2b].
Definition PartitionType_FreeBSD_UFS : GUID := mkGuid 0x516e7cb6 0x6ecf 0x11d6 [0x8f; 0xf8; 0x00; 0x02; 0x2d; 0x09; 0x71; 0x2b].
Definition PartitionType_FreeBSD_VinumVolumeManager : GUID := mkGuid 0x516e7cb8 0x6ecf 0x11d6 [0x8f; 0xf8; 0x00; 0x02; 0x2d; 0x09; 0x71; 0x2b].
Definition PartitionType_FreeBSD_ZFS : GUID := mkGuid 0x516e7cba 0x6ecf 0x11d6 [0x8f; 0xf8; 0x00; 0x02; 0x2d; 0x09; 0x71; 0x2b].
Definition PartitionType_NetBSD_Swap : GUID := mkGuid 0x49f48d32 0xb10e 0x11dc [0xb9; 0x9b; 0x00; 0x19; 0xd1; 0x87; 0x96; 0x48].
Definition PartitionType_NetBSD_FFS : GUID := mkGuid 0x49f48d5a 0xb10e 0x11dc [0xb9; 0x9b; 0x00; 0x19; 0xd1; 0x87; 0x96; 0x48].
Definition PartitionType_NetBSD_LFS : GUID := mkGuid 0x49f48d82 0xb10e 0x11dc [0xb9; 0x9b; 0x00; 0x19; 0xd1; 0x87; 0x96; 0x48].
Definition PartitionType_NetBSD_RAID : GUID := mkGuid 0x49f48daa 0xb10e 0x11dc [0xb9; 0x9b; 0x00; 0x19; 0xd1; 0x87; 0x96; 0x48].
Definition PartitionType_NetBSD_Concatenated : GUID := mkGuid 0x2db519c4 0xb10e 0x11dc [0xb9; 0x9b; 0x00; 0x19; 0xd1; 0x87; 0x96; 0x48].
Definition PartitionType_NetBSD_Encrypted : GUID := mkGuid 0x2db519ec 0xb10e 0x11dc [0xb9; 0x9b; 0x00; 0x19; 0xd1; 0x87; 0x96; 0x48].
Definition PartitionType_MidnightBSD_Data : GUID := mkGuid 0x85d5e45a 0x237c 0x11e1 [0xb4; 0xb3; 0xe8; 0x9a; 0x8f; 0x7f; 0xc3; 0xa7].
Definition PartitionType_MidnightBSD_Swap : GUID := mkGuid 0x85d5e45b 0x237c 0x11e1 [0xb4; 0xb3; 0xe8; 0x9a; 0x8f; 0x7f; 0xc3; 0xa7].
Definition PartitionType_MidnightBSD_VinumVolumeManager : GUID := mkGuid 0x85d5e45c 0x237c 0x11e1 [0xb4; 0xb3; 0xe8; 0x9a; 0x8f; 0x7f; 0xc3; 0xa7].
Definition PartitionType_MidnightBSD_ZFS : GUID := mkGuid 0x85d5e45d 0x237c 0x11e1 [0xb4; 0xb3; 0xe8; 0x9a; 0x8f; 0x7f; 0xc3; 0xa7].
Definition PartitionType_MidnightBSD_Boot : GUID := mkGuid 0x85d5e45e 0x237c 0x11e1 [0xb4; 0xb3; 0xe8; 0x9a; 0x8f; 0x7f; 0xc3; 0xa7].
Definition PartitionType_MidnightBSD_UFS : GUID := mkGuid 0x0394ef8b 0x237e 0x11e1 [0xb4; 0xb3; 0xe8; 0x9a; 0x8f; 0x7f; 0xc3; 0xa7].
Definition PartitionType_ChromeOS_Kernel : GUID := mkGuid 0xfe3a2a5d 0x4f32 0x41a7 [0xb7; 0x25; 0xac; 0xcc; 0x32; 0x85; 0xa3; 0x09].
Definition PartitionType_ChromeOS_RootFS : GUID := mkGuid 0x3cb8e202 0x3b7e 0x47dd [0x8a; 0x3c; 0x7f; 0xf2; 0xa1; 0x3c; 0xfc; 0xec].
Definition PartitionType_ChromeOS_FutureUse : GUID := mkGuid 0x2e0a753d 0x9e48 0x43b0 [0x83; 0x37; 0xb1; 0x51; 0x92; 0xcb; 0x1b; 0x5e].
Definition PartitionType_HPUX_Data : GUID := mkGuid 0x75894c1e 0x3aeb 0x11d3 [0xb7; 0xc1; 0x7b; 0x03; 0xa0; 0x00; 0x00; 0x00].
Definition PartitionType_HPUX_Service : GUID := mkGuid 0xe2a1e728 0x32e3 0x11d6 [0xa6; 0x82; 0x7b; 0x03; 0xa0; 0x00; 0x00; 0x00].
Definition PartitionType_Solaris_Boot : GUID := mkGuid 0x6a82cb45 0x1dd2 0x11b2 [0x99; 0xa6; 0x08; 0x00; 0x20; 0x73; 0x66; 0x31].
Definition PartitionType_Solaris_Root : GUID := mkGuid 0x6a85cf4d 0x1dd2 0x11b2 [0x99; 0xa6; 0x08; 0x00; 0x20; 0x73; 0x66; 0x31].
Definition PartitionType_Solaris_Swap : GUID := mkGuid 0x6a87c46f 0x1dd2 0x11b2 [0x99; 0xa6; 0x08; 0x00; 0x20; 0x73; 0x66; 0x31].
Definition PartitionType_Solaris_Backup : GUID := mkGuid 0x6a8b642b 0x1dd2 0x11b2 [0x99; 0xa6; 0x08; 0x00; 0x20; 0x73; 0x66; 0x31].
Definition PartitionType_Solaris_usr : GUID := mkGuid 0x6a898cc3 0x1dd2 0x11b2 [0x99; 0xa6; 0x08; 0x00; 0x20; 0x73; 0x66; 0x31].
Definition PartitionType_Solaris_var : GUID := mkGuid 0x6a8ef2e9 0x1dd2 0x11b2 [0x99; 0xa6; 0x08; 0x00; 0x20; 0x73; 0x66; 0x31].
Definition PartitionType_Solaris_home : GUID := mkGuid 0x6a90ba39 0x1dd2 0x11b2 [0x99; 0xa6; 0x08; 0x00; 0x20; 0x73; 0x66; 0x31].
Definition PartitionType_Solaris_AlternateSector : GUID := mkGuid 0x6a9283a5 0x1dd2 0x11b2 [0x99; 0xa6; 0x08; 0x00; 0x20; 0x73; 0x66; 0x31].
Definition PartitionType_Solaris_Reserved1 : GUID := mkGuid 0x6a945a3b 0x1dd2 0x11b2 [0x99; 0xa6; 0x08; 0x00; 0x20; 0x73; 0x66; 0x31].
Definition PartitionType_Solaris_Reserved2 : GUID := mkGuid 0x6a9630d1 0x1dd2 0x11b2 [0x99; 0xa6; 0x08; 0x00; 0x20; 0x73; 0x66; 0x31].
Definition PartitionType_Solaris_Reserved3 : GUID := mkGuid 0x6a980767 0x1dd2 0x11b2 [0x99; 0xa6; 0x08; 0x00; 0x20; 0x73; 0x66; 0x31].
Definition PartitionType_Solaris_Reserved4 : GUID := mkGuid 0x6a96237f 0x1dd2 0x11b2 [0x99; 0xa6; 0x08; 0x00; 0x20; 0x73; 0x66; 0x31].
Definition PartitionType_Solaris_Reserved5 : GUID := mkGuid 0x6a8d2ac7 0x1dd2 0x11b2 [0x99; 0xa6; 0x08; 0x00; 0x20; 0x73; 0x66; 0x31].

(** The list ends at [NullGUID]; the loop over it stops there. *)
Definition ReservedPartitionGUIDs : list GUID :=
  [PartitionType_MBR;
   PartitionType_BIOSBoot;
   PartitionType_IntelFastFlash;
   PartitionType_MSWindows_Reserved;
   PartitionType_MSWindows_BasicData;
   PartitionType_MSWindows_LogicalDiskManagerMetadata;
   PartitionType_MSWindows_LogicalDiskManagerData;
   PartitionType_MSWindows_Recovery;
   PartitionType_MSWindows_IBMGeneralParallelFileSystem;
   PartitionType_Linux_FileSystemData;
   PartitionType_Linux_RAID;
   PartitionType_Linux_Swap;
   PartitionType_Linux_LogicalVolumeManager;
   PartitionType_Linux_Reserved;
   PartitionType_FreeBSD_Boot;
   PartitionType_FreeBSD_Data;
   PartitionType_FreeBSD_Swap;
   PartitionType_FreeBSD_UFS;
   PartitionType_FreeBSD_VinumVolumeManager;
   PartitionType_FreeBSD_ZFS;
   PartitionType_NetBSD_Swap;
   PartitionType_NetBSD_FFS;
   PartitionType_NetBSD_LFS;
   PartitionType_NetBSD_RAID;
   PartitionType_NetBSD_Concatenated;
   PartitionType_NetBSD_Encrypted;
   PartitionType_MidnightBSD_Data;
   PartitionType_MidnightBSD_Swap;
   PartitionType_MidnightBSD_VinumVolumeManager;
   PartitionType_MidnightBSD_ZFS;
   PartitionType_MidnightBSD_Boot;
   PartitionType_MidnightBSD_UFS;
   PartitionType_ChromeOS_Kernel;
   PartitionType_ChromeOS_RootFS;
   PartitionType_ChromeOS_FutureUse;
   PartitionType_HPUX_Data;
   PartitionType_HPUX_Service;
   PartitionType_Solaris_Boot;
   PartitionType_Solaris_Root;
   PartitionType_Solaris_Swap;
   PartitionType_Solaris_Backup;
   PartitionType_Solaris_usr;
   PartitionType_Solaris_var;
   PartitionType_Solaris_home;
   PartitionType_Solaris_AlternateSector;
   PartitionType_Solaris_Reserved1;
   PartitionType_Solaris_Reserved2;
   PartitionType_Solaris_Reserved3;
   PartitionType_Solaris_Reserved4;
   PartitionType_Solaris_Reserved5].

(** ** The partition table *)

(** A GUID of 16 bytes. *)
Definition guid_of (bytes : list Z) : GUID := mkGuid (Fat.field bytes 0 4) (Fat.field bytes 4 2) (Fat.field bytes 6 2) (take 8 (drop 8 bytes)).

(** [GPT::Header], from the 88 bytes of the struct. *)
Record Header := mkHeader {
  Signature : list Z;
  Revision : Z;
  Size : Z;
  CRC32 : Z;
  Reserved0 : Z;
  CurrentLBA : Z;
  BackupLBA : Z;
  FirstUsableLBA : Z;
  LastUsableLBA : Z;
  DiskGUID : list Z;
  PartitionsTableLBA : Z;
  NumberOfPartitionsTableEntries : Z;
  PartitionsTableEntrySize : Z
}.

Definition sizeof_header : Z := 88.

Definition header_of (bytes : list Z) : Header :=
  mkHeader (take 8 bytes) (Fat.field bytes 8 4) (Fat.field bytes 12 4) (Fat.field bytes 16 4) (Fat.field bytes 20 4)
    (Fat.field bytes 24 8) (Fat.field bytes 32 8) (Fat.field bytes 40 8) (Fat.field bytes 48 8) (take 16 (drop 56 bytes)) (Fat.field bytes 72 8) (Fat.field bytes 80 4) (Fat.field bytes 84 4).

(** "EFI PART" *)
Definition HEADER_SIGNATURE : list Z := [0x45; 0x46; 0x49; 0x20; 0x50; 0x41; 0x52; 0x54].

(** [GPT::PartitionEntry] *)
Record PartitionEntry := mkPartition {
  TypeGUID : GUID;
  UniqueGUID : GUID;
  StartLBA : Z;
  EndLBA : Z;
  Attributes : Z;
  PName : list Z
}.

Definition sizeof_entry : nat := 128.

Definition entry_of (bytes : list Z) : PartitionEntry :=
  mkPartition (guid_of bytes) (guid_of (drop 16 bytes)) (Fat.field bytes 32 8) (Fat.field bytes 40 8) (Fat.field bytes 48 8)
    (take 72 (drop 56 bytes)).

Definition size_in_sectors (e : PartitionEntry) : Z := EndLBA e -64 StartLBA e.
Definition required_by_platform (e : PartitionEntry) : bool := Z.testbit (Attributes e) 0.
Definition should_ignore (e : PartitionEntry) : bool := Z.testbit (Attributes e) 1.

(** [GPTPartitionDriver] on top of a disk's [read_raw]. *)
Record GPTPartitionDriver := mkPart { PType : GUID; PUnique : GUID; POffset : Z }.

Definition partition_driver (type unique : GUID) (startSector sectorSize : Z) : GPTPartitionDriver :=
  mkPart type unique (startSector *64 sectorSize).

Definition partition_read_raw (read_raw : Z -> Z -> Z * list Z) (p : GPTPartitionDriver) (offs byteCount : Z) : Z * list Z :=
  read_raw (offs +64 POffset p) byteCount.

Definition partition_write {St : Type} (write : Z -> Z -> list Z -> St -> Z * St) (p : GPTPartitionDriver)
    (offs byteCount : Z) (data : list Z) (st : St) : Z * St :=
  write (offs +64 POffset p) byteCount data st.

(** [GPTPartition::GPTPartition]: sectors are taken to be 512 bytes. *)
Definition make_partition (e : PartitionEntry) : GPTPartitionDriver :=
  partition_driver (TypeGUID e) (UniqueGUID e) (StartLBA e) 512.

Section Discovery.
(** The disk, and what the stack holds before it is written. *)
Context (read_raw : Z -> Z -> Z * list Z) (stack : nat -> list Z).

(** The header a read leaves in a struct; its numeric fields start as zero. *)
Definition read_header : outcome Header :=
  bytes ← Fat.into (take 8 (stack 88%nat) ++ replicate 48 0 ++ take 16 (drop 56 (stack 88%nat)) ++ replicate 16 0)
            (read_raw 512 sizeof_header).2;
  Done (header_of bytes).

Definition is_gpt_present : outcome bool :=
  hdr ← read_header;
  Done (negb (Revision hdr =? 0) && bool_decide (Signature hdr = HEADER_SIGNATURE)).

(** The entry the loop looks at in turn [i]: the sector read, then the entry
    inside it, which may stick out of the sector. *)
Definition entry_place (hdr : Header) (i : Z) : Z * Z :=
  let byteOffset := wrap32 (PartitionsTableEntrySize hdr * i) in
  let partSector := wrap32 (PartitionsTableLBA hdr + byteOffset / 512) in
  (wrap32 (partSector * 512), byteOffset mod 512).

Definition known (e : PartitionEntry) : bool := bool_decide (TypeGUID e ∈ ReservedPartitionGUIDs).

(** Turns [i], [i + 1], ... of the loop; [sector] is the buffer on the stack.
    The devices created, in order. *)
Fixpoint discover_loop (turns : nat) (i : Z) (hdr : Header) (sector : list Z) (found : list PartitionEntry) : outcome (list PartitionEntry) :=
  match turns with
  | O => Done found
  | S turns =>
      let '(place, byteOffset) := entry_place hdr i in
      sector ← Fat.into sector (read_raw place 512).2;
      if (length sector <? Z.to_nat byteOffset + sizeof_entry)%nat then Stop Undefined
      else
        let part := entry_of (drop (Z.to_nat byteOffset) sector) in
        if should_ignore part then discover_loop turns (i + 1) hdr sector found
        else if bool_decide (TypeGUID part = NullGUID) then discover_loop turns (i + 1) hdr sector found
        else if EndLBA part <? StartLBA part then discover_loop turns (i + 1) hdr sector found
        else
          _ ← Fat.strip_spaces (Utf.utf16_to_utf8 (PName part));
          discover_loop turns (i + 1) hdr sector (if negb (known part) then found ++ [part] else found)
  end.

Definition discover_partitions : outcome (list PartitionEntry) :=
  present ← is_gpt_present;
  if negb present then Done []
  else hdr ← read_header; discover_loop (Z.to_nat (NumberOfPartitionsTableEntries hdr)) 0 hdr (stack 512%nat) [].

(** ** Which partitions become devices *)

Definition usable (e : PartitionEntry) : Prop :=
  should_ignore e = false /\ TypeGUID e ≠ NullGUID /\ StartLBA e <= EndLBA e /\ TypeGUID e ∉ ReservedPartitionGUIDs.

Lemma discover_loop_usable turns i hdr sector found l :
  Forall usable found -> discover_loop turns i hdr sector found = Done l -> Forall usable l.
Proof.
  revert i sector found. induction turns as [|turns IH]; intros i sector found Hf; cbn [discover_loop]; [by intros [= <-]|].
  destruct (entry_place hdr i) as [place off]. intros H. done_inv H. destruct (_ <? _)%nat; [done|].
  set (part := entry_of _) in *. destruct (should_ignore part) eqn:E1; [by eapply IH|].
  case_bool_decide as E2; [by eapply IH|]. destruct (Z.ltb_spec (EndLBA part) (StartLBA part)) as [|E3]; [by eapply IH|].
  done_inv H. eapply IH; [|exact H]. unfold known. case_bool_decide as E4; [done|]. cbn [negb]. apply Forall_app. split; [done|].
  by repeat constructor.
Qed.

End Discovery.

(** A partition becomes a device only if it is not marked to be ignored, is
    in use, does not end before it starts, and its type is not on the list of
    partitions the system leaves alone. *)
Theorem reserved_partitions_are_left_alone read_raw stack l e :
  discover_partitions read_raw stack = Done l -> e ∈ l ->
  should_ignore e = false /\ TypeGUID e ≠ NullGUID /\ StartLBA e <= EndLBA e /\ TypeGUID e ∉ ReservedPartitionGUIDs.
Proof.
  intros H He. assert (Hall : Forall usable l); [|rewrite Forall_forall in Hall; by apply Hall].
  unfold discover_partitions in H. done_inv H. destruct r; cbn [negb] in H; [|by injection H as <-].
  done_inv H. eapply discover_loop_usable; [|exact H]. constructor.
Qed.

(** *** A disk with one EFI system partition *)

Fixpoint enc (n : nat) (v : Z) : list Z :=
  match n with
  | O => []
  | S n => v mod 256 :: enc n (v / 256)
  end.
Definition guid_bytes (g : GUID) : list Z := enc 4 (Data1 g) ++ enc 2 (Data2 g) ++ enc 2 (Data3 g) ++ Data4 g.

Definition example_header : list Z :=
  HEADER_SIGNATURE ++ enc 4 0x10000 ++ replicate 12 0 ++ replicate 32 0 ++ replicate 16 0 ++ enc 8 2 ++ enc 4 2 ++ enc 4 128.
Definition example_partition (type : GUID) (first last : Z) : list Z :=
  guid_bytes type ++ replicate 16 1 ++ enc 8 first ++ enc 8 last ++ enc 8 0 ++ replicate 72 0.
Definition example_table : list Z :=
  example_partition PartitionType_EFISystem 34 2000 ++ example_partition PartitionType_Linux_Swap 2001 4000 ++ replicate 256 0.
Definition example_gpt_disk (offs n : Z) : Z * list Z :=
  (n, if offs =? 512 then example_header else if offs =? 1024 then example_table else replicate (Z.to_nat n) 0).
Definition example_stack (n : nat) : list Z := replicate n 0xcc.

Lemma reserved_partitions_are_left_alone_witness :
  exists e, discover_partitions example_gpt_disk example_stack = Done [e] /\ StartLBA e = 34 /\
    should_ignore e = false /\ TypeGUID e ≠ NullGUID /\ StartLBA e <= EndLBA e /\ TypeGUID e ∉ ReservedPartitionGUIDs.
Proof.
  eexists. split; [vm_compute; reflexivity|]. split; [reflexivity|].
  apply (reserved_partitions_are_left_alone example_gpt_disk example_stack [entry_of (example_partition PartitionType_EFISystem 34 2000)]).
  - vm_compute. reflexivity.
  - by apply list_elem_of_singleton.
Defined.

(** Two usable partitions that do not overlap on the disk share no byte:
    an access inside the size of one never falls into the other. *)
Theorem partitions_are_disjoint e1 e2 offs1 offs2 :
  0 <= StartLBA e1 <= EndLBA e1 -> 0 <= StartLBA e2 <= EndLBA e2 -> EndLBA e1 < 2 ^ 54 -> EndLBA e2 < 2 ^ 54 ->
  EndLBA e1 < StartLBA e2 \/ EndLBA e2 < StartLBA e1 ->
  0 <= offs1 < 512 * (size_in_sectors e1 + 1) -> 0 <= offs2 < 512 * (size_in_sectors e2 + 1) ->
  forall read_raw : Z -> Z -> Z * list Z, exists a1 a2,
    partition_read_raw read_raw (make_partition e1) offs1 1 = read_raw a1 1 /\
    partition_read_raw read_raw (make_partition e2) offs2 1 = read_raw a2 1 /\ a1 ≠ a2 /\
    512 * StartLBA e1 <= a1 < 512 * (EndLBA e1 + 1) /\ 512 * StartLBA e2 <= a2 < 512 * (EndLBA e2 + 1).
Proof.
  intros H1 H2 H3 H4 Hd Ho1 Ho2 rr. unfold partition_read_raw, make_partition, partition_driver, size_in_sectors in *. cbn [POffset].
  rewrite (wrap64_small (EndLBA e1 - _)) in Ho1 by (unfold is_u64; lia).
  rewrite (wrap64_small (EndLBA e2 - _)) in Ho2 by (unfold is_u64; lia).
  rewrite (wrap64_small (StartLBA e1 * 512)), (wrap64_small (StartLBA e2 * 512)) by (unfold is_u64; lia).
  do 2 eexists. split_and!; [reflexivity|reflexivity|..]; rewrite ?(wrap64_small (offs1 + _)), ?(wrap64_small (offs2 + _)) by (unfold is_u64; lia); lia.
Qed.

Lemma partitions_are_disjoint_witness :
  exists a1 a2,
    partition_read_raw example_gpt_disk (make_partition (entry_of (example_partition PartitionType_EFISystem 34 2000))) 512 1 = example_gpt_disk a1 1 /\
    partition_read_raw example_gpt_disk (make_partition (entry_of (example_partition PartitionType_Linux_Swap 2001 4000))) 0 1 = example_gpt_disk a2 1 /\
    a1 ≠ a2 /\ 512 * 34 <= a1 < 512 * (2000 + 1) /\ 512 * 2001 <= a2 < 512 * (4000 + 1).
Proof.
  apply (partitions_are_disjoint (entry_of (example_partition PartitionType_EFISystem 34 2000))
    (entry_of (example_partition PartitionType_Linux_Swap 2001 4000)) 512 0); vm_compute; intuition congruence.
Defined.

End Gpt.
