(* ===== verification/Vfs.v ===== *)
(** * The virtual filesystem

    Models [VFS] of src/kernel/src/virtual_filesystem.h and
    virtual_filesystem.cpp over an interface to the filesystem drivers.  The
    table [Files] holds shared pointers: the addresses of metadata objects in a
    store.  An object is destroyed, which closes the file in its driver, when the
    last shared pointer to it goes.  Besides the table, shared pointers are owned
    by calls while they run, and by calls that never return: a read that has to
    wait leaves its own on a stack nobody comes back to ([Held]). *)

From Stdlib Require Import Ascii String.
From S2P Require Import Prelude PhysMem LinkedList SparseVector RingBuffer Event Process Scheduler FileMeta.

(** ** Drivers as the filesystem sees them *)

(** The virtual functions of [FilesystemDriver], for every driver object.
    [open] returns the address of a metadata object, or null. *)
Class Drivers (D : Type) := {
  drv_open : FilesystemDriver -> string -> D * sched -> Store.store FileMetadata ->
    outcome (Z * (D * sched) * Store.store FileMetadata);
  drv_close : FilesystemDriver -> FileMetadata -> D * sched -> outcome (D * sched);
  drv_read : FilesystemDriver -> FileMetadata -> Z -> Z -> Z -> D * sched -> mem -> outcome (Z * (D * sched) * mem);
  drv_write : FilesystemDriver -> FileMetadata -> Z -> Z -> Z -> D * sched -> mem -> outcome (Z * (D * sched));
  drv_directory_data : FilesystemDriver -> string -> Z -> Z -> D -> mem -> outcome (Z * mem)
}.

(** ** Strings *)

(** [path.starts_with(p)] and [path.substr(n)] *)
Definition starts_with (path p : string) : bool := String.prefix p path.
Definition substr (n : nat) (path : string) : string := String.substring n (String.length path - n) path.

(** What the filesystem relies on: a driver's state fits the live metadata
    ([drv_ok]); destroying one object can always be done, changes no process
    except by waking it, and leaves a state that fits the others; [open] adds at
    most the object it returns. *)
Class DriverLaws (D : Type) `{!Drivers D} := {
  drv_ok : D -> gmap Z FileMetadata -> Prop;
  drv_ok_driver d ms a f : drv_ok d ms -> ms !! a = Some f -> is_Some (FileDriver f);
  drv_close_ok d ms a f drv s ns ps :
    drv_ok d ms -> ms !! a = Some f -> FileDriver f = Some drv -> queue_ok s ns ps ->
    exists d' s' ret W, drv_close drv f (d, s) = Done (d', s') /\ drv_ok d' (delete a ms) /\ woken ret W s s';
  drv_open_ok d drv path s ms r d' s' ms' :
    drv_ok d (Store.objs ms) -> Store.wf ms -> drv_open drv path (d, s) ms = Done (r, (d', s'), ms') ->
    Store.wf ms' /\ drv_ok d' (Store.objs ms') /\ s' = s /\
    ((r = 0 /\ ms' = ms) \/ (r ≠ 0 /\ (ms' = ms \/ Store.objs ms !! r = None) /\
      is_Some (Store.objs ms' !! r) /\ forall a, a ≠ r -> Store.objs ms' !! a = Store.objs ms !! a))
}.

Module Vfs.

Record MountPoint := mkMount { Path : string; FS : FilesystemDriver }.

Record vfs := mkVfs {
  Files : Sparse.sparse_vector Z;
  Mounts : list MountPoint;
  metas : Store.store FileMetadata;
  Held : list Z
}.

Definition with_Files (x : Sparse.sparse_vector Z) (v : vfs) : vfs := mkVfs x (Mounts v) (metas v) (Held v).
Definition with_metas (x : Store.store FileMetadata) (v : vfs) : vfs := mkVfs (Files v) (Mounts v) x (Held v).

(** The owner of this shared pointer never gets to release it. *)
Definition hold (a : Z) (v : vfs) : vfs := mkVfs (Files v) (Mounts v) (metas v) (a :: Held v).

(** [use_count()] of the shared pointers to the object at [a]. *)
Definition use_count (a : Z) (v : vfs) : nat :=
  length (filter (fun b => b = a) (Sparse.els (Files v))) + length (filter (fun b => b = a) (Held v)).

(** [struct FileDescriptors]; default-constructed, both are [Invalid]. *)
Record FileDescriptors := mkFds { FProcess : Z; FGlobal : Z }.
Definition no_fds : FileDescriptors := mkFds FD_Invalid FD_Invalid.
Definition fds_valid (f : FileDescriptors) : bool := negb (FProcess f =? FD_Invalid) && negb (FGlobal f =? FD_Invalid).

Section Operations.
Context {D : Type} `{!Drivers D}.

Definition mount (path : string) (fs : FilesystemDriver) (v : vfs) : vfs :=
  mkVfs (Files v) (Mounts v ++ [mkMount path fs]) (metas v) (Held v).

(** [procfd_to_fd(process, procfd)] *)
Definition procfd_to_fd (process procfd : Z) (s : sched) : outcome Z :=
  p ← proc process s;
  Done (match Sparse.get procfd (Process.FileDescriptors p) with
        | None => FD_Invalid
        | Some sysfd => sysfd
        end).

Definition current_process (s : sched) : outcome Z := SLL.value (CurrentProcess s) (ProcessQueue s).

(** [procfd_to_fd(procfd)] *)
Definition procfd_to_fd_current (procfd : Z) (s : sched) : outcome Z :=
  a ← current_process s; procfd_to_fd a procfd s.

(** [file(SysFD)]: the address of the metadata, or null. *)
Definition file (fd : Z) (v : vfs) : Z := default 0 (Sparse.get fd (Files v)).

(** [file(ProcFD)] *)
Definition file_current (procfd : Z) (v : vfs) (s : sched) : outcome Z :=
  a ← current_process s;
  p ← proc a s;
  Done (match Sparse.get procfd (Process.FileDescriptors p) with
        | None => 0
        | Some sysfd => file sysfd v
        end).

(** [valid(proc, procfd)], [valid(fd)] *)
Definition valid (process procfd : Z) (s : sched) : outcome bool :=
  fd ← procfd_to_fd process procfd s; Done (negb (fd =? FD_Invalid)).
Definition valid_sysfd (fd : Z) (v : vfs) : bool := negb (file fd v =? 0).

(** A shared pointer to the object at [a] has gone: with the last one the
    metadata is destroyed, and its destructor closes the file. *)
Definition drop_ref (a : Z) (v : vfs) (ds : D * sched) : outcome (vfs * (D * sched)) :=
  if (a =? 0) || negb (use_count a v =? 0)%nat then Done (v, ds)
  else
    f ← Store.get a (metas v);
    ds ← match FileDriver f with
         | None => Done ds
         | Some drv => drv_close drv f ds
         end;
    Done (with_metas (Store.del a (metas v)) v, ds).

Definition set_descriptors (process : Z) (x : Sparse.sparse_vector Z) (s : sched) : outcome sched :=
  modify_proc process (with_FileDescriptors x) s.

(** [free_fd(process, fd, procfd)] *)
Definition free_fd (process fd procfd : Z) (v : vfs) (ds : D * sched) : outcome (vfs * (D * sched)) :=
  if process =? 0 then Done (v, ds)
  else
    let '(d, s) := ds in
    p ← proc process s;
    '(_, fds) ← Sparse.erase FD_Invalid procfd (Process.FileDescriptors p);
    s ← set_descriptors process fds s;
    let f := file fd v in
    '(_, files) ← Sparse.erase 0 fd (Files v);
    drop_ref f (with_Files files v) (d, s).

(** [add_file(file, proc)]; [proc] null means the current process. *)
Definition add_file (f process : Z) (v : vfs) (ds : D * sched) : outcome (FileDescriptors * vfs * (D * sched)) :=
  let '(d, s) := ds in
  a ← (if process =? 0 then current_process s else Done process);
  let '(fd, _, files) := Sparse.push_back 0 f (Files v) in
  p ← proc a s;
  let '(procfd, _, fds) := Sparse.push_back FD_Invalid fd (Process.FileDescriptors p) in
  s ← set_descriptors a fds s;
  Done (mkFds procfd fd, with_Files files v, (d, s)).

Fixpoint open_on (path : string) (mounts : list MountPoint) (v : vfs) (ds : D * sched) :
    outcome (FileDescriptors * vfs * (D * sched)) :=
  match mounts with
  | [] => Done (no_fds, v, ds)
  | m :: mounts =>
      if negb (starts_with path (Path m)) then open_on path mounts v ds
      else
        let fs_path := substr (String.length (Path m)) path in
        '(meta, ds, ms) ← drv_open (FS m) fs_path ds (metas v);
        let v := with_metas ms v in
        if meta =? 0 then open_on path mounts v ds else add_file meta 0 v ds
  end.

Definition open (path : string) (v : vfs) (ds : D * sched) : outcome (FileDescriptors * vfs * (D * sched)) :=
  if (String.length path <=? 1)%nat then Done (no_fds, v, ds)
  else
    match String.get 0 path with
    | Some "/"%char => open_on path (Mounts v) v ds
    | _ => Done (no_fds, v, ds)
    end.

(** [close(process, procfd)] *)
Definition close (process procfd : Z) (v : vfs) (ds : D * sched) : outcome (bool * vfs * (D * sched)) :=
  if process =? 0 then Done (false, v, ds)
  else
    fd ← procfd_to_fd process procfd ds.2;
    if fd =? FD_Invalid then Done (false, v, ds)
    else if file fd v =? 0 then Done (false, v, ds)
    else '(v, ds) ← free_fd process fd procfd v ds; Done (true, v, ds).

(** [close(procfd)] *)
Definition close_current (procfd : Z) (v : vfs) (ds : D * sched) : outcome (bool * vfs * (D * sched)) :=
  a ← current_process ds.2; close a procfd v ds.

Definition dup (process fd : Z) (v : vfs) (ds : D * sched) : outcome (FileDescriptors * vfs * (D * sched)) :=
  if process =? 0 then Done (no_fds, v, ds)
  else
    ok ← valid process fd ds.2;
    if negb ok then Done (no_fds, v, ds)
    else
      sysfd ← procfd_to_fd process fd ds.2;
      let f := file sysfd v in
      if f =? 0 then Done (no_fds, v, ds) else add_file f process v ds.

Definition dup2 (process fd replaced : Z) (v : vfs) (ds : D * sched) : outcome (bool * vfs * (D * sched)) :=
  if process =? 0 then Done (false, v, ds)
  else
    ok ← valid process fd ds.2;
    if negb ok then Done (false, v, ds)
    else
      ok ← valid process replaced ds.2;
      if negb ok then Done (false, v, ds)
      else if fd =? replaced then Done (true, v, ds)
      else
        sysfd ← procfd_to_fd process fd ds.2;
        let f := file sysfd v in
        if f =? 0 then Done (false, v, ds)
        else
          replaced_sysfd ← procfd_to_fd process replaced ds.2;
          let old := file replaced_sysfd v in
          '(_, files) ← Sparse.replace 0 replaced_sysfd f (Files v);
          '(v, ds) ← drop_ref old (with_Files files v) ds;
          Done (true, v, ds).

Definition read (fd buffer byteCount byteOffset : Z) (v : vfs) (ds : D * sched) (m : mem) : outcome (Z * (D * sched) * mem) :=
  a ← file_current fd v ds.2;
  if a =? 0 then Done (-1, ds, m)
  else
    meta ← Store.get a (metas v);
    drv ← deref (FileDriver meta);
    drv_read drv meta (byteOffset +64 offset meta) byteCount buffer ds m.

Definition write (fd buffer byteCount byteOffset : Z) (v : vfs) (ds : D * sched) (m : mem) : outcome (Z * (D * sched)) :=
  a ← file_current fd v ds.2;
  if a =? 0 then Done (-1, ds)
  else
    meta ← Store.get a (metas v);
    drv ← deref (FileDriver meta);
    drv_write drv meta (byteOffset +64 offset meta) byteCount buffer ds m.

(** *** Directories *)

(** [struct DirectoryEntry]: a 32-bit type, then the name. *)
Definition sizeof_dirent : Z := 4 + 248.

Definition file_type_value (t : FileType) : Z := match t with Regular => 0 | Directory => 1 end.

(** The mount points written to [dirents] from entry [count] on. *)
Fixpoint list_mounts (mounts : list MountPoint) (dirents count : Z) (m : mem) : Z * mem :=
  match mounts with
  | [] => (count, m)
  | mp :: mounts =>
      let entry := dirents + sizeof_dirent * count in
      let m := store_bytes (entry + 4) (bytes_of_string (Path mp)) m in
      let m := write_le 4 m entry (file_type_value Directory) in
      list_mounts mounts dirents (count + 1) m
  end.

Definition directory_data (path : string) (entry_count dirents : Z) (v : vfs) (d : D) (m : mem) : outcome (Z * mem) :=
  if entry_count =? 0 then Done (0, m)
  else if (String.length path =? 0)%nat || (path =? "/")%string then Done (list_mounts (Mounts v) dirents 0 m)
  else if negb (starts_with path "/") then Done (-1, m)
  else
    match List.find (fun mp => starts_with path (Path mp)) (Mounts v) with
    | Some mp => drv_directory_data (FS mp) (substr (String.length (Path mp)) path) entry_count dirents d m
    | None => Done (-1, m)
    end.

End Operations.

(** ** The filesystem as a map from descriptors to files *)

Section Spec.
Context {D : Type} `{!Drivers D, !DriverLaws D}.

(** The file a process sees under a descriptor. *)
Definition open_file (v : vfs) (s : sched) (process fd : Z) : option Z :=
  p ← procs s !! process;
  sysfd ← Sparse.lookup_valid FD_Invalid (Process.FileDescriptors p) fd;
  Sparse.lookup_valid 0 (Files v) sysfd.

Definition sysfd_of (s : sched) (process fd : Z) : option Z :=
  p ← procs s !! process; Sparse.lookup_valid FD_Invalid (Process.FileDescriptors p) fd.

(** Somebody owns a shared pointer to the object. *)
Definition shared (a : Z) (v : vfs) : Prop := a ∈ Sparse.els (Files v) \/ a ∈ Held v.

Lemma use_count_zero a v : (use_count a v =? 0)%nat = true <-> ~ shared a v.
Proof.
  assert (H : forall l : list Z, length (filter (fun b => b = a) l) = 0%nat <-> a ∉ l).
  { induction l as [|b l IH]; [by split; [intros _ ?%not_elem_of_nil|]|]. rewrite not_elem_of_cons. unfold filter. cbn [list_filter].
    case_decide; cbn [length]; [naive_solver|]. change (list_filter _ _ l) with (filter (fun b => b = a) l). rewrite IH. naive_solver. }
  unfold use_count, shared. rewrite Nat.eqb_eq, Nat.eq_add_0, !H. tauto.
Qed.

(** The metadata in the store is what shared pointers refer to, besides [extra];
    no two descriptors share a table entry, every one has a file, and every entry
    of the table belongs to one. *)
Record ok (extra : option Z) (v : vfs) (d : D) (s : sched) : Prop := {
  ok_files : Sparse.wf 0 (Files v);
  ok_metas : Store.wf (metas v);
  ok_refs a : is_Some (Store.objs (metas v) !! a) <-> a ≠ 0 /\ (shared a v \/ extra = Some a);
  ok_drivers : drv_ok d (Store.objs (metas v));
  ok_tables a p : procs s !! a = Some p -> Sparse.wf FD_Invalid (Process.FileDescriptors p);
  ok_mapped a fd sysfd : 0 <= fd -> sysfd_of s a fd = Some sysfd ->
    0 <= sysfd /\ is_Some (Sparse.lookup_valid 0 (Files v) sysfd);
  ok_distinct a fd a' fd' sysfd : 0 <= fd -> 0 <= fd' -> sysfd_of s a fd = Some sysfd -> sysfd_of s a' fd' = Some sysfd ->
    a = a' /\ fd = fd';
  ok_owned i : 0 <= i -> is_Some (Sparse.lookup_valid 0 (Files v) i) -> exists a fd, 0 <= fd /\ sysfd_of s a fd = Some i
}.

Lemma open_file_sysfd v s a fd : open_file v s a fd = (sysfd_of s a fd ≫= Sparse.lookup_valid 0 (Files v)).
Proof. unfold open_file, sysfd_of. by destruct (procs s !! a). Qed.

(** Waking processes changes no descriptor. *)
Lemma woken_sysfd ret W s s' a fd : woken ret W s s' -> sysfd_of s' a fd = sysfd_of s a fd.
Proof. intros [_ H]. unfold sysfd_of. rewrite H. destruct (procs s !! a) as [p|]; [|done]. cbn. by case_bool_decide. Qed.

Lemma woken_table ret W s s' a p' :
  woken ret W s s' -> procs s' !! a = Some p' -> exists p, procs s !! a = Some p /\ Process.FileDescriptors p' = Process.FileDescriptors p.
Proof.
  intros [_ H]. rewrite H. destruct (procs s !! a) as [p|]; [|done]. cbn. intros [= <-]. exists p. by case_bool_decide.
Qed.

Lemma woken_ok extra v d s s' ret W : woken ret W s s' -> ok extra v d s -> ok extra v d s'.
Proof.
  intros Hw O. split; try apply O.
  - intros a p' Hp. destruct (woken_table _ _ _ _ _ _ Hw Hp) as (p & Hp0 & ->). by eapply ok_tables.
  - intros a fd sysfd Hfd. rewrite (woken_sysfd _ _ _ _ _ _ Hw). by apply O.
  - intros a fd a' fd' sysfd H1 H2. rewrite !(woken_sysfd _ _ _ _ _ _ Hw). by apply O.
  - intros i Hi Hx. destruct (ok_owned _ _ _ _ O i Hi Hx) as (a & fd & Hfd & Hs). exists a, fd. by rewrite (woken_sysfd _ _ _ _ _ _ Hw).
Qed.

(** A process changed only by descriptors that came or went and by waking. *)
Definition kept (q q' : Process) : Prop :=
  q' = with_State (State q') (with_CPU (CPU q') (with_FileDescriptors (Process.FileDescriptors q') q)) /\
  (State q = RUNNING -> State q' = RUNNING).

Record touched (s s' : sched) : Prop := {
  tc_sched : s' = with_procs (procs s') s;
  tc_none b : procs s !! b = None -> procs s' !! b = None;
  tc_some b q : procs s !! b = Some q -> exists q', procs s' !! b = Some q' /\ kept q q'
}.

(** No descriptor table was resized. *)
Definition sizes_kept (s s' : sched) : Prop :=
  forall b q q', procs s !! b = Some q -> procs s' !! b = Some q' ->
    Sparse.allocated_size (Process.FileDescriptors q') = Sparse.allocated_size (Process.FileDescriptors q).

Lemma kept_refl q : kept q q.
Proof. split; [by destruct q|done]. Qed.

Lemma kept_trans q1 q2 q3 : kept q1 q2 -> kept q2 q3 -> kept q1 q3.
Proof. intros [E1 H1] [E2 H2]. split; [|tauto]. rewrite E2. cbn. rewrite E1. cbn. reflexivity. Qed.

Lemma touched_refl s : touched s s.
Proof. split; [by destruct s|done|]. intros b q Hq. exists q. split; [done|apply kept_refl]. Qed.

Lemma touched_trans s1 s2 s3 : touched s1 s2 -> touched s2 s3 -> touched s1 s3.
Proof.
  intros [E1 N1 H1] [E2 N2 H2]. split.
  - rewrite E2, E1. by destruct s1.
  - auto.
  - intros b q Hq. destruct (H1 b q Hq) as (q1 & Hq1 & K1). destruct (H2 b q1 Hq1) as (q2 & Hq2 & K2).
    exists q2. split; [done|]. by eapply kept_trans.
Qed.

Lemma woken_touched ret W s s' : woken ret W s s' -> touched s s' /\ sizes_kept s s'.
Proof.
  intros [E H]. split.
  - split; [done| |].
    + intros b Hb. by rewrite H, Hb.
    + intros b q Hq. rewrite H, Hq. cbn. eexists. split; [done|]. case_bool_decide; [|apply kept_refl]. by split.
  - intros b q q' Hq. rewrite H, Hq. cbn. intros [= <-]. by case_bool_decide.
Qed.

Lemma descriptors_touched a x s s' p :
  procs s !! a = Some p -> procs s' = <[a := with_FileDescriptors x p]> (procs s) -> s' = with_procs (procs s') s ->
  touched s s' /\ (Sparse.allocated_size x = Sparse.allocated_size (Process.FileDescriptors p) -> sizes_kept s s').
Proof.
  intros Hp Es Ew. split.
  - split; [done| |].
    + intros b Hb. rewrite Es, lookup_insert_ne; [done|]. intros ->. congruence.
    + intros b q Hq. rewrite Es. destruct (decide (b = a)) as [->|Hne].
      * rewrite lookup_insert_eq. eexists. split; [done|]. rewrite Hp in Hq. injection Hq as <-. split; [by destruct p|done].
      * rewrite lookup_insert_ne by done. exists q. split; [done|apply kept_refl].
  - intros Hsz b q q' Hq. rewrite Es. destruct (decide (b = a)) as [->|Hne].
    + rewrite lookup_insert_eq. intros [= <-]. rewrite Hp in Hq. by injection Hq as <-.
    + rewrite lookup_insert_ne, Hq by done. by intros [= <-].
Qed.

Lemma sizes_kept_trans s1 s2 s3 : touched s1 s2 -> sizes_kept s1 s2 -> sizes_kept s2 s3 -> sizes_kept s1 s3.
Proof.
  intros T K1 K2 b q q' Hq Hq'. destruct (tc_some _ _ T b q Hq) as (q1 & Hq1 & _).
  by rewrite (K2 b q1 q' Hq1 Hq'), (K1 b q q1 Hq Hq1).
Qed.

(** Updating one process's table. *)
Lemma set_descriptors_spec a x s p :
  procs s !! a = Some p ->
  exists s', set_descriptors a x s = Done s' /\
    procs s' = <[a := with_FileDescriptors x p]> (procs s) /\ s' = with_procs (procs s') s.
Proof. intros Hp. unfold set_descriptors, modify_proc, proc. rewrite Hp. cbn. eexists. split_and!; done. Qed.

Lemma sysfd_of_update s s' a p x b fd :
  procs s !! a = Some p -> procs s' = <[a := with_FileDescriptors x p]> (procs s) ->
  sysfd_of s' b fd = if decide (b = a) then Sparse.lookup_valid FD_Invalid x fd else sysfd_of s b fd.
Proof.
  intros Hp E. unfold sysfd_of. rewrite E. case_decide as D1; [subst; by rewrite lookup_insert_eq|by rewrite lookup_insert_ne].
Qed.

Lemma tables_update s s' a p x :
  procs s' = <[a := with_FileDescriptors x p]> (procs s) -> Sparse.wf FD_Invalid x ->
  (forall b q, procs s !! b = Some q -> Sparse.wf FD_Invalid (Process.FileDescriptors q)) ->
  forall b q, procs s' !! b = Some q -> Sparse.wf FD_Invalid (Process.FileDescriptors q).
Proof.
  intros E W H b q. rewrite E. destruct (decide (b = a)) as [->|Hne]; [rewrite lookup_insert_eq; by intros [= <-]|].
  rewrite lookup_insert_ne by done. apply H.
Qed.

(** What a call did to the descriptors: only [(a, fd)] may change, to [new]. *)
Definition rebinds (v : vfs) (s : sched) (v' : vfs) (s' : sched) (a fd : Z) (new : option Z) : Prop :=
  forall b g, 0 <= g -> open_file v' s' b g = if decide (b = a /\ g = fd) then new else open_file v s b g.

Lemma open_file_entry extra v d s a fd f :
  ok extra v d s -> 0 <= fd -> open_file v s a fd = Some f ->
  exists p sysfd, procs s !! a = Some p /\ Sparse.lookup_valid FD_Invalid (Process.FileDescriptors p) fd = Some sysfd /\
    Sparse.lookup_valid 0 (Files v) sysfd = Some f /\ 0 <= sysfd /\ sysfd ≠ FD_Invalid /\ f ≠ 0.
Proof.
  intros O Hfd H. unfold open_file in H. destruct (procs s !! a) as [p|] eqn:Hp; [|done]. cbn in H.
  destruct (Sparse.lookup_valid FD_Invalid _ fd) as [sysfd|] eqn:Hs; [|done]. cbn in H. exists p, sysfd.
  destruct (ok_mapped _ _ _ _ O a fd sysfd Hfd) as [H0 _]; [unfold sysfd_of; by rewrite Hp|].
  pose proof (Sparse.lookup_valid_ne _ _ _ _ Hs) as [Hne _]. pose proof (Sparse.lookup_valid_ne _ _ _ _ H) as [Hf _]. done.
Qed.

Lemma procfd_to_fd_spec a fd s p sysfd :
  procs s !! a = Some p -> Sparse.lookup_valid FD_Invalid (Process.FileDescriptors p) fd = Some sysfd ->
  procfd_to_fd a fd s = Done sysfd.
Proof.
  intros Hp Hs. unfold procfd_to_fd, proc. rewrite Hp. cbn. apply Sparse.lookup_valid_ne in Hs as [_ Hs]. by rewrite Hs.
Qed.

Lemma file_spec v sysfd f : Sparse.lookup_valid 0 (Files v) sysfd = Some f -> file sysfd v = f.
Proof. intros H. apply Sparse.lookup_valid_ne in H as [_ H]. unfold file. by rewrite H. Qed.

(** Dropping a reference destroys the object exactly when no entry is left. *)
Lemma drop_ref_spec f v d s ns ps :
  ok (Some f) v d s -> f ≠ 0 -> queue_ok s ns ps ->
  exists v' d' s' ret W, drop_ref f v (d, s) = Done (v', (d', s')) /\ ok None v' d' s' /\ Files v' = Files v /\ Held v' = Held v /\
    woken ret W s s' /\
    (shared f v -> v' = v /\ d' = d /\ s' = s) /\
    (~ shared f v -> Store.objs (metas v') = delete f (Store.objs (metas v))).
Proof.
  intros O Hf Q. unfold drop_ref. rewrite (proj2 (Z.eqb_neq f 0) Hf). cbn [orb].
  destruct (use_count f v =? 0)%nat eqn:Hc; cbn [negb]; [apply use_count_zero in Hc as Hin|assert (Hin : shared f v)].
  2:{ destruct (decide (f ∈ Sparse.els (Files v))); [by left|]. destruct (decide (f ∈ Held v)); [by right|].
      exfalso. assert (Hn : ~ shared f v) by (intros []; done). apply use_count_zero in Hn. congruence. }
  2:{ exists v, d, s, 0, []. split_and!; try done; [|apply woken_refl]. split; try apply O. intros a. rewrite (ok_refs _ _ _ _ O).
    split; [|naive_solver]. intros [Ha [H|[= <-]]]; auto. }
  - destruct (proj2 (ok_refs _ _ _ _ O f)) as [m Hm]; [split; [done|by right]|].
    unfold Store.get. rewrite Hm. cbn [deref mbind outcome_bind].
    destruct (drv_ok_driver d _ f m (ok_drivers _ _ _ _ O) Hm) as [drv Ed]. rewrite Ed.
    destruct (drv_close_ok d _ f m drv s ns ps (ok_drivers _ _ _ _ O) Hm Ed Q) as (d' & s' & ret & W & -> & Hok & Hw).
    cbn [mbind outcome_bind].
    exists (with_metas (Store.del f (metas v)) v), d', s', ret, W. split_and!; try done.
    apply (woken_ok _ _ _ _ _ _ _ Hw). split; cbn [with_metas Files metas Held Store.del Store.objs]; try apply O.
    + apply Store.del_wf, O.
    + intros a. destruct (decide (a = f)) as [->|Hne].
      * rewrite lookup_delete_eq. split; [by intros [? ?]|]. intros [_ [H|?]]; done.
      * rewrite lookup_delete_ne, (ok_refs _ _ _ _ O) by done. split; [|naive_solver]. intros [Ha [H|[= ->]]]; [auto|done].
    + exact Hok.
Qed.

(** A new table entry for [f], known to the process as [procfd]. *)
Lemma add_entry_ok f a v d s s' p fd okf files fds procfd :
  ok (Some f) v d s -> f ≠ 0 -> procs s !! a = Some p -> Sparse.push_back 0 f (Files v) = (fd, okf, files) ->
  Sparse.wf FD_Invalid fds -> 0 <= procfd -> Sparse.lookup_valid FD_Invalid (Process.FileDescriptors p) procfd = None ->
  (forall j, 0 <= j -> Sparse.lookup_valid FD_Invalid fds j =
     if decide (j = procfd) then Some fd else Sparse.lookup_valid FD_Invalid (Process.FileDescriptors p) j) ->
  procs s' = <[a := with_FileDescriptors fds p]> (procs s) ->
  ok None (with_Files files v) d s' /\ open_file v s a procfd = None /\ rebinds v s (with_Files files v) s' a procfd (Some f).
Proof.
  intros O Hf Hp E1 Wf2 Hp0 Hpfree Hpl Es'.
  destruct (Sparse.sparse_push_spec 0 f (Files v) fd okf files (ok_files _ _ _ _ O) Hf E1) as (Wf & _ & Hfd0 & Hfree & Hl).
  assert (Hsys : forall b g, 0 <= g -> sysfd_of s' b g = if decide (b = a /\ g = procfd) then Some fd else sysfd_of s b g).
  { intros b g Hg. rewrite (sysfd_of_update s s' a p fds b g Hp Es'). destruct (decide (b = a)) as [->|Hne].
    - rewrite Hpl by done. destruct (decide (g = procfd)) as [->|Hng]; [by rewrite decide_True|].
      rewrite decide_False by tauto. unfold sysfd_of. by rewrite Hp.
    - by rewrite decide_False by tauto. }
  assert (Hnofd : forall b g, 0 <= g -> sysfd_of s b g ≠ Some fd).
  { intros b g Hg Hs. destruct (ok_mapped _ _ _ _ O b g fd Hg Hs) as [_ [x Hx]]. congruence. }
  split_and!.
  - split; cbn [with_Files Files metas]; try apply O; try done.
    + intros c. rewrite (ok_refs _ _ _ _ O). split.
      * intros [Hc Hor]. split; [done|]. left. destruct Hor as [[Hin|Hh]|[= <-]]; [|by right|]; left; apply (Sparse.els_lookup_valid 0); try done.
        -- apply (Sparse.els_lookup_valid 0) in Hin as (i & Hi & Hx); [|done]. exists i. split; [done|]. rewrite Hl by done.
           rewrite decide_False; [done|]. intros ->. congruence.
        -- exists fd. split; [done|]. rewrite Hl by done. by rewrite decide_True.
      * intros [Hc [[Hin|Hh]|?]]; [|split; [done|]; left; by right|done]. split; [done|]. apply (Sparse.els_lookup_valid 0) in Hin as (i & Hi & Hx); [|done].
        rewrite Hl in Hx by done. case_decide; [right; congruence|]. left. left. apply (Sparse.els_lookup_valid 0); [done|]. by exists i.
    + eapply tables_update; [exact Es'|done|]. apply O.
    + intros b g sysfd Hg. rewrite Hsys by done. case_decide as Dd.
      * intros [= <-]. split; [done|]. rewrite Hl by done. by rewrite decide_True.
      * intros Hs. destruct (ok_mapped _ _ _ _ O b g sysfd Hg Hs) as [H0 Hx]. split; [done|]. rewrite Hl by done. by case_decide.
    + intros b g b' g' sysfd Hg Hg'. rewrite !Hsys by done.
      destruct (decide (b = a /\ g = procfd)) as [[-> ->]|N1], (decide (b' = a /\ g' = procfd)) as [[-> ->]|N2].
      * done.
      * intros [= <-] Hs. by apply Hnofd in Hs.
      * intros Hs [= <-]. by apply Hnofd in Hs.
      * intros H1 H2. by apply (ok_distinct _ _ _ _ O b g b' g' sysfd).
    + intros i Hi. rewrite Hl by done. case_decide as Di; [subst i; intros _; exists a, procfd; split; [done|]; by rewrite Hsys, decide_True|].
      intros Hx. destruct (ok_owned _ _ _ _ O i Hi Hx) as (b & g & Hg & Hs). exists b, g. split; [done|]. rewrite Hsys by done.
      rewrite decide_False; [done|]. intros [-> ->]. unfold sysfd_of in Hs. rewrite Hp in Hs. cbn in Hs. congruence.
  - rewrite open_file_sysfd. unfold sysfd_of. rewrite Hp. cbn. by rewrite Hpfree.
  - intros b g Hg. rewrite !open_file_sysfd, Hsys by done. case_decide as Dd.
    + cbn. rewrite Hl by done. by rewrite decide_True.
    + destruct (sysfd_of s b g) as [sysfd|] eqn:Hs; [|done]. cbn.
      destruct (ok_mapped _ _ _ _ O b g sysfd Hg Hs) as [H0 _]. rewrite Hl by done. rewrite decide_False; [done|].
      intros ->. by apply Hnofd in Hs.
Qed.

(** Another table for one process leaves the queue as it is. *)
Lemma descriptors_queue_ok s s' a x p ns ps :
  procs s' = <[a := with_FileDescriptors x p]> (procs s) -> s' = with_procs (procs s') s -> queue_ok s ns ps -> queue_ok s' ns ps.
Proof.
  intros Es' Ew Q. rewrite Ew. apply queue_ok_with_procs; [done|]. intros b Hb. rewrite Es'.
  destruct (decide (b = a)) as [->|Hne]; [by rewrite lookup_insert_eq|by rewrite lookup_insert_ne].
Qed.

(** [add_file] gives the process a descriptor it did not use. *)
Lemma add_file_spec f a v d s p :
  ok (Some f) v d s -> f ≠ 0 -> procs s !! a = Some p -> Sparse.allocated_size (Files v) < 2 ^ 64 - 1 ->
  forall proc, (if proc =? 0 then current_process s else Done proc) = Done a ->
  exists procfd fd v' s', add_file f proc v (d, s) = Done (mkFds procfd fd, v', (d, s')) /\
    ok None v' d s' /\ metas v' = metas v /\ (forall ns ps, queue_ok s ns ps -> queue_ok s' ns ps) /\
    0 <= procfd /\ open_file v s a procfd = None /\ rebinds v s v' s' a procfd (Some f).
Proof.
  intros O Hf Hp Hsz pr Epr. unfold add_file. rewrite Epr. cbn [mbind outcome_bind].
  destruct (Sparse.push_back 0 f (Files v)) as [[fd okf] files] eqn:E1.
  pose proof (Sparse.sparse_push_bound 0 f _ _ _ _ (ok_files _ _ _ _ O) E1 Hf) as Hb.
  assert (Hfdv : fd ≠ FD_Invalid) by (unfold FD_Invalid; lia).
  unfold proc. rewrite Hp. cbn [deref mbind outcome_bind].
  destruct (Sparse.push_back FD_Invalid fd (Process.FileDescriptors p)) as [[procfd okp] fds] eqn:E2.
  pose proof (ok_tables _ _ _ _ O a p Hp) as Wt.
  destruct (Sparse.sparse_push_spec FD_Invalid fd _ procfd okp fds Wt Hfdv E2) as (Wf2 & _ & Hp0 & Hpfree & Hpl).
  destruct (set_descriptors_spec a fds s p Hp) as (s' & -> & Es' & Ew). cbn [mbind outcome_bind].
  destruct (add_entry_ok f a v d s s' p fd okf files fds procfd O Hf Hp E1 Wf2 Hp0 Hpfree Hpl Es') as (O' & Hno & R).
  exists procfd, fd, (with_Files files v), s'. split_and!; try done. intros ns ps. by eapply descriptors_queue_ok.
Qed.

(** What [add_file] does besides. *)
Lemma add_file_effect f a v (d : D) s p r v' ds' :
  a ≠ 0 -> procs s !! a = Some p -> Sparse.wf FD_Invalid (Process.FileDescriptors p) -> add_file f a v (d, s) = Done (r, v', ds') ->
  FGlobal r ≠ FD_Invalid ->
  exists s' x, ds' = (d, s') /\ touched s s' /\ procs s' !! a = Some (with_FileDescriptors x p) /\ (forall b, b ≠ a -> procs s' !! b = procs s !! b) /\
    FProcess r <= Sparse.allocated_size (Process.FileDescriptors p) /\
    Sparse.allocated_size x <= Sparse.allocated_size (Process.FileDescriptors p) + 1 /\
    Sparse.allocated_size (Files v') <= Sparse.allocated_size (Files v) + 1.
Proof.
  intros Ha Hp W. unfold add_file. rewrite (proj2 (Z.eqb_neq a 0) Ha). cbn [mbind outcome_bind].
  destruct (Sparse.push_back 0 f (Files v)) as [[fd okf] files] eqn:E1. unfold proc. rewrite Hp. cbn [deref mbind outcome_bind].
  destruct (Sparse.push_back FD_Invalid fd (Process.FileDescriptors p)) as [[procfd okp] fds] eqn:E2.
  destruct (set_descriptors_spec a fds s p Hp) as (s' & -> & Es & Ew). cbn [mbind outcome_bind]. intros [= <- <- <-] Hfd. cbn in Hfd.
  exists s', fds. split_and!.
  - done.
  - by apply (descriptors_touched a fds s s' p).
  - by rewrite Es, lookup_insert_eq.
  - intros b Hb. by rewrite Es, lookup_insert_ne.
  - by apply (Sparse.sparse_push_bound FD_Invalid fd _ _ _ _ W E2).
  - by apply (Sparse.sparse_push_size FD_Invalid fd _ _ _ _ E2).
  - by apply (Sparse.sparse_push_size 0 f _ _ _ _ E1).
Qed.

Lemma file_current_spec v s a fd f : current_process s = Done a -> open_file v s a fd = Some f -> file_current fd v s = Done f.
Proof.
  intros Hc Ho. unfold file_current. rewrite Hc. cbn [mbind outcome_bind]. unfold open_file in Ho. unfold proc.
  destruct (procs s !! a) as [p|]; [|done]. cbn in Ho |- *. destruct (Sparse.lookup_valid _ _ fd) as [x|] eqn:Ex; [|done]. cbn in Ho.
  apply Sparse.lookup_valid_ne in Ex as [_ ->]. by rewrite (file_spec v x f Ho).
Qed.

(** The table without the entry of a closed descriptor. *)
Lemma erase_ok v d s a fd p sysfd f fds files s' :
  ok None v d s -> 0 <= fd -> 0 <= sysfd -> f ≠ 0 -> procs s !! a = Some p ->
  Sparse.lookup_valid FD_Invalid (Process.FileDescriptors p) fd = Some sysfd ->
  Sparse.lookup_valid 0 (Files v) sysfd = Some f ->
  Sparse.wf FD_Invalid fds -> Sparse.wf 0 files ->
  (forall j, 0 <= j -> Sparse.lookup_valid FD_Invalid fds j = if decide (j = fd) then None else Sparse.lookup_valid FD_Invalid (Process.FileDescriptors p) j) ->
  (forall j, 0 <= j -> Sparse.lookup_valid 0 files j = if decide (j = sysfd) then None else Sparse.lookup_valid 0 (Files v) j) ->
  procs s' = <[a := with_FileDescriptors fds p]> (procs s) ->
  ok (Some f) (with_Files files v) d s' /\ rebinds v s (with_Files files v) s' a fd None.
Proof.
  intros O Hfd Hsf Hf Hp Hs Hl Wfds Wfiles Hfds Hfiles Es'.
  assert (Hown : sysfd_of s a fd = Some sysfd) by (unfold sysfd_of; by rewrite Hp).
  assert (Hsys : forall b g, 0 <= g -> sysfd_of s' b g = if decide (b = a /\ g = fd) then None else sysfd_of s b g).
  { intros b g Hg. rewrite (sysfd_of_update s s' a p fds b g Hp Es'). destruct (decide (b = a)) as [->|Hne].
    - rewrite Hfds by done. destruct (decide (g = fd)) as [->|Hng]; [by rewrite decide_True|].
      rewrite decide_False by tauto. unfold sysfd_of. by rewrite Hp.
    - by rewrite decide_False by tauto. }
  assert (Helse : forall b g x, 0 <= g -> ~ (b = a /\ g = fd) -> sysfd_of s b g = Some x -> 0 <= x /\ x ≠ sysfd).
  { intros b g x Hg Hne Hx. split; [by eapply (ok_mapped _ _ _ _ O b g)|]. intros ->. apply Hne.
    by apply (ok_distinct _ _ _ _ O b g a fd sysfd). }
  split.
  - split; cbn [with_Files Files metas]; try apply O; try done.
    + intros c. rewrite (ok_refs _ _ _ _ O). split; intros [Hc Hor]; (split; [done|]).
      * destruct Hor as [[Hin|Hh]|?]; [|left; by right|done]. apply (Sparse.els_lookup_valid 0) in Hin as (i & Hi & Hx); [|done].
        destruct (decide (i = sysfd)) as [->|Hne]; [right; congruence|]. left. left. apply (Sparse.els_lookup_valid 0); [done|].
        exists i. split; [done|]. rewrite Hfiles by done. by rewrite decide_False.
      * left. destruct Hor as [[Hin|Hh]|[= <-]]; [|by right|left; apply (Sparse.els_lookup_valid 0); [done|]; by exists sysfd]. left.
        apply (Sparse.els_lookup_valid 0); [done|]. apply (Sparse.els_lookup_valid 0) in Hin as (i & Hi & Hx); [|done]. rewrite Hfiles in Hx by done.
        case_decide; [done|]. by exists i.
    + eapply tables_update; [exact Es'|done|]. apply O.
    + intros b g x Hg. rewrite Hsys by done. case_decide as Dd; [done|]. intros Hx.
      destruct (Helse b g x Hg Dd Hx) as [Hx0 Hxne]. split; [done|]. rewrite Hfiles by done. rewrite decide_False by done.
      by apply (ok_mapped _ _ _ _ O b g x Hg).
    + intros b g b' g' x Hg Hg'. rewrite !Hsys by done. do 2 case_decide; try done. by apply O.
    + intros i Hi. rewrite Hfiles by done. case_decide as Di; [by intros [? ?]|]. intros Hx.
      destruct (ok_owned _ _ _ _ O i Hi Hx) as (b & g & Hg & Hs1). exists b, g. split; [done|]. rewrite Hsys by done.
      rewrite decide_False; [done|]. intros [-> ->]. congruence.
  - intros b g Hg. rewrite !open_file_sysfd, Hsys by done. case_decide as Dd; [done|].
    destruct (sysfd_of s b g) as [x|] eqn:Hx; [|done]. cbn. destruct (Helse b g x Hg Dd Hx) as [Hx0 Hxne].
    rewrite Hfiles by done. by rewrite decide_False.
Qed.

Lemma rebinds_woken v s v1 s1 v2 s2 a fd new ret W :
  rebinds v s v1 s1 a fd new -> Files v2 = Files v1 -> woken ret W s1 s2 -> rebinds v s v2 s2 a fd new.
Proof.
  intros R Ef Hw b g Hg. rewrite <- (R b g Hg), !open_file_sysfd, (woken_sysfd _ _ _ _ _ _ Hw), Ef. done.
Qed.

(** [close] of an open descriptor. *)
Lemma close_spec a fd v d s f ns ps :
  ok None v d s -> 0 <= fd -> open_file v s a fd = Some f -> a ≠ 0 -> queue_ok s ns ps ->
  exists v' d' s', close a fd v (d, s) = Done (true, v', (d', s')) /\ ok None v' d' s' /\ queue_ok s' ns ps /\
    rebinds v s v' s' a fd None /\
    Held v' = Held v /\
    (shared f v' -> metas v' = metas v /\ d' = d) /\
    (~ shared f v' -> Store.objs (metas v') = delete f (Store.objs (metas v))) /\
    touched s s' /\ sizes_kept s s'.
Proof.
  intros O Hfd Ho Ha Q. destruct (open_file_entry _ _ _ _ _ _ _ O Hfd Ho) as (p & sysfd & Hp & Hs & Hl & H0 & Hne & Hf).
  unfold close. rewrite (proj2 (Z.eqb_neq a 0) Ha). cbn [snd]. rewrite (procfd_to_fd_spec a fd s p sysfd Hp Hs). cbn [mbind outcome_bind].
  rewrite (proj2 (Z.eqb_neq _ _) Hne), (file_spec _ _ _ Hl), (proj2 (Z.eqb_neq f 0) Hf).
  unfold free_fd. rewrite (proj2 (Z.eqb_neq a 0) Ha). unfold proc. rewrite Hp. cbn [deref mbind outcome_bind].
  destruct (Sparse.erase_spec FD_Invalid fd _ sysfd (ok_tables _ _ _ _ O a p Hp) Hfd Hs) as (fds & Er & Wfds & Hfds).
  rewrite Er. cbn [mbind outcome_bind]. destruct (set_descriptors_spec a fds s p Hp) as (s1 & -> & Es1 & Ew1). cbn [mbind outcome_bind].
  rewrite (file_spec _ _ _ Hl).
  destruct (Sparse.erase_spec 0 sysfd _ f (ok_files _ _ _ _ O) H0 Hl) as (files & -> & Wfiles & Hfiles). cbn [mbind outcome_bind].
  destruct (erase_ok v d s a fd p sysfd f fds files s1 O Hfd H0 Hf Hp Hs Hl Wfds Wfiles Hfds Hfiles Es1) as [O1 R1].
  assert (Q1 : queue_ok s1 ns ps) by (by eapply descriptors_queue_ok).
  destruct (drop_ref_spec f (with_Files files v) d s1 ns ps O1 Hf Q1) as (v' & d' & s' & ret & W & -> & O' & Ef & Eh & Hw & Hin & Hout).
  cbn [mbind outcome_bind]. exists v', d', s'.
  assert (Esh : shared f v' <-> shared f (with_Files files v)) by (unfold shared; by rewrite Ef, Eh).
  destruct (descriptors_touched a fds s s1 p Hp Es1 Ew1) as [T1 S1]. destruct (woken_touched _ _ _ _ Hw) as [T2 S2].
  specialize (S1 (Sparse.erase_size _ _ _ _ _ Er)).
  split_and!; [done|done|by eapply woken_queue_ok|by eapply rebinds_woken|done| | |by eapply touched_trans|by eapply sizes_kept_trans].
  - rewrite Esh. intros Hi. by destruct (Hin Hi) as (-> & -> & _).
  - rewrite Esh. intros Hi. by apply Hout.
Qed.

(** Another reference to a file of the table. *)
Lemma ok_again v d s sysfd f : ok None v d s -> 0 <= sysfd -> Sparse.lookup_valid 0 (Files v) sysfd = Some f -> ok (Some f) v d s.
Proof.
  intros O H0 Hl. pose proof (Sparse.lookup_valid_ne _ _ _ _ Hl) as [Hf _]. split; try apply O.
  intros c. rewrite (ok_refs _ _ _ _ O). split; intros [Hc Hor]; (split; [done|]); [naive_solver|]. left.
  destruct Hor as [?|[= <-]]; [done|]. left. apply (Sparse.els_lookup_valid 0); [done|]. by exists sysfd.
Qed.

(** The same descriptors in another table. *)
Lemma table_change_ok e v d s s' a p x :
  ok e v d s -> procs s !! a = Some p -> Sparse.wf FD_Invalid x ->
  (forall j, 0 <= j -> Sparse.lookup_valid FD_Invalid x j = Sparse.lookup_valid FD_Invalid (Process.FileDescriptors p) j) ->
  procs s' = <[a := with_FileDescriptors x p]> (procs s) ->
  ok e v d s' /\ forall b g, 0 <= g -> open_file v s' b g = open_file v s b g.
Proof.
  intros O Hp W Hx Es. assert (Hsys : forall b g, 0 <= g -> sysfd_of s' b g = sysfd_of s b g).
  { intros b g Hg. rewrite (sysfd_of_update s s' a p x b g Hp Es). case_decide as E; [subst|done].
    unfold sysfd_of. rewrite Hp. cbn. by apply Hx. }
  split; [|intros b g Hg; by rewrite !open_file_sysfd, Hsys].
  split; try apply O; [eapply tables_update; [exact Es|done|apply O]| | |].
  - intros b g y Hg. rewrite Hsys by done. by apply O.
  - intros b g b' g' y H1 H2. rewrite !Hsys by done. by apply O.
  - intros i Hi Hy. destruct (ok_owned _ _ _ _ O i Hi Hy) as (b & g & Hg & Hs). exists b, g. by rewrite Hsys.
Qed.

(** [dup] of an open descriptor. *)
Lemma dup_spec a fd v d s f :
  ok None v d s -> 0 <= fd -> open_file v s a fd = Some f -> a ≠ 0 -> Sparse.allocated_size (Files v) < 2 ^ 64 - 1 ->
  exists procfd sysfd v' s', dup a fd v (d, s) = Done (mkFds procfd sysfd, v', (d, s')) /\ ok None v' d s' /\ metas v' = metas v /\
    (forall ns ps, queue_ok s ns ps -> queue_ok s' ns ps) /\ 0 <= procfd /\ open_file v s a procfd = None /\ rebinds v s v' s' a procfd (Some f).
Proof.
  intros O Hfd Ho Ha Hsz. destruct (open_file_entry _ _ _ _ _ _ _ O Hfd Ho) as (p & sysfd & Hp & Hs & Hl & H0 & Hne & Hf).
  unfold dup, valid. rewrite (proj2 (Z.eqb_neq a 0) Ha). cbn [snd]. rewrite (procfd_to_fd_spec a fd s p sysfd Hp Hs). cbn [mbind outcome_bind].
  rewrite (proj2 (Z.eqb_neq _ _) Hne), (file_spec _ _ _ Hl), (proj2 (Z.eqb_neq f 0) Hf). cbn [negb].
  pose proof (ok_again v d s sysfd f O H0 Hl) as O1.
  destruct (add_file_spec f a v d s p O1 Hf Hp Hsz a) as (procfd & fd' & v' & s' & Hadd & O' & Em & HQ & Hp0 & Hno & R).
  { by rewrite (proj2 (Z.eqb_neq a 0) Ha). }
  exists procfd, fd', v', s'. by split_and!.
Qed.

(** [dup2] of two open descriptors. *)
Lemma dup2_spec a fd replaced v d s f old ns ps :
  ok None v d s -> 0 <= fd -> 0 <= replaced -> fd ≠ replaced -> open_file v s a fd = Some f -> open_file v s a replaced = Some old ->
  a ≠ 0 -> queue_ok s ns ps ->
  exists v' d' s', dup2 a fd replaced v (d, s) = Done (true, v', (d', s')) /\ ok None v' d' s' /\ queue_ok s' ns ps /\
    rebinds v s v' s' a replaced (Some f) /\
    (shared old v' -> metas v' = metas v /\ d' = d) /\
    (~ shared old v' -> Store.objs (metas v') = delete old (Store.objs (metas v))).
Proof.
  intros O Hfd Hr Hfr Ho Hor Ha Q.
  destruct (open_file_entry _ _ _ _ _ _ _ O Hfd Ho) as (p & sysfd & Hp & Hs & Hl & H0 & Hne & Hf).
  destruct (open_file_entry _ _ _ _ _ _ _ O Hr Hor) as (p' & rsys & Hp' & Hs' & Hl' & H0' & Hne' & Hold).
  rewrite Hp in Hp'. injection Hp' as <-.
  unfold dup2, valid. rewrite (proj2 (Z.eqb_neq a 0) Ha). cbn [snd].
  rewrite (procfd_to_fd_spec a fd s p sysfd Hp Hs), (procfd_to_fd_spec a replaced s p rsys Hp Hs'). cbn [mbind outcome_bind].
  rewrite (proj2 (Z.eqb_neq _ _) Hne), (proj2 (Z.eqb_neq _ _) Hne'), (proj2 (Z.eqb_neq _ _) Hfr). cbn [negb mbind outcome_bind].
  rewrite (file_spec _ _ _ Hl), (file_spec _ _ _ Hl'), (proj2 (Z.eqb_neq f 0) Hf).
  destruct (Sparse.replace_spec 0 rsys f (Files v) (ok_files _ _ _ _ O)) as (files & -> & Wfiles & Hfiles);
    [split; [done|by eapply Sparse.lookup_valid_allocated]|done|]. cbn [mbind outcome_bind].
  assert (Hss : sysfd ≠ rsys).
  { intros ->. apply Hfr. apply (ok_distinct _ _ _ _ O a fd a replaced rsys); try done; unfold sysfd_of; by rewrite Hp. }
  assert (O1 : ok (Some old) (with_Files files v) d s).
  { split; cbn [with_Files Files metas]; try apply O; try done.
    - intros c. rewrite (ok_refs _ _ _ _ O). split; intros [Hc Hor']; (split; [done|]).
      + destruct Hor' as [[Hin|Hh]|?]; [|left; by right|done]. apply (Sparse.els_lookup_valid 0) in Hin as (i & Hi & Hx); [|done].
        destruct (decide (i = rsys)) as [->|Hni]; [right; congruence|]. left. left. apply (Sparse.els_lookup_valid 0); [done|].
        exists i. split; [done|]. rewrite Hfiles by done. by rewrite decide_False.
      + left. destruct Hor' as [[Hin|Hh]|[= <-]]; [|by right|left; apply (Sparse.els_lookup_valid 0); [done|]; by exists rsys]. left.
        apply (Sparse.els_lookup_valid 0); [done|]. apply (Sparse.els_lookup_valid 0) in Hin as (i & Hi & Hx); [|done]. rewrite Hfiles in Hx by done.
        case_decide; [injection Hx as <-; by exists sysfd|by exists i].
    - intros b g x Hg Hx. destruct (ok_mapped _ _ _ _ O b g x Hg Hx) as [Hx0 Hsome]. split; [done|].
      rewrite Hfiles by done. by case_decide.
    - intros i Hi. rewrite Hfiles by done. intros Hx. apply (ok_owned _ _ _ _ O i Hi). case_decide as Di; [subst i; by eexists|done]. }
  assert (R1 : rebinds v s (with_Files files v) s a replaced (Some f)).
  { intros b g Hg. rewrite !open_file_sysfd. case_decide as Dd.
    - destruct Dd as [-> ->]. unfold sysfd_of. rewrite Hp. cbn. rewrite Hs'. cbn. rewrite Hfiles by done. by rewrite decide_True.
    - destruct (sysfd_of s b g) as [x|] eqn:Hx; [|done]. cbn. destruct (ok_mapped _ _ _ _ O b g x Hg Hx) as [Hx0 _].
      rewrite Hfiles by done. rewrite decide_False; [done|]. intros ->. apply Dd.
      apply (ok_distinct _ _ _ _ O b g a replaced rsys); try done. unfold sysfd_of. by rewrite Hp. }
  destruct (drop_ref_spec old (with_Files files v) d s ns ps O1 Hold Q) as (v' & d' & s' & ret & W & -> & O' & Ef & Eh & Hw & Hin & Hout).
  assert (Esh : shared old v' <-> shared old (with_Files files v)) by (unfold shared; by rewrite Ef, Eh).
  cbn [mbind outcome_bind]. exists v', d', s'. split_and!; [done|done|by eapply woken_queue_ok|by eapply rebinds_woken| |].
  - rewrite Esh. intros Hi. by destruct (Hin Hi) as (-> & -> & _).
  - rewrite Esh. intros Hi. by apply Hout.
Qed.

(** [open] on a list of mounts: either nothing changes for any descriptor, or
    the current process gets a new one. *)
Lemma open_on_spec path mounts v d s a p :
  ok None v d s -> current_process s = Done a -> procs s !! a = Some p -> a ≠ 0 -> Sparse.allocated_size (Files v) < 2 ^ 64 - 1 ->
  forall r v' d' s', open_on path mounts v (d, s) = Done (r, v', (d', s')) ->
  ok None v' d' s' /\ (forall ns ps, queue_ok s ns ps -> queue_ok s' ns ps) /\
  ((r = no_fds /\ s' = s /\ Files v' = Files v /\ metas v' = metas v) \/
   (exists f, 0 <= FProcess r /\ open_file v s a (FProcess r) = None /\ rebinds v s v' s' a (FProcess r) (Some f) /\
      (forall c, c ≠ f -> Store.objs (metas v') !! c = Store.objs (metas v) !! c))).
Proof.
  intros O Hc Hp Ha. revert v d O. induction mounts as [|m mounts IH]; intros v d O Hsz r v' d' s'; cbn [open_on].
  { intros [= <- <- <- <-]. split_and!; [done|done|]. by left. }
  destruct (starts_with path (Path m)); cbn [negb]; [|by apply IH].
  intros H. done_inv H. destruct r0 as [[meta [d1 s1]] ms]. 
  destruct (drv_open_ok _ _ _ _ _ _ _ _ _ (ok_drivers _ _ _ _ O) (ok_metas _ _ _ _ O) E) as (Wm & Hd1 & -> & Hcase).
  destruct Hcase as [[-> ->]|(Hr0 & Hnew & Hlive & Hsame)].
  - cbn [Z.eqb] in H. assert (Ev : with_metas (metas v) v = v) by (by destruct v). rewrite Ev in H.
    apply IH in H; [done| |done]. split; try apply O. done.
  - rewrite (proj2 (Z.eqb_neq _ 0) Hr0) in H.
    assert (O1 : ok (Some meta) (with_metas ms v) d1 s).
    { split; cbn [with_metas Files metas]; try apply O; try done. intros c. destruct (decide (c = meta)) as [->|Hne].
      - split; [intros _; split; [done|by right]|done].
      - rewrite Hsame, (ok_refs _ _ _ _ O) by done. split; intros [Hc0 Hor]; (split; [done|]); [naive_solver|].
        destruct Hor as [?|[= ->]]; [by left|done]. }
    destruct (add_file_spec meta a (with_metas ms v) d1 s p O1 Hr0 Hp Hsz 0) as (procfd & fd & v2 & s2 & Hadd & O2 & Em & HQ & Hp0 & Hno & R);
      [done|]. rewrite Hadd in H. injection H as <- <- <- <-. split_and!; [done|done|]. right. exists meta. cbn [FProcess]. split_and!; try done.
    rewrite Em. exact Hsame.
Qed.

(** ** Runs *)

(** A descriptor that is not open. *)
Lemma unopened_sysfd v d s a fd p :
  ok None v d s -> 0 <= fd -> procs s !! a = Some p -> open_file v s a fd = None -> procfd_to_fd a fd s = Done FD_Invalid.
Proof.
  intros O Hfd Hp H. rewrite open_file_sysfd in H. unfold procfd_to_fd, proc. rewrite Hp. cbn.
  destruct (Sparse.get fd _) as [sysfd|] eqn:Eg; [|done]. f_equal. destruct (decide (sysfd = FD_Invalid)) as [|Hne]; [done|].
  assert (Hs : sysfd_of s a fd = Some sysfd) by (unfold sysfd_of; rewrite Hp; by apply Sparse.get_lookup_valid).
  rewrite Hs in H. cbn in H. destruct (ok_mapped _ _ _ _ O a fd sysfd Hfd Hs) as [_ [x Hx]]. congruence.
Qed.

Lemma valid_spec v d s a fd p :
  ok None v d s -> 0 <= fd -> procs s !! a = Some p -> valid a fd s = Done (match open_file v s a fd with Some _ => true | None => false end).
Proof.
  intros O Hfd Hp. unfold valid. destruct (open_file v s a fd) as [f|] eqn:Ho.
  - destruct (open_file_entry _ _ _ _ _ _ _ O Hfd Ho) as (q & x & Hq & Hs & _ & _ & Hnx & _).
    rewrite (procfd_to_fd_spec a fd s q x Hq Hs). cbn. by rewrite (proj2 (Z.eqb_neq _ _) Hnx).
  - by rewrite (unopened_sysfd v d s a fd p O Hfd Hp Ho).
Qed.

(** Calls of the filesystem by any process on any descriptors, and reads that
    wait. *)
Inductive step : vfs * D * sched -> vfs * D * sched -> Prop :=
| step_open path v d s r v' d' s' a :
    current_process s = Done a -> a ≠ 0 -> is_Some (procs s !! a) -> Sparse.allocated_size (Files v) < 2 ^ 64 - 1 ->
    open path v (d, s) = Done (r, v', (d', s')) -> step (v, d, s) (v', d', s')
| step_close a fd v d s r v' d' s' :
    0 <= fd -> close a fd v (d, s) = Done (r, v', (d', s')) -> step (v, d, s) (v', d', s')
| step_dup a fd v d s r v' d' s' :
    0 <= fd -> Sparse.allocated_size (Files v) < 2 ^ 64 - 1 ->
    dup a fd v (d, s) = Done (r, v', (d', s')) -> step (v, d, s) (v', d', s')
| step_dup2 a fd replaced v d s r v' d' s' :
    0 <= fd -> 0 <= replaced -> dup2 a fd replaced v (d, s) = Done (r, v', (d', s')) -> step (v, d, s) (v', d', s')
| step_wait a fd f v d s :
    0 <= fd -> open_file v s a fd = Some f -> step (v, d, s) (hold f v, d, s).

Lemma entry_shared v s a fd f e d : ok e v d s -> 0 <= fd -> open_file v s a fd = Some f -> f ∈ Sparse.els (Files v).
Proof.
  intros O Hfd Ho. destruct (open_file_entry _ _ _ _ _ _ _ O Hfd Ho) as (p & x & _ & _ & Hl & Hx & _ & Hf).
  apply (Sparse.els_lookup_valid 0); [done|]. by exists x.
Qed.

(** A shared pointer to an open file that is never released. *)
Lemma hold_ok v d s a fd f : ok None v d s -> 0 <= fd -> open_file v s a fd = Some f -> ok None (hold f v) d s.
Proof.
  intros O Hfd Ho. pose proof (entry_shared _ _ _ _ _ _ _ O Hfd Ho) as Hin. split; cbn [hold Files metas]; try apply O.
  intros c. rewrite (ok_refs _ _ _ _ O). unfold shared. cbn [hold Files Held]. rewrite elem_of_cons. naive_solver.
Qed.

(** The objects in the store are those that a descriptor or a lost pointer refers
    to. *)
Lemma metas_owned v d s m :
  ok None v d s -> is_Some (Store.objs (metas v) !! m) <-> m ≠ 0 /\ ((exists a fd, 0 <= fd /\ open_file v s a fd = Some m) \/ m ∈ Held v).
Proof.
  intros O. rewrite (ok_refs _ _ _ _ O). split; intros [Hm H]; (split; [done|]).
  - destruct H as [[Hin|Hh]|?]; [|by right|done]. left. apply (Sparse.els_lookup_valid 0) in Hin as (i & Hi & Hx); [|done].
    destruct (ok_owned _ _ _ _ O i Hi ltac:(by eexists)) as (a & fd & Hfd & Hs). exists a, fd. split; [done|]. by rewrite open_file_sysfd, Hs.
  - left. destruct H as [(a & fd & Hfd & Ho)|Hh]; [left; by eapply entry_shared|by right].
Qed.

Lemma close_cases a fd v d s ns ps r v' d' s' :
  ok None v d s -> queue_ok s ns ps -> 0 <= fd -> close a fd v (d, s) = Done (r, v', (d', s')) -> ok None v' d' s' /\ queue_ok s' ns ps.
Proof.
  intros O Q Hfd H. destruct (decide (a = 0)) as [->|Ha]; [unfold close in H; cbn in H; by injection H as <- <- <- <-|].
  destruct (open_file v s a fd) as [f|] eqn:Ho.
  - destruct (close_spec a fd v d s f ns ps O Hfd Ho Ha Q) as (v1 & d1 & s1 & E & O1 & Q1 & _). rewrite E in H. by injection H as <- <- <- <-.
  - unfold close in H. rewrite (proj2 (Z.eqb_neq a 0) Ha) in H. cbn [snd] in H. destruct (procs s !! a) as [p|] eqn:Hp.
    + rewrite (unopened_sysfd v d s a fd p O Hfd Hp Ho) in H. cbn in H. by injection H as <- <- <- <-.
    + unfold procfd_to_fd, proc in H. by rewrite Hp in H.
Qed.

Lemma dup_cases a fd v d s ns ps r v' d' s' :
  ok None v d s -> queue_ok s ns ps -> 0 <= fd -> Sparse.allocated_size (Files v) < 2 ^ 64 - 1 ->
  dup a fd v (d, s) = Done (r, v', (d', s')) -> ok None v' d' s' /\ queue_ok s' ns ps.
Proof.
  intros O Q Hfd Hsz H. destruct (decide (a = 0)) as [->|Ha]; [unfold dup in H; cbn in H; by injection H as <- <- <- <-|].
  destruct (open_file v s a fd) as [f|] eqn:Ho.
  - destruct (dup_spec a fd v d s f O Hfd Ho Ha Hsz) as (procfd & sysfd & v1 & s1 & E & O1 & _ & HQ & _). rewrite E in H.
    injection H as <- <- <- <-. auto.
  - unfold dup, valid in H. rewrite (proj2 (Z.eqb_neq a 0) Ha) in H. cbn [snd] in H. destruct (procs s !! a) as [p|] eqn:Hp.
    + rewrite (unopened_sysfd v d s a fd p O Hfd Hp Ho) in H. cbn in H. by injection H as <- <- <- <-.
    + unfold procfd_to_fd, proc in H. by rewrite Hp in H.
Qed.

Lemma dup2_cases a fd replaced v d s ns ps r v' d' s' :
  ok None v d s -> queue_ok s ns ps -> 0 <= fd -> 0 <= replaced ->
  dup2 a fd replaced v (d, s) = Done (r, v', (d', s')) -> ok None v' d' s' /\ queue_ok s' ns ps.
Proof.
  intros O Q Hfd Hr H. destruct (decide (a = 0)) as [->|Ha]; [unfold dup2 in H; cbn in H; by injection H as <- <- <- <-|].
  destruct (procs s !! a) as [p|] eqn:Hp.
  2: { unfold dup2, valid, procfd_to_fd, proc in H. rewrite (proj2 (Z.eqb_neq a 0) Ha) in H. cbn [snd] in H. by rewrite Hp in H. }
  destruct (open_file v s a fd) as [f|] eqn:Ho, (open_file v s a replaced) as [old|] eqn:Hor, (decide (fd = replaced)) as [E|Hne].
  2: { destruct (dup2_spec a fd replaced v d s f old ns ps O Hfd Hr Hne Ho Hor Ha Q) as (v1 & d1 & s1 & E & O1 & Q1 & _).
       rewrite E in H. by injection H as <- <- <- <-. }
  all: unfold dup2 in H; rewrite (proj2 (Z.eqb_neq a 0) Ha) in H; cbn [snd] in H;
    rewrite (valid_spec v d s a fd p O Hfd Hp), (valid_spec v d s a replaced p O Hr Hp), Ho, Hor in H;
    cbn [mbind outcome_bind negb] in H; rewrite ?(proj2 (Z.eqb_eq fd replaced) E) in H; by injection H as <- <- <- <-.
Qed.

Lemma step_ok w w' ns ps :
  step w w' -> ok None w.1.1 w.1.2 w.2 /\ queue_ok w.2 ns ps -> ok None w'.1.1 w'.1.2 w'.2 /\ queue_ok w'.2 ns ps.
Proof.
  intros H [O Q]. destruct H as [path v d s r v' d' s' a Hc Ha [p Hp] Hsz H|a fd v d s r v' d' s' Hfd H|a fd v d s r v' d' s' Hfd Hsz H
    |a fd re v d s r v' d' s' Hfd Hre H|a fd f v d s Hfd H]; cbn [fst snd] in *.
  - revert H. unfold open. destruct (String.length path <=? 1)%nat; [by intros [= <- <- <- <-]|].
    destruct (String.get 0 path) as [c|]; [|by intros [= <- <- <- <-]].
    assert (Hon : forall r v' d' s', open_on path (Mounts v) v (d, s) = Done (r, v', (d', s')) -> ok None v' d' s' /\ queue_ok s' ns ps).
    { intros r0 v0 d0 s0 E. destruct (open_on_spec path (Mounts v) v d s a p O Hc Hp Ha Hsz _ _ _ _ E) as (O1 & HQ & _). auto. }
    destruct c as [[] [] [] [] [] [] [] []]; try (by intros [= <- <- <- <-]). apply Hon.
  - by eapply close_cases.
  - by eapply dup_cases.
  - exact (dup2_cases a fd re v d s ns ps r v' d' s' O Q Hfd Hre H).
  - split; [by eapply hold_ok|done].
Qed.

(** [dup2] with a descriptor that is not open. *)
Lemma dup2_refused a fd replaced v d s p :
  ok None v d s -> a ≠ 0 -> procs s !! a = Some p -> 0 <= fd -> 0 <= replaced ->
  open_file v s a fd = None \/ open_file v s a replaced = None -> dup2 a fd replaced v (d, s) = Done (false, v, (d, s)).
Proof.
  intros O Ha Hp Hfd Hr H. unfold dup2. rewrite (proj2 (Z.eqb_neq a 0) Ha). cbn [snd].
  rewrite (valid_spec v d s a fd p O Hfd Hp), (valid_spec v d s a replaced p O Hr Hp).
  destruct H as [-> | ->]; cbn [mbind outcome_bind negb]; [done|]. by destruct (open_file v s a fd).
Qed.

(** ** Claims *)

(** C22: Descriptors behave as a map from (process, descriptor) to open file:
    [close] unbinds one descriptor, [dup] binds a new one to the same file and
    [dup2] rebinds one, or changes nothing if both are the same; no other
    descriptor of any process changes. Each leaves the tables in order: every
    entry of the table of files belongs to exactly one descriptor, so that a closed
    one leaves no entry behind. A descriptor that is not open is refused by all
    three, as either argument of [dup2], with no change. *)
Theorem descriptors_refine_a_map v d s ns ps a p fd :
  ok None v d s -> queue_ok s ns ps -> a ≠ 0 -> procs s !! a = Some p -> 0 <= fd ->
  match open_file v s a fd with
  | None =>
      close a fd v (d, s) = Done (false, v, (d, s)) /\ dup a fd v (d, s) = Done (no_fds, v, (d, s)) /\
      forall other, 0 <= other -> dup2 a fd other v (d, s) = Done (false, v, (d, s)) /\ dup2 a other fd v (d, s) = Done (false, v, (d, s))
  | Some f =>
      (exists v' d' s', close a fd v (d, s) = Done (true, v', (d', s')) /\ rebinds v s v' s' a fd None /\ ok None v' d' s') /\
      (Sparse.allocated_size (Files v) < 2 ^ 64 - 1 -> exists new sysfd v' s',
         dup a fd v (d, s) = Done (mkFds new sysfd, v', (d, s')) /\ 0 <= new /\ open_file v s a new = None /\
         rebinds v s v' s' a new (Some f) /\ ok None v' d s') /\
      dup2 a fd fd v (d, s) = Done (true, v, (d, s)) /\
      (forall replaced old, 0 <= replaced -> fd ≠ replaced -> open_file v s a replaced = Some old -> exists v' d' s',
         dup2 a fd replaced v (d, s) = Done (true, v', (d', s')) /\ rebinds v s v' s' a replaced (Some f) /\ ok None v' d' s')
  end.
Proof.
  intros O Q Ha Hp Hfd. destruct (open_file v s a fd) as [f|] eqn:Ho.
  - split_and!.
    + destruct (close_spec a fd v d s f ns ps O Hfd Ho Ha Q) as (v' & d' & s' & E & O' & _ & R & _). by exists v', d', s'.
    + intros Hsz. destruct (dup_spec a fd v d s f O Hfd Ho Ha Hsz) as (n & y & v' & s' & E & O' & _ & _ & H0 & Hn & R). by exists n, y, v', s'.
    + unfold dup2. rewrite (proj2 (Z.eqb_neq a 0) Ha). cbn [snd]. rewrite (valid_spec v d s a fd p O Hfd Hp), Ho.
      cbn [mbind outcome_bind negb]. by rewrite Z.eqb_refl.
    + intros re old Hre Hne Hor. destruct (dup2_spec a fd re v d s f old ns ps O Hfd Hre Hne Ho Hor Ha Q) as (v' & d' & s' & E & O' & _ & R & _).
      by exists v', d', s'.
  - split_and!.
    + unfold close. rewrite (proj2 (Z.eqb_neq a 0) Ha). cbn [snd]. by rewrite (unopened_sysfd v d s a fd p O Hfd Hp Ho).
    + unfold dup, valid. rewrite (proj2 (Z.eqb_neq a 0) Ha). cbn [snd]. by rewrite (unopened_sysfd v d s a fd p O Hfd Hp Ho).
    + intros other Hot. split; apply (dup2_refused _ _ _ _ _ _ p); auto.
Qed.

(** C23: Whatever files processes open, close and duplicate, and whichever of their
    reads wait, a file's metadata exists exactly while a descriptor of some process
    refers to it or a read of it that waited has left a shared pointer behind. So a
    driver is told to close a file when its last descriptor goes and not before,
    but not at all once a read of it has waited. No two descriptors share an entry
    of the table of files, and the table has no entry without a descriptor. *)
Theorem files_live_while_referenced w w' ns ps :
  ok None w.1.1 w.1.2 w.2 -> queue_ok w.2 ns ps -> rtc step w w' ->
  (forall m, is_Some (Store.objs (metas w'.1.1) !! m) <->
     m ≠ 0 /\ ((exists a fd, 0 <= fd /\ open_file w'.1.1 w'.2 a fd = Some m) \/ m ∈ Held w'.1.1)) /\
  (forall i, 0 <= i -> is_Some (Sparse.lookup_valid 0 (Files w'.1.1) i) <-> exists a fd, 0 <= fd /\ sysfd_of w'.2 a fd = Some i) /\
  (forall a fd a' fd' sysfd, 0 <= fd -> 0 <= fd' -> sysfd_of w'.2 a fd = Some sysfd -> sysfd_of w'.2 a' fd' = Some sysfd ->
     a = a' /\ fd = fd').
Proof.
  intros O Q H. assert (Hok : ok None w'.1.1 w'.1.2 w'.2 /\ queue_ok w'.2 ns ps).
  { induction H as [w|w1 w2 w3 H12 _ IH]; [done|]. destruct (step_ok _ _ _ _ H12 (conj O Q)). by apply IH. }
  destruct Hok as [O' _]. split_and!.
  - intros m. by apply (metas_owned _ w'.1.2).
  - intros i Hi. split; [by apply (ok_owned _ _ _ _ O')|]. intros (a & fd & Hfd & Hs). by apply (ok_mapped _ _ _ _ O' a fd i Hfd Hs).
  - apply O'.
Qed.

(** Closing a descriptor tells the driver to close the file exactly when no
    other table entry refers to it: otherwise metadata and drivers stay as they
    are. *)
Theorem close_of_a_duplicate_keeps_the_file v d s ns ps a fd b fd' f :
  ok None v d s -> queue_ok s ns ps -> a ≠ 0 -> 0 <= fd -> 0 <= fd' -> open_file v s a fd = Some f ->
  open_file v s b fd' = Some f -> ~ (b = a /\ fd' = fd) ->
  exists v' s', close a fd v (d, s) = Done (true, v', (d, s')) /\ metas v' = metas v /\
    open_file v' s' a fd = None /\ open_file v' s' b fd' = Some f.
Proof.
  intros O Q Ha Hfd Hfd' Ho Ho' Hne. destruct (close_spec a fd v d s f ns ps O Hfd Ho Ha Q) as (v' & d' & s' & E & O' & _ & R & _ & Hin & _).
  assert (Hb : open_file v' s' b fd' = Some f) by (rewrite R, decide_False by done; done).
  destruct Hin as [Em ->]; [left; by eapply entry_shared|].
  exists v', s'. split_and!; try done. by rewrite R, decide_True.
Qed.

End Spec.

End Vfs.
