(* ===== verification/ProcessLife.v ===== *)
(** * The life of a process

    Models [Process::destroy], [Scheduler::remove_process] and
    [CopyUserspaceProcess] of src/kernel/src/scheduler.cpp: the operations on
    processes that reach into memory management and the filesystem. *)

From S2P Require Import Prelude PhysMem Bitmap FrameAlloc Paging PageMap PageClone LinkedList SparseVector RingBuffer Event Process Scheduler.
From S2P Require Import FileMeta Vfs.

Module Life.

(** ** The state of the kernel

    [k_mem] is physical memory, where page tables and the pages of regions are;
    [k_user] is the memory the running process sees at its own addresses. *)

Record kernel (D : Type) := mkKernel {
  k_vfs : Vfs.vfs;
  k_drivers : D;
  k_sched : sched;
  k_frames : pmm;
  k_mem : mem;
  k_user : mem;
  k_hw : machine
}.
Arguments mkKernel {D} k_vfs k_drivers k_sched k_frames k_mem k_user k_hw.
Arguments k_vfs {D} k.
Arguments k_drivers {D} k.
Arguments k_sched {D} k.
Arguments k_frames {D} k.
Arguments k_mem {D} k.
Arguments k_user {D} k.
Arguments k_hw {D} k.

Section Operations.
Context {D : Type} `{!Drivers D}.
Notation kern := (kernel D).

Definition with_sched (x : sched) (k : kern) : kern :=
  mkKernel (k_vfs k) (k_drivers k) x (k_frames k) (k_mem k) (k_user k) (k_hw k).
Definition with_frames (x : pmm) (k : kern) : kern :=
  mkKernel (k_vfs k) (k_drivers k) (k_sched k) x (k_mem k) (k_user k) (k_hw k).
Definition with_files (v : Vfs.vfs) (ds : D * sched) (k : kern) : kern :=
  mkKernel v ds.1 ds.2 (k_frames k) (k_mem k) (k_user k) (k_hw k).
Definition with_memory (st : mem * pmm) (k : kern) : kern :=
  mkKernel (k_vfs k) (k_drivers k) (k_sched k) st.2 st.1 (k_user k) (k_hw k).
Definition with_user (x : mem) (k : kern) : kern :=
  mkKernel (k_vfs k) (k_drivers k) (k_sched k) (k_frames k) (k_mem k) x (k_hw k).
Definition with_hw (x : machine) (k : kern) : kern :=
  mkKernel (k_vfs k) (k_drivers k) (k_sched k) (k_frames k) (k_mem k) (k_user k) x.

(** What [virtual_filesystem()] calls see. *)
Definition files (k : kern) : D * sched := (k_drivers k, k_sched k).

(** ** The end of a process *)

(** The zombie entry the parent gets, if there is a parent. *)
Definition add_zombie (parent : Z) (z : ZombieState) (s : sched) : outcome sched :=
  if parent =? 0 then Done s else modify_proc parent (fun q => with_Zombies (Zombies q ++ [z]) q) s.

Definition free_regions (rs : list Region) (fr : pmm) : pmm :=
  foldl (fun fr r => free_pages (paddr r) (pages r) fr) fr rs.

(** The loop over the descriptors: the iterator stands at entry [i] of the
    process's own vector, whose entries [close] erases behind it. *)
Fixpoint close_all (n : nat) (i a : Z) (v : Vfs.vfs) (ds : D * sched) : outcome (Vfs.vfs * (D * sched)) :=
  match n with
  | O => Done (v, ds)
  | S n =>
      p ← proc a ds.2;
      fd ← Sparse.el i (Process.FileDescriptors p);
      if fd =? FD_Invalid then close_all n (i + 1) a v ds
      else '(_, v, ds) ← Vfs.close a i v ds; close_all n (i + 1) a v ds
  end.

(** [Process::destroy] of the process at [a]. *)
Definition destroy (a status : Z) (k : kern) : outcome kern :=
  let s := k_sched k in
  let s := if a =? Init s then with_Init 0 s else s in
  p ← proc a s;
  parent ← process (ParentProcess p) s;
  s ← add_zombie parent (mkZombie (ProcessID p) status) s;
  p ← proc a s;
  s ← unblock_all (wrap64 status) (WaitingList p) s;
  p ← proc a s;
  let fr := free_regions (Memories p) (k_frames k) in
  s ← modify_proc a (with_Memories []) s;
  p ← proc a s;
  '(v, (d, s)) ← close_all (length (Sparse.els (Process.FileDescriptors p))) 0 a (k_vfs k) (k_drivers k, s);
  p ← proc a s;
  Done (with_frames fr (with_files v (d, with_PageMapsToFree (PageMapsToFree s ++ [CR3 p]) s) k)).

(** The search of [remove_process]: the process and its index, or null. *)
Fixpoint find_to_remove (fuel : nat) (it index pid : Z) (s : sched) : outcome (Z * Z) :=
  match fuel with
  | O => Stop Hung
  | S f =>
      if it =? 0 then Done (0, index)
      else
        a ← SLL.value it (ProcessQueue s);
        p ← proc a s;
        if ProcessID p =? pid then Done (a, index)
        else nx ← SLL.next it (ProcessQueue s); find_to_remove f nx (index + 1) pid s
  end.

Definition remove_process (pid status : Z) (k : kern) : outcome (bool * kern) :=
  let s := k_sched k in
  '(a, index) ← find_to_remove (queue_fuel s) (SLL.Head (ProcessQueue s)) 0 pid s;
  if a =? 0 then Done (false, k)
  else
    '(_, q) ← SLL.remove index (ProcessQueue s);
    s ← modify_proc a (with_State SLEEPING) (with_ProcessQueue q s);
    k ← destroy a status (with_sched s k);
    Done (true, with_sched (with_procs (delete a (procs (k_sched k))) (k_sched k)) k).

(** ** Copying a process *)

Definition user_page_flags : Z :=
  Z.lor (Z.lor (flag_value Present) (flag_value ReadWrite)) (flag_value UserSuper).

(** One turn of the loop over the regions of the original. *)
Definition copy_region (newProcess newPageTable : Z) (r : Region) (k : kern) : outcome kern :=
  '(pa, fr) ← request_pages (pages r) (k_frames k);
  if pa =? 0 then Stop Panicked
  else
    let m := MemRoutines.memcpy pa (paddr r) (rlength r) (k_mem k) in
    st ← map_pages newPageTable (vaddr r) pa user_page_flags (pages r) (m, fr);
    s ← modify_proc newProcess (add_memory_region_of (mkRegion (vaddr r) pa (rlength r) (pages r) (rflags r))) (k_sched k);
    Done (with_sched s (with_memory st k)).

Fixpoint copy_regions (newProcess newPageTable : Z) (rs : list Region) (k : kern) : outcome kern :=
  match rs with
  | [] => Done k
  | r :: rs => k ← copy_region newProcess newPageTable r k; copy_regions newProcess newPageTable rs k
  end.

(** [while (FileDescriptors.allocated_size() < procfd)]: garbage entries, and
    the descriptors they got. *)
Fixpoint push_garbage (fuel : nat) (newProcess procfd sysfd : Z) (garbage : list Z) (s : sched) : outcome (list Z * sched) :=
  match fuel with
  | O => Stop Hung
  | S f =>
      p ← proc newProcess s;
      if Sparse.allocated_size (Process.FileDescriptors p) <? procfd then
        let '(fd, success, fds) := Sparse.push_back FD_Invalid sysfd (Process.FileDescriptors p) in
        s ← Vfs.set_descriptors newProcess fds s;
        if negb success then Done (garbage, s)
        else push_garbage f newProcess procfd sysfd (garbage ++ [fd]) s
      else Done (garbage, s)
  end.

Fixpoint copy_descriptors (newProcess : Z) (pairs : list (Z * Z)) (garbage : list Z) (v : Vfs.vfs) (ds : D * sched) :
    outcome (list Z * Vfs.vfs * (D * sched)) :=
  match pairs with
  | [] => Done (garbage, v, ds)
  | (procfd, sysfd) :: pairs =>
      '(garbage, s) ← push_garbage (S (Z.to_nat procfd)) newProcess procfd sysfd garbage ds.2;
      '(_, v, ds) ← Vfs.add_file (Vfs.file sysfd v) newProcess v (ds.1, s);
      copy_descriptors newProcess pairs garbage v ds
  end.

Fixpoint erase_garbage (newProcess : Z) (garbage : list Z) (s : sched) : outcome sched :=
  match garbage with
  | [] => Done s
  | fd :: garbage =>
      p ← proc newProcess s;
      '(_, fds) ← Sparse.erase FD_Invalid fd (Process.FileDescriptors p);
      s ← Vfs.set_descriptors newProcess fds s;
      erase_garbage newProcess garbage s
  end.

(** The last lines: paths, registers and the state of the copy. *)
Definition finish_copy (original : Process) (p : Process) : Process :=
  with_State RUNNING
    (set_return_value 0
       (with_next_region_vaddr (next_region_vaddr original)
          (with_CPU (CPU original) (with_paths (ExecutablePath original) (WorkingDirectory original) p)))).

(** [CopyUserspaceProcess] of the process at [original]; [newProcess] is the
    address [new Process] returned. *)
Definition CopyUserspaceProcess (original newProcess : Z) (k : kern) : outcome (Z * kern) :=
  let s := with_procs (<[newProcess := with_State SLEEPING new_process]> (procs (k_sched k))) (k_sched k) in
  '(pid, s) ← add_process newProcess s;
  o ← proc original s;
  s ← modify_proc newProcess (with_ParentProcess (ProcessID o)) s;
  let k := with_sched s k in
  '(newPageTable, st) ← clone_page_map (CR3 o) (k_mem k, k_frames k);
  let k := with_memory st k in
  if newPageTable =? 0 then '(_, k) ← remove_process pid (-1) k; Done (wrap64 (-1), k)
  else
    s ← modify_proc newProcess (with_CR3 newPageTable) (k_sched k);
    st ← map newPageTable newPageTable newPageTable (Z.lor (flag_value Present) (flag_value ReadWrite)) (k_mem k, k_frames k);
    k ← copy_regions newProcess newPageTable (Memories o) (with_memory st (with_sched s k));
    o ← proc original (k_sched k);
    '(garbage, v, (d, s)) ← copy_descriptors newProcess (Sparse.pairs FD_Invalid (Process.FileDescriptors o)) [] (k_vfs k) (files k);
    s ← erase_garbage newProcess garbage s;
    o ← proc original s;
    s ← modify_proc newProcess (finish_copy o) s;
    Done (pid, with_files v (d, s) k).

End Operations.

(** ** Searching and freeing *)

Lemma find_to_remove_spec s ns ps pid i fuel :
  queue_ok s ns ps -> (i <= length ns)%nat -> (length ns - i < fuel)%nat ->
  find_to_remove fuel (List.hd 0 (drop i ns)) (Z.of_nat i) pid s =
  Done (match list_find (fun a => has_pid s pid a = true) (drop i ps) with
        | Some (j, a) => (a, Z.of_nat (i + j))
        | None => (0, Z.of_nat (length ns))
        end).
Proof.
  intros Q. pose proof (SLL.chain_length _ _ _ _ (SLL.rep_chain _ _ _ (qo_rep _ _ _ Q))) as Hl.
  revert i. induction fuel as [|fuel IH]; intros i Hi Hf; [lia|].
  destruct (decide (i = length ns)) as [->|Hne]; [by rewrite !drop_ge by lia|].
  destruct (lookup_lt_is_Some_2 ns i) as [n Hn]; [lia|]. destruct (lookup_lt_is_Some_2 ps i) as [a Ha]; [lia|].
  destruct (node_value s ns ps i n a Q Hn Ha) as (H0 & Hv & Hx).
  destruct (qo_procs _ _ _ Q a) as [Ha0 [p Hp]]; [by eapply list_elem_of_lookup_2|].
  rewrite (drop_S ns n i Hn), (drop_S ps a i Ha). cbn [find_to_remove List.hd list_find].
  rewrite (proj2 (Z.eqb_neq n 0) H0), Hv. cbn [mbind outcome_bind]. unfold proc. rewrite Hp. cbn [deref mbind outcome_bind].
  assert (Hh : has_pid s pid a = (ProcessID p =? pid)) by (unfold has_pid; by rewrite Hp). rewrite Hh.
  destruct (ProcessID p =? pid).
  - destruct (decide (true = true)); [|done]. by rewrite Nat.add_0_r.
  - destruct (decide (false = true)); [done|]. rewrite Hx. cbn [mbind outcome_bind].
    replace (Z.of_nat i + 1) with (Z.of_nat (S i)) by lia. rewrite (IH (S i)) by lia.
    destruct (list_find _ (drop (S i) ps)) as [[j b]|]; cbn; [|done]. by rewrite Nat.add_succ_r.
Qed.

(** The page numbers of a region, and the regions a process may hold. *)
Definition region_pages (r : Region) : list Z := seqZ (paddr r / PAGE_SIZE) (pages r).

Record region_held (fr : pmm) (r : Region) : Prop := {
  rh_aligned : paddr r mod PAGE_SIZE = 0;
  rh_nonneg : 0 <= paddr r;
  rh_count : 0 <= pages r;
  rh_top : paddr r + pages r * PAGE_SIZE < 2 ^ 64;
  rh_locked q : q ∈ region_pages r -> locked fr q = true
}.

Lemma elem_of_region_pages r q : q ∈ region_pages r <-> paddr r / PAGE_SIZE <= q < paddr r / PAGE_SIZE + pages r.
Proof. unfold region_pages. by rewrite elem_of_seqZ. Qed.

Lemma free_region_spec r fr :
  pmm_wf fr -> region_held fr r ->
  let fr' := free_pages (paddr r) (pages r) fr in
  pmm_wf fr' /\ forall q, 0 <= q -> locked fr' q = locked fr q && negb (bool_decide (q ∈ region_pages r)).
Proof.
  intros W [Ha H0 Hc Ht Hl]. assert (Ep : paddr r = paddr r / PAGE_SIZE * PAGE_SIZE) by (unfold PAGE_SIZE in *; dlia).
  assert (Hp0 : 0 <= paddr r / PAGE_SIZE) by (apply Z.div_pos; [lia|done]).
  unfold free_pages.
  destruct (free_pages_loop (paddr r / PAGE_SIZE) (Z.to_nat (pages r)) 0 fr W Hp0 ltac:(lia)) as (W' & _ & Hb).
  - rewrite Z2Nat.id by lia. rewrite Z.mul_add_distr_r. unfold PAGE_SIZE in *. lia.
  - intros q Hq. apply Hl, elem_of_region_pages. lia.
  - cbv zeta. rewrite <- Ep in W', Hb. split; [exact W'|]. intros q Hq. rewrite (Hb q Hq). unfold in_run.
    rewrite Z2Nat.id by lia. rewrite Z.add_0_r.
    destruct (bool_decide (q ∈ region_pages r)) eqn:E; cbn [negb].
    + apply bool_decide_eq_true_1 in E. pose proof (Hl q E) as Hlq. apply elem_of_region_pages in E.
      rewrite andb_false_r. rewrite (proj2 (Z.leb_le _ _)), (proj2 (Z.ltb_lt q (_ + _))) by lia. cbn [andb].
      rewrite (proj2 (Z.ltb_lt _ _)); [done|]. by apply locked_in_range.
    + apply bool_decide_eq_false_1 in E. rewrite andb_true_r.
      assert (Hn : ((paddr r / PAGE_SIZE <=? q) && (q <? paddr r / PAGE_SIZE + pages r)) = false); [|by rewrite Hn].
      apply not_true_iff_false. intros Ht'%andb_true_iff. apply E, elem_of_region_pages. lia.
Qed.

(** Freeing the regions of a process unlocks exactly their pages. *)
Lemma free_regions_spec rs fr :
  pmm_wf fr -> Forall (region_held fr) rs -> NoDup (rs ≫= region_pages) ->
  pmm_wf (free_regions rs fr) /\
  forall q, 0 <= q -> locked (free_regions rs fr) q = locked fr q && negb (bool_decide (q ∈ rs ≫= region_pages)).
Proof.
  revert fr. induction rs as [|r rs IH]; intros fr W Hh Hnd.
  { split; [done|]. intros q _. cbn. by rewrite andb_true_r. }
  rewrite Forall_cons in Hh. destruct Hh as [Hr Hrs]. rewrite bind_cons in Hnd |- *. apply NoDup_app in Hnd as (_ & Hdis & Hnd).
  destruct (free_region_spec r fr W Hr) as [W1 H1]. unfold free_regions. cbn [foldl]. fold (free_regions rs (free_pages (paddr r) (pages r) fr)).
  destruct (IH (free_pages (paddr r) (pages r) fr) W1) as [W2 H2]; [|exact Hnd|].
  - rewrite Forall_forall in Hrs |- *. intros r' Hr'. destruct (Hrs r' Hr') as [A B C E L]. split; try done.
    intros q Hq. pose proof Hq as Hq0. apply elem_of_region_pages in Hq0. rewrite H1 by (assert (0 <= paddr r' / PAGE_SIZE) by (apply Z.div_pos; [lia|done]); lia).
    rewrite L by done. rewrite bool_decide_false; [done|]. intros Hin. apply (Hdis q Hin). apply list_elem_of_bind. by exists r'.
  - split; [exact W2|]. intros q Hq. rewrite H2, H1, <- andb_assoc by done. f_equal.
    rewrite <- negb_orb. f_equal. apply eq_true_iff_eq. rewrite orb_true_iff, !bool_decide_eq_true, elem_of_app. tauto.
Qed.

(** ** What the filesystem sees of a process *)

Section Spec.
Context {D : Type} `{!Drivers D, !DriverLaws D}.
Notation kern := (kernel D).

Lemma proc_known a s p : procs s !! a = Some p -> proc a s = Done p.
Proof. intros Hp. unfold proc. by rewrite Hp. Qed.

Lemma modify_known a f s p : procs s !! a = Some p -> modify_proc a f s = Done (with_procs (<[a := f p]> (procs s)) s).
Proof. intros Hp. unfold modify_proc. by rewrite (proc_known a s p Hp). Qed.

(** The filesystem looks only at descriptor tables. *)
Definition same_tables (s s' : sched) : Prop :=
  forall b, Process.FileDescriptors <$> procs s' !! b = Process.FileDescriptors <$> procs s !! b.

Lemma same_tables_sysfd s s' b fd : same_tables s s' -> Vfs.sysfd_of s' b fd = Vfs.sysfd_of s b fd.
Proof.
  intros H. specialize (H b). unfold Vfs.sysfd_of. destruct (procs s !! b) as [q|], (procs s' !! b) as [q'|]; try done.
  injection H as H. cbn. by rewrite H.
Qed.

Lemma same_tables_ok e v d s s' : same_tables s s' -> Vfs.ok e v d s -> Vfs.ok e v d s'.
Proof.
  intros H O. split; try apply O.
  - intros b q' Hq'. pose proof (H b) as Hb. rewrite Hq' in Hb. destruct (procs s !! b) as [q|] eqn:Hq; [|done].
    injection Hb as Hb. rewrite Hb. by apply (Vfs.ok_tables _ _ _ _ O b).
  - intros b fd x Hfd. rewrite (same_tables_sysfd s s' b fd H). by apply O.
  - intros b fd b' fd' x H1 H2. rewrite !(same_tables_sysfd s s' _ _ H). by apply O.
  - intros i Hi Hx. destruct (Vfs.ok_owned _ _ _ _ O i Hi Hx) as (b & g & Hg & Hs). exists b, g. by rewrite (same_tables_sysfd s s' _ _ H).
Qed.

Lemma same_tables_open v s s' b fd : same_tables s s' -> Vfs.open_file v s' b fd = Vfs.open_file v s b fd.
Proof. intros H. by rewrite !Vfs.open_file_sysfd, (same_tables_sysfd s s' b fd H). Qed.

Lemma same_tables_trans s1 s2 s3 : same_tables s1 s2 -> same_tables s2 s3 -> same_tables s1 s3.
Proof. intros H1 H2 b. by rewrite H2, H1. Qed.

Lemma same_tables_update a f p s s' :
  procs s !! a = Some p -> procs s' = <[a := f p]> (procs s) -> Process.FileDescriptors (f p) = Process.FileDescriptors p -> same_tables s s'.
Proof.
  intros Hp E Hf b. rewrite E. destruct (decide (b = a)) as [->|]; [|by rewrite lookup_insert_ne].
  rewrite lookup_insert_eq, Hp. cbn. by rewrite Hf.
Qed.

Lemma woken_same_tables ret W s s' : woken ret W s s' -> same_tables s s'.
Proof. intros [_ H] b. rewrite H. destruct (procs s !! b); [|done]. cbn. by case_bool_decide. Qed.

(** Closing from entry [i] on leaves nothing open there. *)
Lemma close_all_spec n i a v d s p ns ps :
  Vfs.ok None v d s -> queue_ok s ns ps -> a ≠ 0 -> procs s !! a = Some p -> 0 <= i ->
  Sparse.allocated_size (Process.FileDescriptors p) = i + Z.of_nat n ->
  exists v' d' s', close_all n i a v (d, s) = Done (v', (d', s')) /\ Vfs.ok None v' d' s' /\ queue_ok s' ns ps /\ Vfs.touched s s' /\
    Vfs.Held v' = Vfs.Held v /\
    (forall b g, 0 <= g -> Vfs.open_file v' s' b g = if decide (b = a /\ i <= g) then None else Vfs.open_file v s b g) /\
    ((forall g, 0 <= g -> Vfs.open_file v s a g = None) -> v' = v /\ d' = d /\ s' = s).
Proof.
  intros O Q Ha Hp Hi Hsz. revert i v d s p O Q Hp Hi Hsz. induction n as [|n IH]; intros i v d s p O Q Hp Hi Hsz.
  { exists v, d, s. split_and!; [done|done|done|apply Vfs.touched_refl|done| |done]. intros b g Hg. case_decide as E; [|done].
    destruct E as [-> Hg']. rewrite Vfs.open_file_sysfd. unfold Vfs.sysfd_of. rewrite Hp. cbn.
    destruct (Sparse.lookup_valid _ _ g) as [x|] eqn:Ex; [|done]. apply Sparse.lookup_valid_allocated in Ex; lia. }
  cbn [close_all]. cbn [snd]. unfold proc. rewrite Hp. cbn [deref mbind outcome_bind].
  unfold Sparse.el. unfold Sparse.allocated_size in Hsz.
  destruct (lookup_lt_is_Some_2 (Sparse.els (Process.FileDescriptors p)) (Z.to_nat i)) as [fd Hfd]; [lia|].
  rewrite Hfd. cbn [deref mbind outcome_bind].
  assert (Hget : Sparse.get i (Process.FileDescriptors p) = Some fd) by (by rewrite Sparse.get_spec).
  destruct (Z.eqb_spec fd FD_Invalid) as [E|E].
  - destruct (IH (i + 1) v d s p O Q Hp ltac:(lia) ltac:(unfold Sparse.allocated_size; lia)) as (v' & d' & s' & E1 & O' & Q' & T & Eh & R & Hno).
    exists v', d', s'. split_and!; try done. intros b g Hg. rewrite (R b g Hg).
    destruct (decide (b = a /\ i + 1 <= g)) as [?|N1], (decide (b = a /\ i <= g)) as [[-> Hle]|N2]; try done; [exfalso; naive_solver lia|].
    assert (g = i) as -> by (assert (~ i + 1 <= g) by tauto; lia).
    rewrite Vfs.open_file_sysfd. unfold Vfs.sysfd_of. rewrite Hp. cbn. unfold Sparse.lookup_valid. rewrite Hget, decide_True by done. done.
  - assert (Hs : Vfs.sysfd_of s a i = Some fd) by (unfold Vfs.sysfd_of; rewrite Hp; by apply Sparse.get_lookup_valid).
    destruct (Vfs.ok_mapped _ _ _ _ O a i fd Hi Hs) as [_ [f Hf]].
    assert (Ho : Vfs.open_file v s a i = Some f) by (rewrite Vfs.open_file_sysfd, Hs; exact Hf).
    destruct (Vfs.close_spec a i v d s f ns ps O Hi Ho Ha Q) as (v1 & d1 & s1 & E1 & O1 & Q1 & R1 & Eh1 & _ & _ & T1 & S1).
    rewrite E1. cbn [mbind outcome_bind]. destruct (Vfs.tc_some _ _ T1 a p Hp) as (p1 & Hp1 & _).
    destruct (IH (i + 1) v1 d1 s1 p1 O1 Q1 Hp1 ltac:(lia)) as (v' & d' & s' & E2 & O' & Q' & T & Eh & R & _).
    { rewrite (S1 a p p1 Hp Hp1). unfold Sparse.allocated_size. lia. }
    exists v', d', s'. split_and!; [done|done|done|by eapply Vfs.touched_trans|congruence| |].
    + intros b g Hg. rewrite (R b g Hg), (R1 b g Hg). repeat case_decide; try done; exfalso; naive_solver lia.
    + intros Hno. rewrite (Hno i Hi) in Ho. done.
Qed.

(** ** The end of a process *)

(** What another process learns of it: its parent gets a zombie, those that
    wait for it run again with the status. *)
Definition told (s : sched) (ps : list Z) (p : Process) (status b : Z) (q : Process) : Process :=
  let q := if bool_decide (find_pid s ps (ParentProcess p) = Some b)
           then with_Zombies (Zombies q ++ [mkZombie (ProcessID p) status]) q else q in
  if bool_decide (b ∈ omap (find_pid s ps) (WaitingList p)) then unblock true (wrap64 status) q else q.

Lemma told_descriptors s ps p status b q : Process.FileDescriptors (told s ps p status b q) = Process.FileDescriptors q.
Proof. unfold told. repeat case_bool_decide; done. Qed.

Lemma find_pid_in s ps pid b : find_pid s ps pid = Some b -> b ∈ ps.
Proof.
  unfold find_pid. destruct (list_find _ ps) as [[i c]|] eqn:E; [|done]. intros [= <-].
  apply list_find_Some in E as (E & _ & _). by eapply list_elem_of_lookup_2.
Qed.

Lemma find_pid_ext s s' ps pid : (forall b, has_pid s' pid b = has_pid s pid b) -> find_pid s' ps pid = find_pid s ps pid.
Proof. intros H. unfold find_pid. f_equal. apply list_find_ext. intros b. by rewrite H. Qed.

(** The parent's new entry. *)
Lemma add_zombie_spec s ns ps pid z :
  queue_ok s ns ps ->
  exists parent s', process pid s = Done parent /\ add_zombie parent z s = Done s' /\ s' = with_procs (procs s') s /\
    forall b, procs s' !! b = (if bool_decide (find_pid s ps pid = Some b) then fun q => with_Zombies (Zombies q ++ [z]) q else id) <$> procs s !! b.
Proof.
  intros Q. rewrite (process_spec s ns ps pid Q). unfold find_pid.
  destruct (list_find _ ps) as [[i c]|] eqn:E.
  - exists c. apply list_find_Some in E as (E & _ & _). destruct (qo_procs _ _ _ Q c) as [H0 [q Hq]]; [by eapply list_elem_of_lookup_2|].
    eexists. unfold add_zombie, modify_proc, proc. rewrite (proj2 (Z.eqb_neq c 0) H0), Hq. cbn [deref mbind outcome_bind].
    split_and!; [done|done|done|]. intros b. cbn [with_procs procs fmap option_fmap option_map snd]. destruct (decide (b = c)) as [->|Hne].
    + rewrite lookup_insert_eq, Hq, bool_decide_true by done. done.
    + rewrite lookup_insert_ne, bool_decide_false by congruence. by destruct (procs s !! b).
  - exists 0, s. split_and!; [done|done|by destruct s|]. intros b. cbn. by destruct (procs s !! b).
Qed.

Lemma update_queue_ok s s' ns ps :
  queue_ok s ns ps -> ProcessQueue s' = ProcessQueue s -> (forall b, is_Some (procs s !! b) -> is_Some (procs s' !! b)) -> queue_ok s' ns ps.
Proof.
  intros [R P] E H. split; [by rewrite E|]. intros b Hb. destruct (P b Hb). auto.
Qed.

(** The first half of [destroy]: the others are told. *)
Lemma tell_spec s a p status ns ps :
  queue_ok s ns ps -> a ∉ ps -> procs s !! a = Some p ->
  exists parent s1 s2, process (ParentProcess p) s = Done parent /\ add_zombie parent (mkZombie (ProcessID p) status) s = Done s1 /\
    procs s1 !! a = Some p /\ unblock_all (wrap64 status) (WaitingList p) s1 = Done s2 /\
    queue_ok s2 ns ps /\ s2 = with_procs (procs s2) s /\ procs s2 !! a = Some p /\
    (forall b q, procs s !! b = Some q -> procs s2 !! b = Some (told s ps p status b q)) /\
    (forall b, procs s !! b = None -> procs s2 !! b = None).
Proof.
  intros Q Hna Hp. assert (Hnot : forall pid, find_pid s ps pid ≠ Some a) by (intros pid E%find_pid_in; done).
  destruct (add_zombie_spec s ns ps (ParentProcess p) (mkZombie (ProcessID p) status) Q) as (parent & s1 & Hpar & Hz & E1 & H1).
  assert (Hp1 : procs s1 !! a = Some p) by (rewrite H1, Hp, bool_decide_false by apply Hnot; done).
  assert (Q1 : queue_ok s1 ns ps).
  { eapply update_queue_ok; [exact Q|by rewrite E1|]. intros b [q Hq]. rewrite H1, Hq. by eexists. }
  destruct (unblock_all_spec (wrap64 status) (WaitingList p) s1 ns ps Q1) as (s2 & Hu & Hw).
  assert (Hf1 : forall pid, find_pid s1 ps pid = find_pid s ps pid).
  { intros pid. apply find_pid_ext. intros b. unfold has_pid. rewrite H1. destruct (procs s !! b); [|done]. cbn. by case_bool_decide. }
  assert (Hom : omap (find_pid s1 ps) (WaitingList p) = omap (find_pid s ps) (WaitingList p)).
  { apply list_omap_ext, Forall2_same_length_lookup_2; [done|]. intros i x y Hx Hy. rewrite Hx in Hy. injection Hy as ->. apply Hf1. }
  rewrite Hom in Hw. pose proof (woken_queue_ok _ _ _ _ _ _ Hw Q1) as Q2. destruct Hw as [E2 Hw].
  assert (H2 : forall b q, procs s !! b = Some q -> procs s2 !! b = Some (told s ps p status b q)).
  { intros b q Hq. rewrite Hw, H1, Hq. unfold told. cbn. repeat case_bool_decide; done. }
  assert (Hta : told s ps p status a p = p).
  { unfold told. rewrite !bool_decide_false; [done|apply Hnot|]. intros (x & _ & Hx)%list_elem_of_omap. by apply Hnot in Hx. }
  exists parent, s1, s2. split_and!; try done.
  - rewrite E2, E1. by destruct s.
  - by rewrite (H2 a p Hp), Hta.
  - intros b Hb. by rewrite Hw, H1, Hb.
Qed.

Lemma destroy_spec a status k p ns ps :
  Vfs.ok None (k_vfs k) (k_drivers k) (k_sched k) -> queue_ok (k_sched k) ns ps -> a ≠ 0 -> a ∉ ps -> procs (k_sched k) !! a = Some p ->
  exists k', destroy a status k = Done k' /\
    Vfs.ok None (k_vfs k') (k_drivers k') (k_sched k') /\ queue_ok (k_sched k') ns ps /\
    k_frames k' = free_regions (Memories p) (k_frames k) /\ k_mem k' = k_mem k /\ k_hw k' = k_hw k /\
    Vfs.Held (k_vfs k') = Vfs.Held (k_vfs k) /\
    PageMapsToFree (k_sched k') = PageMapsToFree (k_sched k) ++ [CR3 p] /\
    ProcessQueue (k_sched k') = ProcessQueue (k_sched k) /\ CurrentProcess (k_sched k') = CurrentProcess (k_sched k) /\
    (forall b q, b ≠ a -> procs (k_sched k) !! b = Some q ->
       exists q', procs (k_sched k') !! b = Some q' /\ Vfs.kept (told (k_sched k) ps p status b q) q') /\
    (forall b, procs (k_sched k) !! b = None -> procs (k_sched k') !! b = None) /\
    (forall b g, 0 <= g -> Vfs.open_file (k_vfs k') (k_sched k') b g =
       if decide (b = a) then None else Vfs.open_file (k_vfs k) (k_sched k) b g) /\
    ((forall g, 0 <= g -> Vfs.open_file (k_vfs k) (k_sched k) a g = None) ->
       k_vfs k' = k_vfs k /\ k_drivers k' = k_drivers k /\
       forall b q, b ≠ a -> procs (k_sched k) !! b = Some q -> procs (k_sched k') !! b = Some (told (k_sched k) ps p status b q)).
Proof.
  destruct k as [v d s fr m um hw]. cbn [k_vfs k_drivers k_sched k_frames k_mem k_hw]. intros O Q Ha Hna Hp.
  unfold destroy. cbn [k_sched k_frames k_vfs k_drivers].
  set (s0 := if a =? Init s then with_Init 0 s else s).
  assert (E0 : procs s0 = procs s /\ ProcessQueue s0 = ProcessQueue s /\ PageMapsToFree s0 = PageMapsToFree s /\ CurrentProcess s0 = CurrentProcess s)
    by (unfold s0; by destruct (a =? _)).
  destruct E0 as (Ep0 & Eq0 & Em0 & Ec0). assert (Q0 : queue_ok s0 ns ps) by (eapply update_queue_ok; [exact Q|done|by rewrite Ep0]).
  assert (Ht : forall b q, told s0 ps p status b q = told s ps p status b q).
  { intros b q. assert (Hf : find_pid s0 ps = find_pid s ps) by (unfold find_pid, has_pid; by rewrite Ep0). unfold told. by rewrite Hf. }
  destruct (tell_spec s0 a p status ns ps Q0 Hna ltac:(by rewrite Ep0)) as (parent & s1 & s2 & Hpar & Hz & Hp1 & Hu & Q2 & E2 & Hp2 & H2 & H2n).
  rewrite Ep0 in H2, H2n. setoid_rewrite Ht in H2.
  rewrite (proc_known a s0 p) by (by rewrite Ep0). cbn [mbind outcome_bind]. rewrite Hpar. cbn [mbind outcome_bind]. rewrite Hz. cbn [mbind outcome_bind].
  rewrite (proc_known a s1 p Hp1). cbn [mbind outcome_bind]. rewrite Hu. cbn [mbind outcome_bind].
  rewrite (proc_known a s2 p Hp2). cbn [mbind outcome_bind]. rewrite (modify_known a _ s2 p Hp2). cbn [mbind outcome_bind].
  set (s3 := with_procs (<[a := with_Memories [] p]> (procs s2)) s2).
  assert (T3 : same_tables s s3).
  { apply same_tables_trans with s2; [|by eapply (same_tables_update a (with_Memories [])); [exact Hp2|..]].
    intros b. destruct (procs s !! b) as [q|] eqn:Hq; [|by rewrite (H2n b Hq)]. rewrite (H2 b q Hq). cbn. by rewrite told_descriptors. }
  assert (Hp3 : procs s3 !! a = Some (with_Memories [] p)) by (cbn; by rewrite lookup_insert_eq).
  assert (Q3 : queue_ok s3 ns ps).
  { eapply update_queue_ok; [exact Q2|done|]. intros b [q Hq]. cbn.
    destruct (decide (b = a)) as [->|]; [by rewrite lookup_insert_eq|by rewrite lookup_insert_ne]. }
  rewrite (proc_known a s3 _ Hp3). cbn [mbind outcome_bind].
  destruct (close_all_spec (length (Sparse.els (Process.FileDescriptors (with_Memories [] p)))) 0 a v d s3 (with_Memories [] p) ns ps) as
    (v' & d' & s' & -> & O' & Q' & T & Eh & R & Hno); [by eapply same_tables_ok|exact Q3|exact Ha|exact Hp3|lia|done|].
  cbn [mbind outcome_bind]. destruct (Vfs.tc_some _ _ T a (with_Memories [] p) Hp3) as (pa & Hpa & [Ekpa _]).
  rewrite (proc_known a s' pa Hpa). cbn [mbind outcome_bind].
  assert (Ecr : CR3 pa = CR3 p) by (rewrite Ekpa; by destruct p).
  assert (Epm : PageMapsToFree s' = PageMapsToFree s /\ ProcessQueue s' = ProcessQueue s /\ CurrentProcess s' = CurrentProcess s)
    by (rewrite (Vfs.tc_sched _ _ T); cbn; rewrite E2; cbn; done).
  destruct Epm as (Epm & Eqq & Ecc).
  eexists. split; [reflexivity|].
  cbn [with_frames with_files k_vfs k_drivers k_sched k_frames k_mem k_hw fst snd with_PageMapsToFree PageMapsToFree procs ProcessQueue CurrentProcess]. rewrite Ecr, Epm.
  split_and!; try done.
  - eapply same_tables_ok; [|exact O']. by intros b.
  - eapply update_queue_ok; [exact Q'|done|done].
  - intros b q Hb Hq. apply (Vfs.tc_some _ _ T). cbn. rewrite lookup_insert_ne by done. by apply H2.
  - intros b Hb. apply (Vfs.tc_none _ _ T). cbn. rewrite lookup_insert_ne; [by apply H2n|]. intros ->. congruence.
  - intros b g Hg. transitivity (Vfs.open_file v' s' b g); [by apply same_tables_open|]. rewrite (R b g Hg), (same_tables_open v s s3 b g T3).
    repeat case_decide; try done; exfalso; naive_solver lia.
  - intros Hn. destruct Hno as (-> & -> & ->).
    { intros g Hg. rewrite (same_tables_open v s s3 a g T3). by apply Hn. }
    split_and!; [done|done|]. intros b q Hb Hq. cbn. rewrite lookup_insert_ne by done. by apply H2.
Qed.

Lemma find_own s ns ps i a p :
  queue_ok s ns ps -> pids_ok s ps -> NoDup ps -> ps !! i = Some a -> procs s !! a = Some p ->
  list_find (fun b => has_pid s (ProcessID p) b = true) ps = Some (i, a).
Proof.
  intros Q P Hnd Hi Hp. apply list_find_Some. split_and!; [done|unfold has_pid; rewrite Hp; by apply Z.eqb_refl|].
  intros j b Hj Hlt Hb. unfold has_pid in Hb. destruct (procs s !! b) as [q|] eqn:Hq; [|done]. apply Z.eqb_eq in Hb.
  assert (b = a) as -> by (eapply (po_inj _ _ P b a q p); (done || by eapply list_elem_of_lookup_2)).
  pose proof (NoDup_lookup _ _ _ _ Hnd Hi Hj). lia.
Qed.

Lemma not_elem_of_delete_self {A} (l : list A) i a : NoDup l -> l !! i = Some a -> a ∉ delete i l.
Proof.
  intros Hnd Hi (j & Hj)%list_elem_of_lookup. destruct (decide (j < i)%nat).
  - rewrite list_lookup_delete_lt in Hj by done. pose proof (NoDup_lookup _ _ _ _ Hnd Hi Hj). lia.
  - rewrite list_lookup_delete_ge in Hj by lia. pose proof (NoDup_lookup _ _ _ _ Hnd Hi Hj). lia.
Qed.

Lemma elem_of_delete_sub {A} (l : list A) i a : a ∈ delete i l -> a ∈ l.
Proof. intros H. by eapply elem_of_submseteq, sublist_submseteq, sublist_delete. Qed.

(** Deleting the object of a process that is not queued and has nothing open. *)
Lemma forget_spec v d s a ns ps :
  Vfs.ok None v d s -> queue_ok s ns ps -> a ∉ ps -> (forall g, 0 <= g -> Vfs.open_file v s a g = None) ->
  let s2 := with_procs (delete a (procs s)) s in
  Vfs.ok None v d s2 /\ queue_ok s2 ns ps /\
  forall b g, 0 <= g -> Vfs.open_file v s2 b g = if decide (b = a) then None else Vfs.open_file v s b g.
Proof.
  intros O Q Hna Hno s2.
  assert (Hd : forall b, procs s2 !! b = if decide (b = a) then None else procs s !! b).
  { intros b. cbn. case_decide as E; [subst; by rewrite lookup_delete_eq|by rewrite lookup_delete_ne]. }
  assert (Hsys : forall b g, Vfs.sysfd_of s2 b g = if decide (b = a) then None else Vfs.sysfd_of s b g).
  { intros b g. unfold Vfs.sysfd_of. rewrite Hd. by case_decide. }
  split_and!.
  - split; try apply O.
    + intros b q. rewrite Hd. case_decide; [done|]. by apply (Vfs.ok_tables _ _ _ _ O b).
    + intros b fd x Hfd. rewrite Hsys. case_decide; [done|]. by apply O.
    + intros b fd b' fd' x H3 H4. rewrite !Hsys. do 2 case_decide; try done. by apply O.
    + intros j Hj [f Hf]. destruct (Vfs.ok_owned _ _ _ _ O j Hj ltac:(by eexists)) as (b & g & Hg & Hs). exists b, g. split; [done|].
      rewrite Hsys. case_decide as E; [|done]. subst b. specialize (Hno g Hg). rewrite Vfs.open_file_sysfd, Hs in Hno. cbn in Hno. congruence.
  - split; [apply Q|]. intros b Hb. destruct (qo_procs _ _ _ Q b Hb) as [H0 Hs]. split; [done|].
    rewrite Hd, decide_False; [done|]. by intros ->.
  - intros b g Hg. rewrite !Vfs.open_file_sysfd, Hsys. by case_decide.
Qed.

(** What is left of the kernel after a process. *)
Record removed (k k' : kern) (ns ps : list Z) (i : nat) (a : Z) (p : Process) (status : Z) : Prop := {
  rm_ok : Vfs.ok None (k_vfs k') (k_drivers k') (k_sched k');
  rm_queue : queue_ok (k_sched k') (delete i ns) (delete i ps);
  rm_gone : procs (k_sched k') !! a = None;
  rm_frames : k_frames k' = free_regions (Memories p) (k_frames k);
  rm_files b g : 0 <= g -> Vfs.open_file (k_vfs k') (k_sched k') b g =
    if decide (b = a) then None else Vfs.open_file (k_vfs k) (k_sched k) b g;
  rm_held : Vfs.Held (k_vfs k') = Vfs.Held (k_vfs k);
  rm_current : CurrentProcess (k_sched k') = CurrentProcess (k_sched k);
  rm_unlinked n : ns !! i = Some n -> SLL.nodes (ProcessQueue (k_sched k')) !! n = None;
  rm_maps : PageMapsToFree (k_sched k') = PageMapsToFree (k_sched k) ++ [CR3 p];
  rm_others b q : b ≠ a -> procs (k_sched k) !! b = Some q ->
    exists q', procs (k_sched k') !! b = Some q' /\ Vfs.kept (told (k_sched k) (delete i ps) p status b q) q';
  rm_quiet b q : (forall g, 0 <= g -> Vfs.open_file (k_vfs k) (k_sched k) a g = None) -> b ≠ a -> procs (k_sched k) !! b = Some q ->
    procs (k_sched k') !! b = Some (told (k_sched k) (delete i ps) p status b q)
}.

Lemma remove_process_spec pid status k ns ps i a p :
  Vfs.ok None (k_vfs k) (k_drivers k) (k_sched k) -> queue_ok (k_sched k) ns ps -> pids_ok (k_sched k) ps -> NoDup ps -> (2 <= length ps)%nat ->
  ps !! i = Some a -> procs (k_sched k) !! a = Some p -> ProcessID p = pid ->
  exists k', remove_process pid status k = Done (true, k') /\ removed k k' ns ps i a p status.
Proof.
  intros O Q P Hnd H2 Hi Hp <-. set (s := k_sched k) in *.
  pose proof (SLL.chain_length _ _ _ _ (SLL.rep_chain _ _ _ (qo_rep _ _ _ Q))) as Hl.
  pose proof (lookup_lt_Some _ _ _ Hi) as Hil. destruct (qo_procs _ _ _ Q a) as [Ha _]; [by eapply list_elem_of_lookup_2|].
  unfold remove_process. fold s. rewrite (SLL.rep_head _ _ _ (qo_rep _ _ _ Q)).
  pose proof (find_to_remove_spec s ns ps (ProcessID p) 0 (queue_fuel s) Q ltac:(lia)) as Hf. rewrite !drop_0 in Hf.
  change (Z.of_nat 0) with 0 in Hf. rewrite Hf by (pose proof (queue_fuel_enough _ _ _ Q); lia). rewrite (find_own s ns ps i a p Q P Hnd Hi Hp).
  cbn [mbind outcome_bind]. rewrite (proj2 (Z.eqb_neq a 0) Ha).
  destruct (SLL.remove_spec _ ns ps (Z.of_nat (0 + i)) (qo_rep _ _ _ Q) ltac:(lia) H2) as (q' & Erem & Rq). rewrite Erem.
  cbn [mbind outcome_bind]. rewrite Nat2Z.id, Nat.add_0_l in Rq.
  rewrite (modify_known a _ (with_ProcessQueue q' s) p Hp). cbn [mbind outcome_bind with_procs procs with_ProcessQueue].
  set (s1 := with_procs _ _). set (p1 := with_State SLEEPING p).
  assert (Hp1 : procs s1 !! a = Some p1) by (cbn; by rewrite lookup_insert_eq).
  assert (Hother : forall b, b ≠ a -> procs s1 !! b = procs s !! b) by (intros b Hb; cbn; by rewrite lookup_insert_ne).
  assert (T1 : same_tables s s1) by (by apply (same_tables_update a (with_State SLEEPING) p)).
  assert (Q1 : queue_ok s1 (delete i ns) (delete i ps)).
  { split; [exact Rq|]. intros b Hb. destruct (qo_procs _ _ _ Q b) as [H0 Hs]; [by eapply elem_of_delete_sub|]. split; [done|].
    destruct (decide (b = a)) as [->|Hne]; [by rewrite Hp1|by rewrite Hother]. }
  assert (Ht : forall b q, told s1 (delete i ps) p1 status b q = told s (delete i ps) p status b q).
  { intros b q. unfold told. assert (Hfp : forall x, find_pid s1 (delete i ps) x = find_pid s (delete i ps) x).
    { intros x. apply find_pid_ext. intros c. unfold has_pid. destruct (decide (c = a)) as [->|Hne]; [by rewrite Hp1, Hp|by rewrite Hother]. }
    assert (Hom : omap (find_pid s1 (delete i ps)) (WaitingList p1) = omap (find_pid s (delete i ps)) (WaitingList p)).
    { apply list_omap_ext, Forall2_same_length_lookup_2; [done|]. intros j x y Hx Hy. cbn in Hx. rewrite Hx in Hy. injection Hy as ->. apply Hfp. }
    rewrite Hom. cbn [p1 with_State ParentProcess ProcessID]. by rewrite Hfp. }
  destruct (destroy_spec a status (with_sched s1 k) p1 (delete i ns) (delete i ps)) as
    (k' & -> & O' & Q' & Efr & _ & _ & Eh & Epm & Eqq & Ecc & Hoth & Hnone & Hopen & Hquiet);
    [by eapply same_tables_ok|exact Q1|exact Ha|by apply not_elem_of_delete_self|exact Hp1|].
  cbn [mbind outcome_bind with_sched k_sched k_vfs k_frames k_drivers] in *. eexists. split; [reflexivity|].
  destruct (forget_spec _ _ _ a _ _ O' Q' (not_elem_of_delete_self ps i a Hnd Hi)) as (O2 & Q2 & Hopen2);
    [intros g Hg; by rewrite Hopen, decide_True|].
  split; cbn [with_sched k_sched k_vfs k_frames k_drivers]; try done.
  - cbn. by rewrite lookup_delete_eq.
  - intros b g Hg. rewrite Hopen2 by done. case_decide as E; [done|].
    rewrite Hopen, decide_False by done. by apply same_tables_open.
  - intros n Hn. cbn. rewrite Eqq. cbn. eapply (SLL.remove_deletes _ ns ps (Z.of_nat (0 + i))); [apply Q|lia| |exact Erem]. by rewrite Nat2Z.id.
  - intros b q Hb Hq. cbn. rewrite lookup_delete_ne by done. setoid_rewrite Ht in Hoth. apply Hoth; [done|]. by rewrite Hother.
  - intros b q Hn Hb Hq. cbn. rewrite lookup_delete_ne by done. destruct Hquiet as (_ & _ & H3).
    { intros g Hg. rewrite (same_tables_open _ s s1) by done. by apply Hn. }
    rewrite (H3 b q Hb); [by rewrite Ht|by rewrite Hother].
Qed.

(** The table of files and the metadata belong to the processes that are left. *)
Lemma removed_entries k k' ns ps i a p status j :
  removed k k' ns ps i a p status -> 0 <= j ->
  is_Some (Sparse.lookup_valid 0 (Vfs.Files (k_vfs k')) j) <-> exists b g, b ≠ a /\ 0 <= g /\ Vfs.sysfd_of (k_sched k') b g = Some j.
Proof.
  intros R Hj. split.
  - intros Hx. destruct (Vfs.ok_owned _ _ _ _ (rm_ok _ _ _ _ _ _ _ _ R) j Hj Hx) as (b & g & Hg & Hs). exists b, g. split_and!; try done.
    intros ->. unfold Vfs.sysfd_of in Hs. by rewrite (rm_gone _ _ _ _ _ _ _ _ R) in Hs.
  - intros (b & g & _ & Hg & Hs). by apply (Vfs.ok_mapped _ _ _ _ (rm_ok _ _ _ _ _ _ _ _ R) b g j Hg Hs).
Qed.

Lemma removed_metas k k' ns ps i a p status m :
  removed k k' ns ps i a p status ->
  is_Some (Store.objs (Vfs.metas (k_vfs k')) !! m) <->
  m ≠ 0 /\ ((exists b g, b ≠ a /\ 0 <= g /\ Vfs.open_file (k_vfs k) (k_sched k) b g = Some m) \/ m ∈ Vfs.Held (k_vfs k)).
Proof.
  intros R. rewrite (Vfs.metas_owned _ _ _ m (rm_ok _ _ _ _ _ _ _ _ R)), (rm_held _ _ _ _ _ _ _ _ R).
  assert (H : (exists b g, 0 <= g /\ Vfs.open_file (k_vfs k') (k_sched k') b g = Some m) <->
    exists b g, b ≠ a /\ 0 <= g /\ Vfs.open_file (k_vfs k) (k_sched k) b g = Some m); [|by rewrite H].
  split; intros (b & g & H).
  - destruct H as [Hg H]. rewrite (rm_files _ _ _ _ _ _ _ _ R b g Hg) in H. case_decide; [done|]. by exists b, g.
  - destruct H as (Hb & Hg & H). exists b, g. split; [done|]. by rewrite (rm_files _ _ _ _ _ _ _ _ R b g Hg), decide_False.
Qed.

(** ** Who learns of an exit *)

Lemma other_stays (ps : list Z) i a b : ps !! i = Some a -> b ∈ ps -> b ≠ a -> b ∈ delete i ps.
Proof.
  intros Hi Hb Hne. apply list_elem_of_lookup in Hb as (j & Hj). apply list_elem_of_lookup. destruct (decide (j < i)%nat).
  - exists j. by rewrite list_lookup_delete_lt.
  - destruct (decide (j = i)) as [->|]; [congruence|]. exists (j - 1)%nat. rewrite list_lookup_delete_ge by lia. by replace (S (j - 1)) with j by lia.
Qed.

Lemma pids_ok_delete s ps i : pids_ok s ps -> pids_ok s (delete i ps).
Proof.
  intros [Hb Hinj]. split.
  - intros c r Hc. by apply Hb, (elem_of_delete_sub ps i).
  - intros c c' r r' Hc Hc'. apply Hinj; by eapply elem_of_delete_sub.
Qed.

(** What the queued process [b] is told, in terms of identifiers. *)
Lemma told_queued s ps p status b q :
  pids_ok s ps -> b ∈ ps -> procs s !! b = Some q ->
  told s ps p status b q =
    let q1 := if decide (ParentProcess p = ProcessID q) then with_Zombies (Zombies q ++ [mkZombie (ProcessID p) status]) q else q in
    if decide (ProcessID q ∈ WaitingList p) then unblock true (wrap64 status) q1 else q1.
Proof.
  intros P Hb Hq. pose proof (find_pid_own s ps b q P Hb Hq) as Hf.
  assert (Hpid : forall x, find_pid s ps x = Some b <-> x = ProcessID q).
  { intros x. split; [|by intros ->]. unfold find_pid. destruct (list_find _ _) as [[j c]|] eqn:El; [|done]. intros [= ->].
    apply list_find_Some in El as (_ & El & _). unfold has_pid in El. rewrite Hq in El. by apply Z.eqb_eq in El. }
  unfold told. rewrite (bool_decide_ext _ _ (Hpid (ParentProcess p))).
  replace (bool_decide (b ∈ omap (find_pid s ps) (WaitingList p))) with (bool_decide (ProcessID q ∈ WaitingList p)).
  - repeat case_bool_decide; repeat case_decide; done.
  - apply bool_decide_ext. rewrite list_elem_of_omap. setoid_rewrite Hpid. naive_solver.
Qed.

(** ** Copied descriptors *)

(** A table without holes, and the same table once the garbage is erased. *)
Definition filled (t : Sparse.sparse_vector Z) : Prop := Sparse.idxs t = [] /\ Forall (fun x => x ≠ FD_Invalid) (Sparse.els t).

Definition erased (G : list Z) (t : Sparse.sparse_vector Z) : Sparse.sparse_vector Z :=
  Sparse.mkSparse (imap (fun j x => if bool_decide (Z.of_nat j ∈ G) then FD_Invalid else x) (Sparse.els t)) G.

Definition garbage_of (G : list Z) (t : Sparse.sparse_vector Z) : Prop :=
  NoDup G /\ forall g, g ∈ G -> 0 <= g < Sparse.allocated_size t.

Lemma push_filled x t :
  filled t -> x ≠ FD_Invalid ->
  Sparse.push_back FD_Invalid x t = (Sparse.allocated_size t, true, Sparse.mkSparse (Sparse.els t ++ [x]) []) /\
  filled (Sparse.mkSparse (Sparse.els t ++ [x]) []).
Proof.
  intros [Hi He] Hx. unfold Sparse.push_back, Sparse.allocate. rewrite decide_False, Hi by done. cbn [last].
  unfold Sparse.allocated_size. rewrite Nat2Z.id. cbn [Sparse.els Sparse.idxs]. rewrite insert_app_r_alt, Nat.sub_diag by lia. cbn.
  split; [done|]. split; [done|]. apply Forall_app. auto.
Qed.

Lemma erased_lookup G t j :
  filled t -> garbage_of G t -> 0 <= j ->
  Sparse.lookup_valid FD_Invalid (erased G t) j = if decide (j ∈ G) then None else Sparse.els t !! Z.to_nat j.
Proof.
  intros [_ He] [_ HG] Hj. unfold Sparse.lookup_valid. rewrite Sparse.get_spec by done. cbn [erased Sparse.els]. rewrite list_lookup_imap.
  destruct (Sparse.els t !! Z.to_nat j) as [x|] eqn:Hx; cbn [fmap option_fmap option_map]; [|by case_decide]. rewrite Z2Nat.id by done.
  destruct (decide (j ∈ G)) as [E|E]; [rewrite bool_decide_true by done; by rewrite decide_True|rewrite bool_decide_false by done].
  rewrite Forall_forall in He. rewrite decide_False; [done|]. by eapply He, list_elem_of_lookup_2.
Qed.

Lemma erased_wf G t : filled t -> garbage_of G t -> Sparse.wf FD_Invalid (erased G t).
Proof.
  intros [_ He] [Hnd HG]. split; [done|]. intros j. cbn [erased Sparse.els Sparse.idxs]. rewrite list_lookup_imap. split.
  - intros Hj. pose proof (HG j Hj) as Hb. split; [lia|]. unfold Sparse.allocated_size in Hb.
    destruct (lookup_lt_is_Some_2 (Sparse.els t) (Z.to_nat j)) as [x ->]; [lia|]. cbn [fmap option_fmap option_map]. rewrite Z2Nat.id, bool_decide_true by (done || lia). done.
  - intros [Hj Hl]. destruct (Sparse.els t !! Z.to_nat j) as [x|] eqn:Hx; [|done]. cbn [fmap option_fmap option_map] in Hl. rewrite Z2Nat.id in Hl by done.
    case_bool_decide; [done|]. injection Hl as ->. rewrite Forall_forall in He. by destruct (He FD_Invalid (list_elem_of_lookup_2 _ _ _ Hx)).
Qed.

(** Erasing the garbage one by one. *)
Lemma erase_garbage_spec c G1 G2 t s pc :
  filled t -> garbage_of (G1 ++ G2) t -> procs s !! c = Some pc -> Process.FileDescriptors pc = erased G1 t ->
  erase_garbage c G2 s = Done (with_procs (<[c := with_FileDescriptors (erased (G1 ++ G2) t) pc]> (procs s)) s).
Proof.
  intros Hf. revert G1 s pc. induction G2 as [|g G2 IH]; intros G1 s pc HG Hp Et.
  { cbn. rewrite app_nil_r, <- Et. replace (with_FileDescriptors (Process.FileDescriptors pc) pc) with pc by (by destruct pc).
    rewrite insert_id by done. by destruct s. }
  cbn [erase_garbage]. rewrite (proc_known c s pc Hp). cbn [mbind outcome_bind]. rewrite Et.
  assert (Hg : 0 <= g < Sparse.allocated_size t) by (apply HG; rewrite elem_of_app, elem_of_cons; auto).
  assert (Hg1 : g ∉ G1) by (destruct HG as [Hnd _]; apply NoDup_app in Hnd as (_ & Hd & _); intros Hin; apply (Hd g Hin); by left).
  unfold Sparse.allocated_size in Hg. destruct (lookup_lt_is_Some_2 (Sparse.els t) (Z.to_nat g)) as [x Hx]; [lia|].
  assert (Ee : Sparse.erase FD_Invalid g (erased G1 t) = Done (true, erased (G1 ++ [g]) t)).
  { unfold Sparse.erase, Sparse.allocated_size, Sparse.el. cbn [erased Sparse.els Sparse.idxs]. rewrite length_imap.
    rewrite (proj2 (Z.ltb_ge _ _)) by lia. rewrite list_lookup_imap, Hx. cbn [fmap option_fmap option_map deref mbind outcome_bind].
    rewrite Z2Nat.id, bool_decide_false by (done || lia).
    rewrite decide_False by (destruct Hf as [_ He]; rewrite Forall_forall in He; by eapply He, list_elem_of_lookup_2).
    unfold erased. do 3 f_equal. apply list_eq. intros j. rewrite list_lookup_imap.
    destruct (decide (j = Z.to_nat g)) as [->|Hne].
    - rewrite list_lookup_insert_eq by (rewrite length_imap; lia). rewrite Hx. cbn [fmap option_fmap option_map]. rewrite Z2Nat.id, bool_decide_true; [done| |lia].
      rewrite elem_of_app, list_elem_of_singleton. auto.
    - rewrite list_lookup_insert_ne, list_lookup_imap by done. destruct (Sparse.els t !! j) as [y|]; [|done]. cbn [fmap option_fmap option_map].
      assert (Eb : bool_decide (Z.of_nat j ∈ G1) = bool_decide (Z.of_nat j ∈ G1 ++ [g])); [|by rewrite Eb].
      apply bool_decide_ext. rewrite elem_of_app, list_elem_of_singleton. split; [auto|]. intros [?|E]; [done|lia]. }
  rewrite Ee. cbn [mbind outcome_bind]. unfold Vfs.set_descriptors. rewrite (modify_known c _ s pc Hp). cbn [mbind outcome_bind].
  rewrite (IH (G1 ++ [g]) _ (with_FileDescriptors (erased (G1 ++ [g]) t) pc)); [| |cbn; by rewrite lookup_insert_eq|done].
  - rewrite <- app_assoc. cbn. by rewrite insert_insert_eq.
  - by rewrite <- app_assoc.
Qed.

(** While descriptors are copied: [s] has the garbage, [sc] is [s] without it,
    and the copy [c] has the descriptors of [o] below [i]. *)
Record copying (o c i : Z) (G : list Z) (v : Vfs.vfs) (d : D) (s sc : sched) (pc : Process) : Prop := {
  cp_child : procs s !! c = Some pc;
  cp_filled : filled (Process.FileDescriptors pc);
  cp_size : Sparse.allocated_size (Process.FileDescriptors pc) <= i;
  cp_garbage : garbage_of G (Process.FileDescriptors pc);
  cp_clean : sc = with_procs (<[c := with_FileDescriptors (erased G (Process.FileDescriptors pc)) pc]> (procs s)) s;
  cp_ok : Vfs.ok None v d sc;
  cp_copied g : 0 <= g -> Vfs.open_file v sc c g = if decide (g < i) then Vfs.open_file v sc o g else None
}.

(** Only the table of [c] changed. *)
Definition only_table (c : Z) (s s' : sched) : Prop :=
  s' = with_procs (procs s') s /\ (forall b, b ≠ c -> procs s' !! b = procs s !! b) /\
  forall q, procs s !! c = Some q -> exists x, procs s' !! c = Some (with_FileDescriptors x q).

Lemma only_table_refl c s : only_table c s s.
Proof.
  split_and!; [by destruct s|done|]. intros q Hq. exists (Process.FileDescriptors q). rewrite Hq. by destruct q.
Qed.

Lemma only_table_trans c s1 s2 s3 : only_table c s1 s2 -> only_table c s2 s3 -> only_table c s1 s3.
Proof.
  intros (E1 & H1 & C1) (E2 & H2 & C2). split_and!.
  - rewrite E2, E1. by destruct s1.
  - intros b Hb. by rewrite H2, H1.
  - intros q Hq. destruct (C1 q Hq) as [x Hx]. destruct (C2 _ Hx) as [y Hy]. exists y. rewrite Hy. by destruct q.
Qed.

Lemma only_table_set c x s q : procs s !! c = Some q -> only_table c s (with_procs (<[c := with_FileDescriptors x q]> (procs s)) s).
Proof.
  intros Hq. split_and!; [done|intros b Hb; cbn; by rewrite lookup_insert_ne|]. intros q' Hq'. exists x. cbn. rewrite lookup_insert_eq. congruence.
Qed.

Lemma garbage_next G (t : Sparse.sparse_vector Z) x : garbage_of G t ->
  garbage_of (G ++ [Sparse.allocated_size t]) (Sparse.mkSparse (Sparse.els t ++ [x]) []) /\ garbage_of G (Sparse.mkSparse (Sparse.els t ++ [x]) []).
Proof.
  intros [Hnd HG]. unfold garbage_of, Sparse.allocated_size in *. cbn [Sparse.els]. rewrite length_app. cbn [length]. split_and!.
  - apply NoDup_app. split_and!; [done| |apply NoDup_singleton]. intros g Hg ->%list_elem_of_singleton. apply HG in Hg. lia.
  - intros g [Hg| ->%list_elem_of_singleton]%elem_of_app; [apply HG in Hg|]; lia.
  - done.
  - intros g Hg. apply HG in Hg. lia.
Qed.

(** Entries of the longer table. *)
Lemma longer_lookup (t : Sparse.sparse_vector Z) x j : 0 <= j ->
  Sparse.els (Sparse.mkSparse (Sparse.els t ++ [x]) []) !! Z.to_nat j =
  if decide (j = Sparse.allocated_size t) then Some x else Sparse.els t !! Z.to_nat j.
Proof.
  intros Hj. cbn [Sparse.els]. unfold Sparse.allocated_size. case_decide as E.
  - subst j. rewrite Nat2Z.id, lookup_app_r, Nat.sub_diag by lia. done.
  - destruct (decide (Z.to_nat j < length (Sparse.els t))%nat); [by rewrite lookup_app_l|].
    rewrite lookup_app_r by lia. rewrite (lookup_ge_None_2 (Sparse.els t)) by lia. apply lookup_ge_None_2. cbn. lia.
Qed.

Lemma past_end (t : Sparse.sparse_vector Z) : Sparse.els t !! Z.to_nat (Sparse.allocated_size t) = None.
Proof. apply lookup_ge_None_2. unfold Sparse.allocated_size. lia. Qed.

Lemma push_garbage_spec fuel o c i x G v d s sc pc :
  copying o c i G v d s sc pc -> x ≠ FD_Invalid -> i - Sparse.allocated_size (Process.FileDescriptors pc) < Z.of_nat fuel ->
  exists G' s' sc' pc', push_garbage fuel c i x G s = Done (G', s') /\ copying o c i G' v d s' sc' pc' /\
    Sparse.allocated_size (Process.FileDescriptors pc') = i /\ only_table c s s' /\
    forall b g, 0 <= g -> Vfs.open_file v sc' b g = Vfs.open_file v sc b g.
Proof.
  revert G s sc pc. induction fuel as [|fuel IH]; intros G s sc pc C Hx Hf; [pose proof (cp_size _ _ _ _ _ _ _ _ _ C); lia|].
  cbn [push_garbage]. rewrite (proc_known c s pc (cp_child _ _ _ _ _ _ _ _ _ C)). cbn [mbind outcome_bind].
  destruct (Z.ltb_spec (Sparse.allocated_size (Process.FileDescriptors pc)) i) as [Hlt|Hge].
  2: { exists G, s, sc, pc. split_and!; [done|done|pose proof (cp_size _ _ _ _ _ _ _ _ _ C); lia|apply only_table_refl|done]. }
  destruct C as [Hp Hfl Hs HG -> O Hc]. set (t := Process.FileDescriptors pc) in *.
  destruct (push_filled x t Hfl Hx) as [-> Hfl']. set (t' := Sparse.mkSparse _ _) in *.
  unfold Vfs.set_descriptors. rewrite (modify_known c _ s pc Hp). cbn [mbind outcome_bind negb].
  destruct (garbage_next G t x HG) as [HG' _]. set (G' := G ++ [Sparse.allocated_size t]) in *.
  set (s1 := with_procs (<[c := with_FileDescriptors t' pc]> (procs s)) s).
  set (sc1 := with_procs (<[c := with_FileDescriptors (erased G' t') (with_FileDescriptors t' pc)]> (procs s1)) s1).
  set (sc := with_procs (<[c := with_FileDescriptors (erased G t) pc]> (procs s)) s) in *.
  destruct (Vfs.table_change_ok None v d sc sc1 c (with_FileDescriptors (erased G t) pc) (erased G' t') O) as [O1 H1].
  - cbn. by rewrite lookup_insert_eq.
  - by apply erased_wf.
  - intros j Hj. cbn [Process.FileDescriptors with_FileDescriptors]. rewrite !erased_lookup by done.
    unfold t', G'. rewrite longer_lookup by done. destruct (decide (j = Sparse.allocated_size t)) as [->|Hne].
    + rewrite past_end, decide_True; [by destruct (decide (_ ∈ G))|]. rewrite elem_of_app, list_elem_of_singleton. auto.
    + destruct (decide (j ∈ G)) as [Hin|Hnin].
      * rewrite decide_True; [done|]. rewrite elem_of_app. auto.
      * rewrite decide_False; [done|]. rewrite elem_of_app, list_elem_of_singleton. tauto.
  - cbn. by rewrite !insert_insert_eq.
  - destruct (IH G' s1 sc1 (with_FileDescriptors t' pc)) as (G2 & s2 & sc2 & pc2 & E & C2 & Hsz & Ho & Hop).
    + split; try done.
      * cbn. by rewrite lookup_insert_eq.
      * cbn. unfold Sparse.allocated_size in *. cbn [t' Sparse.els]. rewrite length_app. cbn. lia.
      * intros g Hg. rewrite !H1 by done. by apply Hc.
    + done.
    + cbn. unfold Sparse.allocated_size in *. cbn [t' Sparse.els]. rewrite length_app. cbn. lia.
    + exists G2, s2, sc2, pc2. split_and!; [exact E|exact C2|exact Hsz|eapply only_table_trans; [by apply only_table_set|exact Ho]|].
      intros b g Hg. by rewrite Hop, H1.
Qed.

(** One descriptor of the original is copied. *)
Lemma copy_one_spec o c i G v d s sc pc x f :
  copying o c i G v d s sc pc -> o ≠ c -> c ≠ 0 -> 0 <= i -> Vfs.sysfd_of s o i = Some x -> Vfs.open_file v sc o i = Some f ->
  Sparse.allocated_size (Vfs.Files v) < 2 ^ 64 - 1 ->
  exists G' s1 fds v' s' sc' pc', push_garbage (S (Z.to_nat i)) c i x G s = Done (G', s1) /\
    Vfs.add_file (Vfs.file x v) c v (d, s1) = Done (fds, v', (d, s')) /\ copying o c (i + 1) G' v' d s' sc' pc' /\
    only_table c s s' /\ Sparse.allocated_size (Vfs.Files v') <= Sparse.allocated_size (Vfs.Files v) + 1 /\
    Vfs.metas v' = Vfs.metas v /\ (forall b g, 0 <= g -> b ≠ c -> Vfs.open_file v' sc' b g = Vfs.open_file v sc b g).
Proof.
  intros C Hoc Hc0 Hi Hs Ho Hsz.
  assert (Hx : x ≠ FD_Invalid).
  { unfold Vfs.sysfd_of in Hs. destruct (procs s !! o); [|done]. by apply Sparse.lookup_valid_ne in Hs as [? _]. }
  destruct (push_garbage_spec (S (Z.to_nat i)) o c i x G v d s sc pc C Hx) as (G' & s1 & sc1 & pc1 & E1 & C1 & Hn & Hot1 & Hop1).
  { unfold Sparse.allocated_size. lia. }
  destruct C1 as [Hp Hfl Hs1 HG Esc O Hcp]. set (t := Process.FileDescriptors pc1) in *.
  assert (Hsc : Vfs.sysfd_of sc1 o i = Some x).
  { unfold Vfs.sysfd_of in *. rewrite Esc. cbn. rewrite lookup_insert_ne by done. destruct Hot1 as (_ & Hb & _). by rewrite Hb. }
  assert (Hl : Sparse.lookup_valid 0 (Vfs.Files v) x = Some f).
  { rewrite <- (Hop1 o i Hi), Vfs.open_file_sysfd, Hsc in Ho. exact Ho. }
  destruct (Vfs.ok_mapped _ _ _ _ O o i x Hi Hsc) as [Hx0 _]. pose proof (Sparse.lookup_valid_ne _ _ _ _ Hl) as [Hf0 _].
  destruct (Sparse.push_back 0 f (Vfs.Files v)) as [[fd okf] fs] eqn:Ep.
  pose proof (Sparse.sparse_push_bound 0 f _ _ _ _ (Vfs.ok_files _ _ _ _ O) Ep Hf0) as Hb.
  assert (Hfdv : fd ≠ FD_Invalid) by (unfold FD_Invalid; lia). destruct (push_filled fd t Hfl Hfdv) as [Epb Hfl'].
  set (t' := Sparse.mkSparse _ _) in *. set (s' := with_procs (<[c := with_FileDescriptors t' pc1]> (procs s1)) s1).
  assert (Eadd : Vfs.add_file (Vfs.file x v) c v (d, s1) = Done (Vfs.mkFds (Sparse.allocated_size t) fd, Vfs.with_Files fs v, (d, s'))).
  { rewrite (Vfs.file_spec _ _ _ Hl). unfold Vfs.add_file. rewrite (proj2 (Z.eqb_neq c 0) Hc0), Ep. cbn [mbind outcome_bind].
    rewrite (proc_known c s1 pc1 Hp). cbn [mbind outcome_bind]. fold t. rewrite Epb. unfold Vfs.set_descriptors.
    by rewrite (modify_known c _ s1 pc1 Hp). }
  set (sc' := with_procs (<[c := with_FileDescriptors (erased G' t') (with_FileDescriptors t' pc1)]> (procs s')) s').
  destruct (garbage_next G' t fd HG) as [_ HG'].
  assert (Hnog : i ∉ G') by (intros Hin; apply HG in Hin; lia).
  assert (Hels : Sparse.els t !! Z.to_nat i = None) by (rewrite <- Hn; apply past_end).
  destruct (Vfs.add_entry_ok f c v d sc1 sc' (with_FileDescriptors (erased G' t) pc1) fd okf fs (erased G' t') i) as (O' & _ & R).
  { by eapply Vfs.ok_again. } { done. } { rewrite Esc. cbn. by rewrite lookup_insert_eq. } { done. } { by apply erased_wf. } { done. }
  { cbn. rewrite erased_lookup, decide_False by done. done. }
  { intros j Hj. cbn [Process.FileDescriptors with_FileDescriptors]. rewrite !erased_lookup by done. unfold t'. rewrite longer_lookup by done. rewrite Hn.
    destruct (decide (j = i)) as [->|]; [by rewrite decide_False|done]. }
  { rewrite Esc. cbn. by rewrite !insert_insert_eq. }
  exists G', s1, (Vfs.mkFds (Sparse.allocated_size t) fd), (Vfs.with_Files fs v), s', sc', (with_FileDescriptors t' pc1).
  assert (Hother : forall b g, 0 <= g -> b ≠ c -> Vfs.open_file (Vfs.with_Files fs v) sc' b g = Vfs.open_file v sc b g).
  { intros b g Hg Hbc. rewrite (R b g Hg), decide_False by tauto. by apply Hop1. }
  split_and!; [exact E1|exact Eadd| |eapply only_table_trans; [exact Hot1|by apply only_table_set]|by eapply Sparse.sparse_push_size|done|exact Hother].
  split; try done.
  - cbn. by rewrite lookup_insert_eq.
  - cbn. unfold Sparse.allocated_size in *. cbn [t' Sparse.els]. rewrite length_app. cbn. lia.
  - intros g Hg. rewrite (R c g Hg), (Hother o g Hg) by done. destruct (decide (g = i)) as [->|Hne].
    + rewrite !decide_True by (done || lia). done.
    + rewrite decide_False, Hcp, (Hop1 o g Hg) by tauto. repeat case_decide; try done; lia.
Qed.

(** The loop over the descriptors of the original. *)
Lemma copy_descriptors_spec l o c i G v d s sc pc po :
  copying o c i G v d s sc pc -> o ≠ c -> c ≠ 0 -> 0 <= i -> procs s !! o = Some po ->
  drop (Z.to_nat i) (Sparse.els (Process.FileDescriptors po)) = l ->
  Sparse.allocated_size (Vfs.Files v) + Z.of_nat (length l) < 2 ^ 64 - 1 ->
  exists G' v' s' sc' pc', copy_descriptors c (Sparse.pairs_from FD_Invalid i l) G v (d, s) = Done (G', v', (d, s')) /\
    copying o c (i + Z.of_nat (length l)) G' v' d s' sc' pc' /\ only_table c s s' /\ Vfs.metas v' = Vfs.metas v /\
    (forall b g, 0 <= g -> b ≠ c -> Vfs.open_file v' sc' b g = Vfs.open_file v sc b g).
Proof.
  revert i G v s sc pc. induction l as [|x l IH]; intros i G v s sc pc C Hoc Hc0 Hi Hpo Hl Hsz.
  { exists G, v, s, sc, pc. cbn. rewrite Z.add_0_r. split_and!; [done|done|apply only_table_refl|done|done]. }
  assert (Hx : Sparse.els (Process.FileDescriptors po) !! Z.to_nat i = Some x) by (rewrite <- (Nat.add_0_r (Z.to_nat i)), <- lookup_drop, Hl; done).
  assert (Hl' : drop (Z.to_nat (i + 1)) (Sparse.els (Process.FileDescriptors po)) = l).
  { rewrite Z2Nat.inj_add, <- drop_drop, Hl by lia. done. }
  assert (Hsys : Vfs.sysfd_of s o i = if decide (x = FD_Invalid) then None else Some x).
  { unfold Vfs.sysfd_of. rewrite Hpo. cbn. unfold Sparse.lookup_valid. by rewrite Sparse.get_spec, Hx. }
  assert (Hsc : Vfs.sysfd_of sc o i = Vfs.sysfd_of s o i).
  { unfold Vfs.sysfd_of. rewrite (cp_clean _ _ _ _ _ _ _ _ _ C). cbn. by rewrite lookup_insert_ne. }
  cbn [Sparse.pairs_from length] in *. destruct (decide (x = FD_Invalid)) as [->|Hxv]; cbn [app].
  - destruct (IH (i + 1) G v s sc pc) as (G' & v' & s' & sc' & pc' & E & C' & H3); try done; [|lia|lia|].
    + destruct C as [A B S Gd Cl O Cp]. split; try done; [lia|]. intros g Hg. rewrite (Cp g Hg).
      destruct (decide (g = i)) as [->|Hne]; [|repeat case_decide; try done; lia].
      rewrite (decide_False (P := i < i)), decide_True by lia. by rewrite Vfs.open_file_sysfd, Hsc, Hsys.
    + exists G', v', s', sc', pc'. replace (i + Z.of_nat (S (length l))) with (i + 1 + Z.of_nat (length l)) by lia. split; [exact E|]. by split.
  - cbn [copy_descriptors snd fst]. rewrite Hsys in Hsc. destruct (Vfs.ok_mapped _ _ _ _ (cp_ok _ _ _ _ _ _ _ _ _ C) o i x Hi Hsc) as [_ [f Hf]].
    destruct (copy_one_spec o c i G v d s sc pc x f C Hoc Hc0 Hi Hsys) as (G1 & s1 & fds & v1 & s2 & sc2 & pc2 & E1 & E2 & C2 & Ho2 & Hs2 & Hm2 & Hop2);
      [by rewrite Vfs.open_file_sysfd, Hsc|lia|].
    rewrite E1. cbn [mbind outcome_bind]. rewrite E2. cbn [mbind outcome_bind].
    destruct (IH (i + 1) G1 v1 s2 sc2 pc2 C2) as (G' & v' & s' & sc' & pc' & E & C' & Ho' & Hm' & Hop'); try done; [lia| |lia|].
    + destruct Ho2 as (_ & Hb & _). by rewrite Hb.
    + exists G', v', s', sc', pc'. replace (i + Z.of_nat (S (length l))) with (i + 1 + Z.of_nat (length l)) by lia.
      split_and!; [exact E|exact C'|by eapply only_table_trans|congruence|]. intros b g Hg Hb. by rewrite Hop', Hop2.
Qed.

(** ** Copying a process *)

(** The copies of the regions [rs] in front of [acc], and what copying does to
    memory; it stops where copying is given up. *)
Fixpoint copied_regions (root : Z) (rs acc : list Region) (st : mem * pmm) : outcome (list Region * (mem * pmm)) :=
  match rs with
  | [] => Done (acc, st)
  | r :: rs =>
      '(pa, fr) ← request_pages (pages r) st.2;
      if pa =? 0 then Stop Panicked
      else
        st ← map_pages root (vaddr r) pa user_page_flags (pages r) (MemRoutines.memcpy pa (paddr r) (rlength r) st.1, fr);
        copied_regions root rs (region (vaddr r) pa (rlength r) (rflags r) :: acc) st
  end.

Definition copied_space (cr3 : Z) (rs : list Region) (st : mem * pmm) : outcome (Z * list Region * (mem * pmm)) :=
  '(root, st) ← clone_page_map cr3 st;
  if root =? 0 then Stop Panicked
  else
    st ← map root root root (Z.lor (flag_value Present) (flag_value ReadWrite)) st;
    '(rs, st) ← copied_regions root rs [] st;
    Done (root, rs, st).

Lemma copy_regions_spec c root rs (k : kern) pc rs' st :
  procs (k_sched k) !! c = Some pc -> copied_regions root rs (Memories pc) (k_mem k, k_frames k) = Done (rs', st) ->
  copy_regions c root rs k =
  Done (with_sched (with_procs (<[c := with_Memories rs' pc]> (procs (k_sched k))) (k_sched k)) (with_memory st k)).
Proof.
  revert k pc. induction rs as [|r rs IH]; intros [v d s fr m um hw] pc Hp; cbn [k_sched k_mem k_frames copied_regions copy_regions] in *.
  { intros [= <- <-]. cbn. replace (with_Memories (Memories pc) pc) with pc by (by destruct pc). rewrite insert_id by done. by destruct s. }
  unfold copy_region. cbn [snd fst k_frames k_mem k_sched].
  destruct (request_pages _ fr) as [[pa fr1]|]; [|done]. cbn [mbind outcome_bind]. destruct (pa =? 0); [done|].
  destruct (map_pages _ _ _ _ _ _) as [st1|]; [|done]. cbn [mbind outcome_bind]. intros H.
  rewrite (modify_known c _ s pc Hp). cbn [mbind outcome_bind].
  rewrite (IH _ (add_memory_region_of (mkRegion (vaddr r) pa (rlength r) (pages r) (rflags r)) pc)).
  - destruct st1. cbn. by rewrite insert_insert_eq.
  - cbn. by rewrite lookup_insert_eq.
  - destruct st1. exact H.
Qed.

(** A process that has no descriptors yet. *)
Lemma add_blank_ok v d s s' c q :
  Vfs.ok None v d s -> procs s !! c = None -> procs s' = <[c := q]> (procs s) -> Process.FileDescriptors q = Sparse.empty ->
  Vfs.ok None v d s' /\ (forall b g, Vfs.open_file v s' b g = Vfs.open_file v s b g) /\ forall g, Vfs.open_file v s c g = None.
Proof.
  intros O Hn Es Eq. assert (He : forall g, Sparse.lookup_valid FD_Invalid Sparse.empty g = None).
  { intros g. unfold Sparse.lookup_valid, Sparse.get. cbn [Sparse.empty Sparse.els]. rewrite lookup_nil. by destruct (_ <=? _). }
  assert (Hsys : forall b g, Vfs.sysfd_of s' b g = Vfs.sysfd_of s b g).
  { intros b g. unfold Vfs.sysfd_of. rewrite Es. destruct (decide (b = c)) as [->|Hne]; [|by rewrite lookup_insert_ne].
    rewrite lookup_insert_eq, Hn. cbn. by rewrite Eq. }
  split_and!.
  - split; try apply O.
    + intros b p. rewrite Es. destruct (decide (b = c)) as [->|Hne]; [rewrite lookup_insert_eq; intros [= <-]; rewrite Eq; apply Sparse.sparse_empty_wf|].
      rewrite lookup_insert_ne by done. by apply O.
    + intros b g x Hg. rewrite Hsys. by apply O.
    + intros b g b' g' x H1 H2. rewrite !Hsys. by apply O.
    + intros i Hi Hx. destruct (Vfs.ok_owned _ _ _ _ O i Hi Hx) as (b & g & Hg & Hs). exists b, g. by rewrite Hsys.
  - intros b g. by rewrite !Vfs.open_file_sysfd, Hsys.
  - intros g. unfold Vfs.open_file. by rewrite Hn.
Qed.

(** The descriptor part of the copy: the process at [c] gets the descriptors of
    the one at [o]. *)
Lemma share_descriptors_spec o c v d s po pc :
  Vfs.ok None v d s -> o ≠ c -> c ≠ 0 -> procs s !! o = Some po -> procs s !! c = Some pc -> Process.FileDescriptors pc = Sparse.empty ->
  Sparse.allocated_size (Vfs.Files v) + Sparse.allocated_size (Process.FileDescriptors po) < 2 ^ 64 - 1 ->
  exists G v' s1 s' x, copy_descriptors c (Sparse.pairs FD_Invalid (Process.FileDescriptors po)) [] v (d, s) = Done (G, v', (d, s1)) /\
    erase_garbage c G s1 = Done s' /\ Vfs.ok None v' d s' /\ Vfs.metas v' = Vfs.metas v /\
    s' = with_procs (<[c := with_FileDescriptors x pc]> (procs s)) s /\
    (forall g, 0 <= g -> Vfs.open_file v' s' c g = Vfs.open_file v s o g) /\
    (forall b g, 0 <= g -> b ≠ c -> Vfs.open_file v' s' b g = Vfs.open_file v s b g).
Proof.
  intros O Hoc Hc0 Hpo Hpc Et Hsz.
  assert (Es : with_procs (<[c := with_FileDescriptors (erased [] (Process.FileDescriptors pc)) pc]> (procs s)) s = s).
  { rewrite Et. replace (with_FileDescriptors (erased [] Sparse.empty) pc) with pc by (destruct pc; cbn in *; by rewrite Et).
    rewrite insert_id by done. by destruct s. }
  assert (C0 : copying o c 0 [] v d s s pc).
  { split; [done|rewrite Et; split; [done|constructor]|by rewrite Et| | |done|].
    - split; [constructor|]. intros g Hg. by apply not_elem_of_nil in Hg.
    - symmetry. exact Es.
    - intros g Hg. rewrite decide_False by lia. unfold Vfs.open_file. rewrite Hpc. cbn. rewrite Et.
      unfold Sparse.lookup_valid, Sparse.get. cbn [Sparse.empty Sparse.els]. rewrite lookup_nil. by destruct (_ <=? _). }
  destruct (copy_descriptors_spec (Sparse.els (Process.FileDescriptors po)) o c 0 [] v d s s pc po C0 Hoc Hc0 ltac:(lia) Hpo eq_refl Hsz)
    as (G & v' & s1 & sc & pc1 & E & C & Ho & Hm & Hop).
  pose proof (cp_clean _ _ _ _ _ _ _ _ _ C) as Ec. pose proof (cp_child _ _ _ _ _ _ _ _ _ C) as Hp1.
  destruct Ho as (E1 & Hb & Hc). destruct (Hc pc Hpc) as [y Hy]. rewrite Hp1 in Hy. injection Hy as ->.
  exists G, v', s1, sc, (erased G y). split_and!; [exact E| |apply C|exact Hm| | |].
  - rewrite (erase_garbage_spec c [] G y s1 (with_FileDescriptors y pc)); [by rewrite Ec|apply C|apply C|exact Hp1|].
    destruct y as [els ids]. pose proof (cp_filled _ _ _ _ _ _ _ _ _ C) as [Hi _]. cbn in Hi. subst ids. unfold erased. cbn [Process.FileDescriptors with_FileDescriptors Sparse.els].
    f_equal. apply list_eq. intros j. rewrite list_lookup_imap. by destruct (els !! j).
  - rewrite Ec, E1. unfold with_procs. cbn. f_equal. apply map_eq. intros b. destruct (decide (b = c)) as [->|Hne].
    + rewrite !lookup_insert_eq. by destruct pc.
    + rewrite !lookup_insert_ne by done. by apply Hb.
  - intros g Hg. rewrite (cp_copied _ _ _ _ _ _ _ _ _ C g Hg), Hop by done. case_decide as Hlt; [done|].
    unfold Vfs.open_file. rewrite Hpo. cbn. destruct (Sparse.lookup_valid _ _ g) as [z|] eqn:Ez; [|done].
    apply Sparse.lookup_valid_allocated in Ez; [|done]. unfold Sparse.allocated_size in Ez. lia.
  - intros b g Hg Hne. by apply Hop.
Qed.

Lemma pids_ok_ext s s' ps :
  pids_ok s ps -> the_pid s' = the_pid s -> (forall b, ProcessID <$> procs s' !! b = ProcessID <$> procs s !! b) -> pids_ok s' ps.
Proof.
  intros [Hb Hi] Ep H. assert (Hq : forall b q', procs s' !! b = Some q' -> exists q, procs s !! b = Some q /\ ProcessID q = ProcessID q').
  { intros b q' Hq'. specialize (H b). rewrite Hq' in H. destruct (procs s !! b) as [q|]; [|done]. exists q. injection H as H. by split. }
  split.
  - intros b q' Hin Hq'. destruct (Hq b q' Hq') as (q & Hq0 & <-). rewrite Ep. by eapply Hb.
  - intros b b' q q' H1 H2 Hx Hy E. destruct (Hq b q Hx) as (x & Hx0 & Ex), (Hq b' q' Hy) as (y & Hy0 & Ey). eapply (Hi b b' x y); congruence.
Qed.

(** What the copy is. *)
Record forked (k k' : kern) (o : Process) (c pid root : Z) (rs : list Region) (child : Process) : Prop := {
  fk_ok : Vfs.ok None (k_vfs k') (k_drivers k') (k_sched k');
  fk_files g : 0 <= g -> Vfs.open_file (k_vfs k') (k_sched k') c g =
    (p ← Sparse.lookup_valid FD_Invalid (Process.FileDescriptors o) g; Sparse.lookup_valid 0 (Vfs.Files (k_vfs k)) p);
  fk_other_files b g : 0 <= g -> b ≠ c -> Vfs.open_file (k_vfs k') (k_sched k') b g = Vfs.open_file (k_vfs k) (k_sched k) b g;
  fk_metas : Vfs.metas (k_vfs k') = Vfs.metas (k_vfs k);
  fk_drivers : k_drivers k' = k_drivers k;
  fk_child : procs (k_sched k') !! c = Some child;
  fk_others b : b ≠ c -> procs (k_sched k') !! b = procs (k_sched k) !! b;
  fk_pid : ProcessID child = pid;
  fk_parent : ParentProcess child = ProcessID o;
  fk_state : State child = RUNNING;
  fk_cpu : CPU child = with_RAX 0 (CPU o);
  fk_memories : Memories child = rs;
  fk_cr3 : CR3 child = root;
  fk_rest : next_region_vaddr child = next_region_vaddr o /\ ExecutablePath child = ExecutablePath o /\ WorkingDirectory child = WorkingDirectory o
}.

(** The new process in the queue. *)
Lemma blank_added s ns ps c blank :
  queue_ok s ns ps -> pids_ok s ps -> c ≠ 0 -> procs s !! c = None ->
  0 <= the_pid s < 2 ^ 64 - 1 -> SLL.Length (ProcessQueue s) < 2 ^ 64 - 2 ->
  exists s1 n, add_process c (with_procs (<[c := blank]> (procs s)) s) = Done (the_pid s + 1, s1) /\
    queue_ok s1 (ns ++ [n]) (ps ++ [c]) /\ pids_ok s1 (ps ++ [c]) /\ procs s1 = <[c := with_ProcessID (the_pid s + 1) blank]> (procs s).
Proof.
  intros Q P Hc0 Hnc Hpid Hlen. set (s0 := with_procs (<[c := blank]> (procs s)) s).
  assert (Hna : c ∉ ps) by (intros Hin; destruct (qo_procs _ _ _ Q c Hin) as [_ [q Hq]]; congruence).
  assert (Q0 : queue_ok s0 ns ps).
  { apply queue_ok_with_procs; [done|]. intros b [q Hb]. rewrite lookup_insert_ne; [by eexists|]. intros <-. congruence. }
  assert (P0 : pids_ok s0 ps).
  { destruct P as [Hb Hi]. split; intros *; cbn; intros; rewrite lookup_insert_ne in * by (intros <-; done); eauto. }
  destruct (add_process_spec s0 ns ps c blank Q0 P0) as (s1 & n & E & Q1 & P1 & E1 & _ & _); [cbn; by rewrite lookup_insert_eq|done|done|done|done|].
  exists s1, n. split_and!; try done. rewrite E1. cbn. by rewrite insert_insert_eq.
Qed.

Lemma fork_spec original c (k : kern) ns ps o root rs st :
  Vfs.ok None (k_vfs k) (k_drivers k) (k_sched k) -> queue_ok (k_sched k) ns ps -> pids_ok (k_sched k) ps ->
  procs (k_sched k) !! original = Some o -> c ≠ 0 -> procs (k_sched k) !! c = None ->
  0 <= the_pid (k_sched k) < 2 ^ 64 - 1 -> SLL.Length (ProcessQueue (k_sched k)) < 2 ^ 64 - 2 ->
  Sparse.allocated_size (Vfs.Files (k_vfs k)) + Sparse.allocated_size (Process.FileDescriptors o) < 2 ^ 64 - 1 ->
  copied_space (CR3 o) (Memories o) (k_mem k, k_frames k) = Done (root, rs, st) ->
  exists k' n child, CopyUserspaceProcess original c k = Done (the_pid (k_sched k) + 1, k') /\
    forked k k' o c (the_pid (k_sched k) + 1) root rs child /\ queue_ok (k_sched k') (ns ++ [n]) (ps ++ [c]) /\
    pids_ok (k_sched k') (ps ++ [c]) /\ (k_mem k', k_frames k') = st.
Proof.
  destruct k as [v d s fr m um hw]. cbn [k_vfs k_drivers k_sched k_frames k_mem]. intros O Q P Ho Hc0 Hnc Hpid Hlen Hsz Hsp.
  assert (Hoc : original ≠ c) by congruence.
  unfold CopyUserspaceProcess. cbn [k_sched].
  destruct (blank_added s ns ps c (with_State SLEEPING new_process) Q P Hc0 Hnc Hpid Hlen) as (s1 & n & -> & Q1 & P1 & E1). cbn [mbind outcome_bind].
  assert (Ho1 : procs s1 !! original = Some o) by (rewrite E1, lookup_insert_ne by done; done).
  assert (Hp1 : procs s1 !! c = Some (with_ProcessID (the_pid s + 1) (with_State SLEEPING new_process))) by (rewrite E1; by rewrite lookup_insert_eq).
  rewrite (proc_known original s1 o Ho1). cbn [mbind outcome_bind]. rewrite (modify_known c _ s1 _ Hp1). cbn [mbind outcome_bind with_sched k_mem k_frames].
  unfold copied_space in Hsp. destruct (clone_page_map (CR3 o) (m, fr)) as [[r st1]|]; [|done]. cbn [mbind outcome_bind] in Hsp |- *.
  destruct (r =? 0); [done|]. cbn [with_memory k_sched k_mem k_frames].
  rewrite (modify_known c _ _ (with_ParentProcess (ProcessID o) (with_ProcessID (the_pid s + 1) (with_State SLEEPING new_process))));
    [|cbn; by rewrite lookup_insert_eq]. cbn [mbind outcome_bind]. rewrite <- surjective_pairing.
  destruct (map r r r _ st1) as [st2|]; [|done]. cbn [mbind outcome_bind] in Hsp |- *.
  destruct (copied_regions r (Memories o) [] st2) as [[rs' st3]|] eqn:Ecr; [|done]. cbn [mbind outcome_bind] in Hsp. injection Hsp as -> -> ->.
  cbn [with_sched with_memory k_sched with_procs procs]. rewrite insert_insert_eq. set (p2 := with_CR3 root _).
  rewrite (copy_regions_spec c root (Memories o) _ p2 rs st); [|cbn; by rewrite lookup_insert_eq|cbn; by rewrite <- surjective_pairing].
  cbn [mbind outcome_bind with_sched with_memory k_sched k_vfs k_drivers with_procs procs files]. rewrite insert_insert_eq.
  set (s3 := with_procs _ _). rewrite (proc_known original s3 o) by (cbn; rewrite lookup_insert_ne by done; done). cbn [mbind outcome_bind].
  assert (E3 : procs s3 = <[c := with_Memories rs p2]> (procs s)) by (cbn; rewrite E1; by rewrite insert_insert_eq).
  destruct (add_blank_ok v d s s3 c (with_Memories rs p2) O Hnc E3 eq_refl) as (O3 & Hop3 & _).
  destruct (share_descriptors_spec original c v d s3 o (with_Memories rs p2) O3 Hoc Hc0) as (G & v' & s4 & s5 & x & Ecd & Eer & O5 & Hm5 & E5 & Hsh & Hoth);
    [by rewrite E3, lookup_insert_ne|by rewrite E3, lookup_insert_eq|done|done|].
  unfold files. cbn [k_drivers k_sched with_sched with_memory]. rewrite Ecd. cbn [mbind outcome_bind]. rewrite Eer. cbn [mbind outcome_bind].
  assert (E5p : procs s5 = <[c := with_FileDescriptors x (with_Memories rs p2)]> (procs s)) by (rewrite E5; cbn; rewrite E1; by rewrite !insert_insert_eq).
  rewrite (proc_known original s5 o) by (rewrite E5p, lookup_insert_ne by done; done). cbn [mbind outcome_bind].
  rewrite (modify_known c _ s5 (with_FileDescriptors x (with_Memories rs p2))) by (rewrite E5p; by rewrite lookup_insert_eq). cbn [mbind outcome_bind].
  set (child := finish_copy o (with_FileDescriptors x (with_Memories rs p2))).
  eexists _, n, child. split; [reflexivity|]. cbn [with_files k_sched k_vfs k_drivers k_mem k_frames fst snd].
  assert (T6 : same_tables s5 (with_procs (<[c := child]> (procs s5)) s5)) by (apply (same_tables_update c (finish_copy o) (with_FileDescriptors x (with_Memories rs p2))); rewrite ?E5p, ?lookup_insert_eq; done).
  split; [|split; [|split]].
  - split; cbn [k_vfs k_sched k_drivers with_files with_sched with_memory fst snd]; try done.
    + by eapply same_tables_ok.
    + intros g Hg. rewrite (same_tables_open v' s5 _ c g T6), (Hsh g Hg), Hop3. unfold Vfs.open_file. by rewrite Ho.
    + intros b g Hg Hb. by rewrite (same_tables_open v' s5 _ b g T6), (Hoth b g Hg Hb), Hop3.
    + cbn. by rewrite lookup_insert_eq.
    + intros b Hb. cbn. rewrite lookup_insert_ne, E5p, lookup_insert_ne by done. done.
  - rewrite E5. eapply update_queue_ok; [exact Q1|done|]. intros b Hb. cbn.
    destruct (decide (b = c)) as [->|]; [by rewrite lookup_insert_eq|]. by rewrite !lookup_insert_ne.
  - eapply pids_ok_ext; [exact P1|by rewrite E5|]. intros b. rewrite E5. cbn. destruct (decide (b = c)) as [->|]; [|by rewrite !lookup_insert_ne].
    rewrite lookup_insert_eq, Hp1. done.
  - by destruct st.
Qed.

(** ** Claims *)

(** C16: When a process is removed, nothing of it is left and nothing else is lost:
    its object and its place in the queue go, exactly the pages of its memory
    regions are unlocked, and its page map is recorded to be freed. All its
    descriptors are closed: the entries left in the table of files are those of the
    descriptors of other processes, none of which changes, and the metadata of a
    file is left exactly if another process has it open or a read that waited still
    refers to it. Its parent gets a zombie with the exit status, every process that waits for it
    becomes runnable, and other processes change at most by being woken. *)
Theorem exit_releases_everything pid status k ns ps i a p :
  Vfs.ok None (k_vfs k) (k_drivers k) (k_sched k) -> queue_ok (k_sched k) ns ps -> pids_ok (k_sched k) ps -> NoDup ps -> (2 <= length ps)%nat ->
  ps !! i = Some a -> procs (k_sched k) !! a = Some p -> ProcessID p = pid ->
  pmm_wf (k_frames k) -> Forall (region_held (k_frames k)) (Memories p) -> NoDup (Memories p ≫= region_pages) ->
  exists k', remove_process pid status k = Done (true, k') /\
    Vfs.ok None (k_vfs k') (k_drivers k') (k_sched k') /\
    queue_ok (k_sched k') (delete i ns) (delete i ps) /\ procs (k_sched k') !! a = None /\
    pmm_wf (k_frames k') /\
    (forall q, 0 <= q -> locked (k_frames k') q = locked (k_frames k) q && negb (bool_decide (q ∈ Memories p ≫= region_pages))) /\
    (forall b g, 0 <= g -> Vfs.open_file (k_vfs k') (k_sched k') b g =
       if decide (b = a) then None else Vfs.open_file (k_vfs k) (k_sched k) b g) /\
    (forall j, 0 <= j -> is_Some (Sparse.lookup_valid 0 (Vfs.Files (k_vfs k')) j) <->
       exists b g, b ≠ a /\ 0 <= g /\ Vfs.sysfd_of (k_sched k') b g = Some j) /\
    (forall m, is_Some (Store.objs (Vfs.metas (k_vfs k')) !! m) <->
       m ≠ 0 /\ ((exists b g, b ≠ a /\ 0 <= g /\ Vfs.open_file (k_vfs k) (k_sched k) b g = Some m) \/ m ∈ Vfs.Held (k_vfs k))) /\
    PageMapsToFree (k_sched k') = PageMapsToFree (k_sched k) ++ [CR3 p] /\
    (forall b q, b ≠ a -> procs (k_sched k) !! b = Some q -> exists q', procs (k_sched k') !! b = Some q' /\
       Vfs.kept (told (k_sched k) (delete i ps) p status b q) q').
Proof.
  intros O Q P Hnd H2 Hi Hp Hpid W Hh Hdis.
  destruct (remove_process_spec pid status k ns ps i a p O Q P Hnd H2 Hi Hp Hpid) as (k' & E & R).
  destruct (free_regions_spec (Memories p) (k_frames k) W Hh Hdis) as [W' Hl].
  exists k'. rewrite (rm_frames _ _ _ _ _ _ _ _ R). split_and!; try done; try apply R.
  - intros j Hj. by apply (removed_entries _ _ _ _ _ _ _ _ j R).
  - intros m. by apply (removed_metas _ _ _ _ _ _ _ _ m R).
Qed.

(** C18: [CopyUserspaceProcess] makes a process that differs from the original only
    in its identifier, its parent and the result of the call: it is queued last
    under a fresh identifier, every descriptor of the original, whatever holes
    its table has, refers to the same file in the copy and nothing else is open
    in it, no descriptor and no process besides it changes, and it runs with the
    original's registers and a result of 0 on the copied address space. *)
Theorem fork_copies_the_process original c (k : kern) ns ps o root rs st :
  Vfs.ok None (k_vfs k) (k_drivers k) (k_sched k) -> queue_ok (k_sched k) ns ps -> pids_ok (k_sched k) ps ->
  procs (k_sched k) !! original = Some o -> c ≠ 0 -> procs (k_sched k) !! c = None ->
  0 <= the_pid (k_sched k) < 2 ^ 64 - 1 -> SLL.Length (ProcessQueue (k_sched k)) < 2 ^ 64 - 2 ->
  Sparse.allocated_size (Vfs.Files (k_vfs k)) + Sparse.allocated_size (Process.FileDescriptors o) < 2 ^ 64 - 1 ->
  copied_space (CR3 o) (Memories o) (k_mem k, k_frames k) = Done (root, rs, st) ->
  exists k' n child, CopyUserspaceProcess original c k = Done (the_pid (k_sched k) + 1, k') /\
    Vfs.ok None (k_vfs k') (k_drivers k') (k_sched k') /\
    queue_ok (k_sched k') (ns ++ [n]) (ps ++ [c]) /\ pids_ok (k_sched k') (ps ++ [c]) /\
    (forall b g, 0 <= g -> Vfs.open_file (k_vfs k') (k_sched k') b g =
       Vfs.open_file (k_vfs k) (k_sched k) (if decide (b = c) then original else b) g) /\
    procs (k_sched k') !! c = Some child /\ (forall b, b ≠ c -> procs (k_sched k') !! b = procs (k_sched k) !! b) /\
    ProcessID child = the_pid (k_sched k) + 1 /\ ParentProcess child = ProcessID o /\ State child = RUNNING /\
    CPU child = with_RAX 0 (CPU o) /\ Memories child = rs /\ CR3 child = root /\ (k_mem k', k_frames k') = st.
Proof.
  intros O Q P Ho Hc0 Hnc Hpid Hlen Hsz Hsp.
  destruct (fork_spec original c k ns ps o root rs st O Q P Ho Hc0 Hnc Hpid Hlen Hsz Hsp) as (k' & n & child & E & F & Q' & P' & Est).
  exists k', n, child. split_and!; try done; try apply F. intros b g Hg. case_decide as Eb.
  - subst b. rewrite (fk_files _ _ _ _ _ _ _ _ F g Hg). unfold Vfs.open_file. by rewrite Ho.
  - by apply F.
Qed.

End Spec.

End Life.
