(* ===== verification/ForkMemory.v ===== *)
(** * The memory of a forked process

    [CopyUserspaceProcess] (src/kernel/src/scheduler.cpp) clones the page map of
    the original and gives every memory region new frames with a copy of its
    bytes. Here is what that amounts to: the two processes see the same bytes at
    the same addresses and share no frame of a region. *)

From S2P Require Import Prelude PhysMem Bitmap FrameAlloc Paging PageMap PageClone LinkedList SparseVector RingBuffer Event Process Scheduler.
From S2P Require Import FileMeta Vfs ProcessLife.

Module Fork.

Import Life.

(** A region whose frames are in use and whose pages are in the address space. *)
Record copyable (fr : pmm) (r : Region) : Prop := {
  co_held : region_held fr r;
  co_region : r = region (vaddr r) (paddr r) (rlength r) (rflags r);
  co_length : 0 < rlength r;
  co_aligned : vaddr r mod PAGE_SIZE = 0;
  co_nonneg : 0 <= vaddr r;
  co_top : vaddr r + pages r * PAGE_SIZE <= 2 ^ 48
}.

(** Regions on different pages of the address space. *)
Definition apart (r1 r2 : Region) : Prop :=
  vaddr r1 + pages r1 * PAGE_SIZE <= vaddr r2 \/ vaddr r2 + pages r2 * PAGE_SIZE <= vaddr r1.

(** The page map at [root] is being built; all that was in use in [fr0] is
    neither part of it nor changed since [m0]. *)
Record building (m0 : mem) (fr0 : pmm) (m : mem) (fr : pmm) (root : Z) : Prop := {
  bu_start : pmm_wf fr0;
  bu_frames : pmm_wf fr;
  bu_tree : tree_wf m fr root;
  bu_data f : frame_locked fr0 f -> data_frame m fr root f /\ same_bytes m0 m f
}.

(** [r'] is a copy of [r] in frames that were not in use. *)
Record private_copy (m0 : mem) (fr0 : pmm) (m : mem) (fr : pmm) (root : Z) (r r' : Region) : Prop := {
  pc_region : r' = region (vaddr r) (paddr r') (rlength r) (rflags r);
  pc_frames j : 0 <= j < pages r -> data_frame m fr root (paddr r' + j * PAGE_SIZE);
  pc_fresh j : 0 <= j < pages r -> ~ frame_locked fr0 (paddr r' + j * PAGE_SIZE);
  pc_bytes x : 0 <= x < rlength r -> read8 m (paddr r' + x) = read8 m0 (paddr r + x);
  pc_mapped j : 0 <= j < pages r -> exists e, translate m root (vaddr r + j * PAGE_SIZE) = Some e /\
    Pde.address e = paddr r' + j * PAGE_SIZE /\ forall f, f ∈ mapping_flags -> Pde.flag e f = Pde.flag user_page_flags f
}.

Lemma copyable_pages fr r : copyable fr r -> 1 <= pages r /\ rlength r <= pages r * PAGE_SIZE.
Proof.
  intros C. pose proof (Process.region_pages (vaddr r) (paddr r) (rlength r) (rflags r) ltac:(pose proof (co_length _ _ C); lia)) as H.
  rewrite <- (co_region _ _ C) in H. pose proof (co_length _ _ C). unfold PAGE_SIZE in *. lia.
Qed.

Lemma copyable_sizes fr rs : Forall (copyable fr) rs -> Forall (fun r => 1 <= pages r) rs.
Proof. intros H. eapply Forall_impl; [exact H|]. intros r C. by apply (copyable_pages fr r C). Qed.

Lemma held_frame fr r j : region_held fr r -> 0 <= j < pages r -> frame_locked fr (paddr r + j * PAGE_SIZE).
Proof.
  intros [Ha H0 _ _ Hl] Hj. exists (paddr r / PAGE_SIZE + j). unfold PAGE_SIZE in *. split_and!; [dlia|dlia|].
  apply Hl, elem_of_region_pages. unfold PAGE_SIZE. lia.
Qed.

Lemma locked_frame fr a : frame_locked fr a -> locked fr (a / PAGE_SIZE) = true /\ a mod PAGE_SIZE = 0.
Proof. intros (q & Hq & -> & Hl). by rewrite Z.div_mul, Z.mod_mul by done. Qed.

Lemma locked_frame_address fr a : pmm_wf fr -> frame_locked fr a -> frame_address a.
Proof.
  intros W (q & Hq & -> & Hl). pose proof (locked_in_range _ _ Hl). pose proof (wf_capacity _ W). unfold frame_address, PAGE_SIZE.
  split; [lia|]. by rewrite Z.mod_mul.
Qed.

(** ** Writing to frames nobody uses *)

Section Step.
Context (fr fr1 : pmm) (pa n : Z).
Hypothesis G : run_got fr fr1 pa n.

Lemma got_frame j : 0 <= j < n -> frame_address (pa + j * PAGE_SIZE) /\ frame_locked fr1 (pa + j * PAGE_SIZE) /\ ~ frame_locked fr (pa + j * PAGE_SIZE).
Proof.
  intros Hj. pose proof (rg_nonneg _ _ _ _ G). pose proof (rg_top _ _ _ _ G). pose proof (rg_aligned _ _ _ _ G) as Ha.
  destruct (rg_new _ _ _ _ G (pa / PAGE_SIZE + j) ltac:(lia)) as [Hf Hl]. unfold PAGE_SIZE in *.
  assert (Eq : (pa + j * 4096) / 4096 = pa / 4096 + j) by dlia. split_and!.
  - split; unfold PAGE_SIZE; [lia|dlia].
  - exists (pa / 4096 + j). unfold PAGE_SIZE. split_and!; [dlia|dlia|done].
  - intros [Hl' _]%locked_frame. unfold PAGE_SIZE in Hl'. rewrite Eq in Hl'. congruence.
Qed.

Lemma got_apart f : frame_locked fr f -> frame_address f -> f + PAGE_SIZE <= pa \/ pa + n * PAGE_SIZE <= f.
Proof.
  intros Hf [Hf0 Hfa]. pose proof (rg_aligned _ _ _ _ G) as Ha. unfold PAGE_SIZE in *.
  destruct (decide (pa <= f < pa + n * 4096)); [|dlia].
  destruct (got_frame ((f - pa) / 4096)) as (_ & _ & Hn); [dlia|]. destruct Hn. unfold PAGE_SIZE.
  replace (pa + (f - pa) / 4096 * 4096) with f by dlia. done.
Qed.

Lemma got_write m len src : 0 <= len <= n * PAGE_SIZE -> pa <= src \/ src + len <= pa ->
  (forall f, frame_locked fr f -> frame_address f -> same_bytes m (MemRoutines.memcpy pa src len m) f) /\
  (forall x, 0 <= x < len -> read8 (MemRoutines.memcpy pa src len m) (pa + x) = read8 m (src + x)).
Proof.
  intros Hlen Hdir. split.
  - intros f Hf Ha x Hx. unfold read8. rewrite memcpy_correct by (done || lia). unfold copy_object.
    pose proof (got_apart f Hf Ha). zcases; cbn; try done. lia.
  - intros x Hx. unfold read8. rewrite memcpy_correct by (done || lia). unfold copy_object. zcases; cbn; try lia. f_equal. f_equal. lia.
Qed.

(** The page map and the frames in use survive the write. *)
Lemma got_keeps m root m1 :
  tree_wf m fr root -> (forall f, frame_locked fr f -> frame_address f -> same_bytes m m1 f) ->
  tree_wf m1 fr1 root /\ (forall va, 0 <= va -> translate m1 root va = translate m root va) /\
  (forall f, data_frame m fr root f -> data_frame m1 fr1 root f) /\
  (forall j, 0 <= j < n -> data_frame m1 fr1 root (pa + j * PAGE_SIZE)).
Proof.
  intros T Hs. destruct (tables_kept m m1 fr root T) as (T1 & Ht & Htr).
  { intros p t Hp Hl Ht. apply Hs; [by apply (tree_owned _ _ _ T p)|by eapply table_of_frame]. }
  split_and!; [|done| |].
  - eapply tree_wf_more; [exact T1|]. intros a Ha. by eapply run_got_owned.
  - intros f [Hf Ho Hno]. split; [done|by eapply run_got_owned|]. intros p Hp Hl. rewrite Ht by done. by apply Hno.
  - intros j Hj. destruct (got_frame j Hj) as (Hf & Hl & Hn). split; [done|done|]. intros p Hp Hl' Hx.
    rewrite Ht in Hx by done. by apply Hn, (tree_owned _ _ _ T p).
Qed.

End Step.

(** ** One region *)

(** Frames in use stay as they are while the region is copied in and mapped. *)
Lemma copy_in m0 fr0 m fr root r pa fr1 m' fr' :
  building m0 fr0 m fr root -> root ≠ 0 -> copyable fr0 r -> run_got fr fr1 pa (pages r) -> 0 < available fr' ->
  map_pages root (vaddr r) pa user_page_flags (pages r) (MemRoutines.memcpy pa (paddr r) (rlength r) m, fr1) = Done (m', fr') ->
  (forall f, data_frame m fr root f -> data_frame m' fr' root f /\ same_bytes m m' f) /\
  (forall x, 0 <= x < rlength r -> read8 m' (pa + x) = read8 m0 (paddr r + x)) /\
  (forall j, 0 <= j < pages r -> data_frame m' fr' root (pa + j * PAGE_SIZE)) /\
  pages_mapped (MemRoutines.memcpy pa (paddr r) (rlength r) m) m' fr1 fr' root (vaddr r) pa user_page_flags (pages r) /\
  (forall va, 0 <= va -> translate (MemRoutines.memcpy pa (paddr r) (rlength r) m) root va = translate m root va).
Proof.
  intros B Hroot C G Hleft E. destruct (copyable_pages fr0 r C) as [Hn Hlen]. pose proof (co_held _ _ C) as Hh. pose proof (co_length _ _ C) as Hl0.
  assert (Hsrc : forall j, 0 <= j < pages r -> frame_address (paddr r + j * PAGE_SIZE) /\ frame_locked fr (paddr r + j * PAGE_SIZE) /\
            same_bytes m0 m (paddr r + j * PAGE_SIZE)).
  { intros j Hj. pose proof (held_frame _ _ j Hh Hj) as Hl. destruct (bu_data _ _ _ _ _ B _ Hl) as [[Hf Ho _] Hb]. done. }
  assert (Hdir : pa <= paddr r \/ paddr r + rlength r <= pa).
  { destruct (Hsrc 0 ltac:(lia)) as (Hf & Hl & _). pose proof (got_apart _ _ _ _ G _ Hl Hf) as H1.
    destruct (Hsrc (pages r - 1) ltac:(lia)) as (Hf' & Hl' & _). pose proof (got_apart _ _ _ _ G _ Hl' Hf') as H2.
    destruct (decide (pa <= paddr r)); [by left|]. right. pose proof (rh_aligned _ _ Hh). pose proof (rg_aligned _ _ _ _ G).
    destruct (decide (pa < paddr r + pages r * PAGE_SIZE)); [|lia].
    destruct (Hsrc ((pa - paddr r) / PAGE_SIZE)) as (Hf2 & Hl2 & _); [unfold PAGE_SIZE in *; dlia|].
    pose proof (got_apart _ _ _ _ G _ Hl2 Hf2). unfold PAGE_SIZE in *. dlia. }
  destruct (got_write fr fr1 pa (pages r) G m (rlength r) (paddr r) ltac:(lia) Hdir) as [Hw Hb].
  set (m1 := MemRoutines.memcpy pa (paddr r) (rlength r) m) in *.
  destruct (got_keeps fr fr1 pa (pages r) G m root m1 (bu_tree _ _ _ _ _ B) Hw) as (T1 & Htr & Hd1 & Hnew).
  assert (PM : pages_mapped m1 m' fr1 fr' root (vaddr r) pa user_page_flags (pages r)).
  { apply map_pages_done; try done; try apply C; try apply G. by right. }
  pose proof (pms_data _ _ _ _ _ _ _ _ _ PM) as Hd. split_and!; [| | |exact PM|exact Htr].
  - intros f Hf. destruct (Hd f (Hd1 f Hf)) as [Hf' Hs]. split; [done|]. eapply same_bytes_trans; [|exact Hs]. by apply Hw; apply Hf.
  - intros x Hx. assert (Hj : 0 <= x / PAGE_SIZE < pages r) by (unfold PAGE_SIZE in *; dlia).
    destruct (Hd _ (Hnew _ Hj)) as [_ Hs]. rewrite Hs by (unfold PAGE_SIZE; dlia). rewrite Hb by done.
    destruct (Hsrc _ Hj) as (_ & _ & Hs0). apply Hs0. unfold PAGE_SIZE. dlia.
  - intros j Hj. by apply Hd, Hnew.
Qed.

Lemma region_copied m0 fr0 m fr root r pa fr1 m' fr' :
  building m0 fr0 m fr root -> root ≠ 0 -> copyable fr0 r -> run_got fr fr1 pa (pages r) -> 0 < available fr' ->
  map_pages root (vaddr r) pa user_page_flags (pages r) (MemRoutines.memcpy pa (paddr r) (rlength r) m, fr1) = Done (m', fr') ->
  building m0 fr0 m' fr' root /\ private_copy m0 fr0 m' fr' root r (region (vaddr r) pa (rlength r) (rflags r)) /\
  (forall r1 r1', private_copy m0 fr0 m fr root r1 r1' -> copyable fr0 r1 -> apart r1 r -> private_copy m0 fr0 m' fr' root r1 r1').
Proof.
  intros B Hroot C G Hleft E. destruct (copy_in m0 fr0 m fr root r pa fr1 m' fr' B Hroot C G Hleft E) as (Hd & Hb & Hf & PM & Htr).
  split_and!.
  - split; [apply B|apply PM|apply PM|]. intros f Hl. destruct (bu_data _ _ _ _ _ B f Hl) as [Hdf Hs]. destruct (Hd f Hdf) as [Hdf' Hs'].
    split; [done|]. by eapply same_bytes_trans.
  - split; [done|exact Hf| |exact Hb|exact (pms_entry _ _ _ _ _ _ _ _ _ PM)].
    intros j Hj Hl. destruct (got_frame fr fr1 pa (pages r) G j Hj) as (_ & _ & Hn). by apply Hn, (bu_data _ _ _ _ _ B).
  - intros r1 r1' [Hr Hfr Hfresh Hby Hma] C1 Ha. destruct (copyable_pages fr0 r1 C1) as [Hn1 Hlen1]. split; [exact Hr| |exact Hfresh| |].
    + intros j Hj. by apply Hd, Hfr.
    + intros x Hx. assert (Hj : 0 <= x / PAGE_SIZE < pages r1) by (unfold PAGE_SIZE in *; dlia).
      destruct (Hd _ (Hfr _ Hj)) as [_ Hs]. rewrite Hs by (unfold PAGE_SIZE; dlia). by apply Hby.
    + intros j Hj. pose proof (co_top _ _ C1). pose proof (co_nonneg _ _ C1). pose proof (co_aligned _ _ C1). pose proof (co_aligned _ _ C).
      rewrite (pms_other _ _ _ _ _ _ _ _ _ PM), Htr; [by apply Hma| | |]; unfold apart, PAGE_SIZE in *; [lia|lia|dlia].
Qed.

(** ** All regions *)

(** The frames of copies lie apart from each other. *)
Definition copy_pages (rs : list Region) : list Z := rs ≫= region_pages.

Lemma private_copy_locked m0 fr0 m fr root r r' q :
  private_copy m0 fr0 m fr root r r' -> copyable fr0 r -> q ∈ region_pages r' -> locked fr q = true.
Proof.
  intros P C Hq. assert (Hp : pages r' = pages r) by (rewrite (pc_region _ _ _ _ _ _ _ P), (co_region _ _ C); done).
  apply elem_of_region_pages in Hq. rewrite Hp in Hq.
  destruct (pc_frames _ _ _ _ _ _ _ P (q - paddr r' / PAGE_SIZE) ltac:(lia)) as [[Hf Ha] Hl _]. destruct (locked_frame _ _ Hl) as [Hl' _].
  replace q with ((paddr r' + (q - paddr r' / PAGE_SIZE) * PAGE_SIZE) / PAGE_SIZE); [done|]. rewrite Z.div_add by done. lia.
Qed.

Lemma Forall2_impl_l {A B} (P Q : A -> B -> Prop) (S : A -> Prop) l k :
  Forall2 P l k -> Forall S l -> (forall x y, S x -> P x y -> Q x y) -> Forall2 Q l k.
Proof. intros H HS HI. induction H; [constructor|]. apply Forall_cons in HS as [? ?]. constructor; auto. Qed.

Lemma copies_locked m0 fr0 m fr root rs rs' q :
  Forall2 (private_copy m0 fr0 m fr root) rs rs' -> Forall (copyable fr0) rs -> q ∈ copy_pages rs' -> locked fr q = true.
Proof.
  intros H. induction H as [|r r' rs rs' P H IH]; intros C Hq; [by apply not_elem_of_nil in Hq|]. apply Forall_cons in C as [Cr C].
  cbn in Hq. apply elem_of_app in Hq as [Hq|Hq]; [by eapply private_copy_locked|by apply IH].
Qed.

Lemma copied_regions_less root rs acc m fr rs' m' fr' :
  pmm_wf fr -> Forall (fun r => 1 <= pages r) rs -> copied_regions root rs acc (m, fr) = Done (rs', (m', fr')) ->
  available fr' <= available fr.
Proof.
  revert acc m fr. induction rs as [|r rs IH]; intros acc m fr W Hn; cbn [copied_regions]; [by intros [= _ _ <-]|].
  apply Forall_cons in Hn as [Hr Hn]. cbn [fst snd]. destruct (request_pages (pages r) fr) as [[pa fr1]|] eqn:Er; [|done]. cbn [mbind outcome_bind].
  destruct (pa =? 0); [done|]. destruct (map_pages _ _ _ _ _ _) as [[m2 fr2]|] eqn:Em; [|done]. cbn [mbind outcome_bind]. intros E.
  destruct (request_pages_less _ _ _ _ W Hr Er) as [W1 A1]. destruct (@map_pages_less pmm pmm_frame_allocator _ _ _ _ _ _ _ _ _ W1 Em) as [W2 A2].
  specialize (IH _ _ _ W2 Hn E). cbn in A2. lia.
Qed.

Lemma copied_regions_spec m0 fr0 root rs before acc m fr rs' m' fr' :
  building m0 fr0 m fr root -> root ≠ 0 -> Forall (copyable fr0) before -> Forall (copyable fr0) rs ->
  Forall (fun r1 => Forall (apart r1) rs) before -> ForallOrdPairs apart rs ->
  Forall2 (private_copy m0 fr0 m fr root) before acc -> NoDup (copy_pages acc) ->
  copied_regions root rs acc (m, fr) = Done (rs', (m', fr')) -> 0 < available fr' ->
  building m0 fr0 m' fr' root /\ Forall2 (private_copy m0 fr0 m' fr' root) (reverse rs ++ before) rs' /\ NoDup (copy_pages rs').
Proof.
  revert before acc m fr. induction rs as [|r rs IH]; intros before acc m fr B Hroot Cb C Ab A P Hnd; cbn [copied_regions].
  { by intros [= <- <- <-]. }
  cbn [fst snd]. destruct (request_pages (pages r) fr) as [[pa fr1]|] eqn:Er; [|done]. cbn [mbind outcome_bind].
  destruct (Z.eqb_spec pa 0) as [|Hpa]; [done|]. destruct (map_pages _ _ _ _ _ _) as [[m2 fr2]|] eqn:Em; [|done]. cbn [mbind outcome_bind].
  apply Forall_cons in C as [Cr C]. inversion A as [|? ? Ar A']; subst.
  destruct (copyable_pages fr0 r Cr) as [Hn _]. pose proof (request_pages_run _ _ _ _ (bu_frames _ _ _ _ _ B) Hn Er Hpa) as G.
  intros E Hleft. assert (Hleft2 : 0 < available fr2).
  { destruct (@map_pages_less pmm pmm_frame_allocator _ _ _ _ _ _ _ _ _ (rg_wf _ _ _ _ G) Em) as [W2 _].
    pose proof (copied_regions_less _ _ _ _ _ _ _ _ W2 (copyable_sizes _ _ C) E). lia. }
  destruct (region_copied m0 fr0 m fr root r pa fr1 m2 fr2 B Hroot Cr G Hleft2 Em) as (B2 & P2 & Hkeep).
  rewrite reverse_cons, <- (assoc_L (++)). apply (IH (r :: before) (region (vaddr r) pa (rlength r) (rflags r) :: acc) m2 fr2 B2 Hroot); [by constructor|exact C| |exact A'| | |exact E|exact Hleft].
  - constructor; [exact Ar|]. eapply Forall_impl; [exact Ab|]. intros r1 H1. by apply Forall_cons in H1 as [_ ?].
  - constructor; [exact P2|]. eapply (Forall2_impl_l _ _ (fun r1 => copyable fr0 r1 /\ apart r1 r)); [exact P| |intros x y [? ?]; auto].
    apply Forall_and. split; [exact Cb|]. eapply Forall_impl; [exact Ab|]. intros r1 H1. by apply Forall_cons in H1 as [? _].
  - cbn. apply NoDup_app. split_and!; [apply NoDup_seqZ| |done]. intros q Hq Hq'.
    pose proof (copies_locked _ _ _ _ _ _ _ q P Cb Hq') as Hl. apply elem_of_region_pages in Hq. cbn [paddr region] in Hq.
    destruct (rg_new _ _ _ _ G q) as [Hf _]; [|congruence]. rewrite (co_region _ _ Cr). exact Hq.
Qed.

(** ** The whole address space *)

Lemma copied_space_spec cr3 rs m fr root rs' m' fr' :
  pmm_wf fr -> tree_wf m fr cr3 -> frame_locked fr 0 -> table_count 3 m cr3 <= fa_avail fr ->
  Forall (copyable fr) rs -> ForallOrdPairs apart rs -> copied_space cr3 rs (m, fr) = Done (root, rs', (m', fr')) -> 0 < available fr' ->
  building m fr m' fr' root /\ Forall2 (private_copy m fr m' fr' root) rs (reverse rs') /\ NoDup (copy_pages rs').
Proof.
  intros W T H0 Hav C A. unfold copied_space.
  destruct (copy_page_map_spec (fun v => v) cr3 m fr) as (new & m1 & fr1 & E & R); [done..|]. unfold clone_page_map. rewrite E. cbn [mbind outcome_bind].
  pose proof (cr_nonnull _ _ _ _ _ _ _ R) as Hn. rewrite (proj2 (Z.eqb_neq new 0) Hn).
  destruct (map new new new _ (m1, fr1)) as [[m2 fr2]|] eqn:Em; [|done]. cbn [mbind outcome_bind].
  destruct (copied_regions new rs [] (m2, fr2)) as [[rs2 [m3 fr3]]|] eqn:Ec; [|done]. cbn [mbind outcome_bind]. intros [= <- <- <- <-] Hleft.
  destruct (@map_avail pmm pmm_frame_allocator _ _ _ _ _ _ _ _ (cr_inv _ _ _ _ _ _ _ R) Em) as [W2 _].
  pose proof (copied_regions_less _ _ _ _ _ _ _ _ W2 (copyable_sizes _ _ C) Ec) as Hless.
  pose proof (tree_root _ _ _ (cr_new _ _ _ _ _ _ _ R)) as Hf.
  assert (PM : page_mapped m1 m2 fr1 fr2 new new new (Z.lor (flag_value Present) (flag_value ReadWrite))).
  { eapply map_spec; [apply R|apply R|done|apply Hf|exact Hf|done|right; cbn; lia|exact Em]. }
  assert (B : building m fr m2 fr2 new).
  { split; [done|apply PM|apply PM|]. intros f Hl. destruct (cr_data _ _ _ _ _ _ _ R f (locked_frame_address _ _ W Hl) Hl) as [Hd Hs].
    destruct (pm_data _ _ _ _ _ _ _ _ PM f Hd) as [Hd' Hs']. split; [done|]. by eapply same_bytes_trans. }
  destruct (copied_regions_spec m fr new rs [] [] m2 fr2 rs2 m3 fr3 B Hn) as (B' & P & Hnd); try done; [constructor|].
  split_and!; [exact B'| |exact Hnd]. rewrite app_nil_r in P. apply Forall2_reverse in P. by rewrite reverse_involutive in P.
Qed.

(** What was in use keeps its bytes, so the page map of the original does not
    change either. *)
Lemma building_keeps m fr m' fr' root cr3 :
  building m fr m' fr' root -> tree_wf m fr cr3 ->
  (forall f, frame_locked fr f -> same_bytes m m' f) /\ (forall va, 0 <= va -> translate m' cr3 va = translate m cr3 va).
Proof.
  intros B T. assert (Hs : forall f, frame_locked fr f -> same_bytes m m' f) by (intros f Hf; by apply (bu_data _ _ _ _ _ B)).
  split; [done|]. apply (tables_kept m m' fr cr3 T). intros p t Hp Hl Ht. by apply Hs, (tree_owned _ _ _ T p).
Qed.

(** ** Claims *)

Section Claims.
Context {D : Type} `{!Drivers D, !DriverLaws D}.
Notation kern := (kernel D).

(** C19: After a fork that leaves a free frame, so that no request for a frame was
    refused, each memory region of the original has a counterpart at the
    same addresses in the new process, mapped user accessible and writable in
    its own page map to frames that nobody used before and that no two regions
    share, with the same bytes; nothing the original or anyone else had in use,
    page tables included, has changed. *)
Theorem fork_gives_a_private_copy original c (k : kern) ns ps o root rs st :
  Vfs.ok None (k_vfs k) (k_drivers k) (k_sched k) -> queue_ok (k_sched k) ns ps -> pids_ok (k_sched k) ps ->
  procs (k_sched k) !! original = Some o -> c ≠ 0 -> procs (k_sched k) !! c = None ->
  0 <= the_pid (k_sched k) < 2 ^ 64 - 1 -> SLL.Length (ProcessQueue (k_sched k)) < 2 ^ 64 - 2 ->
  Sparse.allocated_size (Vfs.Files (k_vfs k)) + Sparse.allocated_size (Process.FileDescriptors o) < 2 ^ 64 - 1 ->
  pmm_wf (k_frames k) -> tree_wf (k_mem k) (k_frames k) (CR3 o) -> frame_locked (k_frames k) 0 ->
  table_count 3 (k_mem k) (CR3 o) <= fa_avail (k_frames k) ->
  Forall (copyable (k_frames k)) (Memories o) -> ForallOrdPairs apart (Memories o) ->
  copied_space (CR3 o) (Memories o) (k_mem k, k_frames k) = Done (root, rs, st) -> 0 < available st.2 ->
  exists k' child pid, CopyUserspaceProcess original c k = Done (pid, k') /\ procs (k_sched k') !! c = Some child /\
    tree_wf (k_mem k') (k_frames k') (CR3 child) /\
    Forall2 (private_copy (k_mem k) (k_frames k) (k_mem k') (k_frames k') (CR3 child)) (Memories o) (reverse (Memories child)) /\
    NoDup (copy_pages (Memories child)) /\
    (forall f, frame_locked (k_frames k) f -> same_bytes (k_mem k) (k_mem k') f) /\
    (forall va, 0 <= va -> translate (k_mem k') (CR3 o) va = translate (k_mem k) (CR3 o) va).
Proof.
  intros O Q P Ho Hc0 Hnc Hpid Hlen Hsz W T H0 Hav C A Hsp Hleft. destruct st as [m' fr']. cbn [snd] in Hleft.
  destruct (copied_space_spec _ _ _ _ _ _ _ _ W T H0 Hav C A Hsp Hleft) as (B & Hcopies & Hnd).
  destruct (fork_spec original c k ns ps o root rs (m', fr') O Q P Ho Hc0 Hnc Hpid Hlen Hsz Hsp) as (k' & n & child & E & F & _ & _ & Est).
  injection Est as <- <-. destruct (building_keeps _ _ _ _ _ _ B T) as [Hs Htr].
  exists k', child, (the_pid (k_sched k) + 1). assert (Hm : Memories child = rs) by apply F. assert (Hr : CR3 child = root) by apply F.
  rewrite Hm, Hr. split_and!; try done; [apply F|apply B].
Qed.

End Claims.

End Fork.
