(* ===== verification/ElfLoader.v ===== *)
(** * Loading programs

    Models src/kernel/src/elf.h and elf_loader.h: the headers of an ELF file,
    the loading of its segments, the initial stack, and the creation and
    replacement of userspace processes. Physical memory, which the loader writes
    through the kernel's identity mapping, is [k_mem]. *)

From S2P Require Import Prelude PhysMem Bitmap FrameAlloc Paging PageMap PageClone LinkedList SparseVector RingBuffer Event Process Scheduler.
From S2P Require Import FileMeta Fat Vfs ProcessLife ForkMemory.

Module Elf.

(** ** Headers *)

Definition EI_NIDENT : nat := 16.
Definition ELFMAG : list Z := [0x7f; 69; 76; 70].
Definition ELFCLASS64 : Z := 2.
Definition ELFDATA2LSB : Z := 1.
Definition ET_EXEC : Z := 2.
Definition EM_X86_64 : Z := 62.
Definition EV_CURRENT : Z := 1.
Definition PT_LOAD : Z := 1.
Definition PT_GNU_STACK : Z := 0x6474e551.
Definition PF_X : Z := 1.
Definition PF_W : Z := 2.

Record Elf64_Ehdr := mkEhdr {
  e_ident : list Z;
  e_type : Z;
  e_machine : Z;
  e_version : Z;
  e_entry : Z;
  e_phoff : Z;
  e_shoff : Z;
  e_flags : Z;
  e_ehsize : Z;
  e_phentsize : Z;
  e_phnum : Z;
  e_shentsize : Z;
  e_shnum : Z;
  e_shstrndx : Z
}.

Definition sizeof_Ehdr : nat := 64.

Definition ehdr_of (b : list Z) : Elf64_Ehdr :=
  mkEhdr (take EI_NIDENT b) (Fat.field b 16 2) (Fat.field b 18 2) (Fat.field b 20 4) (Fat.field b 24 8) (Fat.field b 32 8)
    (Fat.field b 40 8) (Fat.field b 48 4) (Fat.field b 52 2) (Fat.field b 54 2) (Fat.field b 56 2) (Fat.field b 58 2)
    (Fat.field b 60 2) (Fat.field b 62 2).

Record Elf64_Phdr := mkPhdr {
  p_type : Z;
  p_flags : Z;
  p_offset : Z;
  p_vaddr : Z;
  p_paddr : Z;
  p_filesz : Z;
  p_memsz : Z;
  p_align : Z
}.

Definition sizeof_Phdr : nat := 56.

Definition phdr_of (b : list Z) : Elf64_Phdr :=
  mkPhdr (Fat.field b 0 4) (Fat.field b 4 4) (Fat.field b 8 8) (Fat.field b 16 8) (Fat.field b 24 8) (Fat.field b 32 8)
    (Fat.field b 40 8) (Fat.field b 48 8).

Definition VerifyElf64Header (h : Elf64_Ehdr) : bool :=
  bool_decide (take 4 (e_ident h) = ELFMAG) && bool_decide (e_ident h !! 4%nat = Some ELFCLASS64) &&
  bool_decide (e_ident h !! 5%nat = Some ELFDATA2LSB) && (e_type h =? ET_EXEC) && (e_machine h =? EM_X86_64) &&
  (e_version h =? EV_CURRENT).

(** ** The initial stack *)

Definition UserProcessStackSizePages : Z := 4.
Definition UserProcessStackSize : Z := UserProcessStackSizePages * PAGE_SIZE.

(** A string with its terminator, in a multiple of 16 bytes. *)
Definition push_string (str : list Z) (st : Z * mem) : Z * mem :=
  let '(top, m) := st in
  let size := Z.of_nat (length str) + 1 in
  let size := size + (16 - Z.land size 15) in
  let top := top -64 size in
  (top, write8 (store_bytes top str m) (top + Z.of_nat (length str)) 0).

(** The loop over strings, which records where each one is. *)
Fixpoint push_strings (strs : list (list Z)) (addresses : list Z) (st : Z * mem) : list Z * (Z * mem) :=
  match strs with
  | [] => (addresses, st)
  | str :: strs => let st := push_string str st in push_strings strs (addresses ++ [st.1]) st
  end.

Definition push_word (w : Z) (st : Z * mem) : Z * mem :=
  let '(top, m) := st in (top -64 8, write64 m (top -64 8) w).

(** The loop from the last address to the first. *)
Definition push_addresses (addresses : list Z) (st : Z * mem) : Z * mem :=
  foldl (fun st w => push_word w st) st (reverse addresses).

Definition build_stack (newStackBottom : Z) (args env : list (list Z)) (m : mem) : Z * mem :=
  let st := (newStackBottom +64 UserProcessStackSize, m) in
  let '(envp_addresses, st) := push_strings env [] st in
  let '(argv_addresses, st) := push_strings args [] st in
  let st := if ((length envp_addresses + 1 + length argv_addresses + 1 + 1) mod 2 =? 0)%nat then st else push_word 0 st in
  let st := push_word 0 st in
  let st := push_addresses envp_addresses st in
  let st := push_word 0 st in
  let st := push_addresses argv_addresses st in
  push_word (Z.of_nat (length args)) st.

(** ** Loading *)

Section Loader.
Context {D : Type} `{!Drivers D}.
(** What the kernel's stack holds where [e_ident] of a new header lies. *)
Context (uninitialised_ident : list Z).
Notation kern := (Life.kernel D).
Import Life.

(** A [vfs.read] into an object of the kernel with the given bytes: the value
    returned and the bytes then. *)
Definition read_object (fd : Z) (bytes : list Z) (byteCount byteOffset : Z) (k : kern) : outcome (Z * list Z * kern) :=
  '(n, ds, m) ← Vfs.read fd 0 byteCount byteOffset (k_vfs k) (files k) (store_bytes 0 bytes (fun _ => 0));
  Done (n, load_bytes m 0 (length bytes), with_files (k_vfs k) ds k).

(** [elfHeader] as it is declared, and as it is read; [None] if that fails. *)
Definition new_header : list Z := uninitialised_ident ++ replicate (sizeof_Ehdr - EI_NIDENT) 0.

Definition read_header (fd : Z) (k : kern) : outcome (option Elf64_Ehdr * kern) :=
  '(n, bytes, k) ← read_object fd new_header (Z.of_nat sizeof_Ehdr) 0 k;
  if n =? 0 then Done (None, k)
  else if VerifyElf64Header (ehdr_of bytes) then Done (Some (ehdr_of bytes), k) else Done (None, k).

Definition set_if (b : bool) (f : PageTableFlag) (flags : Z) : Z := if b then Z.lor flags (flag_value f) else flags.

Definition segment_flags (h : Elf64_Phdr) : Z :=
  set_if (Z.land (p_flags h) PF_X =? 0) NX
    (set_if (negb (Z.land (p_flags h) PF_W =? 0)) ReadWrite
       (Z.lor (Z.lor 0 (flag_value Present)) (flag_value UserSuper))).

Definition stack_flags0 : Z := Z.lor (Z.lor (Z.lor 0 (flag_value Present)) (flag_value ReadWrite)) (flag_value UserSuper).

(** [for (u64 t = 0; t < pages * PAGE_SIZE; t += PAGE_SIZE)] *)
Fixpoint map_segment (pages : nat) (t pageTable virtAddress loadedProgram flags : Z) (st : mem * pmm) : outcome (mem * pmm) :=
  match pages with
  | O => Done st
  | S n =>
      st ← map pageTable (virtAddress +64 t) (loadedProgram +64 t) flags st;
      map_segment n (t + PAGE_SIZE) pageTable virtAddress loadedProgram flags st
  end.

Definition size_to_load (h : Elf64_Phdr) : Z := p_memsz h +64 p_vaddr h mod PAGE_SIZE.
Definition segment_pages (h : Elf64_Phdr) : Z := ((size_to_load h +64 PAGE_SIZE) -64 1) / PAGE_SIZE.

(** A [PT_LOAD] header. Writing through null is undefined. *)
Definition load_segment (process pageTable fd : Z) (h : Elf64_Phdr) (k : kern) : outcome (bool * kern) :=
  let pages := segment_pages h in
  '(loadedProgram, fr) ← request_pages pages (k_frames k);
  if (loadedProgram =? 0) && negb (size_to_load h =? 0) then Stop Undefined
  else
    let m := MemRoutines.memset loadedProgram 0 (size_to_load h) (k_mem k) in
    '(n_read, ds, m) ← Vfs.read fd (loadedProgram +64 p_vaddr h mod PAGE_SIZE) (p_filesz h) (p_offset h) (k_vfs k) (files k) m;
    if (loadedProgram =? 0) && (0 <? n_read) then Stop Undefined
    else
      let k := with_memory (m, fr) (with_files (k_vfs k) ds k) in
      if (n_read <? 0) || negb (n_read =? p_filesz h) then Done (false, k)
      else
        st ← map_segment (Z.to_nat pages) 0 pageTable (p_vaddr h) loadedProgram (segment_flags h) (m, fr);
        s ← modify_proc process (add_memory_region (p_vaddr h) loadedProgram (pages *64 PAGE_SIZE) (segment_flags h)) (k_sched k);
        Done (true, with_sched s (with_memory st k)).

(** The loop over the program headers; the flags for the stack on the way. *)
Fixpoint load_headers (process pageTable fd : Z) (hs : list Elf64_Phdr) (stack_flags : Z) (k : kern) : outcome (bool * Z * kern) :=
  match hs with
  | [] => Done (true, stack_flags, k)
  | h :: hs =>
      if p_type h =? PT_LOAD then
        '(ok, k) ← load_segment process pageTable fd h k;
        if negb ok then Done (ok, stack_flags, k) else load_headers process pageTable fd hs stack_flags k
      else if p_type h =? PT_GNU_STACK then
        load_headers process pageTable fd hs (set_if (Z.land (p_flags h) PF_X =? 0) NX stack_flags) k
      else load_headers process pageTable fd hs stack_flags k
  end.

(** The headers the loop visits: it advances by the size of the structure, up to
    the size of the table in the file. *)
Definition header_count (h : Elf64_Ehdr) : nat :=
  Z.to_nat ((e_phnum h * e_phentsize h + Z.of_nat sizeof_Phdr - 1) / Z.of_nat sizeof_Phdr).

Definition read_program_headers (fd : Z) (h : Elf64_Ehdr) (k : kern) : outcome (list Elf64_Phdr * kern) :=
  let programHeadersTableSize := e_phnum h * e_phentsize h in
  let room := (Z.to_nat (e_phnum h) * sizeof_Phdr)%nat in
  if Z.of_nat room <? programHeadersTableSize then Stop Undefined
  else
    '(_, bytes, k) ← read_object fd (replicate room 0) programHeadersTableSize (e_phoff h) k;
    Done ((fun i => phdr_of (take sizeof_Phdr (drop (i * sizeof_Phdr) bytes))) <$> seq 0 (header_count h), k).

(** The registers the new program starts with. *)
Definition start_registers (entry stack : Z) (c : CPUState) : CPUState :=
  mkCPU stack (RBX c) (RCX c) (RDX c) (RSI c) (RDI c) stack (R8 c) (R9 c) (R10 c) (R11 c) (R12 c) (R13 c) (R14 c) (R15 c)
    (FS c) (GS c) (RAX c) (mkFrame entry (Z.lor 0x18 3) 642 stack (Z.lor 0x20 3)).

Definition LoadUserspaceElf64Process (process pageTable fd : Z) (elfHeader : Elf64_Ehdr) (args env : list (list Z)) (k : kern) :
    outcome (bool * kern) :=
  '(headers, k) ← read_program_headers fd elfHeader k;
  '(ok, stack_flags, k) ← load_headers process pageTable fd headers stack_flags0 k;
  if negb ok then Done (false, k)
  else if process =? 0 then Done (false, k)
  else
    '(newStackBottom, fr) ← request_pages UserProcessStackSizePages (k_frames k);
    let k := with_frames fr k in
    if newStackBottom =? 0 then Done (false, k)
    else
      '(m, fr) ← map_pages pageTable newStackBottom newStackBottom stack_flags UserProcessStackSizePages (k_mem k, fr);
      s ← modify_proc process (add_memory_region newStackBottom newStackBottom UserProcessStackSize stack_flags) (k_sched k);
      let '(stack, m) := build_stack newStackBottom args env m in
      s ← modify_proc process (fun p => with_CPU (start_registers (e_entry elfHeader) stack (CPU p)) p) s;
      Done (true, with_sched s (with_memory (m, fr) k)).

(** The loop that unmaps and frees the memory of the old program. *)
Definition drop_memory (cr3 : Z) (rs : list Region) (st : mem * pmm) : mem * pmm :=
  foldl (fun '(m, fr) r => (unmap_pages cr3 (vaddr r) (pages r) m, free_pages (paddr r) (pages r) fr)) st rs.

Definition ReplaceUserspaceElf64Process (process fd : Z) (args : list (list Z)) (k : kern) : outcome (bool * kern) :=
  '(header, k) ← read_header fd k;
  match header with
  | None => Done (false, k)
  | Some elfHeader =>
      p ← proc process (k_sched k);
      let k := with_memory (drop_memory (CR3 p) (Memories p) (k_mem k, k_frames k)) k in
      s ← modify_proc process (with_Memories []) (k_sched k);
      LoadUserspaceElf64Process process (CR3 p) fd elfHeader args [] (with_sched s k)
  end.

(** [substr(0, find_last_of(c))]: all of it without a [c]; an empty string is
    read outside of it. *)
Definition before_last (c : Z) (path : list Z) : outcome (list Z) :=
  match path with
  | [] => Stop Undefined
  | _ =>
      match Fat.find_last c path with
      | Some i => Done (take i path)
      | None => Done path
      end
  end.

(** Standard input, output and error of a new process. *)
Definition open_standard_files (process : Z) (v : Vfs.vfs) (ds : D * sched) : outcome (Vfs.vfs * (D * sched)) :=
  '(a, ds, ms) ← drv_open InputDriver "stdin" ds (Vfs.metas v);
  '(_, v, ds) ← Vfs.add_file a process (Vfs.with_metas ms v) ds;
  let '(out, ms) := Store.new (make_meta Regular "stdout" DbgOutDriver 0 0) (Vfs.metas v) in
  '(_, v, ds) ← Vfs.add_file out process (Vfs.with_metas ms v) ds;
  '(_, v, ds) ← Vfs.add_file out process v ds;
  Done (v, ds).

(** [newProcess] is the address [new Process] returned. *)
Definition CreateUserspaceElf64Process (fd newProcess : Z) (args : list (list Z)) (k : kern) : outcome (bool * kern) :=
  match args with
  | [] => Done (false, k)
  | path :: _ =>
      '(header, k) ← read_header fd k;
      match header with
      | None => Done (false, k)
      | Some elfHeader =>
          let s := with_procs (<[newProcess := with_State SLEEPING new_process]> (procs (k_sched k))) (k_sched k) in
          '(pid, s) ← add_process newProcess s;
          '(newPageTable, (vm', st)) ← clone_active_page_map (vm (k_hw k)) (k_mem k, k_frames k);
          let k := with_hw (mkMachine (regs (k_hw k)) (fpu (k_hw k)) vm') (with_memory st (with_sched s k)) in
          if newPageTable =? 0 then '(_, k) ← remove_process pid (-1) k; Done (false, k)
          else
            s ← modify_proc newProcess (with_CR3 newPageTable) (k_sched k);
            st ← map newPageTable newPageTable newPageTable (Z.lor (flag_value Present) (flag_value ReadWrite)) st;
            '(ok, k) ← LoadUserspaceElf64Process newProcess newPageTable fd elfHeader args [] (with_memory st (with_sched s k));
            if negb ok then '(_, k) ← remove_process pid (-1) k; Done (false, k)
            else
              '(v, (d, s)) ← open_standard_files newProcess (k_vfs k) (files k);
              directory ← before_last 47 path;
              s ← modify_proc newProcess
                    (fun p => with_State RUNNING (with_paths (string_of_bytes path) (string_of_bytes directory) (with_CR3 newPageTable p))) s;
              Done (true, with_files v (d, s) k)
      end
  end.

End Loader.

(** ** The stack a program finds *)

(** Memory outside of an interval is as it was. *)
Definition kept_outside (lo hi : Z) (m m' : mem) : Prop := forall x, x < lo \/ hi <= x -> read8 m' x = read8 m x.

(** The string and its terminator are at [a]. *)
Definition holds (m : mem) (a : Z) (str : list Z) : Prop := load_bytes m a (length str + 1) = str ++ [0].

(** The space [push_string] takes. *)
Definition string_space (str : list Z) : Z := let size := Z.of_nat (length str) + 1 in size + (16 - Z.land size 15).
Definition strings_space (strs : list (list Z)) : Z := foldr (fun str n => string_space str + n) 0 strs.

Lemma string_space_spec str : string_space str mod 16 = 0 /\ Z.of_nat (length str) + 1 < string_space str.
Proof. unfold string_space. change 15 with (Z.ones 4). rewrite Z.land_ones by lia. change (2 ^ 4) with 16. dlia. Qed.

Lemma strings_space_spec strs : strings_space strs mod 16 = 0 /\ 0 <= strings_space strs.
Proof.
  induction strs as [|s strs IH]; [done|]. cbn. fold (strings_space strs). destruct (string_space_spec s). dlia.
Qed.

Lemma kept_outside_trans lo1 lo2 hi1 hi2 m1 m2 m3 :
  kept_outside lo1 hi1 m1 m2 -> kept_outside lo2 hi2 m2 m3 -> lo2 <= lo1 -> hi2 <= hi1 -> kept_outside lo2 hi1 m1 m3.
Proof. intros H1 H2 Hl Hh x Hx. rewrite H2, H1 by lia. done. Qed.

Lemma holds_kept lo hi m m' a str :
  kept_outside lo hi m m' -> hi <= a \/ a + Z.of_nat (length str) + 1 <= lo -> holds m a str -> holds m' a str.
Proof. intros K Ha H. unfold holds in *. rewrite <- H. apply load_bytes_frame. intros x Hx. apply K. lia. Qed.

Lemma read64_kept lo hi m m' a : kept_outside lo hi m m' -> hi <= a \/ a + 8 <= lo -> read64 m' a = read64 m a.
Proof. intros K Ha. apply read_le_ext. intros k Hk. apply K. lia. Qed.

Lemma push_string_spec str top m :
  Forall is_byte str -> string_space str <= top < 2 ^ 64 ->
  exists m', push_string str (top, m) = (top - string_space str, m') /\ holds m' (top - string_space str) str /\
    kept_outside (top - string_space str) top m m'.
Proof.
  intros Hb Ht. destruct (string_space_spec str) as [_ Hs]. unfold push_string. fold (string_space str).
  rewrite wrap64_small by (unfold is_u64; lia). set (a := top - string_space str). eexists. split; [reflexivity|]. split.
  - change (write8 (store_bytes a str m) (a + Z.of_nat (length str)) 0) with (store_bytes (a + Z.of_nat (length str)) [0] (store_bytes a str m)).
    rewrite <- store_bytes_app. unfold holds. replace (length str + 1)%nat with (length (str ++ [0])) by (by rewrite length_app). apply load_store_bytes, Forall_app. split; [done|by apply Forall_singleton].
  - intros x Hx. rewrite read8_write8_ne by lia. apply store_bytes_frame. lia.
Qed.

Lemma push_strings_spec strs acc top m :
  Forall (Forall is_byte) strs -> strings_space strs <= top < 2 ^ 64 ->
  exists addrs m', push_strings strs acc (top, m) = (acc ++ addrs, (top - strings_space strs, m')) /\
    Forall2 (fun a str => top - strings_space strs <= a < top /\ holds m' a str) addrs strs /\
    kept_outside (top - strings_space strs) top m m'.
Proof.
  revert acc top m. induction strs as [|str strs IH]; intros acc top m Hb Ht.
  { exists [], m. cbn. rewrite app_nil_r, Z.sub_0_r. split_and!; [done|constructor|done]. }
  apply Forall_cons in Hb as [Hb Hbs]. cbn [strings_space foldr] in *. fold (strings_space strs) in *.
  destruct (string_space_spec str) as [_ Hs]. destruct (strings_space_spec strs) as [_ Hss].
  destruct (push_string_spec str top m Hb ltac:(lia)) as (m1 & E1 & H1 & K1). cbn [push_strings]. rewrite E1. cbn [fst].
  destruct (IH (acc ++ [top - string_space str]) (top - string_space str) m1 Hbs ltac:(lia)) as (addrs & m2 & E2 & F2 & K2).
  exists ((top - string_space str) :: addrs), m2. rewrite E2, <- (assoc_L (++)). split_and!.
  - by rewrite <- Z.sub_add_distr.
  - constructor; [split; [lia|]; eapply holds_kept; [exact K2|lia|exact H1]|].
    eapply Forall2_impl; [exact F2|]. cbn. intros a s [Ha Hh]. split; [lia|done].
  - rewrite <- Z.sub_add_distr in K2. eapply kept_outside_trans; [exact K1|exact K2|lia|lia].
Qed.

Lemma push_word_spec w top m :
  is_u64 w -> 8 <= top < 2 ^ 64 ->
  exists m', push_word w (top, m) = (top - 8, m') /\ read64 m' (top - 8) = w /\ kept_outside (top - 8) top m m'.
Proof.
  intros Hw Ht. unfold push_word. rewrite wrap64_small by (unfold is_u64; lia). eexists. split; [reflexivity|].
  split; [by apply read64_write64_eq|]. intros x Hx. apply (write_le_frame 8). lia.
Qed.

(** The words [ws] are stored from [a] on. *)
Definition words_at (m : mem) (a : Z) (ws : list Z) : Prop := forall i w, ws !! i = Some w -> read64 m (a + 8 * Z.of_nat i) = w.

Lemma words_at_kept lo hi m m' a ws :
  kept_outside lo hi m m' -> hi <= a \/ a + 8 * Z.of_nat (length ws) <= lo -> words_at m a ws -> words_at m' a ws.
Proof.
  intros K Ha H i w Hi. rewrite (read64_kept lo hi m m' _ K); [by apply H|]. apply lookup_lt_Some in Hi. lia.
Qed.

Lemma push_addresses_spec ws top m :
  Forall is_u64 ws -> 8 * Z.of_nat (length ws) <= top < 2 ^ 64 ->
  exists m', push_addresses ws (top, m) = (top - 8 * Z.of_nat (length ws), m') /\
    words_at m' (top - 8 * Z.of_nat (length ws)) ws /\ kept_outside (top - 8 * Z.of_nat (length ws)) top m m'.
Proof.
  revert top m. induction ws as [|w ws IH]; intros top m Hu Ht; unfold push_addresses.
  { exists m. cbn. rewrite Z.sub_0_r. split_and!; [done|intros i w Hi; done|done]. }
  apply Forall_cons in Hu as [Hw Hu]. cbn [length] in *. rewrite reverse_cons, foldl_app. cbn [foldl].
  destruct (IH top m Hu ltac:(lia)) as (m1 & E1 & W1 & K1). unfold push_addresses in E1. rewrite E1.
  destruct (push_word_spec w (top - 8 * Z.of_nat (length ws)) m1 Hw ltac:(lia)) as (m2 & E2 & R2 & K2). rewrite E2.
  replace (top - 8 * Z.of_nat (length ws) - 8) with (top - 8 * Z.of_nat (S (length ws))) in * by lia.
  exists m2. split_and!; [done| |eapply kept_outside_trans; [exact K1|exact K2|lia|lia]].
  intros [|i] w' Hi; cbn in Hi; [injection Hi as <-; by rewrite Z.mul_0_r, Z.add_0_r|].
  assert (W2 : words_at m2 (top - 8 * Z.of_nat (length ws)) ws) by (eapply words_at_kept; [exact K2|lia|exact W1]).
  specialize (W2 i w' Hi). rewrite <- W2. f_equal. lia.
Qed.

(** The space [build_stack] takes, and what it leaves at the top of the stack. *)
Definition stack_space (args env : list (list Z)) : Z :=
  strings_space env + strings_space args + 8 * (Z.of_nat (length args) + Z.of_nat (length env) + 4).

Record started (m : mem) (sp : Z) (args env : list (list Z)) : Prop := {
  st_argc : read64 m sp = Z.of_nat (length args);
  st_argv : exists argv, words_at m (sp + 8) (argv ++ [0]) /\ Forall2 (holds m) argv args;
  st_envp : exists envp, words_at m (sp + 16 + 8 * Z.of_nat (length args)) (envp ++ [0]) /\ Forall2 (holds m) envp env
}.

(** The words between strings and stack pointer. *)
Lemma push_vectors top m (argc : Z) argv envp (pad : bool) :
  Forall is_u64 argv -> Forall is_u64 envp -> is_u64 argc ->
  8 * (Z.of_nat (length argv) + Z.of_nat (length envp) + 4) <= top < 2 ^ 64 ->
  exists m', push_word argc (push_addresses argv (push_word 0 (push_addresses envp (push_word 0 (if pad then push_word 0 (top, m) else (top, m)))))) =
      (top - 8 * (Z.of_nat (length argv) + Z.of_nat (length envp) + if pad then 4 else 3), m') /\
    let sp := top - 8 * (Z.of_nat (length argv) + Z.of_nat (length envp) + if pad then 4 else 3) in
    read64 m' sp = argc /\ words_at m' (sp + 8) (argv ++ [0]) /\
    words_at m' (sp + 16 + 8 * Z.of_nat (length argv)) (envp ++ [0]) /\ kept_outside sp top m m'.
Proof.
  intros Ha He Hc Ht.
  assert (Hp : exists m1, (if pad then push_word 0 (top, m) else (top, m)) = (top - (if pad then 8 else 0), m1) /\
            kept_outside (top - (if pad then 8 else 0)) top m m1).
  { destruct pad; [|exists m; by rewrite Z.sub_0_r]. destruct (push_word_spec 0 top m) as (m1 & E & _ & K); [by split|lia|]. by exists m1. }
  destruct Hp as (m1 & -> & K1). set (t1 := top - if pad then 8 else 0) in *. assert (Ht1 : top - 8 <= t1 <= top) by (unfold t1; destruct pad; lia).
  destruct (push_word_spec 0 t1 m1) as (m2 & -> & R2 & K2); [by split|lia|].
  destruct (push_addresses_spec envp (t1 - 8) m2 He ltac:(lia)) as (m3 & -> & W3 & K3). set (t3 := t1 - 8 - 8 * Z.of_nat (length envp)) in *.
  destruct (push_word_spec 0 t3 m3) as (m4 & -> & R4 & K4); [by split|lia|].
  destruct (push_addresses_spec argv (t3 - 8) m4 Ha ltac:(lia)) as (m5 & -> & W5 & K5). set (t5 := t3 - 8 - 8 * Z.of_nat (length argv)) in *.
  destruct (push_word_spec argc t5 m5 Hc ltac:(lia)) as (m6 & -> & R6 & K6). exists m6.
  assert (Esp : top - 8 * (Z.of_nat (length argv) + Z.of_nat (length envp) + if pad then 4 else 3) = t5 - 8) by (unfold t5, t3, t1; destruct pad; lia).
  cbv zeta. rewrite Esp. split; [done|].
  pose proof (kept_outside_trans _ _ _ _ _ _ _ K5 K6 ltac:(lia) ltac:(lia)) as K56.
  pose proof (kept_outside_trans _ _ _ _ _ _ _ K4 K56 ltac:(lia) ltac:(lia)) as K53.
  split_and!; [exact R6| | |].
  - replace (t5 - 8 + 8) with t5 by lia. intros i w Hi. apply lookup_app_Some in Hi as [Hi|[Hl Hi]].
    + eapply (words_at_kept _ _ m5 m6 t5 argv K6); [lia|exact W5|exact Hi].
    + apply list_lookup_singleton_Some in Hi as [Hi <-]. replace (t5 + 8 * Z.of_nat i) with (t3 - 8) by lia.
      rewrite (read64_kept _ _ _ _ _ K6), (read64_kept _ _ _ _ _ K5) by lia. exact R4.
  - replace (t5 - 8 + 16 + 8 * Z.of_nat (length argv)) with t3 by lia. intros i w Hi. apply lookup_app_Some in Hi as [Hi|[Hl Hi]].
    + eapply (words_at_kept _ _ m3 m6 t3 envp K53); [lia|exact W3|exact Hi].
    + apply list_lookup_singleton_Some in Hi as [Hi <-]. replace (t3 + 8 * Z.of_nat i) with (t1 - 8) by lia.
      rewrite (read64_kept _ _ _ _ _ K53), (read64_kept _ _ _ _ _ K3) by lia. exact R2.
  - pose proof (kept_outside_trans _ _ _ _ _ _ _ K3 K53 ltac:(lia) ltac:(lia)) as K36.
    pose proof (kept_outside_trans _ _ _ _ _ _ _ K2 K36 ltac:(lia) ltac:(lia)) as K26.
    exact (kept_outside_trans _ _ _ _ _ _ _ K1 K26 ltac:(lia) ltac:(lia)).
Qed.

Lemma build_stack_spec bottom args env m :
  Forall (Forall is_byte) args -> Forall (Forall is_byte) env -> 0 <= bottom -> bottom + UserProcessStackSize < 2 ^ 64 ->
  bottom mod PAGE_SIZE = 0 -> stack_space args env <= UserProcessStackSize ->
  exists sp m', build_stack bottom args env m = (sp, m') /\ sp mod 16 = 0 /\ bottom <= sp /\ started m' sp args env /\
    kept_outside sp (bottom + UserProcessStackSize) m m'.
Proof.
  intros Ba Be H0 Htop Hal Hsp. unfold stack_space in Hsp. destruct (strings_space_spec args) as [Ma Sa]. destruct (strings_space_spec env) as [Me Se].
  unfold build_stack. rewrite wrap64_small by (unfold is_u64, UserProcessStackSize, UserProcessStackSizePages, PAGE_SIZE in *; lia).
  set (top := bottom + UserProcessStackSize) in *.
  destruct (push_strings_spec env [] top m Be ltac:(lia)) as (envp & m1 & -> & F1 & K1). cbn [app]. set (t1 := top - strings_space env) in *.
  destruct (push_strings_spec args [] t1 m1 Ba ltac:(lia)) as (argv & m2 & -> & F2 & K2). cbn [app]. set (t2 := t1 - strings_space args) in *.
  pose proof (Forall2_length _ _ _ F1) as L1. pose proof (Forall2_length _ _ _ F2) as L2.
  set (pad := negb ((length envp + 1 + length argv + 1 + 1) mod 2 =? 0)%nat).
  replace (if ((length envp + 1 + length argv + 1 + 1) mod 2 =? 0)%nat then (t2, m2) else push_word 0 (t2, m2)) with (if pad then push_word 0 (t2, m2) else (t2, m2))
    by (unfold pad; by destruct (_ =? 0)%nat).
  destruct (push_vectors t2 m2 (Z.of_nat (length args)) argv envp pad) as (m3 & -> & R3 & W3 & V3 & K3).
  { apply Forall_forall. intros a Ha. apply list_elem_of_lookup in Ha as (i & Hi). destruct (Forall2_lookup_l _ _ _ _ _ F2 Hi) as (s & _ & Hr & _). unfold is_u64. lia. }
  { apply Forall_forall. intros a Ha. apply list_elem_of_lookup in Ha as (i & Hi). destruct (Forall2_lookup_l _ _ _ _ _ F1 Hi) as (s & _ & Hr & _). unfold is_u64. lia. }
  { unfold is_u64. lia. } { lia. }
  cbv zeta in *. eexists _, m3. split; [reflexivity|].
  assert (Hpad : ((Z.of_nat (length argv) + Z.of_nat (length envp) + if pad then 4 else 3) mod 2 = 0)).
  { unfold pad. destruct (Nat.eqb_spec ((length envp + 1 + length argv + 1 + 1) mod 2) 0) as [E|E]; cbn [negb].
    - apply (f_equal Z.of_nat) in E. rewrite Nat2Z.inj_mod in E. dlia.
    - assert (E' : ((length envp + 1 + length argv + 1 + 1) mod 2 = 1)%nat) by (pose proof (Nat.mod_upper_bound (length envp + 1 + length argv + 1 + 1) 2); lia).
      apply (f_equal Z.of_nat) in E'. rewrite Nat2Z.inj_mod in E'. dlia. }
  set (n := Z.of_nat (length argv) + Z.of_nat (length envp) + if pad then 4 else 3) in *.
  assert (Hn0 : 0 <= n) by (unfold n; destruct pad; lia). assert (Hn : 8 * n <= 8 * (Z.of_nat (length args) + Z.of_nat (length env) + 4)) by (unfold n; destruct pad; lia).
  split_and!.
  - unfold t2, t1, top, UserProcessStackSize, UserProcessStackSizePages, PAGE_SIZE in *. dlia.
  - unfold t2, t1, top. lia.
  - split; [exact R3| |].
    + exists argv. split; [exact W3|]. eapply Forall2_impl; [exact F2|]. cbn. intros a s [Ha Hh]. eapply holds_kept; [exact K3|lia|exact Hh].
    + exists envp. rewrite <- L2. split; [exact V3|]. eapply Forall2_impl; [exact F1|]. cbn. intros a s [Ha Hh].
      eapply holds_kept; [exact K3|lia|]. eapply holds_kept; [exact K2|lia|exact Hh].
  - pose proof (kept_outside_trans _ _ _ _ _ _ _ K2 K3 ltac:(lia) ltac:(lia)) as K23.
    exact (kept_outside_trans _ _ _ _ _ _ _ K1 K23 ltac:(lia) ltac:(lia)).
Qed.

(** ** Segments *)

Section Segments.

(** The loop of the loader maps the pages the segment lies on. *)
Lemma map_segment_pages n t pt va pa flags st :
  0 <= va -> 0 <= t -> t mod PAGE_SIZE = 0 -> va + t + Z.of_nat n * PAGE_SIZE <= 2 ^ 48 -> 0 <= pa -> pa + t + Z.of_nat n * PAGE_SIZE <= 2 ^ 52 ->
  map_segment n t pt va pa flags st =
  map_pages_loop n pt (va / PAGE_SIZE * PAGE_SIZE + t) (pa + t) (va / PAGE_SIZE * PAGE_SIZE + t + Z.of_nat n * PAGE_SIZE) flags st.
Proof.
  revert t st. induction n as [|n IH]; intros t st Hv Ht Hm Hvt Hp Hpt; [done|]. cbn [map_segment map_pages_loop].
  rewrite (proj2 (Z.ltb_lt _ _)) by (unfold PAGE_SIZE; lia). unfold PAGE_SIZE in *.
  rewrite !wrap64_small by (unfold is_u64; dlia).
  rewrite (map_same_page pt (va + t) (va / 4096 * 4096 + t)) by (unfold PAGE_SIZE; dlia).
  destruct (map pt _ _ _ st) as [st1|]; [|done]. cbn [mbind outcome_bind]. rewrite IH by (done || lia || dlia).
  f_equal; lia.
Qed.

(** The run of frames a segment is loaded into: zeros, and the bytes of the file
    at the segment's place in its first page. *)
Definition segment_image (pa : Z) (h : Elf64_Phdr) (bytes : list Z) (m : mem) : mem :=
  store_bytes (pa +64 p_vaddr h mod PAGE_SIZE) bytes (MemRoutines.memset pa 0 (size_to_load h) m).

(** A header whose segment lies in the address space and has room for what the
    file holds of it. *)
Record loadable (h : Elf64_Phdr) : Prop := {
  lo_memsz : 0 < p_memsz h;
  lo_vaddr : 0 <= p_vaddr h;
  lo_top : p_vaddr h + p_memsz h + 2 * PAGE_SIZE <= 2 ^ 48;
  lo_filesz : 0 <= p_filesz h <= p_memsz h
}.

Lemma loadable_size h : loadable h ->
  size_to_load h = p_memsz h + p_vaddr h mod PAGE_SIZE /\ size_to_load h <= segment_pages h * PAGE_SIZE < size_to_load h + PAGE_SIZE.
Proof.
  intros [H1 H2 H3 _]. unfold segment_pages. assert (E : size_to_load h = p_memsz h + p_vaddr h mod PAGE_SIZE).
  { unfold size_to_load. apply wrap64_small. unfold is_u64, PAGE_SIZE in *. dlia. }
  split; [done|]. rewrite E. unfold PAGE_SIZE in *. rewrite !wrap64_small; unfold is_u64; rewrite ?wrap64_small; unfold is_u64; dlia.
Qed.

Section Loading.
Context (fr fr1 : pmm) (pa : Z) (h : Elf64_Phdr) (bytes : list Z) (m : mem).
Hypothesis L : loadable h.
Hypothesis G : run_got fr fr1 pa (segment_pages h).
Hypothesis Hlen : Z.of_nat (length bytes) = p_filesz h.
Hypothesis Hbytes : Forall is_byte bytes.

Lemma image_at : pa +64 p_vaddr h mod PAGE_SIZE = pa + p_vaddr h mod PAGE_SIZE.
Proof.
  apply wrap64_small. pose proof (rg_nonneg _ _ _ _ G). pose proof (rg_top _ _ _ _ G). destruct (loadable_size h L) as [E Hsz].
  pose proof (lo_memsz _ L). unfold is_u64, PAGE_SIZE in *. dlia.
Qed.

Lemma image_keeps f : frame_locked fr f -> frame_address f -> same_bytes m (segment_image pa h bytes m) f.
Proof.
  intros Hf Ha x Hx. pose proof (Fork.got_apart _ _ _ _ G f Hf Ha) as Hap. destruct (loadable_size h L) as [E Hsz].
  pose proof (lo_filesz _ L). pose proof (lo_memsz _ L). unfold segment_image. rewrite image_at. rewrite E in Hsz.
  rewrite store_bytes_frame by (unfold PAGE_SIZE in *; dlia). rewrite memset_correct by (unfold PAGE_SIZE in *; dlia).
  rewrite E. zcases; cbn; try done. unfold PAGE_SIZE in *. dlia.
Qed.

Lemma store_bytes_read a l (m1 : mem) i b : Forall is_byte l -> l !! i = Some b -> read8 (store_bytes a l m1) (a + Z.of_nat i) = b.
Proof.
  intros Hl. revert a m1 i. induction Hl as [|c l Hc Hl IH]; intros a m1 [|i] Hi; try done; cbn in Hi |- *.
  - injection Hi as ->. rewrite Z.add_0_r, store_bytes_frame by lia. rewrite read8_write8_eq. by apply Z.mod_small.
  - replace (a + Z.of_nat (S i)) with (a + 1 + Z.of_nat i) by lia. by apply IH.
Qed.

Lemma image_bytes x : 0 <= x < p_memsz h ->
  read8 (segment_image pa h bytes m) (pa + p_vaddr h mod PAGE_SIZE + x) = default 0 (bytes !! Z.to_nat x).
Proof.
  intros Hx. destruct (loadable_size h L) as [E Hsz]. unfold segment_image. rewrite image_at.
  destruct (bytes !! Z.to_nat x) as [b|] eqn:Hb; cbn [default].
  - pose proof (store_bytes_read (pa + p_vaddr h mod PAGE_SIZE) bytes (MemRoutines.memset pa 0 (size_to_load h) m) _ b Hbytes Hb) as Hr.
    rewrite Z2Nat.id in Hr by lia. exact Hr.
  - apply lookup_ge_None in Hb. rewrite store_bytes_frame by lia. rewrite memset_correct by (unfold PAGE_SIZE in *; dlia).
    rewrite E. zcases; cbn; try done; unfold PAGE_SIZE in *; dlia.
Qed.

End Loading.

(** Memory in which the pages [lo] to [lo + n - 1] of the page map at [root] were
    mapped anew, to frames that were not in use. *)
Record grown (m : mem) (fr : pmm) (m' : mem) (fr' : pmm) (root lo n : Z) : Prop := {
  gr_frames : pmm_wf fr';
  gr_tree : tree_wf m' fr' root;
  gr_data f : data_frame m fr root f -> data_frame m' fr' root f /\ same_bytes m m' f;
  gr_other va : 0 <= va < 2 ^ 48 -> ~ (lo <= va / PAGE_SIZE < lo + n) -> translate m' root va = translate m root va
}.

(** New frames are filled and then mapped. *)
Lemma fill_and_map fr fr1 pa n m m1 root virt flags m' fr' :
  tree_wf m fr root -> run_got fr fr1 pa n -> (forall f, frame_locked fr f -> frame_address f -> same_bytes m m1 f) ->
  pages_mapped m1 m' fr1 fr' root virt pa flags n ->
  grown m fr m' fr' root (virt / PAGE_SIZE) n /\
  (forall j, 0 <= j < n -> data_frame m' fr' root (pa + j * PAGE_SIZE) /\ same_bytes m1 m' (pa + j * PAGE_SIZE)).
Proof.
  intros T G Hw PM. destruct (Fork.got_keeps fr fr1 pa n G m root m1 T Hw) as (_ & Htr & Hd1 & Hnew).
  pose proof (pms_data _ _ _ _ _ _ _ _ _ PM) as Hd. split; [|intros j Hj; by apply Hd, Hnew].
  split; [apply PM|apply PM| |].
  - intros f Hf. destruct (Hd f (Hd1 f Hf)) as [Hf' Hs]. split; [done|]. eapply same_bytes_trans; [|exact Hs]. by apply Hw; apply Hf.
  - intros va Hva Hout. rewrite (pms_other _ _ _ _ _ _ _ _ _ PM) by done. apply Htr. lia.
Qed.

(** The program finds the bytes of the file, then zeros, at the addresses of the
    segment, in pages with the segment's permissions. *)
Definition segment_in (m : mem) (fr : pmm) (root : Z) (h : Elf64_Phdr) (bytes : list Z) : Prop :=
  forall x, 0 <= x < p_memsz h -> exists e, translate m root (p_vaddr h + x) = Some e /\ data_frame m fr root (Pde.address e) /\
    read8 m (Pde.address e + (p_vaddr h + x) mod PAGE_SIZE) = default 0 (bytes !! Z.to_nat x) /\
    Pde.flag e Present = true /\ Pde.flag e UserSuper = true /\ Pde.flag e ReadWrite = negb (Z.land (p_flags h) PF_W =? 0).

(** The pages of a segment. *)
Definition first_page (h : Elf64_Phdr) : Z := p_vaddr h / PAGE_SIZE.

Lemma segment_in_grown m fr m' fr' root lo n h bytes :
  grown m fr m' fr' root lo n -> loadable h -> first_page h + segment_pages h <= lo \/ lo + n <= first_page h ->
  segment_in m fr root h bytes -> segment_in m' fr' root h bytes.
Proof.
  intros G L Ha S x Hx. destruct (S x Hx) as (e & Ht & Hd & Hr & Hf1 & Hf2 & Hf3). destruct (gr_data _ _ _ _ _ _ _ G _ Hd) as [Hd' Hs].
  destruct (loadable_size h L) as [E Hsz]. pose proof (lo_top _ L). pose proof (lo_vaddr _ L). unfold first_page in Ha.
  exists e. split_and!; [|done| |done..].
  - rewrite (gr_other _ _ _ _ _ _ _ G); [done| |]; unfold PAGE_SIZE in *; [lia|dlia].
  - rewrite <- Hr. apply Hs. unfold PAGE_SIZE. dlia.
Qed.

Lemma segment_flags_spec h :
  Pde.flag (segment_flags h) Present = true /\ Pde.flag (segment_flags h) UserSuper = true /\
  Pde.flag (segment_flags h) ReadWrite = negb (Z.land (p_flags h) PF_W =? 0).
Proof. unfold segment_flags. destruct (Z.land (p_flags h) PF_X =? 0), (Z.land (p_flags h) PF_W =? 0); split_and!; reflexivity. Qed.

Lemma map_segment_spec fr fr1 pa h bytes m root m' fr' :
  tree_wf m fr root -> root ≠ 0 -> loadable h -> run_got fr fr1 pa (segment_pages h) -> Z.of_nat (length bytes) = p_filesz h -> Forall is_byte bytes ->
  map_segment (Z.to_nat (segment_pages h)) 0 root (p_vaddr h) pa (segment_flags h) (segment_image pa h bytes m, fr1) = Done (m', fr') ->
  enough_frames fr1 fr' (3 * segment_pages h) -> grown m fr m' fr' root (first_page h) (segment_pages h) /\ segment_in m' fr' root h bytes.
Proof.
  intros T Hr L G Hlen Hb E Hav. destruct (loadable_size h L) as [Es Hsz]. pose proof (lo_top _ L). pose proof (lo_vaddr _ L). pose proof (lo_memsz _ L).
  pose proof (rg_nonneg _ _ _ _ G). pose proof (rg_top _ _ _ _ G). pose proof (rg_aligned _ _ _ _ G). destruct (segment_flags_spec h) as (F1 & F2 & F3).
  assert (Hn : Z.of_nat (Z.to_nat (segment_pages h)) = segment_pages h) by (unfold PAGE_SIZE in *; dlia).
  rewrite map_segment_pages in E by (rewrite ?Hn; unfold PAGE_SIZE in *; done || lia || dlia).
  assert (Hw : forall f, frame_locked fr f -> frame_address f -> same_bytes m (segment_image pa h bytes m) f) by (intros f; by apply (image_keeps fr fr1)).
  destruct (Fork.got_keeps fr fr1 pa (segment_pages h) G m root _ T Hw) as (T1 & _).
  rewrite !Z.add_0_r in E. fold (first_page h) in E.
  assert (PM : pages_mapped (segment_image pa h bytes m) m' fr1 fr' root (first_page h * PAGE_SIZE) pa (segment_flags h) (segment_pages h)).
  { rewrite <- Hn. apply map_pages_loop_done; try done; rewrite ?Hn; unfold first_page, PAGE_SIZE in *; try dlia; [apply G|exact Hav]. }
  destruct (fill_and_map fr fr1 pa _ m _ root _ _ m' fr' T G Hw PM) as [Gr Hf]. rewrite Z.div_mul in Gr by done. split; [exact Gr|].
  intros x Hx. set (j := (p_vaddr h mod PAGE_SIZE + x) / PAGE_SIZE). assert (Hj : 0 <= j < segment_pages h) by (unfold j, PAGE_SIZE in *; dlia).
  destruct (pms_entry _ _ _ _ _ _ _ _ _ PM j Hj) as (e & Ht & Ha & Hfl). destruct (Hf j Hj) as [Hd Hs]. exists e.
  rewrite (translate_same_page _ _ _ (first_page h * PAGE_SIZE + j * PAGE_SIZE)) by (unfold j, first_page, PAGE_SIZE; dlia).
  rewrite Ha, !Hfl by set_solver. split_and!; [done|done| |done..].
  rewrite Hs by (unfold PAGE_SIZE; dlia). rewrite <- (image_bytes fr fr1 pa h bytes m L G Hb x Hx). f_equal. unfold j, PAGE_SIZE. dlia.
Qed.

End Segments.

(** ** Dropping a program *)

Section Drop.
Import Life.

(** A region that is mapped and whose frames are in use, none as a table. *)
Record mapped_region (m : mem) (fr : pmm) (root : Z) (r : Region) : Prop := {
  mr_held : region_held fr r;
  mr_vaddr : 0 <= vaddr r;
  mr_top : vaddr r + pages r * PAGE_SIZE <= 2 ^ 48;
  mr_pages j : 0 <= j < pages r -> is_Some (translate m root (vaddr r / PAGE_SIZE * PAGE_SIZE + j * PAGE_SIZE));
  mr_data q p : q ∈ region_pages r -> indices p -> (length p <= 3)%nat -> table_of m root p ≠ Some (q * PAGE_SIZE)
}.

Definition page_in (r : Region) (va : Z) : Prop := vaddr r / PAGE_SIZE <= va / PAGE_SIZE < vaddr r / PAGE_SIZE + pages r.

Definition regions_apart (r1 r2 : Region) : Prop :=
  vaddr r1 / PAGE_SIZE + pages r1 <= vaddr r2 / PAGE_SIZE \/ vaddr r2 / PAGE_SIZE + pages r2 <= vaddr r1 / PAGE_SIZE.

Definition unmap_regions (root : Z) (rs : list Region) (m : mem) : mem := foldl (fun m r => unmap_pages root (vaddr r) (pages r) m) m rs.

Lemma drop_memory_parts root rs m fr : drop_memory root rs (m, fr) = (unmap_regions root rs m, free_regions rs fr).
Proof. unfold drop_memory, unmap_regions, free_regions. revert m fr. induction rs as [|r rs IH]; intros m fr; [done|]. cbn [foldl]. apply IH. Qed.

Lemma unmap_region_spec m fr root r :
  tree_wf m fr root -> mapped_region m fr root r ->
  let m' := unmap_pages root (vaddr r) (pages r) m in
  tree_wf m' fr root /\ (forall q, indices q -> (length q <= 3)%nat -> table_of m' root q = table_of m root q) /\
  (forall va, 0 <= va < 2 ^ 48 -> translate m' root va = if bool_decide (page_in r va) then None else translate m root va).
Proof.
  intros T [Hh H0 Ht Hp _] m'. unfold m'. rewrite unmap_pages_same_page by (done || apply Hh). pose proof (rh_count _ _ Hh).
  destruct (unmap_pages_spec root (vaddr r / PAGE_SIZE * PAGE_SIZE) (pages r) m fr) as [Tu Hn Ho Htab]; [done|unfold PAGE_SIZE in *; dlia|by rewrite Z.mod_mul|unfold PAGE_SIZE in *; dlia|done|done|].
  split_and!; [done|done|]. intros va Hva. rewrite Z.div_mul in Ho by done. unfold page_in. case_bool_decide as Hc; [|by apply Ho].
  specialize (Hn (va / PAGE_SIZE - vaddr r / PAGE_SIZE) ltac:(lia)). rewrite <- Hn. apply translate_same_page. unfold PAGE_SIZE in *. dlia.
Qed.

Lemma unmap_regions_spec m fr root rs :
  tree_wf m fr root -> Forall (mapped_region m fr root) rs -> ForallOrdPairs regions_apart rs ->
  let m' := unmap_regions root rs m in
  tree_wf m' fr root /\ (forall q, indices q -> (length q <= 3)%nat -> table_of m' root q = table_of m root q) /\
  (forall va, 0 <= va < 2 ^ 48 -> (exists r, r ∈ rs /\ page_in r va) -> translate m' root va = None) /\
  (forall va, 0 <= va < 2 ^ 48 -> (forall r, r ∈ rs -> ~ page_in r va) -> translate m' root va = translate m root va).
Proof.
  revert m. induction rs as [|r rs IH]; intros m T HF HA; cbv zeta.
  { split_and!; try done. intros va Hva (r & Hr & _). by apply not_elem_of_nil in Hr. }
  apply Forall_cons in HF as [Hr HF]. inversion HA as [|? ? Har HA']; subst. cbn [unmap_regions foldl].
  destruct (unmap_region_spec m fr root r T Hr) as (T1 & Htab1 & Htr1). set (m1 := unmap_pages root (vaddr r) (pages r) m) in *.
  fold (unmap_regions root rs m1). destruct (IH m1 T1) as (T2 & Htab2 & Hn2 & Ho2); [|done|].
  - rewrite Forall_forall in HF, Har |- *. intros r1 H1. destruct (HF r1 H1) as [Hh H0 Ht Hp Hd]. specialize (Har r1 H1). split; [done|done|done| |].
    + intros j Hj. pose proof (rh_count _ _ (mr_held _ _ _ _ Hr)). rewrite Htr1 by (unfold PAGE_SIZE in *; dlia). rewrite bool_decide_eq_false_2; [by apply Hp|].
      unfold page_in, regions_apart, PAGE_SIZE in *. dlia.
    + intros q p Hq Hip Hl. rewrite Htab1 by done. by apply Hd.
  - split_and!; [done| | |].
    + intros q Hq Hl. by rewrite Htab2, Htab1.
    + intros va Hva (r1 & H1 & Hin). apply elem_of_cons in H1 as [->|H1]; [|by apply Hn2; [|exists r1]].
      destruct (decide (Exists (fun r1 => page_in r1 va) rs)) as [He|He]; [apply Exists_exists in He; by apply Hn2|].
      rewrite Ho2, Htr1, bool_decide_eq_true_2 by (try done; intros r1 H1 Hc; apply He, Exists_exists; by exists r1). done.
    + intros va Hva Hout. rewrite Ho2, Htr1, bool_decide_eq_false_2; try done; [apply Hout; by left|]. intros r1 H1. apply Hout. by right.
Qed.

(** The frames of the old program are free, its pages are not mapped, and the
    page map is otherwise as it was. *)
Lemma drop_memory_spec m fr root rs :
  pmm_wf fr -> tree_wf m fr root -> Forall (mapped_region m fr root) rs -> ForallOrdPairs regions_apart rs -> NoDup (rs ≫= region_pages) ->
  exists m' fr', drop_memory root rs (m, fr) = (m', fr') /\ pmm_wf fr' /\ tree_wf m' fr' root /\
    (forall q, 0 <= q -> locked fr' q = locked fr q && negb (bool_decide (q ∈ rs ≫= region_pages))) /\
    (forall va, 0 <= va < 2 ^ 48 -> (exists r, r ∈ rs /\ page_in r va) -> translate m' root va = None) /\
    (forall va, 0 <= va < 2 ^ 48 -> (forall r, r ∈ rs -> ~ page_in r va) -> translate m' root va = translate m root va).
Proof.
  intros W T HF HA Hnd. rewrite drop_memory_parts. destruct (unmap_regions_spec m fr root rs T HF HA) as (T1 & Htab & Hn & Ho).
  destruct (free_regions_spec rs fr W) as [W' Hl]; [eapply Forall_impl; [exact HF|]; intros r Hr; apply Hr|done|].
  exists (unmap_regions root rs m), (free_regions rs fr). split_and!; try done. split; [apply T| |apply T1].
  intros p t Hp Hlp Ht. destruct (tree_owned _ _ _ T1 p t Hp Hlp Ht) as (q & Hq & -> & Hlq). exists q. split_and!; [done|done|].
  rewrite Hl, Hlq by done. rewrite bool_decide_eq_false_2; [done|]. intros (r & Hqr & Hr)%list_elem_of_bind. rewrite Htab in Ht by done.
  rewrite Forall_forall in HF. by apply (mr_data _ _ _ _ (HF r Hr) q p).
Qed.

End Drop.

(** ** Programs in files *)

Section Program.
Context {D : Type} `{!Drivers D}.
Notation kern := (Life.kernel D).
Import Life.

Definition slice (contents : list Z) (off n : Z) : list Z := take (Z.to_nat n) (drop (Z.to_nat off) contents).

(** Descriptor [fd] of the current process is a file with these contents, which
    its driver can read without changing. *)
Record executable (fd : Z) (v : Vfs.vfs) (d : D) (s : sched) (contents : list Z) : Prop := {
  ex_bytes : Forall is_byte contents;
  ex_length : Z.of_nat (length contents) < 2 ^ 63;
  ex_file : exists a meta drv, Vfs.file_current fd v s = Done a /\ a ≠ 0 /\ Store.get a (Vfs.metas v) = Done meta /\ FileDriver meta = Some drv /\
    offset meta = 0 /\ forall s' off n buffer m, 0 <= off -> 0 <= n -> off + n <= Z.of_nat (length contents) ->
      drv_read drv meta off n buffer (d, s') m = Done (n, (d, s'), store_bytes buffer (slice contents off n) m)
}.

Lemma executable_read fd v d s contents off n buffer m :
  executable fd v d s contents -> 0 <= off -> 0 <= n -> off + n <= Z.of_nat (length contents) ->
  Vfs.read fd buffer n off v (d, s) m = Done (n, (d, s), store_bytes buffer (slice contents off n) m).
Proof.
  intros [_ Hl (a & meta & drv & Ha & Hn & Hm & Hd & Ho & Hr)] H0 Hn0 Htop. unfold Vfs.read. cbn [snd]. rewrite Ha. cbn [mbind outcome_bind].
  rewrite (proj2 (Z.eqb_neq a 0) Hn), Hm. cbn [mbind outcome_bind]. rewrite Hd, Ho. cbn [deref mbind outcome_bind].
  rewrite Z.add_0_r, wrap64_small by (unfold is_u64; lia). by apply Hr.
Qed.

(** Changes to processes that leave their open files alone. *)
Lemma executable_update fd v d s contents a f p :
  procs s !! a = Some p -> FileDescriptors (f p) = FileDescriptors p -> executable fd v d s contents ->
  executable fd v d (with_procs (<[a := f p]> (procs s)) s) contents.
Proof.
  intros Hp Hf [Hb Hl (x & meta & drv & Hx & H)]. split; [done|done|]. exists x, meta, drv. split; [|done]. rewrite <- Hx.
  unfold Vfs.file_current, Vfs.current_process. cbn [ProcessQueue CurrentProcess with_procs]. destruct (SLL.value _ _) as [b|]; [|done]. cbn [mbind outcome_bind].
  unfold proc. cbn [procs with_procs]. destruct (decide (b = a)) as [->|Hne]; [|by rewrite lookup_insert_ne].
  rewrite lookup_insert_eq, Hp. cbn [deref mbind outcome_bind]. by rewrite Hf.
Qed.

Lemma slice_length contents off n :
  0 <= off -> 0 <= n -> off + n <= Z.of_nat (length contents) -> Z.of_nat (length (slice contents off n)) = n.
Proof. intros H0 Hn Ht. unfold slice. rewrite length_take, length_drop. lia. Qed.

Lemma slice_bytes contents off n : Forall is_byte contents -> Forall is_byte (slice contents off n).
Proof. intros H. by apply Forall_take, Forall_drop. Qed.

(** A header whose bytes are in the file. *)
Definition in_file (contents : list Z) (h : Elf64_Phdr) : Prop :=
  loadable h /\ 0 <= p_offset h /\ p_offset h + p_filesz h <= Z.of_nat (length contents).

(** The kernel while it loads into the page map at [root]. *)
Record loading (process root fd : Z) (contents : list Z) (k : kern) : Prop := {
  ld_frames : pmm_wf (k_frames k);
  ld_tree : tree_wf (k_mem k) (k_frames k) root;
  ld_file : executable fd (k_vfs k) (k_drivers k) (k_sched k) contents;
  ld_process : is_Some (procs (k_sched k) !! process)
}.

(** What loading does not touch. *)
Definition same_rest (process : Z) (k k' : kern) : Prop :=
  k_vfs k' = k_vfs k /\ k_drivers k' = k_drivers k /\ k_user k' = k_user k /\ k_hw k' = k_hw k /\
  forall b, b ≠ process -> procs (k_sched k') !! b = procs (k_sched k) !! b.

Lemma load_segment_unfold process root fd contents h k pa fr1 :
  loading process root fd contents k -> in_file contents h -> request_pages (segment_pages h) (k_frames k) = Done (pa, fr1) -> pa ≠ 0 ->
  exists p, procs (k_sched k) !! process = Some p /\ load_segment process root fd h k =
    (st ← map_segment (Z.to_nat (segment_pages h)) 0 root (p_vaddr h) pa (segment_flags h)
            (segment_image pa h (slice contents (p_offset h) (p_filesz h)) (k_mem k), fr1);
     Done (true, with_sched (with_procs (<[process := add_memory_region (p_vaddr h) pa (segment_pages h *64 PAGE_SIZE) (segment_flags h) p]> (procs (k_sched k))) (k_sched k))
                   (with_memory st k))).
Proof.
  intros Ld (L & H0 & Htop) E Hpa. destruct (ld_process _ _ _ _ _ Ld) as [p Hp]. exists p. split; [done|]. unfold load_segment. rewrite E.
  cbn [mbind outcome_bind]. rewrite (proj2 (Z.eqb_neq pa 0) Hpa). cbn [andb].
  pose proof (lo_filesz _ L). unfold files. rewrite (executable_read _ _ _ _ contents) by (apply Ld || lia). cbn [mbind outcome_bind].
  rewrite (proj2 (Z.ltb_ge _ 0)), Z.eqb_refl by lia. cbn [orb negb].
  fold (segment_image pa h (slice contents (p_offset h) (p_filesz h)) (k_mem k)).
  destruct (map_segment _ _ _ _ _ _ _) as [st|]; [|done]. cbn [mbind outcome_bind]. cbn [k_sched with_memory with_files snd].
  rewrite (modify_known _ _ _ p Hp). reflexivity.
Qed.

Lemma in_file_pages contents h : in_file contents h -> 1 <= segment_pages h.
Proof. intros (L & _). destruct (loadable_size h L) as [Es Hsz]. pose proof (lo_memsz _ L). unfold PAGE_SIZE in *. dlia. Qed.

Lemma map_segment_less n i root va pa mf m (fr : pmm) m' fr' :
  pmm_wf fr -> map_segment n i root va pa mf (m, fr) = Done (m', fr') -> pmm_wf fr' /\ available fr' <= available fr.
Proof.
  revert i m fr. induction n as [|n IH]; intros i m fr W; cbn [map_segment]; [by intros [= _ <-]|].
  destruct (map _ _ _ _ (m, fr)) as [[m1 fr1]|] eqn:E; [|done]. cbn [mbind outcome_bind]. intros E1.
  destruct (@map_avail pmm pmm_frame_allocator _ _ _ _ _ _ _ _ W E) as [W1 [_ A1]]. destruct (IH _ _ _ W1 E1) as [W2 A2].
  split; [done|]. cbn in A1. lia.
Qed.

(** Loading leaves no more frames than there were. *)
Lemma load_segment_less process root fd h k ok k' :
  pmm_wf (k_frames k) -> 1 <= segment_pages h -> load_segment process root fd h k = Done (ok, k') ->
  pmm_wf (k_frames k') /\ available (k_frames k') <= available (k_frames k).
Proof.
  intros W Hn. unfold load_segment. destruct (request_pages _ _) as [[pa fr1]|] eqn:E; [|done]. cbn [mbind outcome_bind].
  destruct (request_pages_less _ _ _ _ W Hn E) as [W1 A1]. destruct (_ && _); [done|].
  destruct (Vfs.read _ _ _ _ _ _ _) as [[[n ds] m]|]; [|done]. cbn [mbind outcome_bind]. destruct (_ && _); [done|].
  destruct (_ || _); [by intros [= _ <-]|].
  destruct (map_segment _ _ _ _ _ _ _) as [[m2 fr2]|] eqn:Em; [|done]. cbn [mbind outcome_bind].
  destruct (modify_proc _ _ _) as [s|]; [|done]. cbn [mbind outcome_bind]. intros [= _ <-]. cbn.
  destruct (map_segment_less _ _ _ _ _ _ _ _ _ _ W1 Em) as [W2 A2]. split; [done|lia].
Qed.

Lemma load_headers_less process root fd contents hs flags k ok flags' k' :
  Forall (fun h => p_type h = PT_LOAD -> in_file contents h) hs -> pmm_wf (k_frames k) ->
  load_headers process root fd hs flags k = Done (ok, flags', k') -> pmm_wf (k_frames k') /\ available (k_frames k') <= available (k_frames k).
Proof.
  revert flags k. induction hs as [|h hs IH]; intros flags k HF W; cbn [load_headers]; [by intros [= _ _ <-]|].
  apply Forall_cons in HF as [Hh HF]. destruct (Z.eqb_spec (p_type h) PT_LOAD) as [Ht|Ht]; [|destruct (_ =? _); by apply IH].
  destruct (load_segment _ _ _ _ _) as [[ok1 k1]|] eqn:E1; [|done]. cbn [mbind outcome_bind].
  destruct (load_segment_less _ _ _ _ _ _ _ W (in_file_pages _ _ (Hh Ht)) E1) as [W1 A1].
  destruct ok1; cbn [negb]; [|by intros [= _ _ <-]]. intros E2. destruct (IH _ _ HF W1 E2). split; [done|lia].
Qed.

(** A frame is left, or there were enough of them. *)
Definition frames_suffice (h : Elf64_Phdr) (k k' : kern) : Prop :=
  0 < available (k_frames k') \/ forall pa fr1, request_pages (segment_pages h) (k_frames k) = Done (pa, fr1) -> 3 * segment_pages h <= available fr1.

Lemma load_segment_done process root fd contents h k ok k' :
  loading process root fd contents k -> root ≠ 0 -> in_file contents h -> load_segment process root fd h k = Done (ok, k') -> frames_suffice h k k' ->
  ok = true /\ loading process root fd contents k' /\ same_rest process k k' /\
  grown (k_mem k) (k_frames k) (k_mem k') (k_frames k') root (first_page h) (segment_pages h) /\
  segment_in (k_mem k') (k_frames k') root h (slice contents (p_offset h) (p_filesz h)).
Proof.
  intros Ld Hr F. pose proof F as (L & H0 & Htop). pose proof (lo_filesz _ L). destruct (loadable_size h L) as [Es Hsz]. pose proof (lo_memsz _ L).
  destruct (request_pages (segment_pages h) (k_frames k)) as [[pa fr1]|] eqn:E; [|unfold load_segment; by rewrite E].
  destruct (decide (pa = 0)) as [->|Hpa].
  { unfold load_segment. rewrite E. cbn [mbind outcome_bind]. rewrite (proj2 (Z.eqb_neq (size_to_load h) 0)) by (unfold PAGE_SIZE in *; dlia). done. }
  destruct (load_segment_unfold _ _ _ _ h k pa fr1 Ld F E Hpa) as (p & Hp & ->). destruct (map_segment _ _ _ _ _ _ _) as [[m' fr']|] eqn:Em; [|done].
  cbn [mbind outcome_bind]. intros [= <- <-] Hav. unfold frames_suffice in Hav. cbn [k_mem k_frames with_sched with_memory fst snd] in Hav |- *.
  assert (G : run_got (k_frames k) fr1 pa (segment_pages h)) by (eapply request_pages_run; [apply Ld|unfold PAGE_SIZE in *; dlia|done..]).
  destruct (map_segment_spec _ _ _ _ _ _ _ _ _ (ld_tree _ _ _ _ _ Ld) Hr L G (slice_length contents (p_offset h) (p_filesz h) H0 ltac:(lia) Htop)
              (slice_bytes _ _ _ (ex_bytes _ _ _ _ _ (ld_file _ _ _ _ _ Ld))) Em ltac:(destruct Hav as [|Hav]; [by right|by left; apply (Hav pa)])) as [Gr S].
  split_and!; [done| | |done|done].
  - split; [apply Gr|apply Gr| |]; cbn [k_vfs k_drivers k_sched procs with_procs with_sched with_memory]; [|by rewrite lookup_insert_eq].
    apply (executable_update _ _ _ _ _ _ (add_memory_region (p_vaddr h) pa (segment_pages h *64 PAGE_SIZE) (segment_flags h)) p Hp); [done|apply Ld].
  - split_and!; try done. intros b Hb. cbn. by rewrite lookup_insert_ne.
Qed.

Lemma load_segment_progress process root fd contents h k pa fr1 :
  loading process root fd contents k -> root ≠ 0 -> in_file contents h -> request_pages (segment_pages h) (k_frames k) = Done (pa, fr1) -> pa ≠ 0 ->
  exists ok k', load_segment process root fd h k = Done (ok, k').
Proof.
  intros Ld Hr F E Hpa. destruct (load_segment_unfold _ _ _ _ h k pa fr1 Ld F E Hpa) as (p & Hp & ->). destruct F as (L & _).
  destruct (loadable_size h L) as [Es Hsz]. pose proof (lo_memsz _ L). pose proof (lo_top _ L). pose proof (lo_vaddr _ L).
  assert (Hn : 1 <= segment_pages h) by (unfold PAGE_SIZE in *; dlia). pose proof (request_pages_run _ _ _ _ (ld_frames _ _ _ _ _ Ld) Hn E Hpa) as G.
  pose proof (rg_nonneg _ _ _ _ G). pose proof (rg_top _ _ _ _ G).
  rewrite map_segment_pages by (rewrite ?Z2Nat.id by lia; unfold PAGE_SIZE in *; done || lia || dlia).
  edestruct (map_pages_loop_progress (Z.to_nat (segment_pages h))) as (m' & fr' & -> & _); [apply G|]. cbn [mbind outcome_bind]. by eexists _, _.
Qed.

(** Segments on different pages. *)
Definition segments_apart (h1 h2 : Elf64_Phdr) : Prop :=
  p_type h1 = PT_LOAD -> p_type h2 = PT_LOAD ->
  first_page h1 + segment_pages h1 <= first_page h2 \/ first_page h2 + segment_pages h2 <= first_page h1.

(** The segments of these headers are in memory. *)
Definition segments_in (contents : list Z) (root : Z) (hs : list Elf64_Phdr) (k : kern) : Prop :=
  Forall (fun h => p_type h = PT_LOAD -> segment_in (k_mem k) (k_frames k) root h (slice contents (p_offset h) (p_filesz h))) hs.

Definition stack_flags_ok (flags : Z) : Prop := flags = stack_flags0 \/ flags = Z.lor stack_flags0 (flag_value NX).

Lemma same_rest_trans process (k1 k2 k3 : kern) : same_rest process k1 k2 -> same_rest process k2 k3 -> same_rest process k1 k3.
Proof.
  intros (E1 & E2 & E3 & E4 & E5) (F1 & F2 & F3 & F4 & F5). split_and!; try congruence. intros b Hb. by rewrite F5, E5.
Qed.

Lemma load_headers_done process root fd contents hs : root ≠ 0 -> forall before flags k ok flags' k',
  loading process root fd contents k -> stack_flags_ok flags ->
  Forall (fun h => p_type h = PT_LOAD -> in_file contents h) (before ++ hs) ->
  Forall (fun h1 => Forall (segments_apart h1) hs) before -> ForallOrdPairs segments_apart hs ->
  segments_in contents root before k -> load_headers process root fd hs flags k = Done (ok, flags', k') -> 0 < available (k_frames k') ->
  ok = true /\ stack_flags_ok flags' /\ loading process root fd contents k' /\ same_rest process k k' /\ segments_in contents root (before ++ hs) k'.
Proof.
  intros Hr. induction hs as [|h hs IH]; intros before flags k ok flags' k' Ld Hfl HF Hb HA Hin; cbn [load_headers].
  { intros [= <- <- <-] _. rewrite app_nil_r. by split_and!. }
  inversion HA as [|? ? Ha HA']; subst. rewrite (cons_middle h before hs), (assoc_L (++)) in HF |- *.
  assert (Hb' : Forall (fun h1 => Forall (segments_apart h1) hs) (before ++ [h])).
  { apply Forall_app. split; [|by apply Forall_singleton]. eapply Forall_impl; [exact Hb|]. intros h1 H1. by apply Forall_cons in H1 as [_ ?]. }
  assert (HFs : forall A (P : A -> Prop) (l1 l2 : list A), Forall P (l1 ++ l2) -> Forall P l2) by (intros A P l1 l2 H; by apply Forall_app in H as [_ ?]).
  destruct (Z.eqb_spec (p_type h) PT_LOAD) as [Ht|Ht].
  - destruct (load_segment process root fd h k) as [[ok1 k1]|] eqn:E1; [|done]. cbn [mbind outcome_bind].
    assert (F : in_file contents h) by (rewrite Forall_forall in HF; apply HF; [rewrite !elem_of_app, list_elem_of_singleton; tauto|done]).
    intros E Hleft. assert (Hleft1 : 0 < available (k_frames k1)).
    { destruct (load_segment_less _ _ _ _ _ _ _ (ld_frames _ _ _ _ _ Ld) (in_file_pages _ _ F) E1) as [W1 _].
      destruct ok1; cbn [negb] in E; [|by injection E as _ _ <-]. destruct (load_headers_less _ _ _ contents _ _ _ _ _ _ (HFs _ _ _ _ HF) W1 E). lia. }
    destruct (load_segment_done _ _ _ _ h k ok1 k1 Ld Hr F E1 ltac:(by left)) as (-> & Ld1 & R1 & Gr & S). cbn [negb] in E.
    destruct (IH (before ++ [h]) flags k1 ok flags' k' Ld1 Hfl HF Hb' HA') as (-> & Hf' & Ld' & R' & S'); [|exact E|exact Hleft|].
    + apply Forall_app. split; [|by apply Forall_singleton]. apply Forall_forall. intros h1 H1 Ht1.
      unfold segments_in in Hin. rewrite Forall_forall in Hin, Hb. specialize (Hb h1 H1). apply Forall_cons in Hb as [Hap _].
      eapply segment_in_grown; [exact Gr| |by apply Hap|by apply Hin]. rewrite Forall_forall in HF. apply HF; [rewrite !elem_of_app; tauto|done].
    + split_and!; try done. by eapply same_rest_trans.
  - assert (Hin' : segments_in contents root (before ++ [h]) k) by (apply Forall_app; split; [done|by apply Forall_singleton]).
    assert (Hfl' : stack_flags_ok (set_if (Z.land (p_flags h) PF_X =? 0) NX flags)).
    { unfold stack_flags_ok, set_if. destruct (Z.land (p_flags h) PF_X =? 0); [|done]. right. by destruct Hfl as [-> | ->]. }
    destruct (p_type h =? PT_GNU_STACK); intros E Hleft; [exact (IH _ _ _ _ _ _ Ld Hfl' HF Hb' HA' Hin' E Hleft)|exact (IH _ _ _ _ _ _ Ld Hfl HF Hb' HA' Hin' E Hleft)].
Qed.

(** The table of program headers in the file. *)
Definition program_headers (contents : list Z) (eh : Elf64_Ehdr) : list Elf64_Phdr :=
  (fun i => phdr_of (take sizeof_Phdr (drop (i * sizeof_Phdr) (slice contents (e_phoff eh) (e_phnum eh * e_phentsize eh))))) <$> seq 0 (Z.to_nat (e_phnum eh)).

Lemma read_program_headers_spec fd contents eh (k : kern) :
  executable fd (k_vfs k) (k_drivers k) (k_sched k) contents -> e_phentsize eh = Z.of_nat sizeof_Phdr -> 0 <= e_phnum eh -> 0 <= e_phoff eh ->
  e_phoff eh + e_phnum eh * e_phentsize eh <= Z.of_nat (length contents) ->
  read_program_headers fd eh k = Done (program_headers contents eh, k).
Proof.
  intros X He Hn Ho Ht. unfold read_program_headers, program_headers, header_count. rewrite He in *. change (Z.of_nat sizeof_Phdr) with 56 in *.
  rewrite (proj2 (Z.ltb_ge _ _)) by (unfold sizeof_Phdr; lia). unfold read_object, files.
  rewrite (executable_read _ _ _ _ contents) by (done || lia). cbn [mbind outcome_bind].
  assert (Hl : length (replicate (Z.to_nat (e_phnum eh) * sizeof_Phdr) 0) = length (slice contents (e_phoff eh) (e_phnum eh * 56))).
  { pose proof (slice_length contents (e_phoff eh) (e_phnum eh * 56) Ho ltac:(lia) Ht). rewrite length_replicate. unfold sizeof_Phdr. lia. }
  rewrite Hl, load_store_bytes by (apply slice_bytes, X).
  replace (Z.to_nat ((e_phnum eh * 56 + 56 - 1) / 56)) with (Z.to_nat (e_phnum eh)); [by destruct k|]. f_equal. dlia.
Qed.

(** Writing to the new pages changes neither tables nor other pages. *)
Lemma grown_write m fr fr1 pa n m1 fr2 root lo m2 :
  grown m fr m1 fr2 root lo n -> run_got fr fr1 pa n -> pmm_wf fr ->
  (forall j, 0 <= j < n -> data_frame m1 fr2 root (pa + j * PAGE_SIZE)) -> kept_outside pa (pa + n * PAGE_SIZE) m1 m2 ->
  grown m fr m2 fr2 root lo n /\ forall va, 0 <= va -> translate m2 root va = translate m1 root va.
Proof.
  intros Gr G W Hd K. assert (Ht : forall f, frame_address f -> (forall j, 0 <= j < n -> f ≠ pa + j * PAGE_SIZE) -> same_bytes m1 m2 f).
  { intros f [Hf Hfa] Hne x Hx. apply K. pose proof (rg_aligned _ _ _ _ G). unfold PAGE_SIZE in *. specialize (Hne ((f - pa) / 4096)). dlia. }
  destruct (tables_kept m1 m2 fr2 root (gr_tree _ _ _ _ _ _ _ Gr)) as (T & Htb & Htr).
  { intros p t Hp Hl Htt. apply Ht; [by eapply table_of_frame; [apply Gr|..]|]. intros j Hj ->. by apply (df_table _ _ _ _ (Hd j Hj) p). }
  split; [|done]. split; [apply Gr|done| |].
  - intros f Hf. destruct (gr_data _ _ _ _ _ _ _ Gr f Hf) as [[H1 H2 H3] Hs]. split.
    + split; [done|done|]. intros p Hp Hl. rewrite Htb by done. by apply H3.
    + eapply same_bytes_trans; [exact Hs|]. apply Ht; [done|]. intros j Hj ->. destruct (Fork.got_frame _ _ _ _ G j Hj) as (_ & _ & Hno). by apply Hno, Hf.
  - intros va Hva Hout. rewrite Htr by lia. by apply Gr.
Qed.

(** The stack of a program, mapped where its frames are. *)
Record stack_ready (m : mem) (root b sp : Z) (args env : list (list Z)) : Prop := {
  sr_aligned : sp mod 16 = 0;
  sr_bottom : b <= sp;
  sr_started : started m sp args env;
  sr_mapped a : b <= a < b + UserProcessStackSize -> exists e, translate m root a = Some e /\ Pde.address e + a mod PAGE_SIZE = a /\
    Pde.flag e Present = true /\ Pde.flag e UserSuper = true /\ Pde.flag e ReadWrite = true
}.

Lemma stack_step m fr root flags b fr1 args env :
  tree_wf m fr root -> pmm_wf fr -> root ≠ 0 -> stack_flags_ok flags -> request_pages UserProcessStackSizePages fr = Done (b, fr1) -> b ≠ 0 ->
  12 <= fa_avail fr1 -> b + UserProcessStackSize <= 2 ^ 48 -> Forall (Forall is_byte) args -> Forall (Forall is_byte) env ->
  stack_space args env <= UserProcessStackSize ->
  exists m1 fr2 sp m2, map_pages root b b flags UserProcessStackSizePages (m, fr1) = Done (m1, fr2) /\ build_stack b args env m1 = (sp, m2) /\
    grown m fr m2 fr2 root (b / PAGE_SIZE) UserProcessStackSizePages /\ stack_ready m2 root b sp args env.
Proof.
  intros T W Hr Hfl E Hb Hav Htop Ba Be Hsp. unfold UserProcessStackSize, UserProcessStackSizePages in *.
  pose proof (request_pages_run 4 _ _ _ W ltac:(lia) E Hb) as G. pose proof (rg_nonneg _ _ _ _ G). pose proof (rg_aligned _ _ _ _ G) as Hal. pose proof (rg_top _ _ _ _ G).
  destruct (Fork.got_keeps fr fr1 b 4 G m root m T) as (T1 & _); [done|].
  assert (Hf3 : Pde.flag flags Present = true /\ Pde.flag flags UserSuper = true /\ Pde.flag flags ReadWrite = true) by (destruct Hfl as [-> | ->]; split_and!; reflexivity).
  destruct Hf3 as (F1 & F2 & F3).
  destruct (map_pages_spec root b b flags 4 m fr1) as (m1 & fr2 & Em & PM); [apply G|done|done|done|lia|done|lia|lia|done|lia|lia|lia|].
  destruct (fill_and_map fr fr1 b 4 m m root b flags m1 fr2 T G ltac:(done) PM) as [Gr Hd].
  destruct (build_stack_spec b args env m1 Ba Be) as (sp & m2 & Eb & Hal' & Hge & Hst & K); [lia|unfold UserProcessStackSize, UserProcessStackSizePages, PAGE_SIZE in *; lia|done|done|].
  destruct (grown_write m fr fr1 b 4 m1 fr2 root (b / PAGE_SIZE) m2 Gr G W) as [Gr2 Htr]; [intros j Hj; by apply Hd|intros x Hx; apply K; unfold UserProcessStackSize, UserProcessStackSizePages; lia|].
  exists m1, fr2, sp, m2. split_and!; [done|done|done|]. split; [done|done|done|]. unfold UserProcessStackSize, UserProcessStackSizePages.
  intros a Ha. set (j := (a - b) / PAGE_SIZE). assert (Hj : 0 <= j < 4) by (unfold j, PAGE_SIZE in *; dlia).
  destruct (pms_entry _ _ _ _ _ _ _ _ _ PM j Hj) as (e & Ht & Hae & Hfe). exists e. rewrite Htr by lia.
  rewrite (translate_same_page _ _ _ (b + j * PAGE_SIZE)) by (unfold j, PAGE_SIZE in *; dlia). rewrite Hae, !Hfe by set_solver.
  split_and!; try done. unfold j, PAGE_SIZE in *. dlia.
Qed.

(** ** Claims *)

(** C20: A segment whose frames can be had is loaded: the loader returns true, the
    program finds the bytes of the file at every address of the segment and zeros
    after them, in pages that are writable exactly if the header says so, and no
    other page and no frame that was in use changes. *)
Theorem segment_is_loaded process root fd contents h (k : kern) pa fr1 :
  loading process root fd contents k -> root ≠ 0 -> in_file contents h -> request_pages (segment_pages h) (k_frames k) = Done (pa, fr1) -> pa ≠ 0 ->
  3 * segment_pages h <= fa_avail fr1 ->
  exists k', load_segment process root fd h k = Done (true, k') /\
    segment_in (k_mem k') (k_frames k') root h (slice contents (p_offset h) (p_filesz h)) /\
    grown (k_mem k) (k_frames k) (k_mem k') (k_frames k') root (first_page h) (segment_pages h) /\ same_rest process k k'.
Proof.
  intros Ld Hr F E Hpa Hav. destruct (load_segment_progress _ _ _ _ h k pa fr1 Ld Hr F E Hpa) as (ok & k' & El).
  destruct (load_segment_done _ _ _ _ h k ok k' Ld Hr F El) as (-> & _ & R & Gr & S); [|by exists k'].
  right. intros pa1 fr2 E2. rewrite E in E2. by injection E2 as _ <-.
Qed.

(** C21: A program whose segments were loaded and whose stack can be had starts as it
    should: at the entry point of the file, in user mode, with its segments in
    memory, on a stack that is aligned to 16 bytes and holds argc, the argument
    pointers, the environment pointers and the strings they point to. The stack
    lies at its physical address, so the segments must not. *)
Theorem program_starts_with_its_arguments process root fd contents eh args env (k : kern) ok flags k1 b fr1 :
  loading process root fd contents k -> root ≠ 0 -> process ≠ 0 -> e_phentsize eh = Z.of_nat sizeof_Phdr -> 0 <= e_phnum eh -> 0 <= e_phoff eh ->
  e_phoff eh + e_phnum eh * e_phentsize eh <= Z.of_nat (length contents) ->
  Forall (fun h => p_type h = PT_LOAD -> in_file contents h) (program_headers contents eh) -> ForallOrdPairs segments_apart (program_headers contents eh) ->
  load_headers process root fd (program_headers contents eh) stack_flags0 k = Done (ok, flags, k1) ->
  request_pages UserProcessStackSizePages (k_frames k1) = Done (b, fr1) -> b ≠ 0 -> 12 <= fa_avail fr1 -> b + UserProcessStackSize <= 2 ^ 48 ->
  Forall (fun h => p_type h = PT_LOAD -> first_page h + segment_pages h <= b / PAGE_SIZE \/ b / PAGE_SIZE + 4 <= first_page h) (program_headers contents eh) ->
  Forall (Forall is_byte) args -> Forall (Forall is_byte) env -> stack_space args env <= UserProcessStackSize ->
  exists k' p sp, LoadUserspaceElf64Process process root fd eh args env k = Done (true, k') /\ procs (k_sched k') !! process = Some p /\
    RSP (CPU p) = sp /\ Frame (CPU p) = mkFrame (e_entry eh) (Z.lor 0x18 3) 642 sp (Z.lor 0x20 3) /\
    stack_ready (k_mem k') root b sp args env /\ segments_in contents root (program_headers contents eh) k' /\ same_rest process k k'.
Proof.
  intros Ld Hr Hp0 He Hn Ho Ht HF HA El Es Hb Hav Htop Hap Ba Be Hsp.
  destruct (load_headers_done process root fd contents (program_headers contents eh) Hr [] stack_flags0 k ok flags k1 Ld
              (or_introl eq_refl) HF (Forall_nil_2 _) HA (Forall_nil_2 _) El) as (-> & Hfl & Ld1 & R1 & S1).
  { assert (W1 : pmm_wf (k_frames k1)) by (eapply load_headers_less; [exact HF|apply Ld|exact El]). pose proof (request_pages_less UserProcessStackSizePages _ _ _ W1 ltac:(unfold UserProcessStackSizePages; lia) Es) as [_ A]. change (12 <= available fr1) in Hav. lia. }
  destruct (stack_step (k_mem k1) (k_frames k1) root flags b fr1 args env) as (m1 & fr2 & sp & m2 & Em & Eb & Gr & Sr); try done; [apply Ld1|apply Ld1|].
  destruct (ld_process _ _ _ _ _ Ld1) as [p Hp]. unfold LoadUserspaceElf64Process. rewrite (read_program_headers_spec _ contents) by (done || apply Ld).
  cbn [mbind outcome_bind]. rewrite El. cbn [mbind outcome_bind negb]. rewrite (proj2 (Z.eqb_neq process 0) Hp0), Es. cbn [mbind outcome_bind].
  rewrite (proj2 (Z.eqb_neq b 0) Hb). cbn [k_mem k_sched with_frames]. rewrite Em. cbn [mbind outcome_bind].
  rewrite (modify_known _ _ _ p Hp). cbn [mbind outcome_bind]. rewrite Eb.
  erewrite modify_known by (cbn; apply lookup_insert_eq). cbn [mbind outcome_bind]. eexists _, _, sp. split; [reflexivity|].
  cbn [k_sched procs with_sched with_procs k_mem k_frames with_memory fst snd]. rewrite lookup_insert_eq. split_and!; [reflexivity|reflexivity|reflexivity|done| |].
  - unfold segments_in in S1 |- *. cbn [k_mem k_frames with_sched with_memory fst snd app] in *. rewrite Forall_forall in S1, HF, Hap |- *.
    intros h Hh Hty. eapply segment_in_grown; [exact Gr| |by apply Hap|by apply S1]. by apply HF.
  - destruct R1 as (E1 & E2 & E3 & E4 & E5). split_and!; try done. intros c Hc. cbn. by rewrite !lookup_insert_ne, E5.
Qed.

Definition file_header (contents : list Z) : Elf64_Ehdr := ehdr_of (slice contents 0 (Z.of_nat sizeof_Ehdr)).

Lemma read_header_spec ident fd contents (k : kern) :
  executable fd (k_vfs k) (k_drivers k) (k_sched k) contents -> length ident = EI_NIDENT -> (sizeof_Ehdr <= length contents)%nat ->
  read_header ident fd k = Done (if VerifyElf64Header (file_header contents) then Some (file_header contents) else None, k).
Proof.
  intros X Hi Hl. unfold read_header, read_object, files. rewrite (executable_read _ _ _ _ contents) by (done || lia). cbn [mbind outcome_bind].
  assert (Hn : length (new_header ident) = length (slice contents 0 (Z.of_nat sizeof_Ehdr))).
  { pose proof (slice_length contents 0 (Z.of_nat sizeof_Ehdr)). unfold new_header. rewrite length_app, length_replicate, Hi. unfold EI_NIDENT, sizeof_Ehdr in *. lia. }
  rewrite Hn, load_store_bytes by (apply slice_bytes, X). change (Z.of_nat sizeof_Ehdr =? 0) with false. cbv iota.
  fold (file_header contents). destruct k. by destruct (VerifyElf64Header _).
Qed.

(** A file whose first 64 bytes are not the header of an executable for this
    machine is refused before anything is taken or given up: no process is
    created from it, and a process that tries to become it keeps its memory. *)
Theorem other_files_are_refused ident fd contents process newProcess args (k : kern) :
  executable fd (k_vfs k) (k_drivers k) (k_sched k) contents -> length ident = EI_NIDENT -> (sizeof_Ehdr <= length contents)%nat ->
  VerifyElf64Header (file_header contents) = false ->
  ReplaceUserspaceElf64Process ident process fd args k = Done (false, k) /\ CreateUserspaceElf64Process ident fd newProcess args k = Done (false, k).
Proof.
  intros X Hi Hl Hv. unfold ReplaceUserspaceElf64Process, CreateUserspaceElf64Process. rewrite (read_header_spec _ _ contents) by done. rewrite Hv.
  cbn [mbind outcome_bind]. by destruct args.
Qed.

(** A process that becomes another program gives up all of the old one: what is
    loaded next starts from a page map without the pages of the old regions and
    with every other page in place, from frames that are free again, and from an
    empty list of regions. *)
Theorem old_program_is_given_up ident fd contents process p args (k : kern) :
  loading process (CR3 p) fd contents k -> procs (k_sched k) !! process = Some p -> length ident = EI_NIDENT -> (sizeof_Ehdr <= length contents)%nat ->
  VerifyElf64Header (file_header contents) = true ->
  Forall (mapped_region (k_mem k) (k_frames k) (CR3 p)) (Memories p) -> ForallOrdPairs regions_apart (Memories p) -> NoDup (Memories p ≫= region_pages) ->
  exists k1, ReplaceUserspaceElf64Process ident process fd args k = LoadUserspaceElf64Process process (CR3 p) fd (file_header contents) args [] k1 /\
    loading process (CR3 p) fd contents k1 /\ procs (k_sched k1) !! process = Some (with_Memories [] p) /\ same_rest process k k1 /\
    (forall q, 0 <= q -> locked (k_frames k1) q = locked (k_frames k) q && negb (bool_decide (q ∈ Memories p ≫= region_pages))) /\
    (forall va, 0 <= va < 2 ^ 48 -> (exists r, r ∈ Memories p /\ page_in r va) -> translate (k_mem k1) (CR3 p) va = None) /\
    (forall va, 0 <= va < 2 ^ 48 -> (forall r, r ∈ Memories p -> ~ page_in r va) -> translate (k_mem k1) (CR3 p) va = translate (k_mem k) (CR3 p) va).
Proof.
  intros [W T X _] Hp Hi Hl Hv HF HA Hnd. destruct (drop_memory_spec _ _ _ _ W T HF HA Hnd) as (m' & fr' & E & W' & T' & Hlk & Hn & Ho).
  unfold ReplaceUserspaceElf64Process. rewrite (read_header_spec _ _ contents) by done. rewrite Hv. cbn [mbind outcome_bind]. unfold proc at 1. rewrite Hp.
  cbn [deref mbind outcome_bind]. rewrite E. cbn [k_sched with_memory]. rewrite (modify_known _ _ _ p Hp). cbn [mbind outcome_bind].
  eexists. split; [reflexivity|]. cbn [k_sched k_mem k_frames procs with_sched with_memory with_procs fst snd]. rewrite lookup_insert_eq. split_and!; try done.
  - split; [done|done| |cbn; by rewrite lookup_insert_eq]. by apply (executable_update _ _ _ _ _ _ (with_Memories []) p Hp).
  - split_and!; try done. intros b Hb. cbn. by rewrite lookup_insert_ne.
Qed.

End Program.

End Elf.
