(* ===== verification/Stdio.v ===== *)
(** * Streams of the C library

    Models src/user/libc/stdio.cpp with bits/file_struct.h and io_defs.h, and
    [read] and [write] of unistd.cpp, over the system calls as class [Syscalls].
    A buffer for output is the list of the bytes in it, the buffer for input the
    bytes of the last read; the caller's buffers are in the memory of the process.
    There is one thread, so the locks are left out. *)

From S2P Require Import Prelude PhysMem Algorithm SparseVector FileMeta.

(** What the kernel does for a program, on files by descriptor. *)
Class Syscalls (W : Type) := {
  sys_open : list Z -> W -> outcome (Z * W);
  sys_close : Z -> W -> outcome W;
  sys_read : Z -> Z -> W -> outcome (Z * list Z * W);
  sys_write : Z -> list Z -> W -> outcome (Z * W);
  sys_seek : Z -> Z -> Z -> W -> outcome (Z * W)
}.

Module Stdio.

(** ** Streams *)

Inductive Buffering := FullyBuffered | LineBuffered | Unbuffered.

#[export] Instance Buffering_eq_dec : EqDecision Buffering.
Proof. solve_decision. Defined.

Record IO_File := mkFile {
  w_buf : list Z;
  w_cap : Z;
  r_addr : Z;
  r_buf : list Z;
  r_start : Z;
  r_offs : Z;
  r_cap : Z;
  fd : Z;
  buffering : Buffering;
  f_error : bool;
  f_eof : bool;
  f_has_ungotten : bool;
  f_ungotten : Z
}.

Definition with_wbuf (x : list Z) (f : IO_File) : IO_File :=
  mkFile x (w_cap f) (r_addr f) (r_buf f) (r_start f) (r_offs f) (r_cap f) (fd f) (buffering f) (f_error f) (f_eof f) (f_has_ungotten f) (f_ungotten f).
Definition with_rdbuf (buf : list Z) (start offs : Z) (f : IO_File) : IO_File :=
  mkFile (w_buf f) (w_cap f) (r_addr f) buf start offs (r_cap f) (fd f) (buffering f) (f_error f) (f_eof f) (f_has_ungotten f) (f_ungotten f).
Definition with_fd (x : Z) (f : IO_File) : IO_File :=
  mkFile (w_buf f) (w_cap f) (r_addr f) (r_buf f) (r_start f) (r_offs f) (r_cap f) x (buffering f) (f_error f) (f_eof f) (f_has_ungotten f) (f_ungotten f).
Definition with_buffering (x : Buffering) (f : IO_File) : IO_File :=
  mkFile (w_buf f) (w_cap f) (r_addr f) (r_buf f) (r_start f) (r_offs f) (r_cap f) (fd f) x (f_error f) (f_eof f) (f_has_ungotten f) (f_ungotten f).
Definition with_capacities (wcap raddr rcap : Z) (f : IO_File) : IO_File :=
  mkFile (w_buf f) wcap raddr (r_buf f) (r_start f) (r_offs f) rcap (fd f) (buffering f) (f_error f) (f_eof f) (f_has_ungotten f) (f_ungotten f).
Definition with_flags (e eof u : bool) (f : IO_File) : IO_File :=
  mkFile (w_buf f) (w_cap f) (r_addr f) (r_buf f) (r_start f) (r_offs f) (r_cap f) (fd f) (buffering f) e eof u (f_ungotten f).
Definition with_ungotten (x : Z) (f : IO_File) : IO_File :=
  mkFile (w_buf f) (w_cap f) (r_addr f) (r_buf f) (r_start f) (r_offs f) (r_cap f) (fd f) (buffering f) (f_error f) (f_eof f) true x.

Definition set_error (f : IO_File) : IO_File := with_flags true (f_eof f) (f_has_ungotten f) f.
Definition set_eof (f : IO_File) : IO_File := with_flags (f_error f) true (f_has_ungotten f) f.
Definition take_ungotten (f : IO_File) : IO_File := with_flags (f_error f) (f_eof f) false f.

Definition EOF : Z := -1.
Definition BUFSIZ : Z := 1024.
Definition BUFFERED_READ_THRESHOLD : Z := 64.

(** The number of bytes that wait to be written. *)
Definition w_offs (f : IO_File) : Z := Z.of_nat (length (w_buf f)).

(** The constructor; [raddr] is where [malloc] put the buffer for reading. *)
Definition new_file (fd raddr : Z) (b : Buffering) : IO_File :=
  mkFile [] BUFSIZ raddr [] 0 0 BUFSIZ fd b false false false 0.

Definition clear_buffers (f : IO_File) : IO_File := with_rdbuf (r_buf f) 0 0 (with_wbuf [] f).
Definition clear_flags (f : IO_File) : IO_File := with_flags false false false (with_buffering FullyBuffered f).

(** A [char], which is signed, as an [int]. *)
Definition char_int (c : Z) : Z := if c <? 128 then c else c - 256.
(** [static_cast<char>(c)], as a byte. *)
Definition int_char (c : Z) : Z := c mod 256.

Definition unget (c : Z) (f : IO_File) : Z * IO_File :=
  if f_has_ungotten f then (EOF, f) else (char_int c, with_ungotten c f).

(** *** The buffer for reading *)

Definition copy_from_read_buffer (buf size : Z) (f : IO_File) (m : mem) : Z * IO_File * mem :=
  if size =? 0 then (0, f, m)
  else if r_offs f <=? r_start f then (0, f, m)
  else
    let stream_rem := r_offs f - r_start f in
    let to_copy := Z.min size stream_rem in
    let m := store_bytes buf (take (Z.to_nat to_copy) (drop (Z.to_nat (r_start f)) (r_buf f))) m in
    let f := if stream_rem =? to_copy then with_rdbuf (r_buf f) 0 0 f else with_rdbuf (r_buf f) (r_start f + to_copy) (r_offs f) f in
    (to_copy, f, m).

(** [memchr] in the bytes that were not read yet. *)
Definition find_unread (c : Z) (f : IO_File) : option nat :=
  fst <$> list_find (eq c) (take (Z.to_nat (r_offs f - r_start f)) (drop (Z.to_nat (r_start f)) (r_buf f))).

(** The number to copy is computed from the pointer that was found, which has the
    address of the buffer in it. *)
Definition copy_until_from_read_buffer (buf rest until : Z) (f : IO_File) (m : mem) : Z * bool * IO_File * mem :=
  let first := find_unread until f in
  let max_copy :=
    match first with
    | Some k => ((r_addr f + r_start f + Z.of_nat k) -64 r_start f) +64 1
    | None => r_offs f
    end in
  let to_copy := Z.min rest max_copy in
  let '(copied, f, m) := copy_from_read_buffer buf to_copy f m in
  (copied, match first with Some _ => true | None => copied =? rest end, f, m).

(** *** Numbers *)

Definition digit_from_value (v : Z) : Z := if v <? 10 then 48 + v else if v <? 16 then (97 + v) mod 256 else 95.

(** [for (tmp_val = val; tmp_val && i; tmp_val /= radix, --i)]: the digits of
    [val] in front of [acc]. *)
Fixpoint digits_loop (i : nat) (val : Z) (acc : list Z) : list Z :=
  match i with
  | O => acc
  | S i => if val =? 0 then acc else digits_loop i (val / 10) (digit_from_value (val mod 10) :: acc)
  end.

Definition max_digits : nat := 32.

Definition number_digits (val : Z) : list Z :=
  match digits_loop max_digits val [] with
  | [] => [48]
  | ds => ds
  end.

(** What [%d] prints; the negation of the least [int] overflows. *)
Definition int_digits (val : Z) : outcome (list Z) :=
  if val =? - 2 ^ 31 then Stop Undefined
  else Done (if val <? 0 then 45 :: number_digits (- val) else number_digits val).

(** The arguments a format consumes. *)
Inductive va_arg := va_pointer (p : Z) | va_string (str : list Z) | va_int (z : Z) | va_unsigned (z : Z).

(** What a conversion prints. *)
Definition conversion (c : Z) (args : list va_arg) : option (outcome (list Z * list va_arg)) :=
  if c =? 115 then Some match args with va_string str :: args => Done (str, args) | _ => Stop Undefined end
  else if c =? 99 then Some match args with va_int z :: args => Done ([int_char z], args) | _ => Stop Undefined end
  else if c =? 117 then Some match args with va_unsigned z :: args => Done (number_digits z, args) | _ => Stop Undefined end
  else if (c =? 105) || (c =? 100) then Some match args with va_int z :: args => ds ← int_digits z; Done (ds, args) | _ => Stop Undefined end
  else None.

(** [vsprintf]: the bytes it writes at [str]. There is a terminator after [%s]
    and after a [%] at the end of the format, and nowhere else. *)
Fixpoint vsprintf_bytes (fmt : list Z) (args : list va_arg) : outcome (list Z * bool) :=
  match fmt with
  | [] => Done ([], false)
  | c :: fmt =>
      if c =? 37 then
        match fmt with
        | [] => Done ([37], true)
        | c :: fmt =>
            match conversion c args with
            | Some r =>
                '(out, args) ← r; '(rest, z) ← vsprintf_bytes fmt args;
                Done (out ++ rest, match rest with [] => z || (c =? 115) | _ => z end)
            | None => '(rest, z) ← vsprintf_bytes fmt args; Done ([37; c] ++ rest, z)
            end
        end
      else '(rest, z) ← vsprintf_bytes fmt args; Done (c :: rest, z)
  end.

Definition vsprintf (str : Z) (fmt : list Z) (args : list va_arg) (m : mem) : outcome (Z * mem) :=
  '(out, terminated) ← vsprintf_bytes fmt args;
  let m := store_bytes str out m in
  Done (0, if terminated : bool then write8 m (str + Z.of_nat (length out)) 0 else m).

Section Calls.
Context {W : Type} `{!Syscalls W} (fuel : nat).

(** [read] and [write] of unistd.cpp call again while they are told to. *)
Fixpoint unistd_read (fuel : nat) (fd count : Z) (w : W) : outcome (Z * list Z * W) :=
  match fuel with
  | O => Stop Hung
  | S n => '(rc, bytes, w) ← sys_read fd count w; if rc =? -2 then unistd_read n fd count w else Done (rc, bytes, w)
  end.

Fixpoint unistd_write (fuel : nat) (fd : Z) (bytes : list Z) (w : W) : outcome (Z * W) :=
  match fuel with
  | O => Stop Hung
  | S n => '(rc, w) ← sys_write fd bytes w; if rc =? -2 then unistd_write n fd bytes w else Done (rc, w)
  end.

(** The write did not take all bytes. *)
Definition write_failed (written size : Z) : bool := (written <? 0) || negb (written =? size).

Definition flush (f : IO_File) (w : W) : outcome (bool * IO_File * W) :=
  if w_offs f =? 0 then Done (true, f, w)
  else
    '(written, w) ← unistd_write fuel (fd f) (w_buf f) w;
    if write_failed written (w_offs f) then Done (false, set_error f, w) else Done (true, with_wbuf [] f, w).

Definition close (f : IO_File) (w : W) : outcome (IO_File * W) :=
  '(f, w) ← (if fd f =? -1 then Done (f, w) else '(_, f, w) ← flush f w; w ← sys_close (fd f) w; Done (f, w));
  Done (clear_flags (clear_buffers (with_fd (-1) f)), w).

Definition reassociate (newfd : Z) (f : IO_File) (w : W) : outcome (IO_File * W) :=
  '(f, w) ← close f w; Done (with_fd newfd f, w).

Definition seek (offs whence : Z) (f : IO_File) (w : W) : outcome (Z * IO_File * W) :=
  let f := with_flags (f_error f) false false f in
  '(ok, f, w) ← flush f w;
  if negb ok then Done (-1, f, w) else '(r, w) ← sys_seek (fd f) offs whence w; Done (r, f, w).

(** *** Reading *)

(** The rest is read from the file: through the buffer if it is short. *)
Definition read_rest (buf size rest : Z) (f : IO_File) (w : W) (m : mem) : outcome (Z * IO_File * W * mem) :=
  if rest <? BUFFERED_READ_THRESHOLD then
    '(n_read, bytes, w) ← unistd_read fuel (fd f) (r_cap f) w;
    if n_read =? -1 then Done (EOF, set_error f, w, m)
    else if n_read =? 0 then Done (size -64 rest, set_eof f, w, m)
    else
      let '(copied, f, m) := copy_from_read_buffer buf rest (with_rdbuf bytes 0 (wrap64 n_read) f) m in
      if copied =? rest then Done (size, f, w, m) else Done ((size -64 rest) + copied, f, w, m)
  else
    '(n_read, bytes, w) ← unistd_read fuel (fd f) rest w;
    if n_read =? -1 then Done (EOF, set_error f, w, m)
    else Done ((size -64 rest) + n_read, if n_read =? 0 then set_eof f else f, w, store_bytes buf bytes m).

Definition read (buf size : Z) (f : IO_File) (w : W) (m : mem) : outcome (Z * IO_File * W * mem) :=
  if f_error f then Done (EOF, f, w, m)
  else if f_eof f then Done (EOF, f, w, m)
  else
    let got := f_has_ungotten f in
    let m := if got then write8 m buf (f_ungotten f) else m in
    let f := if got then take_ungotten f else f in
    if got && (size =? 1) then Done (1, f, w, m)
    else
      let buf := if got then buf + 1 else buf in
      let rest := if got then size -64 1 else size in
      if r_start f <? r_offs f then
        let '(copied, f, m) := copy_from_read_buffer buf rest f m in
        if rest <? copied then Done (EOF, set_error f, w, m)
        else if copied =? rest then Done (size, f, w, m)
        else read_rest buf size (rest - copied) f w m
      else read_rest buf size rest f w m.

(** The loop that fills the buffer until the character is found. *)
Fixpoint read_until_loop (n : nat) (buf rest until : Z) (f : IO_File) (w : W) (m : mem) : outcome (bool * IO_File * W * mem) :=
  match n with
  | O => Stop Hung
  | S n =>
      if f_eof f then Done (false, f, w, m)
      else
        '(n_read, bytes, w) ← unistd_read fuel (fd f) (r_cap f) w;
        if n_read =? -1 then Done (false, set_error f, w, m)
        else
          let f := if n_read =? 0 then set_eof f else f in
          let '(_, done, f, m) := copy_until_from_read_buffer buf rest until (with_rdbuf bytes 0 (wrap64 n_read) f) m in
          if done : bool then Done (true, f, w, m) else read_until_loop n buf rest until f w m
  end.

Definition read_until (buf size until : Z) (f : IO_File) (w : W) (m : mem) : outcome (bool * IO_File * W * mem) :=
  let got := f_has_ungotten f in
  let m := if got then write8 m buf (f_ungotten f) else m in
  let f := if got then take_ungotten f else f in
  let buf := if got then buf + 1 else buf in
  let rest := if got then size -64 1 else size in
  if got && (f_ungotten f =? until) then Done (true, f, w, m)
  else if r_start f <? r_offs f then
    let '(copied, done, f, m) := copy_until_from_read_buffer buf rest until f m in
    if (done : bool) || f_eof f then Done (true, f, w, m) else read_until_loop fuel buf (rest -64 copied) until f w m
  else read_until_loop fuel buf rest until f w m.

(** *** Writing *)

Definition write_internal (bytes : list Z) (f : IO_File) (w : W) : outcome (Z * IO_File * W) :=
  let count := Z.of_nat (length bytes) in
  '(ok, f, w) ← (if w_cap f <? w_offs f +64 count then flush f w else Done (true, f, w));
  if negb ok then Done (EOF, f, w)
  else if w_cap f <? count then
    '(written, w) ← unistd_write fuel (fd f) bytes w;
    if write_failed written count then Done (EOF, set_error f, w) else Done (count, f, w)
  else Done (count, with_wbuf (w_buf f ++ bytes) f, w).

(** [while (nl = memchr(str, '\n', sz))] *)
Fixpoint write_lines (n : nat) (str : list Z) (written : Z) (f : IO_File) (w : W) : outcome (Z * IO_File * W) :=
  match n with
  | O => Stop Hung
  | S n =>
      match list_find (eq 10) str with
      | Some (i, _) =>
          let nl_sz := Z.of_nat i + 1 in
          '(n_put, f, w) ← write_internal (take (S i) str) f w;
          if negb (n_put =? nl_sz) then Done (written, f, w)
          else
            '(ok, f, w) ← flush f w;
            if negb ok then Done (written, f, w) else write_lines n (drop (S i) str) (written + n_put) f w
      | None => '(r, f, w) ← write_internal str f w; Done (written + r, f, w)
      end
  end.

Definition write (str : list Z) (f : IO_File) (w : W) : outcome (Z * IO_File * W) :=
  match buffering f with
  | Unbuffered =>
      let sz := Z.of_nat (length str) in
      '(written, w) ← unistd_write fuel (fd f) str w;
      if write_failed written sz then Done (EOF, set_error f, w) else Done (sz, f, w)
  | LineBuffered => write_lines (S (length str)) str 0 f w
  | FullyBuffered => write_internal str f w
  end.

Definition write_char (c : Z) (f : IO_File) (w : W) : outcome (bool * IO_File * W) :=
  '(r, f, w) ← write [c] f w; Done (r =? 1, f, w).

(** ** The C interface, on one stream *)

Definition fputc (c : Z) (f : IO_File) (w : W) : outcome (Z * IO_File * W) :=
  let ch := int_char c in
  '(ok, f, w) ← write_char ch f w; Done (if negb ok then EOF else char_int ch, f, w).

Definition fputs (str : list Z) (f : IO_File) (w : W) : outcome (Z * IO_File * W) :=
  '(r, f, w) ← write str f w; Done (if r =? EOF then EOF else 0, f, w).

Definition puts (str : list Z) (stdout : IO_File) (w : W) : outcome (Z * IO_File * W) :=
  '(r, stdout, w) ← fputs str stdout w;
  if r =? EOF then Done (EOF, stdout, w)
  else '(r, stdout, w) ← fputc 10 stdout w; Done (if r =? EOF then EOF else 0, stdout, w).

Definition fwrite (ptr size nmemb : Z) (m : mem) (f : IO_File) (w : W) : outcome (Z * IO_File * W) :=
  if (size =? 0) || (nmemb =? 0) then Done (0, f, w)
  else '(ret, f, w) ← write (load_bytes m ptr (Z.to_nat (size *64 nmemb))) f w; Done (if ret =? EOF then 0 else nmemb, f, w).

Definition fread (ptr size nmemb : Z) (f : IO_File) (w : W) (m : mem) : outcome (Z * IO_File * W * mem) :=
  if (size =? 0) || (nmemb =? 0) then Done (0, f, w, m)
  else
    '(ret, f, w, m) ← read ptr (size *64 nmemb) f w m;
    if f_eof f || (ret =? EOF) || (ret <? 0) then Done (0, f, w, m) else Done (ret / size, f, w, m).

(** [c] is a local variable; it is at [buf]. *)
Definition fgetc (buf : Z) (f : IO_File) (w : W) (m : mem) : outcome (Z * IO_File * W * mem) :=
  '(r, f, w, m) ← read buf 1 f w m;
  if negb (r =? 1) then Done (EOF, f, w, m) else Done (char_int (read8 m buf), f, w, m).

(** The pointer that is returned, or null. *)
Definition fgets (str size : Z) (f : IO_File) (w : W) (m : mem) : outcome (Z * IO_File * W * mem) :=
  if size <? 0 then Done (0, f, w, m)
  else if size =? 0 then Done (str, f, w, m)
  else '(ok, f, w, m) ← read_until str size 10 f w m; Done (if ok : bool then str else 0, f, w, m).

Definition ungetc (c : Z) (f : IO_File) : Z * IO_File := unget (int_char c) f.

Definition fseek (offs whence : Z) (f : IO_File) (w : W) : outcome (Z * IO_File * W) :=
  '(r, f, w) ← seek offs whence f w; Done (if r =? 0 then 0 else -1, f, w).

Definition SEEK_SET : Z := 2.

Definition rewind (f : IO_File) (w : W) : outcome (IO_File * W) :=
  '(_, f, w) ← seek 0 SEEK_SET f w; Done (with_flags false false false f, w).

Definition clearerr (f : IO_File) : IO_File := with_flags false false (f_has_ungotten f) f.
Definition feof (f : IO_File) : bool := f_eof f && negb (f_has_ungotten f) && (r_offs f =? 0).

Definition ferror (f : IO_File) : bool := f_error f.

(** Positions are not kept: [getpos] and [setpos] always fail, and [fsetpos] takes
    the failure for success. *)
Definition getpos (f : IO_File) : Z := -1.
Definition setpos (pos : Z) (f : IO_File) : Z := -1.
Definition fgetpos (f : IO_File) : Z * Z := (0, getpos f).
Definition fsetpos (pos : Z) (f : IO_File) : Z := if setpos pos f =? 0 then -1 else 0.

(** [raddr] is where [__mextend] or [realloc] put the buffer for reading. *)
Definition setbuf (b : Buffering) (size raddr : Z) (f : IO_File) (w : W) : outcome (bool * IO_File * W) :=
  '(ok, f, w) ← flush f w;
  if negb ok then Done (false, f, w)
  else
    match b with
    | Unbuffered => Done (true, with_buffering Unbuffered f, w)
    | _ =>
        let f := with_buffering b f in
        let size := if size <? BUFSIZ then BUFSIZ else size in
        let rcap := if r_offs f =? 0 then size else Algo.max (r_offs f) size [] in
        let f := with_capacities size (if r_cap f =? size then r_addr f else raddr) (if r_cap f =? size then r_cap f else rcap) f in
        Done (true, f, w)
    end.

(** [_IOFBF], [_IOLBF] and [_IONBF] are 0, 1 and 2. *)
Definition setvbuf (mode size raddr : Z) (f : IO_File) (w : W) : outcome (Z * IO_File * W) :=
  if negb (r_offs f =? 0) || negb (w_offs f =? 0) || f_error f || f_eof f then Done (-1, f, w)
  else
    match mode with
    | 0 => '(ok, f, w) ← setbuf FullyBuffered size raddr f w; Done (if negb ok then -1 else 0, f, w)
    | 1 => '(ok, f, w) ← setbuf LineBuffered size raddr f w; Done (if negb ok then -1 else 0, f, w)
    | 2 => '(ok, f, w) ← setbuf Unbuffered 0 raddr f w; Done (if negb ok then -1 else 0, f, w)
    | _ => Done (-1, f, w)
    end.

(** [setbuf] of the C interface. *)
Definition setbuf_c (has_buffer : bool) (raddr : Z) (f : IO_File) (w : W) : outcome (IO_File * W) :=
  '(_, f, w) ← setvbuf (if has_buffer then 0 else 2) BUFSIZ raddr f w; Done (f, w).

(** [str] is what is put in front of the message for [errno], if it is not null. *)
Definition perror (str : option (list Z)) (message : list Z) (stderr : IO_File) (w : W) : outcome (IO_File * W) :=
  '(stderr, w) ← (match str with
                  | Some (c :: str) => '(_, stderr, w) ← fputs (c :: str) stderr w; '(_, stderr, w) ← fputs [58; 32] stderr w; Done (stderr, w)
                  | _ => Done (stderr, w)
                  end);
  '(_, stderr, w) ← fputs message stderr w;
  '(_, stderr, w) ← fputc 10 stderr w;
  Done (stderr, w).

(** One call of [fputc] for each byte, whatever it returns. *)
Fixpoint put_all (bytes : list Z) (f : IO_File) (w : W) : outcome (IO_File * W) :=
  match bytes with
  | [] => Done (f, w)
  | c :: bytes => '(_, f, w) ← fputc c f w; put_all bytes f w
  end.

(** [print_pointer] is what [std::print] does, which goes to [stdout]. *)
Fixpoint vfprintf (print_pointer : Z -> W -> outcome W) (fmt : list Z) (args : list va_arg) (f : IO_File) (w : W) : outcome (Z * IO_File * W) :=
  match fmt with
  | [] => Done (0, f, w)
  | c :: fmt =>
      if c =? 37 then
        match fmt with
        | [] => '(_, f, w) ← fputc 37 f w; Done (0, f, w)
        | c :: fmt =>
            if c =? 112 then
              match args with
              | va_pointer p :: args => w ← print_pointer p w; vfprintf print_pointer fmt args f w
              | _ => Stop Undefined
              end
            else
              match conversion c args with
              | Some r =>
                  '(out, args) ← r;
                  '(f, w) ← (if c =? 115 then '(_, f, w) ← fputs out f w; Done (f, w) else put_all out f w);
                  vfprintf print_pointer fmt args f w
              | None => '(_, f, w) ← fputc 37 f w; '(_, f, w) ← fputc c f w; vfprintf print_pointer fmt args f w
              end
        end
      else '(_, f, w) ← fputc c f w; vfprintf print_pointer fmt args f w
  end.

(** ** The open streams of a program *)

Record stdio := mkStdio { files : Store.store IO_File; open_files : Sparse.sparse_vector Z }.

Definition put_file (a : Z) (f : IO_File) (s : stdio) : stdio := mkStdio (Store.put a f (files s)) (open_files s).

Definition create (fd raddr : Z) (b : Buffering) (s : stdio) : Z * stdio :=
  let '(a, fs) := Store.new (new_file fd raddr b) (files s) in
  let '(_, _, v) := Sparse.push_back 0 a (open_files s) in
  (a, mkStdio fs v).

(** [erase(it)] of a sparse vector: [begin()] is the first valid element. *)
Definition erase_iterator (i : nat) (v : Sparse.sparse_vector Z) : outcome (bool * Sparse.sparse_vector Z) :=
  let first := match list_find (fun x => x ≠ 0) (Sparse.els v) with Some (j, _) => j | None => length (Sparse.els v) end in
  Sparse.erase 0 (wrap64 (Z.of_nat i - Z.of_nat first)) v.

(** [_IO_File::erase]: the descriptor is gone when it is used as an index. *)
Definition erase (a : Z) (s : stdio) (w : W) : outcome (stdio * W) :=
  f ← Store.get a (files s);
  '(f, w) ← close f w;
  let s := put_file a f s in
  let index := wrap64 (fd f) in
  '(_, v) ← (if decide (Sparse.get index (open_files s) = Some a) then Sparse.erase 0 index (open_files s)
             else match list_find (eq a) (Sparse.els (open_files s)) with
                  | Some (i, _) => erase_iterator i (open_files s)
                  | None => Done (false, open_files s)
                  end);
  Done (mkStdio (files s) v, w).

Definition fclose (a : Z) (s : stdio) (w : W) : outcome (Z * stdio * W) :=
  '(s, w) ← erase a s w; Done (0, s, w).

(** The loop over the open files, from position [i]. *)
Fixpoint close_from (n i : nat) (s : stdio) (w : W) : outcome (stdio * W) :=
  match n with
  | O => Done (s, w)
  | S n =>
      a ← Sparse.el (Z.of_nat i) (open_files s);
      '(s, w) ← (if a =? 0 then Done (s, w) else erase a s w);
      close_from n (S i) s w
  end.

Definition close_all (s : stdio) (w : W) : outcome (stdio * W) := close_from (length (Sparse.els (open_files s))) 0 s w.

(** [fflush(nullptr)]: all streams, up to the first that fails. *)
Fixpoint flush_from (as_ : list Z) (s : stdio) (w : W) : outcome (Z * stdio * W) :=
  match as_ with
  | [] => Done (0, s, w)
  | a :: as_ =>
      f ← Store.get a (files s);
      '(ok, f, w) ← flush f w;
      let s := put_file a f s in
      if negb ok then Done (EOF, s, w) else flush_from as_ s w
  end.

Definition fflush (a : Z) (s : stdio) (w : W) : outcome (Z * stdio * W) :=
  flush_from (if a =? 0 then (Sparse.pairs 0 (open_files s)).*2 else [a]) s w.

Definition fopen (filename : list Z) (raddr : Z) (s : stdio) (w : W) : outcome (Z * stdio * W) :=
  '(d, w) ← sys_open filename w;
  if d <? 0 then Done (0, s, w) else let '(a, s) := create d raddr FullyBuffered s in Done (a, s, w).

Definition freopen (filename : option (list Z)) (a : Z) (s : stdio) (w : W) : outcome (Z * stdio * W) :=
  match filename with
  | None => Done (0, s, w)
  | Some filename =>
      '(d, w) ← sys_open filename w;
      if d <? 0 then Done (0, s, w)
      else f ← Store.get a (files s); '(f, w) ← reassociate d f w; Done (a, put_file a f s, w)
  end.

(** [__stdio_init], with the addresses of the buffers. *)
Definition stdio_init (r0 r1 r2 : Z) (s : stdio) : Z * Z * Z * stdio :=
  let '(stdin, s) := create 0 r0 LineBuffered s in
  let '(stdout, s) := create 1 r1 LineBuffered s in
  let '(stderr, s) := create 2 r2 Unbuffered s in
  (stdin, stdout, stderr, s).

End Calls.

(** ** Numbers *)

(** The number that a row of decimal digits stands for. *)
Definition decimal (ds : list Z) : Z := fold_left (fun n d => n * 10 + (d - 48)) ds 0.

Lemma decimal_fold ds n : fold_left (fun n d => n * 10 + (d - 48)) ds n = n * 10 ^ Z.of_nat (length ds) + decimal ds.
Proof.
  unfold decimal. revert n. induction ds as [|d ds IH]; intros n; cbn [fold_left length]; [cbn; lia|].
  rewrite IH, (IH (0 * 10 + (d - 48))). rewrite Nat2Z.inj_succ, Z.pow_succ_r by lia. lia.
Qed.

Lemma decimal_cons d ds : decimal (d :: ds) = (d - 48) * 10 ^ Z.of_nat (length ds) + decimal ds.
Proof. unfold decimal at 1. cbn [fold_left]. rewrite decimal_fold. done. Qed.

Definition is_digit (c : Z) : Prop := 48 <= c < 58.

Lemma digit_from_value_digit v : 0 <= v < 10 -> digit_from_value v = 48 + v.
Proof. intros H. unfold digit_from_value. by rewrite (proj2 (Z.ltb_lt _ _)) by lia. Qed.

(** The digits of [val] and then those of [acc]. *)
Lemma digits_loop_spec i val acc :
  0 <= val < 10 ^ Z.of_nat i -> Forall is_digit acc ->
  Forall is_digit (digits_loop i val acc) /\
  decimal (digits_loop i val acc) = val * 10 ^ Z.of_nat (length acc) + decimal acc /\
  (0 < val -> digits_loop i val acc ≠ [] /\ head (digits_loop i val acc) ≠ Some 48).
Proof.
  revert val acc. induction i as [|i IH]; intros val acc Hv Ha; cbn [digits_loop]; [replace val with 0 by (cbn in Hv; lia); split_and!; [done|lia|lia]|].
  destruct (Z.eqb_spec val 0) as [->|Hn]; [split_and!; [done|lia|lia]|].
  rewrite Nat2Z.inj_succ, Z.pow_succ_r in Hv by lia. pose proof (Z.div_mod val 10 ltac:(lia)) as Hdm. pose proof (Z.mod_pos_bound val 10 ltac:(lia)) as Hm.
  rewrite digit_from_value_digit by lia.
  destruct (IH (val / 10) ((48 + val mod 10) :: acc)) as (Hd & He & Hh); [lia|constructor; [unfold is_digit; lia|done]|].
  split_and!; [done| |].
  - rewrite He, decimal_cons. cbn [length]. rewrite Nat2Z.inj_succ, Z.pow_succ_r by lia. nia.
  - intros _. destruct (Z.eq_dec (val / 10) 0) as [E0|]; [|apply Hh; lia].
    rewrite E0. destruct i; cbn; (split; [done|intros [=]; lia]).
Qed.

(** [%u] prints the decimal digits, without a zero in front. *)
Lemma number_digits_spec val : 0 <= val < 10 ^ 32 ->
  Forall is_digit (number_digits val) /\ decimal (number_digits val) = val /\ (0 < val -> head (number_digits val) ≠ Some 48).
Proof.
  intros Hv. unfold number_digits. destruct (digits_loop_spec max_digits val [] Hv (Forall_nil_2 _)) as (Hd & He & Hh).
  destruct (digits_loop max_digits val []) as [|d ds] eqn:E.
  - split_and!; [by repeat constructor|cbn in *; lia|intros H; by apply Hh in H as []].
  - split_and!; [done|rewrite He; cbn; lia|intros H; by apply Hh].
Qed.

Lemma number_digits_bytes val : 0 <= val < 10 ^ 32 -> Forall is_byte (number_digits val).
Proof. intros H. destruct (number_digits_spec val H) as (Hd & _ & _). eapply Forall_impl; [done|]. unfold is_digit, is_byte. lia. Qed.

(** ** A kernel that takes bytes in order

    A write may take all of the bytes, some from the front, or none and fail; it may
    also ask to be called again, which it does [waits] times at most. *)

Class SinkLaws (W : Type) `{!Syscalls W} := {
  out : Z -> W -> list Z;
  waits : Z -> W -> nat;
  sink_write d bytes w : exists rc w', sys_write d bytes w = Done (rc, w') /\ (forall d', d' ≠ d -> out d' w' = out d' w) /\
    if decide (rc = -2) then out d w' = out d w /\ (waits d w' < waits d w)%nat
    else rc <= Z.of_nat (length bytes) /\ out d w' = out d w ++ take (Z.to_nat rc) bytes;
  sink_close d w : exists w', sys_close d w = Done w' /\ forall d', out d' w' = out d' w
}.

(** Every write that does not ask to be called again takes everything. *)
Definition takes_all (W : Type) `{!Syscalls W} : Prop :=
  forall d bytes (w : W) rc w', sys_write d bytes w = Done (rc, w') -> rc = -2 \/ rc = Z.of_nat (length bytes).

Section Sinks.
Context {W : Type} `{!Syscalls W, !SinkLaws W} (fuel : nat).
Hypothesis Hfuel : forall d w, (waits d w < fuel)%nat.

(** A stream whose buffer fits, and is not used without buffering. *)
Record stream_ok (f : IO_File) : Prop := {
  so_cap : 0 < w_cap f < 2 ^ 62;
  so_fits : w_offs f <= w_cap f;
  so_unbuffered : buffering f = Unbuffered -> w_buf f = []
}.

(** All that was written to the stream: what has been sent, and what waits. *)
Definition sent (f : IO_File) (w : W) : list Z := out (fd f) w ++ w_buf f.

(** From [f] and [w] to [f'] and [w'] the bytes were written. *)
Record wrote (bytes : list Z) (f : IO_File) (w : W) (f' : IO_File) (w' : W) : Prop := {
  wr_ok : stream_ok f';
  wr_sent : sent f' w' = sent f w ++ bytes;
  wr_fd : fd f' = fd f;
  wr_cap : w_cap f' = w_cap f;
  wr_buffering : buffering f' = buffering f;
  wr_error : f_error f' = f_error f;
  wr_others d : d ≠ fd f -> out d w' = out d w
}.

(** A write was not complete: the stream tells. *)
Record failed (f : IO_File) (w : W) (f' : IO_File) (w' : W) : Prop := {
  fl_ok : stream_ok f';
  fl_fd : fd f' = fd f;
  fl_error : f_error f' = true;
  fl_short : ~ takes_all W;
  fl_others d : d ≠ fd f -> out d w' = out d w
}.

Lemma wrote_refl f w : stream_ok f -> wrote [] f w f w.
Proof. intros O. split; try done. by rewrite app_nil_r. Qed.

Lemma wrote_trans b1 b2 f1 w1 f2 w2 f3 w3 : wrote b1 f1 w1 f2 w2 -> wrote b2 f2 w2 f3 w3 -> wrote (b1 ++ b2) f1 w1 f3 w3.
Proof.
  intros [O1 S1 D1 C1 B1 E1 X1] [O2 S2 D2 C2 B2 E2 X2]. split; try congruence; [by rewrite S2, S1, (assoc_L (++))|].
  intros d Hd. rewrite X2, X1; congruence.
Qed.

Lemma wrote_failed b f1 w1 f2 w2 f3 w3 : wrote b f1 w1 f2 w2 -> failed f2 w2 f3 w3 -> failed f1 w1 f3 w3.
Proof. intros [O1 S1 D1 C1 B1 E1 X1] [O2 D2 E2 S2 X2]. split; try congruence. intros d Hd. rewrite X2, X1; congruence. Qed.

Lemma failed_wrote b f1 w1 f2 w2 f3 w3 : failed f1 w1 f2 w2 -> wrote b f2 w2 f3 w3 -> failed f1 w1 f3 w3.
Proof. intros [O1 D1 E1 S1 X1] [O2 S2 D2 C2 B2 E2 X2]. split; try congruence. intros d Hd. rewrite X2, X1; congruence. Qed.

Lemma failed_trans f1 w1 f2 w2 f3 w3 : failed f1 w1 f2 w2 -> failed f2 w2 f3 w3 -> failed f1 w1 f3 w3.
Proof. intros [O1 D1 E1 S1 X1] [O2 D2 E2 S2 X2]. split; try congruence. intros d Hd. rewrite X2, X1; congruence. Qed.

Lemma set_error_failed f w w' : stream_ok f -> ~ takes_all W -> (forall d, d ≠ fd f -> out d w' = out d w) -> failed f w (set_error f) w'.
Proof. intros [H1 H2 H3] Hs Ho. by split. Qed.

Lemma not_failed n : write_failed (Z.of_nat n) (Z.of_nat n) = false.
Proof. unfold write_failed. rewrite (proj2 (Z.ltb_ge _ _)), Z.eqb_refl by lia. done. Qed.

Lemma unistd_write_tried d bytes w :
  exists rc w', unistd_write fuel d bytes w = Done (rc, w') /\ (forall d', d' ≠ d -> out d' w' = out d' w) /\
    ((rc = Z.of_nat (length bytes) /\ out d w' = out d w ++ bytes) \/ (write_failed rc (Z.of_nat (length bytes)) = true /\ ~ takes_all W)).
Proof.
  specialize (Hfuel d w). revert w Hfuel. induction fuel as [|n IH]; intros w Hw; [lia|]. cbn [unistd_write].
  destruct (sink_write d bytes w) as (rc & w1 & E & Ho & H). rewrite E. cbn [mbind outcome_bind]. case_decide as D.
  - rewrite D. cbn [Z.eqb]. destruct H as [Hs Hlt]. destruct (IH w1 ltac:(lia)) as (rc2 & w2 & E2 & Ho2 & H2). exists rc2, w2. rewrite E2, <- Hs.
    split_and!; [done| |done]. intros d' Hd. by rewrite Ho2, Ho.
  - rewrite (proj2 (Z.eqb_neq _ _) D). exists rc, w1. split_and!; [done|done|]. destruct H as [Hle Hs]. destruct (decide (rc = Z.of_nat (length bytes))) as [->|Hne].
    + left. split; [done|]. by rewrite Hs, Nat2Z.id, firstn_all.
    + right. split; [|intros T; destruct (T _ _ _ _ _ E); done]. unfold write_failed. rewrite (proj2 (Z.eqb_neq _ _) Hne). by rewrite orb_true_r.
Qed.

Lemma flush_tried f w : stream_ok f ->
  exists ok f' w', flush fuel f w = Done (ok, f', w') /\ if ok then wrote [] f w f' w' /\ w_buf f' = [] else failed f w f' w'.
Proof.
  intros O. unfold flush, w_offs. destruct (w_buf f) as [|c l] eqn:Eb.
  { exists true, f, w. split_and!; [done|by apply wrote_refl|done]. }
  rewrite (proj2 (Z.eqb_neq _ _)) by (cbn; lia). destruct (unistd_write_tried (fd f) (c :: l) w) as (rc & w' & E & Ho & H). rewrite E. cbn [mbind outcome_bind].
  destruct H as [[-> Hs]|[-> Hn]]; [|exists false, (set_error f), w'; split; [done|by apply set_error_failed]].
  rewrite not_failed. exists true, (with_wbuf [] f), w'. split_and!; [done| |done]. split; try done; [|unfold sent; cbn; by rewrite Eb, Hs, !app_nil_r].
  destruct O as [Hc Hf Hu]. split; [done|unfold w_offs; cbn; lia|done].
Qed.

Lemma write_internal_tried bytes f w :
  stream_ok f -> buffering f ≠ Unbuffered -> Z.of_nat (length bytes) < 2 ^ 62 ->
  exists r f' w', write_internal fuel bytes f w = Done (r, f', w') /\
    ((r = Z.of_nat (length bytes) /\ wrote bytes f w f' w' /\ (w_buf f' = w_buf f ++ bytes \/ w_buf f' = bytes \/ w_buf f' = [])) \/
     (r = EOF /\ failed f w f' w')).
Proof.
  intros O Hb Hl. unfold write_internal. pose proof (so_fits _ O). pose proof (so_cap _ O). rewrite wrap64_small by (unfold is_u64, w_offs in *; lia).
  assert (H1 : exists ok f1 w1, (if w_cap f <? w_offs f + Z.of_nat (length bytes) then flush fuel f w else Done (true, f, w)) = Done (ok, f1, w1) /\
    if ok then wrote [] f w f1 w1 /\ ((w_buf f1 = [] /\ w_cap f < w_offs f + Z.of_nat (length bytes)) \/ (f1 = f /\ w_offs f + Z.of_nat (length bytes) <= w_cap f))
    else failed f w f1 w1).
  { destruct (Z.ltb_spec (w_cap f) (w_offs f + Z.of_nat (length bytes))).
    - destruct (flush_tried f w O) as (ok & f1 & w1 & E & Wr). exists ok, f1, w1. split; [done|]. destruct ok; [destruct Wr; auto|done].
    - exists true, f, w. split_and!; [done|by apply wrote_refl|]. by right. }
  destruct H1 as (ok & f1 & w1 & E1 & W1). rewrite E1. cbn [mbind outcome_bind]. destruct ok; cbn [negb]; [|exists EOF, f1, w1; split; [done|by right]].
  destruct W1 as [Wr1 Hcase]. pose proof Wr1 as [O1 S1 D1 C1 B1 R1 X1].
  destruct (Z.ltb_spec (w_cap f1) (Z.of_nat (length bytes))) as [Hbig|Hsmall].
  - destruct Hcase as [[Eb _]|[-> Hle]]; [|unfold w_offs in *; lia].
    destruct (unistd_write_tried (fd f1) bytes w1) as (rc & w2 & E2 & Ho & H2). rewrite E2. cbn [mbind outcome_bind].
    destruct H2 as [[-> Hs]|[-> Hn]]; [|exists EOF, (set_error f1), w2; split; [done|right; split; [done|]; eapply wrote_failed; [exact Wr1|by apply set_error_failed]]].
    rewrite not_failed. exists (Z.of_nat (length bytes)), f1, w2. split; [done|]. left. split_and!; [done| |by right; right]. split; try done.
    + rewrite app_nil_r in S1. rewrite <- S1. unfold sent. by rewrite Hs, Eb, !app_nil_r.
    + intros d Hd. rewrite Ho, X1 by congruence. done.
  - exists (Z.of_nat (length bytes)), (with_wbuf (w_buf f1 ++ bytes) f1), w1. split; [done|]. left. split_and!; [done| |].
    + split; try done; [|unfold sent in *; cbn; rewrite app_nil_r in S1; by rewrite (assoc_L (++)), S1].
      split; [apply O1| |cbn; congruence]. unfold w_offs. cbn. rewrite length_app. destruct Hcase as [[Eb _]|[-> Hle]]; [rewrite Eb; cbn; lia|unfold w_offs in *; lia].
    + cbn. destruct Hcase as [[-> _]|[-> _]]; auto.
Qed.

(** A line-buffered stream without an error keeps no newline. *)
Definition line_ok (f : IO_File) : Prop := buffering f = LineBuffered -> f_error f = false -> 10 ∉ w_buf f.

Lemma empty_line_ok f : w_buf f = [] -> line_ok f.
Proof. intros E _ _. rewrite E. apply not_elem_of_nil. Qed.

Lemma failed_line_ok f w f' w' : failed f w f' w' -> line_ok f'.
Proof. intros F _ E. by rewrite (fl_error _ _ _ _ F) in E. Qed.

(** What a call leaves: the bytes written, or an error. *)
Definition tried (bytes : list Z) (f : IO_File) (w : W) (f' : IO_File) (w' : W) : Prop := (wrote bytes f w f' w' /\ line_ok f') \/ failed f w f' w'.

Lemma tried_ok bytes f w f' w' : tried bytes f w f' w' -> stream_ok f' /\ line_ok f'.
Proof. intros [[Wr L]|F]; [split; [apply Wr|done]|]. split; [apply F|by eapply failed_line_ok]. Qed.

Lemma tried_trans b1 b2 f1 w1 f2 w2 f3 w3 : tried b1 f1 w1 f2 w2 -> tried b2 f2 w2 f3 w3 -> tried (b1 ++ b2) f1 w1 f3 w3.
Proof.
  intros [[W1 L1]|F1] [[W2 L2]|F2].
  - left. split; [by eapply wrote_trans|done].
  - right. by eapply wrote_failed.
  - right. by eapply failed_wrote.
  - right. by eapply failed_trans.
Qed.

Lemma write_lines_tried n str written f w :
  stream_ok f -> buffering f = LineBuffered -> Z.of_nat (length str) < 2 ^ 62 -> (length str < n)%nat -> line_ok f ->
  exists r f' w', write_lines fuel n str written f w = Done (r, f', w') /\
    ((r = written + Z.of_nat (length str) /\ wrote str f w f' w' /\ line_ok f') \/ failed f w f' w').
Proof.
  revert str written f w. induction n as [|n IH]; intros str written f w O Hb Hl Hn L; [lia|]. cbn [write_lines].
  destruct (list_find (eq 10) str) as [[i c]|] eqn:Ef.
  - apply list_find_Some in Ef as (Hi & _ & _). pose proof (lookup_lt_Some _ _ _ Hi) as Hlt.
    destruct (write_internal_tried (take (S i) str) f w O) as (r1 & f1 & w1 & E1 & H1); [by rewrite Hb|rewrite length_take; lia|].
    rewrite length_take_le in H1 by lia. rewrite E1. cbn [mbind outcome_bind]. replace (Z.of_nat (S i)) with (Z.of_nat i + 1) in * by lia.
    destruct H1 as [(-> & W1 & _)|[-> F1]].
    2: { rewrite (proj2 (Z.eqb_neq EOF _)) by (unfold EOF; lia). eexists _, f1, w1. split; [done|by right]. }
    rewrite Z.eqb_refl. cbn [negb]. destruct (flush_tried f1 w1 (wr_ok _ _ _ _ _ W1)) as (ok & f2 & w2 & E2 & H2). rewrite E2. cbn [mbind outcome_bind].
    destruct ok; cbn [negb]; [|eexists _, f2, w2; split; [done|right; by eapply wrote_failed]]. destruct H2 as [W2 Eb].
    pose proof (wrote_trans _ _ _ _ _ _ _ _ W1 W2) as W12. rewrite app_nil_r in W12.
    destruct (IH (drop (S i) str) (written + (Z.of_nat i + 1)) f2 w2) as (r3 & f3 & w3 & E3 & H3);
      [apply W2|by rewrite (wr_buffering _ _ _ _ _ W12)|rewrite length_drop; lia|rewrite length_drop; lia|by apply empty_line_ok|].
    exists r3, f3, w3. split; [done|]. destruct H3 as [(-> & W3 & L3)|F3]; [left|right; by eapply wrote_failed]. rewrite length_drop. split_and!; [lia| |done].
    rewrite <- (take_drop (S i) str). by eapply wrote_trans.
  - apply list_find_None in Ef. destruct (write_internal_tried str f w O) as (r1 & f1 & w1 & E1 & H1); [by rewrite Hb|done|].
    rewrite E1. cbn [mbind outcome_bind]. eexists _, f1, w1. split; [done|]. destruct H1 as [(-> & W1 & Hcase)|[-> F1]]; [left|by right]. split_and!; [done|done|].
    intros _ He. rewrite (wr_error _ _ _ _ _ W1) in He. assert (Hs : 10 ∉ str) by (intros Hin; rewrite Forall_forall in Ef; by apply (Ef 10 Hin)).
    pose proof (L Hb He). destruct Hcase as [-> |[-> | ->]]; [rewrite elem_of_app; tauto|done|apply not_elem_of_nil].
Qed.

Lemma write_tried str f w :
  stream_ok f -> line_ok f -> Z.of_nat (length str) < 2 ^ 62 ->
  exists r f' w', write fuel str f w = Done (r, f', w') /\ ((r = Z.of_nat (length str) /\ wrote str f w f' w' /\ line_ok f') \/ failed f w f' w').
Proof.
  intros O L Hl. unfold write. destruct (buffering f) eqn:Eb.
  - destruct (write_internal_tried str f w O) as (r & f' & w' & E & H); [by rewrite Eb|done|]. exists r, f', w'. split; [done|].
    destruct H as [(-> & Wr & _)|[_ F]]; [left|by right]. split_and!; try done. intros Hlb. rewrite (wr_buffering _ _ _ _ _ Wr) in Hlb. congruence.
  - by destruct (write_lines_tried (S (length str)) str 0 f w O Eb Hl ltac:(lia) L) as (r & f' & w' & E & H); exists r, f', w'.
  - destruct (unistd_write_tried (fd f) str w) as (rc & w' & E & Ho & H). rewrite E. cbn [mbind outcome_bind].
    destruct H as [[-> Hs]|[-> Hn]]; [|exists EOF, (set_error f), w'; split; [done|right; by apply set_error_failed]].
    rewrite not_failed. exists (Z.of_nat (length str)), f, w'. split; [done|]. left. split_and!; [done| |done].
    split; try done. unfold sent. by rewrite Hs, (so_unbuffered _ O Eb), !app_nil_r.
Qed.

(** *** Sequences of calls on a stream *)

Inductive call := call_fputc (c : Z) | call_fputs (str : list Z) | call_fflush.

Definition run_call (c : call) (f : IO_File) (w : W) : outcome (IO_File * W) :=
  match c with
  | call_fputc c => '(_, f, w) ← fputc fuel c f w; Done (f, w)
  | call_fputs str => '(_, f, w) ← fputs fuel str f w; Done (f, w)
  | call_fflush => '(_, f, w) ← flush fuel f w; Done (f, w)
  end.

Fixpoint run_calls (cs : list call) (f : IO_File) (w : W) : outcome (IO_File * W) :=
  match cs with
  | [] => Done (f, w)
  | c :: cs => '(f, w) ← run_call c f w; run_calls cs f w
  end.

Definition payload (c : call) : list Z :=
  match c with call_fputc c => [int_char c] | call_fputs str => str | call_fflush => [] end.

Definition call_ok (c : call) : Prop := Z.of_nat (length (payload c)) < 2 ^ 62.

Lemma run_call_tried c f w : stream_ok f -> line_ok f -> call_ok c -> exists f' w', run_call c f w = Done (f', w') /\ tried (payload c) f w f' w'.
Proof.
  intros O L Hc. assert (Hw : forall str, Z.of_nat (length str) < 2 ^ 62 -> exists r f' w', write fuel str f w = Done (r, f', w') /\ tried str f w f' w').
  { intros str Hl. destruct (write_tried str f w O L Hl) as (r & f' & w' & E & H). exists r, f', w'. split; [done|]. destruct H as [(_ & H)|H]; [by left|by right]. }
  destruct c as [c|str|]; cbn [run_call payload].
  - destruct (Hw [int_char c]) as (r & f' & w' & E & T); [cbn; lia|]. unfold fputc, write_char. rewrite E. by exists f', w'.
  - destruct (Hw str Hc) as (r & f' & w' & E & T). unfold fputs. rewrite E. by exists f', w'.
  - destruct (flush_tried f w O) as (ok & f' & w' & E & H). rewrite E. exists f', w'. split; [done|]. destruct ok; [left|by right].
    destruct H as [Wr Eb]. split; [done|by apply empty_line_ok].
Qed.

Lemma run_calls_tried cs f w : stream_ok f -> line_ok f -> Forall call_ok cs -> exists f' w', run_calls cs f w = Done (f', w') /\ tried (cs ≫= payload) f w f' w'.
Proof.
  intros O L Hcs. revert f w O L. induction Hcs as [|c cs Hc Hcs IH]; intros f w O L; cbn [run_calls mbind list_bind].
  { exists f, w. split; [done|]. left. split; [by apply wrote_refl|done]. }
  destruct (run_call_tried c f w O L Hc) as (f1 & w1 & E1 & T1). rewrite E1. cbn [mbind outcome_bind]. destruct (tried_ok _ _ _ _ _ T1) as [O1 L1].
  destruct (IH f1 w1 O1 L1) as (f2 & w2 & E2 & T2). exists f2, w2. split; [done|by eapply tried_trans].
Qed.

End Sinks.

Section Output.
Context {W : Type} `{!Syscalls W, !SinkLaws W} (fuel : nat).
Hypothesis Hfuel : forall d w, (waits d w < fuel)%nat.
Hypothesis Hall : takes_all W.

Lemma flush_spec f w : stream_ok f ->
  exists f' w', flush fuel f w = Done (true, f', w') /\ wrote [] f w f' w' /\ w_buf f' = [].
Proof.
  intros O. destruct (flush_tried fuel Hfuel f w O) as ([] & f' & w' & E & H); [by exists f', w'|]. by destruct (fl_short _ _ _ _ H).
Qed.

Lemma write_spec str f w :
  stream_ok f -> line_ok f -> Z.of_nat (length str) < 2 ^ 62 ->
  exists f' w', write fuel str f w = Done (Z.of_nat (length str), f', w') /\ wrote str f w f' w' /\ line_ok f'.
Proof.
  intros O L Hl. destruct (write_tried fuel Hfuel str f w O L Hl) as (r & f' & w' & E & [(-> & H)|H]); [by exists f', w'|]. by destruct (fl_short _ _ _ _ H).
Qed.

Lemma fputc_spec c f w : stream_ok f -> line_ok f ->
  exists f' w', fputc fuel c f w = Done (char_int (int_char c), f', w') /\ wrote [int_char c] f w f' w' /\ line_ok f'.
Proof.
  intros O L. unfold fputc, write_char. destruct (write_spec [int_char c] f w O L) as (f' & w' & E & Wr & L'); [cbn; lia|].
  rewrite E. cbn [mbind outcome_bind length]. exists f', w'. by split_and!.
Qed.

Lemma wrote_sink bytes f w f' w' :
  wrote bytes f w f' w' -> w_buf f' = [] -> out (fd f) w' = sent f w ++ bytes.
Proof. intros Wr E. rewrite <- (wr_sent _ _ _ _ _ Wr). unfold sent. by rewrite (wr_fd _ _ _ _ _ Wr), E, app_nil_r. Qed.

Lemma fputs_spec str f w : stream_ok f -> line_ok f -> Z.of_nat (length str) < 2 ^ 62 ->
  exists f' w', fputs fuel str f w = Done (0, f', w') /\ wrote str f w f' w' /\ line_ok f'.
Proof.
  intros O L Hl. unfold fputs. destruct (write_spec str f w O L Hl) as (f' & w' & E & Wr & L').
  rewrite E. cbn [mbind outcome_bind]. rewrite (proj2 (Z.eqb_neq _ _)) by (unfold EOF; lia). by exists f', w'.
Qed.

(** *** Formatted output *)

Lemma fputc_byte_spec c f w : is_byte c -> stream_ok f -> line_ok f ->
  exists r f' w', fputc fuel c f w = Done (r, f', w') /\ wrote [c] f w f' w' /\ line_ok f'.
Proof.
  intros Hc O L. destruct (fputc_spec c f w O L) as (f' & w' & E & Wr & L'). unfold int_char in Wr.
  rewrite Z.mod_small in Wr by (unfold is_byte in Hc; lia). by eexists _, f', w'.
Qed.

Lemma put_all_spec bytes f w : stream_ok f -> line_ok f -> Forall is_byte bytes ->
  exists f' w', put_all fuel bytes f w = Done (f', w') /\ wrote bytes f w f' w' /\ line_ok f'.
Proof.
  intros O L Hb. revert f w O L. induction Hb as [|c bytes Hc Hb IH]; intros f w O L; cbn [put_all].
  { exists f, w. split_and!; [done|by apply wrote_refl|done]. }
  destruct (fputc_byte_spec c f w Hc O L) as (r1 & f1 & w1 & E1 & W1 & L1). rewrite E1. cbn [mbind outcome_bind].
  destruct (IH f1 w1 (wr_ok _ _ _ _ _ W1) L1) as (f2 & w2 & E2 & W2 & L2). exists f2, w2. split_and!; [done| |done].
  by apply (wrote_trans [c] bytes _ _ _ _ _ _ W1 W2).
Qed.

(** The arguments are values of their types. *)
Definition arg_ok (a : va_arg) : Prop :=
  match a with
  | va_pointer _ => True
  | va_string str => Z.of_nat (length str) < 2 ^ 62
  | va_int z => - 2 ^ 31 <= z < 2 ^ 31
  | va_unsigned z => 0 <= z < 2 ^ 32
  end.

(** No [%p]. *)
Fixpoint no_pointer (fmt : list Z) : bool :=
  match fmt with
  | [] => true
  | c :: fmt =>
      if c =? 37 then match fmt with [] => true | c :: fmt => negb (c =? 112) && no_pointer fmt end else no_pointer fmt
  end.

Lemma int_digits_bytes z ds : - 2 ^ 31 <= z < 2 ^ 31 -> int_digits z = Done ds -> Forall is_byte ds.
Proof.
  intros Hz E. unfold int_digits in E. repeat case_match; simplify_eq; try (apply number_digits_bytes; lia).
  constructor; [unfold is_byte; lia|apply number_digits_bytes; lia].
Qed.

Lemma conversion_spec c args bytes args' : conversion c args = Some (Done (bytes, args')) -> Forall arg_ok args ->
  Forall arg_ok args' /\ (if c =? 115 then Z.of_nat (length bytes) < 2 ^ 62 else Forall is_byte bytes).
Proof.
  intros E Ha. unfold conversion in E. destruct (c =? 115).
  { destruct args as [|[] args]; simplify_eq. by inversion Ha. }
  destruct (c =? 99).
  { destruct args as [|[] args]; simplify_eq. inversion Ha; subst. split; [done|]. repeat constructor; by apply Z.mod_pos_bound. }
  destruct (c =? 117).
  { destruct args as [|[] args]; simplify_eq. inversion Ha as [|? ? Hz Ha']; subst. cbn in Hz. split; [done|]. apply number_digits_bytes. lia. }
  destruct ((c =? 105) || (c =? 100)); [|done].
  destruct args as [|[| |z|] args]; simplify_eq. inversion Ha as [|? ? Hz Ha']; subst. cbn in Hz.
  destruct (int_digits z) as [ds|] eqn:Ez; simplify_eq/=. split; [done|]. by eapply int_digits_bytes.
Qed.

Lemma put_converted c bytes f w : stream_ok f -> line_ok f -> (if c =? 115 then Z.of_nat (length bytes) < 2 ^ 62 else Forall is_byte bytes) ->
  exists f' w', (if c =? 115 then '(_, f, w) ← fputs fuel bytes f w; Done (f, w) else put_all fuel bytes f w) = Done (f', w') /\
    wrote bytes f w f' w' /\ line_ok f'.
Proof.
  intros O L. destruct (c =? 115); intros Hb; [|by apply put_all_spec].
  destruct (fputs_spec bytes f w O L Hb) as (f' & w' & E & Wr & L'). rewrite E. by exists f', w'.
Qed.

Lemma vfprintf_spec print_pointer fmt args bytes z f w :
  vsprintf_bytes fmt args = Done (bytes, z) -> Forall is_byte fmt -> no_pointer fmt = true -> Forall arg_ok args -> stream_ok f -> line_ok f ->
  exists f' w', vfprintf fuel print_pointer fmt args f w = Done (0, f', w') /\ wrote bytes f w f' w' /\ line_ok f'.
Proof.
  revert args bytes z f w. induction fmt as [fmt IH] using (induction_ltof1 _ length). unfold ltof in IH.
  intros args bytes z f w E Hb Hp Ha O L. destruct fmt as [|c fmt]; cbn [vsprintf_bytes vfprintf no_pointer] in *.
  { simplify_eq. exists f, w. split_and!; [done|by apply wrote_refl|done]. }
  inversion Hb as [|? ? Hc Hb']; subst. destruct (Z.eqb_spec c 37) as [->|_].
  - destruct fmt as [|c fmt].
    { destruct (fputc_byte_spec 37 f w Hc O L) as (r1 & f1 & w1 & E1 & W1 & L1). rewrite E1. simplify_eq. by exists f1, w1. }
    inversion Hb' as [|? ? Hc' Hb'']; subst. apply andb_true_iff in Hp as [Hp Hp']. apply negb_true_iff in Hp. rewrite Hp.
    destruct (conversion c args) as [[[out args']|]|] eqn:Ec; [|done|].
    + apply conversion_spec in Ec as [Ha' Ho]; [|done]. cbn [mbind outcome_bind] in *. destruct (vsprintf_bytes fmt args') as [[rest z']|] eqn:Er; simplify_eq/=.
      destruct (put_converted c out f w O L Ho) as (f1 & w1 & E1 & W1 & L1). rewrite E1. cbn [mbind outcome_bind].
      edestruct (IH fmt) as (f2 & w2 & E2 & W2 & L2); [cbn; lia|done|done|done|done|apply W1|done|]. exists f2, w2. split_and!; [done|by eapply wrote_trans|done].
    + cbn [mbind outcome_bind] in *. destruct (vsprintf_bytes fmt args) as [[rest z']|] eqn:Er; simplify_eq/=.
      destruct (fputc_byte_spec 37 f w Hc O L) as (r1 & f1 & w1 & E1 & W1 & L1). rewrite E1. cbn [mbind outcome_bind].
      destruct (fputc_byte_spec c f1 w1 Hc' (wr_ok _ _ _ _ _ W1) L1) as (r2 & f2 & w2 & E2 & W2 & L2). rewrite E2. cbn [mbind outcome_bind].
      edestruct (IH fmt) as (f3 & w3 & E3 & W3 & L3); [cbn; lia|done|done|done|done|apply W2|done|]. exists f3, w3. split_and!; [done| |done].
      apply (wrote_trans [37] (c :: rest) _ _ _ _ _ _ W1). by apply (wrote_trans [c] rest _ _ _ _ _ _ W2).
  - cbn [mbind outcome_bind] in *. destruct (vsprintf_bytes fmt args) as [[rest z']|] eqn:Er; simplify_eq/=.
    destruct (fputc_byte_spec c f w Hc O L) as (r1 & f1 & w1 & E1 & W1 & L1). rewrite E1. cbn [mbind outcome_bind].
    edestruct (IH fmt) as (f2 & w2 & E2 & W2 & L2); [cbn; lia|done|done|done|done|apply W1|done|]. exists f2, w2. split_and!; [done| |done].
    by apply (wrote_trans [c] rest _ _ _ _ _ _ W1).
Qed.

End Output.

(** ** A kernel that has what it gives *)

Class SourceLaws (W : Type) `{!Syscalls W} := {
  ahead : Z -> W -> list Z;
  source_read d count w : 0 < count ->
    exists bytes w', sys_read d count w = Done (Z.of_nat (length bytes), bytes, w') /\
      ahead d w = bytes ++ ahead d w' /\ Z.of_nat (length bytes) <= count /\ (bytes = [] -> ahead d w = [])
}.

Section Input.
Context {W : Type} `{!Syscalls W, !SourceLaws W} (fuel : nat).
Hypothesis Hfuel : (0 < fuel)%nat.

(** A stream one can read from. *)
Record reader_ok (f : IO_File) : Prop := {
  ro_start : 0 <= r_start f <= r_offs f;
  ro_offs : r_offs f <= Z.of_nat (length (r_buf f));
  ro_cap : 0 < r_cap f < 2 ^ 62;
  ro_error : f_error f = false;
  ro_eof : f_eof f = false;
  ro_ungotten : f_has_ungotten f = false
}.

(** The bytes of the read buffer that the program has not seen. *)
Definition unread (f : IO_File) : list Z := take (Z.to_nat (r_offs f - r_start f)) (drop (Z.to_nat (r_start f)) (r_buf f)).

(** All that the program has yet to see. *)
Definition to_come (f : IO_File) (w : W) : list Z := unread f ++ ahead (fd f) w.

Lemma length_unread f : reader_ok f -> Z.of_nat (length (unread f)) = r_offs f - r_start f.
Proof. intros [H1 H2 _ _ _ _]. unfold unread. rewrite length_take, length_drop. lia. Qed.

(** Copying takes from the front of what is unread. *)
Lemma copy_from_read_buffer_spec buf size f m : reader_ok f -> 0 <= size -> r_start f < r_offs f ->
  exists f', copy_from_read_buffer buf size f m =
      (Z.min size (r_offs f - r_start f), f', store_bytes buf (take (Z.to_nat size) (unread f)) m) /\
    reader_ok f' /\ unread f' = drop (Z.to_nat size) (unread f) /\ fd f' = fd f.
Proof.
  intros O Hs Hlt. pose proof (length_unread f O) as Hlen. unfold copy_from_read_buffer. destruct (Z.eqb_spec size 0) as [->|Hn].
  { exists f. rewrite Z.min_l by lia. done. }
  rewrite (proj2 (Z.leb_gt _ _)) by lia.
  assert (Hst : take (Z.to_nat (Z.min size (r_offs f - r_start f))) (drop (Z.to_nat (r_start f)) (r_buf f)) = take (Z.to_nat size) (unread f)).
  { unfold unread. rewrite take_take. f_equal. lia. }
  rewrite Hst. destruct (Z.eqb_spec (r_offs f - r_start f) (Z.min size (r_offs f - r_start f))) as [E|E].
  - eexists. split_and!; [done|destruct O; split; try done; cbn; lia| |done].
    rewrite drop_ge by lia. unfold unread. cbn. done.
  - eexists. split_and!; [done|destruct O; split; try done; cbn; lia| |done].
    unfold unread. cbn. rewrite skipn_firstn_comm, drop_drop. f_equal; [lia|f_equal]. destruct O. lia.
Qed.

(** What the next system call brings is unread afterwards. *)
Lemma refill f w : reader_ok f -> r_start f = r_offs f ->
  exists bytes w', unistd_read fuel (fd f) (r_cap f) w = Done (Z.of_nat (length bytes), bytes, w') /\
    wrap64 (Z.of_nat (length bytes)) = Z.of_nat (length bytes) /\
    to_come f w = bytes ++ ahead (fd f) w' /\ (bytes = [] -> to_come f w = []) /\
    reader_ok (with_rdbuf bytes 0 (Z.of_nat (length bytes)) f) /\ unread (with_rdbuf bytes 0 (Z.of_nat (length bytes)) f) = bytes.
Proof.
  intros O Heq. pose proof (ro_cap _ O) as Hcap. destruct (source_read (fd f) (r_cap f) w ltac:(lia)) as (bytes & w' & E & Ha & Hl & Hnil).
  assert (Ht : to_come f w = ahead (fd f) w) by (unfold to_come, unread; by rewrite Heq, Z.sub_diag).
  exists bytes, w'. rewrite Ht. split_and!; [|apply wrap64_small; unfold is_u64; lia|done|done|destruct O; split; try done; cbn; lia|].
  - destruct fuel as [|n]; [lia|]. cbn [unistd_read]. rewrite E. cbn [mbind outcome_bind]. by rewrite (proj2 (Z.eqb_neq _ _)) by lia.
  - unfold unread. cbn. rewrite Z.sub_0_r, Nat2Z.id. apply firstn_all.
Qed.

(** The state after a read that took [got]. *)
Record took (got : list Z) (f : IO_File) (w : W) (f' : IO_File) (w' : W) : Prop := {
  tk_next : to_come f w = got ++ to_come f' w';
  tk_fd : fd f' = fd f;
  tk_end : got = [] -> to_come f w = [] /\ f_eof f' = true;
  tk_ok : got ≠ [] -> reader_ok f'
}.

(** The file is asked for the rest when nothing is left in the buffer. *)
Lemma read_rest_spec buf size rest f w m : reader_ok f -> r_start f = r_offs f -> 0 < rest <= size -> size < 2 ^ 62 ->
  exists got f' w', read_rest fuel buf size rest f w m = Done (size - rest + Z.of_nat (length got), f', w', store_bytes buf got m) /\
    took got f w f' w' /\ Z.of_nat (length got) <= rest.
Proof.
  intros O Heq Hr Hs. unfold read_rest, BUFFERED_READ_THRESHOLD. assert (Hsub : size -64 rest = size - rest) by (apply wrap64_small; unfold is_u64; lia).
  rewrite Hsub. assert (Hun : unread f = []) by (unfold unread; by rewrite Heq, Z.sub_diag). destruct (Z.ltb_spec rest 64) as [Hlt|Hge].
  - destruct (refill f w O Heq) as (bytes & w' & E & Hw & Hc & Hnil & O1 & Hu). rewrite E. cbn [mbind outcome_bind]. rewrite (proj2 (Z.eqb_neq _ _)) by lia.
    destruct (Z.eqb_spec (Z.of_nat (length bytes)) 0) as [H0|H0].
    { destruct bytes; [|cbn in H0; lia]. exists [], (set_eof f), w'. split_and!; [by rewrite Z.add_0_r| |cbn; lia]. specialize (Hnil eq_refl). split; try done.
      rewrite Hc. unfold to_come. change (unread (set_eof f)) with (unread f). by rewrite Hun. }
    rewrite Hw. destruct (copy_from_read_buffer_spec buf rest _ m O1) as (f2 & Ec & O2 & Hu2 & Hd2); [lia|cbn; lia|].
    rewrite Ec, Hu. cbn [r_offs r_start with_rdbuf]. rewrite Hu in Hu2. exists (take (Z.to_nat rest) bytes), f2, w'. rewrite length_take. split_and!.
    + destruct (Z.eqb_spec (Z.min rest (Z.of_nat (length bytes) - 0)) rest); do 4 f_equal; lia.
    + split; [|done|intros Hn; apply (f_equal length) in Hn; rewrite length_take in Hn; cbn in Hn; lia|done].
      rewrite Hc. unfold to_come. rewrite Hu2, Hd2. cbn [fd with_rdbuf]. by rewrite (assoc_L (++)), take_drop.
    + lia.
  - destruct (source_read (fd f) rest w ltac:(lia)) as (bytes & w' & E & Ha & Hl & Hnil).
    assert (Er : unistd_read fuel (fd f) rest w = Done (Z.of_nat (length bytes), bytes, w')).
    { destruct fuel as [|n]; [lia|]. cbn [unistd_read]. rewrite E. cbn [mbind outcome_bind]. by rewrite (proj2 (Z.eqb_neq _ _)) by lia. }
    rewrite Er. cbn [mbind outcome_bind]. rewrite (proj2 (Z.eqb_neq _ (-1))) by lia. eexists bytes, _, w'. split_and!; [done| |lia].
    assert (Hto : forall f' w, unread f' = unread f -> fd f' = fd f -> to_come f' w = ahead (fd f) w) by (intros f' w1 E1 E2; unfold to_come; by rewrite E1, E2, Hun).
    destruct (Z.eqb_spec (Z.of_nat (length bytes)) 0) as [H0|H0]; (split; [by rewrite !Hto by done|done| |]).
    + intros Hn. split; [rewrite Hto by done; auto|done].
    + destruct bytes; [done|cbn in H0; lia].
    + by intros ->.
    + done.
Qed.

(** A read that the buffer can serve, or that finds the buffer empty. *)
Lemma read_spec buf size f w m : reader_ok f -> 0 < size < 2 ^ 62 -> unread f = [] \/ size <= Z.of_nat (length (unread f)) ->
  exists got f' w', read fuel buf size f w m = Done (Z.of_nat (length got), f', w', store_bytes buf got m) /\
    took got f w f' w' /\ Z.of_nat (length got) <= size.
Proof.
  intros O Hs Hcase. pose proof (length_unread f O) as Hlen. unfold read. rewrite (ro_error _ O), (ro_eof _ O), (ro_ungotten _ O). cbn [andb].
  destruct (Z.ltb_spec (r_start f) (r_offs f)) as [Hlt|Hge].
  - destruct Hcase as [Hn|Hle]; [rewrite Hn in Hlen; cbn in Hlen; lia|].
    destruct (copy_from_read_buffer_spec buf size f m O) as (f1 & E & O1 & Hu & Hd); [lia|done|]. rewrite E, Z.min_l by lia.
    rewrite (proj2 (Z.ltb_ge _ _)), Z.eqb_refl by lia. exists (take (Z.to_nat size) (unread f)), f1, w. rewrite length_take_le by lia.
    split_and!; [do 4 f_equal; lia| |lia]. split; [|done|intros Hn; apply (f_equal length) in Hn; rewrite length_take in Hn; cbn in Hn; lia|done].
    unfold to_come. by rewrite Hu, Hd, (assoc_L (++)), take_drop.
  - destruct (read_rest_spec buf size size f w m O) as (got & f' & w' & E & T & Hl); [destruct O; lia|lia|lia|]. exists got, f', w'. split_and!; [|done|done].
    rewrite E. do 4 f_equal. lia.
Qed.

Lemma fgetc_spec buf f w m : reader_ok f -> Forall is_byte (to_come f w) ->
  exists f' w' m', fgetc fuel buf f w m = Done (match to_come f w with [] => EOF | c :: _ => char_int c end, f', w', m') /\
    took (take 1 (to_come f w)) f w f' w'.
Proof.
  intros O Hb. unfold fgetc. pose proof (length_unread f O) as Hlen.
  destruct (read_spec buf 1 f w m O) as (got & f' & w' & E & T & Hl); [lia|destruct (unread f); [by left|right; cbn; lia]|].
  rewrite E. cbn [mbind outcome_bind]. pose proof (tk_next _ _ _ _ _ T) as Ht. destruct got as [|c got].
  - destruct (tk_end _ _ _ _ _ T eq_refl) as [E0 _]. rewrite E0 in *. by eexists _, _, _.
  - destruct got; [|cbn in Hl; lia]. rewrite Ht in *. cbn [app take] in *. inversion Hb as [|? ? Hc _]; subst. eexists _, _, _. split; [|done].
    cbn. by rewrite read8_write8_eq, (Z.mod_small c 256) by done.
Qed.

(** [n] calls of [fgetc]. *)
Fixpoint fgetcs (n : nat) (buf : Z) (f : IO_File) (w : W) (m : mem) : outcome (list Z * IO_File * W * mem) :=
  match n with
  | O => Done ([], f, w, m)
  | S n => '(c, f, w, m) ← fgetc fuel buf f w m; '(cs, f, w, m) ← fgetcs n buf f w m; Done (c :: cs, f, w, m)
  end.

Lemma fgetcs_spec n buf f w m : reader_ok f -> Forall is_byte (to_come f w) -> (n <= length (to_come f w))%nat ->
  exists f' w' m', fgetcs n buf f w m = Done (char_int <$> take n (to_come f w), f', w', m') /\
    reader_ok f' /\ fd f' = fd f /\ to_come f' w' = drop n (to_come f w).
Proof.
  revert f w m. induction n as [|n IH]; intros f w m O Hb Hn; cbn [fgetcs].
  { exists f, w, m. by rewrite drop_0. }
  destruct (fgetc_spec buf f w m O Hb) as (f1 & w1 & m1 & E & T). rewrite E. cbn [mbind outcome_bind].
  pose proof (tk_next _ _ _ _ _ T) as Ht. pose proof (tk_ok _ _ _ _ _ T) as O1. destruct (to_come f w) as [|c l] eqn:El; [cbn in Hn; lia|].
  cbn [take app] in *. injection Ht as Ht. inversion Hb; subst.
  destruct (IH f1 w1 m1) as (f2 & w2 & m2 & E2 & O2 & Hd2 & Ht2); [by apply O1|done|cbn in Hn; lia|].
  rewrite E2. cbn [mbind outcome_bind]. exists f2, w2, m2. split_and!; [done|done|by rewrite Hd2, (tk_fd _ _ _ _ _ T)|done].
Qed.

(** A read that takes the buffer and then the file: both parts go to the start of
    the caller's buffer. *)
Lemma read_across_spec buf size f w m : reader_ok f -> unread f ≠ [] -> Z.of_nat (length (unread f)) < size < 2 ^ 62 ->
  exists got f' w', ahead (fd f) w = got ++ to_come f' w' /\
    read fuel buf size f w m = Done (Z.of_nat (length (unread f)) + Z.of_nat (length got), f', w', store_bytes buf got (store_bytes buf (unread f) m)) /\
    Z.of_nat (length got) <= size - Z.of_nat (length (unread f)).
Proof.
  intros O Hn Hs. pose proof (length_unread f O) as Hlen. unfold read. rewrite (ro_error _ O), (ro_eof _ O), (ro_ungotten _ O). cbn [andb].
  assert (Hpos : (0 < length (unread f))%nat) by (destruct (unread f); [done|cbn; lia]).
  rewrite (proj2 (Z.ltb_lt _ _)) by lia. destruct (copy_from_read_buffer_spec buf size f m O) as (f1 & E & O1 & Hu & Hd); [lia|lia|].
  rewrite E, Z.min_r by lia. rewrite (proj2 (Z.ltb_ge _ _)), (proj2 (Z.eqb_neq _ _)) by lia. rewrite take_ge by lia. rewrite drop_ge in Hu by lia.
  assert (Heq : r_start f1 = r_offs f1) by (pose proof (length_unread f1 O1) as H1; rewrite Hu in H1; cbn in H1; lia).
  destruct (read_rest_spec buf size (size - (r_offs f - r_start f)) f1 w (store_bytes buf (unread f) m) O1 Heq) as (got & f2 & w2 & E2 & T & Hl); [lia|lia|].
  exists got, f2, w2. split_and!; [|rewrite E2; do 4 f_equal; lia|lia].
  rewrite <- (tk_next _ _ _ _ _ T). unfold to_come. by rewrite Hu, Hd.
Qed.

End Input.

(** ** Closing streams *)

(** Erasing at an iterator counts from the first valid element. *)
Lemma erase_iterator_spec (v : Sparse.sparse_vector Z) i j a x :
  list_find (fun x => x ≠ 0) (Sparse.els v) = Some (j, x) -> (j <= i)%nat -> Sparse.els v !! i = Some a -> Z.of_nat i < 2 ^ 63 ->
  exists b v', erase_iterator i v = Done (b, v') /\ Sparse.els v' = <[(i - j)%nat := 0]> (Sparse.els v).
Proof.
  intros Hf Hle Hi Hb. pose proof (lookup_lt_Some _ _ _ Hi) as Hlt. unfold erase_iterator. rewrite Hf, wrap64_small by (unfold is_u64; lia).
  destruct (lookup_lt_is_Some_2 (Sparse.els v) (i - j)) as [e He]; [lia|]. unfold Sparse.erase, Sparse.allocated_size, Sparse.el.
  replace (Z.to_nat (Z.of_nat i - Z.of_nat j)) with (i - j)%nat by lia. rewrite (proj2 (Z.ltb_ge _ _)), He by lia. cbn [deref mbind outcome_bind].
  case_decide as D; eexists _, _; (split; [done|]); [|done]. subst. by rewrite list_insert_id.
Qed.

Section Closing.
Context {W : Type} `{!Syscalls W, !SinkLaws W} (fuel : nat).
Hypothesis Hfuel : forall d w, (waits d w < fuel)%nat.
Hypothesis Hall : takes_all W.

Lemma stream_close_spec f w : stream_ok f -> fd f ≠ -1 ->
  exists f' w', close fuel f w = Done (f', w') /\ fd f' = -1 /\ out (fd f) w' = sent f w /\ forall d, d ≠ fd f -> out d w' = out d w.
Proof.
  intros O Hd. unfold close. rewrite (proj2 (Z.eqb_neq _ _)) by done. destruct (flush_spec fuel Hfuel Hall f w O) as (f1 & w1 & E & Wr & Eb).
  rewrite E. cbn [mbind outcome_bind]. destruct (sink_close (fd f1) w1) as (w2 & E2 & Ho). rewrite E2. cbn [mbind outcome_bind].
  eexists _, w2. split_and!; [done|done| |].
  - rewrite Ho, (wrote_sink _ _ _ _ _ Wr Eb). by rewrite app_nil_r.
  - intros d Hne. by rewrite Ho, (wr_others _ _ _ _ _ Wr).
Qed.

(** The list of the open files has a stream at most once. *)
Definition listed_once (s : stdio) : Prop :=
  forall i j a, a ≠ 0 -> Sparse.els (open_files s) !! i = Some a -> Sparse.els (open_files s) !! j = Some a -> i = j.

(** Closing the stream at position [i]: its bytes are sent, and a position that
    is not after [i] is freed. *)
Lemma stream_erase_spec s w i j a f x :
  listed_once s -> Z.of_nat (length (Sparse.els (open_files s))) < 2 ^ 62 ->
  list_find (fun x => x ≠ 0) (Sparse.els (open_files s)) = Some (j, x) ->
  Sparse.els (open_files s) !! i = Some a -> a ≠ 0 -> Store.get a (files s) = Done f -> stream_ok f -> fd f ≠ -1 ->
  exists s' w' f', erase fuel a s w = Done (s', w') /\
    Sparse.els (open_files s') = <[(i - j)%nat := 0]> (Sparse.els (open_files s)) /\
    Store.objs (files s') = <[a := f']> (Store.objs (files s)) /\
    out (fd f) w' = sent f w /\ forall d, d ≠ fd f -> out d w' = out d w.
Proof.
  intros Hn Hlen Hfind Hi Ha Hget O Hd. pose proof (lookup_lt_Some _ _ _ Hi) as Hlt. unfold erase. rewrite Hget. cbn [mbind outcome_bind].
  destruct (stream_close_spec f w O Hd) as (f' & w' & E & Hfd & Hs & Ho). rewrite E. cbn [mbind outcome_bind open_files put_file]. rewrite Hfd.
  rewrite decide_False; [|unfold Sparse.get, Sparse.allocated_size; rewrite (proj2 (Z.leb_le _ _)) by (change (wrap64 (-1)) with (2 ^ 64 - 1); lia); done].
  assert (Hfi : list_find (eq a) (Sparse.els (open_files s)) = Some (i, a)).
  { apply list_find_Some. split_and!; [done|done|]. intros k y Hk Hlk <-. pose proof (Hn k i a Ha Hk Hi). lia. }
  rewrite Hfi. assert (Hji : (j <= i)%nat).
  { apply list_find_Some in Hfind as (_ & _ & Hbefore). destruct (decide (i < j)%nat) as [Hij|]; [|lia]. by destruct (Hbefore i a Hi Hij). }
  destruct (erase_iterator_spec (open_files s) i j a x Hfind Hji Hi) as (b & v' & Ee & Hv'); [lia|]. rewrite Ee. cbn [mbind outcome_bind].
  by eexists _, w', f'.
Qed.

(** A stream that is open at a position from [i] on. *)
Definition open_at (i : nat) (s : stdio) (a : Z) (f : IO_File) : Prop :=
  exists k, (i <= k)%nat /\ Sparse.els (open_files s) !! k = Some a /\ a ≠ 0 /\ Store.objs (files s) !! a = Some f.

Record closable (i : nat) (s : stdio) : Prop := {
  cl_once : listed_once s;
  cl_length : Z.of_nat (length (Sparse.els (open_files s))) < 2 ^ 62;
  cl_alive k a : (i <= k)%nat -> Sparse.els (open_files s) !! k = Some a -> a ≠ 0 -> is_Some (Store.objs (files s) !! a);
  cl_stream a f : open_at i s a f -> stream_ok f /\ fd f ≠ -1;
  cl_fds a a' f f' : open_at i s a f -> open_at i s a' f' -> fd f = fd f' -> a = a'
}.

(** After the stream at position [i] is gone the later ones are as before. *)
Lemma later_streams s s' i j a f' : listed_once s -> Sparse.els (open_files s) !! i = Some a -> a ≠ 0 ->
  Sparse.els (open_files s') = <[(i - j)%nat := 0]> (Sparse.els (open_files s)) -> Store.objs (files s') = <[a := f']> (Store.objs (files s)) ->
  forall b g, open_at (S i) s' b g <-> open_at (S i) s b g.
Proof.
  intros Hn Hi Ha He Ho b g. unfold open_at. apply exist_proper. intros k. rewrite He, Ho. split; intros (Hk & Hl & Hb & Hg).
  - rewrite list_lookup_insert_ne in Hl by lia. rewrite lookup_insert_ne in Hg; [done|]. intros <-. pose proof (Hn i k a Ha Hi Hl). lia.
  - rewrite list_lookup_insert_ne by lia. rewrite lookup_insert_ne; [done|]. intros <-. pose proof (Hn i k a Ha Hi Hl). lia.
Qed.

Lemma closable_next s s' i j a f' : closable i s -> Sparse.els (open_files s) !! i = Some a -> a ≠ 0 ->
  Sparse.els (open_files s') = <[(i - j)%nat := 0]> (Sparse.els (open_files s)) -> Store.objs (files s') = <[a := f']> (Store.objs (files s)) ->
  closable (S i) s'.
Proof.
  intros [Hn Hl Hv Hst Hfd] Hi Ha He Ho. pose proof (later_streams s s' i j a f' Hn Hi Ha He Ho) as Hlater.
  assert (Hless : forall b g, open_at (S i) s' b g -> open_at i s b g) by (intros b g (k & Hk & H)%Hlater; exists k; split; [lia|done]).
  split; [| |intros k b Hk Hkb Hb|eauto|eauto].
  - intros k l b Hb. rewrite He. intros [(_ & <- & _)|[_ Hk]]%list_lookup_insert_Some; [done|].
    intros [(_ & <- & _)|[_ Hl']]%list_lookup_insert_Some; [done|]. eauto.
  - by rewrite He, length_insert.
  - rewrite He, list_lookup_insert_ne in Hkb by lia. rewrite Ho. destruct (decide (a = b)) as [->|]; [rewrite lookup_insert_eq; by eexists|].
    rewrite lookup_insert_ne by done. apply (Hv k); [lia|done|done].
Qed.

Lemma skip_hole s i : closable i s -> Sparse.els (open_files s) !! i = Some 0 ->
  closable (S i) s /\ forall b g, open_at i s b g <-> open_at (S i) s b g.
Proof.
  intros [Hn Hl Hv Hst Hfd] Hi.
  assert (Heq : forall b g, open_at i s b g <-> open_at (S i) s b g).
  { intros b g. split; intros (k & Hk & H); exists k; (split; [|done]); [|lia]. destruct (decide (k = i)) as [->|]; [|lia]. destruct H as (H & Hb & _). congruence. }
  split; [|done]. split; [done|done|intros k a Hk; apply (Hv k); lia| |]; intros *; rewrite <- !Heq; eauto.
Qed.

(** Every stream from position [i] on is flushed, and nothing else happens. *)
Lemma close_from_spec n i s w : closable i s -> (i + n = length (Sparse.els (open_files s)))%nat ->
  exists s' w', close_from fuel n i s w = Done (s', w') /\ (forall a f, open_at i s a f -> out (fd f) w' = sent f w) /\
    forall d, (forall a f, open_at i s a f -> d ≠ fd f) -> out d w' = out d w.
Proof.
  revert i s w. induction n as [|n IH]; intros i s w C Hlen; cbn [close_from].
  { exists s, w. split_and!; [done| |done]. intros a f (k & Hk & Hl & _). apply lookup_lt_Some in Hl. lia. }
  destruct (lookup_lt_is_Some_2 (Sparse.els (open_files s)) i) as [a Hi]; [lia|]. unfold Sparse.el. rewrite Nat2Z.id, Hi. cbn [deref mbind outcome_bind].
  destruct (Z.eqb_spec a 0) as [->|Ha]; cbn [mbind outcome_bind].
  { destruct (skip_hole s i C Hi) as [C' Heq]. destruct (IH (S i) s w C') as (s' & w' & E & Hsent & Ho); [lia|]. exists s', w'.
    split_and!; [done|intros b g Hb%Heq; by eapply Hsent|intros d Hd; apply Ho; intros b g Hb%Heq; by eapply Hd]. }
  destruct (cl_alive _ _ C i a (Nat.le_refl i) Hi Ha) as [f Hf]. assert (Hat : open_at i s a f) by (exists i; split_and!; [lia|done..]).
  destruct (cl_stream _ _ C a f Hat) as [O Hd]. destruct (list_find (fun x => x ≠ 0) (Sparse.els (open_files s))) as [[j x]|] eqn:Hfind.
  2: { apply list_find_None in Hfind. rewrite Forall_lookup in Hfind. by destruct (Hfind i a Hi). }
  destruct (stream_erase_spec s w i j a f x (cl_once _ _ C) (cl_length _ _ C) Hfind Hi Ha) as (s1 & w1 & f1 & E1 & He & Hobj & Hsent1 & Ho1);
    [unfold Store.get; by rewrite Hf|done|done|]. rewrite E1. cbn [mbind outcome_bind].
  destruct (IH (S i) s1 w1 (closable_next s s1 i j a f1 C Hi Ha He Hobj)) as (s2 & w2 & E2 & Hsent2 & Ho2); [rewrite He, length_insert; lia|].
  pose proof (later_streams s s1 i j a f1 (cl_once _ _ C) Hi Ha He Hobj) as Hlater.
  assert (Hother : forall b g, open_at (S i) s b g -> open_at i s b g /\ fd g ≠ fd f).
  { intros b g (k & Hk & Hb & Hb0 & Hg). assert (Hbi : open_at i s b g) by (exists k; split_and!; [lia|done..]). split; [done|].
    intros Hfd. pose proof (cl_fds _ _ C _ _ _ _ Hbi Hat Hfd) as ->. pose proof (cl_once _ _ C i k a Ha Hi Hb). lia. }
  exists s2, w2. split_and!; [done| |].
  - intros b g (k & Hk & Hb & Hb0 & Hg). destruct (decide (k = i)) as [->|Hne].
    + simplify_eq. rewrite Ho2; [done|]. intros c h Hc%Hlater. intros Hfd. by destruct (Hother c h Hc).
    + assert (Hbs : open_at (S i) s b g) by (exists k; split_and!; [lia|done..]). destruct (Hother b g Hbs) as [_ Hfd].
      rewrite (Hsent2 b g) by (by apply Hlater). unfold sent. by rewrite Ho1.
  - intros d Hdd. rewrite Ho2; [|intros c h Hc%Hlater; by apply (Hdd c h), Hother]. by apply Ho1, (Hdd a f Hat).
Qed.

End Closing.

(** ** A concrete kernel *)

Record console := mkConsole { con_in : Z -> list Z; con_out : Z -> list Z }.

#[export] Instance console_calls : Syscalls console := {
  sys_open _ w := Done (3, w);
  sys_close _ w := Done w;
  sys_read d count w :=
    let bytes := take (Z.to_nat count) (con_in w d) in
    Done (Z.of_nat (length bytes), bytes, mkConsole (fun x => if x =? d then drop (Z.to_nat count) (con_in w d) else con_in w x) (con_out w));
  sys_write d bytes w := Done (Z.of_nat (length bytes), mkConsole (con_in w) (fun x => if x =? d then con_out w d ++ bytes else con_out w x));
  sys_seek _ _ _ w := Done (-1, w)
}.

#[export] Instance console_sink : SinkLaws console.
Proof.
  refine {| out d w := con_out w d; waits _ _ := 0%nat |}.
  - intros d bytes w. eexists _, _. split; [reflexivity|]. split; [intros d' Hd; cbn; by rewrite (proj2 (Z.eqb_neq _ _))|].
    rewrite decide_False by lia. cbn. rewrite Z.eqb_refl, Nat2Z.id, firstn_all. split; [lia|done].
  - intros d w. by exists w.
Defined.

Lemma console_takes_all : takes_all console.
Proof. intros d bytes w rc w' [= <- _]. by right. Qed.

(** A kernel whose descriptors take 512 bytes of a write, as a pipe does. *)
Record pipes := mkPipes { piped : Z -> list Z }.

#[export] Instance pipe_calls : Syscalls pipes := {
  sys_open _ w := Done (3, w);
  sys_close _ w := Done w;
  sys_read _ _ w := Done (0, [], w);
  sys_write d bytes w :=
    Done (Z.min 512 (Z.of_nat (length bytes)), mkPipes (fun x => if x =? d then piped w d ++ take 512 bytes else piped w x));
  sys_seek _ _ _ w := Done (-1, w)
}.

#[export] Instance pipe_sink : SinkLaws pipes.
Proof.
  refine {| out d w := piped w d; waits _ _ := 0%nat |}.
  - intros d bytes w. eexists _, _. split; [reflexivity|]. split; [intros d' Hd; cbn; by rewrite (proj2 (Z.eqb_neq _ _))|].
    rewrite decide_False by lia. cbn. rewrite Z.eqb_refl. split; [lia|]. f_equal. rewrite Z2Nat.inj_min, Nat2Z.id. change (Z.to_nat 512) with 512%nat.
    destruct (Nat.le_ge_cases 512 (length bytes)); [by rewrite Nat.min_l|]. by rewrite Nat.min_r, !take_ge by lia.
  - intros d w. by exists w.
Defined.

#[export] Instance console_source : SourceLaws console.
Proof.
  refine {| ahead d w := con_in w d |}. intros d count w Hc. eexists _, _. split; [done|]. cbn. rewrite Z.eqb_refl, take_drop, length_take.
  split_and!; [done|lia|]. intros Hn. apply (f_equal length) in Hn. rewrite length_take in Hn. cbn in Hn. destruct (con_in w d); [done|cbn in Hn; lia].
Defined.

Definition quiet (input : list Z) : console := mkConsole (fun d => if d =? 0 then input else []) (fun _ => []).

(** ** Claims *)

(** C39: What a program puts into a stream with [fputc], [fputs] and [fflush], in any
    order and any buffering mode, arrives at the descriptor in that order and
    without loss or repetition unless the stream says otherwise. The kernel may take
    fewer bytes than a write has, or fail: then the stream's error indicator is set,
    and stays set. While it is not set, what was sent and what waits in the buffer are
    together what was written, a line-buffered stream keeps no newline back, and a
    flush sends all of it or sets the indicator. It is never set when the kernel takes
    every write whole. Other descriptors see nothing, and every call returns, within
    as many attempts as the kernel asks for. *)
Theorem stream_delivers_in_order {W} `{!Syscalls W, !SinkLaws W} (fuel : nat) cs f (w : W) :
  (forall d w, (waits d w < fuel)%nat) -> stream_ok f -> line_ok f -> f_error f = false -> Forall call_ok cs ->
  exists f' w', run_calls fuel cs f w = Done (f', w') /\ (forall d, d ≠ fd f -> out d w' = out d w) /\
    (takes_all W -> f_error f' = false) /\
    (f_error f' = false ->
       out (fd f) w' ++ w_buf f' = out (fd f) w ++ w_buf f ++ (cs ≫= payload) /\ (buffering f = LineBuffered -> 10 ∉ w_buf f') /\
       exists ok f'' w'', flush fuel f' w' = Done (ok, f'', w'') /\
         if ok then w_buf f'' = [] /\ out (fd f) w'' = out (fd f) w ++ w_buf f ++ (cs ≫= payload) /\ f_error f'' = false else f_error f'' = true).
Proof.
  intros Hfuel O L He Hcs. destruct (run_calls_tried fuel Hfuel cs f w O L Hcs) as (f1 & w1 & E & T). exists f1, w1. destruct T as [[Wr L1]|F].
  2: { split_and!; [done|apply F|intros H; by destruct (fl_short _ _ _ _ F)|intros H; by rewrite (fl_error _ _ _ _ F) in H]. }
  pose proof (wr_sent _ _ _ _ _ Wr) as Hs. unfold sent in Hs. rewrite (wr_fd _ _ _ _ _ Wr), <- (assoc_L (++)) in Hs.
  pose proof (wr_error _ _ _ _ _ Wr) as He1. rewrite He in He1. split_and!; [done|apply Wr|done|]. intros _. split_and!; [done| |].
  { intros Hb. apply L1; [by rewrite (wr_buffering _ _ _ _ _ Wr)|done]. }
  destruct (flush_tried fuel Hfuel f1 w1 (wr_ok _ _ _ _ _ Wr)) as (ok & f2 & w2 & E2 & H2). exists ok, f2, w2. split; [done|]. destruct ok; [|apply H2].
  destruct H2 as [Wr2 Eb]. split_and!; [done| |by rewrite (wr_error _ _ _ _ _ Wr2)]. rewrite <- (wr_fd _ _ _ _ _ Wr), (wrote_sink _ _ _ _ _ Wr2 Eb). unfold sent.
  by rewrite (wr_fd _ _ _ _ _ Wr), Hs, !app_nil_r.
Qed.

(** At exit every open stream is flushed, if every write is taken whole: [close_all] visits them all although it
    changes the list while it goes over it, and what waits in a stream's buffer
    reaches its descriptor. *)
Theorem exit_flushes_every_stream {W} `{!Syscalls W, !SinkLaws W} (fuel : nat) s (w : W) :
  (forall d w, (waits d w < fuel)%nat) -> takes_all W -> closable 0 s ->
  exists s' w', close_all fuel s w = Done (s', w') /\
    (forall a f, open_at 0 s a f -> out (fd f) w' = out (fd f) w ++ w_buf f) /\
    forall d, (forall a f, open_at 0 s a f -> d ≠ fd f) -> out d w' = out d w.
Proof. intros Hfuel Hall C. by apply close_from_spec. Qed.

(** [fprintf] puts into the stream what [sprintf] puts into memory, if there is no
    [%p] in the format and every write is taken whole. *)
Theorem fprintf_prints_what_sprintf_stores {W} `{!Syscalls W, !SinkLaws W} (fuel : nat) print_pointer fmt args bytes z f (w : W) :
  (forall d w, (waits d w < fuel)%nat) -> takes_all W -> stream_ok f -> line_ok f -> Forall is_byte fmt -> no_pointer fmt = true -> Forall arg_ok args ->
  vsprintf_bytes fmt args = Done (bytes, z) ->
  exists f' w', vfprintf fuel print_pointer fmt args f w = Done (0, f', w') /\ out (fd f) w' ++ w_buf f' = out (fd f) w ++ w_buf f ++ bytes.
Proof.
  intros Hfuel Hall O L Hb Hp Ha E. destruct (vfprintf_spec fuel Hfuel Hall print_pointer fmt args bytes z f w E Hb Hp Ha O L) as (f1 & w1 & E1 & Wr & _).
  exists f1, w1. split; [done|]. pose proof (wr_sent _ _ _ _ _ Wr) as Hs. unfold sent in Hs. by rewrite (wr_fd _ _ _ _ _ Wr), <- (assoc_L (++)) in Hs.
Qed.

(** The number a decimal numeral stands for. *)
Definition numeral_value (ds : list Z) : Z := match ds with 45 :: ds => - decimal ds | _ => decimal ds end.

Lemma numeral_value_digits ds : Forall is_digit ds -> numeral_value ds = decimal ds.
Proof.
  intros H. destruct ds as [|d ds]; [done|]. inversion H as [|? ? Hd _]; subst. unfold is_digit in Hd. unfold numeral_value.
  destruct (decide (d = 45)) as [->|]; [lia|]. destruct d as [|p|p]; try done. do 6 (destruct p as [p|p|]; try done).
Qed.

(** [%d] prints a numeral that stands for the number it was given, for each [int]
    but the least, and [%u] one for each [unsigned]. *)
Theorem printed_number_reads_back z u :
  - 2 ^ 31 < z < 2 ^ 31 -> 0 <= u < 2 ^ 32 ->
  exists ds us, vsprintf_bytes [37; 100] [va_int z] = Done (ds, false) /\ numeral_value ds = z /\
    vsprintf_bytes [37; 117] [va_unsigned u] = Done (us, false) /\ Forall is_digit us /\ decimal us = u.
Proof.
  intros Hz Hu. destruct (number_digits_spec u ltac:(lia)) as (Hd & He & _).
  destruct (number_digits_spec (Z.abs z) ltac:(lia)) as (Hd' & He' & _).
  exists (if z <? 0 then 45 :: number_digits (- z) else number_digits z), (number_digits u).
  cbn [vsprintf_bytes]. change (conversion 100 [va_int z]) with (Some (ds ← int_digits z; Done (ds, @nil va_arg))).
  change (conversion 117 [va_unsigned u]) with (Some (Done (number_digits u, @nil va_arg))). unfold int_digits. rewrite (proj2 (Z.eqb_neq z _)) by lia.
  cbn [mbind outcome_bind orb Z.eqb Pos.eqb]. rewrite !app_nil_r. split_and!; [done| |done|done|done].
  destruct (Z.ltb_spec z 0) as [Hlt|Hge].
  - rewrite Z.abs_neq in He' by lia. cbn [numeral_value]. lia.
  - rewrite Z.abs_eq in Hd', He' by lia. by rewrite numeral_value_digits.
Qed.

(** [fgetc] called [n] times gives the next [n] bytes of the file in order, the
    buffered ones first, and then the rest is still to come; past the end it gives
    [EOF] and sets the flag. *)
Theorem fgetc_gives_the_file_in_order {W} `{!Syscalls W, !SourceLaws W} (fuel : nat) n buf f (w : W) m :
  (0 < fuel)%nat -> reader_ok f -> Forall is_byte (to_come f w) -> (n <= length (to_come f w))%nat ->
  exists f' w' m', fgetcs fuel n buf f w m = Done (char_int <$> take n (to_come f w), f', w', m') /\
    to_come f' w' = drop n (to_come f w) /\
    (n = length (to_come f w) -> exists f'' w'' m'', fgetc fuel buf f' w' m' = Done (EOF, f'', w'', m'') /\ f_eof f'' = true).
Proof.
  intros Hfuel O Hb Hn. destruct (fgetcs_spec fuel Hfuel n buf f w m O Hb Hn) as (f1 & w1 & m1 & E & O1 & _ & Ht).
  exists f1, w1, m1. split_and!; [done|done|]. intros ->. rewrite drop_all in Ht.
  destruct (fgetc_spec fuel Hfuel buf f1 w1 m1 O1) as (f2 & w2 & m2 & E2 & T); [by rewrite Ht|]. rewrite Ht in E2, T.
  exists f2, w2, m2. split; [done|]. by apply (tk_end _ _ _ _ _ T).
Qed.

(** C40: A read of more than the buffer holds stores the bytes of the buffer and then,
    at the same place, those that come from the file: the program is told that it
    has all of them, and has lost the first ones. *)
Theorem read_across_the_buffer_loses_bytes {W} `{!Syscalls W, !SourceLaws W} (fuel : nat) buf size f (w : W) m :
  (0 < fuel)%nat -> reader_ok f -> unread f ≠ [] -> Z.of_nat (length (unread f)) < size < 2 ^ 62 -> Forall is_byte (ahead (fd f) w) ->
  exists got f' w' m', ahead (fd f) w = got ++ to_come f' w' /\
    read fuel buf size f w m = Done (Z.of_nat (length (unread f ++ got)), f', w', m') /\ load_bytes m' buf (length got) = got.
Proof.
  intros Hfuel O Hn Hs Hb. destruct (read_across_spec fuel Hfuel buf size f w m O Hn Hs) as (got & f1 & w1 & Ha & E & _).
  eexists got, f1, w1, _. split_and!; [done|rewrite E; do 4 f_equal; rewrite length_app; lia|].
  apply load_store_bytes. rewrite Ha in Hb. by apply Forall_app in Hb as [Hb _].
Qed.

(** When the first stream was closed, closing the one at position 2 takes the one
    at position 1 off the list of the open files: it will not be flushed at exit. *)
Theorem fclose_forgets_another_stream {W} `{!Syscalls W, !SinkLaws W} (fuel : nat) s (w : W) a b l f :
  (forall d w, (waits d w < fuel)%nat) -> takes_all W -> listed_once s -> Z.of_nat (length (Sparse.els (open_files s))) < 2 ^ 62 ->
  Sparse.els (open_files s) = 0 :: a :: b :: l -> a ≠ 0 -> b ≠ 0 -> Store.objs (files s) !! b = Some f -> stream_ok f -> fd f ≠ -1 ->
  exists s' w', fclose fuel b s w = Done (0, s', w') /\ Sparse.els (open_files s') = 0 :: 0 :: b :: l.
Proof.
  intros Hfuel Hall Hn Hlen He Ha Hb Hf O Hd.
  destruct (stream_erase_spec fuel Hfuel Hall s w 2 1 b f a Hn Hlen) as (s1 & w1 & f1 & E & Hels & _); [|by rewrite He|done|unfold Store.get; by rewrite Hf|done|done|].
  { rewrite He. apply list_find_Some. split_and!; [done|done|]. intros [|[|]] y Hy Hlt; [|lia|lia]. cbn in Hy. simplify_eq. intros H. by apply H. }
  unfold fclose. rewrite E. cbn [mbind outcome_bind]. exists s1, w1. split; [done|]. by rewrite Hels, He.
Qed.

(** ** The claims at work *)

Lemma new_stream_ok d raddr b : stream_ok (new_file d raddr b).
Proof. split; [cbn; unfold BUFSIZ; lia|cbn; unfold w_offs, BUFSIZ; cbn; lia|done]. Qed.

Lemma new_line_ok d raddr b : line_ok (new_file d raddr b).
Proof. intros _ _. apply not_elem_of_nil. Qed.

Lemma stream_delivers_in_order_witness :
  let cs := [call_fputs [104; 105]; call_fputc 10; call_fputs [120]; call_fflush] in
  (exists f' w', run_calls 1 cs (new_file 1 4096 LineBuffered) (quiet []) = Done (f', w') /\ con_out w' 1 ++ w_buf f' = [104; 105; 10; 120]) /\
  exists f' w', run_calls 1 cs (new_file 1 4096 LineBuffered) (mkPipes (fun _ => [])) = Done (f', w') /\
    (f_error f' = false -> piped w' 1 ++ w_buf f' = [104; 105; 10; 120]).
Proof.
  intros cs. split.
  - destruct (stream_delivers_in_order 1 cs (new_file 1 4096 LineBuffered) (quiet [])) as (f' & w' & E & _ & H1 & H2);
      [cbn; lia|apply new_stream_ok|apply new_line_ok|reflexivity|by repeat constructor|]. exists f', w'. split; [exact E|].
    exact (proj1 (H2 (H1 console_takes_all))).
  - destruct (stream_delivers_in_order 1 cs (new_file 1 4096 LineBuffered) (mkPipes (fun _ => []))) as (f' & w' & E & _ & _ & H2);
      [cbn; lia|apply new_stream_ok|apply new_line_ok|reflexivity|by repeat constructor|]. exists f', w'. split; [exact E|].
    intros H. exact (proj1 (H2 H)).
Defined.

(** A write that is cut short is reported, but the bytes that were taken stay in the
    buffer: the next flush sends them again. *)
Theorem short_flush_repeats_bytes :
  let f := with_wbuf (replicate 600 65) (new_file 1 4096 FullyBuffered) in
  exists f1 w1 f2 w2, flush 1 f (mkPipes (fun _ => [])) = Done (false, f1, w1) /\ f_error f1 = true /\
    flush 1 f1 w1 = Done (false, f2, w2) /\ piped w2 1 = replicate 1024 65.
Proof. cbv zeta. eexists _, _, _, _. split; [reflexivity|]. split; [reflexivity|]. split; [reflexivity|]. vm_compute. reflexivity. Qed.

(** The three standard streams, "ok" waiting in the second. *)
Definition standard : stdio :=
  let '(_, stdout, _, s) := stdio_init 4096 8192 12288 (mkStdio (Store.mkStore ∅ 16) Sparse.empty) in
  put_file stdout (with_wbuf [111; 107] (new_file 1 8192 LineBuffered)) s.

Definition standard_streams : list (Z * IO_File) :=
  [(16, new_file 0 4096 LineBuffered); (17, with_wbuf [111; 107] (new_file 1 8192 LineBuffered)); (18, new_file 2 12288 Unbuffered)].

Lemma standard_open a f : open_at 0 standard a f -> (a, f) ∈ standard_streams.
Proof.
  intros (k & _ & Hk & _ & Hf). destruct k as [|[|[|k]]]; cbn in Hk; simplify_eq; vm_compute in Hf; simplify_eq; set_solver.
Qed.

Lemma standard_closable : closable 0 standard.
Proof.
  split.
  - intros i j a _. change (Sparse.els (open_files standard)) with [16; 17; 18]. intros Hi Hj. destruct i as [|[|[|i]]], j as [|[|[|j]]]; cbn in Hi, Hj; simplify_eq; done.
  - vm_compute. done.
  - intros k a _ Hk _. change (Sparse.els (open_files standard)) with [16; 17; 18] in Hk. destruct k as [|[|[|k]]]; cbn in Hk; simplify_eq; vm_compute; eexists; reflexivity.
  - intros a f H%standard_open. unfold standard_streams in H. rewrite !elem_of_cons, elem_of_nil in H. destruct H as [[= -> ->]|[[= -> ->]|[[= -> ->]|[]]]].
    + split; [apply new_stream_ok|done].
    + split; [|done]. split; [cbn; unfold BUFSIZ; lia|cbn; unfold w_offs, BUFSIZ; cbn; lia|done].
    + split; [apply new_stream_ok|done].
  - intros a a' f f' H%standard_open H'%standard_open. unfold standard_streams in H, H'. rewrite !elem_of_cons, elem_of_nil in H, H'.
    destruct H as [[= -> ->]|[[= -> ->]|[[= -> ->]|[]]]], H' as [[= -> ->]|[[= -> ->]|[[= -> ->]|[]]]]; done.
Qed.

Lemma exit_flushes_every_stream_witness :
  exists s' w', close_all 1 standard (quiet []) = Done (s', w') /\ con_out w' 1 = [111; 107] /\ con_out w' 2 = [].
Proof.
  destruct (exit_flushes_every_stream 1 standard (quiet [])) as (s' & w' & E & H & _); [cbn; lia|exact console_takes_all|apply standard_closable|].
  exists s', w'. split_and!; [exact E|refine (H 17 (with_wbuf [111; 107] (new_file 1 8192 LineBuffered)) _)|refine (H 18 (new_file 2 12288 Unbuffered) _)].
  - exists 1%nat. split_and!; [lia|reflexivity|done|vm_compute; reflexivity].
  - exists 2%nat. split_and!; [lia|reflexivity|done|vm_compute; reflexivity].
Defined.

Lemma fprintf_prints_what_sprintf_stores_witness :
  exists f' w', vfprintf 1 (fun _ w => Done w) [110; 61; 37; 100; 37; 115] [va_int (-7); va_string [33]] (new_file 1 4096 LineBuffered) (quiet []) = Done (0, f', w') /\
    con_out w' 1 ++ w_buf f' = [110; 61; 45; 55; 33].
Proof.
  destruct (fprintf_prints_what_sprintf_stores 1 (fun _ w => Done w) [110; 61; 37; 100; 37; 115] [va_int (-7); va_string [33]] [110; 61; 45; 55; 33] true
    (new_file 1 4096 LineBuffered) (quiet [])) as (f' & w' & E & H);
    [cbn; lia|exact console_takes_all|apply new_stream_ok|apply new_line_ok|by repeat constructor|done|repeat constructor; done|vm_compute; reflexivity|]. exists f', w'. split; [exact E|exact H].
Defined.

Lemma printed_number_reads_back_witness :
  exists ds us, vsprintf_bytes [37; 100] [va_int (-2022)] = Done (ds, false) /\ numeral_value ds = -2022 /\
    vsprintf_bytes [37; 117] [va_unsigned 4294967295] = Done (us, false) /\ Forall is_digit us /\ decimal us = 4294967295.
Proof. apply (printed_number_reads_back (-2022) 4294967295); lia. Defined.

Lemma new_reader_ok d raddr b : reader_ok (new_file d raddr b).
Proof. split; try done; cbn; unfold BUFSIZ; lia. Qed.

Lemma fgetc_gives_the_file_in_order_witness :
  exists f' w' m', fgetcs 1 2 4096 (new_file 0 8192 LineBuffered) (quiet [104; 200; 10]) (fun _ => 0) = Done ([104; -56], f', w', m') /\ to_come f' w' = [10].
Proof.
  destruct (fgetc_gives_the_file_in_order 1 2 4096 (new_file 0 8192 LineBuffered) (quiet [104; 200; 10]) (fun _ => 0)) as (f' & w' & m' & E & H & _);
    [lia|apply new_reader_ok|change (Forall is_byte [104; 200; 10]); by repeat constructor|vm_compute; lia|]. exists f', w', m'. split; [exact E|exact H].
Defined.

(** Two bytes are buffered, and the program asks for four. *)
Lemma read_across_the_buffer_loses_bytes_witness :
  let f := with_rdbuf [1; 2; 3] 1 3 (new_file 0 8192 FullyBuffered) in
  exists got f' w' m', [7; 8] = got ++ to_come f' w' /\
    read 1 4096 4 f (quiet [7; 8]) (fun _ => 0) = Done (Z.of_nat (length ([2; 3] ++ got)), f', w', m') /\ load_bytes m' 4096 (length got) = got.
Proof.
  intros f. destruct (read_across_the_buffer_loses_bytes 1 4096 4 f (quiet [7; 8]) (fun _ => 0)) as (got & f' & w' & m' & Ha & E & Hl);
    [lia|split; try done; cbn; unfold BUFSIZ; lia|done|vm_compute; by split|change (Forall is_byte [7; 8]); by repeat constructor|].
  exists got, f', w', m'. split_and!; [exact Ha|exact E|exact Hl].
Defined.

(** Standard input was closed; the program closes standard error. *)
Lemma fclose_forgets_another_stream_witness :
  let s := mkStdio (files standard) (Sparse.mkSparse [0; 17; 18] [0]) in
  exists s' w', fclose 1 18 s (quiet []) = Done (0, s', w') /\ Sparse.els (open_files s') = [0; 0; 18].
Proof.
  intros s. apply (fclose_forgets_another_stream 1 s (quiet []) 17 18 [] (new_file 2 12288 Unbuffered));
    [cbn; lia|exact console_takes_all| |cbn; lia|done|done|done|by vm_compute|apply new_stream_ok|done].
  intros i j a Ha Hi Hj. destruct i as [|[|[|i]]], j as [|[|[|j]]]; cbn in Hi, Hj; simplify_eq; done.
Defined.

End Stdio.
