(* ===== verification/UserHeap.v ===== *)
(** * The heap of a program

    Models the allocator of src/user/libc/stdlib.cpp: [malloc], [calloc], [realloc],
    [__mextend], [free] and the start-up of the heap. The headers are in the heap
    itself, in front of their blocks; the model keeps them in a map by address, as
    a program that stays within its blocks does not touch them. [abort] after a
    failed assertion is [Stop Panicked]. *)

From S2P Require Import Prelude PhysMem FileMeta.

Module UserHeap.

Record alloc_header := mkHeader { ptr : Z; size : Z; next : Z; prev : Z }.

Definition sizeof_alloc_header : Z := 32.
Definition ENOMEM : Z := 12.

Record heap := mkHeap {
  headers : gmap Z alloc_header;
  heap_base : Z;
  heap_size : Z;
  heap_ptr : Z;
  alloc_list : Z;
  free_list : Z;
  free_headers : Z;
  errno : Z
}.

Definition with_headers (hs : gmap Z alloc_header) (h : heap) : heap :=
  mkHeap hs (heap_base h) (heap_size h) (heap_ptr h) (alloc_list h) (free_list h) (free_headers h) (errno h).
Definition with_heap_ptr (p : Z) (h : heap) : heap :=
  mkHeap (headers h) (heap_base h) (heap_size h) p (alloc_list h) (free_list h) (free_headers h) (errno h).
Definition with_lists (a f : Z) (h : heap) : heap :=
  mkHeap (headers h) (heap_base h) (heap_size h) (heap_ptr h) a f (free_headers h) (errno h).
Definition with_free_headers (p : Z) (h : heap) : heap :=
  mkHeap (headers h) (heap_base h) (heap_size h) (heap_ptr h) (alloc_list h) (free_list h) p (errno h).
Definition with_errno (e : Z) (h : heap) : heap :=
  mkHeap (headers h) (heap_base h) (heap_size h) (heap_ptr h) (alloc_list h) (free_list h) (free_headers h) e.

(** Assignments through a pointer to a header. *)
Definition set_next (a x : Z) (hs : gmap Z alloc_header) : outcome (gmap Z alloc_header) :=
  h ← deref (hs !! a); Done (<[a := mkHeader (ptr h) (size h) x (prev h)]> hs).
Definition set_prev (a x : Z) (hs : gmap Z alloc_header) : outcome (gmap Z alloc_header) :=
  h ← deref (hs !! a); Done (<[a := mkHeader (ptr h) (size h) (next h) x]> hs).

(** ** The bump allocator under the lists *)

Definition heap_has_space (n : Z) (h : heap) : bool := heap_ptr h +64 n <? heap_base h +64 heap_size h.

Definition heap_alloc (n : Z) (h : heap) : Z * heap :=
  if negb (heap_has_space n h) then (0, h) else (heap_ptr h, with_heap_ptr (heap_ptr h +64 n) h).

Definition allocate_header (h : heap) : outcome (Z * heap) :=
  if negb (free_headers h =? 0) then
    hd ← deref (headers h !! free_headers h); Done (free_headers h, with_free_headers (next hd) h)
  else
    let '(a, h) := heap_alloc sizeof_alloc_header h in
    Done (a, if a =? 0 then h else with_headers (<[a := mkHeader 0 0 0 0]> (headers h)) h).

Definition free_header (a : Z) (h : heap) : outcome heap :=
  hs ← set_next a (free_headers h) (headers h); Done (with_free_headers a (with_headers hs h)).

(** [while (block) { if (test) return block; block = block->next; }] *)
Fixpoint find_block (fuel : nat) (test : alloc_header -> bool) (a : Z) (hs : gmap Z alloc_header) : outcome Z :=
  match fuel with
  | O => Stop Hung
  | S n => if a =? 0 then Done 0 else h ← deref (hs !! a); if test h then Done a else find_block n test (next h) hs
  end.

(** No list is longer than there are headers. *)
Definition list_fuel (h : heap) : nat := S (base.size (headers h)).

Definition find_free_block (n : Z) (h : heap) : outcome Z :=
  find_block (list_fuel h) (fun b => n <=? size b) (free_list h) (headers h).

Definition find_alloc_block (p : Z) (h : heap) : outcome Z :=
  find_block (list_fuel h) (fun b => ptr b =? p) (alloc_list h) (headers h).

Definition align_to_max_align_t (n : Z) : Z := if n =? 0 then 16 else Z.land (n +64 15) (not64 15).

(** ** Moving a block from one list to the other *)

(** The block's neighbours are joined; the new head of the list. *)
Definition unlink (b head : Z) (hs : gmap Z alloc_header) : outcome (Z * gmap Z alloc_header) :=
  h ← deref (hs !! b);
  hs ← (if prev h =? 0 then Done hs else set_next (prev h) (next h) hs);
  h ← deref (hs !! b);
  hs ← (if next h =? 0 then Done hs else set_prev (next h) (prev h) hs);
  h ← deref (hs !! b);
  Done (if head =? b then next h else head, hs).

Definition push_front (b head : Z) (hs : gmap Z alloc_header) : outcome (gmap Z alloc_header) :=
  hs ← set_prev b 0 hs;
  hs ← set_next b head hs;
  if head =? 0 then Done hs else set_prev head b hs.

(** ** The interface *)

Definition block_sz : Z := align_to_max_align_t sizeof_alloc_header.

Definition malloc (n : Z) (h : heap) : outcome (Z * heap) :=
  let n := align_to_max_align_t n in
  b ← find_free_block n h;
  if negb (b =? 0) then
    '(fl, hs) ← unlink b (free_list h) (headers h);
    hs ← push_front b (alloc_list h) hs;
    hd ← deref (hs !! b);
    Done (ptr hd, with_lists b fl (with_headers hs h))
  else if heap_base h +64 heap_size h <=? (heap_ptr h +64 n) +64 block_sz then Done (0, with_errno ENOMEM h)
  else
    '(b, h) ← allocate_header h;
    if b =? 0 then Done (0, h)
    else
      let '(p, h) := heap_alloc n h in
      if p =? 0 then h ← free_header b h; Done (0, h)
      else
        hd ← deref (headers h !! b);
        let hs := <[b := mkHeader p n (next hd) (prev hd)]> (headers h) in
        hs ← push_front b (alloc_list h) hs;
        Done (p, with_lists b (free_list h) (with_headers hs h)).

(** [rep movsb] *)
Fixpoint memcpy (n : nat) (dst src : Z) (m : mem) : mem :=
  match n with
  | O => m
  | S n => memcpy n (dst + 1) (src + 1) (write8 m dst (read8 m src))
  end.

Fixpoint memset (n : nat) (p value : Z) (m : mem) : mem :=
  match n with
  | O => m
  | S n => memset n (p + 1) value (write8 m p value)
  end.

Definition calloc (n sz : Z) (h : heap) (m : mem) : outcome (Z * heap * mem) :=
  '(p, h) ← malloc (n *64 sz) h;
  Done (p, h, if p =? 0 then m else memset (Z.to_nat (n *64 sz)) p 0 m).

(** The pointer is on the list of the free blocks, or on no list: either way the
    program is stopped. *)
Definition free (p : Z) (h : heap) : outcome heap :=
  if p =? 0 then Done h
  else
    b ← find_alloc_block p h;
    if b =? 0 then
      _ ← find_block (list_fuel h) (fun b => ptr b =? p) (free_list h) (headers h);
      Stop Panicked
    else
      '(al, hs) ← unlink b (alloc_list h) (headers h);
      hs ← push_front b (free_list h) hs;
      Done (with_lists al b (with_headers hs h)).

Definition realloc_impl (copy_data : bool) (p n : Z) (h : heap) (m : mem) : outcome (Z * heap * mem) :=
  if p =? 0 then '(q, h) ← malloc n h; Done (q, h, m)
  else if n =? 0 then Done (p, h, m)
  else
    let n := align_to_max_align_t n in
    b ← find_alloc_block p h;
    if b =? 0 then Stop Panicked
    else
      hd ← deref (headers h !! b);
      if n <=? size hd then Done (p, h, m)
      else
        '(q, h) ← malloc n h;
        if q =? 0 then Done (0, h, m)
        else
          hd ← deref (headers h !! b);
          let m := if copy_data then memcpy (Z.to_nat (Z.min n (size hd))) q p m else m in
          h ← free p h;
          Done (q, h, m).

Definition mextend : Z -> Z -> heap -> mem -> outcome (Z * heap * mem) := realloc_impl false.
Definition realloc : Z -> Z -> heap -> mem -> outcome (Z * heap * mem) := realloc_impl true.

(** [__libc_init_malloc]; [base] is what the system call for the memory returned. *)
Definition init_malloc (base : Z) : heap := mkHeap ∅ base (2 ^ 20) base 0 0 0 0.

(** ** Linked lists of headers *)

Definition first (l : list Z) (q : Z) : Z := match l with [] => q | a :: _ => a end.

(** The headers [l] are linked both ways, from [p] before to [q] after. *)
Fixpoint linked (hs : gmap Z alloc_header) (p : Z) (l : list Z) (q : Z) : Prop :=
  match l with
  | [] => True
  | a :: l => (exists h, hs !! a = Some h /\ prev h = p /\ next h = first l q) /\ linked hs a l q
  end.

(** The last of [l], or [p]. *)
Definition final (p : Z) (l : list Z) : Z := default p (last l).

Lemma final_cons p a l : final p (a :: l) = final a l.
Proof. unfold final. rewrite last_cons. by destruct (last l). Qed.

Lemma linked_app hs p l1 l2 q : linked hs p (l1 ++ l2) q <-> linked hs p l1 (first l2 q) /\ linked hs (final p l1) l2 q.
Proof.
  revert p. induction l1 as [|a l1 IH]; intros p; cbn [app linked]; [tauto|]. rewrite IH, final_cons.
  replace (first (l1 ++ l2) q) with (first l1 (first l2 q)) by (by destruct l1). tauto.
Qed.

(** Only the links count. *)
Lemma linked_frame hs hs' p l q : linked hs p l q ->
  (forall a h, a ∈ l -> hs !! a = Some h -> exists h', hs' !! a = Some h' /\ prev h' = prev h /\ next h' = next h) -> linked hs' p l q.
Proof.
  revert p. induction l as [|a l IH]; intros p; cbn [linked]; [done|]. intros [(h & Hh & Hp & Hn) Hl] Hf. split.
  - destruct (Hf a h) as (h' & Hh' & Hp' & Hn'); [by left|done|]. exists h'. split_and!; congruence.
  - apply IH; [done|]. intros b hb Hb. apply Hf. by right.
Qed.

Lemma linked_insert_ne hs p l q a h : linked hs p l q -> a ∉ l -> linked (<[a := h]> hs) p l q.
Proof.
  intros Hl Ha. eapply linked_frame; [done|]. intros b hb Hb Hhb. exists hb. split_and!; [|done|done]. rewrite lookup_insert_ne; [done|]. by intros ->.
Qed.

(** The same blocks, in another order of links. *)
Definition same_blocks (hs hs' : gmap Z alloc_header) : Prop :=
  forall a, (fun h => (ptr h, size h)) <$> hs !! a = (fun h => (ptr h, size h)) <$> hs' !! a.

#[global] Instance same_blocks_equiv : Equivalence same_blocks.
Proof. split; [by intros hs a|by intros hs hs' H a|intros h1 h2 h3 H1 H2 a; by rewrite H1]. Qed.

Lemma same_blocks_lookup hs hs' a h : same_blocks hs hs' -> hs !! a = Some h ->
  exists h', hs' !! a = Some h' /\ ptr h' = ptr h /\ size h' = size h.
Proof. intros H E. specialize (H a). rewrite E in H. destruct (hs' !! a) as [h'|]; simplify_eq/=. by exists h'. Qed.

Lemma relink_same_blocks hs a h n p : hs !! a = Some h -> same_blocks hs (<[a := mkHeader (ptr h) (size h) n p]> hs).
Proof. intros E b. destruct (decide (b = a)) as [->|]; [by rewrite lookup_insert_eq, E|by rewrite lookup_insert_ne]. Qed.

(** [set_next] on the last of a list, and [set_prev] on the first. *)
Lemma set_next_last hs p l q x : linked hs p l q -> NoDup l -> l ≠ [] ->
  exists hs', set_next (final p l) x hs = Done hs' /\ linked hs' p l x /\ same_blocks hs hs' /\ forall b, b ≠ final p l -> hs' !! b = hs !! b.
Proof.
  intros Hl Hnd Hne. destruct l as [|a l _] using rev_ind; [done|]. apply linked_app in Hl as [Hl [(h & Hh & Hp & Hn) _]].
  assert (Ef : final p (l ++ [a]) = a) by (unfold final; by rewrite last_snoc). rewrite Ef. unfold set_next. rewrite Hh. cbn [deref mbind outcome_bind].
  eexists. split_and!; [done| |by apply relink_same_blocks|intros b Hb; by rewrite lookup_insert_ne].
  apply NoDup_app in Hnd as (_ & Hd & _). apply linked_app. split; [apply linked_insert_ne; [done|intros Ha; apply (Hd a Ha); by left]|].
  cbn. rewrite lookup_insert_eq. split; [|done]. by eexists.
Qed.

Lemma set_prev_first hs p l q x : linked hs p l q -> NoDup l -> l ≠ [] ->
  exists hs', set_prev (first l q) x hs = Done hs' /\ linked hs' x l q /\ same_blocks hs hs' /\ forall b, b ≠ first l q -> hs' !! b = hs !! b.
Proof.
  intros Hl Hnd Hne. destruct l as [|a l]; [done|]. cbn [linked first] in *. destruct Hl as [(h & Hh & Hp & Hn) Hl]. apply NoDup_cons in Hnd as [Ha Hnd].
  unfold set_prev. rewrite Hh. cbn [deref mbind outcome_bind]. eexists. split_and!; [done| | |by apply relink_same_blocks|intros b Hb; by rewrite lookup_insert_ne].
  - rewrite lookup_insert_eq. by eexists.
  - by apply linked_insert_ne.
Qed.

Lemma final_null l : 0 ∉ l -> final 0 l = 0 -> l = [].
Proof.
  intros H0. destruct l as [|a l _] using rev_ind; [done|]. unfold final. rewrite last_snoc. cbn. intros ->. exfalso. apply H0, elem_of_app. right. by left.
Qed.

Lemma final_in p l : l ≠ [] -> final p l ∈ l.
Proof. destruct l as [|a l _] using rev_ind; [done|]. intros _. unfold final. rewrite last_snoc. apply elem_of_app. right. by left. Qed.

Lemma first_in l q : l ≠ [] -> first l q ∈ l.
Proof. destruct l; [done|]. intros _. by left. Qed.

Lemma unlink_spec hs b l1 l2 head :
  linked hs 0 (l1 ++ b :: l2) 0 -> NoDup (l1 ++ b :: l2) -> 0 ∉ l1 ++ b :: l2 -> head = first (l1 ++ b :: l2) 0 ->
  exists hs', unlink b head hs = Done (first (l1 ++ l2) 0, hs') /\ linked hs' 0 (l1 ++ l2) 0 /\ same_blocks hs hs' /\
    forall c, c ∉ l1 ++ l2 -> hs' !! c = hs !! c.
Proof.
  intros Hl Hnd H0 ->. apply linked_app in Hl as [Hl1 [(h & Hh & Hp & Hn) Hl2]]. cbn [first] in Hl1.
  apply NoDup_app in Hnd as (Hnd1 & Hd & Hnd2). apply NoDup_cons in Hnd2 as [Hb2 Hnd2].
  assert (Hb1 : b ∉ l1) by (intros Hb; apply (Hd b Hb); by left).
  assert (Hd12 : forall c, c ∈ l1 -> c ∉ l2) by (intros c Hc Hc2; apply (Hd c Hc); by right).
  rewrite elem_of_app, elem_of_cons in H0. unfold unlink. rewrite Hh. cbn [deref mbind outcome_bind]. rewrite Hp, Hn.
  assert (S1 : exists hs1, (if final 0 l1 =? 0 then Done hs else set_next (final 0 l1) (first l2 0) hs) = Done hs1 /\
            linked hs1 0 l1 (first l2 0) /\ same_blocks hs hs1 /\ forall c, c ∉ l1 -> hs1 !! c = hs !! c).
  { destruct (Z.eqb_spec (final 0 l1) 0) as [E|E].
    - exists hs. split_and!; try done. rewrite (final_null l1 ltac:(tauto) E). done.
    - assert (Hne1 : l1 ≠ []) by (by intros ->). destruct (set_next_last hs 0 l1 b (first l2 0) Hl1 Hnd1 Hne1) as (hs1 & E1 & L1 & B1 & F1).
      exists hs1. split_and!; try done. intros c Hc. apply F1. intros ->. by apply Hc, final_in. }
  destruct S1 as (hs1 & -> & L1 & B1 & F1). cbn [mbind outcome_bind]. rewrite (F1 b Hb1), Hh. cbn [deref mbind outcome_bind]. rewrite Hp, Hn.
  assert (L2 : linked hs1 b l2 0) by (eapply linked_frame; [done|]; intros c hc Hc Hhc; exists hc; rewrite F1 by (by intros Hc1; apply (Hd12 c)); done).
  assert (S2 : exists hs2, (if first l2 0 =? 0 then Done hs1 else set_prev (first l2 0) (final 0 l1) hs1) = Done hs2 /\
            linked hs2 (final 0 l1) l2 0 /\ same_blocks hs1 hs2 /\ forall c, c ∉ l2 -> hs2 !! c = hs1 !! c).
  { destruct (Z.eqb_spec (first l2 0) 0) as [E|E].
    - exists hs1. split_and!; try done. destruct l2 as [|c l2]; [done|]. cbn in E. exfalso. apply H0. right. right. rewrite E. by left.
    - assert (Hne2 : l2 ≠ []) by (by intros ->). destruct (set_prev_first hs1 b l2 0 (final 0 l1) L2 Hnd2 Hne2) as (hs2 & E2 & L2' & B2 & F2).
      exists hs2. split_and!; try done. intros c Hc. apply F2. intros ->. by apply Hc, first_in. }
  destruct S2 as (hs2 & -> & L2' & B2 & F2). cbn [mbind outcome_bind]. rewrite (F2 b Hb2), (F1 b Hb1), Hh. cbn [deref mbind outcome_bind]. rewrite Hn.
  eexists. split_and!; [| |by transitivity hs1|].
  - destruct l1 as [|a l1]; cbn [app first]; [by rewrite Z.eqb_refl|]. rewrite (proj2 (Z.eqb_neq _ _)); [done|]. intros ->. apply Hb1. by left.
  - apply linked_app. split; [|done]. eapply linked_frame; [exact L1|]. intros c hc Hc Hhc. exists hc. by rewrite F2 by (by apply Hd12).
  - intros c Hc. rewrite elem_of_app in Hc. rewrite F2, F1 by tauto. done.
Qed.

Lemma push_front_spec hs b l h : linked hs 0 l 0 -> NoDup (b :: l) -> 0 ∉ l -> hs !! b = Some h ->
  exists hs', push_front b (first l 0) hs = Done hs' /\ linked hs' 0 (b :: l) 0 /\ same_blocks hs hs' /\ forall c, c ∉ b :: l -> hs' !! c = hs !! c.
Proof.
  intros Hl Hnd H0 Hh. apply NoDup_cons in Hnd as [Hb Hnd]. unfold push_front.
  assert (Es : set_prev b 0 hs = Done (<[b := mkHeader (ptr h) (size h) (next h) 0]> hs)) by (unfold set_prev; by rewrite Hh). rewrite Es. cbn [mbind outcome_bind].
  unfold set_next. rewrite lookup_insert_eq. cbn [deref mbind outcome_bind ptr size next prev]. rewrite insert_insert_eq.
  set (hs1 := <[b := _]> hs). assert (L1 : linked hs1 0 l 0) by (by apply linked_insert_ne). assert (B1 : same_blocks hs hs1) by (by apply relink_same_blocks).
  assert (E1 : hs1 !! b = Some (mkHeader (ptr h) (size h) (first l 0) 0)) by apply lookup_insert_eq.
  assert (F1 : forall c, c ≠ b -> hs1 !! c = hs !! c) by (intros c Hc; by apply lookup_insert_ne).
  clearbody hs1. destruct (Z.eqb_spec (first l 0) 0) as [E|E].
  - assert (l = []) as -> by (destruct l as [|c l]; [done|]; cbn in E; exfalso; apply H0; rewrite E; by left).
    exists hs1. split_and!; [done|cbn; split; [by eexists|done]|done|intros c Hc; apply F1; intros ->; apply Hc; by left].
  - assert (Hne : l ≠ []) by (by intros ->). destruct (set_prev_first hs1 0 l 0 b L1 Hnd Hne) as (hs2 & E2 & L2 & B2 & F2). exists hs2.
    split_and!; [done| |by transitivity hs1|].
    + cbn. split; [|done]. rewrite F2; [by eexists|]. intros ->. by apply Hb, first_in.
    + intros c Hc. rewrite elem_of_cons in Hc. rewrite F2, F1; [done|tauto|]. intros ->. apply Hc. right. by apply first_in.
Qed.

(** The search goes over the list in order. *)
Lemma find_block_spec fuel test hs p l : linked hs p l 0 -> 0 ∉ l -> (length l < fuel)%nat ->
  (exists l1 b l2 h, l = l1 ++ b :: l2 /\ hs !! b = Some h /\ test h = true /\ find_block fuel test (first l 0) hs = Done b /\
     forall c hc, c ∈ l1 -> hs !! c = Some hc -> test hc = false) \/
  (find_block fuel test (first l 0) hs = Done 0 /\ forall c hc, c ∈ l -> hs !! c = Some hc -> test hc = false).
Proof.
  revert p l. induction fuel as [|n IH]; intros p l Hl H0 Hlen; [lia|]. cbn [find_block]. destruct l as [|a l]; cbn [first linked] in *.
  { right. split; [done|]. intros c hc Hc. by apply not_elem_of_nil in Hc. }
  destruct Hl as [(h & Hh & Hp & Hn) Hl]. rewrite elem_of_cons in H0. rewrite (proj2 (Z.eqb_neq _ _)) by (intros ->; tauto). rewrite Hh. cbn [deref mbind outcome_bind].
  destruct (test h) eqn:Et.
  { left. exists [], a, l, h. split_and!; try done. intros c hc Hc. by apply not_elem_of_nil in Hc. }
  rewrite Hn. destruct (IH a l Hl ltac:(tauto) ltac:(cbn in Hlen; lia)) as [(l1 & b & l2 & hb & -> & Hb & Tb & Ef & Hbefore)|[Ef Hall]].
  - left. exists (a :: l1), b, l2, hb. split_and!; try done. intros c hc [->|Hc]%elem_of_cons Hhc; [congruence|by eapply Hbefore].
  - right. split; [done|]. intros c hc [->|Hc]%elem_of_cons Hhc; [congruence|by eapply Hall].
Qed.

(** ** The invariant of the heap *)

(** Every header is followed by its block, blocks are aligned, and no two overlap;
    all lie between [lo] and [hi]. *)
Record placed (lo hi : Z) (hs : gmap Z alloc_header) : Prop := {
  pl_block a h : hs !! a = Some h ->
    lo <= a /\ a mod 16 = 0 /\ ptr h = a + 32 /\ 0 < size h /\ size h mod 16 = 0 /\ a + 32 + size h <= hi;
  pl_disjoint a b ha hb : hs !! a = Some ha -> hs !! b = Some hb -> a ≠ b -> a + 32 + size ha <= b \/ b + 32 + size hb <= a
}.

#[global] Instance placed_proper lo hi : Proper (same_blocks ==> iff) (placed lo hi).
Proof.
  assert (Himp : forall hs hs', same_blocks hs hs' -> placed lo hi hs -> placed lo hi hs').
  { intros hs hs' S [Hb Hd]. symmetry in S. split.
    - intros a h Ha. destruct (same_blocks_lookup _ _ _ _ S Ha) as (h' & Ha' & <- & <-). by apply Hb.
    - intros a b ha hb Ha Hb'. destruct (same_blocks_lookup _ _ _ _ S Ha) as (ha' & Ha' & _ & <-).
      destruct (same_blocks_lookup _ _ _ _ S Hb') as (hb' & Hb'' & _ & <-). by apply Hd. }
  intros hs hs' S. split; apply Himp; [done|by symmetry].
Qed.

(** A new block at the end. *)
Lemma placed_new lo hi hs k n p : placed lo hi hs -> lo <= hi -> hi mod 16 = 0 -> 0 < k -> k mod 16 = 0 ->
  placed lo (hi + 32 + k) (<[hi := mkHeader (hi + 32) k n p]> hs).
Proof.
  intros [Hb Hd] Hlo Hhi Hk Hkm. split.
  - intros a h [[<- <-]|[Hne Ha]]%lookup_insert_Some; [cbn; lia|]. apply Hb in Ha. lia.
  - intros a b ha hb [[<- <-]|[Hna Ha]]%lookup_insert_Some [[<- <-]|[Hnb Hb']]%lookup_insert_Some Hne; [done| | |by apply Hd]; cbn.
    + apply Hb in Hb'. lia.
    + apply Hb in Ha. lia.
Qed.

(** [A] are the headers on the list of allocated blocks, [F] those on the other. *)
Record heap_inv (h : heap) (A F : list Z) : Prop := {
  hi_base : 0 < heap_base h;
  hi_size : 0 <= heap_size h /\ heap_base h + heap_size h < 2 ^ 63;
  hi_ptr : heap_base h <= heap_ptr h <= heap_base h + heap_size h;
  hi_aligned : heap_ptr h mod 16 = 0;
  hi_dom : dom (headers h) = list_to_set (A ++ F);
  hi_nodup : NoDup (A ++ F);
  hi_alloc : alloc_list h = first A 0 /\ linked (headers h) 0 A 0;
  hi_free : free_list h = first F 0 /\ linked (headers h) 0 F 0;
  hi_headers : free_headers h = 0;
  hi_placed : placed (heap_base h) (heap_ptr h) (headers h)
}.

Lemma hi_header h A F a : heap_inv h A F -> a ∈ A ++ F -> exists hd, headers h !! a = Some hd.
Proof. intros I Ha. apply elem_of_dom. rewrite (hi_dom _ _ _ I). by apply elem_of_list_to_set. Qed.

Lemma hi_known h A F a hd : heap_inv h A F -> headers h !! a = Some hd -> a ∈ A ++ F.
Proof. intros I Ha. apply (elem_of_list_to_set (C := gset Z)). rewrite <- (hi_dom _ _ _ I). apply elem_of_dom. by eexists. Qed.

Lemma hi_not_null h A F : heap_inv h A F -> 0 ∉ A ++ F.
Proof. intros I H0. destruct (hi_header _ _ _ _ I H0) as [hd Hd]. apply (pl_block _ _ _ (hi_placed _ _ _ I)) in Hd. pose proof (hi_base _ _ _ I). lia. Qed.

Lemma hi_fuel h A F : heap_inv h A F -> (length A < list_fuel h /\ length F < list_fuel h)%nat.
Proof.
  intros I. assert (E : base.size (headers h) = length (A ++ F)).
  { rewrite <- size_dom, (hi_dom _ _ _ I). apply size_list_to_set, (hi_nodup _ _ _ I). }
  unfold list_fuel. rewrite E, length_app. lia.
Qed.

(** Rounding up to sixteen. *)
Lemma align_spec n : 0 <= n < 2 ^ 63 -> n <= align_to_max_align_t n < n + 17 /\ 0 < align_to_max_align_t n /\ align_to_max_align_t n mod 16 = 0.
Proof.
  intros Hn. unfold align_to_max_align_t. destruct (Z.eqb_spec n 0) as [->|Hne]; [by vm_compute|]. rewrite wrap64_small by (unfold is_u64; lia).
  assert (E : Z.land (n + 15) (not64 15) = (n + 15) / 16 * 16); [|rewrite E; split_and!; [dlia|dlia|dlia|apply Z.mod_mul; lia]].
  rewrite <- (Z.shiftr_div_pow2 _ 4), <- (Z.shiftl_mul_pow2 _ 4) by lia. apply Z.bits_inj'. intros i Hi.
  rewrite Z.land_spec, Z.ldiff_spec, Z.shiftl_spec by lia. change (2 ^ 64 - 1) with (Z.ones 64). change 15 with (Z.ones 4). rewrite !Z.testbit_ones_nonneg by lia.
  destruct (Z.ltb_spec i 4) as [H4|H4].
  - rewrite (Z.testbit_neg_r _ (i - 4)) by lia. rewrite andb_false_r. cbn. by rewrite !andb_false_r.
  - rewrite Z.shiftr_spec by lia. replace (i - 4 + 4) with i by lia. cbn [negb]. rewrite andb_true_r.
    destruct (Z.ltb_spec i 64); [by rewrite andb_true_r|]. rewrite andb_false_r. symmetry. change (Z.ones 4) with 15. apply Z.bits_above_log2; [lia|].
    apply Z.log2_lt_pow2; [lia|]. apply Z.lt_le_trans with (2 ^ 64); [lia|]. apply Z.pow_le_mono_r; lia.
Qed.

Lemma linked_other hs hs' p l q : linked hs p l q -> (forall c, c ∈ l -> hs' !! c = hs !! c) -> linked hs' p l q.
Proof. intros Hl Hf. eapply linked_frame; [done|]. intros a h Ha Hh. exists h. by rewrite Hf. Qed.

Lemma same_blocks_dom hs hs' : same_blocks hs hs' -> dom hs' = dom hs.
Proof.
  intros S. apply set_eq. intros a. rewrite !elem_of_dom. specialize (S a). destruct (hs !! a), (hs' !! a); simplify_eq/=; split; intros [? ?]; by eexists.
Qed.

(** A block goes from one list to the front of the other. *)
Lemma move_block hs b l1 l2 l h :
  linked hs 0 (l1 ++ b :: l2) 0 -> linked hs 0 l 0 -> NoDup (l ++ l1 ++ b :: l2) -> 0 ∉ l ++ l1 ++ b :: l2 -> hs !! b = Some h ->
  exists hs1 hs2, unlink b (first (l1 ++ b :: l2) 0) hs = Done (first (l1 ++ l2) 0, hs1) /\ push_front b (first l 0) hs1 = Done hs2 /\
    linked hs2 0 (l1 ++ l2) 0 /\ linked hs2 0 (b :: l) 0 /\ same_blocks hs hs2.
Proof.
  intros Hl Hl' Hnd H0 Hh. apply NoDup_app in Hnd as (Hnd' & Hd & Hnd). rewrite elem_of_app in H0.
  assert (Hsub : forall c, c ∈ l1 ++ l2 -> c ∈ l1 ++ b :: l2) by (intros c; rewrite !elem_of_app, elem_of_cons; tauto).
  assert (Hb : b ∈ l1 ++ b :: l2) by (rewrite elem_of_app, elem_of_cons; tauto). assert (Hbn : b ∉ l1 ++ l2).
  { apply NoDup_app in Hnd as (_ & Hd1 & Hnd2). apply NoDup_cons in Hnd2 as [Hb2 _]. rewrite elem_of_app. intros [H1|H1]; [|done]. apply (Hd1 b H1). by left. }
  destruct (unlink_spec hs b l1 l2 _ Hl Hnd ltac:(tauto) eq_refl) as (hs1 & E1 & L1 & B1 & F1).
  assert (Hl1 : linked hs1 0 l 0) by (eapply linked_other; [done|]; intros c Hc; apply F1; intros Hc'; apply (Hd c Hc); by apply Hsub).
  assert (Hbl : b ∉ l) by (intros Hbl; by apply (Hd b Hbl)). rewrite <- (F1 b Hbn) in Hh.
  destruct (push_front_spec hs1 b l h Hl1) as (hs2 & E2 & L2 & B2 & F2); [by apply NoDup_cons|tauto|done|].
  exists hs1, hs2. split_and!; [done|done| |done|by transitivity hs1]. eapply linked_other; [done|]. intros c Hc. apply F2.
  intros [->|Hcl]%elem_of_cons; [done|]. by apply (Hd c Hcl), Hsub.
Qed.

Definition keeps (h h' : heap) : Prop :=
  forall a hd, headers h !! a = Some hd -> exists hd', headers h' !! a = Some hd' /\ ptr hd' = ptr hd /\ size hd' = size hd.

Lemma malloc_reuses h A F1 b F2 hd n :
  heap_inv h A (F1 ++ b :: F2) -> headers h !! b = Some hd -> find_free_block (align_to_max_align_t n) h = Done b ->
  exists h', malloc n h = Done (ptr hd, h') /\ heap_inv h' (b :: A) (F1 ++ F2) /\ same_blocks (headers h) (headers h').
Proof.
  intros I Hb Ef. pose proof (hi_not_null _ _ _ I) as H0. destruct (hi_alloc _ _ _ I) as [Ea La]. destruct (hi_free _ _ _ I) as [Efl Lf].
  assert (Hb0 : b ≠ 0) by (intros ->; apply H0; rewrite !elem_of_app, elem_of_cons; tauto).
  destruct (move_block (headers h) b F1 F2 A hd Lf La (hi_nodup _ _ _ I) H0 Hb) as (hs1 & hs2 & E1 & E2 & L1 & L2 & B).
  unfold malloc. rewrite Ef. cbn [mbind outcome_bind]. rewrite (proj2 (Z.eqb_neq _ _)) by done. cbn [negb]. rewrite Efl, E1. cbn [mbind outcome_bind]. rewrite Ea, E2. cbn [mbind outcome_bind].
  destruct (same_blocks_lookup _ _ _ _ B Hb) as (hd' & Hd' & Hp & _). rewrite Hd'. cbn [deref mbind outcome_bind]. rewrite Hp. eexists. split_and!; [done| |done].
  assert (Hperm : (b :: A) ++ F1 ++ F2 ≡ₚ A ++ F1 ++ b :: F2) by (rewrite <- (Permutation_middle F1), <- Permutation_middle; done).
  destruct I. split; cbn [headers heap_base heap_size heap_ptr alloc_list free_list free_headers with_lists with_headers]; try done; [|by rewrite Hperm|by rewrite <- B].
  by rewrite (same_blocks_dom _ _ B), Hperm.
Qed.

Lemma heap_alloc_spec n h : 0 <= n -> 0 <= heap_ptr h -> 0 <= heap_base h + heap_size h < 2 ^ 63 -> heap_ptr h + n < heap_base h + heap_size h ->
  heap_alloc n h = (heap_ptr h, with_heap_ptr (heap_ptr h + n) h).
Proof.
  intros Hn Hp He Hlt. unfold heap_alloc, heap_has_space. rewrite !wrap64_small by (unfold is_u64; lia). by rewrite (proj2 (Z.ltb_lt _ _)).
Qed.

(** A new header and its block. *)
Lemma malloc_new h n :
  0 < heap_base h -> 0 <= heap_size h -> heap_base h + heap_size h < 2 ^ 63 -> heap_base h <= heap_ptr h -> free_headers h = 0 -> 0 <= align_to_max_align_t n ->
  find_free_block (align_to_max_align_t n) h = Done 0 -> heap_ptr h + align_to_max_align_t n + 32 < heap_base h + heap_size h ->
  malloc n h =
    (hs ← push_front (heap_ptr h) (alloc_list h) (<[heap_ptr h := mkHeader (heap_ptr h + 32) (align_to_max_align_t n) 0 0]> (headers h));
     Done (heap_ptr h + 32, with_lists (heap_ptr h) (free_list h) (with_headers hs (with_heap_ptr (heap_ptr h + 32 + align_to_max_align_t n) h)))).
Proof.
  intros H1 H2 H3 H4 Hfh Hk Ef Hroom.
  unfold malloc. rewrite Ef. cbn [mbind outcome_bind Z.eqb negb]. change block_sz with 32. set (k := align_to_max_align_t n) in *. clearbody k.
  rewrite !(wrap64_small (heap_ptr h + k)), !wrap64_small by (unfold is_u64; lia). rewrite (proj2 (Z.leb_gt _ _)) by lia.
  unfold allocate_header. rewrite Hfh. cbn [Z.eqb negb]. unfold sizeof_alloc_header. rewrite heap_alloc_spec by lia.
  rewrite (proj2 (Z.eqb_neq _ _)) by lia. cbn [mbind outcome_bind]. rewrite (proj2 (Z.eqb_neq _ _)) by lia.
  rewrite heap_alloc_spec by (cbn; lia). cbn [heap_ptr with_heap_ptr with_headers headers]. rewrite (proj2 (Z.eqb_neq _ _)) by lia.
  rewrite lookup_insert_eq. cbn [deref mbind outcome_bind next prev alloc_list]. by rewrite insert_insert_eq.
Qed.

Lemma malloc_extends h A F n :
  heap_inv h A F -> 0 <= n < 2 ^ 63 -> find_free_block (align_to_max_align_t n) h = Done 0 ->
  heap_ptr h + align_to_max_align_t n + 32 < heap_base h + heap_size h ->
  exists h', malloc n h = Done (heap_ptr h + 32, h') /\ heap_inv h' (heap_ptr h :: A) F /\ keeps h h' /\
    exists hd, headers h' !! heap_ptr h = Some hd /\ ptr hd = heap_ptr h + 32 /\ size hd = align_to_max_align_t n.
Proof.
  intros I Hn Ef Hroom. destruct (align_spec n Hn) as (Hk & Hk0 & Hkm). pose proof (hi_not_null _ _ _ I) as H0.
  pose proof (hi_base _ _ _ I). pose proof (hi_size _ _ _ I). pose proof (hi_ptr _ _ _ I).
  assert (Hnew : heap_ptr h ∉ A ++ F).
  { intros Hc. destruct (hi_header _ _ _ _ I Hc) as [hd Hd]. apply (pl_block _ _ _ (hi_placed _ _ _ I)) in Hd. lia. }
  rewrite malloc_new by (try lia; by try apply I). set (k := align_to_max_align_t n) in *. clearbody k.
  destruct (hi_alloc _ _ _ I) as [Ea La]. destruct (hi_free _ _ _ I) as [Efl Lf].
  rewrite Ea. rewrite elem_of_app in Hnew, H0. set (b := heap_ptr h) in *. set (hs1 := <[b := _]> (headers h)).
  assert (P1 : placed (heap_base h) (b + 32 + k) hs1) by (apply placed_new; [apply I|lia|apply I|lia|done]).
  assert (K1 : hs1 !! b = Some (mkHeader (b + 32) k 0 0)) by apply lookup_insert_eq.
  assert (F1 : forall c, c ≠ b -> hs1 !! c = headers h !! c) by (intros c Hc; by apply lookup_insert_ne).
  assert (L1 : linked hs1 0 A 0) by (apply linked_insert_ne; tauto). assert (LF : linked hs1 0 F 0) by (apply linked_insert_ne; tauto).
  assert (D1 : dom hs1 = {[b]} ∪ dom (headers h)) by apply dom_insert_L. clearbody hs1.
  pose proof (hi_nodup _ _ _ I) as Hnd. pose proof (proj1 (NoDup_app _ _) Hnd) as (HndA & HdAF & _).
  assert (Hnd1 : NoDup (b :: A)) by (apply NoDup_cons; tauto). assert (HA0 : 0 ∉ A) by tauto.
  destruct (push_front_spec hs1 b A _ L1 Hnd1 HA0 K1) as (hs2 & E2 & L2 & B2 & F2). rewrite E2. cbn [mbind outcome_bind].
  eexists. split_and!; [done| | |].
  - destruct I. split; cbn [headers heap_base heap_size heap_ptr alloc_list free_list free_headers with_lists with_headers with_heap_ptr]; try done.
    + unfold b. lia.
    + unfold b. dlia.
    + rewrite (same_blocks_dom _ _ B2), D1, hi_dom0. done.
    + apply NoDup_cons. rewrite elem_of_app. tauto.
    + split; [done|]. eapply linked_other; [done|]. intros c Hc. apply F2. intros [->|HcA]%elem_of_cons; [tauto|]. by apply (HdAF c).
    + by rewrite <- B2.
  - intros a hd Ha. assert (Hab : a ≠ b) by (intros ->; apply (hi_known _ _ _ _ _ I), elem_of_app in Ha; tauto).
    rewrite <- F1 in Ha by done. by apply (same_blocks_lookup _ _ _ _ B2).
  - by apply (same_blocks_lookup _ _ _ _ B2 K1).
Qed.

(** ** What the program sees: the blocks it owns, with their sizes *)

Definition owned (h : heap) (A : list Z) (p n : Z) : Prop := p - 32 ∈ A /\ exists hd, headers h !! (p - 32) = Some hd /\ size hd = n.

Definition represents (h : heap) (L : gmap Z Z) : Prop :=
  exists A F, heap_inv h A F /\ forall p n, L !! p = Some n <-> owned h A p n.

Lemma owned_keeps h h' A p n : keeps h h' -> (forall a, a ∈ A -> is_Some (headers h !! a)) -> owned h' A p n <-> owned h A p n.
Proof.
  intros K Hs. unfold owned. split; intros [Hin (hd & Hd & Hn)]; (split; [done|]).
  - destruct (Hs _ Hin) as [hd0 Hd0]. destruct (K _ _ Hd0) as (hd' & Hd' & _ & Hsz). simplify_eq. by exists hd0.
  - destruct (K _ _ Hd) as (hd' & Hd' & _ & Hsz). exists hd'. split; congruence.
Qed.

Lemma same_blocks_keeps h h' : same_blocks (headers h) (headers h') -> keeps h h'.
Proof. intros B a hd Hd. by apply (same_blocks_lookup _ _ _ _ B). Qed.

Lemma hi_some h A F : heap_inv h A F -> forall a, a ∈ A -> is_Some (headers h !! a).
Proof. intros I a Ha. destruct (hi_header _ _ _ a I) as [hd Hd]; [apply elem_of_app; by left|by eexists]. Qed.

(** Blocks of the program are apart, aligned, and within the heap. *)
Lemma represents_block h (L : gmap Z Z) p n : represents h L -> L !! p = Some n ->
  heap_base h + 32 <= p /\ p mod 16 = 0 /\ 0 < n /\ p + n <= heap_base h + heap_size h.
Proof.
  intros (A & F & I & HL) Hp. apply HL in Hp as [_ (hd & Hd & <-)]. apply (pl_block _ _ _ (hi_placed _ _ _ I)) in Hd. pose proof (hi_ptr _ _ _ I).
  split_and!; [lia|dlia|lia|lia].
Qed.

Lemma represents_disjoint h (L : gmap Z Z) p n q k : represents h L -> L !! p = Some n -> L !! q = Some k -> p ≠ q -> p + n <= q \/ q + k <= p.
Proof.
  intros (A & F & I & HL) Hp Hq Hne. apply HL in Hp as [_ (hp & Hp & <-)]. apply HL in Hq as [_ (hq & Hq & <-)].
  destruct (pl_disjoint _ _ _ (hi_placed _ _ _ I) _ _ _ _ Hp Hq); lia.
Qed.

(** One more block. *)
Lemma owned_cons h h' A F (L : gmap Z Z) b hd' :
  heap_inv h A F -> (forall p n, L !! p = Some n <-> owned h A p n) -> keeps h h' -> b ∉ A -> headers h' !! b = Some hd' ->
  L !! (b + 32) = None /\ forall p n, <[b + 32 := size hd']> L !! p = Some n <-> owned h' (b :: A) p n.
Proof.
  intros I HL K HbA Hd'. assert (Hbb : b + 32 - 32 = b) by lia. split.
  { apply eq_None_not_Some. intros [x Hx]. apply HL in Hx as [Hx _]. by rewrite Hbb in Hx. }
  intros q k. rewrite lookup_insert_Some, HL, <- (owned_keeps h h' A) by (done || by eapply hi_some). unfold owned. rewrite elem_of_cons. split.
  - intros [[<- <-]|[Hne [HA Hq]]]; [|tauto]. rewrite Hbb. split; [by left|]. by exists hd'.
  - intros [[Hqb|HA] (hq & Hq & <-)].
    + left. split; [lia|]. rewrite Hqb in Hq. congruence.
    + right. split; [intros <-; by rewrite Hbb in HA|]. split; [done|by exists hq].
Qed.

Lemma malloc_spec h (L : gmap Z Z) n : represents h L -> 0 <= n < 2 ^ 62 ->
  (exists p k h', malloc n h = Done (p, h') /\ p ≠ 0 /\ n <= k /\ L !! p = None /\ represents h' (<[p := k]> L)) \/
  (malloc n h = Done (0, with_errno ENOMEM h) /\ heap_base h + heap_size h <= heap_ptr h + align_to_max_align_t n + 32).
Proof.
  intros (A & F & I & HL) Hn. assert (Hn' : 0 <= n < 2 ^ 63) by lia. destruct (align_spec n Hn') as (Hk & Hk0 & Hkm). pose proof (hi_not_null _ _ _ I) as H0. rewrite elem_of_app in H0.
  pose proof (hi_base _ _ _ I). pose proof (hi_size _ _ _ I). pose proof (hi_ptr _ _ _ I). destruct (hi_free _ _ _ I) as [Efl Lf].
  destruct (find_block_spec (list_fuel h) (fun b => align_to_max_align_t n <=? size b) (headers h) 0 F Lf ltac:(tauto) (proj2 (hi_fuel _ _ _ I)))
    as [(F1 & b & F2 & hd & -> & Hb & Ht & Ef & _)|[Ef _]]; rewrite <- Efl in Ef.
  - left. destruct (malloc_reuses h A F1 b F2 hd n I Hb Ef) as (h' & E & I' & B). apply Z.leb_le in Ht.
    destruct (pl_block _ _ _ (hi_placed _ _ _ I) b hd Hb) as (Hlo & _ & Hp & _). destruct (same_blocks_lookup _ _ _ _ B Hb) as (hd' & Hd' & _ & Hs').
    pose proof (proj1 (NoDup_cons _ _) (hi_nodup _ _ _ I')) as [HbA _]. rewrite elem_of_app in HbA.
    destruct (owned_cons h h' A _ L b hd' I HL (same_blocks_keeps _ _ B) ltac:(tauto) Hd') as [Hnone HL'].
    exists (b + 32), (size hd'), h'. split_and!; [by rewrite E, Hp|lia|lia|done|]. by exists (b :: A), (F1 ++ F2).
  - destruct (Z_lt_le_dec (heap_ptr h + align_to_max_align_t n + 32) (heap_base h + heap_size h)) as [Hroom|Hfull].
    + left. destruct (malloc_extends h A F n I Hn' Ef Hroom) as (h' & E & I' & K & hd & Hd & Hp & Hs).
      pose proof (proj1 (NoDup_cons _ _) (hi_nodup _ _ _ I')) as [HbA _]. rewrite elem_of_app in HbA.
      destruct (owned_cons h h' A F L (heap_ptr h) hd I HL K ltac:(tauto) Hd) as [Hnone HL'].
      exists (heap_ptr h + 32), (size hd), h'. split_and!; [done|lia|lia|done|]. by exists (heap_ptr h :: A), F.
    + right. split; [|done]. unfold malloc, find_free_block. rewrite Ef. cbn [mbind outcome_bind Z.eqb negb]. change block_sz with 32.
      rewrite !(wrap64_small (heap_ptr h + align_to_max_align_t n)), !wrap64_small by (unfold is_u64; lia). by rewrite (proj2 (Z.leb_le _ _)) by lia.
Qed.

(** The search in the list of the allocated blocks. *)
Lemma find_alloc_spec h A F p : heap_inv h A F ->
  (exists A1 A2 hd, A = A1 ++ (p - 32) :: A2 /\ headers h !! (p - 32) = Some hd /\ find_alloc_block p h = Done (p - 32)) \/
  (p - 32 ∉ A /\ find_alloc_block p h = Done 0).
Proof.
  intros I. pose proof (hi_not_null _ _ _ I) as H0. rewrite elem_of_app in H0. destruct (hi_alloc _ _ _ I) as [Ea La].
  destruct (find_block_spec (list_fuel h) (fun b => ptr b =? p) (headers h) 0 A La ltac:(tauto) (proj1 (hi_fuel _ _ _ I)))
    as [(A1 & b & A2 & hd & -> & Hb & Ht & Ef & _)|[Ef Hall]]; rewrite <- Ea in Ef.
  - left. apply Z.eqb_eq in Ht. destruct (pl_block _ _ _ (hi_placed _ _ _ I) b hd Hb) as (_ & _ & Hp & _). replace (p - 32) with b by lia. by exists A1, A2, hd.
  - right. split; [|done]. intros Hin. destruct (hi_some _ _ _ I _ Hin) as [hd Hd]. specialize (Hall _ _ Hin Hd). cbn in Hall.
    destruct (pl_block _ _ _ (hi_placed _ _ _ I) _ hd Hd) as (_ & _ & Hp & _). lia.
Qed.

Lemma release_spec h (L : gmap Z Z) p n : represents h L -> L !! p = Some n -> exists h', free p h = Done h' /\ represents h' (delete p L) /\
  same_blocks (headers h) (headers h') /\ heap_ptr h' = heap_ptr h /\ heap_base h' = heap_base h /\ free_list h' = p - 32.
Proof.
  intros (A & F & I & HL) Hp. assert (Hnz : p - 32 ≠ 0 /\ p ≠ 0) by (destruct (represents_block h L p n ltac:(by exists A, F) Hp) as [? _]; pose proof (hi_base _ _ _ I); lia).
  apply HL in Hp as [Hin (hd & Hd & Hn)]. unfold free. rewrite (proj2 (Z.eqb_neq p 0)) by tauto.
  destruct (find_alloc_spec h A F p I) as [(A1 & A2 & hd' & -> & Hd' & Ef)|[Hnin _]]; [|done]. rewrite Ef. cbn [mbind outcome_bind]. rewrite (proj2 (Z.eqb_neq (p - 32) 0)) by tauto.
  destruct (hi_alloc _ _ _ I) as [Ea La]. destruct (hi_free _ _ _ I) as [Efl Lf]. set (b := p - 32) in *.
  assert (Hperm : F ++ A1 ++ b :: A2 ≡ₚ (A1 ++ b :: A2) ++ F) by apply Permutation_app_comm.
  destruct (move_block (headers h) b A1 A2 F hd La Lf) as (hs1 & hs2 & E1 & E2 & L1 & L2 & B);
    [rewrite Hperm; apply I|rewrite Hperm; by apply (hi_not_null h)|done|].
  rewrite Ea, E1. cbn [mbind outcome_bind]. rewrite Efl, E2. cbn [mbind outcome_bind]. eexists. split_and!; [done| |done|done|done|done].
  assert (Hperm' : (A1 ++ A2) ++ b :: F ≡ₚ (A1 ++ b :: A2) ++ F) by (rewrite <- (Permutation_middle (A1 ++ A2)), <- (Permutation_middle A1); done).
  exists (A1 ++ A2), (b :: F). pose proof (proj1 (NoDup_app _ _) (hi_nodup _ _ _ I)) as (HndA & _ & _). split.
  - destruct I. split; cbn [headers heap_base heap_size heap_ptr alloc_list free_list free_headers with_lists with_headers]; try done; [|by rewrite Hperm'|by rewrite <- B].
    by rewrite (same_blocks_dom _ _ B), Hperm'.
  - intros q k. rewrite lookup_delete_Some, HL.
    rewrite <- (owned_keeps h (with_lists (first (A1 ++ A2) 0) b (with_headers hs2 h)) (A1 ++ b :: A2)) by (by apply same_blocks_keeps || by eapply hi_some).
    unfold owned. rewrite !elem_of_app, elem_of_cons. apply NoDup_app in HndA as (_ & Hd1 & Hnd2). apply NoDup_cons in Hnd2 as [Hb2 _].
    assert (Hb1 : b ∉ A1) by (intros Hb1; apply (Hd1 b Hb1); by left). split.
    + intros [Hne [Hq Hx]]. split; [|done]. destruct Hq as [|[Hq|]]; [tauto| |tauto]. exfalso. apply Hne. unfold b in Hq. lia.
    + intros [Hq Hx]. split; [|tauto]. intros <-. tauto.
Qed.

(** A pointer the program does not own stops it. *)
Lemma free_stops h (L : gmap Z Z) p : represents h L -> L !! p = None -> p ≠ 0 -> free p h = Stop Panicked.
Proof.
  intros (A & F & I & HL) Hp H0. unfold free. rewrite (proj2 (Z.eqb_neq p 0)) by done.
  destruct (find_alloc_spec h A F p I) as [(A1 & A2 & hd & -> & Hd & _)|[Hnin Ef]].
  { assert (Ho : L !! p = Some (size hd)); [|congruence]. apply HL. split; [rewrite elem_of_app, elem_of_cons; tauto|by exists hd]. }
  rewrite Ef. cbn [mbind outcome_bind Z.eqb]. destruct (hi_free _ _ _ I) as [Efl Lf]. pose proof (hi_not_null _ _ _ I) as HF0. rewrite elem_of_app in HF0.
  destruct (find_block_spec (list_fuel h) (fun b => ptr b =? p) (headers h) 0 F Lf ltac:(tauto) (proj2 (hi_fuel _ _ _ I))) as [(F1 & b & F2 & hd & _ & _ & _ & Eb & _)|[Eb _]];
    rewrite <- Efl in Eb; by rewrite Eb.
Qed.

(** ** Moving the contents *)

Lemma memcpy_read n dst src m x : src + Z.of_nat n <= dst \/ dst + Z.of_nat n <= src ->
  read8 (memcpy n dst src m) x = if decide (dst <= x < dst + Z.of_nat n) then read8 m (x - dst + src) else read8 m x.
Proof.
  revert dst src m. induction n as [|n IH]; intros dst src m Hd; cbn [memcpy]; [by rewrite decide_False by lia|]. rewrite IH by lia.
  destruct (Z.eq_dec x dst) as [->|Hne].
  - rewrite decide_False, decide_True, read8_write8_eq by lia. replace (dst - dst + src) with src by lia. unfold read8. by rewrite Zmod_mod.
  - destruct (decide (dst + 1 <= x < dst + 1 + Z.of_nat n)).
    + rewrite decide_True, read8_write8_ne by lia. f_equal. lia.
    + by rewrite decide_False, read8_write8_ne by lia.
Qed.

Lemma memset_read n p v m x : read8 (memset n p v m) x = if decide (p <= x < p + Z.of_nat n) then v mod 256 else read8 m x.
Proof.
  revert p m. induction n as [|n IH]; intros p m; cbn [memset]; [by rewrite decide_False by lia|]. rewrite IH. destruct (Z.eq_dec x p) as [->|Hne].
  - by rewrite decide_False, decide_True, read8_write8_eq by lia.
  - rewrite read8_write8_ne by lia. by destruct (decide (p + 1 <= x < p + 1 + Z.of_nat n)), (decide (p <= x < p + Z.of_nat (S n))); try lia.
Qed.

Lemma load_bytes_shift m1 m2 a b n : (forall i, 0 <= i < Z.of_nat n -> read8 m1 (a + i) = read8 m2 (b + i)) -> load_bytes m1 a n = load_bytes m2 b n.
Proof.
  revert a b. induction n as [|n IH]; intros a b H; cbn [load_bytes]; [done|]. f_equal; [specialize (H 0 ltac:(lia)); by rewrite !Z.add_0_r in H|].
  apply IH. intros i Hi. specialize (H (i + 1) ltac:(lia)). by replace (a + (i + 1)) with (a + 1 + i) in H by lia; replace (b + (i + 1)) with (b + 1 + i) in H by lia.
Qed.

(** The block grows in place, moves, or stays when there is no room. *)
Lemma realloc_spec h (L : gmap Z Z) p k n m : represents h L -> L !! p = Some k -> 0 < n < 2 ^ 61 ->
  (n <= k /\ realloc p n h m = Done (p, h, m)) \/
  (realloc p n h m = Done (0, with_errno ENOMEM h, m)) \/
  (exists q k' h' m', realloc p n h m = Done (q, h', m') /\ q ≠ 0 /\ n <= k' /\ L !! q = None /\ represents h' (<[q := k']> (delete p L)) /\
    load_bytes m' q (Z.to_nat k) = load_bytes m p (Z.to_nat k) /\
    forall r j, delete p L !! r = Some j -> load_bytes m' r (Z.to_nat j) = load_bytes m r (Z.to_nat j)).
Proof.
  intros R Hp Hn. destruct (align_spec n ltac:(lia)) as (Hk & Hk0 & Hkm). pose proof R as (A & F & I & HL). pose proof (proj1 (HL p k) Hp) as [Hin (hd & Hd & Hs)].
  destruct (represents_block _ _ _ _ R Hp) as (Hlo & _ & Hkpos & _). pose proof (hi_base _ _ _ I) as Hbase.
  unfold realloc, realloc_impl. rewrite (proj2 (Z.eqb_neq p 0)), (proj2 (Z.eqb_neq n 0)) by lia.
  destruct (find_alloc_spec h A F p I) as [(A1 & A2 & hd' & _ & Hd' & Ef)|[Hnin _]]; [|done]. rewrite Ef. cbn [mbind outcome_bind].
  rewrite (proj2 (Z.eqb_neq (p - 32) 0)) by lia. rewrite Hd. cbn [deref mbind outcome_bind]. rewrite Hs.
  destruct (Z.leb_spec (align_to_max_align_t n) k) as [Hle|Hgt]; [left; split; [lia|done]|]. right.
  destruct (malloc_spec h L (align_to_max_align_t n) R ltac:(lia)) as [(q & k' & h1 & E & Hq0 & Hk' & Hq & R1)|[E _]]; rewrite E; cbn [mbind outcome_bind]; [right|by left].
  rewrite (proj2 (Z.eqb_neq q 0)) by done. assert (Hpq : p ≠ q) by congruence. assert (Hp1 : <[q := k']> L !! p = Some k) by (by rewrite lookup_insert_ne).
  pose proof R1 as (A' & F' & I' & HL'). destruct (proj1 (HL' p k) Hp1) as [_ (hd1 & Hd1 & Hs1)]. rewrite Hd1. cbn [deref mbind outcome_bind].
  destruct (release_spec h1 _ p k R1 Hp1) as (h2 & Ef2 & R2 & _). rewrite Ef2. cbn [mbind outcome_bind]. rewrite Hs1, Z.min_r by lia.
  rewrite delete_insert_ne in R2 by done. pose proof (represents_disjoint _ _ _ _ q k' R1 Hp1 (lookup_insert_eq L q k') Hpq) as Hdis.
  eexists q, k', h2, _. split_and!; [done|done|lia|done|done| |].
  - apply load_bytes_shift. intros i Hi. rewrite memcpy_read, decide_True by lia. f_equal. lia.
  - intros r j [Hrp Hr]%lookup_delete_Some. assert (Hrq : r ≠ q) by congruence. apply load_bytes_frame. intros x Hx. rewrite memcpy_read by lia. rewrite decide_False; [done|].
    assert (Hr1 : <[q := k']> L !! r = Some j) by (by rewrite lookup_insert_ne). pose proof (represents_disjoint _ _ _ _ q k' R1 Hr1 (lookup_insert_eq L q k') Hrq). lia.
Qed.

Lemma calloc_spec h (L : gmap Z Z) c sz m : represents h L -> 0 <= c -> 0 <= sz -> c * sz < 2 ^ 62 ->
  (exists p k h' m', calloc c sz h m = Done (p, h', m') /\ p ≠ 0 /\ c * sz <= k /\ L !! p = None /\ represents h' (<[p := k]> L) /\
    (forall i, 0 <= i < c * sz -> read8 m' (p + i) = 0) /\ forall r j, L !! r = Some j -> load_bytes m' r (Z.to_nat j) = load_bytes m r (Z.to_nat j)) \/
  calloc c sz h m = Done (0, with_errno ENOMEM h, m).
Proof.
  intros R Hc Hsz Hb. assert (0 <= c * sz) by nia. unfold calloc. rewrite wrap64_small by (unfold is_u64; lia).
  destruct (malloc_spec h L (c * sz) R ltac:(lia)) as [(p & k & h1 & E & Hp0 & Hk & Hp & R1)|[E _]]; rewrite E; cbn [mbind outcome_bind]; [left|by right].
  rewrite (proj2 (Z.eqb_neq p 0)) by done. eexists p, k, h1, _. split_and!; [done|done|done|done|done| |].
  - intros i Hi. by rewrite memset_read, decide_True by lia.
  - intros r j Hr. assert (Hne : r ≠ p) by congruence. apply load_bytes_frame. intros x Hx. rewrite memset_read, decide_False; [done|].
    assert (Hr1 : <[p := k]> L !! r = Some j) by (by rewrite lookup_insert_ne). pose proof (represents_disjoint _ _ _ _ p k R1 Hr1 (lookup_insert_eq L p k) Hne). lia.
Qed.

Lemma init_represents base : 0 < base < 2 ^ 62 -> base mod 16 = 0 -> represents (init_malloc base) ∅.
Proof.
  intros Hb Hm. exists [], []. split.
  - split; cbn; try done; try lia. apply NoDup_nil_2.
  - intros p n. rewrite lookup_empty. split; [done|]. intros [H _]. by apply not_elem_of_nil in H.
Qed.

(** ** Programs that use the heap *)

(** The heap after calls of a program; [U] are the pointers it has, each with the
    number of bytes it asked for last. *)
Inductive uses (base : Z) : heap -> gmap Z Z -> Prop :=
| uses_init : uses base (init_malloc base) ∅
| uses_malloc h U n p h' : uses base h U -> 0 <= n < 2 ^ 62 -> malloc n h = Done (p, h') -> p ≠ 0 -> uses base h' (<[p := n]> U)
| uses_no_memory h U n h' : uses base h U -> 0 <= n < 2 ^ 62 -> malloc n h = Done (0, h') -> uses base h' U
| uses_realloc h U n k p q m h' m' : uses base h U -> 0 < n < 2 ^ 61 -> U !! p = Some k -> realloc p n h m = Done (q, h', m') -> q ≠ 0 ->
    uses base h' (<[q := n]> (delete p U))
| uses_free h U p n h' : uses base h U -> U !! p = Some n -> free p h = Done h' -> uses base h' (delete p U).

(** What was asked for is at most what is owned. *)
Definition within (U L : gmap Z Z) : Prop := forall p, match U !! p, L !! p with Some n, Some k => n <= k | None, None => True | _, _ => False end.

Lemma within_lookup U L p n : within U L -> U !! p = Some n -> exists k, L !! p = Some k /\ n <= k.
Proof. intros W Hp. specialize (W p). rewrite Hp in W. destruct (L !! p) as [k|]; [by exists k|done]. Qed.

Lemma within_insert U L p n k : within U L -> n <= k -> within (<[p := n]> U) (<[p := k]> L).
Proof. intros W Hk q. specialize (W q). destruct (decide (q = p)) as [->|]; [by rewrite !lookup_insert_eq|by rewrite !lookup_insert_ne]. Qed.

Lemma within_delete U L p : within U L -> within (delete p U) (delete p L).
Proof. intros W q. specialize (W q). destruct (decide (q = p)) as [->|]; [by rewrite !lookup_delete_eq|by rewrite !lookup_delete_ne]. Qed.

Lemma represents_errno h L e : represents h L -> represents (with_errno e h) L.
Proof. intros (A & F & [] & HL). exists A, F. split; [split; done|done]. Qed.

Lemma uses_spec base h U : 0 < base < 2 ^ 62 -> base mod 16 = 0 -> uses base h U -> exists L, represents h L /\ within U L.
Proof.
  intros Hb Hm. induction 1 as [|h U n p h' _ (L & R & W) Hn E Hp|h U n h' _ (L & R & W) Hn E|h U n k p q m h' m' _ (L & R & W) Hn Hp E Hq|h U p n h' _ (L & R & W) Hp E].
  - exists ∅. split; [by apply init_represents|]. intros p. by rewrite !lookup_empty.
  - destruct (malloc_spec h L n R Hn) as [(p' & k & h1 & E1 & _ & Hk & _ & R1)|[E1 _]]; rewrite E1 in E; simplify_eq.
    exists (<[p := k]> L). split; [exact R1|by apply within_insert].
  - destruct (malloc_spec h L n R Hn) as [(p' & k & h1 & E1 & Hp0 & _)|[E1 _]]; rewrite E1 in E; simplify_eq.
    exists L. split; [by apply represents_errno|exact W].
  - destruct (within_lookup _ _ _ _ W Hp) as (k1 & Hk1 & _).
    destruct (realloc_spec h L p k1 n m R Hk1 Hn) as [[Hle E1]|[E1|(q' & k' & h1 & m1 & E1 & _ & Hk' & _ & R1 & _)]]; rewrite E1 in E; simplify_eq.
    + exists L. split; [done|]. rewrite insert_delete_eq. replace L with (<[q := k1]> L) by (by apply insert_id). by apply within_insert.
    + eexists. split; [done|]. apply within_insert; [by apply within_delete|done].
  - destruct (within_lookup _ _ _ _ W Hp) as (k & Hk & _). destruct (release_spec h L p k R Hk) as (h1 & E1 & R1 & _). rewrite E1 in E. simplify_eq. exists (delete p L). split; [done|by apply within_delete].
Qed.

(** ** Claims *)

(** C38: However a program uses [malloc], [realloc] and [free], the blocks it holds do
    not overlap, are aligned to sixteen bytes and lie in the heap. It can always
    call [malloc], which never hands out a block that is held, and [free] on what
    it holds; freeing anything else stops it. *)
Theorem held_blocks_never_overlap base h U :
  0 < base < 2 ^ 62 -> base mod 16 = 0 -> uses base h U ->
  (forall p n, U !! p = Some n -> p ≠ 0 /\ p mod 16 = 0 /\ heap_base h < p /\ p + n <= heap_base h + heap_size h /\ exists h', free p h = Done h') /\
  (forall p q n k, U !! p = Some n -> U !! q = Some k -> p ≠ q -> p + n <= q \/ q + k <= p) /\
  (forall n, 0 <= n < 2 ^ 62 -> exists p h', malloc n h = Done (p, h') /\ U !! p = None) /\
  (forall p, U !! p = None -> p ≠ 0 -> free p h = Stop Panicked).
Proof.
  intros Hb Hm Hu. destruct (uses_spec base h U Hb Hm Hu) as (L & R & W). pose proof R as (A & F & I & _). pose proof (hi_base _ _ _ I) as Hbase. split_and!.
  - intros p n Hp. destruct (within_lookup _ _ _ _ W Hp) as (k & Hk & Hnk). pose proof (represents_block _ _ _ _ R Hk).
    destruct (release_spec h L p k R Hk) as (h' & E & _). split_and!; [lia|lia|lia|lia|by exists h'].
  - intros p q n k Hp Hq Hne. destruct (within_lookup _ _ _ _ W Hp) as (n' & Hp' & Hn). destruct (within_lookup _ _ _ _ W Hq) as (k' & Hq' & Hk).
    pose proof (represents_disjoint _ _ _ _ _ _ R Hp' Hq' Hne). lia.
  - intros n Hn. destruct (malloc_spec h L n R Hn) as [(p & k & h' & E & _ & _ & Hp & _)|[E _]]; eexists _, _; (split; [done|]).
    + specialize (W p). rewrite Hp in W. by destruct (U !! p).
    + destruct (U !! 0) as [n0|] eqn:E0; [|done]. destruct (within_lookup _ _ _ _ W E0) as (k & Hk & _). pose proof (represents_block _ _ _ _ R Hk). lia.
  - intros p Hp Hp0. apply (free_stops h L); [done| |done]. specialize (W p). rewrite Hp in W. by destruct (L !! p).
Qed.

(** [realloc] keeps the contents: the block stays where it is, or moves with all
    its bytes to a block that was not held, or there is no memory and it stays.
    Other blocks keep theirs. *)
Theorem realloc_keeps_the_contents h (L : gmap Z Z) p k n m :
  represents h L -> L !! p = Some k -> 0 < n < 2 ^ 61 ->
  exists q h' m', realloc p n h m = Done (q, h', m') /\
    ((q = 0 /\ represents h' L /\ m' = m) \/
     (q = p /\ n <= k /\ h' = h /\ m' = m) \/
     (L !! q = None /\ (exists k', n <= k' /\ represents h' (<[q := k']> (delete p L))) /\
      load_bytes m' q (Z.to_nat k) = load_bytes m p (Z.to_nat k) /\
      forall r j, delete p L !! r = Some j -> load_bytes m' r (Z.to_nat j) = load_bytes m r (Z.to_nat j))).
Proof.
  intros R Hp Hn. destruct (realloc_spec h L p k n m R Hp Hn) as [[Hle E]|[E|(q & k' & h' & m' & E & _ & Hk' & Hq & R' & Hc & Ho)]]; rewrite E; eexists _, _, _; (split; [done|]).
  - right. left. done.
  - left. split_and!; [done|by apply represents_errno|done].
  - right. right. split_and!; [done|by exists k'|done|done].
Qed.

(** The block that was freed last is the one [malloc] gives next, if it is large
    enough. *)
Theorem freed_block_is_used_next h (L : gmap Z Z) p k n :
  represents h L -> L !! p = Some k -> 0 <= n -> align_to_max_align_t n <= k ->
  exists h1 h2, free p h = Done h1 /\ malloc n h1 = Done (p, h2).
Proof.
  intros R Hp Hn Hle. destruct (release_spec h L p k R Hp) as (h1 & E1 & R1 & B & _ & Hbase & Hfl). exists h1.
  pose proof (represents_block _ _ _ _ R Hp) as (Hlo & _). pose proof R as (A & F & I & HL). pose proof (hi_base _ _ _ I). destruct (proj1 (HL p k) Hp) as [_ (hd & Hd & Hs)].
  destruct (same_blocks_lookup _ _ _ _ B Hd) as (hd1 & Hd1 & Hp1 & Hs1). destruct R1 as (A' & F' & I' & _). destruct (hi_free _ _ _ I') as [Ef Lf].
  destruct F' as [|b F']; cbn [first] in Ef; [lia|]. assert (b = p - 32) as -> by congruence.
  destruct (malloc_reuses h1 A' [] (p - 32) F' hd1 n I' Hd1) as (h2 & E2 & _).
  { unfold find_free_block, list_fuel. cbn [find_block]. rewrite Hfl, (proj2 (Z.eqb_neq _ _)), Hd1 by lia. cbn [deref mbind outcome_bind].
    by rewrite (proj2 (Z.leb_le _ _)) by lia. }
  exists h2. split; [done|]. rewrite E2. destruct (pl_block _ _ _ (hi_placed _ _ _ I) _ _ Hd) as (_ & _ & Hpp & _). do 2 f_equal. lia.
Qed.

(** A request of almost all of the address space wraps around to no bytes at all,
    and succeeds: the pointer is to where the next header will be. *)
Theorem huge_request_gets_an_empty_block h A n :
  heap_inv h A [] -> 2 ^ 64 - 16 < n < 2 ^ 64 -> heap_ptr h + 32 < heap_base h + heap_size h ->
  exists h', malloc n h = Done (heap_ptr h + 32, h') /\ heap_ptr h' = heap_ptr h + 32.
Proof.
  intros I Hn Hroom. assert (Ek : align_to_max_align_t n = 0).
  { unfold align_to_max_align_t. rewrite (proj2 (Z.eqb_neq _ _)) by lia. replace (n +64 15) with (n + 15 - 2 ^ 64) by (unfold wrap64; dlia).
    assert (Hs : 0 <= n + 15 - 2 ^ 64 < 16) by lia. generalize (n + 15 - 2 ^ 64) Hs. intros x Hx.
    assert (Hin : x ∈ seqZ 0 16) by (by apply elem_of_seqZ). revert Hin. clear. rewrite list_elem_of_lookup. intros [i Hi].
    do 16 (destruct i as [|i]; [vm_compute in Hi; simplify_eq; done|]). vm_compute in Hi. done. }
  pose proof (hi_base _ _ _ I). pose proof (hi_size _ _ _ I). pose proof (hi_ptr _ _ _ I). destruct (hi_free _ _ _ I) as [Efl _]. destruct (hi_alloc _ _ _ I) as [Ea La].
  rewrite malloc_new by (rewrite ?Ek; try lia; try apply I; unfold find_free_block, list_fuel; cbn [find_block]; by rewrite Efl). rewrite Ek, Ea, Z.add_0_r.
  assert (Hnew : heap_ptr h ∉ A).
  { intros Hin. destruct (hi_some _ _ _ I _ Hin) as [hd Hd]. apply (pl_block _ _ _ (hi_placed _ _ _ I)) in Hd. lia. }
  pose proof (hi_nodup _ _ _ I) as Hnd. pose proof (hi_not_null _ _ _ I) as Hnull. rewrite app_nil_r in Hnd, Hnull.
  destruct (push_front_spec (<[heap_ptr h := mkHeader (heap_ptr h + 32) 0 0 0]> (headers h)) (heap_ptr h) A (mkHeader (heap_ptr h + 32) 0 0 0)) as (hs & E & _);
    [by apply linked_insert_ne|by apply NoDup_cons|done|apply lookup_insert_eq|]. rewrite E. cbn [mbind outcome_bind]. by eexists.
Qed.

(** ** The claims at work *)

(** The heap of a program that has asked for ten bytes. *)
Definition ten : heap := mkHeap {[4096 := mkHeader 4128 16 0 0]} 4096 (2 ^ 20) 4144 4096 0 0 0.

Lemma ten_malloc : malloc 10 (init_malloc 4096) = Done (4128, ten).
Proof. vm_compute. reflexivity. Qed.

Lemma ten_inv : heap_inv ten [4096] [].
Proof.
  split; cbn; try done; try lia.
  - apply NoDup_singleton.
  - split; [done|]. split; [|done]. by exists (mkHeader 4128 16 0 0).
  - split.
    + by intros a h [<- <-]%lookup_singleton_Some.
    + intros a b ha hb [<- _]%lookup_singleton_Some [<- _]%lookup_singleton_Some. done.
Qed.

Lemma ten_represents : represents ten {[4128 := 16]}.
Proof.
  exists [4096], []. split; [apply ten_inv|]. intros p n. unfold owned. rewrite lookup_singleton_Some, list_elem_of_singleton. split.
  - intros [<- <-]. split; [done|]. by exists (mkHeader 4128 16 0 0).
  - intros [Hp (hd & Hd & <-)]. split; [lia|]. rewrite Hp in Hd. vm_compute in Hd. by simplify_eq.
Qed.

(** Ten bytes, then twenty. *)
Lemma held_blocks_never_overlap_witness :
  exists q h, malloc 20 ten = Done (q, h) /\ uses 4096 h {[q := 20; 4128 := 10]} /\ (4128 + 10 <= q \/ q + 20 <= 4128) /\ free 12345 h = Stop Panicked.
Proof.
  assert (E : exists h, malloc 20 ten = Done (4176, h)) by (eexists; vm_compute; reflexivity). destruct E as [h E].
  assert (U : uses 4096 h {[4176 := 20; 4128 := 10]}).
  { apply (uses_malloc 4096 ten {[4128 := 10]} 20 4176 h); [|lia|exact E|done]. apply (uses_malloc 4096 (init_malloc 4096) ∅ 10 4128 ten); [apply uses_init|lia|exact ten_malloc|done]. }
  destruct (held_blocks_never_overlap 4096 h _ ltac:(lia) eq_refl U) as (_ & Hd & _ & Hf). exists 4176, h.
  split_and!; [exact E|exact U|apply (Hd 4128 4176 10 20); [reflexivity|reflexivity|done]|apply Hf; [reflexivity|done]].
Defined.

Lemma realloc_keeps_the_contents_witness :
  exists q h' m', realloc 4128 100 ten (fun x => x) = Done (q, h', m') /\
    ((q = 0 /\ represents h' {[4128 := 16]} /\ m' = (fun x => x)) \/
     (q = 4128 /\ 100 <= 16 /\ h' = ten /\ m' = (fun x => x)) \/
     (({[4128 := 16]} : gmap Z Z) !! q = None /\ (exists k', 100 <= k' /\ represents h' (<[q := k']> (delete 4128 {[4128 := 16]}))) /\
      load_bytes m' q (Z.to_nat 16) = load_bytes (fun x => x) 4128 (Z.to_nat 16) /\
      forall r j, delete 4128 ({[4128 := 16]} : gmap Z Z) !! r = Some j -> load_bytes m' r (Z.to_nat j) = load_bytes (fun x => x) r (Z.to_nat j))).
Proof. apply (realloc_keeps_the_contents ten {[4128 := 16]} 4128 16 100 (fun x => x) ten_represents); [reflexivity|lia]. Defined.

Lemma freed_block_is_used_next_witness : exists h1 h2, free 4128 ten = Done h1 /\ malloc 12 h1 = Done (4128, h2).
Proof. apply (freed_block_is_used_next ten {[4128 := 16]} 4128 16 12 ten_represents); [reflexivity|lia|by vm_compute]. Defined.

Lemma huge_request_gets_an_empty_block_witness : exists h', malloc (2 ^ 64 - 1) ten = Done (4176, h') /\ heap_ptr h' = 4176.
Proof. apply (huge_request_gets_an_empty_block ten [4096] (2 ^ 64 - 1) ten_inv); [lia|cbn; lia]. Defined.

End UserHeap.
