(* ===== verification/UserString.v ===== *)
(** * Strings of the C library

    Models src/user/libc/string.cpp with the searches of std/include/string it
    uses, on the memory of the process. A null pointer is 0. A string that is not
    terminated is read for ever; the loops over strings take fuel. *)

From S2P Require Import Prelude PhysMem FileMeta Stdio UserHeap.

Module UserString.
Import UserHeap Stdio.

(** ** Copying *)

(** [tmp] is an array on the stack, here a list. *)
Definition memmove (dst src n : Z) (m : mem) : mem := store_bytes dst (load_bytes m src (Z.to_nat n)) m.

Fixpoint strcpy (fuel : nat) (dst src : Z) (m : mem) : outcome (Z * mem) :=
  match fuel with
  | O => Stop Hung
  | S k => if read8 m src =? 0 then Done (dst, write8 m dst 0) else strcpy k (dst + 1) (src + 1) (write8 m dst (read8 m src))
  end.

(** The source is looked at after the copy, one character ahead. *)
Fixpoint strncpy (n : nat) (dst src : Z) (m : mem) : Z * mem :=
  match n with
  | O => (dst, m)
  | S n =>
      let m := write8 m dst (read8 m src) in
      if read8 m (src + 1) =? 0 then (dst + 1 + Z.of_nat n, memset n (dst + 1) 0 m) else strncpy n (dst + 1) (src + 1) m
  end.

(** ** Concatenation *)

(** [while ( *dst++ ); dst--;] *)
Fixpoint string_end (fuel : nat) (dst : Z) (m : mem) : outcome Z :=
  match fuel with
  | O => Stop Hung
  | S k => if read8 m dst =? 0 then Done dst else string_end k (dst + 1) m
  end.

(** [while (( *dst++ = *src++ ));] *)
Fixpoint append_string (fuel : nat) (dst src : Z) (m : mem) : outcome (Z * mem) :=
  match fuel with
  | O => Stop Hung
  | S k =>
      let c := read8 m src in
      let m := write8 m dst c in
      if c =? 0 then Done (dst + 1, m) else append_string k (dst + 1) (src + 1) m
  end.

Definition strcat (fuel : nat) (dst src : Z) (m : mem) : outcome (Z * mem) :=
  e ← string_end fuel dst m; append_string fuel e src m.

(** [while (( *dst++ = *src++ ) && n--);] *)
Fixpoint append_at_most (n : nat) (dst src : Z) (m : mem) : Z * mem :=
  let c := read8 m src in
  let m := write8 m dst c in
  if c =? 0 then (dst + 1, m)
  else match n with O => (dst + 1, m) | S n => append_at_most n (dst + 1) (src + 1) m end.

Definition strncat (fuel : nat) (dst src n : Z) (m : mem) : outcome (Z * mem) :=
  e ← string_end fuel dst m; Done (append_at_most (Z.to_nat n) e src m).

(** ** Comparison *)

Fixpoint memcmp (n : nat) (a b : Z) (m : mem) : Z :=
  match n with
  | O => 0
  | S n => if read8 m a =? read8 m b then memcmp n (a + 1) (b + 1) m else if read8 m a <? read8 m b then -1 else 1
  end.

Fixpoint strcmp (fuel : nat) (s1 s2 : Z) (m : mem) : outcome Z :=
  match fuel with
  | O => Stop Hung
  | S k =>
      if read8 m s1 =? read8 m s2 then (if read8 m s1 =? 0 then Done 0 else strcmp k (s1 + 1) (s2 + 1) m)
      else Done (read8 m s1 - read8 m s2)
  end.

Fixpoint strncmp (n : nat) (s1 s2 : Z) (m : mem) : Z :=
  match n with
  | O => 0
  | S n =>
      if negb (read8 m s1 =? read8 m s2) then read8 m s1 - read8 m s2
      else if read8 m s1 =? 0 then 0 else strncmp n (s1 + 1) (s2 + 1) m
  end.

(** ** Searching *)

Fixpoint memchr (n : nat) (p value : Z) (m : mem) : Z :=
  match n with
  | O => 0
  | S n => if read8 m p =? value mod 256 then p else memchr n (p + 1) value m
  end.

Fixpoint strchr (fuel : nat) (str chr : Z) (m : mem) : outcome Z :=
  match fuel with
  | O => Stop Hung
  | S k =>
      if read8 m str =? 0 then Done 0
      else if char_int (read8 m str) =? chr then Done str else strchr k (str + 1) chr m
  end.

Fixpoint strlen_from (fuel : nat) (str len : Z) (m : mem) : outcome Z :=
  match fuel with
  | O => Stop Hung
  | S k => if read8 m str =? 0 then Done len else strlen_from k (str + 1) (len +64 1) m
  end.

Definition strlen (fuel : nat) (str : Z) (m : mem) : outcome Z := strlen_from fuel str 0 m.

Fixpoint strnlen (maxlen : nat) (str : Z) (m : mem) : Z :=
  match maxlen with
  | O => 0
  | S k => if read8 m str =? 0 then 0 else strnlen k (str + 1) m + 1
  end.

(** A [string_view] as the list of its characters; [npos] is [None]. *)
Definition string_view (fuel : nat) (str : Z) (m : mem) : outcome (list Z) :=
  n ← strlen fuel str m; Done (load_bytes m str (Z.to_nat n)).

Definition find_first_of (sv chars : list Z) : option nat := fst <$> list_find (fun c => c ∈ chars) sv.
Definition find_first_not_of (sv chars : list Z) : option nat := fst <$> list_find (fun c => c ∉ chars) sv.

Definition strcspn (fuel : nat) (src reject : Z) (m : mem) : outcome Z :=
  source ← string_view fuel src m; chars ← string_view fuel reject m;
  Done (match find_first_of source chars with Some i => Z.of_nat i | None => Z.of_nat (length source) end).

Definition strspn (fuel : nat) (src accept : Z) (m : mem) : outcome Z :=
  source ← string_view fuel src m; chars ← string_view fuel accept m;
  Done (match find_first_not_of source chars with Some i => Z.of_nat i | None => Z.of_nat (length source) end).

(** The outer loop of [strpbrk]: the [break] is that of the inner one, which
    changes nothing, so the pointer stops behind the terminator. *)
Definition strpbrk (fuel : nat) (src accept : Z) (m : mem) : outcome Z :=
  if read8 m accept =? 0 then Done 0
  else
    _ ← strlen fuel accept m;
    e ← string_end fuel src m;
    let src := e + 1 in
    Done (if read8 m src =? 0 then 0 else src).

(** [while ( *str++ ) if ( *str == chr ) ret = str;] *)
Fixpoint strrchr_from (fuel : nat) (str chr ret : Z) (m : mem) : outcome Z :=
  match fuel with
  | O => Stop Hung
  | S k =>
      if read8 m str =? 0 then Done ret
      else strrchr_from k (str + 1) chr (if char_int (read8 m (str + 1)) =? chr then str + 1 else ret) m
  end.

Definition strrchr (fuel : nat) (str chr : Z) (m : mem) : outcome Z := strrchr_from fuel str chr 0 m.

Fixpoint strstr_compare (fuel : nat) (s1 s2 : Z) (m : mem) : outcome bool :=
  match fuel with
  | O => Stop Hung
  | S k =>
      if negb (read8 m s1 =? 0) && negb (read8 m s2 =? 0) then
        if negb (read8 m s1 =? read8 m s2) then Done false else strstr_compare k (s1 + 1) (s2 + 1) m
      else Done (read8 m s2 =? 0)
  end.

(** [n] counts the characters of the haystack, [fuel] those of a comparison. *)
Fixpoint strstr (fuel n : nat) (haystack needle : Z) (m : mem) : outcome Z :=
  match n with
  | O => Stop Hung
  | S n =>
      if read8 m haystack =? 0 then Done 0
      else
        same ← (if read8 m haystack =? read8 m needle then strstr_compare fuel haystack needle m else Done false);
        if same : bool then Done haystack else strstr fuel n (haystack + 1) needle m
  end.

(** [last_token] is the static variable; the result and its new value. *)
Definition strtok (fuel : nat) (str delim last_token : Z) (m : mem) : outcome (Z * Z * mem) :=
  if (str =? 0) && (last_token =? 0) then Done (0, last_token, m)
  else
    str ← (if str =? 0 then Done last_token else n ← strspn fuel str delim m; Done (str + n));
    tmp ← strpbrk fuel str delim m;
    if tmp =? 0 then Done (str, 0, m) else Done (str, tmp + 1, write8 m tmp 0).

(** The loop of [memmem]. *)
Fixpoint memmem_loop (fuel : nat) (haystack haystacklen needle needlelen : Z) (m : mem) : outcome Z :=
  match fuel with
  | O => Stop Hung
  | S k =>
      if haystacklen =? 0 then Done 0
      else
        let z := memchr (Z.to_nat haystacklen) haystack (read8 m needle) m in
        if z =? 0 then Done 0
        else
          let delta := z - haystack in
          let remaining := haystacklen - delta in
          if remaining <? 1 then Done 0
          else
            let haystacklen := haystacklen -64 delta in
            let haystack := z in
            if memcmp (Z.to_nat needlelen) haystack needle m =? 0 then Done haystack
            else memmem_loop k (haystack + 1) (haystacklen -64 1) needle needlelen m
  end.

Definition memmem (haystack haystacklen needle needlelen : Z) (m : mem) : outcome Z :=
  if haystacklen <? needlelen then Done 0
  else
    let haystacklen := haystacklen -64 (needlelen -64 1) in
    memmem_loop (S (Z.to_nat haystacklen)) haystack haystacklen needle needlelen m.

(** The index into the table of messages, which has 35 entries. *)
Definition errno_strings_size : Z := 35.

Definition strerror (errno_strings : list Z) (errnum : Z) : outcome (option Z) :=
  if (errnum <? 0) || (errno_strings_size <? errnum) then Done None
  else s ← deref (errno_strings !! Z.to_nat errnum); Done (Some s).

(** ** Strings in memory *)

(** The characters of [l] are at [p], with a terminator behind them. *)
Fixpoint cstr (m : mem) (p : Z) (l : list Z) : Prop :=
  match l with
  | [] => read8 m p = 0
  | c :: l => read8 m p = c /\ c ≠ 0 /\ cstr m (p + 1) l
  end.

Lemma cstr_byte m p l : cstr m p l -> Forall is_byte l.
Proof. revert p. induction l as [|c l IH]; intros p; cbn; [by constructor|]. intros (<- & _ & H). constructor; [apply read8_range|by eapply IH]. Qed.

Lemma cstr_end m p l : cstr m p l -> read8 m (p + Z.of_nat (length l)) = 0.
Proof.
  revert p. induction l as [|c l IH]; intros p; cbn [cstr length]; [by rewrite Z.add_0_r|]. intros (_ & _ & H%IH).
  by replace (p + Z.of_nat (S (length l))) with (p + 1 + Z.of_nat (length l)) by lia.
Qed.

Lemma cstr_drop m p l i : cstr m p l -> (i <= length l)%nat -> cstr m (p + Z.of_nat i) (drop i l).
Proof.
  revert p i. induction l as [|c l IH]; intros p [|i] H Hi; try (by rewrite Z.add_0_r); [cbn in Hi; lia|]. cbn in H. destruct H as (_ & _ & H).
  replace (p + Z.of_nat (S i)) with (p + 1 + Z.of_nat i) by lia. apply IH; [done|cbn in Hi; lia].
Qed.

Lemma cstr_load m p l : cstr m p l -> load_bytes m p (length l) = l.
Proof. revert p. induction l as [|c l IH]; intros p; cbn; [done|]. intros (-> & _ & H). by rewrite IH. Qed.

Lemma cstr_frame m m' p l : cstr m p l -> (forall x, p <= x <= p + Z.of_nat (length l) -> read8 m' x = read8 m x) -> cstr m' p l.
Proof.
  revert p. induction l as [|c l IH]; intros p; cbn [cstr length]; intros H Hf; [by rewrite Hf by lia|]. destruct H as (H1 & H2 & H3).
  split_and!; [by rewrite Hf by lia|done|]. apply IH; [done|]. intros x Hx. apply Hf. lia.
Qed.

Lemma strlen_from_spec fuel p l len m : cstr m p l -> (length l < fuel)%nat -> 0 <= len -> len + Z.of_nat (length l) < 2 ^ 64 ->
  strlen_from fuel p len m = Done (len + Z.of_nat (length l)).
Proof.
  revert fuel p len. induction l as [|c l IH]; intros [|k] p len H Hf H0 Hb; cbn [cstr length strlen_from] in *; try lia.
  - rewrite H, Z.eqb_refl. by rewrite Z.add_0_r.
  - destruct H as (-> & Hc & H). rewrite (proj2 (Z.eqb_neq c 0)) by done. rewrite wrap64_small by (unfold is_u64; lia).
    rewrite IH by (done || lia). f_equal. lia.
Qed.

Lemma strlen_spec fuel p l m : cstr m p l -> (length l < fuel)%nat -> Z.of_nat (length l) < 2 ^ 64 -> strlen fuel p m = Done (Z.of_nat (length l)).
Proof. intros H Hf Hb. by apply (strlen_from_spec fuel p l 0). Qed.

Lemma string_end_spec fuel p l m : cstr m p l -> (length l < fuel)%nat -> string_end fuel p m = Done (p + Z.of_nat (length l)).
Proof.
  revert fuel p. induction l as [|c l IH]; intros [|k] p H Hf; cbn [cstr length string_end] in *; try lia.
  - rewrite H, Z.eqb_refl. by rewrite Z.add_0_r.
  - destruct H as (-> & Hc & H). rewrite (proj2 (Z.eqb_neq c 0)) by done. rewrite IH by (done || lia). f_equal. lia.
Qed.

(** *** Comparison *)

(** The difference of the first characters that differ, the terminators included. *)
Fixpoint difference (l1 l2 : list Z) : Z :=
  match l1, l2 with
  | [], [] => 0
  | [], b :: _ => - b
  | a :: _, [] => a
  | a :: l1, b :: l2 => if a =? b then difference l1 l2 else a - b
  end.

Lemma strcmp_spec fuel s1 s2 l1 l2 m : cstr m s1 l1 -> cstr m s2 l2 -> (length l1 < fuel)%nat -> strcmp fuel s1 s2 m = Done (difference l1 l2).
Proof.
  revert fuel s1 s2 l2. induction l1 as [|a l1 IH]; intros [|k] s1 s2 l2 H1 H2 Hf; cbn [cstr length strcmp] in *; try lia; destruct l2 as [|b l2]; cbn [cstr difference] in *.
  - by rewrite H1, H2.
  - destruct H2 as (-> & Hb & _). rewrite H1, (proj2 (Z.eqb_neq 0 b)) by done. done.
  - destruct H1 as (-> & Ha & _). rewrite H2, (proj2 (Z.eqb_neq a 0)) by done. f_equal. lia.
  - destruct H1 as (-> & Ha & H1), H2 as (-> & Hb & H2). rewrite (proj2 (Z.eqb_neq a 0)) by done. destruct (a =? b); [apply IH; [done|done|lia]|done].
Qed.

Definition string_chars (l : list Z) : Prop := Forall (fun c => 0 < c < 256) l.

Lemma cstr_chars m p l : cstr m p l -> string_chars l.
Proof. revert p. induction l as [|c l IH]; intros p; cbn; [by constructor|]. intros (<- & Hc & H). constructor; [pose proof (read8_range m p); lia|by eapply IH]. Qed.

Lemma difference_anti l1 l2 : difference l2 l1 = - difference l1 l2.
Proof. revert l2. induction l1 as [|a l1 IH]; intros [|b l2]; cbn; try lia. rewrite Z.eqb_sym. destruct (a =? b); [apply IH|lia]. Qed.

Lemma difference_zero l1 l2 : string_chars l1 -> string_chars l2 -> difference l1 l2 = 0 <-> l1 = l2.
Proof.
  intros H1. revert l2. induction H1 as [|a l1 Ha H1 IH]; intros l2 H2; destruct H2 as [|b l2 Hb H2]; cbn; try (split; [lia|done]); [done|].
  destruct (Z.eqb_spec a b) as [->|Hne]; [rewrite IH by done; split; congruence|split; [lia|congruence]].
Qed.

Lemma difference_trans l1 l2 l3 : string_chars l1 -> string_chars l2 -> string_chars l3 ->
  difference l1 l2 < 0 -> difference l2 l3 < 0 -> difference l1 l3 < 0.
Proof.
  intros H1. revert l2 l3. induction H1 as [|a l1 Ha H1 IH]; intros l2 l3 H2 H3; destruct H2 as [|b l2 Hb H2]; destruct H3 as [|c l3 Hc H3]; cbn; try lia.
  destruct (Z.eqb_spec a b), (Z.eqb_spec b c), (Z.eqb_spec a c); subst; try lia; try (by eauto).
Qed.

(** *** Searching *)

Lemma strstr_compare_spec fuel s1 s2 l1 l2 m : cstr m s1 l1 -> cstr m s2 l2 -> (length l2 < fuel)%nat ->
  strstr_compare fuel s1 s2 m = Done (bool_decide (l2 `prefix_of` l1)).
Proof.
  revert fuel s1 s2 l1. induction l2 as [|b l2 IH]; intros [|k] s1 s2 l1 H1 H2 Hf; cbn [cstr length strstr_compare] in *; try lia.
  - rewrite H2. cbn [Z.eqb negb]. rewrite andb_false_r, bool_decide_eq_true_2; [done|apply prefix_nil].
  - destruct H2 as (-> & Hb & H2). rewrite (proj2 (Z.eqb_neq b 0)) by done. destruct l1 as [|a l1]; cbn [cstr] in H1.
    + rewrite H1. cbn [Z.eqb negb andb]. rewrite bool_decide_eq_false_2; [done|]. by intros H%prefix_nil_inv.
    + destruct H1 as (-> & Ha & H1). rewrite (proj2 (Z.eqb_neq a 0)) by done. cbn [negb andb]. destruct (Z.eqb_spec a b) as [->|Hne]; cbn [negb].
      * rewrite (IH k _ _ l1) by (done || lia). f_equal. apply bool_decide_ext. split; [by apply prefix_cons|by apply prefix_cons_inv_2].
      * rewrite bool_decide_eq_false_2; [done|]. intros H%prefix_cons_inv_1. congruence.
Qed.

(** The position of the first occurrence of a word that is not empty. *)
Fixpoint first_occurrence (needle hay : list Z) : option nat :=
  match hay with
  | [] => None
  | c :: hay => if decide (needle `prefix_of` c :: hay) then Some 0%nat else S <$> first_occurrence needle hay
  end.

Lemma first_occurrence_spec needle hay : needle ≠ [] ->
  match first_occurrence needle hay with
  | Some i => needle `prefix_of` drop i hay /\ forall j, (j < i)%nat -> ~ needle `prefix_of` drop j hay
  | None => forall j, ~ needle `prefix_of` drop j hay
  end.
Proof.
  intros Hn. induction hay as [|c hay IH]; cbn [first_occurrence]; [intros j; rewrite drop_nil; by intros H%prefix_nil_inv|].
  destruct (decide (needle `prefix_of` c :: hay)) as [Hp|Hp]; [split; [done|lia]|]. destruct (first_occurrence needle hay) as [i|]; cbn.
  - destruct IH as [Hi Hj]. split; [done|]. intros [|j] Hlt; [done|]. apply Hj. lia.
  - by intros [|j]; [|apply IH].
Qed.

Lemma strstr_spec fuel n p q hay needle m : cstr m p hay -> cstr m q needle -> needle ≠ [] -> (length needle < fuel)%nat -> (length hay < n)%nat ->
  strstr fuel n p q m = Done (match first_occurrence needle hay with Some i => p + Z.of_nat i | None => 0 end).
Proof.
  intros Hp Hq Hne Hf. revert p hay Hp. induction n as [|n IH]; intros p hay Hp Hn; [lia|]. cbn [strstr]. pose proof Hp as Hp0. destruct hay as [|c hay]; cbn [cstr first_occurrence] in *.
  { by rewrite Hp. }
  destruct Hp as (Hc & Hc0 & Hp). rewrite Hc, (proj2 (Z.eqb_neq c 0)) by done.
  assert (E : (if c =? read8 m q then strstr_compare fuel p q m else Done false) = Done (bool_decide (needle `prefix_of` c :: hay))).
  { destruct (Z.eqb_spec c (read8 m q)) as [Eq|Nq]; [by apply strstr_compare_spec|]. rewrite bool_decide_eq_false_2; [done|]. intros Hpre.
    destruct needle as [|b needle]; [done|]. cbn in Hq. apply prefix_cons_inv_1 in Hpre. destruct Hq as [Hq _]. congruence. }
  rewrite E. cbn [mbind outcome_bind]. case_bool_decide as D.
  - rewrite decide_True by done. by rewrite Z.add_0_r.
  - rewrite decide_False by done. rewrite (IH (p + 1) hay Hp) by (cbn in Hn; lia). destruct (first_occurrence needle hay) as [i|]; cbn [fmap option_fmap option_map]; [|done]. f_equal. lia.
Qed.

Lemma memchr_spec n p v m : 0 < p -> 0 <= v < 256 ->
  (exists i, memchr n p v m = p + i /\ 0 <= i < Z.of_nat n /\ read8 m (p + i) = v /\ forall j, 0 <= j < i -> read8 m (p + j) ≠ v) \/
  (memchr n p v m = 0 /\ forall j, 0 <= j < Z.of_nat n -> read8 m (p + j) ≠ v).
Proof.
  intros Hp Hv. revert p Hp. induction n as [|n IH]; intros p Hp; cbn [memchr]; [right; split; [done|lia]|]. rewrite (Z.mod_small v) by lia.
  destruct (Z.eqb_spec (read8 m p) v) as [E|N]; [left; exists 0; rewrite Z.add_0_r; split_and!; [done|lia|lia|done|lia]|].
  assert (Hstep : forall j, 0 < j -> p + 1 + (j - 1) = p + j) by lia.
  destruct (IH (p + 1)) as [(i & -> & Hi & Hr & Hj)|[-> Hj]]; [lia| |].
  - left. exists (i + 1). split_and!; [lia|lia|lia|by rewrite <- Hr; f_equal; lia|]. intros j Hjb. destruct (Z.eq_dec j 0) as [->|]; [by rewrite Z.add_0_r|].
    rewrite <- Hstep by lia. apply Hj. lia.
  - right. split; [done|]. intros j Hjb. destruct (Z.eq_dec j 0) as [->|]; [by rewrite Z.add_0_r|]. rewrite <- Hstep by lia. apply Hj. lia.
Qed.

Lemma memcmp_zero n a b m : memcmp n a b m = 0 <-> load_bytes m a n = load_bytes m b n.
Proof.
  revert a b. induction n as [|n IH]; intros a b; cbn [memcmp load_bytes]; [done|]. destruct (Z.eqb_spec (read8 m a) (read8 m b)) as [E|N].
  - rewrite IH, E. split; congruence.
  - split; [|congruence]. by destruct (read8 m a <? read8 m b).
Qed.

(** The needle is at offset [i] of the haystack. *)
Definition occurs (m : mem) (haystack needle needlelen i : Z) : Prop :=
  load_bytes m (haystack + i) (Z.to_nat needlelen) = load_bytes m needle (Z.to_nat needlelen).

Lemma occurs_first m h q nl i : 0 < nl -> occurs m h q nl i -> read8 m (h + i) = read8 m q.
Proof. unfold occurs. intros Hn. destruct (Z.to_nat nl) eqn:E; [lia|]. cbn [load_bytes]. congruence. Qed.

(** [N] is one more than the last offset, [k] where the search goes on. *)
Lemma memmem_loop_spec fuel h q nl N k m : 0 < h -> 0 < nl -> 0 <= k <= N -> N < 2 ^ 63 -> N - k < Z.of_nat fuel ->
  (exists i, memmem_loop fuel (h + k) (N - k) q nl m = Done (h + i) /\ k <= i < N /\ occurs m h q nl i /\ forall j, k <= j < i -> ~ occurs m h q nl j) \/
  (memmem_loop fuel (h + k) (N - k) q nl m = Done 0 /\ forall j, k <= j < N -> ~ occurs m h q nl j).
Proof.
  intros Hh Hnl. revert k. induction fuel as [|fuel IH]; intros k Hk HN Hf; [lia|]. cbn [memmem_loop].
  destruct (Z.eqb_spec (N - k) 0) as [E0|N0]; [right; split; [done|lia]|].
  destruct (memchr_spec (Z.to_nat (N - k)) (h + k) (read8 m q) m ltac:(lia) (read8_range m q)) as [(i & -> & Hi & Hr & Hj)|[-> Hj]].
  2: { right. split; [done|]. intros j Hjb Ho%occurs_first; [|done]. apply (Hj (j - k)); [lia|]. by replace (h + k + (j - k)) with (h + j) by lia. }
  assert (Hskip : forall j, k <= j < k + i -> ~ occurs m h q nl j).
  { intros j Hjb Ho%occurs_first; [|done]. apply (Hj (j - k)); [lia|]. by replace (h + k + (j - k)) with (h + j) by lia. }
  rewrite (proj2 (Z.eqb_neq (h + k + i) 0)) by lia. replace (h + k + i - (h + k)) with i by lia. rewrite (proj2 (Z.ltb_ge _ 1)) by lia.
  rewrite (wrap64_small (N - k - i)) by (unfold is_u64; lia). replace (h + k + i) with (h + (k + i)) by lia.
  destruct (Z.eqb_spec (memcmp (Z.to_nat nl) (h + (k + i)) q m) 0) as [Em|Nm].
  { left. exists (k + i). split_and!; [done|lia|lia|by apply memcmp_zero|done]. }
  rewrite wrap64_small by (unfold is_u64; lia). replace (h + (k + i) + 1) with (h + (k + i + 1)) by lia. replace (N - k - i - 1) with (N - (k + i + 1)) by lia.
  assert (Hno : ~ occurs m h q nl (k + i)) by (intros Ho; by apply Nm, memcmp_zero).
  assert (Hall : forall j, k <= j < k + i + 1 -> ~ occurs m h q nl j) by (intros j Hjb; destruct (Z.eq_dec j (k + i)) as [->|]; [done|apply Hskip; lia]).
  destruct (IH (k + i + 1)) as [(r & E & Hr2 & Ho & Hb)|[E Hb]]; [lia|lia|lia| |].
  - left. exists r. split_and!; [done|lia|lia|done|]. intros j Hjb. destruct (Z_lt_le_dec j (k + i + 1)); [apply Hall; lia|apply Hb; lia].
  - right. split; [done|]. intros j Hjb. destruct (Z_lt_le_dec j (k + i + 1)); [apply Hall; lia|apply Hb; lia].
Qed.

(** *** Copying *)

(** The destination is apart from the source and its terminator. *)
Definition apart (dst src n : Z) : Prop := src + n < dst \/ dst + n < src.

Lemma append_string_spec fuel dst src l m : cstr m src l -> apart dst src (Z.of_nat (length l)) -> (length l < fuel)%nat ->
  exists m', append_string fuel dst src m = Done (dst + Z.of_nat (length l) + 1, m') /\ cstr m' dst l /\
    forall x, x < dst \/ dst + Z.of_nat (length l) < x -> read8 m' x = read8 m x.
Proof.
  unfold apart. revert fuel dst src m. induction l as [|c l IH]; intros [|k] dst src m Hs Ha Hf; cbn [length] in *; try lia; cbn [append_string].
  - cbn in Hs. rewrite Hs. exists (write8 m dst 0). split_and!; [do 2 f_equal; cbn; lia|cbn; by rewrite read8_write8_eq|]. intros x Hx. apply read8_write8_ne. lia.
  - pose proof (cstr_byte _ _ _ Hs) as Hby. inversion Hby as [|? ? Hcb _]; subst. destruct Hs as (Hc & Hc0 & Hs). rewrite Hc, (proj2 (Z.eqb_neq c 0)) by done.
    destruct (IH k (dst + 1) (src + 1) (write8 m dst c)) as (m' & E & Hl & Hfr); [eapply cstr_frame; [done|]; intros x Hx; apply read8_write8_ne; lia|lia|lia|].
    exists m'. split_and!; [rewrite E; do 2 f_equal; lia| |intros x Hx; rewrite Hfr by lia; apply read8_write8_ne; lia].
    cbn [cstr]. split_and!; [|done|done]. rewrite Hfr by lia. rewrite read8_write8_eq. by apply Z.mod_small.
Qed.

(** [strcpy] does the same, and returns the address of the terminator. *)
Lemma strcpy_append fuel dst src m : strcpy fuel dst src m = ('(e, m') ← append_string fuel dst src m; Done (e - 1, m')).
Proof.
  revert dst src m. induction fuel as [|k IH]; intros dst src m; cbn [strcpy append_string]; [done|].
  destruct (Z.eqb_spec (read8 m src) 0) as [->|]; [|apply IH]. cbn [mbind outcome_bind]. do 2 f_equal. lia.
Qed.

Lemma strcpy_spec fuel dst src l m : cstr m src l -> apart dst src (Z.of_nat (length l)) -> (length l < fuel)%nat ->
  exists m', strcpy fuel dst src m = Done (dst + Z.of_nat (length l), m') /\ cstr m' dst l /\
    forall x, x < dst \/ dst + Z.of_nat (length l) < x -> read8 m' x = read8 m x.
Proof.
  intros Hs Ha Hf. destruct (append_string_spec fuel dst src l m Hs Ha Hf) as (m' & E & H). exists m'. rewrite strcpy_append, E. cbn [mbind outcome_bind].
  split; [do 2 f_equal; lia|done].
Qed.

Lemma cstr_app m p l1 l2 : string_chars l1 -> cstr m p (l1 ++ l2) <-> load_bytes m p (length l1) = l1 /\ cstr m (p + Z.of_nat (length l1)) l2.
Proof.
  intros Hc. revert p. induction Hc as [|c l1 Hc Hcs IH]; intros p; cbn [app cstr length load_bytes]; [rewrite Z.add_0_r; tauto|].
  rewrite IH. replace (p + Z.of_nat (S (length l1))) with (p + 1 + Z.of_nat (length l1)) by lia. split.
  - intros (<- & _ & E & H). split; [by rewrite E|done].
  - intros [E H]. injection E as E1 E2. split_and!; [done|lia|done|done].
Qed.

(** ** Claims *)

(** [strcmp] returns, and what it returns orders strings: it is zero only for equal
    strings, changes its sign when they are exchanged, and is transitive. *)
Theorem strcmp_orders_strings fuel s1 s2 s3 l1 l2 l3 m :
  cstr m s1 l1 -> cstr m s2 l2 -> cstr m s3 l3 -> (length l1 < fuel)%nat -> (length l2 < fuel)%nat ->
  exists r12 r21 r23 r13, strcmp fuel s1 s2 m = Done r12 /\ strcmp fuel s2 s1 m = Done r21 /\ strcmp fuel s2 s3 m = Done r23 /\ strcmp fuel s1 s3 m = Done r13 /\
    (r12 = 0 <-> l1 = l2) /\ r21 = - r12 /\ (r12 < 0 -> r23 < 0 -> r13 < 0).
Proof.
  intros H1 H2 H3 Hf1 Hf2. pose proof (cstr_chars _ _ _ H1) as C1. pose proof (cstr_chars _ _ _ H2) as C2. pose proof (cstr_chars _ _ _ H3) as C3.
  exists (difference l1 l2), (difference l2 l1), (difference l2 l3), (difference l1 l3).
  split_and!; try (by apply strcmp_spec); [by apply difference_zero|apply difference_anti|by apply difference_trans].
Qed.

(** [memmem] finds the first place where the needle is: it skips from one candidate
    for the first byte to the next, and returns what looking at every offset would. *)
Theorem memmem_finds_the_first_match h hl q nl m :
  0 < h -> 0 < nl -> nl <= hl -> hl < 2 ^ 63 ->
  (exists i, memmem h hl q nl m = Done (h + i) /\ 0 <= i <= hl - nl /\ occurs m h q nl i /\ forall j, 0 <= j < i -> ~ occurs m h q nl j) \/
  (memmem h hl q nl m = Done 0 /\ forall j, 0 <= j <= hl - nl -> ~ occurs m h q nl j).
Proof.
  intros Hh Hnl Hle Hhl. unfold memmem. rewrite (proj2 (Z.ltb_ge _ _)) by lia. rewrite (wrap64_small (nl - 1)), wrap64_small by (unfold is_u64; lia).
  destruct (memmem_loop_spec (S (Z.to_nat (hl - (nl - 1)))) h q nl (hl - (nl - 1)) 0 m Hh Hnl) as [(i & E & Hi & Ho & Hb)|[E Hb]]; [lia|lia|lia| |];
    rewrite Z.add_0_r, Z.sub_0_r in E.
  - left. exists i. split_and!; [done|lia|lia|done|done].
  - right. split; [done|]. intros j Hj. apply Hb. lia.
Qed.

(** [strstr] finds the first occurrence of a word that is not empty. *)
Theorem strstr_finds_the_first_occurrence fuel n p q hay needle m :
  0 < p -> cstr m p hay -> cstr m q needle -> needle ≠ [] -> (length needle < fuel)%nat -> (length hay < n)%nat ->
  (exists i, strstr fuel n p q m = Done (p + Z.of_nat i) /\ needle `prefix_of` drop i hay /\ forall j, (j < i)%nat -> ~ needle `prefix_of` drop j hay) \/
  (strstr fuel n p q m = Done 0 /\ forall j, ~ needle `prefix_of` drop j hay).
Proof.
  intros Hp0 Hp Hq Hne Hf Hn. rewrite (strstr_spec fuel n p q hay needle m Hp Hq Hne Hf Hn). pose proof (first_occurrence_spec needle hay Hne) as H.
  destruct (first_occurrence needle hay) as [i|]; [left; by exists i|by right].
Qed.

(** [strcat] puts the second string behind the first, and touches nothing else. It
    returns the address behind the terminator. *)
Theorem strcat_concatenates fuel dst src l1 l2 m :
  cstr m dst l1 -> cstr m src l2 -> (length l1 < fuel)%nat -> (length l2 < fuel)%nat ->
  apart (dst + Z.of_nat (length l1)) src (Z.of_nat (length l2)) ->
  exists m', strcat fuel dst src m = Done (dst + Z.of_nat (length (l1 ++ l2)) + 1, m') /\ cstr m' dst (l1 ++ l2) /\
    forall x, x < dst + Z.of_nat (length l1) \/ dst + Z.of_nat (length (l1 ++ l2)) < x -> read8 m' x = read8 m x.
Proof.
  intros H1 H2 Hf1 Hf2 Ha. unfold strcat. rewrite (string_end_spec fuel dst l1 m H1 Hf1). cbn [mbind outcome_bind].
  destruct (append_string_spec fuel (dst + Z.of_nat (length l1)) src l2 m H2 Ha Hf2) as (m' & E & Hl & Hfr). exists m'. rewrite length_app.
  split_and!; [rewrite E; do 2 f_equal; lia| |intros x Hx; apply Hfr; lia]. apply cstr_app; [by eapply cstr_chars|]. split; [|done].
  rewrite <- (cstr_load _ _ _ H1) at 2. apply load_bytes_frame. intros x Hx. apply Hfr. lia.
Qed.

(** [strpbrk] does not look for anything: whatever the characters, the answer
    depends on the byte behind the end of the string. *)
Theorem strpbrk_looks_behind_the_string fuel p q l accept m :
  cstr m p l -> cstr m q accept -> accept ≠ [] -> (length l < fuel)%nat -> (length accept < fuel)%nat -> Z.of_nat (length accept) < 2 ^ 64 ->
  strpbrk fuel p q m = Done (if read8 m (p + Z.of_nat (length l) + 1) =? 0 then 0 else p + Z.of_nat (length l) + 1).
Proof.
  intros Hp Hq Hne Hf1 Hf2 Hb. unfold strpbrk. rewrite (strlen_spec fuel q accept m Hq Hf2 Hb), (string_end_spec fuel p l m Hp Hf1).
  destruct accept as [|c accept]; [done|]. destruct Hq as (-> & Hc & _). by rewrite (proj2 (Z.eqb_neq c 0)) by done.
Qed.

Lemma char_int_inj a b : is_byte a -> is_byte b -> char_int a = char_int b -> a = b.
Proof. unfold is_byte, char_int. intros Ha Hb. destruct (Z.ltb_spec a 128), (Z.ltb_spec b 128); lia. Qed.

Lemma strrchr_from_none fuel p c l chr m : cstr m p (c :: l) -> is_byte chr -> chr ≠ 0 -> chr ∉ l -> (length l + 1 < fuel)%nat ->
  strrchr_from fuel p (char_int chr) 0 m = Done 0.
Proof.
  revert fuel p c. induction l as [|d l IH]; intros [|k] p c H Hb H0 Hn Hf; cbn [length] in Hf; try lia; cbn [strrchr_from]; destruct H as (Hc & Hc0 & H);
    rewrite Hc, (proj2 (Z.eqb_neq c 0)) by done.
  - cbn in H. destruct k as [|k]; [lia|]. rewrite H. rewrite (proj2 (Z.eqb_neq _ (char_int chr))); [cbn [strrchr_from]; by rewrite H|].
    intros E%char_int_inj; [done|by split|done].
  - rewrite not_elem_of_cons in Hn. pose proof H as (Hd & _). rewrite Hd. rewrite (proj2 (Z.eqb_neq _ (char_int chr))); [apply (IH k (p + 1) d); [done|done|done|tauto|lia]|].
    pose proof (cstr_byte _ _ _ H) as Hby. inversion Hby; subst. intros E%char_int_inj; [|done|done]. intuition congruence.
Qed.

(** [strrchr] does not look at the first character. *)
Theorem strrchr_misses_the_first_character fuel p c l m :
  cstr m p (c :: l) -> c ∉ l -> (length l + 1 < fuel)%nat -> strrchr fuel p (char_int c) m = Done 0.
Proof. intros H Hn Hf. pose proof (cstr_byte _ _ _ H) as Hby. inversion Hby; subst. eapply strrchr_from_none; [done|done|by destruct H as (_ & ? & _)|done|done]. Qed.

(** ** The claims at work *)

(** "abcab" at 100, "ca" at 200. *)
Definition words : mem := store_bytes 100 [97; 98; 99; 97; 98; 0] (store_bytes 200 [99; 97; 0] (fun _ => 0)).

Lemma words_hay : cstr words 100 [97; 98; 99; 97; 98].
Proof. vm_compute. split_and!; done. Qed.

Lemma words_needle : cstr words 200 [99; 97].
Proof. vm_compute. split_and!; done. Qed.

Lemma strcmp_orders_strings_witness :
  exists r12 r21 r23 r13, strcmp 6 100 200 words = Done r12 /\ strcmp 6 200 100 words = Done r21 /\ strcmp 6 200 100 words = Done r23 /\ strcmp 6 100 100 words = Done r13 /\
    (r12 = 0 <-> [97; 98; 99; 97; 98] = [99; 97]) /\ r21 = - r12 /\ (r12 < 0 -> r23 < 0 -> r13 < 0).
Proof. apply (strcmp_orders_strings 6 100 200 100 _ _ _ words words_hay words_needle words_hay); cbn; lia. Defined.

Lemma memmem_finds_the_first_match_witness :
  (exists i, memmem 100 5 200 2 words = Done (100 + i) /\ 0 <= i <= 5 - 2 /\ occurs words 100 200 2 i /\ forall j, 0 <= j < i -> ~ occurs words 100 200 2 j) \/
  (memmem 100 5 200 2 words = Done 0 /\ forall j, 0 <= j <= 5 - 2 -> ~ occurs words 100 200 2 j).
Proof. apply (memmem_finds_the_first_match 100 5 200 2 words); lia. Defined.

Lemma strstr_finds_the_first_occurrence_witness :
  (exists i, strstr 3 6 100 200 words = Done (100 + Z.of_nat i) /\ [99; 97] `prefix_of` drop i [97; 98; 99; 97; 98] /\
     forall j, (j < i)%nat -> ~ [99; 97] `prefix_of` drop j [97; 98; 99; 97; 98]) \/
  (strstr 3 6 100 200 words = Done 0 /\ forall j, ~ [99; 97] `prefix_of` drop j [97; 98; 99; 97; 98]).
Proof. apply (strstr_finds_the_first_occurrence 3 6 100 200 _ _ words ltac:(lia) words_hay words_needle); [done|cbn; lia|cbn; lia]. Defined.

Lemma strcat_concatenates_witness :
  exists m', strcat 6 100 200 words = Done (108, m') /\ cstr m' 100 [97; 98; 99; 97; 98; 99; 97] /\
    forall x, x < 105 \/ 107 < x -> read8 m' x = read8 words x.
Proof. apply (strcat_concatenates 6 100 200 _ _ words words_hay words_needle); [cbn; lia|cbn; lia|right; cbn; lia]. Defined.

Lemma strpbrk_looks_behind_the_string_witness : strpbrk 6 100 200 words = Done 0.
Proof. apply (strpbrk_looks_behind_the_string 6 100 200 _ _ words words_hay words_needle); [done|cbn; lia|cbn; lia|cbn; lia]. Defined.

Lemma strrchr_misses_the_first_character_witness : strrchr 4 200 99 words = Done 0.
Proof. apply (strrchr_misses_the_first_character 4 200 99 [97] words words_needle); [|cbn; lia]. by rewrite list_elem_of_singleton. Defined.

End UserString.
