(* ===== verification/AtExit.v ===== *)
(** * Functions called at exit

    Models [__cxa_atexit] and [__cxa_finalize] of src/user/libc/abi.cpp, and [atexit],
    [at_quick_exit] and [exit] of stdlib.cpp on top of them. A call of a registered
    function is an entry of a trace; the functions do not register others. *)

From S2P Require Import Prelude.

Module AtExit.

(** A registered function with its argument, by address. *)
Record dso_atexit_callback := mkCallback { cb : Z; arg : Z }.

Record dso_atexit_list := mkList { dso : Z; processed : bool; callbacks : list dso_atexit_callback }.

(** The list of lists, [dso_atexit_list_head] first, and [__in_quick_exit]. *)
Record state := mkState { lists : list dso_atexit_list; in_quick_exit : bool }.

Definition find_dso_atexit_list (d : Z) (ls : list dso_atexit_list) : option nat := fst <$> list_find (fun l => dso l = d) ls.

(** [garbage] is what the memory of a new list holds where [processed] is, which is
    not set. *)
Definition cxa_atexit (garbage : bool) (func a d : Z) (s : state) : state :=
  let ls := match find_dso_atexit_list d (lists s) with Some _ => lists s | None => mkList d garbage [] :: lists s end in
  match find_dso_atexit_list d ls with
  | Some i => mkState (alter (fun l => mkList (dso l) (processed l) (mkCallback func a :: callbacks l)) i ls) (in_quick_exit s)
  | None => s
  end.

(** The loop over the lists, which ends at the first that was processed. *)
Fixpoint finalize_all (ls : list dso_atexit_list) : list dso_atexit_list * list dso_atexit_callback :=
  match ls with
  | [] => ([], [])
  | l :: rest =>
      if processed l then (l :: rest, [])
      else let '(rest, calls) := finalize_all rest in (mkList (dso l) true (callbacks l) :: rest, callbacks l ++ calls)
  end.

Definition cxa_finalize (d : Z) (s : state) : state * list dso_atexit_callback :=
  if d =? 0 then let '(ls, calls) := finalize_all (lists s) in (mkState ls (in_quick_exit s), calls)
  else
    match find_dso_atexit_list d (lists s) with
    | Some i =>
        match lists s !! i with
        | Some l =>
            if processed l then (s, [])
            else (mkState (<[i := mkList (dso l) true (callbacks l)]> (lists s)) (in_quick_exit s), callbacks l)
        | None => (s, [])
        end
    | None => (s, [])
    end.

(** [wrapper] is the function [atexit] registers, which calls its argument unless
    the program leaves through [quick_exit]. *)
Definition atexit (garbage : bool) (wrapper function : Z) (s : state) : state := cxa_atexit garbage wrapper function 0 s.
Definition at_quick_exit (garbage : bool) (function : Z) (s : state) : state := cxa_atexit garbage function 0 0 s.

(** The functions of the program that a registered call runs. *)
Definition runs (wrapper : Z) (quick : bool) (c : dso_atexit_callback) : list Z :=
  if cb c =? wrapper then (if quick then [] else [arg c]) else [cb c].

(** [__libc_fini] as far as registered functions go: those of the linker first. *)
Definition libc_fini (fini_array : list Z) (wrapper : Z) (s : state) : state * list Z :=
  let '(s', calls) := cxa_finalize 0 s in (s', fini_array ++ (calls ≫= runs wrapper (in_quick_exit s))).

Definition libc_exit (fini_array : list Z) (wrapper : Z) (s : state) : state * list Z := libc_fini fini_array wrapper s.

Definition libc_quick_exit (fini_array : list Z) (wrapper : Z) (s : state) : state * list Z :=
  libc_exit fini_array wrapper (mkState (lists s) true).

(** ** Registration *)

(** What a program registers, in order. *)
Inductive registration := on_exit (f : Z) | on_quick_exit (f : Z).

Definition register (wrapper : Z) (r : registration) (s : state) : state :=
  match r with on_exit f => atexit false wrapper f s | on_quick_exit f => at_quick_exit false f s end.

Definition registered (wrapper : Z) (r : registration) : dso_atexit_callback :=
  match r with on_exit f => mkCallback wrapper f | on_quick_exit f => mkCallback f 0 end.

Definition start : state := mkState [] false.

Lemma cxa_atexit_same garbage f a p cs q : cxa_atexit garbage f a 0 (mkState [mkList 0 p cs] q) = mkState [mkList 0 p (mkCallback f a :: cs)] q.
Proof. reflexivity. Qed.

Lemma register_all wrapper rs r : foldl (fun s r => register wrapper r s) start (r :: rs) =
  mkState [mkList 0 false (rev (registered wrapper <$> r :: rs))] false.
Proof.
  induction rs as [|x rs IH] using rev_ind; [by destruct r|]. rewrite app_comm_cons, foldl_app, IH, fmap_app, rev_app_distr. cbn [foldl fmap list_fmap rev app].
  by destruct x; unfold register, atexit, at_quick_exit; rewrite cxa_atexit_same.
Qed.

(** ** Claims *)

(** [exit] runs the functions of the program in the reverse of the order in which
    they were registered, each once; a second [exit] runs none of them. *)
Theorem exit_runs_in_reverse fini wrapper rs :
  (forall f, on_quick_exit f ∈ rs -> f ≠ wrapper) ->
  let s := foldl (fun s r => register wrapper r s) start rs in
  let called := libc_exit fini wrapper s in
  called.2 = fini ++ rev ((fun r => match r with on_exit f => f | on_quick_exit f => f end) <$> rs) /\ (libc_exit fini wrapper called.1).2 = fini.
Proof.
  intros Hw. destruct rs as [|r rs]; [cbn; by rewrite app_nil_r|]. cbv zeta. rewrite register_all. cbn [libc_exit]. unfold libc_exit, libc_fini. cbn. rewrite !app_nil_r. split; [|done].
  f_equal. change (rev (registered wrapper <$> rs) ++ [registered wrapper r]) with (rev (registered wrapper <$> r :: rs)).
  match goal with |- _ = rev ?t ++ [?x] => change (rev t ++ [x]) with (rev ((fun r => match r with on_exit f => f | on_quick_exit f => f end) <$> r :: rs)) end.
  revert Hw. generalize (r :: rs). intros l Hw. induction l as [|x l IH]; [done|]. cbn [fmap list_fmap rev]. rewrite bind_app, IH by (intros f Hf; apply Hw; by right).
  f_equal. destruct x as [f|f]; cbn; unfold runs; cbn; [by rewrite Z.eqb_refl|]. rewrite (proj2 (Z.eqb_neq f wrapper)); [done|]. apply Hw. by left.
Qed.

Lemma exit_runs_in_reverse_witness :
  let s := foldl (fun s r => register 9 r s) start [on_exit 1; on_quick_exit 2; on_exit 3] in
  (libc_exit [7] 9 s).2 = [7; 3; 2; 1] /\ (libc_exit [7] 9 (libc_exit [7] 9 s).1).2 = [7].
Proof.
  apply (exit_runs_in_reverse [7] 9 [on_exit 1; on_quick_exit 2; on_exit 3]). intros f Hf. rewrite !elem_of_cons, elem_of_nil in Hf.
  destruct Hf as [?|[?|[?|[]]]]; simplify_eq. done.
Defined.

(** [processed] of a new list is not set: when the memory it gets is not zero,
    nothing that is registered with it is called, and neither are the lists that
    were there before. *)
Theorem unset_flag_loses_the_functions func a d s :
  find_dso_atexit_list d (lists s) = None -> (cxa_finalize 0 (cxa_atexit true func a d s)).2 = [].
Proof.
  intros Hf. unfold cxa_atexit. rewrite Hf. unfold find_dso_atexit_list. cbn. by rewrite decide_True.
Qed.

Lemma unset_flag_loses_the_functions_witness : (cxa_finalize 0 (cxa_atexit true 1 2 3 start)).2 = [].
Proof. apply (unset_flag_loses_the_functions 1 2 3 start). reflexivity. Defined.

End AtExit.
