(* ===== verification/Random.v ===== *)
(** * Random numbers

    Models src/kernel/src/random_lfsr.h and random_lfsr.cpp, the shift register
    behind [gRandomLFSR]. *)

From S2P Require Import Prelude Bitmap.

Module Lfsr.

(** ** The register *)

(** [ShiftRegister]: sixteen bytes, the least significant first. *)
Notation LFSR := (list Z).

Definition byte_at (r : LFSR) (i : Z) : Z := nth (Z.to_nat i) r 0.

Definition get_bit (index : Z) (r : LFSR) : bool := 0 <? Z.land (byte_at r (index / 8)) (Z.shiftl 1 (index mod 8)).
Definition get_bit_value (index : Z) (r : LFSR) : Z := if get_bit index r then 1 else 0.

(** The loop of [next], from the last byte to the first: the bytes, each shifted
    with the carry of the one above, and the carry out of the lowest. *)
Fixpoint shift_bytes (r : LFSR) (lastCarry : Z) : LFSR * Z :=
  match r with
  | [] => ([], lastCarry)
  | b :: high =>
      let '(high, lastCarry) := shift_bytes high lastCarry in
      let carry := wrap8 (Z.shiftl (Z.land b 1) 7) in
      (Z.lor (Z.shiftr b 1) lastCarry :: high, carry)
  end.

Definition newbit (r : LFSR) : Z :=
  Z.land (Z.lxor (Z.lxor (Z.lxor (get_bit_value 0 r) (get_bit_value 1 r)) (get_bit_value 2 r)) (get_bit_value 7 r)) 1.

Definition next (r : LFSR) : LFSR :=
  let bit := wrap8 (Z.shiftl (newbit r) 7) in
  let r := (shift_bytes r 0).1 in
  alter (fun b => Z.lor b bit) 15%nat r.

Fixpoint get_loop (n : nat) (result : Z) (r : LFSR) : Z * LFSR :=
  match n with
  | O => (result, r)
  | S n =>
      let result := if get_bit 0 r then Z.lor result 1 else result in
      get_loop n (wrap64 (Z.shiftl result 1)) (next r)
  end.

Definition get (r : LFSR) : Z * LFSR := get_loop 64 0 r.

Definition get_max (max : Z) (r : LFSR) : Z * LFSR :=
  if max =? 0 then (0, r) else let '(v, r) := get r in (v mod max, r).

Definition get_range (min max : Z) (r : LFSR) : Z * LFSR :=
  if (min =? 0) || (max =? 0) then get_max max r
  else
    let min := if max <=? min then max -64 1 else min in
    let '(v, r) := get r in ((v mod (max -64 min)) +64 min, r).

(** Each byte is the low byte of the argument shifted to the left. *)
Definition seed_bytes (v : Z) : list Z := (fun k => wrap8 (wrap64 (Z.shiftl v (8 * k)))) <$> [0; 1; 2; 3; 4; 5; 6; 7].

Definition seed (high low : Z) : LFSR := seed_bytes low ++ seed_bytes high.

Definition DefaultInitialLFSRState : Z * Z := (2 ^ 63, 1).
Definition new_LFSR : LFSR := seed DefaultInitialLFSRState.1 DefaultInitialLFSRState.2.

(** ** As a number of 128 bits *)

Fixpoint value (r : LFSR) : Z := match r with [] => 0 | b :: r => b + 256 * value r end.

Definition lfsr_ok (r : LFSR) : Prop := length r = 16%nat /\ Forall (fun b => 0 <= b < 256) r.

Lemma value_range r : Forall (fun b => 0 <= b < 256) r -> 0 <= value r < 256 ^ Z.of_nat (length r).
Proof.
  induction 1 as [|b r Hb Hr IH]; [cbn; lia|]. cbn [value length]. rewrite Nat2Z.inj_succ, Z.pow_succ_r by lia. lia.
Qed.

Lemma value_inj r1 r2 : Forall (fun b => 0 <= b < 256) r1 -> Forall (fun b => 0 <= b < 256) r2 -> length r1 = length r2 -> value r1 = value r2 -> r1 = r2.
Proof.
  intros H1. revert r2. induction H1 as [|b r1 Hb H1 IH]; intros r2 H2 Hl Hv; destruct H2 as [|c r2 Hc H2]; try done. cbn [value length] in *.
  assert (b = c) by lia. subst. f_equal. apply IH; [done|lia|lia].
Qed.

Lemma lor_carry a c : 0 <= a < 128 -> c = 0 \/ c = 1 -> Z.lor a (128 * c) = a + 128 * c.
Proof.
  intros Ha Hc. replace (128 * c) with (Z.shiftl c 7) at 1 by (rewrite Z.shiftl_mul_pow2 by lia; lia). rewrite Z.lor_comm, lor_shiftl_add; lia.
Qed.

Lemma low_carry b : wrap8 (Z.shiftl (Z.land b 1) 7) = 128 * (b mod 2).
Proof.
  change 1 with (Z.ones 1) at 1. rewrite Z.land_ones, Z.shiftl_mul_pow2 by lia. change (2 ^ 1) with 2. pose proof (Z.mod_pos_bound b 2). unfold wrap8. rewrite Z.mod_small; lia.
Qed.

(** Shifting the bytes is shifting the number; the carry in becomes the top bit. *)
Lemma shift_bytes_spec r c r' c' : Forall (fun b => 0 <= b < 256) r -> c = 0 \/ c = 1 -> r ≠ [] -> shift_bytes r (128 * c) = (r', c') ->
  length r' = length r /\ Forall (fun b => 0 <= b < 256) r' /\ 2 * value r' + value r mod 2 = value r + c * 256 ^ Z.of_nat (length r) /\ c' = 128 * (value r mod 2).
Proof.
  intros Hr Hc. revert r' c'. induction Hr as [|b r Hb Hr IH]; intros r' c' Hne E; [done|]. cbn [shift_bytes] in E. rewrite low_carry in E.
  assert (Hm : value (b :: r) mod 2 = b mod 2) by (cbn [value]; dlia). rewrite Hm. cbn [value length]. rewrite Nat2Z.inj_succ, Z.pow_succ_r by lia.
  destruct r as [|d r].
  - cbn [shift_bytes] in E. simplify_eq. rewrite Z.shiftr_div_pow2 by lia. change (2 ^ 1) with 2. rewrite lor_carry by (done || dlia). cbn [length value].
    change (256 ^ Z.of_nat 0) with 1. split_and!; [done|constructor; [dlia|done]|dlia|done].
  - destruct (shift_bytes (d :: r) (128 * c)) as [high c1] eqn:E1. destruct (IH high c1) as (Hl & Hf & Hv & Hc1); [done|done|].
    cbn [length] in *. clear IH E1 Hm Hne. set (V := value (d :: r)) in *. clearbody V. subst c1. injection E as <- <-.
    assert (Hmod : V mod 2 = 0 \/ V mod 2 = 1) by dlia. rewrite Z.shiftr_div_pow2 by lia. change (2 ^ 1) with 2.
    assert (Hb2 : 0 <= b / 2 < 128) by dlia. rewrite (lor_carry (b / 2) _ Hb2 Hmod). cbn [length value].
    split_and!; [lia|constructor; [lia|done]|dlia|done].
Qed.

(** The last byte, and what a change of it does to the number. *)
Lemma value_top r n t : Forall (fun b => 0 <= b < 256) r -> length r = S n -> r !! n = Some t ->
  t * 256 ^ Z.of_nat n <= value r /\ forall f, value (alter f n r) = value r + (f t - t) * 256 ^ Z.of_nat n.
Proof.
  intros Hr. revert n. induction Hr as [|b r Hb Hr IH]; intros n Hl Ht; [done|]. cbn [length] in Hl. destruct n as [|n]; cbn in Ht.
  - simplify_eq. destruct r; [|done]. split; [cbn; lia|]. intros f. cbn. lia.
  - destruct (IH n) as [Hle Hf]; [lia|done|]. rewrite Nat2Z.inj_succ, Z.pow_succ_r by lia. cbn [value]. split; [lia|]. intros f. cbn [alter list_alter value]. rewrite Hf. lia.
Qed.

Lemma get_bit_low i r : lfsr_ok r -> 0 <= i < 8 -> get_bit i r = Z.testbit (value r) i.
Proof.
  intros [Hl Hr] Hi. destruct r as [|b r]; [done|]. inversion Hr as [|? ? Hb _]; subst. unfold get_bit, byte_at. rewrite Z.div_small, Z.mod_small by lia.
  rewrite Z.shiftl_1_l, Bits.land_pow2_testbit by lia. cbn [nth value Z.to_nat]. rewrite <- (Z.mod_pow2_bits_low (b + 256 * value r) 8 i) by lia.
  by replace ((b + 256 * value r) mod 2 ^ 8) with b by (change (2 ^ 8) with 256; dlia).
Qed.

(** The bit that comes in: the exclusive or of bits 0, 1, 2 and 7. *)
Definition feedback (v : Z) : bool := xorb (xorb (xorb (Z.testbit v 0) (Z.testbit v 1)) (Z.testbit v 2)) (Z.testbit v 7).

Lemma newbit_spec r : lfsr_ok r -> newbit r = Z.b2z (feedback (value r)).
Proof.
  intros O. unfold newbit, get_bit_value, feedback. rewrite !(get_bit_low _ r O) by lia.
  by destruct (Z.testbit (value r) 0), (Z.testbit (value r) 1), (Z.testbit (value r) 2), (Z.testbit (value r) 7).
Qed.

(** One step on the number: a shift to the right with the new bit on top. *)
Lemma next_spec r : lfsr_ok r -> lfsr_ok (next r) /\ value (next r) = value r / 2 + 2 ^ 127 * Z.b2z (feedback (value r)).
Proof.
  intros O. pose proof O as [Hl Hr]. unfold next. rewrite (newbit_spec r O). destruct (shift_bytes r 0) as [r' c'] eqn:E.
  destruct (shift_bytes_spec r 0 r' c' Hr) as (Hl' & Hr' & Hv & _); [by left|by destruct r|done|]. rewrite Z.mul_0_l, Z.add_0_r in Hv.
  pose proof (value_range r Hr) as Hrange. rewrite Hl in Hrange. assert (Hv' : value r' = value r / 2) by dlia. cbn [fst].
  destruct (lookup_lt_is_Some_2 r' 15%nat) as [t Ht]; [lia|]. destruct (value_top r' 15 t Hr') as [Htop Halter]; [lia|done|].
  assert (Ht128 : 0 <= t < 128). { rewrite Forall_lookup in Hr'. pose proof (Hr' _ _ Ht). split; [lia|]. change (256 ^ Z.of_nat 16) with (256 * 256 ^ Z.of_nat 15) in Hrange. dlia. }
  assert (Hbit : wrap8 (Z.shiftl (Z.b2z (feedback (value r))) 7) = 128 * Z.b2z (feedback (value r))) by (by destruct (feedback (value r))).
  assert (Hlor : Z.lor t (128 * Z.b2z (feedback (value r))) = t + 128 * Z.b2z (feedback (value r))) by (apply lor_carry; [done|destruct (feedback (value r)); auto]).
  rewrite Hbit. split.
  - split; [by rewrite length_alter; lia|]. rewrite Forall_lookup in Hr' |- *. intros k b Hk. destruct (decide (k = 15%nat)) as [->|Hne].
    + rewrite list_lookup_alter_eq, Ht in Hk. simplify_eq/=. rewrite Hlor. destruct (feedback (value r)); cbn; lia.
    + rewrite list_lookup_alter_ne in Hk by done. by eapply Hr'.
  - rewrite Halter, Hlor, Hv'. change (256 ^ Z.of_nat 15) with (2 ^ 120). change (2 ^ 127) with (128 * 2 ^ 120). lia.
Qed.

Lemma value_ok_range r : lfsr_ok r -> 0 <= value r < 2 ^ 128.
Proof. intros [Hl Hr]. pose proof (value_range r Hr) as H. by rewrite Hl in H. Qed.

Lemma half_bits v i : 0 <= i -> Z.testbit (v / 2) i = Z.testbit v (i + 1).
Proof. intros Hi. change 2 with (2 ^ 1). rewrite Z.div_pow2_bits by lia. done. Qed.

(** The step can be undone. *)
Lemma step_inj v1 v2 : 0 <= v1 < 2 ^ 128 -> 0 <= v2 < 2 ^ 128 ->
  v1 / 2 + 2 ^ 127 * Z.b2z (feedback v1) = v2 / 2 + 2 ^ 127 * Z.b2z (feedback v2) -> v1 = v2.
Proof.
  intros H1 H2 E. assert (Ef : feedback v1 = feedback v2) by (destruct (feedback v1), (feedback v2); cbn in E; done || dlia).
  assert (Eh : v1 / 2 = v2 / 2) by (rewrite Ef in E; lia).
  assert (Hbit : forall i, 0 <= i -> Z.testbit v1 (i + 1) = Z.testbit v2 (i + 1)) by (intros i Hi; rewrite <- !half_bits by done; by rewrite Eh).
  assert (E0 : Z.testbit v1 0 = Z.testbit v2 0).
  { unfold feedback in Ef. rewrite (Hbit 0 ltac:(lia) : Z.testbit v1 1 = Z.testbit v2 1), (Hbit 1 ltac:(lia) : Z.testbit v1 2 = Z.testbit v2 2), (Hbit 6 ltac:(lia) : Z.testbit v1 7 = Z.testbit v2 7) in Ef.
    by destruct (Z.testbit v1 0), (Z.testbit v2 0), (Z.testbit v2 1), (Z.testbit v2 2), (Z.testbit v2 7). }
  assert (Em : v1 mod 2 = v2 mod 2) by (rewrite <- !Z.bit0_mod; by rewrite E0). dlia.
Qed.

Lemma get_loop_even n result r : Z.even result = true -> Z.even (get_loop n result r).1 = true.
Proof.
  revert result r. induction n as [|n IH]; intros result r Hr; cbn [get_loop]; [done|]. apply IH. rewrite Z.shiftl_mul_pow2 by lia. unfold wrap64.
  rewrite Zeven_mod. apply Z.eqb_eq. change (2 ^ 1) with 2. change (2 ^ 64) with (2 * 2 ^ 63). rewrite Z.mul_comm, Zmult_mod_distr_l, Z.mul_comm. apply Z_mod_mult.
Qed.

(** ** The bits that come out *)

Lemma iter_ok n r : lfsr_ok r -> lfsr_ok (Nat.iter n next r).
Proof. intros O. induction n as [|n IH]; [done|]. cbn. by apply next_spec. Qed.

Lemma next_nonzero r : lfsr_ok r -> value r ≠ 0 -> value (next r) ≠ 0.
Proof.
  intros O Hne Hz. destruct (next_spec r O) as [_ Hv]. pose proof (value_ok_range r O). apply Hne, step_inj; [done|lia|]. rewrite <- Hv, Hz. done.
Qed.

Lemma iter_nonzero n r : lfsr_ok r -> value r ≠ 0 -> value (Nat.iter n next r) ≠ 0.
Proof. intros O Hne. induction n as [|n IH]; [done|]. cbn. apply next_nonzero; [by apply iter_ok|done]. Qed.

(** The lowest bit after [n] steps. *)
Definition stream (r : LFSR) (n : nat) : bool := Z.testbit (value (Nat.iter n next r)) 0.

Lemma stream_next r n : stream (next r) n = stream r (S n).
Proof. unfold stream. by rewrite Nat.iter_swap. Qed.

Lemma next_bit r i : lfsr_ok r -> 0 <= i < 127 -> Z.testbit (value (next r)) i = Z.testbit (value r) (i + 1).
Proof.
  intros O Hi. destruct (next_spec r O) as [_ Hv]. pose proof (value_ok_range r O). rewrite Hv, <- half_bits by lia.
  rewrite <- (Z.mod_pow2_bits_low _ 127 i) by lia. rewrite (Z.mul_comm (2 ^ 127)), Z_mod_plus_full. by rewrite Z.mod_pow2_bits_low by lia.
Qed.

Lemma top_bit r : lfsr_ok r -> Z.testbit (value (next r)) 127 = feedback (value r).
Proof.
  intros O. destruct (next_spec r O) as [_ Hv]. pose proof (value_ok_range r O). rewrite Hv. assert (Hlt : 0 <= value r / 2 < 2 ^ 127) by dlia.
  generalize dependent (value r / 2). intros q _ Hq. destruct (feedback (value r)); cbn [Z.b2z].
  - rewrite Z.mul_1_r. apply Z.testbit_true; [lia|]. replace (q + 2 ^ 127) with (q + 1 * 2 ^ 127) by lia. rewrite Z.div_add, Z.div_small by lia. done.
  - rewrite Z.mul_0_r, Z.add_0_r. apply Z.testbit_false; [lia|]. by rewrite Z.div_small.
Qed.

(** The register holds the next 128 bits. *)
Lemma register_bits r n i : lfsr_ok r -> (i < 128)%nat -> Z.testbit (value (Nat.iter n next r)) (Z.of_nat i) = stream r (n + i).
Proof.
  intros O. revert n. induction i as [|i IH]; intros n Hi; [by rewrite Nat.add_0_r|].
  replace (Z.of_nat (S i)) with (Z.of_nat i + 1) by lia. rewrite <- next_bit by (by apply iter_ok || lia).
  change (next (Nat.iter n next r)) with (Nat.iter (S n) next r). rewrite IH by lia. f_equal. lia.
Qed.

Lemma stream_recurrence r n : lfsr_ok r -> stream r (n + 128) = xorb (xorb (xorb (stream r n) (stream r (n + 1))) (stream r (n + 2))) (stream r (n + 7)).
Proof.
  intros O. replace (n + 128)%nat with (S n + 127)%nat by lia. rewrite <- register_bits by (done || lia). cbn [Nat.iter nat_rect].
  change (Nat.iter (S n) next r) with (next (Nat.iter n next r)). change (Z.of_nat 127) with 127. rewrite top_bit by (by apply iter_ok). unfold feedback.
  rewrite <- !(register_bits r n) by (done || lia). done.
Qed.

Lemma stream_alive r n : lfsr_ok r -> value r ≠ 0 -> (forall i, (i < 128)%nat -> stream r (n + i) = false) -> False.
Proof.
  intros O Hne Hall. apply (iter_nonzero n r O Hne). pose proof (value_ok_range _ (iter_ok n r O)) as Hr. apply Z.bits_inj'. intros i Hi. rewrite Z.bits_0.
  destruct (Z_lt_le_dec i 128) as [Hlt|Hge].
  - replace i with (Z.of_nat (Z.to_nat i)) by lia. rewrite register_bits by (done || lia). apply Hall. lia.
  - rewrite <- (Z.mod_small _ (2 ^ 128) Hr). apply Z.mod_pow2_bits_high. lia.
Qed.

(** What [get] makes of them: bit [j] of the number is the [64 - j]th bit. *)
Lemma get_loop_bits n result r j : lfsr_ok r -> Z.even result = true -> (1 <= j < 64)%nat ->
  Z.testbit (get_loop n result r).1 (Z.of_nat j) = if (j <=? n)%nat then stream r (n - j) else Z.testbit result (Z.of_nat (j - n)).
Proof.
  intros O. revert result r O j. induction n as [|n IH]; intros result r O j He Hj.
  - cbn [get_loop fst]. rewrite (proj2 (Nat.leb_gt j 0)) by lia. by rewrite Nat.sub_0_r.
  - cbn [get_loop]. set (result' := if get_bit 0 r then Z.lor result 1 else result). rewrite IH; [|by apply next_spec| |done].
    2: { rewrite Z.shiftl_mul_pow2 by lia. unfold wrap64. rewrite Zeven_mod. apply Z.eqb_eq. change (2 ^ 1) with 2. change (2 ^ 64) with (2 * 2 ^ 63).
         rewrite Z.mul_comm, Zmult_mod_distr_l, Z.mul_comm. apply Z_mod_mult. }
    assert (Hr : forall i, (1 <= i < 64)%nat -> Z.testbit (wrap64 (Z.shiftl result' 1)) (Z.of_nat i) = Z.testbit result' (Z.of_nat (i - 1))).
    { intros i Hi. unfold wrap64. rewrite Z.mod_pow2_bits_low, Z.shiftl_spec by lia. f_equal. lia. }
    destruct (Nat.leb_spec j n) as [Hle|Hgt].
    + rewrite (proj2 (Nat.leb_le j (S n))) by lia. rewrite stream_next. f_equal. lia.
    + rewrite Hr by lia. destruct (Nat.leb_spec j (S n)) as [Hle|Hgt2].
      * assert (j = S n) as -> by lia. replace (S n - n - 1)%nat with 0%nat by lia. rewrite Nat.sub_diag. change (Z.of_nat 0) with 0. unfold result', stream. cbn [Nat.iter nat_rect].
        rewrite (get_bit_low 0 r O) by lia. assert (Hb : Z.testbit result 0 = false) by (rewrite Z.bit0_odd, <- Z.negb_even, He; done).
        destruct (Z.testbit (value r) 0); [rewrite Z.lor_spec, Hb; done|done].
      * replace (j - n - 1)%nat with (j - S n)%nat by lia. unfold result'. destruct (get_bit 0 r); [|done]. rewrite Z.lor_spec.
        rewrite (Z.bits_above_log2 1) by (cbn; lia). apply orb_false_r.
Qed.

Lemma get_loop_state n result r : (get_loop n result r).2 = Nat.iter n next r.
Proof. revert result r. induction n as [|n IH]; intros result r; [done|]. cbn [get_loop]. rewrite IH. apply (Nat.iter_swap n _ next r). Qed.

Lemma get_loop_low n r i : lfsr_ok r -> wrap32 (get_loop n 0 r).1 = 0 -> (i < n)%nat -> (n - i < 32)%nat -> stream r i = false.
Proof.
  intros O Hz Hi Hn. pose proof (get_loop_bits n 0 r (n - i) O eq_refl ltac:(lia)) as H. rewrite (proj2 (Nat.leb_le _ _)) in H by lia.
  replace (n - (n - i))%nat with i in H by lia. rewrite <- H. unfold wrap32 in Hz.
  rewrite <- (Z.mod_pow2_bits_low _ 32) by lia. rewrite Hz. apply Z.bits_0.
Qed.

Lemma get_eq r : get r = get_loop 64 0 r.
Proof. reflexivity. Qed.

Lemma get_low_zero r i : lfsr_ok r -> wrap32 (get r).1 = 0 -> (33 <= i < 64)%nat -> stream r i = false.
Proof. intros O Hz Hi. rewrite get_eq in Hz. apply (get_loop_low 64 r i O Hz); lia. Qed.

Lemma get_state r : (get r).2 = Nat.iter 64 next r.
Proof. rewrite get_eq. apply get_loop_state. Qed.

(** Of sixteen numbers in a row the low halves are not all zero: the zeroes would
    spread to 128 bits in a row. *)
Lemma low_half_not_always_zero r : lfsr_ok r -> value r ≠ 0 -> ~ (forall k, (k < 16)%nat -> wrap32 (get (Nat.iter (64 * k) next r)).1 = 0).
Proof.
  intros O Hne Hall.
  assert (Hwin : forall k i, (k < 16)%nat -> (33 <= i < 64)%nat -> stream r (64 * k + i) = false).
  { intros k i Hk Hi. rewrite <- (get_low_zero (Nat.iter (64 * k) next r) i) by (by apply iter_ok || by apply Hall || done).
    unfold stream. rewrite <- Nat.iter_add. do 3 f_equal. lia. }
  assert (Hgap : forall i k, (k + 2 * (i / 7 + 1) < 16)%nat -> stream r (64 * k + 64 + i) = false).
  { intros i. induction i as [i IH] using lt_wf_ind. intros k Hk.
    assert (Hn : forall c j, (c <= 2)%nat -> (j + 2 * ((i + c) / 7) < 16)%nat -> stream r (64 * j + 57 + i + c) = false).
    { intros c j Hc Hj. destruct (decide (i + c < 7)%nat) as [Hlt|Hge].
      - replace (64 * j + 57 + i + c)%nat with (64 * j + (57 + i + c))%nat by lia. apply Hwin; lia.
      - replace (64 * j + 57 + i + c)%nat with (64 * j + 64 + (i + c - 7))%nat by lia. apply IH; [lia|].
        replace (i + c)%nat with (i + c - 7 + 1 * 7)%nat in Hj by lia. rewrite Nat.div_add in Hj by lia. lia. }
    assert (Hmono : forall c, (c <= 2)%nat -> ((i + c) / 7 <= i / 7 + 1)%nat).
    { intros c Hc. replace (i / 7 + 1)%nat with ((i + 1 * 7) / 7)%nat by (rewrite Nat.div_add; lia). apply Nat.Div0.div_le_mono. lia. }
    pose proof (stream_recurrence r (64 * k + 57 + i) O) as Hrec. pose proof (Hmono 1%nat ltac:(lia)). pose proof (Hmono 2%nat ltac:(lia)).
    pose proof (Hn 0%nat k ltac:(lia) ltac:(rewrite Nat.add_0_r; lia)) as Hz0. rewrite Nat.add_0_r in Hz0. rewrite Hz0, (Hn 1%nat k), (Hn 2%nat k) in Hrec by lia.
    replace (64 * k + 57 + i + 128)%nat with (64 * (k + 2) + 57 + i + 0)%nat in Hrec by lia. rewrite (Hn 0%nat (k + 2)%nat) in Hrec by (rewrite ?Nat.add_0_r; lia).
    replace (64 * k + 64 + i)%nat with (64 * k + 57 + i + 7)%nat by lia. by destruct (stream r _). }
  apply (stream_alive r 33 O Hne). intros i Hi.
  assert (Hsmall : forall i, (i <= 32)%nat -> (i / 7 <= 4)%nat) by (intros j Hj; change 4%nat with (32 / 7)%nat; by apply Nat.Div0.div_le_mono).
  destruct (decide (i < 31)%nat); [change (33 + i)%nat with (64 * 0 + (33 + i))%nat; apply Hwin; lia|].
  destruct (decide (i < 64)%nat); [replace (33 + i)%nat with (64 * 0 + 64 + (i - 31))%nat by lia; apply Hgap; pose proof (Hsmall (i - 31)%nat ltac:(lia)); lia|].
  destruct (decide (i < 95)%nat); [replace (33 + i)%nat with (64 * 1 + (i - 31))%nat by lia; apply Hwin; lia|].
  replace (33 + i)%nat with (64 * 1 + 64 + (i - 95))%nat by lia. apply Hgap. pose proof (Hsmall (i - 95)%nat ltac:(lia)). lia.
Qed.

(** ** Claims *)

(** The sixteen bytes behave as one register of 128 bits: a step shifts it to the
    right and puts the exclusive or of four of its bits on top. A step can be
    undone, so the sequence has no dead ends, and a register that is not zero never
    becomes zero, from where it could not leave. *)
Theorem shift_register_never_stops r r' :
  lfsr_ok r -> lfsr_ok r' ->
  lfsr_ok (next r) /\ value (next r) = value r / 2 + 2 ^ 127 * Z.b2z (feedback (value r)) /\
  (next r = next r' -> r = r') /\ (value r ≠ 0 -> value (next r) ≠ 0).
Proof.
  intros O O'. destruct (next_spec r O) as [On Hv]. destruct (next_spec r' O') as [On' Hv']. pose proof (value_ok_range r O). pose proof (value_ok_range r' O'). split_and!; [done|done| |].
  - intros E. destruct O, O'. apply value_inj; [done|done|congruence|]. apply step_inj; [done|done|]. by rewrite <- Hv, <- Hv', E.
  - by apply next_nonzero.
Qed.

(** Every number [get] returns is even: the result is shifted once more after its
    last bit. *)
Theorem random_numbers_are_even r : Z.even (get r).1 = true.
Proof. by apply get_loop_even. Qed.

(** Of each half of the seed only the lowest byte is used. *)
Theorem seed_keeps_two_bytes high low : seed high low = [low mod 256; 0; 0; 0; 0; 0; 0; 0; high mod 256; 0; 0; 0; 0; 0; 0; 0].
Proof.
  assert (E : forall v, seed_bytes v = [v mod 256; 0; 0; 0; 0; 0; 0; 0]); [|unfold seed; by rewrite !E]. intros v. unfold seed_bytes, wrap8, wrap64.
  assert (Hk : forall k, 0 <= k < 8 -> (Z.shiftl v (8 * k) mod 2 ^ 64) mod 2 ^ 8 = if k =? 0 then v mod 256 else 0).
  { intros k Hk. rewrite Z.shiftl_mul_pow2 by lia. rewrite <- (Znumtheory.Zmod_div_mod (2 ^ 8) (2 ^ 64)) by (done || by exists (2 ^ 56)).
    destruct (Z.eqb_spec k 0) as [->|Hne]; [by rewrite Z.mul_1_r|]. replace (8 * k) with (8 * (k - 1) + 8) by lia. rewrite Z.pow_add_r, Z.mul_assoc by lia. apply Z_mod_mult. }
  cbn [fmap list_fmap]. rewrite !Hk by lia. done.
Qed.

Lemma new_LFSR_ok : lfsr_ok new_LFSR.
Proof. split; [done|]. apply (bool_decide_unpack _). vm_compute. done. Qed.

Lemma shift_register_never_stops_witness :
  lfsr_ok (next new_LFSR) /\ value (next new_LFSR) = value new_LFSR / 2 + 2 ^ 127 * Z.b2z (feedback (value new_LFSR)) /\
  (next new_LFSR = next new_LFSR -> new_LFSR = new_LFSR) /\ (value new_LFSR ≠ 0 -> value (next new_LFSR) ≠ 0).
Proof. apply (shift_register_never_stops new_LFSR new_LFSR new_LFSR_ok new_LFSR_ok). Defined.

End Lfsr.
