(* ===== verification/Lcg.v ===== *)
(** * Random numbers by a linear congruence

    Models src/kernel/src/random_lcg.h and random_lcg.cpp. *)

From S2P Require Import Prelude.

Module Lcg.

(** The state is a [u64]. *)
Definition seed (s : Z) : Z := s.
Definition next (state : Z) : Z := 1103515245 *64 state +64 12345.

Definition get (state : Z) : Z * Z := let state := next state in (state, state).

Definition get_max (max state : Z) : Z * Z :=
  if max =? 0 then (0, state) else let state := next state in (state mod max, state).

Definition get_range (min max state : Z) : Z * Z :=
  if (min =? 0) || (max =? 0) then get_max max state
  else
    let min := if max <=? min then max -64 1 else min in
    let state := next state in
    ((state mod (max -64 min)) +64 min, state).

(** A number from a range is in the range, [min] included and [max] not; a minimum
    that is not below the maximum is replaced by the largest number allowed. *)
Theorem lcg_range min max state : 0 <= min < 2 ^ 64 -> 0 < max < 2 ^ 64 ->
  let v := (get_range min max state).1 in (if max <=? min then v = max - 1 else min <= v) /\ 0 <= v < max.
Proof.
  intros Hmin Hmax. unfold get_range. rewrite (proj2 (Z.eqb_neq max 0)) by lia. rewrite orb_false_r.
  destruct (Z.eqb_spec min 0) as [->|Hne]; cbn [fst].
  { unfold get_max. rewrite (proj2 (Z.eqb_neq max 0)), (proj2 (Z.leb_gt max 0)) by lia. cbn [fst]. pose proof (Z.mod_pos_bound (next state) max). lia. }
  destruct (Z.leb_spec max min).
  - rewrite (wrap64_small (max - 1)) by (unfold is_u64; lia). replace (max - (max - 1)) with 1 by lia. change (wrap64 1) with 1. rewrite Z.mod_1_r, Z.add_0_l.
    rewrite wrap64_small by (unfold is_u64; lia). lia.
  - rewrite (wrap64_small (max - min)) by (unfold is_u64; lia). pose proof (Z.mod_pos_bound (next state) (max - min)). rewrite wrap64_small by (unfold is_u64; lia). lia.
Qed.

Lemma lcg_range_witness : let v := (get_range 5 8 42).1 in (if 8 <=? 5 then v = 8 - 1 else 5 <= v) /\ 0 <= v < 8.
Proof. apply (lcg_range 5 8 42); lia. Defined.

End Lcg.
