(* ===== verification/Renderer.v ===== *)
(** * The renderer

    Models src/kernel/src/basic_renderer.h and basic_renderer.cpp, less the
    constructor that maps the two framebuffers. Pixels are four bytes of memory; a
    position passed by reference is an argument and part of the result. *)

From S2P Require Import Prelude PhysMem FileMeta.

Definition read32 (m : mem) (a : Z) : Z := read_le 4 m a.
Definition write32 (m : mem) (a v : Z) : mem := write_le 4 m a v.

(** [Vector2<u64>] of math.h. *)
Record Vector2 := vec { x : Z; y : Z }.

Module Renderer.

Record Framebuffer := mkFramebuffer { BaseAddress : Z; BufferSize : Z; PixelWidth : Z; PixelHeight : Z; PixelsPerScanLine : Z }.

(** The font is its [CharacterSize] and the address of the glyphs. *)
Record BasicRenderer := mkRenderer { Render : Framebuffer; Target : Framebuffer; BackgroundColor : Z; CharacterSize : Z; GlyphBuffer : Z }.

Definition BytesPerPixel : Z := 4.

(** [pixel_ptr + x + (y * PixelsPerScanLine)] *)
Definition pixel (fb : Framebuffer) (px py : Z) : Z := wrap64 (BaseAddress fb + 4 * (px + py * PixelsPerScanLine fb)).

Definition clamp_draw_position (r : BasicRenderer) (p : Vector2) : Vector2 :=
  vec (if PixelWidth (Target r) <? x p then PixelWidth (Target r) else x p)
      (if PixelHeight (Target r) <? y p then PixelHeight (Target r) else y p).

(** The size cut off at the edges, with the differences as [u32]. *)
Definition cut (r : BasicRenderer) (p size : Vector2) : Vector2 :=
  let diffX := wrap32 (PixelWidth (Target r) - x p) in
  let diffY := wrap32 (PixelHeight (Target r) - y p) in
  vec (if diffX <? x size then diffX else x size) (if diffY <? y size then diffY else y size).

(** The two nested loops over the pixels of a rectangle. *)
Definition for_rect (f : Z -> Z -> mem -> mem) (p size : Vector2) (m : mem) : mem :=
  foldl (fun m py => foldl (fun m px => f px py m) m (seqZ (x p) (x size))) m (seqZ (y p) (y size)).

Definition drawrect (r : BasicRenderer) (p size : Vector2) (color : Z) (m : mem) : Vector2 * mem :=
  let p := clamp_draw_position r p in
  (p, for_rect (fun px py m => write32 m (pixel (Target r) px py) color) p (cut r p size) m).

(** Where pixel [(px, py)] is in a buffer of lines of [initX] pixels. *)
Definition buffer_pixel (buffer initX : Z) (p : Vector2) (px py : Z) : Z := wrap64 (buffer + 4 * ((px - x p) + (py - y p) * initX)).

Definition readpix (r : BasicRenderer) (p size : Vector2) (buffer : Z) (m : mem) : Vector2 * mem :=
  if buffer =? 0 then (p, m)
  else
    let p := clamp_draw_position r p in
    let initX := wrap32 (x size) in
    (p, for_rect (fun px py m => write32 m (buffer_pixel buffer initX p px py) (read32 m (pixel (Target r) px py))) p (cut r p size) m).

Definition drawpix (r : BasicRenderer) (p size : Vector2) (pixels : Z) (m : mem) : Vector2 * mem :=
  if pixels =? 0 then (p, m)
  else
    let p := clamp_draw_position r p in
    let initX := wrap32 (x size) in
    (p, for_rect (fun px py m => write32 m (pixel (Target r) px py) (read32 m (buffer_pixel pixels initX p px py))) p (cut r p size) m).

(** Conversion to [s32]. *)
Definition s32 (z : Z) : Z := (z + 2 ^ 31) mod 2 ^ 32 - 2 ^ 31.

(** The bit of a bitmap for pixel [(px, py)]. *)
Definition bitmap_bit (bitmap initX : Z) (p : Vector2) (px py : Z) (m : mem) : bool :=
  let byte := s32 (wrap64 ((px - x p) + (py - y p) * initX) / 8) in
  0 <? Z.land (read8 m (bitmap + byte)) (Z.shiftr 128 ((px - x p) mod 8)).

Definition drawbmp (r : BasicRenderer) (p size : Vector2) (bitmap color : Z) (m : mem) : Vector2 * mem :=
  if bitmap =? 0 then (p, m)
  else
    let p := clamp_draw_position r p in
    let initX := wrap32 (x size) in
    (p, for_rect (fun px py m => write32 m (pixel (Target r) px py) (if bitmap_bit bitmap initX p px py m then color else BackgroundColor r)) p (cut r p size) m).

Definition drawbmpover (r : BasicRenderer) (p size : Vector2) (bitmap color : Z) (m : mem) : Vector2 * mem :=
  if bitmap =? 0 then (p, m)
  else
    let p := clamp_draw_position r p in
    let initX := wrap32 (x size) in
    (p, for_rect (fun px py m => if bitmap_bit bitmap initX p px py m then write32 m (pixel (Target r) px py) color else m) p (cut r p size) m).

(** A [char], which is signed. *)
Definition glyph (r : BasicRenderer) (c : Z) : Z := wrap64 (GlyphBuffer r + (if c <? 128 then c else c - 256) * CharacterSize r).

Definition drawchar (r : BasicRenderer) (p : Vector2) (c color : Z) (m : mem) : Vector2 * mem :=
  drawbmp r p (vec 8 (CharacterSize r)) (glyph r c) color m.

Definition drawcharover (r : BasicRenderer) (p : Vector2) (c color : Z) (m : mem) : Vector2 * mem :=
  drawbmpover r p (vec 8 (CharacterSize r)) (glyph r c) color m.

Definition cret (p : Vector2) : Vector2 := vec 0 (y p).
Definition newl (r : BasicRenderer) (p : Vector2) : Vector2 := vec (x p) (y p +64 CharacterSize r).
Definition crlf (r : BasicRenderer) (p : Vector2) : Vector2 := vec 0 (y p +64 CharacterSize r).
Definition crlf_offset (r : BasicRenderer) (p : Vector2) (offset : Z) : Vector2 := vec offset (y p +64 CharacterSize r).

Definition putchar (r : BasicRenderer) (p : Vector2) (c color : Z) (m : mem) : Vector2 * mem :=
  if c =? 10 then (crlf r p, m)
  else
    let '(p, m) := drawchar r p c color m in
    let p := vec (x p +64 8) (y p) in
    (if PixelWidth (Target r) <? x p +64 8 then crlf r p else p, m).

Fixpoint puts (r : BasicRenderer) (p : Vector2) (str : list Z) (color : Z) (m : mem) : Vector2 * mem :=
  match str with
  | [] => (p, m)
  | c :: str => let '(p, m) := putchar r p c color m in puts r p str color m
  end.

(** The whole of the target. *)
Definition clear (r : BasicRenderer) (m : mem) : mem :=
  for_rect (fun px py m => write32 m (pixel (Target r) px py) (BackgroundColor r)) (vec 0 0) (vec (PixelWidth (Target r)) (PixelHeight (Target r))) m.

Definition with_background (color : Z) (r : BasicRenderer) : BasicRenderer := mkRenderer (Render r) (Target r) color (CharacterSize r) (GlyphBuffer r).

Definition clear_color (color : Z) (r : BasicRenderer) (m : mem) : BasicRenderer * mem :=
  let r := with_background color r in (r, clear r m).

(** The size cut off at the edges in [swap] and [clear], as [u64]. *)
Definition cut64 (r : BasicRenderer) (p size : Vector2) : Vector2 :=
  let diffX := PixelWidth (Target r) -64 x p in
  let diffY := PixelHeight (Target r) -64 y p in
  vec (if diffX <? x size then diffX else x size) (if diffY <? y size then diffY else y size).

(** A rectangle, of the framebuffer that is on the screen. *)
Definition clear_rect (r : BasicRenderer) (p size : Vector2) (m : mem) : mem :=
  if (PixelWidth (Target r) <? x p) || (PixelHeight (Target r) <? y p) then m
  else for_rect (fun px py m => write32 m (pixel (Render r) px py) (BackgroundColor r)) p (cut64 r p size) m.

Definition clear_rect_color (color : Z) (r : BasicRenderer) (p size : Vector2) (m : mem) : BasicRenderer * mem :=
  let r := with_background color r in (r, clear_rect r p size m).

Definition clearchar (r : BasicRenderer) (p : Vector2) (m : mem) : Vector2 * mem :=
  let p :=
    if x p <? 8 then
      if CharacterSize r <=? y p then vec (PixelWidth (Target r)) (y p - CharacterSize r) else vec 8 0
    else p in
  drawrect r (vec (x p -64 8) (y p)) (vec 8 (CharacterSize r)) (BackgroundColor r) m.

(** The loop of [swap], line by line. *)
Fixpoint swap_lines (n : nat) (r : BasicRenderer) (targetBaseAddress renderBaseAddress bytesPerLine : Z) (m : mem) : mem :=
  match n with
  | O => m
  | S n =>
      let m := MemRoutines.memcpy renderBaseAddress targetBaseAddress bytesPerLine m in
      swap_lines n r (targetBaseAddress +64 4 * PixelsPerScanLine (Target r)) (renderBaseAddress +64 4 * PixelsPerScanLine (Render r)) bytesPerLine m
  end.

Definition swap (r : BasicRenderer) (p size : Vector2) (m : mem) : mem :=
  if BaseAddress (Render r) =? BaseAddress (Target r) then m
  else if (PixelWidth (Target r) <? x p) || (PixelHeight (Target r) <? y p) then m
  else
    let size := cut64 r p size in
    let offset := wrap64 (BytesPerPixel * x p + BytesPerPixel * y p * PixelsPerScanLine (Target r)) in
    swap_lines (Z.to_nat (y size)) r (BaseAddress (Target r) +64 offset) (BaseAddress (Render r) +64 offset) (BytesPerPixel *64 x size) m.

Definition swap_all (r : BasicRenderer) (m : mem) : mem :=
  MemRoutines.memcpy (BaseAddress (Render r)) (BaseAddress (Target r)) (BufferSize (Target r)) m.

(** ** Painting *)

Definition coords (p size : Vector2) : list (Z * Z) := seqZ (y p) (y size) ≫= fun py => (fun px => (px, py)) <$> seqZ (x p) (x size).

Lemma elem_of_coords p size px py : (px, py) ∈ coords p size <-> x p <= px < x p + x size /\ y p <= py < y p + y size.
Proof.
  unfold coords. rewrite list_elem_of_bind. split.
  - intros (py' & Hpx & Hpy). apply list_elem_of_fmap in Hpx as (px' & [= -> ->] & Hpx). apply elem_of_seqZ in Hpx, Hpy. lia.
  - intros [Hx Hy]. exists py. rewrite list_elem_of_fmap, elem_of_seqZ. split; [|lia]. exists px. rewrite elem_of_seqZ. split; [done|lia].
Qed.

Lemma NoDup_coords p size : NoDup (coords p size).
Proof.
  unfold coords. generalize (NoDup_seqZ (y p) (y size)). generalize (seqZ (y p) (y size)). intros l Hl. induction Hl as [|py l Hn Hl IH]; [constructor|]. cbn [mbind list_bind].
  apply NoDup_app. split_and!; [apply NoDup_fmap_2; [by intros ? ? [= ->]|apply NoDup_seqZ]| |done].
  intros [px py'] H1 H2. apply list_elem_of_fmap in H1 as (? & [= -> ->] & _). apply list_elem_of_bind in H2 as (? & H2 & Hin). by apply list_elem_of_fmap in H2 as (? & [= _ ->] & _).
Qed.

Lemma for_rect_coords f p size m : for_rect f p size m = foldl (fun m c => f c.1 c.2 m) m (coords p size).
Proof.
  unfold for_rect, coords. revert m. induction (seqZ (y p) (y size)) as [|py l IH]; intros m; [done|]. cbn [foldl mbind list_bind]. rewrite IH, foldl_app. f_equal.
  generalize (seqZ (x p) (x size)). intros k. revert m. clear. induction k as [|px k IH]; intros m; [done|]. cbn. apply IH.
Qed.

(** Pixels are stored one after the other, some left out. *)
Definition paint (A : Z * Z -> Z) (V : Z * Z -> mem -> option Z) (l : list (Z * Z)) (m : mem) : mem :=
  foldl (fun m c => match V c m with Some v => write32 m (A c) v | None => m end) m l.

(** When the places are apart and what is stored does not depend on them, each
    place gets its value and nothing else changes. *)
Lemma paint_spec A V l m :
  NoDup l -> (forall c d, c ∈ l -> d ∈ l -> c ≠ d -> A c + 4 <= A d \/ A d + 4 <= A c) ->
  (forall c d m v, c ∈ l -> d ∈ l -> V c (write32 m (A d) v) = V c m) ->
  (forall z, (forall c, c ∈ l -> is_Some (V c m) -> z < A c \/ A c + 4 <= z) -> read8 (paint A V l m) z = read8 m z) /\
  (forall c v, c ∈ l -> V c m = Some v -> read32 (paint A V l m) (A c) = v mod 2 ^ 32).
Proof.
  intros Hnd. revert m. induction Hnd as [|c l Hc Hnd IH]; intros m Hd Hi; [split; [done|intros c v Hc; by apply not_elem_of_nil in Hc]|].
  cbn [paint foldl]. set (m1 := match V c m with Some v => write32 m (A c) v | None => m end). fold (paint A V l m1).
  assert (HV : forall d, d ∈ l -> V d m1 = V d m) by (intros d Hdl; unfold m1; destruct (V c m); [apply Hi; [by right|by left]|done]).
  assert (Hm1 : forall z, (is_Some (V c m) -> z < A c \/ A c + 4 <= z) -> read8 m1 z = read8 m z).
  { intros z Hz. unfold m1. destruct (V c m); [|done]. apply write_le_frame. apply Hz. by eexists. }
  destruct (IH m1) as [IH1 IH2]; [intros d e Hd1 He1; apply Hd; by right|intros d e m2 v Hd1 He1; apply Hi; by right|]. split.
  - intros z Hz. rewrite IH1, Hm1; [done|apply Hz; by left|]. intros d Hdl. rewrite HV by done. apply Hz. by right.
  - intros d v [->|Hdl]%elem_of_cons Hv.
    + assert (E : read32 (paint A V l m1) (A c) = read32 m1 (A c)).
      { apply read_le_ext. intros k Hk. apply IH1. intros e He _. destruct (Hd c e) as [H|H]; [by left|by right|by intros <-|lia|lia]. }
      rewrite E. unfold m1. rewrite Hv. apply (read_write_le 4).
    + apply IH2; [done|]. by rewrite HV.
Qed.

(** ** Framebuffers *)

Record fb_ok (fb : Framebuffer) : Prop := {
  fb_base : 0 <= BaseAddress fb;
  fb_width : 0 <= PixelWidth fb <= PixelsPerScanLine fb;
  fb_line : PixelsPerScanLine fb < 2 ^ 32;
  fb_height : 0 <= PixelHeight fb < 2 ^ 32;
  fb_end : BaseAddress fb + 4 * (PixelsPerScanLine fb * PixelHeight fb) < 2 ^ 64
}.

(** Where the framebuffer ends. *)
Definition fb_limit (fb : Framebuffer) : Z := BaseAddress fb + 4 * (PixelsPerScanLine fb * PixelHeight fb).

Definition on_screen (fb : Framebuffer) (px py : Z) : Prop := 0 <= px < PixelWidth fb /\ 0 <= py < PixelHeight fb.

Lemma pixel_plain fb px py : fb_ok fb -> on_screen fb px py ->
  pixel fb px py = BaseAddress fb + 4 * (px + py * PixelsPerScanLine fb) /\ BaseAddress fb <= pixel fb px py /\ pixel fb px py + 4 <= fb_limit fb.
Proof.
  intros [H1 H2 H3 H4 H5] [Hx Hy]. unfold fb_limit. assert (py * PixelsPerScanLine fb + PixelsPerScanLine fb <= PixelsPerScanLine fb * PixelHeight fb) by nia.
  assert (0 <= py * PixelsPerScanLine fb) by nia. unfold pixel. rewrite wrap64_small by (unfold is_u64; lia). lia.
Qed.

Lemma pixel_apart fb px py qx qy : fb_ok fb -> on_screen fb px py -> on_screen fb qx qy -> (px, py) ≠ (qx, qy) ->
  pixel fb px py + 4 <= pixel fb qx qy \/ pixel fb qx qy + 4 <= pixel fb px py.
Proof.
  intros O Hp Hq Hne. destruct (pixel_plain fb px py O Hp) as [-> _]. destruct (pixel_plain fb qx qy O Hq) as [-> _].
  destruct O as [_ Hw _ _ _], Hp as [Hpx Hpy], Hq as [Hqx Hqy]. destruct (Z.lt_trichotomy py qy) as [Hlt|[->|Hgt]]; [left; nia| |right; nia].
  assert (px ≠ qx) by congruence. lia.
Qed.

(** The position and the size that are used for drawing are within the screen. *)
Lemma clamp_cut r p size : fb_ok (Target r) -> 0 <= x p -> 0 <= y p -> 0 <= x size -> 0 <= y size ->
  let p' := clamp_draw_position r p in let s := cut r p' size in
  0 <= x p' <= PixelWidth (Target r) /\ 0 <= y p' <= PixelHeight (Target r) /\
  x s = Z.min (x size) (PixelWidth (Target r) - x p') /\ y s = Z.min (y size) (PixelHeight (Target r) - y p').
Proof.
  intros [_ Hw Hl Hh _] Hx Hy Hsx Hsy. cbv zeta. set (p' := clamp_draw_position r p).
  assert (0 <= x p' <= PixelWidth (Target r) /\ 0 <= y p' <= PixelHeight (Target r)) as [Hx' Hy'].
  { unfold p', clamp_draw_position. cbn. destruct (Z.ltb_spec (PixelWidth (Target r)) (x p)), (Z.ltb_spec (PixelHeight (Target r)) (y p)); lia. }
  clearbody p'. split_and!; try lia; unfold cut; cbn; unfold wrap32; rewrite Z.mod_small by lia;
    [destruct (Z.ltb_spec (PixelWidth (Target r) - x p') (x size))|destruct (Z.ltb_spec (PixelHeight (Target r) - y p') (y size))]; lia.
Qed.

Lemma coords_on_screen r p size px py : fb_ok (Target r) -> 0 <= x p -> 0 <= y p -> 0 <= x size -> 0 <= y size ->
  let p' := clamp_draw_position r p in (px, py) ∈ coords p' (cut r p' size) ->
  on_screen (Target r) px py /\ 0 <= px - x p' < x size /\ 0 <= py - y p' < y size.
Proof.
  intros O Hx Hy Hsx Hsy p' [Hpx Hpy]%elem_of_coords. destruct (clamp_cut r p size O Hx Hy Hsx Hsy) as (H1 & H2 & H3 & H4). fold p' in H1, H2, H3, H4.
  unfold on_screen. lia.
Qed.

(** ** What the operations store *)

Lemma for_rect_paint A V f p size m : (forall px py m, f px py m = match V (px, py) m with Some v => write32 m (A (px, py)) v | None => m end) ->
  for_rect f p size m = paint A V (coords p size) m.
Proof.
  intros Hf. rewrite for_rect_coords. unfold paint. revert m. induction (coords p size) as [|[px py] l IH]; intros m; [done|]. cbn [foldl fst snd]. by rewrite Hf, IH.
Qed.

Lemma paint_frame A V l m z : (forall c, c ∈ l -> z < A c \/ A c + 4 <= z) -> read8 (paint A V l m) z = read8 m z.
Proof.
  revert m. induction l as [|c l IH]; intros m Hz; [done|]. cbn [paint foldl]. fold (paint A V l (match V c m with Some v => write32 m (A c) v | None => m end)).
  rewrite IH by (intros d Hd; apply Hz; by right). destruct (V c m); [|done]. apply write_le_frame, Hz. by left.
Qed.

(** The place of a pixel of the target. *)
Definition target_place (r : BasicRenderer) (c : Z * Z) : Z := pixel (Target r) c.1 c.2.

Lemma drawrect_paint r p size color m : (drawrect r p size color m).2 = paint (target_place r) (fun _ _ => Some color) (coords (clamp_draw_position r p) (cut r (clamp_draw_position r p) size)) m.
Proof. by apply for_rect_paint. Qed.

Lemma drawpix_paint r p size pixels m : pixels ≠ 0 -> (drawpix r p size pixels m).2 =
  paint (target_place r) (fun c m => Some (read32 m (buffer_pixel pixels (wrap32 (x size)) (clamp_draw_position r p) c.1 c.2))) (coords (clamp_draw_position r p) (cut r (clamp_draw_position r p) size)) m.
Proof. intros H. unfold drawpix. rewrite (proj2 (Z.eqb_neq _ _)) by done. by apply for_rect_paint. Qed.

Lemma readpix_paint r p size buffer m : buffer ≠ 0 -> (readpix r p size buffer m).2 =
  paint (fun c => buffer_pixel buffer (wrap32 (x size)) (clamp_draw_position r p) c.1 c.2) (fun c m => Some (read32 m (target_place r c))) (coords (clamp_draw_position r p) (cut r (clamp_draw_position r p) size)) m.
Proof. intros H. unfold readpix. rewrite (proj2 (Z.eqb_neq _ _)) by done. by apply for_rect_paint. Qed.

Lemma drawbmp_paint r p size bitmap color m : bitmap ≠ 0 -> (drawbmp r p size bitmap color m).2 =
  paint (target_place r) (fun c m => Some (if bitmap_bit bitmap (wrap32 (x size)) (clamp_draw_position r p) c.1 c.2 m then color else BackgroundColor r)) (coords (clamp_draw_position r p) (cut r (clamp_draw_position r p) size)) m.
Proof. intros H. unfold drawbmp. rewrite (proj2 (Z.eqb_neq _ _)) by done. by apply for_rect_paint. Qed.

Lemma drawbmpover_paint r p size bitmap color m : bitmap ≠ 0 -> (drawbmpover r p size bitmap color m).2 =
  paint (target_place r) (fun c m => if bitmap_bit bitmap (wrap32 (x size)) (clamp_draw_position r p) c.1 c.2 m then Some color else None) (coords (clamp_draw_position r p) (cut r (clamp_draw_position r p) size)) m.
Proof. intros H. unfold drawbmpover. rewrite (proj2 (Z.eqb_neq _ _)) by done. apply for_rect_paint. intros px py m'. cbn [fst snd]. by destruct (bitmap_bit _ _ _ px py m'). Qed.

(** A vector of [u64]. *)
Definition vec_ok (p : Vector2) : Prop := 0 <= x p < 2 ^ 64 /\ 0 <= y p < 2 ^ 64.

Definition outside (fb : Framebuffer) (z : Z) : Prop := z < BaseAddress fb \/ fb_limit fb <= z.

Lemma paint_on_target r V p size m z : fb_ok (Target r) -> vec_ok p -> vec_ok size -> outside (Target r) z ->
  read8 (paint (target_place r) V (coords (clamp_draw_position r p) (cut r (clamp_draw_position r p) size)) m) z = read8 m z.
Proof.
  intros O [Hx Hy] [Hsx Hsy] Hz. apply paint_frame. intros [px py] Hc. apply coords_on_screen in Hc as (Hs & _); [|done|lia|lia|lia|lia].
  destruct (pixel_plain (Target r) px py O Hs) as (_ & Hlo & Hhi). unfold target_place, outside in *. cbn. lia.
Qed.

Lemma clamp_ok r p : fb_ok (Target r) -> vec_ok p -> vec_ok (clamp_draw_position r p).
Proof.
  intros [_ Hw Hl Hh _] [Hx Hy]. unfold vec_ok, clamp_draw_position. cbn.
  destruct (Z.ltb_spec (PixelWidth (Target r)) (x p)), (Z.ltb_spec (PixelHeight (Target r)) (y p)); lia.
Qed.

Lemma drawchar_spec r p c color m z : fb_ok (Target r) -> 0 <= CharacterSize r < 256 -> vec_ok p -> outside (Target r) z ->
  read8 (drawchar r p c color m).2 z = read8 m z /\ vec_ok (drawchar r p c color m).1.
Proof.
  intros O Hc Hp Hz. unfold drawchar. destruct (Z.eqb_spec (glyph r c) 0) as [E|N].
  - unfold drawbmp. by rewrite E.
  - rewrite drawbmp_paint, paint_on_target; [|done|done|split; cbn; lia|done|done]. split; [done|]. unfold drawbmp. rewrite (proj2 (Z.eqb_neq _ _)) by done. by apply clamp_ok.
Qed.

Lemma crlf_ok r p : vec_ok (crlf r p).
Proof. split; cbn; [lia|]. apply wrap64_range. Qed.

Lemma putchar_spec r p c color m z : fb_ok (Target r) -> 0 <= CharacterSize r < 256 -> vec_ok p -> outside (Target r) z ->
  read8 (putchar r p c color m).2 z = read8 m z /\ vec_ok (putchar r p c color m).1.
Proof.
  intros O Hc Hp Hz. unfold putchar. destruct (c =? 10); [split; [done|apply crlf_ok]|].
  destruct (drawchar_spec r p c color m z O Hc Hp Hz) as [Hr Hv]. destruct (drawchar r p c color m) as [p' m']. cbn [fst snd] in *. split; [done|].
  destruct (_ <? _); [apply crlf_ok|]. split; cbn; [apply wrap64_range|apply Hv].
Qed.

Lemma puts_spec r p str color m z : fb_ok (Target r) -> 0 <= CharacterSize r < 256 -> vec_ok p -> outside (Target r) z -> read8 (puts r p str color m).2 z = read8 m z.
Proof.
  intros O Hc. revert p m. induction str as [|c str IH]; intros p m Hp Hz; cbn [puts]; [done|].
  destruct (putchar_spec r p c color m z O Hc Hp Hz) as [Hr Hv]. destruct (putchar r p c color m) as [p' m']. cbn [fst snd] in *. by rewrite IH.
Qed.

Lemma clearchar_spec r p m z : fb_ok (Target r) -> 0 <= CharacterSize r < 256 -> vec_ok p -> outside (Target r) z -> read8 (clearchar r p m).2 z = read8 m z.
Proof.
  intros O Hc Hp Hz. unfold clearchar. rewrite drawrect_paint. apply paint_on_target; [done| |split; cbn; lia|done].
  split; cbn; [apply wrap64_range|]. destruct Hp. destruct (x p <? 8); [|lia]. destruct (Z.leb_spec (CharacterSize r) (y p)); cbn; lia.
Qed.

Lemma clear_spec r m z : fb_ok (Target r) -> outside (Target r) z -> read8 (clear r m) z = read8 m z.
Proof.
  intros O Hz. unfold clear. rewrite (for_rect_paint (target_place r) (fun _ _ => Some (BackgroundColor r))) by done. apply paint_frame.
  intros [px py] [Hx Hy]%elem_of_coords. cbn in Hx, Hy. destruct (pixel_plain (Target r) px py O) as (_ & Hlo & Hhi); [split; lia|]. unfold target_place, outside in *. cbn. lia.
Qed.

(** ** Saving and restoring *)

(** A buffer of [w] times [h] pixels, as a framebuffer. *)
Definition buffer_fb (buffer w h : Z) : Framebuffer := mkFramebuffer buffer 0 w h w.

Lemma buffer_place buffer w h p px py : fb_ok (buffer_fb buffer w h) -> 0 <= px - x p < w -> 0 <= py - y p < h ->
  buffer_pixel buffer w p px py = pixel (buffer_fb buffer w h) (px - x p) (py - y p) /\
  buffer <= buffer_pixel buffer w p px py /\ buffer_pixel buffer w p px py + 4 <= buffer + 4 * (w * h).
Proof.
  intros O Hx Hy. change (buffer_pixel buffer w p px py) with (pixel (buffer_fb buffer w h) (px - x p) (py - y p)).
  destruct (pixel_plain (buffer_fb buffer w h) (px - x p) (py - y p) O) as (_ & Hlo & Hhi); [done|]. done.
Qed.

Section Saved.
Context (r : BasicRenderer) (p size : Vector2) (buffer : Z).
Context (O : fb_ok (Target r)) (OB : fb_ok (buffer_fb buffer (x size) (y size))) (Hb : buffer ≠ 0) (Hp : vec_ok p).
Context (Hd : buffer + 4 * (x size * y size) <= BaseAddress (Target r) \/ fb_limit (Target r) <= buffer).
Local Notation p' := (clamp_draw_position r p).
Local Notation area := (coords p' (cut r p' size)).
Local Notation place := (fun c : Z * Z => buffer_pixel buffer (wrap32 (x size)) p' c.1 c.2).

Lemma size_width : wrap32 (x size) = x size /\ 0 <= x size /\ 0 <= y size.
Proof. destruct OB as [_ H1 H2 H3 _]. cbn in *. split; [|lia]. apply Z.mod_small. lia. Qed.

Lemma area_places c : c ∈ area ->
  (BaseAddress (Target r) <= target_place r c /\ target_place r c + 4 <= fb_limit (Target r)) /\ (buffer <= place c /\ place c + 4 <= buffer + 4 * (x size * y size)).
Proof.
  intros Hc. destruct c as [px py]. destruct size_width as (Hw & Hsx & Hsy). destruct Hp. apply coords_on_screen in Hc as (Hs & Hx & Hy); [|done|lia|lia|lia|lia].
  cbn [fst snd]. rewrite Hw. destruct (pixel_plain (Target r) px py O Hs) as (_ & H1). destruct (buffer_place buffer (x size) (y size) p' px py OB Hx Hy) as (_ & H2). done.
Qed.

Lemma area_apart c d : c ∈ area -> d ∈ area -> c ≠ d ->
  (target_place r c + 4 <= target_place r d \/ target_place r d + 4 <= target_place r c) /\ (place c + 4 <= place d \/ place d + 4 <= place c).
Proof.
  intros Hc Hdd Hne. destruct c as [px py], d as [qx qy]. destruct size_width as (Hw & Hsx & Hsy). destruct Hp.
  apply coords_on_screen in Hc as (Hs & Hx & Hy); [|done|lia|lia|lia|lia]. apply coords_on_screen in Hdd as (Hs' & Hx' & Hy'); [|done|lia|lia|lia|lia]. cbn [fst snd]. rewrite Hw.
  split; [by apply pixel_apart|]. destruct (buffer_place buffer (x size) (y size) p' px py OB Hx Hy) as (-> & _). destruct (buffer_place buffer (x size) (y size) p' qx qy OB Hx' Hy') as (-> & _).
  apply pixel_apart; [done|done|done|]. intros [= E1 E2]. apply Hne. f_equal; lia.
Qed.

Lemma read32_write32_ne m a b v : a + 4 <= b \/ b + 4 <= a -> read32 (write32 m a v) b = read32 m b.
Proof. intros H. apply read_le_ext. intros k Hk. apply write_le_frame. lia. Qed.

(** The buffer has the pixels, and nothing else has changed. *)
Lemma readpix_spec m : 
  (forall c, c ∈ area -> read32 (readpix r p size buffer m).2 (place c) = read32 m (target_place r c)) /\
  (forall z, z < buffer \/ buffer + 4 * (x size * y size) <= z -> read8 (readpix r p size buffer m).2 z = read8 m z).
Proof.
  rewrite readpix_paint by done.
  destruct (paint_spec place (fun c m => Some (read32 m (target_place r c))) area m (NoDup_coords _ _)) as [Hfr Hval].
  - intros c e Hc He Hne. by apply area_apart.
  - intros c e m1 v Hc He. f_equal. apply read32_write32_ne. destruct (area_places c Hc) as [H1 _]. destruct (area_places e He) as [_ H2]. cbn beta in *. unfold fb_limit in *. lia.
  - split.
    + intros c Hc. rewrite (Hval c _ Hc eq_refl). apply Z.mod_small. pose proof (read_le_range 4 m (target_place r c)). unfold read32. cbn in *. lia.
    + intros z Hz. apply Hfr. intros c Hc _. destruct (area_places c Hc) as [_ H2]. cbn beta in *. lia.
Qed.

(** The pixels of the target are those of the buffer, and nothing else has changed. *)
Lemma drawpix_spec m :
  (forall c, c ∈ area -> read32 (drawpix r p size buffer m).2 (target_place r c) = read32 m (place c)) /\
  (forall z, (forall c, c ∈ area -> z < target_place r c \/ target_place r c + 4 <= z) -> read8 (drawpix r p size buffer m).2 z = read8 m z).
Proof.
  rewrite drawpix_paint by done.
  destruct (paint_spec (target_place r) (fun c m => Some (read32 m (place c))) area m (NoDup_coords _ _)) as [Hfr Hval].
  - intros c e Hc He Hne. by apply area_apart.
  - intros c e m1 v Hc He. f_equal. apply read32_write32_ne. destruct (area_places c Hc) as [_ H1]. destruct (area_places e He) as [H2 _]. cbn beta in *. unfold fb_limit in *. lia.
  - split.
    + intros c Hc. rewrite (Hval c _ Hc eq_refl). apply Z.mod_small. pose proof (read_le_range 4 m (place c)). unfold read32. cbn in *. lia.
    + intros z Hz. apply Hfr. intros c Hc _. by apply Hz.
Qed.

Lemma clamp_idem : clamp_draw_position r p' = p'.
Proof.
  destruct (clamp_cut r p size O) as (H1 & H2 & _); [apply Hp|apply Hp|apply size_width|apply size_width|]. set (q := p') in *. clearbody q.
  unfold clamp_draw_position. rewrite (proj2 (Z.ltb_ge _ _)), (proj2 (Z.ltb_ge _ _)) by lia. by destruct q.
Qed.

End Saved.

(** The lines are copied, and nothing else changes; [L] is the distance of two lines. *)
Lemma swap_lines_spec n r tb rb len L m :
  PixelsPerScanLine (Target r) = PixelsPerScanLine (Render r) -> 4 * PixelsPerScanLine (Target r) = L -> 0 <= len <= L -> 0 <= tb -> 0 <= rb ->
  tb + (Z.of_nat n - 1) * L < 2 ^ 64 -> rb + (Z.of_nat n - 1) * L < 2 ^ 64 -> tb + (Z.of_nat n - 1) * L + len <= rb \/ rb + (Z.of_nat n - 1) * L + len <= tb ->
  (forall j k, 0 <= j < Z.of_nat n -> 0 <= k < len -> read8 (swap_lines n r tb rb len m) (rb + j * L + k) = read8 m (tb + j * L + k)) /\
  (forall z, (forall j, 0 <= j < Z.of_nat n -> z < rb + j * L \/ rb + j * L + len <= z) -> read8 (swap_lines n r tb rb len m) z = read8 m z).
Proof.
  intros Hs HL Hlen. revert tb rb m. induction n as [|n IH]; intros tb rb m Ht Hr Ht2 Hr2 Hd; [split; [lia|done]|]. cbn [swap_lines]. rewrite <- Hs, HL.
  assert (Z.of_nat (S n) * L = Z.of_nat n * L + L) as En by lia. assert ((Z.of_nat (S n) - 1) * L = Z.of_nat n * L) as En1 by lia. assert ((Z.of_nat n - 1) * L = Z.of_nat n * L - L) as En2 by lia. rewrite En1 in *. clear En. assert (0 <= Z.of_nat n * L) by nia.
  destruct (decide (n = 0%nat)) as [->|Hn0].
  { cbn [swap_lines]. split.
    - intros j k Hj Hk. assert (j = 0) as -> by lia. rewrite memcpy_read8, decide_True by lia. f_equal. lia.
    - intros z Hz. specialize (Hz 0 ltac:(lia)). by rewrite memcpy_read8, decide_False by lia. }
  assert (1 * L <= Z.of_nat n * L) by nia. rewrite !wrap64_small by (unfold is_u64; lia).
  destruct (IH (tb + L) (rb + L) (MemRoutines.memcpy rb tb len m)) as [IH1 IH2]; [lia|lia|lia|lia|lia|]. split.
  - intros j k Hj Hk. destruct (Z.eq_dec j 0) as [->|Hj0].
    + rewrite IH2 by (intros i Hi; left; nia). rewrite memcpy_read8, decide_True by lia. f_equal. lia.
    + replace (rb + j * L + k) with (rb + L + (j - 1) * L + k) by lia. rewrite IH1 by lia. rewrite memcpy_read8 by lia.
      assert (0 <= (j - 1) * L /\ (j - 1) * L + L <= Z.of_nat n * L) by nia. rewrite decide_False by lia. f_equal. lia.
  - intros z Hz. rewrite IH2; [|intros j Hj; specialize (Hz (j + 1) ltac:(lia)); lia]. specialize (Hz 0 ltac:(lia)). by rewrite memcpy_read8, decide_False by lia.
Qed.

(** ** Claims *)

(** The drawing operations, on any position and size. *)
Inductive drawing :=
| d_rect (p size : Vector2) (color : Z)
| d_pix (p size : Vector2) (pixels : Z)
| d_bmp (p size : Vector2) (bitmap color : Z)
| d_bmpover (p size : Vector2) (bitmap color : Z)
| d_puts (p : Vector2) (str : list Z) (color : Z)
| d_clearchar (p : Vector2)
| d_clear.

Definition draw (r : BasicRenderer) (d : drawing) (m : mem) : mem :=
  match d with
  | d_rect p size color => (drawrect r p size color m).2
  | d_pix p size pixels => (drawpix r p size pixels m).2
  | d_bmp p size bitmap color => (drawbmp r p size bitmap color m).2
  | d_bmpover p size bitmap color => (drawbmpover r p size bitmap color m).2
  | d_puts p str color => (puts r p str color m).2
  | d_clearchar p => (clearchar r p m).2
  | d_clear => clear r m
  end.

Definition drawing_ok (d : drawing) : Prop :=
  match d with
  | d_rect p size _ | d_pix p size _ | d_bmp p size _ _ | d_bmpover p size _ _ => vec_ok p /\ vec_ok size
  | d_puts p _ _ | d_clearchar p => vec_ok p
  | d_clear => True
  end.

Lemma draw_frame r d m z : fb_ok (Target r) -> 0 <= CharacterSize r < 256 -> drawing_ok d -> outside (Target r) z -> read8 (draw r d m) z = read8 m z.
Proof.
  intros O Hc Hd Hz. destruct d; cbn [draw drawing_ok] in *.
  - rewrite drawrect_paint. apply paint_on_target; tauto.
  - destruct (Z.eq_dec pixels 0) as [->|]; [done|]. rewrite drawpix_paint by done. apply paint_on_target; tauto.
  - destruct (Z.eq_dec bitmap 0) as [->|]; [done|]. rewrite drawbmp_paint by done. apply paint_on_target; tauto.
  - destruct (Z.eq_dec bitmap 0) as [->|]; [done|]. rewrite drawbmpover_paint by done. apply paint_on_target; tauto.
  - by apply puts_spec.
  - by apply clearchar_spec.
  - by apply clear_spec.
Qed.

(** C36: However text, rectangles, pixels and bitmaps are drawn, at whatever position and
    in whatever size, no byte outside the target framebuffer changes. The framebuffer may
    lie anywhere in the address space, with fewer than 2^32 lines of fewer than 2^32
    pixels, and lines at least as long as the screen is wide. *)
Theorem drawing_stays_in_the_framebuffer r ds m z :
  fb_ok (Target r) -> 0 <= CharacterSize r < 256 -> Forall drawing_ok ds -> outside (Target r) z ->
  read8 (foldl (fun m d => draw r d m) m ds) z = read8 m z.
Proof. intros O Hc Hds Hz. revert m. induction Hds as [|d ds Hd Hds IH]; intros m; [done|]. cbn [foldl]. by rewrite IH, draw_frame. Qed.

(** A cursor leaves no trace: reading the pixels under it, drawing it over them and
    drawing the pixels back changes nothing but the buffer they were kept in. *)
Theorem cursor_leaves_no_trace r p size buffer bitmap color m z :
  fb_ok (Target r) -> fb_ok (buffer_fb buffer (x size) (y size)) -> buffer ≠ 0 -> bitmap ≠ 0 -> vec_ok p ->
  buffer + 4 * (x size * y size) <= BaseAddress (Target r) \/ fb_limit (Target r) <= buffer ->
  z < buffer \/ buffer + 4 * (x size * y size) <= z ->
  let '(p1, m1) := readpix r p size buffer m in
  let '(p2, m2) := drawbmpover r p1 size bitmap color m1 in
  read8 (drawpix r p2 size buffer m2).2 z = read8 m z.
Proof.
  intros O OB Hb Hbm Hp Hd Hz. destruct (readpix_spec r p size buffer O OB Hb Hp Hd m) as [Hsave Hkeep]. set (m1 := (readpix r p size buffer m).2) in *.
  set (p1 := clamp_draw_position r p) in *. assert (Hidem : clamp_draw_position r p1 = p1) by (by apply (clamp_idem r p size buffer)).
  assert (Er : readpix r p size buffer m = (p1, m1)) by (unfold m1, readpix; by rewrite (proj2 (Z.eqb_neq buffer 0))). rewrite Er. clearbody m1.
  assert (Eb : drawbmpover r p1 size bitmap color m1 = (p1, (drawbmpover r p1 size bitmap color m1).2)) by (unfold drawbmpover; rewrite (proj2 (Z.eqb_neq bitmap 0)) by done; by rewrite Hidem).
  rewrite Eb. set (m2 := (drawbmpover r p1 size bitmap color m1).2). assert (Hover : forall q, (forall c, c ∈ coords p1 (cut r p1 size) -> q < target_place r c \/ target_place r c + 4 <= q) -> read8 m2 q = read8 m1 q).
  { intros q Hq. unfold m2. rewrite drawbmpover_paint by done. apply paint_frame. by rewrite Hidem. }
  clearbody m2. assert (Hp1 : vec_ok p1) by (by apply clamp_ok). destruct (drawpix_spec r p1 size buffer O OB Hb Hp1 Hd m2) as [Hback Hrest]. rewrite Hidem in Hback, Hrest.
  assert (Hplaces := area_places r p size buffer O OB Hp). fold p1 in Hplaces.
  destruct (decide (Exists (fun c => target_place r c <= z < target_place r c + 4) (coords p1 (cut r p1 size)))) as [He|Hne].
  - apply Exists_exists in He as (c & Hc & Hzc). specialize (Hback c Hc). specialize (Hsave c Hc).
    assert (Hbuf : read32 m2 (buffer_pixel buffer (wrap32 (x size)) p1 c.1 c.2) = read32 m1 (buffer_pixel buffer (wrap32 (x size)) p1 c.1 c.2)).
    { apply read_le_ext. intros k Hk. apply Hover. intros e He. destruct (Hplaces c Hc) as [_ H1]. destruct (Hplaces e He) as [H2 _]. cbn beta in *. unfold fb_limit in *. lia. }
    rewrite Hbuf, Hsave in Hback. pose proof (read_le_inj 4 _ _ _ Hback (z - target_place r c) ltac:(lia)) as Hz8. by replace (target_place r c + (z - target_place r c)) with z in Hz8 by lia.
  - assert (Hno : forall c, c ∈ coords p1 (cut r p1 size) -> z < target_place r c \/ target_place r c + 4 <= z).
    { intros c Hc. destruct (Z_lt_le_dec z (target_place r c)) as [|Hge]; [by left|]. destruct (Z_lt_le_dec z (target_place r c + 4)) as [Hlt|]; [|by right].
      exfalso. apply Hne, Exists_exists. by exists c. }
    rewrite Hrest, Hover, Hkeep by done. done.
Qed.

Lemma read_le_shift n m1 m2 a b : (forall k, 0 <= k < Z.of_nat n -> read8 m1 (a + k) = read8 m2 (b + k)) -> read_le n m1 a = read_le n m2 b.
Proof.
  revert a b. induction n as [|n IH]; intros a b H; [done|]. cbn [read_le]. pose proof (H 0 ltac:(lia)) as H0. rewrite !Z.add_0_r in H0. rewrite H0. do 2 f_equal.
  apply IH. intros k Hk. specialize (H (k + 1) ltac:(lia)). by replace (a + 1 + k) with (a + (k + 1)) by lia; replace (b + 1 + k) with (b + (k + 1)) by lia.
Qed.

Lemma cut64_plain r p size : is_u64 (PixelWidth (Target r) - x p) -> is_u64 (PixelHeight (Target r) - y p) ->
  cut64 r p size = vec (Z.min (x size) (PixelWidth (Target r) - x p)) (Z.min (y size) (PixelHeight (Target r) - y p)).
Proof.
  intros Hx Hy. unfold cut64. rewrite !wrap64_small by done.
  destruct (Z.ltb_spec (PixelWidth (Target r) - x p) (x size)), (Z.ltb_spec (PixelHeight (Target r) - y p) (y size)); f_equal; lia.
Qed.

Lemma swap_spec r p size m :
  fb_ok (Target r) -> fb_ok (Render r) -> PixelWidth (Render r) = PixelWidth (Target r) -> PixelHeight (Render r) = PixelHeight (Target r) ->
  PixelsPerScanLine (Render r) = PixelsPerScanLine (Target r) -> fb_limit (Target r) <= BaseAddress (Render r) \/ fb_limit (Render r) <= BaseAddress (Target r) ->
  vec_ok p -> vec_ok size ->
  (forall px py, on_screen (Target r) px py -> x p <= px < x p + x size -> y p <= py < y p + y size ->
    read32 (swap r p size m) (pixel (Render r) px py) = read32 m (pixel (Target r) px py)) /\
  (forall z, outside (Render r) z -> read8 (swap r p size m) z = read8 m z).
Proof.
  intros OT OR Hw Hh Hl Hdis [Hpx Hpy] [Hsx Hsy]. pose proof OT as [HT1 HT2 HT3 HT4 HT5]. pose proof OR as [HR1 HR2 HR3 HR4 HR5]. unfold fb_limit in Hdis. unfold swap.
  destruct (Z.eqb_spec (BaseAddress (Render r)) (BaseAddress (Target r))) as [Eb|Nb].
  { split; [|done]. intros px py Hs. destruct (pixel_plain (Target r) px py OT Hs) as (_ & H1 & H2). unfold fb_limit in H2. rewrite Hl, Hh in *. lia. }
  destruct (Z.ltb_spec (PixelWidth (Target r)) (x p)) as [Hx|Hx]; [split; [unfold on_screen; lia|done]|].
  destruct (Z.ltb_spec (PixelHeight (Target r)) (y p)) as [Hy|Hy]; [split; [unfold on_screen; lia|done]|]. cbn [orb].
  rewrite cut64_plain by (unfold is_u64; lia). cbn [x y]. set (sx := Z.min (x size) (PixelWidth (Target r) - x p)). set (sy := Z.min (y size) (PixelHeight (Target r) - y p)).
  set (L := PixelsPerScanLine (Target r)) in *. assert (HLpos : 0 <= L) by lia. assert (Hsy0 : 0 <= sy /\ y p + sy <= PixelHeight (Target r)) by lia.
  assert (0 <= y p * L) by (apply Z.mul_nonneg_nonneg; lia). assert (0 <= sy * L) by (apply Z.mul_nonneg_nonneg; lia).
  assert ((y p + sy) * L <= PixelHeight (Target r) * L) by (apply Z.mul_le_mono_nonneg_r; lia).
  destruct (decide (sy = 0)) as [E0|N0].
  { rewrite E0. change (Z.to_nat 0) with 0%nat. cbn [swap_lines]. split; [|done]. intros px py [_ Hs]. lia. }
  assert (x p <= L) by lia. assert ((y p + 1) * L <= PixelHeight (Target r) * L) by (apply Z.mul_le_mono_nonneg_r; lia). assert ((sy - 1) * L = sy * L - L) by lia.
  rewrite Hl, Hh in *. unfold BytesPerPixel.
  replace (4 * x p + 4 * y p * L) with (4 * (x p + y p * L)) by lia. rewrite !(wrap64_small (4 * _)) by (unfold is_u64; lia). rewrite !wrap64_small by (unfold is_u64; lia).
  destruct (swap_lines_spec (Z.to_nat sy) r (BaseAddress (Target r) + 4 * (x p + y p * L)) (BaseAddress (Render r) + 4 * (x p + y p * L)) (4 * sx) (4 * L) m) as [Hin Hout];
    [done|done|lia|lia|lia|lia|lia|rewrite Z2Nat.id by lia; destruct Hdis; [left|right]; lia|]. rewrite Z2Nat.id in Hin, Hout by lia. split.
  - intros px py Hs Hx1 Hy1. pose proof Hs as [Hsx1 Hsy1]. destruct (pixel_plain (Target r) px py OT Hs) as (-> & _).
    destruct (pixel_plain (Render r) px py OR) as (-> & _); [unfold on_screen; rewrite Hw, Hh; done|]. rewrite Hl. fold L.
    apply read_le_shift. intros k Hk. specialize (Hin (py - y p) (4 * (px - x p) + k) ltac:(lia) ltac:(lia)).
    replace (BaseAddress (Render r) + 4 * (px + py * L) + k) with (BaseAddress (Render r) + 4 * (x p + y p * L) + (py - y p) * (4 * L) + (4 * (px - x p) + k)) by lia.
    rewrite Hin. f_equal. lia.
  - intros z Hz. apply Hout. intros j Hj. unfold outside, fb_limit in Hz. rewrite Hl, Hh in Hz. fold L in Hz. assert (0 <= j * L) by (apply Z.mul_nonneg_nonneg; lia).
    assert ((j + 1) * L <= sy * L) by (apply Z.mul_le_mono_nonneg_r; lia). lia.
Qed.

(** The two framebuffers are apart, or there is only one: the constructor makes
    [Target] the same as [Render] when there is no memory for a second. *)
Definition buffers_ok (r : BasicRenderer) : Prop :=
  Render r = Target r \/ fb_limit (Target r) <= BaseAddress (Render r) \/ fb_limit (Render r) <= BaseAddress (Target r).

Lemma swap_outside r p size m z :
  fb_ok (Target r) -> fb_ok (Render r) -> PixelWidth (Render r) = PixelWidth (Target r) -> PixelHeight (Render r) = PixelHeight (Target r) ->
  PixelsPerScanLine (Render r) = PixelsPerScanLine (Target r) -> buffers_ok r -> vec_ok p -> vec_ok size -> outside (Render r) z ->
  read8 (swap r p size m) z = read8 m z.
Proof.
  intros OT OR Hw Hh Hl [E|Hd] Hp Hs Hz; [|by apply swap_spec]. unfold swap. by rewrite E, Z.eqb_refl.
Qed.

(** [swap] brings a rectangle of the target to the screen, and changes nothing
    outside the framebuffer of the screen. *)
Theorem swap_shows_the_target r p size m :
  fb_ok (Target r) -> fb_ok (Render r) -> PixelWidth (Render r) = PixelWidth (Target r) -> PixelHeight (Render r) = PixelHeight (Target r) ->
  PixelsPerScanLine (Render r) = PixelsPerScanLine (Target r) -> fb_limit (Target r) <= BaseAddress (Render r) \/ fb_limit (Render r) <= BaseAddress (Target r) ->
  vec_ok p -> vec_ok size ->
  (forall px py, on_screen (Target r) px py -> x p <= px < x p + x size -> y p <= py < y p + y size ->
    read32 (swap r p size m) (pixel (Render r) px py) = read32 m (pixel (Target r) px py)) /\
  (forall z, outside (Render r) z -> read8 (swap r p size m) z = read8 m z).
Proof. apply swap_spec. Qed.

(** ** The claims at work *)

(** A screen of twenty by ten pixels in lines of 32. *)
Definition small : BasicRenderer := mkRenderer (mkFramebuffer 65536 1280 20 10 32) (mkFramebuffer 4096 1280 20 10 32) 0 16 1000.

(** The same with the target where the constructor maps it. *)
Definition high : BasicRenderer := mkRenderer (Render small) (mkFramebuffer 0xffffff8000000000 1280 20 10 32) 0 16 1000.

Lemma small_target : fb_ok (Target small).
Proof. split; cbn; lia. Qed.

Lemma drawing_stays_in_the_framebuffer_witness :
  read8 (foldl (fun m d => draw high d m) (fun z => z) [d_rect (vec 18 8) (vec 100 100) 255; d_puts (vec (2 ^ 64 - 1) 3) [65; 10] 7]) 9000 = read8 (fun z => z) 9000.
Proof.
  apply (drawing_stays_in_the_framebuffer high _ _ 9000); [split; cbn; lia|cbn; lia| |left; cbn; lia].
  repeat constructor; cbn; lia.
Defined.

Lemma cursor_leaves_no_trace_witness :
  let '(p1, m1) := readpix small (vec 15 5) (vec 16 16) 200000 (fun z => z) in
  let '(p2, m2) := drawbmpover small p1 (vec 16 16) 1000 255 m1 in
  read8 (drawpix small p2 (vec 16 16) 200000 m2).2 4800 = read8 (fun z => z) 4800.
Proof.
  apply (cursor_leaves_no_trace small (vec 15 5) (vec 16 16) 200000 1000 255 (fun z => z) 4800 small_target);
    [split; cbn; lia|done|done|split; cbn; lia|right; vm_compute; done|left; lia].
Defined.

Lemma swap_shows_the_target_witness :
  read32 (swap small (vec 1 1) (vec 30 2) (fun z => z)) (pixel (Render small) 19 2) = read32 (fun z => z) (pixel (Target small) 19 2).
Proof.
  apply (swap_shows_the_target small (vec 1 1) (vec 30 2) (fun z => z) small_target); [split; cbn; lia|done|done|done|left; vm_compute; done|split; cbn; lia|split; cbn; lia|split; cbn; lia|cbn; lia|cbn; lia].
Defined.

End Renderer.
