(* ===== verification/Terminal.v ===== *)
(** * The terminal

    Models src/user/stdout: framebuffer.c, psf.c and main.c, the program that
    owns the screen and shows there what the shell writes.  Memory is that of
    the program; the framebuffer and the buffer of characters are in it.  The
    code that opens the font and starts the shell is left out. *)

From S2P Require Import Prelude PhysMem FileMeta Renderer.
Local Open Scope u64_scope.

Module Terminal.

(** ** framebuffer.c *)

Inductive FramebufferFormat := FB_FORMAT_INVALID | FB_FORMAT_ARGB | FB_FORMAT_BGRA | FB_FORMAT_ABGR | FB_FORMAT_MAX.

Record Framebuffer := mkFb {
  base_address : Z;
  buffer_size : Z;
  pixel_width : Z;
  pixel_height : Z;
  pixels_per_scanline : Z;
  format : FramebufferFormat
}.

Definition mkpixel (f : FramebufferFormat) (r g b a : Z) : Z :=
  let sh := Z.shiftl in
  match f with
  | FB_FORMAT_BGRA => Z.lor (Z.lor (Z.lor (sh r 8) (sh g 16)) (sh b 24)) (sh a 0)
  | FB_FORMAT_ABGR => Z.lor (Z.lor (Z.lor (sh r 0) (sh g 8)) (sh b 16)) (sh a 24)
  | _ => Z.lor (Z.lor (Z.lor (sh r 16) (sh g 8)) (sh b 0)) (sh a 24)
  end.

(** The dimensions are 32 bits wide, and so is one less than them. *)
Definition clamp_draw_position (fb : Framebuffer) (p : Vector2) : Vector2 :=
  vec (if pixel_width fb <? x p then wrap32 (pixel_width fb - 1) else x p)
      (if pixel_height fb <? y p then wrap32 (pixel_height fb - 1) else y p).

Definition place (fb : Framebuffer) (px py : Z) : Z :=
  wrap64 (base_address fb + 4 * (py * pixels_per_scanline fb + px)).

Definition write_pixel (fb : Framebuffer) (pixel px py : Z) (m : mem) : mem := write32 m (place fb px py) pixel.

Definition fill_rect (fb : Framebuffer) (pixel px py w h : Z) (m : mem) : mem :=
  if (pixel_width fb <=? px) || (pixel_height fb <=? py) then m
  else
    let w := if pixel_width fb <=? px +64 w then pixel_width fb - px else w in
    let h := if pixel_height fb <=? py +64 h then pixel_height fb - py else h in
    Renderer.for_rect (fun px py m => write_pixel fb pixel px py m) (vec px py) (vec w h) m.

Definition fill_color (fb : Framebuffer) (pixel : Z) (m : mem) : mem :=
  Renderer.for_rect (fun px py m => write_pixel fb pixel px py m) (vec 0 0) (vec (pixel_width fb) (pixel_height fb)) m.

(** ** psf.c *)

Record PSF1_FONT := mkFont { magic0 : Z; magic1 : Z; mode : Z; character_size : Z; glyph_buffer : Z }.

Definition psf1_width (font : PSF1_FONT) : Z := 8.
Definition psf1_height (font : PSF1_FONT) : Z := character_size font.
Definition psf1_char_bitmap (font : PSF1_FONT) (c : Z) : Z := glyph_buffer font +64 c * psf1_height font.

(** ** Numbers in hexadecimal *)

(** What is put out is a list of characters. *)
Definition fprint_hexnibble (byte : Z) : list Z :=
  if byte <? 10 then [byte + 48] else if byte <? 16 then [byte - 10 + 97] else [63].

Definition hex_value_digit (value : Z) : Z :=
  if value <? 10 then value + 48 else if value <? 16 then value - 10 + 97 else 2 ^ 32 - 1.

(** [count] is one more than the index of the loop. *)
Fixpoint print_loop (count : nat) (number : Z) (leading : bool) : list Z :=
  match count with
  | O => if leading then [48] else []
  | S i =>
      let value := Z.land (Z.shiftr number (Z.of_nat i * 8)) 255 in
      if leading && (value =? 0) then print_loop i number leading
      else
        hex_value_digit (Z.land (Z.shiftr number (4 + Z.of_nat i * 8)) 15) ::
        hex_value_digit (Z.land (Z.shiftr number (Z.of_nat i * 8)) 15) :: print_loop i number false
  end.

Definition fprint_hexnumber (number : Z) : list Z := print_loop 8 number true.

Definition hex_digit_value (c : Z) : Z :=
  if (48 <=? c) && (c <=? 57) then c - 48
  else if (65 <=? c) && (c <=? 70) then 10 + c - 65
  else if (97 <=? c) && (c <=? 102) then 10 + c - 97
  else 2 ^ 32 - 1.

(** The same choices where [hexstring_to_number] makes them; [None] leaves its loop. *)
Definition digit_of (c : Z) : option Z :=
  if (48 <=? c) && (c <=? 57) then Some (c - 48)
  else if (65 <=? c) && (c <=? 70) then Some (10 + c - 65)
  else if (97 <=? c) && (c <=? 102) then Some (10 + c - 97)
  else None.

Definition shift_in (out val : Z) : Z := Z.lor (wrap64 (Z.shiftl out 4)) val.

(** [str] is what is in memory from the pointer on. *)
Fixpoint parse_loop (count : nat) (str : list Z) (out : Z) : outcome Z :=
  match count with
  | O => Done out
  | S count =>
      c ← deref (str !! 0%nat);
      match digit_of c with
      | None => Done out
      | Some val =>
          let out := shift_in out val in
          c ← deref (str !! 1%nat);
          match digit_of c with
          | None => Done out
          | Some val => parse_loop count (drop 2 str) (shift_in out val)
          end
      end
  end.

Definition hexstring_to_number (str : list Z) : outcome Z :=
  c ← deref (str !! 0%nat);
  str ← (if c =? 48 then d ← deref (str !! 1%nat); Done (if d =? 120 then drop 2 str else str) else Done str);
  parse_loop 8 str 0.

(** ** Drawing text *)

Definition fg_color (fb : Framebuffer) : Z := mkpixel (format fb) 255 255 255 255.
Definition bg_color (fb : Framebuffer) : Z := mkpixel (format fb) 22 23 24 255.

(** [c] is cut to eight bits by the call. *)
Definition draw_psf1_char (fb : Framebuffer) (font : PSF1_FONT) (p : Vector2) (c : Z) (m : mem) : mem :=
  let p := clamp_draw_position fb p in
  let initX := psf1_width font in
  let diffX := pixel_width fb -64 x p in
  let diffY := pixel_height fb -64 y p in
  let size_x := if diffX <? initX then diffX else initX in
  let size_y := if diffY <? character_size font then diffY else character_size font in
  let bitmap := psf1_char_bitmap font (wrap8 c) in
  Renderer.for_rect
    (fun px py m =>
       let byte := ((px - x p) + (py - y p) * initX) / 8 in
       let lit := 0 <? Z.land (read8 m (bitmap +64 byte)) (Z.shiftr 128 ((px - x p) mod 8)) in
       write_pixel fb (if lit then fg_color fb else bg_color fb) px py m)
    p (vec size_x size_y) m.

Definition draw_psf1_cr (p : Vector2) : Vector2 := vec 0 (y p).
Definition draw_psf1_lf (font : PSF1_FONT) (p : Vector2) : Vector2 := vec (x p) (y p +64 character_size font).
Definition draw_psf1_crlf (fb : Framebuffer) (font : PSF1_FONT) (p : Vector2) (m : mem) : Vector2 * mem :=
  let m := fill_rect fb (bg_color fb) (x p) (y p) (pixel_width fb) (psf1_height font) m in
  (draw_psf1_lf font (draw_psf1_cr p), m).

(** One round of the loops of [draw_psf1_string] and [draw_psf1_string_view]. *)
Definition draw_one (fb : Framebuffer) (font : PSF1_FONT) (c : Z) (p : Vector2) (m : mem) : Vector2 * mem :=
  if c =? 10 then draw_psf1_crlf fb font p m
  else if c =? 13 then (vec 0 (y p), m)
  else if c =? 8 then (vec (x p -64 psf1_width font) (y p), m)
  else
    let m := draw_psf1_char fb font p c m in
    (vec (x p +64 psf1_width font) (y p), m).

Fixpoint draw_psf1_string_view (fb : Framebuffer) (font : PSF1_FONT) (length : nat) (str : list Z) (p : Vector2) (m : mem) : outcome (Vector2 * mem) :=
  match str with
  | [] => Stop Undefined
  | c :: str =>
      if c =? 0 then Done (p, m)
      else
        match length with
        | O => Done (p, m)
        | S length => let '(p, m) := draw_one fb font c p m in draw_psf1_string_view fb font length str p m
        end
  end.

Fixpoint draw_psf1_string (fb : Framebuffer) (font : PSF1_FONT) (str : list Z) (p : Vector2) (m : mem) : outcome (Vector2 * mem) :=
  match str with
  | [] => Stop Undefined
  | c :: str =>
      if c =? 0 then Done (p, m)
      else let '(p, m) := draw_one fb font c p m in draw_psf1_string fb font str p m
  end.

(** ** The buffer of characters *)

Record CharacterBuffer := mkCharbuf { data : Z; cursor : Vector2; width : Z; height : Z }.

(** The number of bytes that are asked of [malloc], and the buffer in them. *)
Definition charbuf_bytes (w h : Z) : Z := (w *64 h) +64 1.
Definition charbuf_create (address w h : Z) : CharacterBuffer := mkCharbuf address (vec 0 0) w h.

Definition charbuf_at (b : CharacterBuffer) (cx cy : Z) : Z := data b +64 4 * wrap64 (width b * cy + cx).
Definition charbuf_write (b : CharacterBuffer) (cx cy c : Z) (m : mem) : mem := write32 m (charbuf_at b cx cy) c.

Definition with_cursor (cx cy : Z) (b : CharacterBuffer) : CharacterBuffer := mkCharbuf (data b) (vec cx cy) (width b) (height b).

(** The last branch of [charbuf_putc]. *)
Definition put_plain (fb : Framebuffer) (font : PSF1_FONT) (c : Z) (b : CharacterBuffer) (m : mem) : CharacterBuffer * mem :=
  let cx := x (cursor b) in
  let cy := y (cursor b) in
  let m := charbuf_write b cx cy c m in
  let m := draw_psf1_char fb font (vec (cx *64 psf1_width font) (cy *64 psf1_height font)) c m in
  (with_cursor (cx +64 1) cy b, m).

Definition charbuf_putc (fb : Framebuffer) (font : PSF1_FONT) (c : Z) (b : CharacterBuffer) (m : mem) : CharacterBuffer * mem :=
  let cx := x (cursor b) in
  let cy := y (cursor b) in
  if c =? 8 then
    if negb (cx =? 0) then
      let '(b, m) := put_plain fb font 32 (with_cursor (cx - 1) cy b) m in
      (with_cursor (x (cursor b) -64 1) cy b, m)
    else if cy =? 0 then
      let '(b, m) := put_plain fb font 32 b m in
      (with_cursor 0 cy b, m)
    else (b, m)
  else if c =? 13 then (with_cursor 0 cy b, m)
  else if c =? 10 then
    let cy := cy +64 1 in
    if height b <=? cy then (with_cursor 0 0 b, fill_color fb (bg_color fb) m)
    else (with_cursor 0 cy b, m)
  else put_plain fb font c b m.

(** The loop of [charbuf_puts] does not move on. *)
Definition charbuf_puts (s : list Z) (b : CharacterBuffer) (m : mem) : outcome (CharacterBuffer * mem) :=
  c ← deref (s !! 0%nat);
  if c =? 0 then Done (b, m) else Stop Hung.

(** A [char] as [uint32_t]. *)
Definition extended (c : Z) : Z := if c <? 128 then c else c + (2 ^ 32 - 256).

(** What the loop of [run_program_waitpid] does with the bytes it reads. *)
Fixpoint show (fb : Framebuffer) (font : PSF1_FONT) (bytes : list Z) (b : CharacterBuffer) (m : mem) : CharacterBuffer * mem :=
  match bytes with
  | [] => (b, m)
  | c :: bytes => let '(b, m) := charbuf_putc fb font (extended c) b m in show fb font bytes b m
  end.

(** The framebuffer that [main] makes of its arguments. *)
Definition framebuffer_of_arguments (argv : list (list Z)) : outcome Framebuffer :=
  let arg i := s ← deref (argv !! i); hexstring_to_number s in
  a ← arg 1%nat; s ← arg 2%nat; w ← arg 3%nat; h ← arg 4%nat; l ← arg 5%nat;
  Done (mkFb a s (wrap32 w) (wrap32 h) (wrap32 l) FB_FORMAT_ARGB).

(** The size of the glyphs that [main] reads from the font. *)
Definition glyph_buffer_size (font : PSF1_FONT) : Z :=
  if mode font =? 1 then character_size font * 512 else character_size font * 256.

(** ** Hexadecimal numbers *)

Lemma digit_of_value d : 0 <= d < 16 -> digit_of (hex_value_digit d) = Some d.
Proof.
  intros H. assert (Hd : d ∈ seqZ 0 16) by (apply elem_of_seqZ; lia). revert Hd. cbn. intros Hd.
  repeat (apply elem_of_cons in Hd as [->|Hd]; [reflexivity|]). by apply not_elem_of_nil in Hd.
Qed.

Lemma shift_in_spec out d : 0 <= out -> out * 16 + d < 2 ^ 64 -> 0 <= d < 16 -> shift_in out d = out * 16 + d.
Proof.
  intros Ho Hb Hd. unfold shift_in. rewrite Z.shiftl_mul_pow2 by lia. change (2 ^ 4) with 16. rewrite wrap64_small by (unfold is_u64; lia).
  change 16 with (2 ^ 4). rewrite <- Z.shiftl_mul_pow2 by lia. rewrite lor_shiftl_add by lia. by rewrite Z.shiftl_mul_pow2 by lia.
Qed.

Definition value_of (out : Z) (ds : list Z) : Z := foldl (fun a d => a * 16 + d) out ds.

Lemma value_of_grows out ds : 0 <= out -> Forall (fun d => 0 <= d < 16) ds -> out <= value_of out ds.
Proof.
  intros Ho H. revert out Ho. induction H as [|d ds Hd Hds IH]; intros out Ho; cbn; [lia|].
  specialize (IH (out * 16 + d)). unfold value_of in *. lia.
Qed.

(** The loop takes the digits two at a time and stops at the first character
    that is none, or after sixteen. *)
Lemma parse_loop_spec : forall n ds rest out, Forall (fun d => 0 <= d < 16) ds -> (length ds <= 2 * n)%nat ->
  match rest with [] => False | c :: _ => digit_of c = None end ->
  0 <= out -> value_of out ds < 2 ^ 64 ->
  parse_loop n (map hex_value_digit ds ++ rest) out = Done (value_of out ds).
Proof.
  induction n as [|n IH]; intros ds rest out Hds Hl Hr Ho Hv.
  - destruct ds; [done|cbn in Hl; lia].
  - destruct rest as [|c rest]; [done|]. cbn [parse_loop].
    destruct ds as [|d ds]; cbn [map app]; [cbn; by rewrite Hr|]. apply Forall_cons in Hds as [Hd Hds].
    cbn [lookup list_lookup deref mbind outcome_bind]. rewrite digit_of_value by done.
    pose proof (value_of_grows (out * 16 + d) ds ltac:(lia) Hds) as Hg. cbn in Hv. fold (value_of (out * 16 + d) ds) in Hv.
    rewrite shift_in_spec by lia.
    destruct ds as [|e ds]; cbn [map app]; [cbn; by rewrite Hr|]. apply Forall_cons in Hds as [He Hds].
    cbn [lookup list_lookup deref mbind outcome_bind]. rewrite digit_of_value by done. cbn in Hv. fold (value_of ((out * 16 + d) * 16 + e) ds) in Hv.
    pose proof (value_of_grows ((out * 16 + d) * 16 + e) ds ltac:(lia) Hds).
    rewrite shift_in_spec by lia. cbn [drop].
    change (value_of out (d :: e :: ds)) with (value_of ((out * 16 + d) * 16 + e) ds). apply IH; [done|cbn in Hl; lia|done|lia|done].
Qed.

(** Any number written with hexadecimal digits is read back. *)
Lemma hexstring_spec d ds rest : Forall (fun d => 0 <= d < 16) (d :: ds) -> (length (d :: ds) <= 16)%nat -> value_of 0 (d :: ds) < 2 ^ 64 ->
  hexstring_to_number (map hex_value_digit (d :: ds) ++ 0 :: rest) = Done (value_of 0 (d :: ds)).
Proof.
  intros Hds Hl Hv. unfold hexstring_to_number.
  assert (E : (c ← deref ((map hex_value_digit (d :: ds) ++ 0 :: rest) !! 0%nat);
               if c =? 48 then e ← deref ((map hex_value_digit (d :: ds) ++ 0 :: rest) !! 1%nat); Done (if e =? 120 then drop 2 (map hex_value_digit (d :: ds) ++ 0 :: rest) else map hex_value_digit (d :: ds) ++ 0 :: rest)
               else Done (map hex_value_digit (d :: ds) ++ 0 :: rest)) = Done (map hex_value_digit (d :: ds) ++ 0 :: rest)).
  { cbn [map app lookup list_lookup deref mbind outcome_bind]. destruct (_ =? 48); [|done]. destruct ds as [|e ds]; [done|]. cbn [map app lookup list_lookup deref mbind outcome_bind].
    destruct (Z.eqb_spec (hex_value_digit e) 120) as [Hx|]; [|done]. apply Forall_cons in Hds as [_ Hds]. apply Forall_cons in Hds as [He _].
    pose proof (digit_of_value e He) as Hd. by rewrite Hx in Hd. }
  set (str := map hex_value_digit (d :: ds) ++ 0 :: rest) in *.
  destruct (deref (str !! 0%nat)) as [c|]; [|done]. cbn [mbind outcome_bind] in *. rewrite E. cbn [mbind outcome_bind].
  by apply (parse_loop_spec 8 (d :: ds) (0 :: rest) 0).
Qed.

(** The digits of the bytes from [count] down, most significant first. *)
Fixpoint nibbles (count : nat) (number : Z) : list Z :=
  match count with
  | O => []
  | S i => (number / (16 * 256 ^ Z.of_nat i)) mod 16 :: (number / 256 ^ Z.of_nat i) mod 16 :: nibbles i number
  end.

Lemma nibbles_digits count number : Forall (fun d => 0 <= d < 16) (nibbles count number).
Proof. induction count; cbn; repeat constructor; try done; apply Z.mod_pos_bound; lia. Qed.

Lemma length_nibbles count number : length (nibbles count number) = (2 * count)%nat.
Proof. induction count; cbn; lia. Qed.

Lemma nibbles_value count number out : 0 <= number ->
  value_of out (nibbles count number) = out * 256 ^ Z.of_nat count + number mod 256 ^ Z.of_nat count.
Proof.
  intros Hn. revert out. induction count as [|i IH]; intros out; cbn [nibbles].
  - cbn. rewrite Z.mod_1_r. lia.
  - cbn. fold (value_of ((out * 16 + (number / (16 * 256 ^ Z.of_nat i)) mod 16) * 16 + (number / 256 ^ Z.of_nat i) mod 16) (nibbles i number)).
    rewrite IH. replace (256 ^ Z.of_nat (S i)) with (256 ^ Z.of_nat i * 256) by (rewrite Nat2Z.inj_succ, Z.pow_succ_r by lia; lia).
    set (M := 256 ^ Z.of_nat i). assert (0 < M) by (unfold M; apply Z.pow_pos_nonneg; lia).
    rewrite (Z.rem_mul_r number M 256) by lia.
    replace (number / (16 * M)) with (number / M / 16) by (rewrite Z.div_div by lia; f_equal; lia).
    assert (E : (number / M) mod 256 = ((number / M) / 16) mod 16 * 16 + (number / M) mod 16) by dlia. rewrite E. ring.
Qed.

Lemma print_digits count number : 0 <= number -> print_loop count number false = map hex_value_digit (nibbles count number).
Proof.
  intros Hn. induction count as [|i IH]; [done|]. cbn [print_loop nibbles map andb].
  assert (Hp : 256 ^ Z.of_nat i = 2 ^ (Z.of_nat i * 8)) by (change 256 with (2 ^ 8); rewrite <- Z.pow_mul_r by lia; f_equal; lia).
  rewrite IH, !Z.shiftr_div_pow2 by lia. change 15 with (Z.ones 4). rewrite !Z.land_ones by lia. change (2 ^ 4) with 16.
  rewrite Hp. do 2 f_equal. f_equal. f_equal. rewrite Z.pow_add_r by lia. done.
Qed.

(** A leading byte is left out exactly if it is zero. *)
Lemma print_step i number : print_loop (S i) number true =
  if (number / 256 ^ Z.of_nat i) mod 256 =? 0 then print_loop i number true else print_loop (S i) number false.
Proof.
  cbn [print_loop andb].
  assert (E : Z.land (Z.shiftr number (Z.of_nat i * 8)) 255 = (number / 256 ^ Z.of_nat i) mod 256).
  { rewrite Z.shiftr_div_pow2 by lia. change 255 with (Z.ones 8). rewrite Z.land_ones by lia.
    change 256 with (2 ^ 8). rewrite <- Z.pow_mul_r by lia. do 3 f_equal. lia. }
  by rewrite E.
Qed.

(** Without the leading zero bytes, at least one digit is printed. *)
Lemma print_leading count number : 0 <= number < 256 ^ Z.of_nat count -> exists d ds,
  print_loop count number true = map hex_value_digit (d :: ds) /\ Forall (fun d => 0 <= d < 16) (d :: ds) /\
  (length (d :: ds) <= Nat.max 1 (2 * count))%nat /\ value_of 0 (d :: ds) = number.
Proof.
  induction count as [|i IH]; intros Hn.
  - exists 0, []. cbn in *. split_and!; [done|repeat constructor; lia|lia|lia].
  - rewrite print_step. pose proof Hn as Hn'. rewrite Nat2Z.inj_succ, Z.pow_succ_r in Hn' by lia.
    assert (HM : 0 < 256 ^ Z.of_nat i) by (apply Z.pow_pos_nonneg; lia).
    assert (Hdiv : 0 <= number / 256 ^ Z.of_nat i < 256) by (split; [apply Z.div_pos; lia|apply Z.div_lt_upper_bound; lia]).
    rewrite Z.mod_small by done. destruct (Z.eqb_spec (number / 256 ^ Z.of_nat i) 0) as [E|E].
    + destruct IH as (d & ds & Ep & Hds & Hl & Hv); [rewrite Z.div_small_iff in E by lia; lia|].
      exists d, ds. split_and!; [done|done|lia|done].
    + rewrite print_digits by lia.
      exists ((number / (16 * 256 ^ Z.of_nat i)) mod 16), ((number / 256 ^ Z.of_nat i) mod 16 :: nibbles i number). split_and!; [done|..].
      * apply (nibbles_digits (S i)).
      * cbn [length]. rewrite length_nibbles. lia.
      * pose proof (nibbles_value (S i) number 0 ltac:(lia)) as Hv. cbn [nibbles] in Hv. rewrite Hv.
        rewrite Z.mod_small by done. lia.
Qed.

(** What [fprint_hexnumber] prints, [hexstring_to_number] reads back, for every
    64-bit number. *)
Theorem hex_round_trip n rest : is_u64 n -> hexstring_to_number (fprint_hexnumber n ++ 0 :: rest) = Done n.
Proof.
  intros Hn. destruct (print_leading 8 n) as (d & ds & E & Hds & Hl & Hv); [exact Hn|]. unfold fprint_hexnumber. rewrite E, <- Hv at 1.
  apply hexstring_spec; [done|cbn in *; lia|]. rewrite Hv. apply Hn.
Qed.

Lemma hex_round_trip_witness : hexstring_to_number (fprint_hexnumber 2130706432 ++ [0]) = Done 2130706432.
Proof. apply (hex_round_trip 2130706432 []). split; [apply Z.leb_le|apply Z.ltb_lt]; reflexivity. Defined.

(** ** What the terminal writes *)

Definition as_fb (fb : Framebuffer) : Renderer.Framebuffer :=
  Renderer.mkFramebuffer (base_address fb) (buffer_size fb) (pixel_width fb) (pixel_height fb) (pixels_per_scanline fb).

Definition screen_ok (fb : Framebuffer) : Prop := Renderer.fb_ok (as_fb fb) /\ 0 < pixel_width fb /\ 0 < pixel_height fb.

Lemma place_pixel fb px py : place fb px py = Renderer.pixel (as_fb fb) px py.
Proof. unfold place, Renderer.pixel. f_equal. cbn. ring. Qed.

(** A rectangle that is inside the screen changes nothing outside it. *)
Lemma rect_frame fb (color : Z -> Z -> mem -> Z) p size m z : Renderer.fb_ok (as_fb fb) ->
  0 <= x p -> x p + x size <= pixel_width fb -> 0 <= y p -> y p + y size <= pixel_height fb -> Renderer.outside (as_fb fb) z ->
  read8 (Renderer.for_rect (fun px py m => write_pixel fb (color px py m) px py m) p size m) z = read8 m z.
Proof.
  intros O Hx Hw Hy Hh Hz.
  rewrite (Renderer.for_rect_paint (fun c => place fb c.1 c.2) (fun c m => Some (color c.1 c.2 m))) by done.
  apply Renderer.paint_frame. intros [px py] [Hpx Hpy]%Renderer.elem_of_coords. cbn [fst snd]. rewrite place_pixel.
  destruct (Renderer.pixel_plain (as_fb fb) px py O) as (_ & Hlo & Hhi); [split; cbn; lia|]. unfold Renderer.outside in Hz. lia.
Qed.

Lemma fill_color_frame fb pixel m z : screen_ok fb -> Renderer.outside (as_fb fb) z -> read8 (fill_color fb pixel m) z = read8 m z.
Proof. intros (O & Hw & Hh) Hz. apply (rect_frame fb (fun _ _ _ => pixel)); cbn; try done; lia. Qed.

Lemma fill_rect_frame fb pixel px py w h m z : screen_ok fb -> is_u64 px -> is_u64 py -> is_u64 w -> is_u64 h ->
  px + w < 2 ^ 64 -> py + h < 2 ^ 64 -> Renderer.outside (as_fb fb) z -> read8 (fill_rect fb pixel px py w h m) z = read8 m z.
Proof.
  intros (O & Hw & Hh) Hpx Hpy Hsw Hsh Hbw Hbh Hz. unfold is_u64 in *. unfold fill_rect.
  destruct (Z.leb_spec (pixel_width fb) px); [done|]. destruct (Z.leb_spec (pixel_height fb) py); [done|]. cbn [orb].
  rewrite !wrap64_small by (unfold is_u64; lia).
  apply (rect_frame fb (fun _ _ _ => pixel)); cbn; try done; try lia; [destruct (Z.leb_spec (pixel_width fb) (px + w))|destruct (Z.leb_spec (pixel_height fb) (py + h))]; lia.
Qed.

Lemma draw_char_frame fb font p c m z : screen_ok fb -> 0 <= character_size font < 256 -> Renderer.vec_ok p -> Renderer.outside (as_fb fb) z ->
  read8 (draw_psf1_char fb font p c m) z = read8 m z.
Proof.
  intros (O & Hw & Hh) Hc [Hx Hy] Hz. pose proof O as [_ [_ Hpw] Hl [_ Hph] _]. cbn in Hpw, Hl, Hph. unfold draw_psf1_char.
  set (p' := clamp_draw_position fb p).
  assert (Hp' : 0 <= x p' <= pixel_width fb /\ 0 <= y p' <= pixel_height fb).
  { unfold p', clamp_draw_position. cbn. unfold wrap32. rewrite !Z.mod_small by lia.
    destruct (Z.ltb_spec (pixel_width fb) (x p)), (Z.ltb_spec (pixel_height fb) (y p)); lia. }
  rewrite !wrap64_small by (unfold is_u64; lia).
  apply (rect_frame fb (fun px py m => if 0 <? Z.land (read8 m (psf1_char_bitmap font (wrap8 c) +64 ((px - x p' + (py - y p') * psf1_width font) / 8))) (Z.shiftr 128 ((px - x p') mod 8)) then fg_color fb else bg_color fb));
    cbn [x y]; try done; try lia; unfold psf1_width; zcases; lia.
Qed.

(** Where the buffer of characters is, if all of its cells are counted. *)
Record charbuf_ok (b : CharacterBuffer) : Prop := {
  cb_data : 0 <= data b;
  cb_width : 0 < width b < 2 ^ 32;
  cb_height : 0 < height b < 2 ^ 32;
  cb_end : data b + 4 * (width b * height b) < 2 ^ 64;
  cb_cursor : 0 <= x (cursor b) <= width b /\ 0 <= y (cursor b) < height b
}.

Definition outside_cells (b : CharacterBuffer) (z : Z) : Prop := z < data b \/ data b + 4 * (width b * height b) <= z.

Lemma cell_place b cx cy : charbuf_ok b -> 0 <= cx < width b -> 0 <= cy < height b ->
  charbuf_at b cx cy = data b + 4 * (width b * cy + cx) /\ charbuf_at b cx cy + 4 <= data b + 4 * (width b * height b).
Proof.
  intros [Hd Hw Hh He _] Hx Hy. assert (width b * cy + width b <= width b * height b) by nia. assert (0 <= width b * cy) by nia.
  unfold charbuf_at. rewrite (wrap64_small (width b * cy + cx)) by (unfold is_u64; lia). rewrite wrap64_small by (unfold is_u64; lia). lia.
Qed.

(** The same buffer with its cursor somewhere else. *)
Definition same_cells (b b' : CharacterBuffer) : Prop := data b' = data b /\ width b' = width b /\ height b' = height b.

Lemma put_plain_spec fb font c b m z : screen_ok fb -> 0 <= character_size font < 256 -> charbuf_ok b -> x (cursor b) < width b ->
  Renderer.outside (as_fb fb) z -> outside_cells b z ->
  let '(b', m') := put_plain fb font c b m in
  read8 m' z = read8 m z /\ b' = with_cursor (x (cursor b) + 1) (y (cursor b)) b.
Proof.
  intros S Hc B Hx Hz Hzc. unfold put_plain. pose proof B as [_ Hw Hh _ [Hcx Hcy]].
  assert (E : x (cursor b) +64 1 = x (cursor b) + 1) by (rewrite wrap64_small; unfold is_u64; lia). rewrite E. split; [|done].
  rewrite draw_char_frame; [|done|done|split; apply wrap64_range|done].
  destruct (cell_place b (x (cursor b)) (y (cursor b)) B) as [Hp He]; [lia|lia|].
  unfold charbuf_write. apply write_le_frame. unfold outside_cells in Hzc. assert (0 <= width b * y (cursor b)) by nia. lia.
Qed.

(** The column after a byte, and that no line is longer than the buffer is wide. *)
Definition next_column (c cx : Z) : Z :=
  if c =? 8 then Z.max 0 (cx - 1) else if (c =? 13) || (c =? 10) then 0 else cx + 1.

Fixpoint fits (w cx : Z) (bytes : list Z) : Prop :=
  match bytes with
  | [] => True
  | c :: bytes => next_column c cx <= w /\ fits w (next_column c cx) bytes
  end.

Lemma extended_control c k : 0 <= c < 256 -> 0 <= k < 128 -> (extended c =? k) = (c =? k).
Proof. intros Hc Hk. unfold extended. destruct (Z.ltb_spec c 128); [done|]. zcases; lia. Qed.

Lemma with_cursor_ok b cx cy : charbuf_ok b -> 0 <= cx <= width b -> 0 <= cy < height b -> charbuf_ok (with_cursor cx cy b).
Proof. intros [H1 H2 H3 H4 _] Hx Hy. by split. Qed.

Lemma putc_spec fb font c b m z : screen_ok fb -> 0 <= character_size font < 256 -> charbuf_ok b -> 0 <= c < 256 ->
  next_column c (x (cursor b)) <= width b -> Renderer.outside (as_fb fb) z -> outside_cells b z ->
  let '(b', m') := charbuf_putc fb font (extended c) b m in
  read8 m' z = read8 m z /\ charbuf_ok b' /\ same_cells b b' /\ x (cursor b') = next_column c (x (cursor b)).
Proof.
  intros S Hc B Hb Hn Hz Hzc. pose proof B as [_ Hw Hh _ [Hcx Hcy]]. unfold charbuf_putc, next_column in *.
  rewrite !extended_control by lia. destruct (Z.eqb_spec c 8) as [->|N8].
  - destruct (Z.eqb_spec (x (cursor b)) 0) as [E0|N0]; cbn [negb].
    + destruct (Z.eqb_spec (y (cursor b)) 0) as [Ey|Ny].
      * pose proof (put_plain_spec fb font 32 b m z S Hc B ltac:(lia) Hz Hzc) as Hp. destruct (put_plain fb font 32 b m) as [b1 m1]. destruct Hp as [Hr ->].
        split_and!; [done|by apply with_cursor_ok; cbn; [apply with_cursor_ok; [|lia|lia]|lia|lia]|done|cbn; lia].
      * split_and!; [done|done|done|lia].
    + pose proof (put_plain_spec fb font 32 (with_cursor (x (cursor b) - 1) (y (cursor b)) b) m z S Hc) as Hp.
      destruct (put_plain _ _ _ _ _) as [b1 m1]. destruct Hp as [Hr ->]; [apply with_cursor_ok; [done|lia|lia]|cbn; lia|done|done|]. cbn [cursor x y with_cursor].
      rewrite wrap64_small by (unfold is_u64; lia).
      split_and!; [done| |done|cbn; lia]. split; cbn; try apply B. lia.
  - destruct (Z.eqb_spec c 13) as [->|N13]; cbn [orb].
    { split_and!; [done|apply with_cursor_ok; [done|lia|lia]|done|done]. }
    destruct (Z.eqb_spec c 10) as [->|N10]; cbn [orb] in *.
    { rewrite wrap64_small by (unfold is_u64; lia). destruct (Z.leb_spec (height b) (y (cursor b) + 1)).
      - split_and!; [by apply fill_color_frame|apply with_cursor_ok; [done|lia|lia]|done|done].
      - split_and!; [done|apply with_cursor_ok; [done|lia|lia]|done|done]. }
    pose proof (put_plain_spec fb font (extended c) b m z S Hc B ltac:(lia) Hz Hzc) as Hp. destruct (put_plain _ _ _ _ _) as [b1 m1]. destruct Hp as [Hr ->].
    split_and!; [done|apply with_cursor_ok; [done|lia|lia]|done|done].
Qed.

(** Whatever the shell writes, as long as no line is longer than the buffer is
    wide, nothing is written but the framebuffer and the cells of the buffer
    of characters, and the cursor stays on them. *)
Theorem terminal_writes_screen_and_cells fb font bytes b m z :
  screen_ok fb -> 0 <= character_size font < 256 -> charbuf_ok b -> Forall is_byte bytes -> fits (width b) (x (cursor b)) bytes ->
  Renderer.outside (as_fb fb) z -> outside_cells b z ->
  let '(b', m') := show fb font bytes b m in read8 m' z = read8 m z /\ charbuf_ok b' /\ same_cells b b'.
Proof.
  intros S Hc B Hbs. revert b m B. induction Hbs as [|c bytes Hb Hbs IH]; intros b m B Hf Hz Hzc; cbn [show]; [done|]. destruct Hf as [Hn Hf].
  pose proof (putc_spec fb font c b m z S Hc B Hb Hn Hz Hzc) as Hp. destruct (charbuf_putc _ _ _ _ _) as [b1 m1]. destruct Hp as (Hr & B1 & (Ed & Ew & Eh) & Ex).
  specialize (IH b1 m1 B1). rewrite Ew, Ex in IH. specialize (IH Hf Hz). unfold outside_cells in *. rewrite Ed, Ew, Eh in IH. specialize (IH Hzc).
  destruct (show fb font bytes b1 m1) as [b2 m2]. destruct IH as (Hr2 & B2 & Hs). unfold same_cells in *. split_and!; [by rewrite Hr2|done|intuition congruence..].
Qed.

(** The cells take four bytes each, but one byte is asked of [malloc] for each,
    and one more: a character in the last three quarters of the buffer is
    stored behind the block. *)
Theorem charbuf_overruns b cx cy : charbuf_ok b -> 0 <= cx < width b -> 0 <= cy < height b ->
  width b * height b < 4 * (width b * cy + cx) + 4 - 1 ->
  data b + charbuf_bytes (width b) (height b) < charbuf_at b cx cy + 4.
Proof.
  intros B Hx Hy Hc. destruct (cell_place b cx cy B Hx Hy) as [-> _]. pose proof B as [Hd Hw Hh He _].
  unfold charbuf_bytes. assert (0 <= width b * height b) by nia.
  rewrite (wrap64_small (width b * height b)) by (unfold is_u64; lia). rewrite wrap64_small by (unfold is_u64; lia). lia.
Qed.

(** [charbuf_puts] never returns from a string that is not empty. *)
Theorem charbuf_puts_hangs c s b m : c <> 0 -> charbuf_puts (c :: s) b m = Stop Hung.
Proof. intros H. unfold charbuf_puts. cbn. by rewrite (proj2 (Z.eqb_neq _ _)). Qed.
End Terminal.
