(* ===== verification/Ports.v ===== *)
(** * Port input and output

    Models src/kernel/src/io.h and io.cpp. What answers at the ports is hardware: a
    state [D] with class [PortBus], and with class [Mmio] for registers in memory. The
    drivers are programs over that state. *)

From S2P Require Import Prelude.

(** The bus: a read and a write of so many bits at a port. *)
Class PortBus (D : Type) := {
  bus_read : Z -> Z -> D -> Z * D;
  bus_write : Z -> Z -> Z -> D -> D
}.

(** Registers in memory: what answers there is hardware. *)
Class Mmio (D : Type) := {
  mmio_read32 : Z -> D -> Z * D;
  mmio_write32 : Z -> Z -> D -> D;
  mmio_read8 : Z -> D -> Z * D;
  mmio_write8 : Z -> Z -> D -> D
}.

(** Programs that use the bus. *)
Definition io (D A : Type) : Type := D -> A * D.

#[export] Instance io_ret D : MRet (io D) := fun A a d => (a, d).
#[export] Instance io_bind D : MBind (io D) := fun A B f m d => let '(a, d) := m d in f a d.

Section Instructions.
Context {D : Type} `{PortBus D}.

Definition out8 (port value : Z) : io D unit := fun d => (tt, bus_write 8 (wrap16 port) (wrap8 value) d).
Definition in8 (port : Z) : io D Z := fun d => let '(v, d) := bus_read 8 (wrap16 port) d in (wrap8 v, d).
Definition out16 (port value : Z) : io D unit := fun d => (tt, bus_write 16 (wrap16 port) (wrap16 value) d).
Definition in16 (port : Z) : io D Z := fun d => let '(v, d) := bus_read 16 (wrap16 port) d in (wrap16 v, d).
Definition out32 (port value : Z) : io D unit := fun d => (tt, bus_write 32 (wrap16 port) (wrap32 value) d).
Definition in32 (port : Z) : io D Z := fun d => let '(v, d) := bus_read 32 (wrap16 port) d in (wrap32 v, d).

(** A write to a port that nothing uses. *)
Definition io_wait : io D unit := out8 0x80 0.

End Instructions.

(** ** Lemmas *)

Lemma io_bind_run {D A B} (m : io D A) (f : A -> io D B) d : (m ≫= f) d = f (m d).1 (m d).2.
Proof. unfold mbind, io_bind. by destruct (m d). Qed.

Lemma in8_range {D} `{PortBus D} port d : 0 <= (in8 port d).1 < 256.
Proof. unfold in8. destruct (bus_read 8 (wrap16 port) d). apply Z.mod_pos_bound. lia. Qed.

Lemma io_ret_run {D A} (a : A) (d : D) : (mret a : io D A) d = (a, d).
Proof. done. Qed.

(** Runs a program step by step. *)
Ltac io_run := repeat ((rewrite io_bind_run || rewrite io_ret_run); cbn [fst snd]).

(** ** A bus that remembers

    Every port reads back what was written last; the writes are kept in order. *)
Record registers := mkRegisters { reg : Z -> Z; written : list (Z * Z) }.

#[export] Instance registers_bus : PortBus registers := {
  bus_read _ p d := (reg d p, d);
  bus_write _ p v d := mkRegisters (fun q => if q =? p then v else reg d q) (written d ++ [(p, v)])
}.

(** ** A bus whose writes are kept

    Any bus, with the list of the writes that were made to it. *)
Record traced (D : Type) := mkTraced { device : D; writes : list (Z * Z) }.
Arguments mkTraced {D} device writes.
Arguments device {D} t.
Arguments writes {D} t.

#[export] Instance traced_bus D `{PortBus D} : PortBus (traced D) := {
  bus_read w p t := let '(v, d) := bus_read w p (device t) in (v, mkTraced d (writes t));
  bus_write w p v t := mkTraced (bus_write w p v (device t)) (writes t ++ [(p, v)])
}.

Lemma in8_writes {D} `{PortBus D} p (t : traced D) : writes (in8 p t).2 = writes t.
Proof. unfold in8. cbn. by destruct (bus_read 8 (wrap16 p) (device t)). Qed.

Lemma out8_writes {D} `{PortBus D} p v (t : traced D) : writes (out8 p v t).2 = writes t ++ [(wrap16 p, wrap8 v)].
Proof. done. Qed.
