(* ===== verification/Serial.v ===== *)
(** * The serial port

    Models src/kernel/src/uart.h and uart.cpp: detection and set-up of the chip, and
    bytes, strings and numbers sent to COM1 and read from it. Colour codes are kept, as
    without [LENSOR_OS_UART_HIDE_COLOR_CODES]. *)

From S2P Require Import Prelude Ports.

Module Uart.

Definition COM1 : Z := 0x3f8.
Definition DATA_PORT (base : Z) : Z := base.
Definition DIVL_PORT (base : Z) : Z := base.
Definition DIVH_PORT (base : Z) : Z := base + 1.
Definition INTERRUPT_PORT (base : Z) : Z := base + 1.
Definition INT_ID_PORT (base : Z) : Z := base + 2.
Definition FIFO_CONTROL_PORT (base : Z) : Z := base + 2.
Definition LINE_CONTROL_PORT (base : Z) : Z := base + 3.
Definition MODEM_CONTROL_PORT (base : Z) : Z := base + 4.
Definition LINE_STATUS_PORT (base : Z) : Z := base + 5.
Definition SCRATCH_PORT (base : Z) : Z := base + 7.

Definition BAUD_DIVISOR : Z := 115200 / 9600.
Definition INTERRUPT_PORT_DATA_AVAILABLE : Z := 1.

Inductive Chip := NONE | C8250 | C16450 | C16550 | C16550A | C16750.

#[export] Instance chip_eq_dec : EqDecision Chip.
Proof. solve_decision. Defined.

Definition get_uart_chip_name (ch : Chip) : string :=
  match ch with
  | NONE => "Invalid UART chip"
  | C8250 => "8250"
  | C16450 => "16450"
  | C16550 => "16550"
  | C16550A => "16550A"
  | C16750 => "16750"
  end.

(** [(u16)1000000] *)
Definition maxSpins : Z := wrap16 1000000.

Section Driver.
Context {D : Type} `{PortBus D}.

(** [while ((in8(LINE_STATUS_PORT(COM1)) & mask) == 0 && maxSpins > 0) maxSpins--;]
    and what is left of [maxSpins]. *)
Fixpoint spin (mask : Z) (n : nat) : io D nat :=
  status ← in8 (LINE_STATUS_PORT COM1);
  if Z.land status mask =? 0 then
    match n with
    | O => mret 0%nat
    | S n => spin mask n
    end
  else mret n.

Definition out_raw (Initialized : bool) (byte : Z) : io D unit :=
  if negb Initialized then mret tt
  else
    left ← spin (Z.shiftl 1 5) (Z.to_nat maxSpins);
    if (left =? 0)%nat then mret tt else out8 COM1 byte.

(** The chip, and whether the loop-back test has passed. *)
Definition initialize : io D (Chip * bool) :=
  _ ← out8 (INTERRUPT_PORT COM1) 0;
  _ ← out8 (LINE_CONTROL_PORT COM1) 128;
  _ ← out8 (DIVL_PORT COM1) BAUD_DIVISOR;
  _ ← out8 (DIVH_PORT COM1) (Z.shiftr (wrap16 BAUD_DIVISOR) 8);
  _ ← out8 (LINE_CONTROL_PORT COM1) 3;
  _ ← out8 (FIFO_CONTROL_PORT COM1) 199;
  fifo_test ← in8 (INT_ID_PORT COM1);
  chip ←
    (if negb (Z.land fifo_test (Z.shiftl 1 6) =? 0) then
       if negb (Z.land fifo_test (Z.shiftl 1 7) =? 0) then
         mret (if negb (Z.land fifo_test (Z.shiftl 1 5) =? 0) then C16750 else C16550A)
       else mret C16550
     else
       _ ← out8 (SCRATCH_PORT COM1) 0x2a;
       scratch_returned ← in8 (SCRATCH_PORT COM1);
       mret (if scratch_returned =? 0x2a then C16450 else C8250));
  _ ← out8 (MODEM_CONTROL_PORT COM1) 31;
  _ ← out8 COM1 0xae;
  test ← in8 COM1;
  if negb (test =? 0xae) then mret (chip, false)
  else
    _ ← out8 (MODEM_CONTROL_PORT COM1) 15;
    _ ← out8 (INTERRUPT_PORT COM1) INTERRUPT_PORT_DATA_AVAILABLE;
    mret (chip, true).

Definition read (Initialized : bool) : io D Z :=
  if negb Initialized then mret 0
  else
    left ← spin 1 (Z.to_nat maxSpins);
    if (left =? 0)%nat then mret 0 else in8 (DATA_PORT COM1).

Definition out (Initialized : bool) (byte : Z) : io D unit :=
  _ ← (if byte =? 0 then _ ← out_raw Initialized 92; out_raw Initialized 48 else mret tt);
  _ ← (if byte =? 10 then out_raw Initialized 13 else mret tt);
  out_raw Initialized byte.

(** [out(std::string_view)] goes on to the null byte behind [str.data()]: [memory] is
    what is there. *)
Fixpoint out_str (Initialized : bool) (memory : list Z) : io D (outcome unit) :=
  if negb Initialized then mret (Done tt)
  else
    match memory with
    | [] => mret (Stop Undefined)
    | c :: memory => if c =? 0 then mret (Done tt) else _ ← out Initialized c; out_str Initialized memory
    end.

(** [out(const u8*, u64)]: the bytes of the buffer. *)
Fixpoint out_loop (Initialized : bool) (bytes : list Z) : io D unit :=
  match bytes with
  | [] => mret tt
  | c :: bytes => _ ← out Initialized c; out_loop Initialized bytes
  end.

Definition out_buffer (Initialized : bool) (bytes : list Z) : io D (outcome unit) :=
  if negb Initialized then mret (Done tt)
  else if 1000000000000 <? Z.of_nat (length bytes) then mret (Stop Panicked)
  else _ ← out_loop Initialized bytes; mret (Done tt).

End Driver.

(** ** What a transmitter does

    [sent] is what has gone out on the line; the chip can say that it is busy so many
    more times. Reading the line status changes nothing but that. *)
Class Transmitter (D : Type) `{PortBus D} := {
  sent : D -> list Z;
  busy : D -> nat;
  status_sent d : sent (in8 (LINE_STATUS_PORT COM1) d).2 = sent d;
  status_busy d : (busy (in8 (LINE_STATUS_PORT COM1) d).2 < busy d)%nat \/ Z.land (in8 (LINE_STATUS_PORT COM1) d).1 32 ≠ 0;
  write_sent d b : 0 <= b < 256 -> sent (out8 COM1 b d).2 = sent d ++ [b];
  write_busy d b : (busy (out8 COM1 b d).2 < 1000)%nat
}.

Section Sending.
Context {D : Type} `{Transmitter D}.

(** The loop ends with spins left when the chip is busy for less than them. *)
Lemma spin_spec n d : (busy d < n)%nat -> exists left, (spin 32 n d).1 = S left /\ sent (spin 32 n d).2 = sent d.
Proof.
  revert d. induction n as [|n IH]; intros d Hb; [lia|]. cbn [spin]. io_run.
  destruct (status_busy d) as [Hd|Hd].
  - destruct (Z.eqb_spec (Z.land (in8 (LINE_STATUS_PORT COM1) d).1 32) 0) as [_|_].
    + destruct (IH (in8 (LINE_STATUS_PORT COM1) d).2) as (left & E & Es); [lia|]. exists left. by rewrite E, Es, status_sent.
    + exists n. split; [done|apply status_sent].
  - rewrite (proj2 (Z.eqb_neq _ _) Hd). exists n. split; [done|apply status_sent].
Qed.

Definition idle (d : D) : Prop := (busy d < 1000)%nat.

Lemma out_raw_spec b d : 0 <= b < 256 -> idle d -> sent (out_raw true b d).2 = sent d ++ [b] /\ idle (out_raw true b d).2.
Proof.
  intros Hb Hi. unfold out_raw. cbn [negb]. change (Z.shiftl 1 5) with 32. io_run.
  destruct (spin_spec (Z.to_nat maxSpins) d) as (left & E & Es); [unfold idle in Hi; change maxSpins with 16960; lia|].
  rewrite E. change (S left =? 0)%nat with false. cbn iota. split; [by rewrite write_sent, Es|]. apply write_busy.
Qed.

(** What a byte becomes on the line. *)
Definition line_bytes (b : Z) : list Z := if b =? 0 then [92; 48; 0] else if b =? 10 then [13; 10] else [b].

Lemma out_spec b d : 0 <= b < 256 -> idle d -> sent (out true b d).2 = sent d ++ line_bytes b /\ idle (out true b d).2.
Proof.
  intros Hb Hi. unfold out, line_bytes. io_run. destruct (Z.eqb_spec b 0) as [->|Hn0].
  - destruct (out_raw_spec 92 d ltac:(lia) Hi) as [E1 I1]. destruct (out_raw_spec 48 _ ltac:(lia) I1) as [E2 I2]. destruct (out_raw_spec 0 _ ltac:(lia) I2) as [E3 I3].
    change (0 =? 10) with false. cbn iota. io_run. split; [by rewrite E3, E2, E1, <- !app_assoc|done].
  - cbn iota. destruct (Z.eqb_spec b 10) as [->|Hn10].
    + destruct (out_raw_spec 13 d ltac:(lia) Hi) as [E1 I1]. destruct (out_raw_spec 10 _ ltac:(lia) I1) as [E2 I2]. io_run. split; [by rewrite E2, E1, <- app_assoc|done].
    + io_run. by apply out_raw_spec.
Qed.

Lemma out_loop_spec bytes d : Forall (fun b => 0 <= b < 256) bytes -> idle d ->
  sent (out_loop true bytes d).2 = sent d ++ (bytes ≫= line_bytes) /\ idle (out_loop true bytes d).2.
Proof.
  intros Hb. revert d. induction Hb as [|b bytes Hb Hbs IH]; intros d Hi; cbn [out_loop]; [by rewrite app_nil_r|]. io_run.
  destruct (out_spec b d Hb Hi) as [E I]. destruct (IH _ I) as [E2 I2]. split; [|done]. rewrite E2, E, <- app_assoc. done.
Qed.

Lemma out_str_loop s rest d : Forall (fun b => 0 < b < 256) s -> out_str true (s ++ 0 :: rest) d = (Done tt, (out_loop true s d).2).
Proof.
  intros Hs. revert d. induction Hs as [|b s Hb Hs IH]; intros d; [done|]. cbn [out_str app negb]. rewrite (proj2 (Z.eqb_neq b 0)) by lia.
  cbn [out_loop]. io_run. by rewrite IH.
Qed.

(** ** Claims *)

(** A string or a buffer goes out on the line whole and in order, each new line with a
    carriage return before it, as long as the chip is not busy for longer than a
    thousand polls. *)
Theorem serial_output_in_order bytes s rest d :
  idle d -> Forall (fun b => 0 <= b < 256) bytes -> Z.of_nat (length bytes) <= 1000000000000 -> Forall (fun b => 0 < b < 256) s ->
  ((out_buffer true bytes d).1 = Done tt /\ sent (out_buffer true bytes d).2 = sent d ++ (bytes ≫= line_bytes)) /\
  ((out_str true (s ++ 0 :: rest) d).1 = Done tt /\ sent (out_str true (s ++ 0 :: rest) d).2 = sent d ++ (s ≫= line_bytes)).
Proof.
  intros Hi Hb Hl Hs. split.
  - unfold out_buffer. cbn [negb]. rewrite (proj2 (Z.ltb_ge _ _) Hl). io_run. split; [done|]. by apply out_loop_spec.
  - rewrite out_str_loop by done. split; [done|]. apply out_loop_spec; [|done]. eapply Forall_impl; [done|]. cbn. lia.
Qed.

End Sending.

(** ** A chip that is busy for a while after every byte *)

Record line := mkLine { on_line : list Z; waiting : nat }.

#[export] Instance line_bus : PortBus line := {
  bus_read _ p d := if p =? 0x3fd then (match waiting d with O => 32 | S _ => 0 end, mkLine (on_line d) (pred (waiting d))) else (0, d);
  bus_write _ p v d := if p =? 0x3f8 then mkLine (on_line d ++ [v]) 3 else d
}.

#[export, refine] Instance line_transmitter : Transmitter line := { sent := on_line; busy := waiting }.
Proof.
  - intros d. done.
  - intros [l [|w]]; [right; by vm_compute|left; change (w < S w)%nat; lia].
  - intros d b Hb. change (on_line d ++ [wrap8 b] = on_line d ++ [b]). unfold wrap8. by rewrite Z.mod_small by lia.
  - intros d b. change (3 < 1000)%nat. lia.
Defined.

Lemma serial_output_in_order_witness :
  (out_buffer true [72; 105; 10] (mkLine [] 0)).1 = Done tt /\ sent (out_buffer true [72; 105; 10] (mkLine [] 0)).2 = [72; 105; 13; 10].
Proof.
  change [72; 105; 13; 10] with (sent (mkLine [] 0) ++ ([72; 105; 10] ≫= line_bytes)).
  apply (fun H1 H2 H3 H4 => proj1 (serial_output_in_order [72; 105; 10] [] [] (mkLine [] 0) H1 H2 H3 H4)); [|repeat constructor; lia|cbn; lia|constructor].
  change (0 < 1000)%nat. lia.
Defined.

End Uart.
