(* ===== verification/Pit.v ===== *)
(** * The interval timer

    Models src/kernel/src/pit.h and pit.cpp, the programmable interval timer and the
    speaker, over the ports. *)

From S2P Require Import Prelude Ports.

Module Pit.

Definition PIT_MAX_FREQ : Z := 1193180.

(** On the virtual machines, and elsewhere. *)
Definition PIT_DIVISOR (virtual : bool) : Z := if virtual then 59659 else 1193.
Definition PIT_FREQUENCY (virtual : bool) : Z := PIT_MAX_FREQ / PIT_DIVISOR virtual.

Definition PIT_CH0_DAT : Z := 0x40.
Definition PIT_CH2_DAT : Z := 0x42.
Definition PIT_CMD : Z := 0x43.
Definition PIT_PCSPK : Z := 0x61.

Inductive Channel := Zero | Two.
Inductive Access := LatchCount | LowOnly | HighOnly | HighAndLow.
Inductive Mode := InterruptOnTerminalCount | HardwareRetriggerableOneShot | RateGenerator | SquareWaveGenerator | SoftwareStrobe | HardwareStrobe.

#[export] Instance channel_eq_dec : EqDecision Channel. Proof. solve_decision. Defined.
#[export] Instance access_eq_dec : EqDecision Access. Proof. solve_decision. Defined.
#[export] Instance mode_eq_dec : EqDecision Mode. Proof. solve_decision. Defined.

Definition channel_value (c : Channel) : Z := match c with Zero => 0 | Two => 128 end.
Definition access_value (a : Access) : Z := match a with LatchCount => 0 | LowOnly => 16 | HighOnly => 32 | HighAndLow => 48 end.
Definition mode_value (m : Mode) : Z :=
  match m with
  | InterruptOnTerminalCount => 0 | HardwareRetriggerableOneShot => 2 | RateGenerator => 4
  | SquareWaveGenerator => 6 | SoftwareStrobe => 8 | HardwareStrobe => 10
  end.

Record PIT := mkPIT { Ticks : Z; TicksToWait : Z }.

Definition tick (p : PIT) : PIT := mkPIT (Ticks p +64 1) (TicksToWait p).

Section Driver.
Context {D : Type} `{PortBus D} (virtual : bool).

Definition seconds_since_boot (p : PIT) : Z := Ticks p / PIT_FREQUENCY virtual.
Definition milliseconds_since_boot (p : PIT) : Z := (Ticks p *64 1000) / PIT_FREQUENCY virtual.
Definition prepare_wait_milliseconds (ms : Z) (p : PIT) : PIT := mkPIT (Ticks p) ((ms *64 PIT_FREQUENCY virtual) / 1000).

(** [hlt] returns after an interrupt; [wakes] says of each whether it was one of the
    timer. *)
Fixpoint wait_until (tickToWaitTo : Z) (wakes : list bool) (p : PIT) : outcome (PIT * list bool) :=
  if Ticks p <? tickToWaitTo then
    match wakes with
    | [] => Stop Hung
    | b :: wakes => wait_until tickToWaitTo wakes (if b then tick p else p)
    end
  else Done (p, wakes).

Definition wait (wakes : list bool) (p : PIT) : outcome (PIT * list bool) := wait_until (Ticks p +64 TicksToWait p) wakes p.

Definition start_speaker : io D unit := tmp ← in8 PIT_PCSPK; out8 PIT_PCSPK (Z.lor tmp 3).
Definition stop_speaker : io D unit := tmp ← in8 PIT_PCSPK; out8 PIT_PCSPK (Z.land tmp 252).

Definition configure_channel (channel : Channel) (access : Access) (mode : Mode) (frequency : Z) : io D unit :=
  _ ← (if decide (access = LatchCount) then out8 PIT_CMD (channel_value channel) else mret tt);
  if bool_decide (channel ≠ Zero) && bool_decide (mode = InterruptOnTerminalCount) then mret tt
  else if bool_decide (mode = HardwareStrobe) && bool_decide (channel = Zero) then mret tt
  else if (bool_decide (mode = RateGenerator) || bool_decide (mode = SquareWaveGenerator)) && (frequency =? PIT_MAX_FREQ) then mret tt
  else if frequency =? 0 then mret tt
  else
    let command := Z.ldiff (Z.lor (Z.lor (channel_value channel) (access_value access)) (mode_value mode)) 1 in
    let divisor := wrap16 (PIT_MAX_FREQ / frequency) in
    _ ← out8 PIT_CMD command;
    let dataPort := if decide (channel = Two) then PIT_CH2_DAT else PIT_CH0_DAT in
    _ ← (if bool_decide (access = HighAndLow) || bool_decide (access = HighOnly) then out8 dataPort (Z.land divisor 0xff) else mret tt);
    if bool_decide (access = HighAndLow) || bool_decide (access = LowOnly) then out8 dataPort (Z.shiftr (Z.land divisor 0xff00) 8) else mret tt.

(** The constructor. *)
Definition new_PIT : io D PIT :=
  _ ← configure_channel Zero HighAndLow RateGenerator (PIT_FREQUENCY virtual);
  _ ← configure_channel Two HighAndLow SquareWaveGenerator 440;
  mret (mkPIT 0 0).

Definition play_sound (frequency ms : Z) (wakes : list bool) (p : PIT) (d : D) : outcome (PIT * list bool * D) :=
  if (frequency =? 0) || (ms <=? 0) then Done (p, wakes, d)
  else
    let '(_, d) := configure_channel Two HighAndLow SquareWaveGenerator frequency d in
    let p := prepare_wait_milliseconds ms p in
    let '(_, d) := start_speaker d in
    '(p, wakes) ← wait wakes p;
    let '(_, d) := stop_speaker d in
    Done (p, wakes, d).

End Driver.

(** ** Lemmas *)

Lemma divisor_bytes v : 0 <= v < 2 ^ 16 -> Z.land v 0xff = v mod 256 /\ Z.shiftr (Z.land v 0xff00) 8 = v / 256.
Proof.
  intros Hv. change 0xff00 with (Z.shiftl (Z.ones 8) 8). change 0xff with (Z.ones 8). rewrite Z.shiftr_land, Z.shiftr_shiftl_l by lia. change (8 - 8) with 0.
  rewrite Z.shiftl_0_r, !Z.land_ones, Z.shiftr_div_pow2 by lia. split; [done|]. apply Z.mod_small. dlia.
Qed.

Lemma wait_until_enough target wakes p : 0 <= Ticks p -> target < 2 ^ 64 -> target - Ticks p <= Z.of_nat (length (filter (fun b => b = true) wakes)) ->
  exists rest, wait_until target wakes p = Done (mkPIT (Z.max (Ticks p) target) (TicksToWait p), rest).
Proof.
  revert p. induction wakes as [|b wakes IH]; intros p H0 Ht Hn; cbn [wait_until].
  - cbn in Hn. rewrite (proj2 (Z.ltb_ge _ _)) by lia. exists []. rewrite Z.max_l by lia. by destruct p.
  - destruct (Z.ltb_spec (Ticks p) target) as [Hlt|Hge]; [|exists (b :: wakes); rewrite Z.max_l by lia; by destruct p].
    destruct b.
    + rewrite filter_cons_True in Hn by congruence. cbn [length] in Hn. destruct (IH (tick p)) as (rest & E).
      * cbn. rewrite wrap64_small; unfold is_u64; lia.
      * done.
      * cbn [tick Ticks]. rewrite wrap64_small by (unfold is_u64; lia). lia.
      * exists rest. rewrite E. cbn [tick Ticks TicksToWait]. rewrite wrap64_small by (unfold is_u64; lia). do 3 f_equal. lia.
    + rewrite filter_cons_False in Hn by congruence. by apply IH.
Qed.

(** ** Claims *)

(** A channel set to both bytes gets the divisor of its frequency, low byte first: what
    the timer reads is the highest frequency divided by the one asked for, as long as
    that fits sixteen bits. *)
Theorem channel_gets_its_divisor D `{PortBus D} (t : traced D) channel mode frequency :
  19 <= frequency -> frequency < PIT_MAX_FREQ -> (channel = Zero /\ mode ≠ HardwareStrobe) \/ (channel = Two /\ mode ≠ InterruptOnTerminalCount) ->
  exists command low high, writes (configure_channel channel HighAndLow mode frequency t).2 =
      writes t ++ [(PIT_CMD, command); (if decide (channel = Two) then PIT_CH2_DAT else PIT_CH0_DAT, low); (if decide (channel = Two) then PIT_CH2_DAT else PIT_CH0_DAT, high)] /\
    low + 256 * high = PIT_MAX_FREQ / frequency /\ 0 <= low < 256 /\ 0 <= high < 256 /\ command = channel_value channel + access_value HighAndLow + mode_value mode.
Proof.
  intros Hlo Hhi Hmode. unfold configure_channel. rewrite (decide_False (P := HighAndLow = LatchCount)) by done. io_run.
  assert (Hdiv : 0 <= PIT_MAX_FREQ / frequency < 2 ^ 16).
  { split; [apply Z.div_pos; unfold PIT_MAX_FREQ; lia|]. apply Z.div_lt_upper_bound; unfold PIT_MAX_FREQ in *; lia. }
  rewrite (proj2 (Z.eqb_neq frequency PIT_MAX_FREQ)), (proj2 (Z.eqb_neq frequency 0)), andb_false_r by lia.
  unfold wrap16. rewrite (Z.mod_small _ _ Hdiv). destruct (divisor_bytes _ Hdiv) as [E1 E2]. rewrite E1, E2.
  set (v := PIT_MAX_FREQ / frequency) in *. clearbody v. assert (Hb : 0 <= v mod 256 < 256 /\ 0 <= v / 256 < 256) by dlia.
  exists (channel_value channel + access_value HighAndLow + mode_value mode), (v mod 256), (v / 256).
  split; [|split_and!; (lia || dlia)].
  assert (W : forall b, 0 <= b < 256 -> wrap8 b = b) by (intros; by apply Z.mod_small).
  destruct channel, mode; try (exfalso; naive_solver); repeat first [rewrite bool_decide_true by done | rewrite bool_decide_false by (by intros ?)]; cbn [andb orb]; io_run; rewrite !out8_writes, <- !app_assoc, !(W (v mod 256)), !(W (v / 256)) by lia; reflexivity.
Qed.

(** [wait] returns when so many ticks have come as were prepared, whatever else wakes
    the processor. *)
Theorem wait_waits_for_the_ticks virtual ms wakes p :
  0 <= ms -> ms * PIT_FREQUENCY virtual < 2 ^ 63 -> 0 <= Ticks p < 2 ^ 63 -> ms * PIT_FREQUENCY virtual / 1000 <= Z.of_nat (length (filter (fun b => b = true) wakes)) ->
  exists p' rest, wait wakes (prepare_wait_milliseconds virtual ms p) = Done (p', rest) /\ Ticks p' = Ticks p + ms * PIT_FREQUENCY virtual / 1000.
Proof.
  intros H0 Hm Ht Hn. unfold wait, prepare_wait_milliseconds. cbn [Ticks TicksToWait]. assert (Hf : 0 <= PIT_FREQUENCY virtual) by (by destruct virtual; vm_compute).
  assert (Hp : 0 <= ms * PIT_FREQUENCY virtual) by (by apply Z.mul_nonneg_nonneg). generalize dependent (ms * PIT_FREQUENCY virtual). intros n Hm Hn Hp. rewrite !(wrap64_small n) by (unfold is_u64; lia).
  assert (Hd : 0 <= n / 1000 < 2 ^ 63) by dlia. rewrite wrap64_small by (unfold is_u64; lia).
  destruct (wait_until_enough (Ticks p + n / 1000) wakes (mkPIT (Ticks p) (n / 1000))) as (rest & E); cbn [Ticks]; [lia|lia|lia|].
  eexists _, rest. split; [exact E|]. cbn. lia.
Qed.

Lemma channel_gets_its_divisor_witness :
  exists command low high, writes (configure_channel Two HighAndLow SquareWaveGenerator 440 (mkTraced (mkRegisters (fun _ => 0) []) [])).2 =
      [(PIT_CMD, command); (PIT_CH2_DAT, low); (PIT_CH2_DAT, high)] /\ low + 256 * high = PIT_MAX_FREQ / 440 /\ 0 <= low < 256 /\ 0 <= high < 256 /\ command = 182.
Proof. apply (channel_gets_its_divisor registers (mkTraced (mkRegisters (fun _ => 0) []) []) Two SquareWaveGenerator 440); [lia|unfold PIT_MAX_FREQ; lia|by right]. Defined.

Lemma wait_waits_for_the_ticks_witness :
  exists p' rest, wait [true; false; true; true] (prepare_wait_milliseconds true 100 (mkPIT 7 0)) = Done (p', rest) /\ Ticks p' = 9.
Proof. apply (wait_waits_for_the_ticks true 100 [true; false; true; true] (mkPIT 7 0)); vm_compute; intuition congruence. Defined.

End Pit.
