(* ===== verification/Rtc.v ===== *)
(** * The real-time clock

    Models src/kernel/src/rtc.h and rtc.cpp over the ports. *)

From S2P Require Import Prelude Ports.

Module Rtc.

Definition CMOS_ADDR : Z := 0x70.
Definition CMOS_DATA : Z := 0x71.
Definition CURRENT_YEAR : Z := 2022.
Definition CENTURY_REGISTER : Z := 0.

(** On the virtual machines, and elsewhere. *)
Definition RTC_PERIODIC_RATE (virtual : bool) : Z := if virtual then 10 else 6.
Definition RTC_PERIODIC_HERTZ (virtual : bool) : Z := Z.shiftr 32768 (RTC_PERIODIC_RATE virtual - 1).

Record RTCData := mkData { second : Z; minute : Z; hour : Z; weekday : Z; date : Z; month : Z; year : Z; century : Z }.

#[export] Instance data_eq_dec : EqDecision RTCData.
Proof. solve_decision. Defined.

Definition no_data : RTCData := mkData 0 0 0 0 0 0 0 0.

Definition seconds_since_boot (virtual : bool) (Ticks : Z) : Z := Ticks / RTC_PERIODIC_HERTZ virtual.
Definition milliseconds_since_boot (virtual : bool) (Ticks : Z) : Z := (Ticks *64 1000) / RTC_PERIODIC_HERTZ virtual.

(** Binary coded decimals of a byte. *)
Definition from_bcd (v : Z) : Z := wrap8 (Z.land v 0x0f + v / 16 * 10).
Definition hour_from_bcd (v : Z) : Z := wrap8 (Z.lor (Z.land v 0x0f + Z.land v 0x70 / 16 * 10) (Z.land v 0x80)).

Definition bcd_to_binary (t : RTCData) : RTCData :=
  mkData (from_bcd (second t)) (from_bcd (minute t)) (hour_from_bcd (hour t)) (from_bcd (weekday t)) (from_bcd (date t)) (from_bcd (month t))
    (Z.land (year t) 0x0f + year t / 16 * 10) (century t).

Definition with_hour (h : Z) (t : RTCData) : RTCData := mkData (second t) (minute t) h (weekday t) (date t) (month t) (year t) (century t).
Definition with_year (y : Z) (t : RTCData) : RTCData := mkData (second t) (minute t) (hour t) (weekday t) (date t) (month t) y (century t).

(** What [update_data] makes of the registers, given status register B. *)
Definition decode (statusB : Z) (t : RTCData) : RTCData :=
  let t := if Z.land statusB 4 =? 0 then bcd_to_binary t else t in
  let t := if negb (Z.land statusB 2 =? 0) && negb (Z.land (hour t) 0x80 =? 0) then with_hour ((Z.land (hour t) 0x7f + 12) mod 24) t else t in
  let y := wrap32 (year t + CURRENT_YEAR / 100 * 100) in
  with_year (if y <? CURRENT_YEAR then wrap32 (y + 100) else y) t.

Section Driver.
Context {D : Type} `{PortBus D}.

Definition read_register (reg : Z) : io D Z := _ ← out8 CMOS_ADDR reg; in8 CMOS_DATA.

Definition is_rtc_updating : io D Z := _ ← out8 CMOS_ADDR 0x0a; status ← in8 CMOS_DATA; mret (Z.land status 128).

Definition set_periodic_int_enabled (enabled : bool) : io D unit :=
  statusB ← read_register 0x8b;
  _ ← out8 CMOS_ADDR 0x8b;
  out8 CMOS_DATA (if enabled then Z.lor statusB 64 else Z.land statusB 191).

(** [CENTURY_REGISTER] is zero: the century is not read. *)
Definition get_rtc_data (old : RTCData) : io D RTCData :=
  s ← read_register 0x00;
  mi ← read_register 0x02;
  h ← read_register 0x04;
  w ← read_register 0x06;
  da ← read_register 0x07;
  mo ← read_register 0x08;
  y ← read_register 0x09;
  mret (mkData s mi h w da mo y (century old)).

(** [while (is_rtc_updating() != 0);] *)
Fixpoint spin (fuel : nat) (d : D) : outcome D :=
  match fuel with
  | O => Stop Hung
  | S fuel => let '(u, d) := is_rtc_updating d in if u =? 0 then Done d else spin fuel d
  end.

(** The loop that reads the clock until it reads the same twice. *)
Fixpoint read_twice (fuel : nat) (newTime Time : RTCData) (d : D) : outcome (RTCData * D) :=
  match fuel with
  | O => Stop Hung
  | S f =>
      let '(newTime, d) := get_rtc_data newTime d in
      d ← spin fuel d;
      let '(Time, d) := get_rtc_data Time d in
      if decide (newTime = Time) then Done (Time, d) else read_twice f newTime Time d
  end.

Definition update_data (fuel : nat) (Time : RTCData) (d : D) : outcome (RTCData * D) :=
  d ← spin fuel d;
  let '(Time, d) := get_rtc_data Time d in
  d ← spin fuel d;
  '(Time, d) ← read_twice fuel no_data Time d;
  let '(statusB, d) := read_register 0x0b d in
  Done (decode statusB Time, d).

(** The constructor: [statusA & 0x11110000] is a hexadecimal number where a binary one is
    meant. *)
Definition new_RTC (virtual : bool) (fuel : nat) (d : D) : outcome (RTCData * D) :=
  '(Time, d) ← update_data fuel no_data d;
  let '(statusA, d) := read_register 0x8a d in
  let '(_, d) := out8 CMOS_ADDR 0x8a d in
  let '(_, d) := out8 CMOS_DATA (Z.lor (Z.land statusA 0x11110000) (RTC_PERIODIC_RATE virtual)) d in
  Done (Time, d).

End Driver.

(** ** The clock

    The registers of a clock that does not tick while it is read, and how often it says
    yet that it is being updated. *)
Class ClockDevice (D : Type) `{PortBus D} := {
  cmos : D -> Z -> Z;
  updating : D -> nat;
  cmos_byte d r : 0 <= cmos d r < 256;
  reg_read r d : r ≠ 0x0a -> 0 <= r < 128 -> (read_register r d).1 = cmos d r;
  reg_keeps r d : 0 <= r < 128 -> cmos (read_register r d).2 = cmos d /\ (updating (read_register r d).2 <= updating d)%nat;
  poll d : Z.land (read_register 0x0a d).1 128 = 0 \/ (updating (read_register 0x0a d).2 < updating d)%nat
}.

Section Reading.
Context {D : Type} `{ClockDevice D}.

Lemma updating_read d : is_rtc_updating d = (Z.land (read_register 0x0a d).1 128, (read_register 0x0a d).2).
Proof. unfold is_rtc_updating, read_register. by io_run. Qed.

Lemma spin_ends fuel d : (updating d < fuel)%nat -> exists d', spin fuel d = Done d' /\ cmos d' = cmos d /\ (updating d' <= updating d)%nat.
Proof.
  revert d. induction fuel as [|fuel IH]; intros d Hf; [lia|]. cbn [spin]. rewrite updating_read. destruct (reg_keeps 0x0a d ltac:(lia)) as [K1 K2].
  destruct (Z.eqb_spec (Z.land (read_register 0x0a d).1 128) 0) as [|Hne]; [by exists (read_register 0x0a d).2|].
  destruct (poll d) as [Hz|Hlt]; [done|]. destruct (IH (read_register 0x0a d).2 ltac:(lia)) as (d' & E & E1 & E2). exists d'. split_and!; [done|by rewrite E1|lia].
Qed.

(** The registers as they are. *)
Definition raw (c : Z) (d : D) : RTCData := mkData (cmos d 0) (cmos d 2) (cmos d 4) (cmos d 6) (cmos d 7) (cmos d 8) (cmos d 9) c.

Lemma get_rtc_data_spec old d : exists d', get_rtc_data old d = (raw (century old) d, d') /\ cmos d' = cmos d /\ (updating d' <= updating d)%nat.
Proof.
  unfold get_rtc_data, raw. io_run.
  repeat match goal with |- context [(read_register ?r ?e).1] => rewrite (reg_read r e) by lia end.
  set (d1 := (read_register 0 d).2). destruct (reg_keeps 0 d ltac:(lia)) as [K1 U1]. fold d1 in K1, U1. clearbody d1.
  set (d2 := (read_register 2 d1).2). destruct (reg_keeps 2 d1 ltac:(lia)) as [K2 U2]. fold d2 in K2, U2. clearbody d2.
  set (d3 := (read_register 4 d2).2). destruct (reg_keeps 4 d2 ltac:(lia)) as [K3 U3]. fold d3 in K3, U3. clearbody d3.
  set (d4 := (read_register 6 d3).2). destruct (reg_keeps 6 d3 ltac:(lia)) as [K4 U4]. fold d4 in K4, U4. clearbody d4.
  set (d5 := (read_register 7 d4).2). destruct (reg_keeps 7 d4 ltac:(lia)) as [K5 U5]. fold d5 in K5, U5. clearbody d5.
  set (d6 := (read_register 8 d5).2). destruct (reg_keeps 8 d5 ltac:(lia)) as [K6 U6]. fold d6 in K6, U6. clearbody d6.
  destruct (reg_keeps 9 d6 ltac:(lia)) as [K7 U7]. eexists. rewrite K6, K5, K4, K3, K2, K1 in *. split_and!; [reflexivity|done|lia].
Qed.

Lemma update_data_spec fuel Time d : (updating d < fuel)%nat -> century Time = 0 ->
  exists d', update_data fuel Time d = Done (decode (cmos d 0x0b) (raw 0 d), d').
Proof.
  intros Hf Hc. unfold update_data. destruct (spin_ends fuel d Hf) as (d1 & -> & K1 & U1). cbn [mbind outcome_bind].
  destruct (get_rtc_data_spec Time d1) as (d2 & -> & K2 & U2). destruct (spin_ends fuel d2 ltac:(lia)) as (d3 & -> & K3 & U3). cbn [mbind outcome_bind].
  assert (Hraw : forall c e, cmos e = cmos d -> raw c e = raw c d) by (intros c e E; unfold raw; by rewrite E).
  destruct fuel as [|f]; [lia|]. cbn [read_twice]. destruct (get_rtc_data_spec no_data d3) as (d4 & -> & K4 & U4).
  destruct (spin_ends (S f) d4 ltac:(lia)) as (d5 & -> & K5 & U5). cbn [mbind outcome_bind].
  destruct (get_rtc_data_spec (raw (century Time) d1) d5) as (d6 & -> & K6 & U6). cbn [century raw no_data]. rewrite Hc.
  rewrite (Hraw 0 d3) by congruence. rewrite (Hraw 0 d5) by congruence. rewrite decide_True by done. cbn [mbind outcome_bind].
  rewrite (surjective_pairing (read_register 0x0b d6)), (reg_read 0x0b d6) by lia. eexists. rewrite K6, K5, K4, K3, K2, K1. reflexivity.
Qed.

End Reading.

(** ** What the registers mean *)

(** A byte in binary coded decimals. *)
Definition bcd (n : Z) : Z := 16 * (n / 10) + n mod 10.

Definition small_ok (f : Z -> bool) (n : nat) : bool := forallb (fun k => f (Z.of_nat k)) (seq 0 n).

Lemma small_ok_spec f n z : small_ok f n = true -> 0 <= z < Z.of_nat n -> f z = true.
Proof.
  intros Hf Hz. unfold small_ok in Hf. rewrite forallb_forall in Hf. rewrite <- (Z2Nat.id z) by lia. apply Hf, in_seq. lia.
Qed.

Lemma from_bcd_bcd n : 0 <= n < 100 -> from_bcd (bcd n) = n.
Proof. intros Hn. apply Z.eqb_eq. by apply (small_ok_spec (fun n => from_bcd (bcd n) =? n) 100). Qed.

Lemma hour_from_bcd_bcd n : 0 <= n < 80 -> hour_from_bcd (bcd n) = n.
Proof. intros Hn. apply Z.eqb_eq. by apply (small_ok_spec (fun n => hour_from_bcd (bcd n) =? n) 80). Qed.

Lemma year_bcd n : 0 <= n < 100 -> Z.land (bcd n) 0x0f + bcd n / 16 * 10 = n.
Proof. intros Hn. apply Z.eqb_eq. by apply (small_ok_spec (fun n => Z.land (bcd n) 0x0f + bcd n / 16 * 10 =? n) 100). Qed.

Lemma hour_below_128 n : 0 <= n < 24 -> Z.land n 0x80 = 0.
Proof. intros Hn. apply Z.eqb_eq. by apply (small_ok_spec (fun n => Z.land n 0x80 =? 0) 24). Qed.

(** A time of day and a date, with the last two digits of the year. *)
Record moment_ok (t : RTCData) : Prop := {
  t_second : 0 <= second t < 60;
  t_minute : 0 <= minute t < 60;
  t_hour : 0 <= hour t < 24;
  t_weekday : 0 <= weekday t < 10;
  t_date : 0 <= date t < 32;
  t_month : 0 <= month t < 13;
  t_year : 0 <= year t < 100
}.

(** The registers that hold a moment, in binary or in decimals. *)
Definition encode (binary : bool) (t : RTCData) : RTCData :=
  if binary then t else mkData (bcd (second t)) (bcd (minute t)) (bcd (hour t)) (bcd (weekday t)) (bcd (date t)) (bcd (month t)) (bcd (year t)) (century t).

(** The first year from [CURRENT_YEAR] on with these digits. *)
Definition full_year (y : Z) : Z := if y <? 22 then 2100 + y else 2000 + y.

Lemma decode_encode binary b t : moment_ok t -> (Z.land b 4 =? 0) = negb binary -> decode b (encode binary t) = with_year (full_year (year t)) t.
Proof.
  intros [Hs Hm Hh Hw Hd Hmo Hy] Hb. unfold decode. rewrite Hb.
  assert (E : (if negb binary then bcd_to_binary (encode binary t) else encode binary t) = t).
  { destruct binary; [done|]. unfold bcd_to_binary, encode. cbn [negb second minute hour weekday date month year century].
    rewrite !from_bcd_bcd, hour_from_bcd_bcd, year_bcd by lia. by destruct t. }
  rewrite E, hour_below_128 by lia. cbn [Z.eqb negb]. rewrite andb_false_r. unfold CURRENT_YEAR. change (2022 / 100 * 100) with 2000.
  unfold full_year, wrap32. rewrite !(Z.mod_small (year t + 2000)) by lia. destruct (Z.ltb_spec (year t + 2000) 2022), (Z.ltb_spec (year t) 22); try lia; f_equal; [rewrite Z.mod_small by lia|]; lia.
Qed.

(** ** Claims *)

(** A clock in 24 hour mode is read right, whether its registers are in binary or in
    decimals: [update_data] returns as soon as the clock is not being updated, with the
    time and date of the clock and the first fitting year from 2022 on. *)
Theorem clock_is_read D `{ClockDevice D} fuel (d : D) binary t :
  (updating d < fuel)%nat -> moment_ok t -> century t = 0 -> raw 0 d = encode binary t -> (Z.land (cmos d 0x0b) 4 =? 0) = negb binary ->
  exists d', update_data fuel no_data d = Done (with_year (full_year (year t)) t, d').
Proof.
  intros Hf Ht Hc Hr Hb. destruct (update_data_spec fuel no_data d Hf eq_refl) as (d' & E). exists d'. rewrite E, Hr. by rewrite decode_encode.
Qed.

(** A clock in 12 hour mode is not: the conversion is done when the bit for 24 hours is
    set, and never in 12 hour mode, where an hour after noon keeps its top bit. *)
Theorem afternoon_is_not_converted D `{ClockDevice D} fuel (d : D) h :
  (updating d < fuel)%nat -> 1 <= h <= 12 -> cmos d 4 = 128 + h -> Z.land (cmos d 0x0b) 2 = 0 -> Z.land (cmos d 0x0b) 4 ≠ 0 ->
  exists t d', update_data fuel no_data d = Done (t, d') /\ hour t = 128 + h.
Proof.
  intros Hf Hh H4 H2 Hb. destruct (update_data_spec fuel no_data d Hf eq_refl) as (d' & E). eexists _, d'. split; [exact E|].
  unfold decode. rewrite (proj2 (Z.eqb_neq _ _) Hb), H2. cbn [Z.eqb negb andb]. by cbn.
Qed.

(** The constructor clears the upper half of status register A, which selects the time
    base, instead of keeping it. *)
Theorem constructor_clears_the_divider D `{ClockDevice D} virtual fuel (d : D) : (updating d < fuel)%nat ->
  exists t d1 d2, new_RTC virtual fuel d = Done (t, d2) /\ d2 = (out8 CMOS_DATA (RTC_PERIODIC_RATE virtual) (out8 CMOS_ADDR 0x8a d1).2).2.
Proof.
  intros Hf. unfold new_RTC. destruct (update_data_spec fuel no_data d Hf eq_refl) as (d' & ->). cbn [mbind outcome_bind].
  rewrite (surjective_pairing (read_register 0x8a d')). set (d1 := (read_register 0x8a d').2). set (a := (read_register 0x8a d').1).
  assert (Ha : Z.land a 0x11110000 = 0).
  { assert (Hr : 0 <= a < 2 ^ 8) by (unfold a, read_register; io_run; apply in8_range). clearbody a. apply Z.bits_inj'. intros i Hi. rewrite Z.land_spec, Z.bits_0.
    destruct (Z_lt_le_dec i 8) as [Hl|Hg].
    - replace (Z.testbit 0x11110000 i) with false; [apply andb_false_r|]. symmetry. change 0x11110000 with (Z.shiftl 0x1111 16). apply Z.shiftl_spec_low. lia.
    - rewrite <- (Z.mod_small a (2 ^ 8) Hr), Z.mod_pow2_bits_high by lia. done. }
  rewrite Ha, Z.lor_0_l. rewrite (surjective_pairing (out8 CMOS_ADDR 0x8a d1)), (surjective_pairing (out8 CMOS_DATA _ _)). eexists _, d1, _. split; reflexivity.
Qed.

(** ** A clock *)

Record clock := mkClock { index : Z; file : Z -> Z; left : nat }.

#[export] Instance clock_bus : PortBus clock := {
  bus_read _ p d :=
    if p =? CMOS_DATA then
      if index d =? 0x0a then (match left d with O => 0 | S _ => 128 end, mkClock (index d) (file d) (pred (left d)))
      else (file d (index d), d)
    else (0, d);
  bus_write _ p v d :=
    if p =? CMOS_ADDR then mkClock v (file d) (left d)
    else if p =? CMOS_DATA then mkClock (index d) (fun r => if r =? index d then v else file d r) (left d)
    else d
}.

Lemma read_clock r d : 0 <= r < 128 -> read_register r d =
  if r =? 0x0a then (match left d with O => 0 | S _ => 128 end, mkClock r (file d) (pred (left d))) else (wrap8 (file d r), mkClock r (file d) (left d)).
Proof.
  intros Hr. unfold read_register. io_run. unfold in8, out8. cbn -[wrap8 wrap16 Z.eqb]. change (wrap16 CMOS_ADDR =? CMOS_ADDR) with true. change (wrap16 CMOS_DATA =? CMOS_DATA) with true. cbn iota.
  cbn [index file left]. assert (E : wrap8 r = r) by (apply Z.mod_small; lia). rewrite E. destruct (r =? 0x0a); [by destruct (left d)|done].
Qed.

#[export, refine] Instance clock_device : ClockDevice clock := { cmos d r := wrap8 (file d r); updating := left }.
Proof.
  - intros d r. apply Z.mod_pos_bound. lia.
  - intros r d Hne Hr. rewrite read_clock, (proj2 (Z.eqb_neq _ _) Hne) by done. done.
  - intros r d Hr. rewrite read_clock by done. destruct (r =? 0x0a); cbn [snd left]; split; (done || lia).
  - intros d. rewrite read_clock by lia. cbn [Z.eqb Pos.eqb fst snd left]. destruct (left d) as [|n]; [by left|right; cbn; lia].
Defined.

(** Half past two in the afternoon of 17 May 2024, in decimals; and nine in the evening
    in 12 hour mode. *)
Definition afternoon : RTCData := mkData 5 30 14 6 17 5 24 0.
Definition decimal_clock : clock :=
  mkClock 0 (fun r => if r =? 0 then 0x05 else if r =? 2 then 0x30 else if r =? 4 then 0x14 else if r =? 6 then 6 else if r =? 7 then 0x17 else if r =? 8 then 5 else if r =? 9 then 0x24 else 2) 3.
Definition evening_clock : clock := mkClock 0 (fun r => if r =? 4 then 128 + 9 else 4) 0.

Lemma clock_is_read_witness : exists d', update_data 10 no_data decimal_clock = Done (with_year 2024 afternoon, d').
Proof. apply (clock_is_read clock 10 decimal_clock false afternoon); [cbn; lia|split; cbn; lia|done|done|done]. Defined.

Lemma afternoon_is_not_converted_witness : exists t d', update_data 10 no_data evening_clock = Done (t, d') /\ hour t = 137.
Proof. apply (afternoon_is_not_converted clock 10 evening_clock 9); [cbn; lia|lia|done|done|done]. Defined.

Lemma constructor_clears_the_divider_witness :
  exists t d1 d2, new_RTC true 10 decimal_clock = Done (t, d2) /\ d2 = (out8 CMOS_DATA 10 (out8 CMOS_ADDR 0x8a d1).2).2.
Proof. apply (constructor_clears_the_divider clock true 10 decimal_clock). cbn. lia. Defined.

End Rtc.
