(* ===== verification/Keyboard.v ===== *)
(** * The keyboard

    Models src/kernel/src/keyboard_scancode_translation.h and .cpp (module [QWERTY]) and
    keyboard.h and keyboard.cpp (module [TextConsole]): the text renderer that moves a
    cursor over a grid of characters and draws what is typed. *)

From Stdlib Require Import Ascii String.
From S2P Require Import Prelude PhysMem FileMeta Renderer.
Import Renderer.

(** ** Scan codes *)

Module QWERTY.

Definition ESCAPE : Z := 0x01.
Definition BACKSPACE : Z := 0x0e.
Definition ENTER : Z := 0x1c.
Definition LSHIFT : Z := 0x2a.
Definition RSHIFT : Z := 0x36.
Definition CAPSLOCK : Z := 0x3a.
Definition ARROW_UP : Z := 0x48.
Definition ARROW_DOWN : Z := 0x50.
Definition ARROW_LEFT : Z := 0x4b.
Definition ARROW_RIGHT : Z := 0x4d.

(** The second column of each row; row [i] is that of scan code [i]. *)
Definition map : list Z :=
  [0; 0; 49; 50; 51; 52; 53; 54; 55; 56; 57; 48; 45; 61; 8; 0;
   113; 119; 101; 114; 116; 121; 117; 105; 111; 112; 91; 93; 10; 0;
   97; 115; 100; 102; 103; 104; 106; 107; 108; 59; 39; 96; 0; 92;
   122; 120; 99; 118; 98; 110; 109; 44; 46; 47; 0; 42; 0; 32].

Definition cap_map : list Z :=
  [0; 0; 33; 64; 35; 36; 37; 94; 38; 42; 40; 41; 95; 43; 0; 0;
   81; 87; 69; 82; 84; 89; 85; 73; 79; 80; 123; 125; 0; 0;
   65; 83; 68; 70; 71; 72; 74; 75; 76; 58; 34; 126; 0; 124;
   90; 88; 67; 86; 66; 78; 77; 60; 62; 63; 0; 42; 0; 32].

(** An index behind the table is undefined behaviour. *)
Definition Translate (scancode : Z) (capital : bool) : outcome Z :=
  if 58 <? scancode then Done 0
  else if capital then deref (cap_map !! Z.to_nat scancode)
  else deref (map !! Z.to_nat scancode).

(** The only scan code [Translate] cannot handle is the one behind the tables. *)
Lemma scancode_translates scancode capital : 0 <= scancode -> scancode ≠ CAPSLOCK -> exists c, Translate scancode capital = Done c /\ 0 <= c < 128.
Proof.
  intros H0 Hne. unfold Translate. destruct (Z.ltb_spec 58 scancode); [exists 0; split; [done|lia]|].
  assert (Hlt : (Z.to_nat scancode < 58)%nat) by (unfold CAPSLOCK in *; lia). generalize dependent (Z.to_nat scancode). intros n Hn.
  do 58 (destruct n as [|n]; [destruct capital; (eexists; split; [reflexivity|lia])|]). lia.
Qed.

Lemma translate_overrun capital : Translate CAPSLOCK capital = Stop Undefined.
Proof. by destruct capital. Qed.

End QWERTY.
Import QWERTY.

Record KeyboardState := mkKeys { LeftShift : bool; RightShift : bool; CapsLock : bool }.

Definition capital (k : KeyboardState) : bool := LeftShift k || RightShift k || CapsLock k.

Definition no_keys : KeyboardState := mkKeys false false false.

(** The scan codes that only change the state. *)
Definition modifier (code : Z) (k : KeyboardState) : option KeyboardState :=
  if code =? LSHIFT then Some (mkKeys true (RightShift k) (CapsLock k))
  else if code =? LSHIFT + 0x80 then Some (mkKeys false (RightShift k) (CapsLock k))
  else if code =? RSHIFT then Some (mkKeys (LeftShift k) true (CapsLock k))
  else if code =? RSHIFT + 0x80 then Some (mkKeys (LeftShift k) false (CapsLock k))
  else if code =? CAPSLOCK then Some (mkKeys (LeftShift k) (RightShift k) (negb (CapsLock k)))
  else None.

Lemma modifier_none code k : modifier code k = None -> code ≠ CAPSLOCK.
Proof. intros H ->. done. Qed.

(** ** What typing means

    A specification in terms of a keyboard: the characters printed on the keys of
    each row, and what the codes sent so far say of the shift keys and caps lock. *)

Module Typing.

(** The code of the first key of a row, and the characters of its keys without and
    with shift. *)
Definition rows : list (Z * list Z * list Z) :=
  [(2, bytes_of_string "1234567890-=", bytes_of_string "!@#$%^&*()_+");
   (16, bytes_of_string "qwertyuiop[]", bytes_of_string "QWERTYUIOP{}");
   (30, bytes_of_string "asdfghjkl;'`", bytes_of_string "ASDFGHJKL:" ++ [34] ++ bytes_of_string "~");
   (43, bytes_of_string "\zxcvbnm,./", bytes_of_string "|ZXCVBNM<>?");
   (55, bytes_of_string "*", bytes_of_string "*");
   (57, bytes_of_string " ", bytes_of_string " ");
   (14, [8], []);
   (28, [10], [])].

Definition key_char (shifted : bool) (code : Z) : option Z :=
  head (omap (fun '(first, plain, upper) => if first <=? code then (if shifted then upper else plain) !! Z.to_nat (code - first) else None) rows).

(** The key with this code is down: the last its codes told was a press. *)
Definition down (before : bool) (key : Z) (codes : list Z) : bool :=
  match last (filter (fun c => c = key \/ c = key + 128) codes) with
  | Some c => c =? key
  | None => before
  end.

(** Caps lock was pressed an odd number of times, counting [before]. *)
Definition locked (before : bool) (codes : list Z) : bool := xorb before (Nat.odd (length (filter (fun c => c = 0x3a) codes))).

Definition shifted (k : KeyboardState) (codes : list Z) : bool :=
  down (LeftShift k) 0x2a codes || down (RightShift k) 0x36 codes || locked (CapsLock k) codes.

(** The characters that [codes] type after the codes [past], which were sent to a
    keyboard in state [k]. *)
Fixpoint typed_after (k : KeyboardState) (past codes : list Z) : list Z :=
  match codes with
  | [] => []
  | c :: codes => option_list (key_char (shifted k past) c) ++ typed_after k (past ++ [c]) codes
  end.

Definition typed_chars (k : KeyboardState) (codes : list Z) : list Z := typed_after k [] codes.

(** *** The driver's state is that of the keyboard *)

Definition state_after (k : KeyboardState) (codes : list Z) : KeyboardState :=
  mkKeys (down (LeftShift k) 0x2a codes) (down (RightShift k) 0x36 codes) (locked (CapsLock k) codes).

Lemma down_app b key codes c :
  down b key (codes ++ [c]) = if decide (c = key) then true else if decide (c = key + 128) then false else down b key codes.
Proof.
  unfold down. rewrite filter_app. destruct (decide (c = key)) as [->|H1]; [|destruct (decide (c = key + 128)) as [->|H2]].
  - rewrite filter_cons_True, filter_nil, last_snoc by (by left). apply Z.eqb_refl.
  - rewrite filter_cons_True, filter_nil, last_snoc by (by right). apply Z.eqb_neq. lia.
  - by rewrite filter_cons_False, filter_nil, app_nil_r by tauto.
Qed.

Lemma locked_app b codes c : locked b (codes ++ [c]) = if decide (c = 0x3a) then negb (locked b codes) else locked b codes.
Proof.
  unfold locked. rewrite filter_app, length_app. destruct (decide (c = 0x3a)) as [->|H].
  - rewrite filter_cons_True, filter_nil by done. cbn [length]. rewrite Nat.add_1_r, Nat.odd_succ, <- Nat.negb_odd. by destruct b, (Nat.odd _).
  - rewrite filter_cons_False, filter_nil by done. cbn [length]. by rewrite Nat.add_0_r.
Qed.

Lemma modifier_state k past c :
  state_after k (past ++ [c]) = match modifier c (state_after k past) with Some k' => k' | None => state_after k past end.
Proof.
  unfold state_after, modifier, LSHIFT, RSHIFT, CAPSLOCK. rewrite !down_app, locked_app. cbn [LeftShift RightShift CapsLock].
  destruct (Z.eqb_spec c 0x2a); [subst; done|]. destruct (Z.eqb_spec c (0x2a + 0x80)); [subst; done|]. destruct (Z.eqb_spec c 0x36); [subst; done|].
  destruct (Z.eqb_spec c (0x36 + 0x80)); [subst; done|]. destruct (Z.eqb_spec c 0x3a); [subst; done|]. by rewrite !decide_False by done.
Qed.

Lemma capital_after k past : capital (state_after k past) = shifted k past.
Proof. done. Qed.

(** The tables of the driver are the keys of the rows; the keys of modifiers have no
    character. *)
Lemma translate_key k code b :
  0 <= code < 256 ->
  match modifier code k with Some _ => key_char b code = None | None => Translate code b = Done (default 0 (key_char b code)) /\ key_char b code ≠ Some 0 end.
Proof.
  assert (H : forall b, forallb (fun code => match modifier code no_keys with Some _ => bool_decide (key_char b code = None)
    | None => match Translate code b with Done c => bool_decide (c = default 0 (key_char b code) /\ key_char b code ≠ Some 0) | Stop _ => false end end)
    (seqZ 0 256) = true) by (intros []; vm_compute; reflexivity).
  intros Hc. specialize (H b). rewrite forallb_forall in H. specialize (H code ltac:(apply list_elem_of_In, elem_of_seqZ; lia)).
  assert (E : is_Some (modifier code k) <-> is_Some (modifier code no_keys)).
  { unfold modifier. repeat case_match; split; intros [? ?]; done. }
  destruct (modifier code k), (modifier code no_keys); [by apply bool_decide_eq_true in H|destruct (proj1 E) as [? ?]; done|destruct (proj2 E) as [? ?]; done|].
  destruct (Translate code b) as [c|]; [|done]. apply bool_decide_eq_true in H as [-> H]. done.
Qed.

End Typing.

(** ** The text renderer *)

Module TextConsole.

Definition KBCursorSize : Vector2 := vec 8 2.

(** [BasicTextRenderer], with the static [skip] of [draw_cursor]. *)
Record text := mkText {
  SizeInCharacters : Vector2;
  DrawPosition : Vector2;
  CursorPosition : Vector2;
  LastCursorPosition : Vector2;
  State : KeyboardState;
  GotE0 : bool;
  skip : bool
}.

Definition with_draw (p : Vector2) (t : text) : text :=
  mkText (SizeInCharacters t) p (CursorPosition t) (LastCursorPosition t) (State t) (GotE0 t) (skip t).
Definition with_cursor (p : Vector2) (t : text) : text :=
  mkText (SizeInCharacters t) (DrawPosition t) p (LastCursorPosition t) (State t) (GotE0 t) (skip t).
Definition with_state (k : KeyboardState) (t : text) : text :=
  mkText (SizeInCharacters t) (DrawPosition t) (CursorPosition t) (LastCursorPosition t) k (GotE0 t) (skip t).
Definition with_E0 (b : bool) (t : text) : text :=
  mkText (SizeInCharacters t) (DrawPosition t) (CursorPosition t) (LastCursorPosition t) (State t) b (skip t).
Definition drawn_at (p : Vector2) (t : text) : text :=
  mkText (SizeInCharacters t) (DrawPosition t) (CursorPosition t) p (State t) (GotE0 t) false.

(** *** The cursor *)

Definition cursor_up (amt : Z) (t : text) : text :=
  let c := CursorPosition t in with_cursor (vec (x c) (if y c <? amt then 0 else y c - amt)) t.

Definition cursor_down (amt : Z) (t : text) : text :=
  let c := CursorPosition t in
  with_cursor (vec (x c) (if y (SizeInCharacters t) -64 amt <? y c then y (SizeInCharacters t) -64 1 else y c +64 amt)) t.

Definition newline (t : text) : text := cursor_down 1 (with_cursor (vec 0 (y (CursorPosition t))) t).

Definition cursor_left (amt : Z) (t : text) : text :=
  let c := CursorPosition t in with_cursor (vec (if x c <? amt then 0 else x c - amt) (y c)) t.

Definition cursor_right (amt : Z) (t : text) : text :=
  let c := CursorPosition t in
  if x (SizeInCharacters t) -64 amt <=? x c then newline t else with_cursor (vec (x c +64 amt) (y c)) t.

Section Console.
Context (r : BasicRenderer) (KeyboardCursor PixelsUnderKBCursor : Z).

(** The constructor; a font without height divides by zero. *)
Definition new_text : outcome text :=
  if CharacterSize r =? 0 then Stop Undefined
  else Done (mkText (vec (PixelWidth (Target r) / 8) (PixelHeight (Target r) / CharacterSize r)) (vec 0 0) (vec 0 0) (vec 0 0) no_keys false true).

Definition set_cursor_from_pixel_position (pos : Vector2) (t : text) : outcome text :=
  if CharacterSize r =? 0 then Stop Undefined else Done (with_cursor (vec (x pos / 8) (y pos / CharacterSize r)) t).

Definition update_draw_position (t : text) : text :=
  with_draw (vec (x (CursorPosition t) *64 8) (y (CursorPosition t) *64 CharacterSize r)) t.

(** One coordinate of the rectangle that has to be shown again: where it starts and
    how far it goes. *)
Definition refresh (cursor start : Z) : Z * Z :=
  if start <? cursor then (start, 1 +64 (cursor - start))
  else if cursor <? start then (cursor, 1 +64 (start - cursor))
  else (start, 1).

Definition draw_cursor (st : text * mem) : text * mem :=
  let '(t, m) := st in
  let '(px, sx) := refresh (x (CursorPosition t)) (x (LastCursorPosition t)) in
  let '(py, sy) := refresh (y (CursorPosition t)) (1 +64 y (LastCursorPosition t)) in
  let RefreshPosition := vec (px *64 8) (py *64 CharacterSize r) in
  let RefreshSize := vec (sx *64 8) (sy *64 CharacterSize r) in
  let m :=
    if skip t then m
    else (drawpix r (vec (x (LastCursorPosition t) *64 8) ((y (LastCursorPosition t) +64 1) *64 CharacterSize r)) KBCursorSize PixelsUnderKBCursor m).2 in
  let t := update_draw_position t in
  let d := vec (x (DrawPosition t)) (y (DrawPosition t) +64 CharacterSize r) in
  let '(d, m) := readpix r d KBCursorSize PixelsUnderKBCursor m in
  let '(d, m) := drawbmpover r d KBCursorSize KeyboardCursor 0xffffffff m in
  let m := swap r RefreshPosition RefreshSize m in
  (drawn_at (CursorPosition t) (with_draw d t), m).

Definition backspace (st : text * mem) : text * mem :=
  let '(t, m) := st in
  let t := update_draw_position t in
  let '(d, m) := clearchar r (DrawPosition t) m in
  let m := swap r d (vec 8 (CharacterSize r)) m in
  (cursor_left 1 (with_draw d t), m).

Definition putc (character : Z) (st : text * mem) : text * mem :=
  let '(t, m) := st in
  let t := update_draw_position t in
  let '(d, m) := putchar r (DrawPosition t) character 0xffffffff m in
  let m := swap r d (vec 8 (CharacterSize r)) m in
  (cursor_right 1 (with_draw d t), m).

(** A [char] is signed: what is above 127 is below 32. *)
Definition parse_character (c : Z) (st : text * mem) : text * mem :=
  if c =? 8 then backspace st
  else if c =? 13 then (newline st.1, st.2)
  else if (c <? 32) || (128 <=? c) then st
  else putc c st.

Definition handle_character (c : Z) (st : text * mem) : text * mem := draw_cursor (parse_character c st).

Definition parse_scancode (code : Z) (st : text * mem) : outcome (text * mem) :=
  let '(t, m) := st in
  if GotE0 t then
    let t :=
      if code =? ARROW_UP then cursor_up 1 t
      else if code =? ARROW_DOWN then cursor_down 1 t
      else if code =? ARROW_LEFT then cursor_left 1 t
      else if code =? ARROW_RIGHT then cursor_right 1 t
      else t in
    Done (with_E0 false t, m)
  else if code =? 0xe0 then Done (with_E0 true t, m)
  else
    match modifier code (State t) with
    | Some k => Done (with_state k t, m)
    | None =>
        if code =? ENTER then Done (newline t, m)
        else if code =? BACKSPACE then Done (backspace (t, m))
        else c ← Translate code (capital (State t)); Done (handle_character c (t, m))
    end.

Definition handle_scancode (code : Z) (st : text * mem) : outcome (text * mem) :=
  st ← parse_scancode code st; Done (draw_cursor st).

(** ** What is typed, one scan code after the other *)

Fixpoint type_codes (codes : list Z) (st : text * mem) : outcome (text * mem) :=
  match codes with
  | [] => Done st
  | code :: codes => st ← handle_scancode code st; type_codes codes st
  end.

(** ** The cursor stays where it should *)

(** The grid has a line below the last one. *)
Record grid_ok (t : text) : Prop := {
  g_width : 1 <= x (SizeInCharacters t) < 2 ^ 64;
  g_height : 1 <= y (SizeInCharacters t) < 2 ^ 64 - 1;
  g_x : 0 <= x (CursorPosition t) < x (SizeInCharacters t);
  g_y : 0 <= y (CursorPosition t) <= y (SizeInCharacters t)
}.

Lemma cursor_down_ok t : grid_ok t -> grid_ok (cursor_down 1 t).
Proof.
  intros [Hw Hh Hx Hy]. split; try done. cbn. rewrite !wrap64_small by (unfold is_u64; lia). destruct (Z.ltb_spec (y (SizeInCharacters t) - 1) (y (CursorPosition t))); lia.
Qed.

Lemma newline_ok t : grid_ok t -> grid_ok (newline t).
Proof. intros [Hw Hh Hx Hy]. apply cursor_down_ok. split; cbn; try done; lia. Qed.

Lemma cursor_up_ok t : grid_ok t -> grid_ok (cursor_up 1 t).
Proof. intros [Hw Hh Hx Hy]. split; try done. cbn. destruct (Z.ltb_spec (y (CursorPosition t)) 1); lia. Qed.

Lemma cursor_left_ok t : grid_ok t -> grid_ok (cursor_left 1 t).
Proof. intros [Hw Hh Hx Hy]. split; try done. cbn. destruct (Z.ltb_spec (x (CursorPosition t)) 1); lia. Qed.

Lemma cursor_right_ok t : grid_ok t -> grid_ok (cursor_right 1 t).
Proof.
  intros G. pose proof G as [Hw Hh Hx Hy]. unfold cursor_right. rewrite !wrap64_small by (unfold is_u64; lia).
  destruct (Z.leb_spec (x (SizeInCharacters t) - 1) (x (CursorPosition t))); [by apply newline_ok|]. split; cbn; try done. lia.
Qed.

#[local] Hint Resolve cursor_down_ok newline_ok cursor_up_ok cursor_left_ok cursor_right_ok : console.

(** Only the size and the cursor matter. *)
Lemma grid_ok_ext t t' : SizeInCharacters t' = SizeInCharacters t -> CursorPosition t' = CursorPosition t -> grid_ok t -> grid_ok t'.
Proof. intros E1 E2 [Hw Hh Hx Hy]. split; by rewrite ?E1, ?E2. Qed.

Lemma draw_cursor_cursor st : SizeInCharacters (draw_cursor st).1 = SizeInCharacters st.1 /\ CursorPosition (draw_cursor st).1 = CursorPosition st.1.
Proof.
  destruct st as [t m]. unfold draw_cursor. destruct (refresh _ _) as [px sx]. destruct (refresh _ _) as [py sy].
  destruct (readpix _ _ _ _ _) as [d m1]. destruct (drawbmpover _ _ _ _ _ _) as [d2 m2]. done.
Qed.

Lemma draw_cursor_ok st : grid_ok st.1 -> grid_ok (draw_cursor st).1.
Proof. destruct (draw_cursor_cursor st) as [E1 E2]. by apply grid_ok_ext. Qed.

Lemma backspace_ok st : grid_ok st.1 -> grid_ok (backspace st).1.
Proof. destruct st as [t m]. intros G. unfold backspace. destruct (clearchar _ _ _) as [d m1]. apply cursor_left_ok. by apply (grid_ok_ext t). Qed.

Lemma putc_ok c st : grid_ok st.1 -> grid_ok (putc c st).1.
Proof. destruct st as [t m]. intros G. unfold putc. destruct (putchar _ _ _ _ _) as [d m1]. apply cursor_right_ok. by apply (grid_ok_ext t). Qed.

Lemma handle_character_ok c st : grid_ok st.1 -> grid_ok (handle_character c st).1.
Proof.
  intros G. apply draw_cursor_ok. unfold parse_character. destruct (c =? 8); [by apply backspace_ok|]. destruct (c =? 13); [by apply newline_ok|].
  destruct (_ || _); [done|by apply putc_ok].
Qed.

(** A scan code is always handled, and keeps the cursor in the grid. *)
Lemma parse_scancode_ok code st : 0 <= code -> grid_ok st.1 -> exists st', parse_scancode code st = Done st' /\ grid_ok st'.1.
Proof.
  destruct st as [t m]. cbn [fst]. intros Hc G. unfold parse_scancode. destruct (GotE0 t).
  - eexists. split; [reflexivity|]. apply (grid_ok_ext (if code =? ARROW_UP then cursor_up 1 t else if code =? ARROW_DOWN then cursor_down 1 t
      else if code =? ARROW_LEFT then cursor_left 1 t else if code =? ARROW_RIGHT then cursor_right 1 t else t)); [done|done|].
    repeat case_match; auto with console.
  - destruct (code =? 0xe0); [eexists; split; [reflexivity|by apply (grid_ok_ext t)]|]. destruct (modifier code (State t)) as [k|] eqn:E; [eexists; split; [reflexivity|by apply (grid_ok_ext t)]|].
    destruct (code =? ENTER); [eexists; split; [reflexivity|by apply newline_ok]|]. destruct (code =? BACKSPACE); [eexists; split; [reflexivity|by apply backspace_ok]|].
    destruct (scancode_translates code (capital (State t)) Hc (modifier_none _ _ E)) as (c & -> & _). eexists. split; [reflexivity|by apply handle_character_ok].
Qed.

Lemma type_codes_ok codes st : Forall (fun c => 0 <= c) codes -> grid_ok st.1 -> exists st', type_codes codes st = Done st' /\ grid_ok st'.1.
Proof.
  intros Hc. revert st. induction Hc as [|c codes Hc Hcs IH]; intros st G; [by exists st|]. cbn [type_codes]. unfold handle_scancode.
  destruct (parse_scancode_ok c st Hc G) as (st1 & -> & G1). cbn [mbind outcome_bind]. apply IH. by apply draw_cursor_ok.
Qed.

(** ** What is written *)

(** Both framebuffers and the buffer of the pixels under the cursor are left alone at [z]. *)
Record untouched (z : Z) : Prop := {
  u_target : outside (Target r) z;
  u_render : outside (Render r) z;
  u_buffer : z < PixelsUnderKBCursor \/ PixelsUnderKBCursor + 4 * 16 <= z
}.

Record console_ok : Prop := {
  c_target : fb_ok (Target r);
  c_render : fb_ok (Render r);
  c_width : PixelWidth (Render r) = PixelWidth (Target r);
  c_height : PixelHeight (Render r) = PixelHeight (Target r);
  c_line : PixelsPerScanLine (Render r) = PixelsPerScanLine (Target r);
  c_apart : buffers_ok r;
  c_font : 1 <= CharacterSize r < 256;
  c_buffer : 0 < PixelsUnderKBCursor /\ PixelsUnderKBCursor + 64 < 2 ^ 64;
  c_buffer_apart : PixelsUnderKBCursor + 64 <= BaseAddress (Target r) \/ fb_limit (Target r) <= PixelsUnderKBCursor
}.

Context (C : console_ok).

Lemma swap_frame p size m z : untouched z -> vec_ok p -> vec_ok size -> read8 (swap r p size m) z = read8 m z.
Proof. intros U Hp Hs. destruct C. apply swap_outside; try done. apply U. Qed.

Lemma cursor_size_ok : vec_ok KBCursorSize.
Proof. split; cbn; lia. Qed.

Lemma char_size_ok : vec_ok (vec 8 (CharacterSize r)).
Proof. destruct (c_font C). split; cbn; lia. Qed.

Lemma font_ok : 0 <= CharacterSize r < 256.
Proof. destruct (c_font C). lia. Qed.

Lemma wrapped_ok a b : vec_ok (vec (wrap64 a) (wrap64 b)).
Proof. split; apply wrap64_range. Qed.

#[local] Hint Resolve cursor_size_ok char_size_ok font_ok wrapped_ok : console.

Lemma readpix_console p m z : untouched z -> vec_ok p ->
  read8 (readpix r p KBCursorSize PixelsUnderKBCursor m).2 z = read8 m z /\ vec_ok (readpix r p KBCursorSize PixelsUnderKBCursor m).1.
Proof.
  intros U Hp. destruct (c_buffer C) as [Hb1 Hb2]. split.
  - destruct (readpix_spec r p KBCursorSize PixelsUnderKBCursor (c_target C)) with (m := m) as [_ Hz]; [split; cbn; lia|lia|done|cbn [x y KBCursorSize]; exact (c_buffer_apart C)|].
    apply Hz. apply U.
  - unfold readpix. rewrite (proj2 (Z.eqb_neq _ _)) by lia. apply clamp_ok; [apply C|done].
Qed.

Lemma drawbmpover_console p m z : untouched z -> vec_ok p ->
  read8 (drawbmpover r p KBCursorSize KeyboardCursor 0xffffffff m).2 z = read8 m z /\ vec_ok (drawbmpover r p KBCursorSize KeyboardCursor 0xffffffff m).1.
Proof.
  intros U Hp. split.
  - apply (draw_frame r (d_bmpover p KBCursorSize KeyboardCursor 0xffffffff)); [apply C|auto with console|split; auto with console|apply U].
  - unfold drawbmpover. destruct (KeyboardCursor =? 0); [done|]. apply clamp_ok; [apply C|done].
Qed.

Lemma draw_cursor_frame st z : untouched z -> read8 (draw_cursor st).2 z = read8 st.2 z.
Proof.
  intros U. destruct st as [t m]. unfold draw_cursor. destruct (refresh _ _) as [px sx]. destruct (refresh _ _) as [py sy].
  set (m0 := if skip t then m else _). assert (E0 : read8 m0 z = read8 m z).
  { unfold m0. destruct (skip t); [done|]. apply (draw_frame r (d_pix _ KBCursorSize PixelsUnderKBCursor)); [apply C|auto with console|split; auto with console|apply U]. }
  clearbody m0. set (d0 := vec _ (_ +64 _)). assert (V0 : vec_ok d0) by apply wrapped_ok. clearbody d0.
  destruct (readpix_console d0 m0 z U V0) as [E1 V1]. destruct (readpix r d0 _ _ m0) as [d1 m1]. cbn [fst snd] in E1, V1.
  destruct (drawbmpover_console d1 m1 z U V1) as [E2 V2]. destruct (drawbmpover r d1 _ _ _ m1) as [d2 m2]. cbn [fst snd] in E2, V2.
  cbn [fst snd]. rewrite swap_frame by auto with console. congruence.
Qed.

Lemma backspace_frame st z : untouched z -> read8 (backspace st).2 z = read8 st.2 z.
Proof.
  intros U. destruct st as [t m]. unfold backspace. set (p := DrawPosition (update_draw_position t)). assert (V : vec_ok p) by apply wrapped_ok. clearbody p.
  pose proof (draw_frame r (d_clearchar p) m z (c_target C) font_ok V (u_target z U)) as E. cbn [draw] in E.
  assert (V1 : vec_ok (clearchar r p m).1).
  { unfold clearchar, drawrect. cbn [fst]. apply clamp_ok; [apply C|]. destruct V. split; cbn; [apply wrap64_range|]. destruct (_ <? _); [destruct (Z.leb_spec (CharacterSize r) (y p))|]; cbn; [destruct (c_font C)|..]; lia. }
  destruct (clearchar r p m) as [d m1]. cbn [fst snd] in *. rewrite swap_frame by auto with console. done.
Qed.

Lemma putc_frame c st z : untouched z -> read8 (putc c st).2 z = read8 st.2 z.
Proof.
  intros U. destruct st as [t m]. unfold putc. set (p := DrawPosition (update_draw_position t)). assert (V : vec_ok p) by apply wrapped_ok. clearbody p.
  destruct (putchar_spec r p c 0xffffffff m z (c_target C) font_ok V (u_target z U)) as [E V1]. destruct (putchar r p c _ m) as [d m1]. cbn [fst snd] in *.
  rewrite swap_frame by auto with console. done.
Qed.

Lemma Done_inj {A} (a b : A) : Done a = Done b -> a = b.
Proof. congruence. Qed.

Lemma handle_scancode_frame code st st' z : untouched z -> handle_scancode code st = Done st' -> read8 st'.2 z = read8 st.2 z.
Proof.
  intros U E. unfold handle_scancode in E. done_inv E. apply Done_inj in E as <-. rewrite draw_cursor_frame by done. destruct st as [t m]. unfold parse_scancode in E0.
  destruct (GotE0 t); [by simplify_eq|]. destruct (_ =? _); [by simplify_eq|]. destruct (modifier code (State t)); [by simplify_eq|].
  destruct (_ =? _); [by simplify_eq|]. destruct (_ =? _); [apply Done_inj in E0 as <-; by apply backspace_frame|]. done_inv E0. apply Done_inj in E0 as <-.
  unfold handle_character. rewrite draw_cursor_frame by done. unfold parse_character.
  destruct (_ =? _); [by apply backspace_frame|]. destruct (_ =? _); [done|]. destruct (_ || _); [done|by apply putc_frame].
Qed.

Lemma type_codes_frame codes st st' z : untouched z -> type_codes codes st = Done st' -> read8 st'.2 z = read8 st.2 z.
Proof.
  intros U. revert st. induction codes as [|c codes IH]; intros st E; [by simplify_eq/=|]. cbn [type_codes] in E. done_inv E. rewrite (IH _ E). by eapply handle_scancode_frame.
Qed.

End Console.

(** ** Claims *)

(** Whatever is typed, each scan code is handled, the cursor stays in the grid of the
    screen (with one line below the last), and nothing is written but the two
    framebuffers and the buffer of the pixels under the cursor. *)
Theorem typing_stays_on_the_screen r KeyboardCursor Pixels codes t m :
  console_ok r Pixels -> Forall (fun c => 0 <= c) codes -> grid_ok t ->
  exists t' m', type_codes r KeyboardCursor Pixels codes (t, m) = Done (t', m') /\ grid_ok t' /\
    (forall z, untouched r Pixels z -> read8 m' z = read8 m z).
Proof.
  intros C Hc G. destruct (type_codes_ok r KeyboardCursor Pixels codes (t, m) Hc G) as ([t' m'] & E & G'). exists t', m'. split_and!; [done|done|].
  intros z U. by apply (type_codes_frame r KeyboardCursor Pixels C codes (t, m) (t', m') z U).
Qed.

(** On the last line the cursor goes down once more, to a line that is not on the
    screen; from there it comes back. *)
Theorem cursor_leaves_the_last_line t : grid_ok t -> y (CursorPosition t) = y (SizeInCharacters t) - 1 ->
  y (CursorPosition (cursor_down 1 t)) = y (SizeInCharacters t) /\ y (CursorPosition (cursor_down 1 (cursor_down 1 t))) = y (SizeInCharacters t) - 1.
Proof.
  intros [Hw Hh Hx Hy] E. cbn. rewrite E. rewrite !(wrap64_small (y (SizeInCharacters t) - 1)) by (unfold is_u64; lia).
  rewrite Z.ltb_irrefl. replace (y (SizeInCharacters t) - 1 + 1) with (y (SizeInCharacters t)) by lia. rewrite wrap64_small by (unfold is_u64; lia).
  rewrite (proj2 (Z.ltb_lt _ _)) by lia. done.
Qed.

Definition screen : BasicRenderer := mkRenderer (mkFramebuffer 65536 8192 64 32 64) (mkFramebuffer 0xffffff8000000000 8192 64 32 64) 0 16 1000.
Definition at_start : text := mkText (vec 8 2) (vec 0 0) (vec 0 0) (vec 0 0) no_keys false true.

Lemma typing_stays_on_the_screen_witness :
  exists t' m', type_codes screen 200000 300000 [0x2a; 30; 0xaa; 30; 58; 28; 0xe0; 0x48; 14] (at_start, fun _ => 0) = Done (t', m') /\ grid_ok t' /\
    (forall z, untouched screen 300000 z -> read8 m' z = read8 (fun _ => 0) z).
Proof.
  apply typing_stays_on_the_screen; [|repeat constructor; lia|split; cbn; lia].
  split; first [right; right; vm_compute; done|left; vm_compute; done|split; cbn; lia|cbn; lia|done].
Defined.

Lemma cursor_leaves_the_last_line_witness : y (CursorPosition (cursor_down 1 (with_cursor (vec 0 1) at_start))) = 2.
Proof. apply (cursor_leaves_the_last_line (with_cursor (vec 0 1) at_start)); [split; cbn; lia|done]. Defined.

End TextConsole.
