(* ===== verification/Mouse.v ===== *)
(** * The mouse

    Models src/kernel/src/mouse.h and mouse.cpp: the set-up of the PS/2 mouse through
    the ports of the keyboard controller, the bytes of its interrupts put together to
    packets, the position they move, and the cursor drawn there. *)

From S2P Require Import Prelude PhysMem Random Renderer Ports.
Import Renderer.

Module Mouse.

Definition PS2_LEFT_BUTTON : Z := 1.
Definition PS2_RIGHT_BUTTON : Z := 2.
Definition PS2_X_SIGN : Z := 16.
Definition PS2_Y_SIGN : Z := 32.
Definition PS2_X_OVERFLOW : Z := 64.
Definition PS2_Y_OVERFLOW : Z := 128.

(** ** The controller *)

Section Controller.
Context {D : Type} `{PortBus D}.

(** [while (timeout--)] *)
Fixpoint wait_loop (stop : Z -> bool) (timeout : nat) : io D unit :=
  match timeout with
  | O => mret tt
  | S timeout => status ← in8 0x64; if stop status then mret tt else wait_loop stop timeout
  end.

Definition mouse_wait : io D unit := wait_loop (fun status => Z.land status 2 =? 0) (Z.to_nat 100000).
Definition mouse_wait_input : io D unit := wait_loop (fun status => negb (Z.land status 1 =? 0)) (Z.to_nat 100000).

Definition mouse_write (value : Z) : io D unit :=
  _ ← mouse_wait_input; _ ← out8 0x64 0xd4; _ ← mouse_wait; out8 0x60 value.

Definition mouse_read : io D Z := _ ← mouse_wait_input; in8 0x60.

(** The result is [gMouseID]. *)
Definition init_ps2_mouse : io D Z :=
  _ ← out8 0x64 0xa8;
  _ ← mouse_wait;
  _ ← out8 0x64 0x20;
  _ ← mouse_wait_input;
  status ← in8 0x60;
  let status := Z.lor status 2 in
  _ ← mouse_wait;
  _ ← out8 0x64 0x60;
  _ ← mouse_wait;
  _ ← out8 0x60 status;
  _ ← mouse_write 0xf6;
  _ ← mouse_read;
  _ ← mouse_write 0xf4;
  _ ← mouse_read;
  _ ← mouse_write 0xf2;
  _ ← mouse_read;
  mouse_read.

End Controller.

(** ** The packets *)

(** The globals; [skip_first] and [skip_draw] are the statics of
    [handle_ps2_mouse_interrupt] and [draw_mouse_cursor]. *)
Record mouse := mkMouse {
  gMousePosition : Vector2;
  gOldMousePosition : Vector2;
  mouse_cycle : Z;
  mouse_packet : list Z;
  mouse_packet_ready : bool;
  skip_first : bool;
  skip_draw : bool;
  DrawColor : Z;
  gRandomLFSR : list Z
}.

Definition with_positions (p old : Vector2) (s : mouse) : mouse :=
  mkMouse p old (mouse_cycle s) (mouse_packet s) (mouse_packet_ready s) (skip_first s) (skip_draw s) (DrawColor s) (gRandomLFSR s).
Definition with_packet (cycle : Z) (packet : list Z) (ready : bool) (s : mouse) : mouse :=
  mkMouse (gMousePosition s) (gOldMousePosition s) cycle packet ready (skip_first s) (skip_draw s) (DrawColor s) (gRandomLFSR s).
Definition with_colour (c : Z) (l : list Z) (s : mouse) : mouse :=
  mkMouse (gMousePosition s) (gOldMousePosition s) (mouse_cycle s) (mouse_packet s) (mouse_packet_ready s) (skip_first s) (skip_draw s) c l.
Definition drawn (s : mouse) : mouse :=
  mkMouse (gMousePosition s) (gOldMousePosition s) (mouse_cycle s) (mouse_packet s) (mouse_packet_ready s) (skip_first s) false (DrawColor s) (gRandomLFSR s).
Definition started (s : mouse) : mouse :=
  mkMouse (gMousePosition s) (gOldMousePosition s) (mouse_cycle s) (mouse_packet s) (mouse_packet_ready s) false (skip_draw s) (DrawColor s) (gRandomLFSR s).

Definition packet_byte (i : nat) (s : mouse) : Z := nth i (mouse_packet s) 0.
Definition flag (bit : Z) (s : mouse) : bool := negb (Z.land (packet_byte 0 s) bit =? 0).

Definition MouseCursorSize : Vector2 := vec 16 16.

(** [do { DrawColor = (u32)gRandomLFSR.get(); } while (DrawColor == 0);] *)
Fixpoint new_colour (fuel : nat) (l : list Z) : outcome (Z * list Z) :=
  match fuel with
  | O => Stop Hung
  | S fuel =>
      let '(v, l) := Lfsr.get l in
      if wrap32 v =? 0 then new_colour fuel l else Done (wrap32 v, l)
  end.

Section Screen.
Context (r : BasicRenderer) (mouse_cursor pixels_under_mouse_cursor : Z).

(** One coordinate of the rectangle that has to be shown again. *)
Definition refresh (position old : Z) : Z * Z :=
  if old <? position then (old, 16 +64 (position - old))
  else if position <? old then (position, 16 +64 (old - position))
  else (old, 16).

Definition draw_mouse_cursor (st : mouse * mem) : mouse * mem :=
  let '(s, m) := st in
  let p := gMousePosition s in
  let old := gOldMousePosition s in
  let '(px, sx) := refresh (x p) (x old) in
  let '(py, sy) := refresh (y p) (y old) in
  let '(old, m) := if skip_draw s then (old, m) else drawpix r old MouseCursorSize pixels_under_mouse_cursor m in
  let '(p, m) := readpix r p MouseCursorSize pixels_under_mouse_cursor m in
  let '(p, m) := drawbmpover r p MouseCursorSize mouse_cursor 0xffffffff m in
  (drawn (with_positions p p s), swap r (vec px py) (vec sx sy) m).

(** What the buttons do: a dot left of the position, or a new colour. *)
Definition buttons (fuel : nat) (st : mouse * mem) : outcome (mouse * mem) :=
  let '(s, m) := st in
  if flag PS2_LEFT_BUTTON s then
    let p := gMousePosition s in
    let '(drawPos, m) := drawrect r (vec (x p -64 2) (y p -64 2)) (vec 2 2) (DrawColor s) m in
    Done (s, swap r (vec 2 2) drawPos m)
  else if flag PS2_RIGHT_BUTTON s then
    '(c, l) ← new_colour fuel (gRandomLFSR s); Done (with_colour c l s, m)
  else Done (s, m).

Definition move_x (s : mouse) : mouse :=
  let p := gMousePosition s in
  if flag PS2_X_SIGN s then
    let s := with_packet (mouse_cycle s) (<[1%nat := wrap8 (256 - packet_byte 1 s)]> (mouse_packet s)) (mouse_packet_ready s) s in
    let nx := x p -64 packet_byte 1 s in
    let nx := if flag PS2_X_OVERFLOW s then nx -64 255 else nx in
    let nx := if x (gOldMousePosition s) <? nx then 0 else nx in
    with_positions (vec nx (y p)) (gOldMousePosition s) s
  else
    let nx := x p +64 packet_byte 1 s in
    let nx := if flag PS2_X_OVERFLOW s then nx +64 255 else nx in
    with_positions (vec nx (y p)) (gOldMousePosition s) s.

Definition move_y (s : mouse) : mouse :=
  let p := gMousePosition s in
  if flag PS2_Y_SIGN s then
    let s := with_packet (mouse_cycle s) (<[2%nat := wrap8 (256 - packet_byte 2 s)]> (mouse_packet s)) (mouse_packet_ready s) s in
    let ny := y p +64 packet_byte 2 s in
    let ny := if flag PS2_Y_OVERFLOW s then ny +64 255 else ny in
    with_positions (vec (x p) ny) (gOldMousePosition s) s
  else
    let ny := y p -64 packet_byte 2 s in
    let ny := if flag PS2_Y_OVERFLOW s then ny -64 255 else ny in
    let ny := if y (gOldMousePosition s) <? ny then 0 else ny in
    with_positions (vec (x p) ny) (gOldMousePosition s) s.

Definition clamp (s : mouse) : mouse :=
  let p := gMousePosition s in
  with_positions (vec (if PixelWidth (Target r) <=? x p then PixelWidth (Target r) - 1 else x p)
                      (if PixelHeight (Target r) <=? y p then PixelHeight (Target r) - 1 else y p)) (gOldMousePosition s) s.

Definition process_mouse_packet (fuel : nat) (st : mouse * mem) : outcome (mouse * mem) :=
  if negb (mouse_packet_ready st.1) then Done st
  else
    '(s, m) ← buttons fuel st;
    let '(s, m) := draw_mouse_cursor (clamp (move_y (move_x s)), m) in
    Done (with_packet (mouse_cycle s) (mouse_packet s) false s, m).

Definition handle_ps2_mouse_interrupt (fuel : nat) (data : Z) (st : mouse * mem) : outcome (mouse * mem) :=
  let '(s, m) := st in
  if skip_first s then Done (started s, m)
  else
    let s :=
      if mouse_cycle s =? 0 then
        if Z.land data 8 =? 0 then s else with_packet 1 (<[0%nat := data]> (mouse_packet s)) (mouse_packet_ready s) s
      else if mouse_cycle s =? 1 then with_packet 2 (<[1%nat := data]> (mouse_packet s)) (mouse_packet_ready s) s
      else if mouse_cycle s =? 2 then with_packet 0 (<[2%nat := data]> (mouse_packet s)) true s
      else s in
    process_mouse_packet fuel (s, m).

(** One interrupt after the other. *)
Fixpoint interrupts (fuel : nat) (bytes : list Z) (st : mouse * mem) : outcome (mouse * mem) :=
  match bytes with
  | [] => Done st
  | b :: bytes => st ← handle_ps2_mouse_interrupt fuel b st; interrupts fuel bytes st
  end.

(** ** The state between interrupts *)

Record settings_ok : Prop := {
  m_target : fb_ok (Target r);
  m_render : fb_ok (Render r);
  m_width : PixelWidth (Render r) = PixelWidth (Target r);
  m_height : PixelHeight (Render r) = PixelHeight (Target r);
  m_line : PixelsPerScanLine (Render r) = PixelsPerScanLine (Target r);
  m_apart : buffers_ok r;
  m_pixels : 0 < PixelWidth (Target r) /\ 0 < PixelHeight (Target r);
  m_buffer : 0 < pixels_under_mouse_cursor /\ pixels_under_mouse_cursor + 1024 < 2 ^ 64;
  m_buffer_apart : pixels_under_mouse_cursor + 1024 <= BaseAddress (Target r) \/ fb_limit (Target r) <= pixels_under_mouse_cursor
}.

Record mouse_ok (s : mouse) : Prop := {
  s_position : on_screen (Target r) (x (gMousePosition s)) (y (gMousePosition s));
  s_old : gOldMousePosition s = gMousePosition s;
  s_bytes : length (mouse_packet s) = 4%nat /\ Forall (fun b => 0 <= b < 256) (mouse_packet s);
  s_random : Lfsr.lfsr_ok (gRandomLFSR s) /\ Lfsr.value (gRandomLFSR s) ≠ 0
}.

(** ** The colour *)

#[local] Opaque Lfsr.get.

Lemma iter_0 {A} (f : A -> A) (a : A) : Nat.iter 0 f a = a.
Proof. done. Qed.

Lemma new_colour_step n l : new_colour (S n) l =
  if wrap32 (Lfsr.get l).1 =? 0 then new_colour n (Lfsr.get l).2 else Done (wrap32 (Lfsr.get l).1, (Lfsr.get l).2).
Proof. cbn [new_colour]. by destruct (Lfsr.get l) as [v l']. Qed.

(** The loop ends when the first of the numbers is not zero in its lower half. *)
Lemma new_colour_first n k l : (k < n)%nat -> wrap32 (Lfsr.get (Nat.iter (64 * k) Lfsr.next l)).1 ≠ 0 -> Lfsr.lfsr_ok l -> Lfsr.value l ≠ 0 ->
  exists c l', new_colour n l = Done (c, l') /\ 0 < c < 2 ^ 32 /\ Lfsr.lfsr_ok l' /\ Lfsr.value l' ≠ 0.
Proof.
  revert n l. induction k as [|k IH]; intros n l Hk Hnz O Hne; (destruct n as [|n]; [lia|]); rewrite new_colour_step;
    (assert (O2 : Lfsr.lfsr_ok (Lfsr.get l).2) by (rewrite Lfsr.get_state; by apply Lfsr.iter_ok));
    (assert (N2 : Lfsr.value (Lfsr.get l).2 ≠ 0) by (rewrite Lfsr.get_state; by apply Lfsr.iter_nonzero));
    (destruct (Z.eqb_spec (wrap32 (Lfsr.get l).1) 0) as [Hz|Hz];
     [|eexists _, _; split; [reflexivity|]; split; [|done]; unfold wrap32 in *; pose proof (Z.mod_pos_bound (Lfsr.get l).1 (2 ^ 32)); lia]).
  - rewrite Nat.mul_0_r, iter_0 in Hnz. by destruct (Hnz Hz).
  - apply IH; [lia| |done|done]. rewrite Lfsr.get_state, <- Nat.iter_add. replace (64 * k + 64)%nat with (64 * S k)%nat by lia. done.
Qed.

(** It ends within sixteen numbers when the register is not zero. *)
Lemma new_colour_ends n l : (16 <= n)%nat -> Lfsr.lfsr_ok l -> Lfsr.value l ≠ 0 ->
  exists c l', new_colour n l = Done (c, l') /\ 0 < c < 2 ^ 32 /\ Lfsr.lfsr_ok l' /\ Lfsr.value l' ≠ 0.
Proof.
  intros Hn O Hne.
  assert (Hfirst : forall b, (forall k, (k < b)%nat -> wrap32 (Lfsr.get (Nat.iter (64 * k) Lfsr.next l)).1 = 0) \/
    exists k, (k < b)%nat /\ wrap32 (Lfsr.get (Nat.iter (64 * k) Lfsr.next l)).1 ≠ 0).
  { induction b as [|b [Hall|(k & Hk & Hnz)]]; [left; lia| |right; exists k; split; [lia|done]].
    destruct (Z.eq_dec (wrap32 (Lfsr.get (Nat.iter (64 * b) Lfsr.next l)).1) 0) as [Hz|Hnz]; [left|right; exists b; split; [lia|done]].
    intros k Hk. destruct (decide (k = b)) as [->|]; [done|]. apply Hall. lia. }
  destruct (Hfirst 16%nat) as [Hall|(k & Hk & Hnz)]; [exfalso; exact (Lfsr.low_half_not_always_zero l O Hne Hall)|].
  apply (new_colour_first n k l); [lia|done|done|done].
Qed.

(** ** Movement *)

(** What a byte of movement means, with its sign and overflow bits. *)
Definition delta (negative overflow : bool) (b : Z) : Z :=
  let more := if overflow then 255 else 0 in if negative then - (wrap8 (256 - b) + more) else b + more.

Lemma wrap8_range b : 0 <= wrap8 b < 256.
Proof. apply Z.mod_pos_bound. lia. Qed.

Lemma packet_byte_range i s : Forall (fun b => 0 <= b < 256) (mouse_packet s) -> 0 <= packet_byte i s < 256.
Proof.
  intros H. unfold packet_byte. destruct (nth_in_or_default i (mouse_packet s) 0) as [Hin|E]; [|lia]. rewrite List.Forall_forall in H. by apply H.
Qed.

(** Going down wraps around to a number above the old one, which is taken for zero. *)
Lemma down_spec old d (overflow : bool) : 0 <= old < 2 ^ 32 -> 0 <= d < 256 ->
  let n := old -64 d in let n := if overflow then n -64 255 else n in
  (if old <? n then 0 else n) = Z.max 0 (old - (d + if overflow then 255 else 0)).
Proof.
  intros Ho Hd. cbv zeta. assert (E : (if overflow then (old -64 d) -64 255 else old -64 d) = wrap64 (old - (d + if overflow then 255 else 0))).
  { destruct overflow; [rewrite wrap64_sub_l|]; f_equal; lia. }
  rewrite E. set (e := d + if overflow then 255 else 0). assert (He : 0 <= e < 1000) by (unfold e; destruct overflow; lia). clearbody e. unfold wrap64.
  destruct (Z_le_gt_dec 0 (old - e)).
  - rewrite Z.mod_small by lia. destruct (Z.ltb_spec old (old - e)); lia.
  - replace (old - e) with (old - e + 2 ^ 64 + (-1) * 2 ^ 64) by lia. rewrite Z_mod_plus_full, Z.mod_small by lia. destruct (Z.ltb_spec old (old - e + 2 ^ 64)); lia.
Qed.

Lemma up_spec old d (overflow : bool) : 0 <= old < 2 ^ 32 -> 0 <= d < 256 ->
  (if overflow then (old +64 d) +64 255 else old +64 d) = old + (d + if overflow then 255 else 0).
Proof. intros Ho Hd. rewrite (wrap64_small (old + d)) by (unfold is_u64; lia). destruct overflow; [rewrite wrap64_small by (unfold is_u64; lia)|]; lia. Qed.

(** The bytes a move leaves alone. *)
Record same_flags (i : nat) (s s' : mouse) : Prop := {
  sf_bytes : forall j, j ≠ i -> packet_byte j s' = packet_byte j s;
  sf_length : length (mouse_packet s') = length (mouse_packet s);
  sf_range : Forall (fun b => 0 <= b < 256) (mouse_packet s) -> Forall (fun b => 0 <= b < 256) (mouse_packet s');
  sf_random : gRandomLFSR s' = gRandomLFSR s;
  sf_rest : mouse_cycle s' = mouse_cycle s /\ skip_first s' = skip_first s
}.

Lemma same_flags_flag i s s' bit : same_flags i s s' -> i ≠ 0%nat -> flag bit s' = flag bit s.
Proof. intros F Hi. unfold flag. by rewrite (sf_bytes _ _ _ F) by done. Qed.

Lemma insert_packet i v s : (i < length (mouse_packet s))%nat -> 0 <= v < 256 -> let s' := with_packet (mouse_cycle s) (<[i := v]> (mouse_packet s)) (mouse_packet_ready s) s in
  packet_byte i s' = v /\ same_flags i s s'.
Proof.
  intros Hi Hv. cbv zeta. unfold packet_byte. cbn [mouse_packet with_packet]. split.
  - erewrite nth_lookup_Some; [done|]. by rewrite list_lookup_insert_eq.
  - split; try done; cbn [mouse_packet with_packet].
    + intros j Hj. unfold packet_byte. cbn [mouse_packet with_packet]. rewrite !nth_lookup, list_lookup_insert_ne by done. done.
    + by rewrite length_insert.
    + intros H. by apply Forall_insert.
Qed.

Lemma move_x_spec s : 0 <= x (gMousePosition s) < 2 ^ 32 -> gOldMousePosition s = gMousePosition s -> length (mouse_packet s) = 4%nat -> Forall (fun b => 0 <= b < 256) (mouse_packet s) ->
  gMousePosition (move_x s) = vec (Z.max 0 (x (gMousePosition s) + delta (flag PS2_X_SIGN s) (flag PS2_X_OVERFLOW s) (packet_byte 1 s))) (y (gMousePosition s)) /\
  gOldMousePosition (move_x s) = gOldMousePosition s /\ same_flags 1 s (move_x s).
Proof.
  intros Hx Ho Hl Hb. unfold move_x. destruct (flag PS2_X_SIGN s) eqn:Es.
  - destruct (insert_packet 1 (wrap8 (256 - packet_byte 1 s)) s ltac:(lia) (wrap8_range _)) as [E F].
    set (s1 := with_packet _ _ _ s) in *. rewrite (same_flags_flag _ _ _ PS2_X_OVERFLOW F) by done. split_and!; [|done|by destruct F].
    cbn [gMousePosition with_positions]. rewrite E. change (gOldMousePosition s1) with (gOldMousePosition s). rewrite Ho, down_spec by (done || apply wrap8_range). unfold delta; cbv zeta; cbn iota; f_equal; lia.
  - split_and!; [|done|by split]. cbn [gMousePosition with_positions]. pose proof (packet_byte_range 1 s Hb). rewrite up_spec by lia. unfold delta; cbv zeta; cbn iota; f_equal; destruct (flag PS2_X_OVERFLOW s); lia.
Qed.

Lemma move_y_spec s : 0 <= y (gMousePosition s) < 2 ^ 32 -> y (gOldMousePosition s) = y (gMousePosition s) -> length (mouse_packet s) = 4%nat -> Forall (fun b => 0 <= b < 256) (mouse_packet s) ->
  gMousePosition (move_y s) = vec (x (gMousePosition s)) (Z.max 0 (y (gMousePosition s) - delta (flag PS2_Y_SIGN s) (flag PS2_Y_OVERFLOW s) (packet_byte 2 s))) /\
  gOldMousePosition (move_y s) = gOldMousePosition s /\ same_flags 2 s (move_y s).
Proof.
  intros Hy Ho Hl Hb. unfold move_y. destruct (flag PS2_Y_SIGN s) eqn:Es.
  - destruct (insert_packet 2 (wrap8 (256 - packet_byte 2 s)) s ltac:(lia) (wrap8_range _)) as [E F]. pose proof (wrap8_range (256 - packet_byte 2 s)).
    set (s1 := with_packet _ _ _ s) in *. rewrite (same_flags_flag _ _ _ PS2_Y_OVERFLOW F) by done. split_and!; [|done|by destruct F].
    cbn [gMousePosition with_positions]. rewrite E, up_spec by done. unfold delta; cbv zeta; cbn iota; f_equal; destruct (flag PS2_Y_OVERFLOW s); lia.
  - split_and!; [|done|by split]. cbn [gMousePosition with_positions]. rewrite Ho, down_spec by (done || by apply packet_byte_range). unfold delta; cbv zeta; cbn iota; done.
Qed.

(** Where a packet takes the mouse. *)
Definition target (s : mouse) : Vector2 :=
  vec (Z.min (PixelWidth (Target r) - 1) (Z.max 0 (x (gMousePosition s) + delta (flag PS2_X_SIGN s) (flag PS2_X_OVERFLOW s) (packet_byte 1 s))))
      (Z.min (PixelHeight (Target r) - 1) (Z.max 0 (y (gMousePosition s) - delta (flag PS2_Y_SIGN s) (flag PS2_Y_OVERFLOW s) (packet_byte 2 s)))).

Context (G : settings_ok).

Lemma on_screen_small p : on_screen (Target r) (x p) (y p) -> 0 <= x p < 2 ^ 32 /\ 0 <= y p < 2 ^ 32 /\ vec_ok p /\ clamp_draw_position r p = p.
Proof.
  intros [Hx Hy]. destruct (m_target G) as [_ Hw Hl Hh _]. split_and!; try lia; [split; lia|]. unfold clamp_draw_position.
  rewrite (proj2 (Z.ltb_ge _ _)), (proj2 (Z.ltb_ge _ _)) by lia. by destruct p.
Qed.

Lemma moved_spec s : mouse_ok s -> let s' := clamp (move_y (move_x s)) in
  gMousePosition s' = target s /\ gOldMousePosition s' = gMousePosition s /\ on_screen (Target r) (x (target s)) (y (target s)) /\
  length (mouse_packet s') = 4%nat /\ Forall (fun b => 0 <= b < 256) (mouse_packet s') /\ gRandomLFSR s' = gRandomLFSR s /\ skip_draw s' = skip_draw s.
Proof.
  intros [Hp Ho [Hl Hb] _]. cbv zeta. destruct (on_screen_small _ Hp) as (Hx & Hy & _). destruct (move_x_spec s Hx Ho Hl Hb) as (E1 & O1 & F1).
  destruct (move_y_spec (move_x s)) as (E2 & O2 & F2); [by rewrite E1|by rewrite O1, E1, Ho|by rewrite (sf_length _ _ _ F1)|by apply F1|].
  destruct (m_pixels G) as [Hw Hh]. rewrite !(same_flags_flag _ _ _ _ F1), (sf_bytes _ _ _ F1) in E2 by done. rewrite E1 in E2. cbn [x y] in E2.
  assert (Et : gMousePosition (clamp (move_y (move_x s))) = target s).
  { unfold clamp. cbn [gMousePosition with_positions]. rewrite E2. cbn [x y]. unfold target.
    set (a := Z.max 0 (x (gMousePosition s) + _)). set (b := Z.max 0 (y (gMousePosition s) - _)).
    destruct (Z.leb_spec (PixelWidth (Target r)) a), (Z.leb_spec (PixelHeight (Target r)) b); f_equal; lia. }
  assert (Hs : on_screen (Target r) (x (target s)) (y (target s))) by (unfold on_screen, target; cbn [x y]; lia).
  split; [done|]. split; [unfold clamp; cbn; by rewrite O2, O1|]. split; [done|]. split_and!.
  - unfold clamp. cbn. by rewrite (sf_length _ _ _ F2), (sf_length _ _ _ F1).
  - unfold clamp. cbn. by apply F2, F1.
  - unfold clamp. cbn. by rewrite (sf_random _ _ _ F2), (sf_random _ _ _ F1).
  - unfold clamp. cbn. unfold move_y, move_x. by repeat case_match.
Qed.

(** ** Drawing *)

(** The framebuffers and the buffer of the pixels under the cursor are left alone at [z]. *)
Record untouched (z : Z) : Prop := {
  u_target : outside (Target r) z;
  u_render : outside (Render r) z;
  u_buffer : z < pixels_under_mouse_cursor \/ pixels_under_mouse_cursor + 1024 <= z
}.

Lemma mouse_swap_frame p size m z : untouched z -> vec_ok p -> vec_ok size -> read8 (swap r p size m) z = read8 m z.
Proof. intros U Hp Hs. destruct G. apply swap_outside; try done. apply U. Qed.

Lemma mouse_cursor_size_ok : vec_ok MouseCursorSize.
Proof. split; cbn; lia. Qed.

Lemma refresh_ok position old : 0 <= position < 2 ^ 32 -> 0 <= old < 2 ^ 32 -> 0 <= (refresh position old).1 < 2 ^ 64 /\ 0 <= (refresh position old).2 < 2 ^ 64.
Proof.
  intros Hp Ho. unfold refresh. pose proof (wrap64_range (16 + (position - old))). pose proof (wrap64_range (16 + (old - position))). unfold is_u64 in *.
  destruct (old <? position); [cbn; lia|]. destruct (position <? old); cbn; lia.
Qed.

Lemma draw_mouse_cursor_spec s m : on_screen (Target r) (x (gMousePosition s)) (y (gMousePosition s)) -> on_screen (Target r) (x (gOldMousePosition s)) (y (gOldMousePosition s)) ->
  (draw_mouse_cursor (s, m)).1 = drawn (with_positions (gMousePosition s) (gMousePosition s) s) /\
  (forall z, untouched z -> read8 (draw_mouse_cursor (s, m)).2 z = read8 m z).
Proof.
  intros Hp Hold. destruct (on_screen_small _ Hp) as (Hx & Hy & Vp & Ep). destruct (on_screen_small _ Hold) as (Hox & Hoy & Vold & Eold). destruct (m_buffer G) as [Hb1 Hb2].
  unfold draw_mouse_cursor. pose proof (refresh_ok _ _ Hx Hox) as Rx. pose proof (refresh_ok _ _ Hy Hoy) as Ry.
  destruct (refresh (x (gMousePosition s)) _) as [px sx]. destruct (refresh (y (gMousePosition s)) _) as [py sy]. cbn [fst snd] in Rx, Ry.
  assert (E0 : forall z, untouched z -> read8 (if skip_draw s then (gOldMousePosition s, m) else drawpix r (gOldMousePosition s) MouseCursorSize pixels_under_mouse_cursor m).2 z = read8 m z).
  { intros z U. destruct (skip_draw s); [done|]. unfold drawpix. rewrite (proj2 (Z.eqb_neq _ _)) by lia. 
    pose proof (drawpix_paint r (gOldMousePosition s) MouseCursorSize pixels_under_mouse_cursor m ltac:(lia)) as Ed. unfold drawpix in Ed. rewrite (proj2 (Z.eqb_neq _ _)) in Ed by lia.
    rewrite Ed. apply paint_on_target; [apply G|done|apply mouse_cursor_size_ok|apply U]. }
  destruct (if skip_draw s then _ else _) as [old' m0]. cbn [snd] in E0.
  assert (E1 : forall z, untouched z -> read8 (readpix r (gMousePosition s) MouseCursorSize pixels_under_mouse_cursor m0).2 z = read8 m0 z).
  { intros z U. destruct (readpix_spec r (gMousePosition s) MouseCursorSize pixels_under_mouse_cursor (m_target G)) with (m := m0) as [_ Hz];
      [split; cbn; lia|lia|done|cbn [x y MouseCursorSize]; exact (m_buffer_apart G)|]. apply Hz. apply U. }
  assert (P1 : (readpix r (gMousePosition s) MouseCursorSize pixels_under_mouse_cursor m0).1 = gMousePosition s).
  { unfold readpix. rewrite (proj2 (Z.eqb_neq _ _)) by lia. done. }
  destruct (readpix r (gMousePosition s) _ _ m0) as [p1 m1]. cbn [fst snd] in E1, P1. subst p1.
  assert (E2 : forall z, untouched z -> read8 (drawbmpover r (gMousePosition s) MouseCursorSize mouse_cursor 0xffffffff m1).2 z = read8 m1 z).
  { intros z U. destruct (Z.eq_dec mouse_cursor 0) as [->|Hc]; [done|]. rewrite drawbmpover_paint by done. apply paint_on_target; [apply G|done|apply mouse_cursor_size_ok|apply U]. }
  assert (P2 : (drawbmpover r (gMousePosition s) MouseCursorSize mouse_cursor 0xffffffff m1).1 = gMousePosition s) by (unfold drawbmpover; by destruct (mouse_cursor =? 0)).
  destruct (drawbmpover r (gMousePosition s) _ _ _ m1) as [p2 m2]. cbn [fst snd] in E2, P2. subst p2. cbn [fst snd]. split; [done|].
  intros z U. rewrite mouse_swap_frame by (done || split; cbn [x y]; lia). by rewrite E2, E1, E0.
Qed.

(** The buttons end, and only paint or choose a colour. *)
Lemma buttons_spec fuel s m : (16 <= fuel)%nat -> mouse_ok s ->
  exists c l m', buttons fuel (s, m) = Done (with_colour c l s, m') /\ (Lfsr.lfsr_ok l /\ Lfsr.value l ≠ 0) /\ (forall z, untouched z -> read8 m' z = read8 m z).
Proof.
  intros Hf [Hp Ho _ [Hl Hne]]. unfold buttons. assert (Es : s = with_colour (DrawColor s) (gRandomLFSR s) s) by (by destruct s). destruct (flag PS2_LEFT_BUTTON s).
  - set (p := vec _ _). assert (Vp : vec_ok p) by (split; apply wrap64_range).
    assert (E : forall z, untouched z -> read8 (drawrect r p (vec 2 2) (DrawColor s) m).2 z = read8 m z).
    { intros z U. rewrite drawrect_paint. apply paint_on_target; [apply G|done|split; cbn; lia|apply U]. }
    assert (V : vec_ok (drawrect r p (vec 2 2) (DrawColor s) m).1) by (apply clamp_ok; [apply G|done]).
    destruct (drawrect r p _ _ m) as [d m1]. cbn [fst snd] in E, V. exists (DrawColor s), (gRandomLFSR s), (swap r (vec 2 2) d m1). rewrite <- Es. split_and!; [done|done|done|].
    intros z U. rewrite mouse_swap_frame by (done || split; cbn; lia). by apply E.
  - destruct (flag PS2_RIGHT_BUTTON s).
    + destruct (new_colour_ends fuel (gRandomLFSR s) Hf Hl Hne) as (c & l & -> & _ & Hl' & Hne'). exists c, l, m. done.
    + exists (DrawColor s), (gRandomLFSR s), m. by rewrite <- Es.
Qed.

(** A packet that is ready moves the mouse. *)
Lemma process_ready fuel s m : (16 <= fuel)%nat -> mouse_ok s -> mouse_packet_ready s = true ->
  exists s' m', process_mouse_packet fuel (s, m) = Done (s', m') /\ mouse_ok s' /\ mouse_packet_ready s' = false /\
    gMousePosition s' = target s /\ (forall z, untouched z -> read8 m' z = read8 m z).
Proof.
  intros Hf Hs Hr. destruct (buttons_spec fuel s m Hf Hs) as (c & l & m1 & Eb & [Hl Hne] & F1). unfold process_mouse_packet. cbn [fst]. rewrite Hr, Eb. cbn [negb mbind outcome_bind].
  set (s1 := with_colour c l s). assert (Hs1 : mouse_ok s1) by (destruct Hs; by split). destruct (moved_spec s1 Hs1) as (Ep & Eo & Hon & Hlen & Hby & Hrnd & _).
  set (s2 := clamp (move_y (move_x s1))) in *. clearbody s2. change (target s1) with (target s) in Ep, Hon. change (gMousePosition s1) with (gMousePosition s) in Eo.
  change (gRandomLFSR s1) with l in Hrnd. destruct (draw_mouse_cursor_spec s2 m1) as [Ed F2]; [by rewrite Ep|rewrite Eo; apply Hs|].
  destruct (draw_mouse_cursor (s2, m1)) as [s3 m3]. cbn [fst snd] in Ed, F2. subst s3. eexists _, m3. split; [reflexivity|]. split_and!.
  - split; cbn; [by rewrite Ep|done|done|by rewrite Hrnd].
  - done.
  - cbn. by rewrite Ep.
  - intros z U. by rewrite F2, F1.
Qed.

(** Between interrupts no packet is ready, and the count of bytes is below three. *)
Record at_rest (s : mouse) : Prop := {
  r_ok : mouse_ok s;
  r_ready : mouse_packet_ready s = false;
  r_cycle : mouse_cycle s = 0 \/ mouse_cycle s = 1 \/ mouse_cycle s = 2
}.

Lemma draw_cycle st : mouse_cycle (draw_mouse_cursor st).1 = mouse_cycle st.1.
Proof.
  destruct st as [s m]. unfold draw_mouse_cursor. destruct (refresh _ _), (refresh _ _). destruct (if skip_draw s then _ else _). destruct (readpix _ _ _ _ _), (drawbmpover _ _ _ _ _ _). done.
Qed.

Lemma process_cycle fuel st st' : process_mouse_packet fuel st = Done st' -> mouse_cycle st'.1 = mouse_cycle st.1.
Proof.
  unfold process_mouse_packet. destruct (negb _); [by intros [= <-]|]. intros E. done_inv E. destruct r0 as [s m].
  assert (Ec : mouse_cycle s = mouse_cycle st.1).
  { destruct st as [s0 m0]. unfold buttons in E0. destruct (flag _ s0); [destruct (drawrect _ _ _ _ _); by simplify_eq|]. destruct (flag _ s0); [|by simplify_eq].
    done_inv E0. destruct r0. by simplify_eq/=. }
  rewrite <- Ec. pose proof (draw_cycle (clamp (move_y (move_x s)), m)) as Ed. destruct (draw_mouse_cursor _) as [s1 m1]. injection E as <-. cbn in *. rewrite Ed.
  unfold move_y, move_x. by repeat case_match.
Qed.

Lemma interrupt_ok fuel b s m : (16 <= fuel)%nat -> 0 <= b < 256 -> at_rest s ->
  exists s' m', handle_ps2_mouse_interrupt fuel b (s, m) = Done (s', m') /\ at_rest s' /\ (forall z, untouched z -> read8 m' z = read8 m z).
Proof.
  intros Hf Hb [Hs Hr Hc]. unfold handle_ps2_mouse_interrupt. destruct (skip_first s); [eexists _, m; split; [reflexivity|]; split; [|done]; split; [by destruct Hs|done|done]|].
  assert (Hput : forall i c ready, mouse_ok (with_packet c (<[i := b]> (mouse_packet s)) ready s)).
  { intros i c ready. destruct Hs as [H1 H2 [H3 H4] H5]. split; cbn; [done|done| |done]. split; [by rewrite length_insert|by apply Forall_insert]. }
  destruct Hc as [E|[E|E]]; rewrite E; cbn [Z.eqb Pos.eqb]; cbn iota.
  - unfold process_mouse_packet. destruct (Z.land b 8 =? 0); cbn; rewrite Hr; cbn; eexists _, m; (split; [reflexivity|]); (split; [|done]).
    + split; [done|done|by left].
    + split; [apply Hput|done|cbn; lia].
  - unfold process_mouse_packet. cbn. rewrite Hr. cbn. eexists _, m. split; [reflexivity|]. split; [|done]. split; [apply Hput|done|cbn; lia].
  - destruct (process_ready fuel (with_packet 0 (<[2%nat := b]> (mouse_packet s)) true s) m Hf (Hput _ _ _) eq_refl) as (s' & m' & Ep & Hs' & Hr' & _ & F).
    exists s', m'. split; [done|]. split; [|done]. split; [done|done|]. apply process_cycle in Ep. cbn in Ep. lia.
Qed.

(** The three bytes of a packet. *)
Lemma byte_0 fuel b s m : skip_first s = false -> mouse_packet_ready s = false -> mouse_cycle s = 0 -> Z.land b 8 ≠ 0 ->
  handle_ps2_mouse_interrupt fuel b (s, m) = Done (with_packet 1 (<[0%nat := b]> (mouse_packet s)) false s, m).
Proof. intros Hk Hr Hc H8. unfold handle_ps2_mouse_interrupt, process_mouse_packet. rewrite Hk, Hc. cbn [Z.eqb]. rewrite (proj2 (Z.eqb_neq _ _) H8). cbn. by rewrite Hr. Qed.

Lemma byte_1 fuel b s m : skip_first s = false -> mouse_packet_ready s = false -> mouse_cycle s = 1 ->
  handle_ps2_mouse_interrupt fuel b (s, m) = Done (with_packet 2 (<[1%nat := b]> (mouse_packet s)) false s, m).
Proof. intros Hk Hr Hc. unfold handle_ps2_mouse_interrupt, process_mouse_packet. rewrite Hk, Hc. cbn. by rewrite Hr. Qed.

Lemma byte_2 fuel b s m : skip_first s = false -> mouse_cycle s = 2 ->
  handle_ps2_mouse_interrupt fuel b (s, m) = process_mouse_packet fuel (with_packet 0 (<[2%nat := b]> (mouse_packet s)) true s, m).
Proof. intros Hk Hc. unfold handle_ps2_mouse_interrupt. by rewrite Hk, Hc. Qed.

Lemma interrupts_ok fuel bytes s m : (16 <= fuel)%nat -> Forall (fun b => 0 <= b < 256) bytes -> at_rest s ->
  exists s' m', interrupts fuel bytes (s, m) = Done (s', m') /\ at_rest s' /\ (forall z, untouched z -> read8 m' z = read8 m z).
Proof.
  intros Hf Hb. revert s m. induction Hb as [|b bytes Hb Hbs IH]; intros s m Hs; [by exists s, m|]. cbn [interrupts].
  destruct (interrupt_ok fuel b s m Hf Hb Hs) as (s1 & m1 & -> & Hs1 & F1). cbn [mbind outcome_bind]. destruct (IH s1 m1 Hs1) as (s2 & m2 & E & Hs2 & F2).
  exists s2, m2. split_and!; [done|done|]. intros z U. by rewrite F2, F1.
Qed.

End Screen.

(** ** Claims *)

(** C35: Whatever bytes the mouse sends, each interrupt ends, the mouse stays on the screen,
    and nothing is written but the framebuffers and the pixels kept from under the
    cursor. Choosing a colour takes at most sixteen random numbers. The framebuffers may
    be anywhere in the address space, and may be one and the same. *)
Theorem mouse_stays_on_the_screen r mouse_cursor pixels fuel bytes s m :
  settings_ok r pixels -> (16 <= fuel)%nat -> Forall (fun b => 0 <= b < 256) bytes -> at_rest r s ->
  exists s' m', interrupts r mouse_cursor pixels fuel bytes (s, m) = Done (s', m') /\
    on_screen (Target r) (x (gMousePosition s')) (y (gMousePosition s')) /\ gOldMousePosition s' = gMousePosition s' /\
    (forall z, untouched r pixels z -> read8 m' z = read8 m z).
Proof.
  intros G Hf Hb Hs. destruct (interrupts_ok r mouse_cursor pixels G fuel bytes s m Hf Hb Hs) as (s' & m' & E & [Hs' _ _] & F).
  exists s', m'. split; [done|]. split; [apply Hs'|]. split; [apply Hs'|done].
Qed.

(** Three bytes are a packet when the first has its fourth bit set: the mouse moves by
    what they say, up to the edges of the screen. *)
Theorem packet_moves_the_mouse r mouse_cursor pixels fuel b0 b1 b2 s m :
  settings_ok r pixels -> (16 <= fuel)%nat -> Forall (fun b => 0 <= b < 256) [b0; b1; b2] -> at_rest r s -> mouse_cycle s = 0 -> skip_first s = false -> Z.land b0 8 ≠ 0 ->
  let negative bit := negb (Z.land b0 bit =? 0) in
  exists s' m', interrupts r mouse_cursor pixels fuel [b0; b1; b2] (s, m) = Done (s', m') /\
    gMousePosition s' =
      vec (Z.min (PixelWidth (Target r) - 1) (Z.max 0 (x (gMousePosition s) + delta (negative PS2_X_SIGN) (negative PS2_X_OVERFLOW) b1)))
          (Z.min (PixelHeight (Target r) - 1) (Z.max 0 (y (gMousePosition s) - delta (negative PS2_Y_SIGN) (negative PS2_Y_OVERFLOW) b2))).
Proof.
  intros G Hf Hb [Hs Hr _] Hc Hk H8. cbv zeta. cbn [interrupts]. rewrite byte_0 by done. cbn [mbind outcome_bind]. rewrite byte_1 by done. cbn [mbind outcome_bind]. rewrite byte_2 by done.
  inversion Hb as [|? ? Hb0 Hb']; subst. inversion Hb' as [|? ? Hb1 Hb'']; subst. inversion Hb'' as [|? ? Hb2 _]; subst. destruct Hs as [Hp Ho [Hl Hby] Hrnd].
  destruct (mouse_packet s) as [|p0 [|p1 [|p2 [|p3 [|]]]]] eqn:Epk; try discriminate Hl. cbn [mouse_packet with_packet insert list_insert].
  match goal with |- context [process_mouse_packet _ _ _ _ (?s3, m)] => destruct (process_ready r mouse_cursor pixels G fuel s3 m Hf) as (s' & m' & -> & _ & _ & Et & _) end.
  - split; [done|done| |done]. cbn. split; [done|]. rewrite !Forall_cons in Hby |- *. tauto.
  - done.
  - cbn [mbind outcome_bind]. exists s', m'. split; [done|]. exact Et.
Qed.

(** Whatever the keyboard controller answers, the set-up of the mouse sends it the same
    commands in the same order, with the second bit of its status set. *)
Theorem mouse_setup_commands D `{PortBus D} (t : traced D) :
  exists status, 0 <= status < 256 /\
    writes (init_ps2_mouse t).2 = writes t ++
      [(0x64, 0xa8); (0x64, 0x20); (0x64, 0x60); (0x60, Z.lor status 2); (0x64, 0xd4); (0x60, 0xf6); (0x64, 0xd4); (0x60, 0xf4); (0x64, 0xd4); (0x60, 0xf2)].
Proof.
  assert (Hw : forall stop n (u : traced D), writes (wait_loop stop n u).2 = writes u).
  { intros stop n. induction n as [|n IH]; intros u; [done|]. cbn [wait_loop]. io_run. destruct (stop _); [apply in8_writes|]. by rewrite IH, in8_writes. }
  assert (Hrd : forall u : traced D, writes (mouse_read u).2 = writes u) by (intros u; unfold mouse_read, mouse_wait_input; io_run; by rewrite in8_writes, Hw).
  assert (Hwr : forall v (u : traced D), writes (mouse_write v u).2 = writes u ++ [(0x64, 0xd4); (0x60, wrap8 v)]).
  { intros v u. unfold mouse_write, mouse_wait, mouse_wait_input. io_run. rewrite out8_writes, Hw, out8_writes, Hw, <- app_assoc. done. }
  unfold init_ps2_mouse. io_run. match goal with |- context [Z.lor ?st 2] => set (status := st) end. exists status.
  assert (Hst : 0 <= status < 256) by apply in8_range. split; [done|].
  assert (Hlor : 0 <= Z.lor status 2 < 256).
  { split; [apply Z.lor_nonneg; lia|]. apply Z.log2_lt_cancel. rewrite Z.log2_lor by lia. change (Z.log2 256) with 8. apply Z.max_lub_lt; [|done].
    destruct (Z.eq_dec status 0) as [->|]; [done|]. apply Z.log2_lt_pow2; lia. }
  unfold mouse_wait, mouse_wait_input. rewrite Hrd, Hrd, Hwr, Hrd, Hwr, Hrd, Hwr, out8_writes, Hw, out8_writes, Hw, in8_writes, Hw, out8_writes, Hw, out8_writes.
  rewrite <- !app_assoc. change (wrap8 (Z.lor status 2)) with (Z.lor status 2 mod 256). rewrite (Z.mod_small _ 256 Hlor). done.
Qed.

(** ** The claims at work *)

(** The target is where the constructor maps it, or there is only one framebuffer. *)
Definition screen : BasicRenderer := mkRenderer (mkFramebuffer 65536 8192 64 32 64) (mkFramebuffer 0xffffff8000000000 8192 64 32 64) 0 16 1000.
Definition plain_screen : BasicRenderer := mkRenderer (Render screen) (Render screen) 0 16 1000.
Definition in_corner : mouse := mkMouse (vec 0 0) (vec 0 0) 0 [0; 0; 0; 0] false false true 0xffffffff Lfsr.new_LFSR.

Lemma screen_settings : settings_ok screen 300000 /\ settings_ok plain_screen 300000.
Proof. split; split; first [right; right; vm_compute; done|left; vm_compute; done|right; vm_compute; done|split; cbn; lia|cbn; lia|done]. Qed.

Lemma in_corner_rest r : 0 < PixelWidth (Target r) -> 0 < PixelHeight (Target r) -> at_rest r in_corner.
Proof.
  intros Hw Hh. split; [|done|by left]. split; [split; cbn; lia|done|split; [done|by repeat constructor]|]. split; [apply Lfsr.new_LFSR_ok|by vm_compute].
Qed.

Lemma mouse_stays_on_the_screen_witness :
  exists s' m', interrupts screen 200000 300000 16 [0x0a; 200; 3; 0x18; 0; 7; 0x38; 1; 255] (in_corner, fun _ => 0) = Done (s', m') /\
    on_screen (Target screen) (x (gMousePosition s')) (y (gMousePosition s')) /\
  exists s1 m1, interrupts plain_screen 200000 300000 16 [0x0a; 200; 3; 0x18; 0; 7; 0x38; 1; 255] (in_corner, fun _ => 0) = Done (s1, m1).
Proof.
  destruct (mouse_stays_on_the_screen screen 200000 300000 16 [0x0a; 200; 3; 0x18; 0; 7; 0x38; 1; 255] in_corner (fun _ => 0) (proj1 screen_settings)) as (s' & m' & E & H & _);
    [lia|repeat constructor; lia|by apply in_corner_rest|].
  destruct (mouse_stays_on_the_screen plain_screen 200000 300000 16 [0x0a; 200; 3; 0x18; 0; 7; 0x38; 1; 255] in_corner (fun _ => 0) (proj2 screen_settings)) as (s1 & m1 & E1 & _);
    [lia|repeat constructor; lia|by apply in_corner_rest|].
  exists s', m'. split; [exact E|]. split; [exact H|]. exists s1, m1. exact E1.
Defined.

Lemma packet_moves_the_mouse_witness :
  exists s' m', interrupts screen 200000 300000 16 [0x08; 10; 0] (in_corner, fun _ => 0) = Done (s', m') /\ gMousePosition s' = vec 10 0.
Proof.
  apply (packet_moves_the_mouse screen 200000 300000 16 0x08 10 0 in_corner (fun _ => 0) (proj1 screen_settings)); [lia|repeat constructor; lia|by apply in_corner_rest|done|done|done].
Defined.

End Mouse.
