(* ===== verification/Spinlock.v ===== *)
(** * Spinlocks

    Models src/kernel/src/spinlock.h and spinlock.cpp: the lock, the locker that takes it
    in its constructor and gives it back in its destructor, and threads that run them
    with every atomic instruction as one step. *)

From S2P Require Import Prelude.

Module Spinlock.

(** [lock cmpxchg]: the lock is set when it was free, and the result says so. *)
Definition compare_and_swap_lock (locked : bool) : bool * bool := if locked then (false, true) else (true, true).

(** [lock xchg]: the old value, and the lock is set. *)
Definition test_and_set_lock (locked : bool) : bool * bool := (locked, true).

(** [while (compare_and_swap_lock() == true);] run alone. *)
Fixpoint lock (fuel : nat) (locked : bool) : outcome bool :=
  match fuel with
  | O => Stop Hung
  | S fuel =>
      let '(r, locked) := compare_and_swap_lock locked in
      if r then lock fuel locked else Done locked
  end.

Definition unlock (locked : bool) : bool := false.

(** ** Threads *)

(** Where a thread is: before its locker, in the loop of [lock], behind it, after an
    explicit [unlock] with the destructor still to come. *)
Inductive place := Outside | Locking | Inside | Unlocked.

#[export] Instance place_eq_dec : EqDecision place.
Proof. solve_decision. Defined.

Record threads := mkThreads { locked : bool; at_place : nat -> place }.

Definition move (t : nat) (p : place) (l : bool) (s : threads) : threads := mkThreads l (fun u => if decide (u = t) then p else at_place s u).

Inductive step : threads -> threads -> Prop :=
| s_construct s t : at_place s t = Outside -> step s (move t Locking (locked s) s)
| s_cas_again s t l : at_place s t = Locking -> compare_and_swap_lock (locked s) = (true, l) -> step s (move t Locking l s)
| s_cas_done s t l : at_place s t = Locking -> compare_and_swap_lock (locked s) = (false, l) -> step s (move t Inside l s)
| s_unlock s t : at_place s t = Inside -> step s (move t Unlocked (unlock (locked s)) s)
| s_destroy s t : at_place s t = Inside \/ at_place s t = Unlocked -> step s (move t Outside (unlock (locked s)) s).

Definition start : threads := mkThreads false (fun _ => Outside).

(** A thread that starts comes through. *)
Lemma enters s t : at_place s t = Outside -> exists s', rtc step s s' /\ locked s' = true /\ forall u, at_place s' u = if decide (u = t) then Inside else at_place s u.
Proof.
  intros Ht. set (s1 := move t Locking (locked s) s). assert (P1 : at_place s1 t = Locking) by (cbn; by rewrite decide_True).
  assert (R1 : step s s1) by (by apply s_construct). destruct (locked s) eqn:El.
  - exists (move t Inside true s1). split_and!; [eapply rtc_l; [exact R1|]; apply rtc_once, s_cas_done; [done|]; cbn; done|done|].
    intros u. cbn. by destruct (decide (u = t)).
  - set (s2 := move t Locking true s1). assert (P2 : at_place s2 t = Locking) by (cbn; by rewrite decide_True).
    exists (move t Inside true s2). split_and!; [eapply rtc_l; [exact R1|]; eapply rtc_l; [apply (s_cas_again s1 t true); [done|]; cbn; done|];
      apply rtc_once, s_cas_done; [done|done]|done|].
    intros u. cbn. by destruct (decide (u = t)).
Qed.

Lemma crowd n : exists s, rtc step start s /\ ((0 < n)%nat -> locked s = true) /\ (forall t, (t < n)%nat -> at_place s t = Inside) /\ (forall t, (n <= t)%nat -> at_place s t = Outside).
Proof.
  induction n as [|n (s & Hr & Hl & Hin & Hout)]; [exists start; split_and!; [done|lia|lia|done]|].
  destruct (enters s n (Hout n ltac:(lia))) as (s' & Hr' & Hl' & Hp). exists s'. split_and!; [by transitivity s|done| |].
  - intros t Ht. rewrite Hp. destruct (decide (t = n)); [done|]. apply Hin. lia.
  - intros t Ht. rewrite Hp, decide_False by lia. apply Hout. lia.
Qed.

(** ** Claims *)

(** Alone, a thread takes the lock in two turns of the loop, or one when it is taken
    already. *)
Theorem lock_ends fuel l : (2 <= fuel)%nat -> lock fuel l = Done true.
Proof. intros Hf. destruct fuel as [|[|fuel]]; [lia|lia|]. by destruct l. Qed.

Lemma lock_ends_witness : lock 2 false = Done true.
Proof. apply (lock_ends 2 false). lia. Defined.

(** C34: Any number of threads can be behind the lock at once: the loop ends when the lock
    is taken, whoever has it. *)
Theorem spinlock_does_not_exclude n : (2 <= n)%nat -> exists s, rtc step start s /\ locked s = true /\ forall t, (t < n)%nat -> at_place s t = Inside.
Proof.
  intros Hn. destruct (crowd n) as (s & Hr & Hl & Hin & _). exists s. split_and!; [done|apply Hl; lia|done].
Qed.

Lemma spinlock_does_not_exclude_witness : exists s, rtc step start s /\ locked s = true /\ forall t, (t < 2)%nat -> at_place s t = Inside.
Proof. apply (spinlock_does_not_exclude 2). lia. Defined.

End Spinlock.
