(* ===== verification/Acpi.v ===== *)
(** * ACPI tables

    Models src/kernel/src/cstr.cpp and acpi.h and acpi.cpp: the kernel's own [strlen] and
    [strcmp], the checksum of a table, and the search of the extended system descriptor
    table for a table with a given signature. Tables are bytes in memory; their printing
    is left out. *)

From S2P Require Import Prelude PhysMem.

(** ** The kernel's string routines *)
Module KString.

(** The loop of [strlen], at most [fuel] characters. *)
Fixpoint strlen_loop (fuel : nat) (a out : Z) (m : mem) : outcome Z :=
  match fuel with
  | O => Stop Hung
  | S fuel => if read8 m a =? 0 then Done (out + 1) else strlen_loop fuel (a + 1) (out + 1) m
  end.

Definition strlen (fuel : nat) (a : Z) (m : mem) : outcome Z := strlen_loop fuel a 0 m.

Fixpoint strcmp_loop (n : nat) (a b : Z) (m : mem) : bool :=
  match n with
  | O => true
  | S n => if read8 m a =? read8 m b then strcmp_loop n (a + 1) (b + 1) m else false
  end.

Definition strcmp (a b length : Z) (m : mem) : bool := strcmp_loop (Z.to_nat length) a b m.

Lemma strcmp_loop_spec n a b m : strcmp_loop n a b m = true <-> forall i, 0 <= i < Z.of_nat n -> read8 m (a + i) = read8 m (b + i).
Proof.
  revert a b. induction n as [|n IH]; intros a b; cbn [strcmp_loop]; [split; [lia|done]|].
  destruct (Z.eqb_spec (read8 m a) (read8 m b)) as [E|E].
  - rewrite IH. split; intros H i Hi.
    + destruct (decide (i = 0)) as [->|Hne]; [by rewrite !Z.add_0_r|]. specialize (H (i - 1) ltac:(lia)). by rewrite <-!Z.add_assoc, Zplus_minus in H.
    + specialize (H (i + 1) ltac:(lia)). by rewrite <-!Z.add_assoc, (Z.add_comm 1).
  - split; [done|]. intros H. specialize (H 0 ltac:(lia)). by rewrite !Z.add_0_r in H.
Qed.

Lemma kernel_strcmp_spec a b n m : 0 <= n -> strcmp a b n m = true <-> forall i, 0 <= i < n -> read8 m (a + i) = read8 m (b + i).
Proof. intros Hn. unfold strcmp. rewrite strcmp_loop_spec, Z2Nat.id by done. done. Qed.

(** The terminator is counted: a string of [n] characters has the length [n + 1]. *)
Lemma strlen_counts_the_terminator fuel n a m :
  0 <= n -> (forall i, 0 <= i < n -> read8 m (a + i) ≠ 0) -> read8 m (a + n) = 0 -> (Z.to_nat n < fuel)%nat -> strlen fuel a m = Done (n + 1).
Proof.
  intros Hn Hc H0 Hf. unfold strlen. enough (forall k out, 0 <= k -> forall b fuel, (Z.to_nat k < fuel)%nat -> (forall i, 0 <= i < k -> read8 m (b + i) ≠ 0) -> read8 m (b + k) = 0 -> strlen_loop fuel b out m = Done (out + k + 1)) as H.
  { by rewrite (H n 0 Hn). }
  intros k out Hk. revert out. pattern k. apply natlike_ind; [| |done]; clear k Hk.
  - intros out b [|f] Hf' _ Hz; [lia|]. cbn. rewrite Z.add_0_r in Hz. rewrite Hz. cbn. by rewrite Z.add_0_r.
  - intros k Hk IH out b [|f] Hf' Hnz Hz; [lia|]. cbn [strlen_loop]. rewrite (proj2 (Z.eqb_neq _ _)) by (specialize (Hnz 0 ltac:(lia)); by rewrite Z.add_0_r in Hnz).
    rewrite IH; [f_equal; lia|lia| |].
    + intros i Hi. specialize (Hnz (i + 1) ltac:(lia)). by rewrite <-Z.add_assoc, (Z.add_comm 1).
    + by rewrite <-Z.add_assoc, Z.add_1_l.
Qed.

End KString.

Module Acpi.

Definition sizeof_SDTHeader : Z := 36.
Definition sizeof_MCFGHeader : Z := 44.
Definition sizeof_DeviceConfig : Z := 16.

(** The fields of the headers that are used, by their offsets. *)
Definition Length (m : mem) (sdt : Z) : Z := read_le 4 m (sdt + 4).
Definition XSDTAddress (m : mem) (rsdp : Z) : Z := read64 m (rsdp + 24).
Definition BaseAddress (m : mem) (devCon : Z) : Z := read64 m devCon.
Definition StartBus (m : mem) (devCon : Z) : Z := read8 m (devCon + 10).
Definition EndBus (m : mem) (devCon : Z) : Z := read8 m (devCon + 11).

(** [gRSDP] and [gXSDT] *)
Record acpi := mkAcpi { gRSDP : Z; gXSDT : Z }.

Definition initialize (rootSystemDescriptorPointer : Z) (m : mem) (g : acpi) : acpi :=
  if rootSystemDescriptorPointer =? 0 then g
  else mkAcpi rootSystemDescriptorPointer (XSDTAddress m rootSystemDescriptorPointer).

(** [for (; length > 0; length--, base++) sum += *base;] *)
Fixpoint checksum_loop (n : nat) (base sum : Z) (m : mem) : Z :=
  match n with
  | O => sum
  | S n => checksum_loop n (base + 1) (wrap8 (sum + read8 m base)) m
  end.

Definition checksum (pointer length : Z) (m : mem) : Z := checksum_loop (Z.to_nat length) pointer 0 m.

(** The loop of [find_table] from entry [t] on, [n] entries left. *)
Fixpoint find_loop (n : nat) (header signature t : Z) (m : mem) : Z :=
  match n with
  | O => 0
  | S n =>
      let sdt := read64 m (header + sizeof_SDTHeader + 8 * t) in
      if KString.strcmp sdt signature 4 m then
        if checksum sdt (Length m sdt) m =? 0 then sdt else 0
      else find_loop n header signature (t + 1) m
  end.

(** The number of entries, a 64-bit quotient. *)
Definition entries (m : mem) (header : Z) : Z := wrap64 (Length m header - sizeof_SDTHeader) / 8.

Definition find_table (header signature : Z) (m : mem) : Z :=
  if (header =? 0) || (signature =? 0) then 0
  else find_loop (Z.to_nat (entries m header)) header signature 0 m.

(** The overload that takes [gXSDT]. *)
Definition find_system_table (signature : Z) (m : mem) (g : acpi) : Z := find_table (gXSDT g) signature m.

(** ** What is found *)

Definition bytes (m : mem) (a n : Z) : list Z := (fun i => read8 m (a + i)) <$> seqZ 0 n.

(** The tables an extended system descriptor table lists. *)
Definition tables (m : mem) (header : Z) : list Z := (fun t => read64 m (header + sizeof_SDTHeader + 8 * t)) <$> seqZ 0 (entries m header).

Definition sum (l : list Z) : Z := foldr Z.add 0 l.

Lemma checksum_loop_spec n base s m : 0 <= s < 256 -> checksum_loop n base s m = (s + sum (bytes m base (Z.of_nat n))) mod 256.
Proof.
  revert base s. induction n as [|n IH]; intros base s Hs; cbn [checksum_loop].
  - cbn. rewrite Z.add_0_r. symmetry. by apply Z.mod_small.
  - rewrite IH by (unfold wrap8; apply Z.mod_pos_bound; lia). unfold bytes. rewrite (seqZ_cons 0 (Z.of_nat (S n))) by lia. cbn [fmap list_fmap sum foldr]. rewrite Z.add_0_r.
    replace (Z.pred (Z.of_nat (S n))) with (Z.of_nat n) by lia. unfold wrap8. rewrite Zplus_mod_idemp_l, <-Z.add_assoc. f_equal. f_equal. f_equal.
    change (Z.succ 0) with 1. change (seqZ 1) with (seqZ (1 + 0)). rewrite <-(fmap_add_seqZ 1 0), <-list_fmap_compose. unfold sum. f_equal. apply list_fmap_ext. intros _ i _. cbn. f_equal. lia.
Qed.

(** The checksum is the sum of the bytes. *)
Lemma checksum_spec a n m : 0 <= n -> checksum a n m = sum (bytes m a n) mod 256.
Proof. intros Hn. unfold checksum. rewrite checksum_loop_spec by lia. by rewrite Z2Nat.id. Qed.

(** A table with the four characters of the signature. *)
Definition signed (m : mem) (signature sdt : Z) : Prop := bytes m sdt 4 = bytes m signature 4.

#[export] Instance signed_dec m signature sdt : Decision (signed m signature sdt).
Proof. unfold signed. apply _. Defined.

Lemma strcmp_signed m signature sdt : KString.strcmp sdt signature 4 m = bool_decide (signed m signature sdt).
Proof.
  destruct (bool_decide_reflect (signed m signature sdt)) as [H|H].
  - apply KString.kernel_strcmp_spec; [lia|]. intros i Hi. unfold signed, bytes in H. change (seqZ 0 4) with [0; 1; 2; 3] in H. cbn [fmap list_fmap] in H. injection H as E0 E1 E2 E3.
    assert (i = 0 \/ i = 1 \/ i = 2 \/ i = 3) as [->|[->|[->| ->]]] by lia; done.
  - apply not_true_is_false. intros E. apply H. pose proof (proj1 (KString.kernel_strcmp_spec sdt signature 4 m ltac:(lia)) E) as Hb. unfold signed, bytes.
    apply list_fmap_ext. intros k i Hi. apply list_elem_of_lookup_2, elem_of_seqZ in Hi. apply Hb. lia.
Qed.

(** The reference: the first table with the signature, if its bytes sum up to zero. *)
Definition first_signed (m : mem) (signature : Z) (l : list Z) : Z :=
  match list_find (signed m signature) l with
  | Some (_, sdt) => if sum (bytes m sdt (Length m sdt)) mod 256 =? 0 then sdt else 0
  | None => 0
  end.

Lemma first_signed_cons m signature x l :
  first_signed m signature (x :: l) = if bool_decide (signed m signature x) then (if sum (bytes m x (Length m x)) mod 256 =? 0 then x else 0) else first_signed m signature l.
Proof.
  unfold first_signed. cbn [list_find]. rewrite bool_decide_decide. destruct (decide (signed m signature x)); [done|]. cbn. by destruct (list_find _ l) as [[i y]|].
Qed.

Lemma find_loop_spec n header signature t m :
  find_loop n header signature t m = first_signed m signature ((fun t => read64 m (header + sizeof_SDTHeader + 8 * t)) <$> seqZ t (Z.of_nat n)).
Proof.
  revert t. induction n as [|n IH]; intros t; [done|]. cbn [find_loop]. rewrite (seqZ_cons t) by lia. cbn [fmap list_fmap]. rewrite first_signed_cons, strcmp_signed, IH.
  replace (Z.pred (Z.of_nat (S n))) with (Z.of_nat n) by lia. rewrite checksum_spec by apply read_le_range. done.
Qed.

(** ** Claims *)

(** [find_table] gives the first table with the signature, provided its checksum is
    right; a table with a wrong checksum hides all later ones. *)
Theorem find_table_gives_the_first header signature m : header ≠ 0 -> signature ≠ 0 ->
  find_table header signature m = first_signed m signature (tables m header).
Proof.
  intros H1 H2. unfold find_table. rewrite !(proj2 (Z.eqb_neq _ _)) by done. cbn. rewrite find_loop_spec, Z2Nat.id; [done|].
  unfold entries, wrap64. apply Z.div_pos; [apply Z.mod_pos_bound|]; lia.
Qed.

(** A table whose length is less than that of its header has some 2^61 entries. *)
Theorem short_table_has_too_many_entries m header : Length m header < sizeof_SDTHeader -> 2 ^ 60 < entries m header.
Proof.
  intros H. pose proof (read_le_range 4 m (header + 4)) as Hr. fold (Length m header) in Hr. unfold entries, wrap64, sizeof_SDTHeader in *.
  rewrite <-(Z_mod_plus_full _ 1), Z.mod_small by lia. dlia.
Qed.

(** A root table with two entries, the second of which is the one looked for; its
    checksum is wrong. *)
Definition example_tables : mem :=
  write_le 4 (write_le 4 (write_le 4 (write_le 4 (write_le 4 (write_le 8 (write_le 8 (write_le 4 (fun _ => 0) 4100 52) 4132 8192) 4140 12288) 8192 0x43495041) 8196 36) 12288 0x4746434d) 12292 36) 100 0x4746434d.

Lemma find_table_gives_the_first_witness :
  find_table 4096 100 example_tables = 0 /\ find_table 4096 100 (write8 example_tables 12297 0xbf) = 12288.
Proof. split; (rewrite find_table_gives_the_first by done; by vm_compute). Defined.

Lemma short_table_has_too_many_entries_witness : 2 ^ 60 < entries (fun _ => 0) 4096.
Proof. by apply (short_table_has_too_many_entries (fun _ => 0) 4096). Defined.

End Acpi.
