(* ===== verification/Hpet.v ===== *)
(** * The high precision event timer

    Models src/kernel/src/hpet.h and hpet.cpp: finding the timer through its ACPI table,
    mapping its registers, starting and stopping its counter, and reading and setting it.
    The registers are hardware of class [Mmio]. The lock around each operation is that of
    Spinlock.v and is left out, as is the printing. *)

From S2P Require Import Prelude PhysMem FrameAlloc Paging PageMap Ports Acpi.

Module Hpet.

Definition HPET_MIN_COMPARATORS : Z := 3.
Definition HPET_MAX_COMPARATORS : Z := 32.
Definition HPET_REG_GENERAL_CAPABILITIES_AND_ID : Z := 0x000.
Definition HPET_MAIN_COUNTER_PERIOD : Z := 0x004.
Definition HPET_REG_GENERAL_CONFIGURATION : Z := 0x010.
Definition HPET_REG_MAIN_COUNTER_VALUE : Z := 0x0f0.

(** The fields of [ACPI::HPETHeader] that are used. *)
Definition RevisionID (m : mem) (header : Z) : Z := read8 m (header + 36).
Definition ID (m : mem) (header : Z) : Z := read8 m (header + 37).
Definition AddressSpaceID (m : mem) (header : Z) : Z := read8 m (header + 40).
Definition Address (m : mem) (header : Z) : Z := read64 m (header + 44).

Record hpet := mkHpet {
  Header : Z; Initialized : bool; LargeCounterSupport : bool; LegacyInterruptSupport : bool;
  Period : Z; Frequency : Z; NumberOfComparators : Z
}.

Definition new_hpet : hpet := mkHpet 0 false false false 0 0 0.

Definition with_Header (a : Z) (h : hpet) : hpet :=
  mkHpet a (Initialized h) (LargeCounterSupport h) (LegacyInterruptSupport h) (Period h) (Frequency h) (NumberOfComparators h).
Definition with_support (large legacy : bool) (h : hpet) : hpet :=
  mkHpet (Header h) (Initialized h) large legacy (Period h) (Frequency h) (NumberOfComparators h).
Definition with_period (p f : Z) (h : hpet) : hpet :=
  mkHpet (Header h) (Initialized h) (LargeCounterSupport h) (LegacyInterruptSupport h) p f (NumberOfComparators h).
Definition with_comparators (n : Z) (h : hpet) : hpet :=
  mkHpet (Header h) (Initialized h) (LargeCounterSupport h) (LegacyInterruptSupport h) (Period h) (Frequency h) n.
Definition with_Initialized (b : bool) (h : hpet) : hpet :=
  mkHpet (Header h) b (LargeCounterSupport h) (LegacyInterruptSupport h) (Period h) (Frequency h) (NumberOfComparators h).

Section Driver.
Context {D : Type} `{Mmio D}.

Definition writel (h : hpet) (m : mem) (offset value : Z) : io D unit := fun d => (tt, mmio_write32 (Address m (Header h) +64 offset) (wrap32 value) d).
Definition readl (h : hpet) (m : mem) (offset : Z) : io D Z := mmio_read32 (Address m (Header h) +64 offset).

Definition start_main_counter (h : hpet) (m : mem) : io D unit :=
  if negb (Initialized h) then mret tt
  else
    config ← readl h m HPET_REG_GENERAL_CONFIGURATION;
    writel h m HPET_REG_GENERAL_CONFIGURATION (Z.lor config 1).

Definition stop_main_counter (h : hpet) (m : mem) : io D unit :=
  if negb (Initialized h) then mret tt
  else
    config ← readl h m HPET_REG_GENERAL_CONFIGURATION;
    writel h m HPET_REG_GENERAL_CONFIGURATION (Z.ldiff config 1).

(** Reads the lower half until the upper half is the same before and after. *)
Fixpoint get_loop (fuel : nat) (h : hpet) (m : mem) (high : Z) (d : D) : outcome (Z * Z * D) :=
  match fuel with
  | O => Stop Hung
  | S fuel =>
      let '(low, d) := readl h m HPET_REG_MAIN_COUNTER_VALUE d in
      let '(newHigh, d) := readl h m (HPET_REG_MAIN_COUNTER_VALUE + 4) d in
      if newHigh =? high then Done (high, low, d) else get_loop fuel h m newHigh d
  end.

Definition get (fuel : nat) (h : hpet) (m : mem) (d : D) : outcome (Z * D) :=
  if negb (Initialized h) then Done (0, d)
  else
    let '(_, d) := stop_main_counter h m d in
    '(result, d) ←
      (if LargeCounterSupport h then
         let '(high, d) := readl h m (HPET_REG_MAIN_COUNTER_VALUE + 4) d in
         '(high, low, d) ← get_loop fuel h m high d;
         Done (Z.lor (Z.shiftl high 32) low, d)
       else Done (readl h m HPET_REG_MAIN_COUNTER_VALUE d));
    let '(_, d) := start_main_counter h m d in
    Done (result, d).

Definition set_main_counter (h : hpet) (m : mem) (value : Z) : io D unit :=
  if negb (Initialized h) then mret tt
  else
    _ ← stop_main_counter h m;
    _ ← writel h m HPET_REG_MAIN_COUNTER_VALUE value;
    _ ← writel h m (HPET_REG_MAIN_COUNTER_VALUE + 4) (Z.shiftr value 32);
    start_main_counter h m.

Definition reset_counter (h : hpet) (m : mem) : io D unit := if negb (Initialized h) then mret tt else set_main_counter h m 0.

(** What [initialize] does once the registers are mapped. *)
Definition configure (h : hpet) (m : mem) (d : D) : bool * hpet * D :=
  let '(c, d) := readl h m HPET_REG_GENERAL_CAPABILITIES_AND_ID d in
  let large := negb (Z.land c (Z.shiftl 1 13) =? 0) in
  let '(c, d) := readl h m HPET_REG_GENERAL_CAPABILITIES_AND_ID d in
  let h := with_support large (negb (Z.land c (Z.shiftl 1 15) =? 0)) h in
  let '(config, d) := readl h m HPET_REG_GENERAL_CONFIGURATION d in
  let '(_, d) := writel h m HPET_REG_GENERAL_CONFIGURATION (Z.ldiff config 2) d in
  let '(p, d) := readl h m HPET_MAIN_COUNTER_PERIOD d in
  if p =? 0 then (false, with_period 0 (Frequency h) h, d)
  else
    let n := Z.land (ID m (Header h)) 31 + 1 in
    let h := with_comparators n (with_period p (1000000000000000 / p) h) in
    if (n <? HPET_MIN_COMPARATORS) || (HPET_MAX_COMPARATORS <? n) then (false, h, d)
    else
      let '(_, d) := start_main_counter h m d in
      (true, with_Initialized true h, d).

Context {F : Type} `{!FrameAllocator F}.

(** [initialize] with the address of the string it looks for. *)
Definition initialize (root name : Z) (g : Acpi.acpi) (h : hpet) (m : mem) (fr : F) (d : D) : outcome (bool * hpet * (mem * F) * D) :=
  let h := with_Header (Acpi.find_system_table name m g) h in
  if Header h =? 0 then Done (false, h, (m, fr), d)
  else if RevisionID m (Header h) =? 0 then Done (false, h, (m, fr), d)
  else if AddressSpaceID m (Header h) =? 0 then
    let a := Address m (Header h) in
    '(m, fr) ← map root a a (Z.lor (flag_value Present) (flag_value ReadWrite)) (m, fr);
    let '(b, h, d) := configure h m d in
    Done (b, h, (m, fr), d)
  else Done (false, h, (m, fr), d).

End Driver.

(** ** The timer

    A counter of 64 bits that runs while bit 0 of the configuration is set; a register is
    read or written at one moment, and time may pass behind a read. *)
Class Timer (base : Z) (D : Type) `{Mmio D} := {
  counter : D -> Z;
  config : D -> Z;
  capabilities : D -> Z * Z;
  passed d d' : Prop := config d' = config d /\ capabilities d' = capabilities d /\ (Z.testbit (config d) 0 = false -> counter d' = counter d);
  counter_u64 d : 0 <= counter d < 2 ^ 64;
  config_u32 d : 0 <= config d < 2 ^ 32;
  read_config d : (mmio_read32 (base +64 HPET_REG_GENERAL_CONFIGURATION) d).1 = config d /\ passed d (mmio_read32 (base +64 HPET_REG_GENERAL_CONFIGURATION) d).2;
  read_low d : (mmio_read32 (base +64 HPET_REG_MAIN_COUNTER_VALUE) d).1 = counter d mod 2 ^ 32 /\ passed d (mmio_read32 (base +64 HPET_REG_MAIN_COUNTER_VALUE) d).2;
  read_high d : (mmio_read32 (base +64 (HPET_REG_MAIN_COUNTER_VALUE + 4)) d).1 = counter d / 2 ^ 32 /\ passed d (mmio_read32 (base +64 (HPET_REG_MAIN_COUNTER_VALUE + 4)) d).2;
  read_capabilities d : (mmio_read32 (base +64 HPET_REG_GENERAL_CAPABILITIES_AND_ID) d).1 = (capabilities d).1 /\ passed d (mmio_read32 (base +64 HPET_REG_GENERAL_CAPABILITIES_AND_ID) d).2;
  read_period d : (mmio_read32 (base +64 HPET_MAIN_COUNTER_PERIOD) d).1 = (capabilities d).2 /\ passed d (mmio_read32 (base +64 HPET_MAIN_COUNTER_PERIOD) d).2;
  write_config v d : 0 <= v < 2 ^ 32 -> let d' := mmio_write32 (base +64 HPET_REG_GENERAL_CONFIGURATION) v d in config d' = v /\ counter d' = counter d /\ capabilities d' = capabilities d;
  write_low v d : 0 <= v < 2 ^ 32 -> Z.testbit (config d) 0 = false ->
    let d' := mmio_write32 (base +64 HPET_REG_MAIN_COUNTER_VALUE) v d in config d' = config d /\ counter d' = counter d / 2 ^ 32 * 2 ^ 32 + v;
  write_high v d : 0 <= v < 2 ^ 32 -> Z.testbit (config d) 0 = false ->
    let d' := mmio_write32 (base +64 (HPET_REG_MAIN_COUNTER_VALUE + 4)) v d in config d' = config d /\ counter d' = v * 2 ^ 32 + counter d mod 2 ^ 32
}.

Definition running {base D} `{Timer base D} (d : D) : bool := Z.testbit (config d) 0.

Section Counting.
Context (base : Z) {D : Type} `{Timer base D} (h : hpet) (m : mem) (Hb : Address m (Header h) = base).

Lemma start_spec d : Initialized h = true -> exists d', start_main_counter h m d = (tt, d') /\ running d' = true /\ (running d = false -> counter d' = counter d).
Proof.
  intros Hi. unfold start_main_counter, running. rewrite Hi. cbn [negb]. rewrite io_bind_run. unfold readl, writel. rewrite Hb. destruct (read_config d) as [-> (Ec & Ea & Ek)].
  set (d1 := (mmio_read32 _ d).2) in *. assert (Hu : 0 <= Z.lor (config d) 1 < 2 ^ 32) by (apply lor_below; [lia|apply config_u32|lia]). unfold wrap32. rewrite Z.mod_small by done.
  destruct (write_config (Z.lor (config d) 1) d1 Hu) as (Ec' & Ek' & Ea'). eexists. split; [reflexivity|]. rewrite Ec', Ek', Z.lor_spec, orb_true_r. auto.
Qed.

Lemma stop_spec d : Initialized h = true -> exists d', stop_main_counter h m d = (tt, d') /\ running d' = false /\ (running d = false -> counter d' = counter d).
Proof.
  intros Hi. unfold stop_main_counter, running. rewrite Hi. cbn [negb]. rewrite io_bind_run. unfold readl, writel. rewrite Hb. destruct (read_config d) as [-> (Ec & Ea & Ek)].
  set (d1 := (mmio_read32 _ d).2) in *. assert (Hu : 0 <= Z.ldiff (config d) 1 < 2 ^ 32) by (apply ldiff_below; [lia|apply config_u32]). unfold wrap32. rewrite Z.mod_small by done.
  destruct (write_config (Z.ldiff (config d) 1) d1 Hu) as (Ec' & Ek' & Ea'). eexists. split; [reflexivity|]. rewrite Ec', Ek', Z.ldiff_spec, andb_false_r. auto.
Qed.

(** A counter that stands still is read as a whole, in one round. *)
Lemma get_loop_spec fuel d : (1 <= fuel)%nat -> running d = false ->
  exists d', get_loop fuel h m (counter d / 2 ^ 32) d = Done (counter d / 2 ^ 32, counter d mod 2 ^ 32, d') /\ counter d' = counter d /\ running d' = false.
Proof.
  intros Hf Hr. destruct fuel as [|fuel]; [lia|]. cbn [get_loop]. unfold readl. rewrite Hb. destruct (read_low d) as [E1 (C1 & _ & K1)]. destruct (mmio_read32 _ d) as [low d1]. cbn [fst snd] in *. subst low.
  destruct (read_high d1) as [E2 (C2 & _ & K2)]. destruct (mmio_read32 _ d1) as [high d2]. cbn [fst snd] in *. subst high. unfold running in *. rewrite K1 in * by done.
  rewrite C1 in *. specialize (K2 Hr). rewrite Z.eqb_refl. exists d2. split_and!; [done|done|]. by rewrite C2.
Qed.

Lemma get_counter_spec fuel d : Initialized h = true -> (1 <= fuel)%nat ->
  exists d', get fuel h m d = Done (if LargeCounterSupport h then counter d' else counter d' mod 2 ^ 32, d') /\ running d' = true /\ (running d = false -> counter d' = counter d).
Proof.
  intros Hi Hf. unfold get. rewrite Hi. cbn [negb]. destruct (stop_spec d Hi) as (d1 & -> & R1 & K1). destruct (LargeCounterSupport h).
  - unfold readl at 1. rewrite Hb. destruct (read_high d1) as [E2 (C2 & _ & K2)]. destruct (mmio_read32 _ d1) as [high d2]. cbn [fst snd] in *. subst high.
    assert (R2 : running d2 = false) by (unfold running in *; by rewrite C2). rewrite <-K2 by done. destruct (get_loop_spec fuel d2 Hf R2) as (d3 & -> & K3 & R3). cbn [mbind outcome_bind].
    destruct (start_spec d3 Hi) as (d4 & -> & R4 & K4). exists d4. split_and!; [|done|intros R; rewrite K4, K3, K2, K1 by done; done].
    rewrite lor_shiftl_add by (try apply Z.mod_pos_bound; lia). rewrite K4, K3 by done. do 2 f_equal. rewrite (Z.mul_comm _ (2 ^ 32)). symmetry. apply Z.div_mod. lia.
  - unfold readl at 1. rewrite Hb. destruct (read_low d1) as [E2 (C2 & _ & K2)]. destruct (mmio_read32 _ d1) as [low d2]. cbn [fst snd] in *. subst low. cbn [mbind outcome_bind].
    assert (R2 : running d2 = false) by (unfold running in *; by rewrite C2).
    destruct (start_spec d2 Hi) as (d4 & -> & R4 & K4). exists d4. split_and!; [|done|intros R; rewrite K4, K2, K1 by done; done]. by rewrite K4, K2 by done.
Qed.

Lemma set_spec v d : Initialized h = true -> 0 <= v < 2 ^ 64 -> exists d', set_main_counter h m v d = (tt, d') /\ counter d' = v /\ running d' = true.
Proof.
  intros Hi Hv. unfold set_main_counter. rewrite Hi. cbn [negb]. rewrite !io_bind_run. destruct (stop_spec d Hi) as (d1 & -> & R1 & _). cbn [fst snd]. unfold writel. rewrite Hb. cbn [snd]. unfold wrap32.
  assert (Hl : 0 <= v mod 2 ^ 32 < 2 ^ 32) by (apply Z.mod_pos_bound; lia). destruct (write_low (v mod 2 ^ 32) d1 Hl R1) as (C2 & K2). set (d2 := mmio_write32 _ _ d1) in *.
  assert (Hh : Z.shiftr v 32 mod 2 ^ 32 = v / 2 ^ 32) by (rewrite Z.shiftr_div_pow2 by lia; apply Z.mod_small; dlia). rewrite Hh.
  assert (R2 : running d2 = false) by (unfold running in *; by rewrite C2). destruct (write_high (v / 2 ^ 32) d2 ltac:(dlia) R2) as (C3 & K3). set (d3 := mmio_write32 _ _ d2) in *.
  assert (R3 : running d3 = false) by (unfold running in *; by rewrite C3). destruct (start_spec d3 Hi) as (d4 & E4 & R4 & K4). exists d4. split_and!; [exact E4| |done].
  rewrite K4, K3, K2 by done. rewrite Z.add_comm, (Z.add_comm _ (v mod 2 ^ 32)), Z_mod_plus_full, Z.mod_mod by lia. rewrite Z.add_comm, (Z.mul_comm _ (2 ^ 32)). symmetry. apply Z.div_mod. lia.
Qed.

(** Configuring the timer: what is read is kept, and the counter is as it was. *)
Lemma configure_spec d : Initialized h = false ->
  let p := (capabilities d).2 in let n := Z.land (ID m (Header h)) 31 + 1 in
  exists h' d', configure h m d = (negb (p =? 0) && (3 <=? n) && (n <=? 32), h', d') /\ running d' = running d /\
    (p ≠ 0 -> 3 <= n <= 32 -> h' = mkHpet (Header h) true (Z.testbit (capabilities d).1 13) (Z.testbit (capabilities d).1 15) p (1000000000000000 / p) n).
Proof.
  intros Hi p n. unfold configure, readl, writel. rewrite Hb. cbn [with_support Header]. rewrite Hb. unfold running.
  destruct (read_capabilities d) as [E1 (C1 & A1 & _)]. destruct (mmio_read32 _ d) as [c1 d1]. cbn [fst snd] in *.
  destruct (read_capabilities d1) as [E2 (C2 & A2 & _)]. destruct (mmio_read32 _ d1) as [c2 d2]. cbn [fst snd] in *.
  destruct (read_config d2) as [E3 (C3 & A3 & _)]. destruct (mmio_read32 _ d2) as [c3 d3]. cbn [fst snd] in *.
  assert (Hu : 0 <= Z.ldiff c3 2 < 2 ^ 32) by (apply ldiff_below; [lia|rewrite E3; apply config_u32]). unfold wrap32. rewrite Z.mod_small by done.
  destruct (write_config (Z.ldiff c3 2) d3 Hu) as (C4 & _ & A4). set (d4 := mmio_write32 _ _ d3) in *.
  destruct (read_period d4) as [E5 (C5 & A5 & _)]. destruct (mmio_read32 _ d4) as [c5 d5]. cbn [fst snd] in *.
  assert (Ep : c5 = p) by (rewrite E5, A4, A3, A2, A1; done). rewrite Ep. clearbody d4.
  assert (Hr : Z.testbit (config d5) 0 = Z.testbit (config d) 0) by (rewrite C5, C4, Z.ldiff_spec, E3, C2, C1, andb_true_r; done).
  rewrite !Z.shiftl_1_l, !land_pow2_eqb by lia.
  destruct (p =? 0) eqn:Hp; [eexists _, _; split_and!; [reflexivity|done|]; intros Hne; by apply Z.eqb_eq in Hp|]. cbn [with_comparators with_period Header ID].
  fold n. unfold HPET_MIN_COMPARATORS, HPET_MAX_COMPARATORS. rewrite (Z.ltb_antisym 3 n), (Z.ltb_antisym n 32).
  destruct (3 <=? n) eqn:H3, (n <=? 32) eqn:H32; cbn [negb orb andb].
  2-4: eexists _, _; split_and!; [reflexivity|done|]; intros _ Hn; apply Z.leb_gt in H3 || apply Z.leb_gt in H32; lia.
  unfold start_main_counter. cbn [Initialized with_comparators with_period with_support]. rewrite Hi. eexists _, _. split_and!; [reflexivity|done|]. intros _ _. subst c1 c2. by rewrite A1.
Qed.

End Counting.

(** ** Claims *)

(** The counter is set to all of its 64 bits and runs on; reading it stops it, gives its
    two halves as of one moment, and lets it run on from there. *)
Theorem counter_is_set_and_read base D `{Timer base D} h m fuel v (d : D) :
  Address m (Header h) = base -> Initialized h = true -> LargeCounterSupport h = true -> (1 <= fuel)%nat -> 0 <= v < 2 ^ 64 ->
  exists d1, set_main_counter h m v d = (tt, d1) /\ counter d1 = v /\ running d1 = true /\
    exists d2, get fuel h m d1 = Done (counter d2, d2) /\ running d2 = true.
Proof.
  intros Hb Hi Hl Hf Hv. destruct (set_spec base h m Hb v d Hi Hv) as (d1 & E1 & K1 & R1). exists d1. split_and!; [done|done|done|].
  destruct (get_counter_spec base h m Hb fuel d1 Hi Hf) as (d2 & E2 & R2 & _). rewrite Hl in E2. by exists d2.
Qed.

Section Initializing.
Context {D F : Type} (base root name : Z) `{Timer base D, !FrameAllocator F} (g : Acpi.acpi) (m : mem) (fr : F) (d : D).

(** The header lies in pages that are neither free nor page tables. *)
Definition header_safe (header : Z) : Prop := forall x, header <= x < header + 56 -> data_frame m fr root (x / PAGE_SIZE * PAGE_SIZE).

Lemma header_kept m' fr' mf header : page_mapped m m' fr fr' root base base mf -> header_safe header ->
  ID m' header = ID m header /\ Address m' header = Address m header.
Proof.
  intros P Hs. assert (Hr : forall x, header <= x < header + 56 -> read8 m' x = read8 m x).
  { intros x Hx. destruct (pm_data _ _ _ _ _ _ _ _ P _ (Hs x Hx)) as [_ B]. apply B. unfold PAGE_SIZE. dlia. }
  split; [apply Hr; lia|]. apply read_le_ext. intros k Hk. apply Hr. lia.
Qed.

(** Initialization maps the registers and reads what the timer can do, and succeeds; but
    [start_main_counter] does nothing as long as [Initialized] is false, so that the
    counter runs afterwards only if it ran before. *)
Theorem initialised_timer_is_not_started h :
  let header := Acpi.find_system_table name m g in let n := Z.land (ID m header) 31 + 1 in
  header ≠ 0 -> RevisionID m header ≠ 0 -> AddressSpaceID m header = 0 -> Address m header = base -> header_safe header ->
  fa_inv fr -> tree_wf m fr root -> root ≠ 0 -> frame_address base -> 3 <= fa_avail fr ->
  Initialized h = false -> (capabilities d).2 ≠ 0 -> 3 <= n <= 32 ->
  exists m' fr' d', initialize root name g h m fr d =
      Done (true, mkHpet header true (Z.testbit (capabilities d).1 13) (Z.testbit (capabilities d).1 15) (capabilities d).2 (1000000000000000 / (capabilities d).2) n, (m', fr'), d') /\
    running d' = running d /\ (exists e, translate m' root base = Some e /\ Pde.address e = base) /\ tree_wf m' fr' root.
Proof.
  intros header n H1 H2 H3 Hb Hs Hinv Hwf Hroot Hfr Hav Hi Hp Hn. unfold initialize. cbn [with_Header Header]. fold header. rewrite !(proj2 (Z.eqb_neq _ _)) by done. rewrite H3, Hb. cbn [Z.eqb].
  set (mf := Z.lor _ _). destruct (map_progress root base base mf m fr Hinv) as (m' & fr' & E & _ & _).
  assert (P : page_mapped m m' fr fr' root base base mf) by (eapply map_spec; (done || apply Hfr || by left)). rewrite E. cbn [mbind outcome_bind].
  destruct (header_kept m' fr' mf header P Hs) as [EID EA].
  destruct (configure_spec base (mkHpet header (Initialized h) (LargeCounterSupport h) (LegacyInterruptSupport h) (Period h) (Frequency h) (NumberOfComparators h)) m' (eq_trans EA Hb) d Hi) as (h' & d' & Ec & R & Eh).
  cbn [Header] in *. rewrite EID in *. fold n in Ec, Eh. rewrite (proj2 (Z.eqb_neq _ _) Hp), !(proj2 (Z.leb_le _ _)) in Ec by lia. cbn [negb andb] in Ec.
  unfold with_Header. rewrite Ec, (Eh Hp Hn). exists m', fr', d'. split_and!; [done|done| |apply P]. destruct (pm_entry _ _ _ _ _ _ _ _ P) as (e & Et & Ee & _). by exists e.
Qed.

End Initializing.

(** ** A timer that counts seven ticks between two accesses *)

Record clock := mkClock { k_count : Z; k_config : Z; k_caps : Z * Z }.

Definition clock_tick (c : clock) : clock := if Z.testbit (k_config c) 0 then mkClock ((k_count c + 7) mod 2 ^ 64) (k_config c) (k_caps c) else c.

Definition clock_base : Z := 0xfed00000.

#[export] Instance clock_mmio : Mmio clock := {
  mmio_read32 a c :=
    let o := a - clock_base in
    ((if o =? 0x10 then k_config c mod 2 ^ 32 else if o =? 0xf0 then k_count c mod 2 ^ 64 mod 2 ^ 32 else if o =? 0xf4 then k_count c mod 2 ^ 64 / 2 ^ 32
      else if o =? 0 then (k_caps c).1 else (k_caps c).2), clock_tick c);
  mmio_write32 a v c :=
    let o := a - clock_base in
    if o =? 0x10 then mkClock (k_count c) v (k_caps c)
    else if o =? 0xf0 then mkClock (k_count c mod 2 ^ 64 / 2 ^ 32 * 2 ^ 32 + v) (k_config c) (k_caps c)
    else if o =? 0xf4 then mkClock (v * 2 ^ 32 + k_count c mod 2 ^ 64 mod 2 ^ 32) (k_config c) (k_caps c)
    else c;
  mmio_read8 _ c := (0, c);
  mmio_write8 _ _ c := c
}.

Lemma clock_tick_spec c : k_config (clock_tick c) mod 2 ^ 32 = k_config c mod 2 ^ 32 /\ k_caps (clock_tick c) = k_caps c /\
  (Z.testbit (k_config c mod 2 ^ 32) 0 = false -> k_count (clock_tick c) mod 2 ^ 64 = k_count c mod 2 ^ 64).
Proof. unfold clock_tick. rewrite Z.mod_pow2_bits_low by lia. by destruct (Z.testbit (k_config c) 0). Qed.

#[export, refine] Instance clock_timer : Timer clock_base clock := {
  counter c := k_count c mod 2 ^ 64; config c := k_config c mod 2 ^ 32; capabilities := k_caps }.
Proof.
  - intros d. apply Z.mod_pos_bound. lia.
  - intros d. apply Z.mod_pos_bound. lia.
  - intros d. split; [done|apply clock_tick_spec].
  - intros d. split; [done|apply clock_tick_spec].
  - intros d. split; [done|apply clock_tick_spec].
  - intros d. split; [done|apply clock_tick_spec].
  - intros d. split; [done|apply clock_tick_spec].
  - intros v d Hv. split_and!; [by apply Z.mod_small|done|done].
  - intros v d Hv _. split; [done|]. cbn. apply Z.mod_small. pose proof (Z.mod_pos_bound (k_count d) (2 ^ 64) ltac:(lia)). dlia.
  - intros v d Hv _. split; [done|]. cbn. apply Z.mod_small. pose proof (Z.mod_pos_bound (k_count d mod 2 ^ 64) (2 ^ 32) ltac:(lia)). lia.
Defined.

Lemma counter_is_set_and_read_witness : let h := mkHpet 0 true true false 0 0 3 in let m := write_le 8 (fun _ => 0) 44 clock_base in
  exists d1, set_main_counter h m (2 ^ 40 + 5) (mkClock 3 1 (0, 0)) = (tt, d1) /\ counter d1 = 2 ^ 40 + 5 /\ running d1 = true /\
    exists d2, get 1 h m d1 = Done (counter d2, d2) /\ running d2 = true.
Proof. apply (counter_is_set_and_read clock_base clock); by vm_compute || lia. Defined.

(** The tables of a machine with such a timer: the root of the page map in page 1, the
    extended system descriptor table in page 2, the timer's in page 3. *)
Definition example_memory : mem :=
  write8 (write_le 8 (write8 (write8 (write_le 4 (write_le 4 (write_le 8 (write_le 4 (write_le 4 zero_mem 100 0x54455048) 8196 44) 8228 12288) 12288 0x54455048) 12292 56) 12324 1) 12325 2) 12332 clock_base) 12297 0xc6.

Definition example_taken : pmm := lock_pages 0 4 fresh.

Lemma example_taken_wf : pmm_wf example_taken.
Proof. apply (lock_pages_spec 0 4); [apply fresh_wf|unfold PAGE_SIZE; lia..]. Qed.

Lemma example_table_entry i : 0 <= i < 512 -> entry example_memory PAGE_SIZE i = 0.
Proof.
  apply entry_of_zeroes. unfold PAGE_SIZE. intros x Hx. unfold example_memory. repeat first [rewrite read8_write8_ne by lia | rewrite write_le_frame by (cbn; lia)]. done.
Qed.

Lemma initialised_timer_is_not_started_witness :
  exists m' fr' d', initialize PAGE_SIZE 100 (Acpi.mkAcpi 0 8192) new_hpet example_memory example_taken (mkClock 0 0 (2 ^ 13, 10000000)) =
      Done (true, mkHpet 12288 true true false 10000000 100000000 3, (m', fr'), d') /\ running d' = false /\
    (exists e, translate m' PAGE_SIZE clock_base = Some e /\ Pde.address e = clock_base) /\ tree_wf m' fr' PAGE_SIZE.
Proof.
  assert (Eh : Acpi.find_system_table 100 example_memory (Acpi.mkAcpi 0 8192) = 12288) by (by vm_compute).
  pose proof (initialised_timer_is_not_started clock_base PAGE_SIZE 100 (Acpi.mkAcpi 0 8192) example_memory example_taken (mkClock 0 0 (2 ^ 13, 10000000)) new_hpet) as H.
  cbv zeta in H. rewrite Eh in H. change (Z.land (ID example_memory 12288) 31 + 1) with 3 in H. change 100000000 with (1000000000000000 / 10000000).
  apply H; clear H; [done|by vm_compute|by vm_compute|by vm_compute| |apply example_taken_wf| |done|split; [unfold clock_base; lia|done]|by vm_compute|done|done|lia].
  - intros x Hx. apply empty_data_frame; [apply example_table_entry| | |]; replace (x / PAGE_SIZE) with 3 by (unfold PAGE_SIZE; dlia); [split; [unfold PAGE_SIZE; lia|done]|exists 3; vm_compute; intuition congruence|done].
  - apply empty_tree_wf; [split; [unfold PAGE_SIZE; lia|done]|exists 1; vm_compute; intuition congruence|apply example_table_entry].
Defined.

End Hpet.
