(* ===== verification/Pci.v ===== *)
(** * The devices of the PCI buses

    Models src/kernel/src/pci.h and pci.cpp, the devices they create (system.h and
    devices/devices.cpp), and [find_pci_devices] of kstage1.cpp. Every function of every
    device of the buses in the MCFG table has a page of configuration space; it is mapped
    to itself in the active page map, looked at, and unmapped again when there is nothing.
    The names of pci_descriptors.cpp, used in messages only, are left out. *)

From S2P Require Import Prelude PhysMem Bitmap FrameAlloc Paging PageMap Acpi.

Module Pci.

(** The fields of [PCIDeviceHeader] that are used. *)
Definition VendorID (m : mem) (hdr : Z) : Z := read_le 2 m hdr.
Definition DeviceID (m : mem) (hdr : Z) : Z := read_le 2 m (hdr + 2).
Definition ProgIF (m : mem) (hdr : Z) : Z := read8 m (hdr + 9).
Definition Subclass (m : mem) (hdr : Z) : Z := read8 m (hdr + 10).
Definition Class (m : mem) (hdr : Z) : Z := read8 m (hdr + 11).

Definition SYSDEV_MAJOR_STORAGE : Z := 1.
Definition SYSDEV_MAJOR_STORAGE_SEARCH : Z := 0.
Definition SYSDEV_MINOR_AHCI_CONTROLLER : Z := 0.
Definition SYSDEV_MAJOR_NETWORK : Z := 2.
Definition SYSDEV_MINOR_E1000 : Z := 0.

(** A system device, with the header its class keeps. *)
Record SystemDevice := mkDevice { Flags : Z; Major : Z; Minor : Z; Header : Z }.

Definition set_flag (bitNumber : Z) (state : bool) (d : SystemDevice) : SystemDevice :=
  let f := Z.ldiff (Flags d) (Z.shiftl 1 bitNumber) in
  mkDevice (if state then Z.lor f (Z.shiftl 1 bitNumber) else f) (Major d) (Minor d) (Header d).
Definition flag (bitNumber : Z) (d : SystemDevice) : bool := 0 <? Z.land (Flags d) (Z.shiftl 1 bitNumber).

(** The constructors of [AHCIController] and [E1000Device]. *)
Definition AHCIController (hdr : Z) : SystemDevice := set_flag SYSDEV_MAJOR_STORAGE_SEARCH true (mkDevice 0 SYSDEV_MAJOR_STORAGE SYSDEV_MINOR_AHCI_CONTROLLER hdr).
Definition E1000Device (hdr : Z) : SystemDevice := mkDevice 0 SYSDEV_MAJOR_NETWORK SYSDEV_MINOR_E1000 hdr.

(** [System::device] *)
Definition device (major minor : Z) (Devices : list SystemDevice) : option SystemDevice :=
  snd <$> list_find (fun d => Major d = major /\ Minor d = minor) Devices.

(** Nothing answers there. *)
Definition absent (m : mem) (hdr : Z) : bool := (DeviceID m hdr =? 0x0000) || (DeviceID m hdr =? 0xffff).

(** What [enumerate_function] creates for the header of a function. *)
Definition drivers (m : mem) (hdr : Z) : list SystemDevice :=
  if Class m hdr =? 0x01 then
    if Subclass m hdr =? 0x06 then if ProgIF m hdr =? 0x01 then [AHCIController hdr] else [] else []
  else if Class m hdr =? 0x02 then
    if Subclass m hdr =? 0x00 then if DeviceID m hdr =? 0x100e then [E1000Device hdr] else [] else []
  else [].

Definition config_flags : Z := Z.lor (flag_value Present) (flag_value ReadWrite).

Section Enumeration.
Context {F : Type} `{!FrameAllocator F} (root : Z).

(** Memory, the frame allocator and [SYSTEM->Devices]. *)
Definition state : Type := mem * F * list SystemDevice.

Definition enumerate_function (deviceAddress functionNumber : Z) (s : state) : outcome state :=
  let '(m, fr, devs) := s in
  let functionAddress := deviceAddress +64 wrap64 (Z.shiftl functionNumber 12) in
  '(m, fr) ← map root functionAddress functionAddress config_flags (m, fr);
  if absent m functionAddress then Done (unmap root functionAddress m, fr, devs)
  else Done (m, fr, devs ++ drivers m functionAddress).

(** [for (i = start; i < end; ++i)] *)
Fixpoint for_each (n : nat) (i : Z) (body : Z -> state -> outcome state) (s : state) : outcome state :=
  match n with
  | O => Done s
  | S n => s ← body i s; for_each n (i + 1) body s
  end.

Definition enumerate_device (busAddress deviceNumber : Z) (s : state) : outcome state :=
  let '(m, fr, devs) := s in
  let deviceAddress := busAddress +64 wrap64 (Z.shiftl deviceNumber 15) in
  '(m, fr) ← map root deviceAddress deviceAddress config_flags (m, fr);
  if absent m deviceAddress then Done (unmap root deviceAddress m, fr, devs)
  else for_each 8 0 (enumerate_function deviceAddress) (m, fr, devs).

Definition enumerate_bus (baseAddress busNumber : Z) (s : state) : outcome state :=
  for_each 32 0 (enumerate_device (baseAddress +64 wrap64 (Z.shiftl busNumber 20))) s.

(** The base address is read from memory each time around. *)
Definition enumerate_entry (mcfg t : Z) (s : state) : outcome state :=
  let m := s.1.1 in
  let devCon := mcfg + Acpi.sizeof_MCFGHeader + Acpi.sizeof_DeviceConfig * t in
  for_each (Z.to_nat (Acpi.EndBus m devCon - Acpi.StartBus m devCon)) (Acpi.StartBus m devCon) (fun bus s => enumerate_bus (Acpi.BaseAddress s.1.1 devCon) bus s) s.

(** The count is an [int]. *)
Definition mcfg_entries (m : mem) (mcfg : Z) : Z :=
  let n := wrap32 (wrap64 (Acpi.Length m mcfg - Acpi.sizeof_MCFGHeader) / Acpi.sizeof_DeviceConfig) in
  if n <? 2 ^ 31 then n else n - 2 ^ 32.

Definition enumerate_pci (mcfg : Z) (s : state) : outcome state :=
  for_each (Z.to_nat (mcfg_entries s.1.1 mcfg)) 0 (enumerate_entry mcfg) s.

(** [find_pci_devices], with the address of the string it looks for. *)
Definition find_pci_devices (name : Z) (g : Acpi.acpi) (s : state) : outcome state :=
  let mcfg := Acpi.find_system_table name s.1.1 g in
  if mcfg =? 0 then Done s else enumerate_pci mcfg s.

End Enumeration.

(** ** What is there *)

Definition function_address (base bus dev fn : Z) : Z := base + bus * 2 ^ 20 + dev * 2 ^ 15 + fn * 2 ^ 12.

(** The drivers for the functions of a device, of a bus, and of the buses of a table. *)
Definition of_function (m : mem) (hdr : Z) : list SystemDevice := if absent m hdr then [] else drivers m hdr.
Definition of_device (m : mem) (base bus dev : Z) : list SystemDevice :=
  if absent m (function_address base bus dev 0) then [] else fn ← seqZ 0 8; of_function m (function_address base bus dev fn).
Definition of_bus (m : mem) (base bus : Z) : list SystemDevice := dev ← seqZ 0 32; of_device m base bus dev.
Definition of_entry (m : mem) (mcfg t : Z) : list SystemDevice :=
  let devCon := mcfg + Acpi.sizeof_MCFGHeader + Acpi.sizeof_DeviceConfig * t in
  bus ← seqZ (Acpi.StartBus m devCon) (Acpi.EndBus m devCon - Acpi.StartBus m devCon); of_bus m (Acpi.BaseAddress m devCon) bus.

(** ** The enumeration keeps memory in order *)

Section Proofs.
Context {F : Type} `{!FrameAllocator F} (root : Z) (m0 : mem) (fr0 : F).
Hypothesis root_nonzero : root ≠ 0.

(** A page that is neither free nor a page table, below the end of the address space. *)
Definition data_page (a : Z) : Prop := a mod PAGE_SIZE = 0 /\ 0 <= a < 2 ^ 48 /\ data_frame m0 fr0 root a.

Definition identity_mapped (m : mem) (a : Z) : Prop := exists e, translate m root a = Some e /\ Pde.address e = a.

(** The page map is a tree, data is as it was, and the header of every device found is
    that of a function that is there, mapped to itself. *)
Record inv (m : mem) (fr : F) (devs : list SystemDevice) : Prop := {
  in_frames : fa_inv fr;
  in_tree : tree_wf m fr root;
  in_data : forall f, data_frame m0 fr0 root f -> data_frame m fr root f /\ same_bytes m0 m f;
  in_devs : forall d, d ∈ devs -> data_page (Header d) /\ absent m0 (Header d) = false /\ identity_mapped m (Header d)
}.

Lemma inv_read m fr devs n a f : inv m fr devs -> data_frame m0 fr0 root f -> f <= a -> a + Z.of_nat n <= f + PAGE_SIZE -> read_le n m a = read_le n m0 a.
Proof. intros I Hf H1 H2. destruct (in_data _ _ _ I f Hf) as [_ B]. apply read_le_ext. intros k Hk. apply B. lia. Qed.

Lemma inv_read8 m fr devs a : inv m fr devs -> data_frame m0 fr0 root (a / PAGE_SIZE * PAGE_SIZE) -> read8 m a = read8 m0 a.
Proof. intros I Hf. destruct (in_data _ _ _ I _ Hf) as [_ B]. apply B. unfold PAGE_SIZE. dlia. Qed.

Lemma header_same m fr devs a : inv m fr devs -> data_page a -> absent m a = absent m0 a /\ drivers m a = drivers m0 a.
Proof.
  intros I (Ha & Hr & Hd). assert (Hb : forall k, 0 <= k < PAGE_SIZE -> read8 m (a + k) = read8 m0 (a + k)) by (intros k Hk; destruct (in_data _ _ _ I a Hd) as [_ B]; apply B; lia).
  assert (Ed : DeviceID m a = DeviceID m0 a) by (apply (inv_read m fr devs 2 (a + 2) a I Hd); unfold PAGE_SIZE; lia).
  unfold absent, drivers, Class, Subclass, ProgIF. rewrite Ed, !Hb by (unfold PAGE_SIZE; lia). done.
Qed.

Lemma page_ne a b : a mod PAGE_SIZE = 0 -> b mod PAGE_SIZE = 0 -> a ≠ b -> a / PAGE_SIZE ≠ b / PAGE_SIZE.
Proof. unfold PAGE_SIZE. intros Ha Hb Hne E. apply Hne. dlia. Qed.

Lemma config_present : Pde.flag config_flags Present = true.
Proof. by vm_compute. Qed.

Lemma inv_map m fr devs a : inv m fr devs -> data_page a -> 3 <= fa_avail fr ->
  exists m' fr', map root a a config_flags (m, fr) = Done (m', fr') /\ inv m' fr' devs /\ identity_mapped m' a /\ fa_avail fr - 3 <= fa_avail fr'.
Proof.
  intros I (Ha & Hr & Hd) Hav. destruct (map_progress root a a config_flags m fr (in_frames _ _ _ I)) as (m' & fr' & E & Hi & Hav' & _).
  assert (P : page_mapped m m' fr fr' root a a config_flags) by (eapply map_spec; [apply I|apply I|done|lia|apply Hd|apply config_present|by left|done]).
  destruct (pm_entry _ _ _ _ _ _ _ _ P) as (e & Et & Ee & _). exists m', fr'. split_and!; [done| |by exists e|done]. split; [done|apply P| |].
  - intros f Hf. destruct (in_data _ _ _ I f Hf) as [Hf1 B1]. destruct (pm_data _ _ _ _ _ _ _ _ P f Hf1) as [Hf2 B2]. split; [done|by eapply same_bytes_trans].
  - intros d Hd'. destruct (in_devs _ _ _ I d Hd') as ((Hm & Hrd & Hdd) & Hab & (e' & Et' & Ee')). split_and!; [done|done|].
    destruct (decide (a = Header d)) as [<-|Hne]; [by exists e|]. exists e'. split; [|done]. rewrite <-Et'. eapply translate_other; [done|done|done|by apply page_ne].
Qed.

Lemma inv_unmap m fr devs a : inv m fr devs -> data_page a -> identity_mapped m a -> absent m0 a = true -> inv (unmap root a m) fr devs.
Proof.
  intros I (Ha & Hr & Hd) (e & Et & Ee) Hab. destruct (unmap_spec root a m fr e (in_tree _ _ _ I) ltac:(lia) Et) as (W & _). split; [apply I|done| |].
  - intros f Hf. destruct (in_data _ _ _ I f Hf) as [Hf1 B1]. destruct (unmap_data root a m fr e f (in_tree _ _ _ I) ltac:(lia) Et Hf1) as [Hf2 B2]. split; [done|by eapply same_bytes_trans].
  - intros d Hd'. destruct (in_devs _ _ _ I d Hd') as ((Hm & Hrd & Hdd) & Hab' & (e' & Et' & Ee')). split_and!; [done|done|]. exists e'. split; [|done]. rewrite <-Et'.
    eapply unmap_other; [apply I|exact Et|done|done|]. apply page_ne; [done|done|]. intros ->. congruence.
Qed.

Lemma inv_found m fr devs a : inv m fr devs -> data_page a -> identity_mapped m a -> absent m0 a = false -> inv m fr (devs ++ drivers m0 a).
Proof.
  intros I Hp Hi Hab. split; [apply I..|]. intros d Hd. apply elem_of_app in Hd as [Hd|Hd]; [by apply I|].
  assert (Header d = a) as ->; [|done]. unfold drivers in Hd. repeat case_match; set_solver.
Qed.

(** One step of a loop, and the whole of it, with what it finds and the frames it takes. *)
Definition step_ok (cost : Z) (res : list SystemDevice) (body : state -> outcome state) : Prop := forall m fr devs,
  inv m fr devs -> cost <= fa_avail fr ->
  exists m' fr', body (m, fr, devs) = Done (m', fr', devs ++ res) /\ inv m' fr' (devs ++ res) /\ fa_avail fr - cost <= fa_avail fr'.

Lemma for_each_ok cost res body n i : 0 <= cost -> (forall j, i <= j < i + Z.of_nat n -> step_ok cost (res j) (body j)) ->
  step_ok (Z.of_nat n * cost) (j ← seqZ i (Z.of_nat n); res j) (for_each n i body).
Proof.
  intros Hc. revert i. induction n as [|n IH]; intros i Hb m fr devs I Hav.
  - cbn. exists m, fr. rewrite app_nil_r. split_and!; [done|done|lia].
  - cbn [for_each]. destruct (Hb i ltac:(lia) m fr devs I ltac:(nia)) as (m1 & fr1 & -> & I1 & A1). cbn [mbind outcome_bind].
    destruct (IH (i + 1) ltac:(intros j Hj; apply Hb; lia) m1 fr1 _ I1 ltac:(lia)) as (m2 & fr2 & E2 & I2 & A2). exists m2, fr2.
    rewrite (seqZ_cons i) by lia. replace (Z.pred (Z.of_nat (S n))) with (Z.of_nat n) by lia. cbn [mbind list_bind]. change (Z.succ i) with (i + 1). rewrite app_assoc. split_and!; [done|done|lia].
Qed.

Lemma function_ok dev fn : 0 <= fn < 8 -> data_page (dev + fn * 2 ^ 12) -> 0 <= dev < 2 ^ 48 -> step_ok 3 (of_function m0 (dev + fn * 2 ^ 12)) (enumerate_function root dev fn).
Proof.
  intros Hfn Hp Hdev m fr devs I Hav. unfold enumerate_function. assert (Ea : dev +64 wrap64 (Z.shiftl fn 12) = dev + fn * 2 ^ 12).
  { destruct Hp as (_ & Hr & _). unfold wrap64. rewrite Z.shiftl_mul_pow2, (Z.mod_small (fn * 2 ^ 12)) by lia. apply Z.mod_small. lia. }
  rewrite Ea. set (a := dev + fn * 2 ^ 12) in *. destruct (inv_map m fr devs a I Hp Hav) as (m1 & fr1 & -> & I1 & Im & A1). cbn [mbind outcome_bind].
  destruct (header_same m1 fr1 devs a I1 Hp) as [-> ->]. unfold of_function. destruct (absent m0 a) eqn:Hab.
  - exists (unmap root a m1), fr1. rewrite app_nil_r. split_and!; [done|by apply inv_unmap|done].
  - exists m1, fr1. split_and!; [done|by apply inv_found|done].
Qed.

Definition bus_pages (base bus : Z) : Prop := forall dev fn, 0 <= dev < 32 -> 0 <= fn < 8 -> data_page (function_address base bus dev fn).

Lemma device_ok base bus dev : bus_pages base bus -> 0 <= base -> 0 <= bus -> 0 <= dev < 32 -> step_ok 27 (of_device m0 base bus dev) (enumerate_device root (base + bus * 2 ^ 20) dev).
Proof.
  intros Hb H1 H2 Hdev m fr devs I Hav. unfold enumerate_device. pose proof (Hb dev 0 Hdev ltac:(lia)) as Hp. unfold of_device. set (a := function_address base bus dev 0) in *.
  assert (Ea : (base + bus * 2 ^ 20) +64 wrap64 (Z.shiftl dev 15) = a).
  { destruct Hp as (_ & Hr & _). unfold a, function_address in *. unfold wrap64. rewrite Z.shiftl_mul_pow2, (Z.mod_small (dev * 2 ^ 15)), Z.mod_small by lia. lia. }
  rewrite Ea. destruct (inv_map m fr devs a I Hp ltac:(lia)) as (m1 & fr1 & -> & I1 & Im & A1). cbn [mbind outcome_bind].
  destruct (header_same m1 fr1 devs a I1 Hp) as [-> _]. destruct (absent m0 a) eqn:Hab.
  - exists (unmap root a m1), fr1. rewrite app_nil_r. split_and!; [done|by apply inv_unmap|lia].
  - destruct (for_each_ok 3 (fun fn => of_function m0 (function_address base bus dev fn)) (enumerate_function root a) 8 0) with (m := m1) (fr := fr1) (devs := devs) as (m2 & fr2 & E2 & I2 & A2); [lia| |done|lia|].
    + intros fn Hfn. replace (function_address base bus dev fn) with (a + fn * 2 ^ 12) by (unfold a, function_address; lia). pose proof (Hb dev fn Hdev ltac:(lia)) as Hpf.
      apply function_ok; [lia|unfold a, function_address in *; by replace (base + bus * 2 ^ 20 + dev * 2 ^ 15 + 0 * 2 ^ 12 + fn * 2 ^ 12) with (base + bus * 2 ^ 20 + dev * 2 ^ 15 + fn * 2 ^ 12) by lia|apply Hp].
    + exists m2, fr2. split_and!; [done|done|lia].
Qed.

Lemma bus_ok base bus : bus_pages base bus -> 0 <= base -> 0 <= bus -> step_ok 864 (of_bus m0 base bus) (enumerate_bus root base bus).
Proof.
  intros Hb H1 H2. unfold enumerate_bus, of_bus. pose proof (Hb 0 0 ltac:(lia) ltac:(lia)) as (_ & Hr & _). unfold function_address in Hr.
  assert (Ea : base +64 wrap64 (Z.shiftl bus 20) = base + bus * 2 ^ 20) by (unfold wrap64; rewrite Z.shiftl_mul_pow2, (Z.mod_small (bus * 2 ^ 20)), Z.mod_small by lia; lia).
  rewrite Ea. apply (for_each_ok 27 (of_device m0 base bus) _ 32 0); [lia|]. intros dev Hd. apply device_ok; [done|lia|lia|lia].
Qed.

(** A table whose entries name buses in data pages, at most [K] of them each. *)
Record mcfg_ok (mcfg n K : Z) : Prop := {
  mo_bytes x : mcfg <= x < mcfg + Acpi.sizeof_MCFGHeader + Acpi.sizeof_DeviceConfig * n -> data_frame m0 fr0 root (x / PAGE_SIZE * PAGE_SIZE);
  mo_buses t : 0 <= t < n -> let devCon := mcfg + Acpi.sizeof_MCFGHeader + Acpi.sizeof_DeviceConfig * t in
    Acpi.EndBus m0 devCon - Acpi.StartBus m0 devCon <= K /\
    forall bus, Acpi.StartBus m0 devCon <= bus < Acpi.EndBus m0 devCon -> bus_pages (Acpi.BaseAddress m0 devCon) bus
}.

Lemma entry_ok mcfg n K t : mcfg_ok mcfg n K -> 0 <= K -> 0 <= t < n -> step_ok (K * 864) (of_entry m0 mcfg t) (enumerate_entry root mcfg t).
Proof.
  intros M HK Ht m fr devs I Hav. unfold enumerate_entry, of_entry. cbn [fst]. pose proof (mo_buses _ _ _ M t Ht) as [HK' Hbus]. cbv zeta in *. pose proof (mo_bytes _ _ _ M) as Hbytes.
  set (devCon := mcfg + Acpi.sizeof_MCFGHeader + Acpi.sizeof_DeviceConfig * t) in *. unfold Acpi.sizeof_MCFGHeader, Acpi.sizeof_DeviceConfig in *.
  assert (Hsame : forall m fr devs, inv m fr devs -> Acpi.StartBus m devCon = Acpi.StartBus m0 devCon /\ Acpi.EndBus m devCon = Acpi.EndBus m0 devCon /\ Acpi.BaseAddress m devCon = Acpi.BaseAddress m0 devCon).
  { intros m1 fr1 devs1 I1. unfold Acpi.StartBus, Acpi.EndBus, Acpi.BaseAddress, read64. split_and!; [eapply inv_read8; [done|]; apply Hbytes; lia..|].
    apply read_le_ext. intros k Hk. eapply inv_read8; [done|]. apply Hbytes. lia. }
  destruct (Hsame m fr devs I) as (-> & -> & _). pose proof (Z.mod_pos_bound (m0 (devCon + 10)) 256 ltac:(lia)) as Hs. fold (read8 m0 (devCon + 10)) in Hs. fold (Acpi.StartBus m0 devCon) in Hs.
  set (first := Acpi.StartBus m0 devCon) in *. set (last := Acpi.EndBus m0 devCon) in *.
  destruct (for_each_ok 864 (of_bus m0 (Acpi.BaseAddress m0 devCon)) (fun bus s => enumerate_bus root (Acpi.BaseAddress s.1.1 devCon) bus s) (Z.to_nat (last - first)) first) with (m := m) (fr := fr) (devs := devs) as (m2 & fr2 & E2 & I2 & A2); [lia| |done|lia|].
  - intros bus Hb m1 fr1 devs1 I1 Hav1. destruct (Hsame m1 fr1 devs1 I1) as (_ & _ & Eb). cbn [fst]. rewrite Eb. apply bus_ok; [apply Hbus; lia|apply read_le_range|lia|done|done].
  - exists m2, fr2. replace (seqZ first (last - first)) with (seqZ first (Z.of_nat (Z.to_nat (last - first)))) by (unfold seqZ; f_equal; f_equal; lia). split_and!; [done|done|lia].
Qed.

End Proofs.

(** ** Claim *)

(** C30: [find_pci_devices] finds every function there is: for each bus of each entry of the
    table, but for the last bus it names, and each device whose function 0 is there, a
    system device for every AHCI controller and every E1000 card, in order. Their
    configuration pages are mapped to themselves afterwards, nothing but page tables has
    been written to, and frames for the tables suffice. *)
Theorem pci_devices_are_found {F : Type} `{!FrameAllocator F} root name g m (fr : F) K :
  let mcfg := Acpi.find_system_table name m g in let n := mcfg_entries m mcfg in
  root ≠ 0 -> mcfg ≠ 0 -> fa_inv fr -> tree_wf m fr root -> mcfg_ok root m fr mcfg n K -> 0 <= n -> 0 <= K -> n * (K * 864) <= fa_avail fr ->
  exists m' fr', find_pci_devices root name g (m, fr, []) = Done (m', fr', t ← seqZ 0 n; of_entry m mcfg t) /\ tree_wf m' fr' root /\
    (forall f, data_frame m fr root f -> same_bytes m m' f) /\
    (forall d, d ∈ (t ← seqZ 0 n; of_entry m mcfg t) -> identity_mapped root m' (Header d)).
Proof.
  intros mcfg n Hroot Hm Hinv Hwf M Hn HK Hav. unfold find_pci_devices. cbn [fst]. fold mcfg. rewrite (proj2 (Z.eqb_neq _ _) Hm). unfold enumerate_pci. cbn [fst]. fold n.
  assert (I : inv root m fr m fr []) by (split; [done|done|by intros f Hf|by intros d Hd%elem_of_nil]).
  destruct (for_each_ok root m fr (K * 864) (of_entry m mcfg) (enumerate_entry root mcfg) (Z.to_nat n) 0) with (m := m) (fr := fr) (devs := @nil SystemDevice) as (m2 & fr2 & E2 & I2 & _); [lia| |done|rewrite Z2Nat.id by done; exact Hav|].
  - intros t Ht. apply (entry_ok root m fr Hroot mcfg n K); [done|done|lia].
  - cbn [app] in *. replace (seqZ 0 n) with (seqZ 0 (Z.of_nat (Z.to_nat n))) by (unfold seqZ; f_equal; f_equal; lia). exists m2, fr2. split_and!; [done|apply I2| |].
    + intros f Hf. by apply (in_data _ _ _ _ _ _ I2).
    + intros d Hd. by apply (in_devs _ _ _ _ _ _ I2).
Qed.

(** ** A machine with a network card and a disk controller

    The root of the page map in page 1, the system table in page 2, the MCFG table in
    page 3, and the one bus it names in the second megabyte: a card as device 3, and a
    controller as function 2 of device 31. *)
Definition write_function (a id class subclass progIF : Z) (m : mem) : mem := write8 (write8 (write8 (write_le 2 m (a + 2) id) (a + 9) progIF) (a + 10) subclass) (a + 11) class.

Definition example_config : mem := write_function 0x1fa000 0x2922 1 6 1 (write_function 0x1f8000 0x2918 6 1 0 (write_function 0x118000 0x100e 2 0 0 zero_mem)).

Definition example_memory : mem :=
  write8 (write8 (write_le 8 (write_le 4 (write_le 4 (write_le 8 (write_le 4 (write_le 4 example_config 100 0x4746434d) 8196 44) 8228 12288) 12288 0x4746434d) 12292 60) 12332 0x100000) 12343 1) 12297 0x96.

Definition example_frames : pmm := lock_pages 0 512 (mkPmm (Bits.init 250 0) 1990 1991 0 1990 0).

Lemma example_frames_spec : pmm_wf example_frames /\ forall p, 0 <= p < 512 -> locked example_frames p = true.
Proof.
  destruct (lock_pages_spec 0 512 (mkPmm (Bits.init 250 0) 1990 1991 0 1990 0)) as (W & _ & _ & B); [apply (empty_pmm_wf 250 1990 0); lia|lia|lia|unfold PAGE_SIZE; lia|].
  split; [exact W|]. intros p Hp. change example_frames with (lock_pages (0 * PAGE_SIZE) 512 (mkPmm (Bits.init 250 0) 1990 1991 0 1990 0)). rewrite (B p) by lia. unfold in_run. rewrite (proj2 (Z.leb_le _ _)), !(proj2 (Z.ltb_lt _ _)); [done|change (capacity _) with 2000; lia|lia|lia].
Qed.

Lemma example_root_entry i : 0 <= i < 512 -> entry example_memory PAGE_SIZE i = 0.
Proof.
  apply entry_of_zeroes. unfold PAGE_SIZE. intros x Hx. unfold example_memory, example_config, write_function.
  repeat first [rewrite read8_write8_ne by lia | rewrite write_le_frame by (cbn; lia)]. done.
Qed.

Lemma example_data p : 0 <= p < 512 -> p ≠ 1 -> data_frame example_memory example_frames PAGE_SIZE (p * PAGE_SIZE).
Proof.
  intros Hp Hne. apply empty_data_frame; [apply example_root_entry|split; [unfold PAGE_SIZE; lia|apply Z_mod_mult]| |unfold PAGE_SIZE; lia].
  exists p. split; [lia|split; [reflexivity|apply (proj2 example_frames_spec); lia]].
Qed.

Lemma pci_devices_are_found_witness :
  exists m' fr', find_pci_devices PAGE_SIZE 100 (Acpi.mkAcpi 0 8192) (example_memory, example_frames, []) = Done (m', fr', [E1000Device 0x118000; AHCIController 0x1fa000]) /\
    tree_wf m' fr' PAGE_SIZE /\ identity_mapped PAGE_SIZE m' 0x118000.
Proof.
  assert (Em : Acpi.find_system_table 100 example_memory (Acpi.mkAcpi 0 8192) = 12288) by (by vm_compute).
  pose proof (pci_devices_are_found PAGE_SIZE 100 (Acpi.mkAcpi 0 8192) example_memory example_frames 1) as H. cbv zeta in H. rewrite Em in H. change (mcfg_entries example_memory 12288) with 1 in H.
  assert (Ed : (t ← seqZ 0 1; of_entry example_memory 12288 t) = [E1000Device 0x118000; AHCIController 0x1fa000]) by (by vm_compute). rewrite Ed in H.
  destruct H as (m' & fr' & E & W & _ & Hi); [done|done|apply example_frames_spec| | |lia|lia|by vm_compute|].
  - apply empty_tree_wf; [split; [unfold PAGE_SIZE; lia|done]|exists 1; split; [lia|split; [reflexivity|apply (proj2 example_frames_spec); lia]]|apply example_root_entry].
  - split.
    + intros x Hx. unfold Acpi.sizeof_MCFGHeader, Acpi.sizeof_DeviceConfig in Hx. replace (x / PAGE_SIZE) with 3 by (clear - Hx; unfold PAGE_SIZE; dlia). apply example_data; lia.
    + intros t Ht. assert (t = 0) as -> by lia. cbv zeta. change (12288 + Acpi.sizeof_MCFGHeader + Acpi.sizeof_DeviceConfig * 0) with 12332. change (Acpi.EndBus example_memory 12332) with 1. change (Acpi.StartBus example_memory 12332) with 0.
      change (Acpi.BaseAddress example_memory 12332) with 0x100000. split; [lia|]. intros bus Hb dev fn Hd Hf. assert (bus = 0) as -> by lia. unfold function_address.
      replace (0x100000 + 0 * 2 ^ 20 + dev * 2 ^ 15 + fn * 2 ^ 12) with ((256 + dev * 8 + fn) * PAGE_SIZE) by (unfold PAGE_SIZE; lia). split_and!; [apply Z_mod_mult|unfold PAGE_SIZE; lia|unfold PAGE_SIZE; lia|].
      apply example_data; lia.
  - exists m', fr'. split_and!; [exact E|done|]. apply (Hi (E1000Device 0x118000)). left.
Defined.

End Pci.
