(* ===== verification/E1000.v ===== *)
(** * The network card

    Models src/kernel/src/e1000.h and the driver part of e1000.cpp: access to the
    registers through memory or ports, the EEPROM and the MAC address, the set-up of the
    rings of descriptors, sending a packet, and the interrupt that takes back what has
    been sent. Rings and packets are in memory and their pages come from the frame
    allocator. The constructor, which also enters the handler into the interrupt table,
    is in Interrupts.v. *)

From S2P Require Import Prelude PhysMem Bitmap FrameAlloc Paging PageMap Ports.

Module E1000.

Definition REG_CTRL : Z := 0x0000.
Definition REG_EECD : Z := 0x0010.
Definition REG_EEPROM : Z := 0x0014.
Definition REG_ICR : Z := 0x00c0.
Definition REG_IMASK : Z := 0x00d0.
Definition REG_IMASK_CLEAR : Z := 0x00d8.
Definition REG_RX_CONTROL : Z := 0x0100.
Definition REG_TCTL : Z := 0x0400.
Definition REG_TIPG : Z := 0x0410.
Definition REG_RXDESCLO : Z := 0x2800.
Definition REG_RXDESCHI : Z := 0x2804.
Definition REG_RXDESCLEN : Z := 0x2808.
Definition REG_RXDESCHEAD : Z := 0x2810.
Definition REG_RXDESCTAIL : Z := 0x2818.
Definition REG_TXDESCLO : Z := 0x3800.
Definition REG_TXDESCHI : Z := 0x3804.
Definition REG_TXDESCLEN : Z := 0x3808.
Definition REG_TXDESCHEAD : Z := 0x3810.
Definition REG_TXDESCTAIL : Z := 0x3818.
Definition REG_MTA_BEGIN : Z := 0x5200.
Definition REG_MTA_END : Z := 0x53fc.
Definition REG_RAL_BEGIN : Z := 0x5400.

Definition CTRL_LINK_RESET : Z := Z.shiftl 1 3.
Definition CTRL_SET_LINK_UP : Z := Z.shiftl 1 6.
Definition CTRL_INVERT_LOSS_OF_SIGNAL : Z := Z.shiftl 1 7.
Definition CTRL_VLAN_MODE_ENABLE : Z := Z.shiftl 1 30.
Definition CTRL_PHY_RESET : Z := Z.shiftl 1 31.
Definition EECD_EEPROM_PRESENT : Z := Z.shiftl 1 8.
Definition EERD_START : Z := 1.
Definition EERD_DONE : Z := Z.shiftl 1 4.
Definition EERD_DONE_EXTRA : Z := Z.shiftl 1 1.
Definition EERD_ADDRESS (address : Z) : Z := Z.shiftl address 8.
Definition EERD_ADDRESS_EXTRA (address : Z) : Z := Z.shiftl address 2.
Definition EERD_DATA (eerd : Z) : Z := wrap16 (Z.shiftr eerd 16).

Definition ICR_TX_DESC_WRITTEN_BACK : Z := 1.
Definition ICR_LINK_STATUS_CHANGE : Z := 4.
Definition ICR_RX_OVERRUN : Z := 64.
Definition ICR_RX_TIMER_INTERRUPT : Z := 128.

(** Broadcast, long packets, both promiscuous modes, bad packets, no CRC; the size of the
    buffers, [(0b10 << 16) & (1 << 25)], is zero. *)
Definition RCTL_BUFFER_SIZE_8192 : Z := Z.land (Z.shiftl 2 16) (Z.shiftl 1 25).
Definition rx_control : Z :=
  Z.lor (Z.lor (Z.lor (Z.lor (Z.lor (Z.lor (Z.shiftl 1 15) (Z.shiftl 1 5)) (Z.shiftl 1 3)) (Z.shiftl 1 4)) (Z.shiftl 1 26)) (Z.shiftl 1 2)) RCTL_BUFFER_SIZE_8192.
Definition TCTL_COLLISION_THRESHOLD_DEFAULT : Z := Z.land (Z.shiftl 0x10 4) (Z.shiftl 255 4).
Definition TCTL_COLLISION_DISTANCE_DEFAULT : Z := Z.land (Z.shiftl 0x40 12) (Z.shiftl 1023 12).
Definition tx_control : Z := Z.lor (Z.lor (Z.shiftl 1 3) TCTL_COLLISION_THRESHOLD_DEFAULT) TCTL_COLLISION_DISTANCE_DEFAULT.
Definition TIPG : Z := Z.lor (Z.lor (Z.land 10 1023) (Z.land (Z.shiftl 4 10) (Z.shiftl 1023 10))) (Z.land (Z.shiftl 6 20) (Z.shiftl 1023 20)).


Definition is_82541xx (deviceID : Z) : bool :=
  (deviceID =? 0x1013) || (deviceID =? 0x1018) || (deviceID =? 0x1076) || (deviceID =? 0x1077) || (deviceID =? 0x1078).
Definition is_82547_GI_EI (deviceID : Z) : bool := (deviceID =? 0x101a) || (deviceID =? 0x1019).

Inductive BarType := Memory | IO.

(** [PCI::get_bar_type] *)
Definition get_bar_type (BAR : Z) : BarType := if Z.land BAR 1 =? 0 then Memory else IO.

(** The object, with the fields of the PCI header it uses. *)
Record nic := mkNic {
  VendorID : Z; DeviceID : Z; BAR0 : Z; InterruptLine : Z;
  RXDescCount : Z; RXDescPhysical : Z; TXDescCount : Z; TXDescPhysical : Z;
  BARType : BarType; BARAddress : Z;
  EEPROMExists : bool; RXHead : Z; TXHead : Z; MACAddress : list Z
}.

Definition with_bar (t : BarType) (a : Z) (e : nic) : nic :=
  mkNic (VendorID e) (DeviceID e) (BAR0 e) (InterruptLine e) (RXDescCount e) (RXDescPhysical e) (TXDescCount e) (TXDescPhysical e) t a (EEPROMExists e) (RXHead e) (TXHead e) (MACAddress e).
Definition with_eeprom (b : bool) (e : nic) : nic :=
  mkNic (VendorID e) (DeviceID e) (BAR0 e) (InterruptLine e) (RXDescCount e) (RXDescPhysical e) (TXDescCount e) (TXDescPhysical e) (BARType e) (BARAddress e) b (RXHead e) (TXHead e) (MACAddress e).
Definition with_mac (l : list Z) (e : nic) : nic :=
  mkNic (VendorID e) (DeviceID e) (BAR0 e) (InterruptLine e) (RXDescCount e) (RXDescPhysical e) (TXDescCount e) (TXDescPhysical e) (BARType e) (BARAddress e) (EEPROMExists e) (RXHead e) (TXHead e) l.
Definition with_rx (n a : Z) (e : nic) : nic :=
  mkNic (VendorID e) (DeviceID e) (BAR0 e) (InterruptLine e) n a (TXDescCount e) (TXDescPhysical e) (BARType e) (BARAddress e) (EEPROMExists e) (RXHead e) (TXHead e) (MACAddress e).
Definition with_tx (n a : Z) (e : nic) : nic :=
  mkNic (VendorID e) (DeviceID e) (BAR0 e) (InterruptLine e) (RXDescCount e) (RXDescPhysical e) n a (BARType e) (BARAddress e) (EEPROMExists e) (RXHead e) 0 (MACAddress e).
Definition with_RXHead (h : Z) (e : nic) : nic :=
  mkNic (VendorID e) (DeviceID e) (BAR0 e) (InterruptLine e) (RXDescCount e) (RXDescPhysical e) (TXDescCount e) (TXDescPhysical e) (BARType e) (BARAddress e) (EEPROMExists e) h (TXHead e) (MACAddress e).
Definition with_TXHead (h : Z) (e : nic) : nic :=
  mkNic (VendorID e) (DeviceID e) (BAR0 e) (InterruptLine e) (RXDescCount e) (RXDescPhysical e) (TXDescCount e) (TXDescPhysical e) (BARType e) (BARAddress e) (EEPROMExists e) (RXHead e) h (MACAddress e).

(** [RXDesc] and [TXDesc] are sixteen bytes: address, length, and the status behind. *)
Definition sizeof_desc : Z := 16.
Definition descs_per_page : Z := PAGE_SIZE / sizeof_desc.

(** How many pages so many bytes take. *)
Definition pages_for (length : Z) : Z := if length mod PAGE_SIZE =? 0 then length / PAGE_SIZE else 1 + length / PAGE_SIZE.

Section Driver.
Context {D : Type} `{PortBus D, Mmio D}.

(** The driver, the frame allocator, memory and the hardware. *)
Record sys := mkSys { card : nic; frames : pmm; memory : mem; hw : D }.

Definition write_command (e : nic) (address value : Z) : io D unit :=
  match BARType e with
  | Memory => fun d => (tt, mmio_write32 (BARAddress e +64 address) (wrap32 value) d)
  | IO => _ ← out32 (BARAddress e) address; _ ← io_wait; out32 (BARAddress e + 4) value
  end.

Definition read_command (e : nic) (address : Z) : io D Z :=
  match BARType e with
  | Memory => mmio_read32 (BARAddress e +64 address)
  | IO => _ ← out32 (BARAddress e) address; _ ← io_wait; in32 (BARAddress e + 4)
  end.

(** The vendor is compared where the device is meant. *)
Definition detect_eeprom (e : nic) : io D nic :=
  if (VendorID e =? 0x1107) || (VendorID e =? 0x1112) then mret e
  else v ← read_command e REG_EECD; mret (with_eeprom (negb (Z.land v EECD_EEPROM_PRESENT =? 0)) e).

(** [do out = read_command(REG_EEPROM); while (!(out & successMask));] *)
Fixpoint poll_eeprom (fuel : nat) (e : nic) (successMask : Z) (d : D) : outcome (Z * D) :=
  match fuel with
  | O => Stop Hung
  | S fuel =>
      let '(out, d) := read_command e REG_EEPROM d in
      if Z.land out successMask =? 0 then poll_eeprom fuel e successMask d else Done (out, d)
  end.

Definition read_eeprom (fuel : nat) (e : nic) (address : Z) (d : D) : outcome (Z * D) :=
  let '(calculatedAddress, successMask) :=
    if is_82541xx (DeviceID e) || is_82547_GI_EI (DeviceID e) then (EERD_ADDRESS_EXTRA address, EERD_DONE_EXTRA) else (EERD_ADDRESS address, EERD_DONE) in
  let '(_, d) := write_command e REG_EEPROM (Z.lor EERD_START calculatedAddress) d in
  '(out, d) ← poll_eeprom fuel e successMask d;
  Done (EERD_DATA out, d).

(** The bytes at the receive address register. *)
Fixpoint read_mac (n : nat) (base : Z) (d : D) : list Z * D :=
  match n with
  | O => ([], d)
  | S n => let '(b, d) := mmio_read8 base d in let '(l, d) := read_mac n (base + 1) d in (b :: l, d)
  end.

Definition get_mac_address (fuel : nat) (e : nic) (d : D) : outcome (nic * D) :=
  if EEPROMExists e then
    '(v0, d) ← read_eeprom fuel e 0 d;
    '(v1, d) ← read_eeprom fuel e 1 d;
    '(v2, d) ← read_eeprom fuel e 2 d;
    Done (with_mac [Z.land v0 0xff; Z.shiftr v0 8; Z.land v1 0xff; Z.shiftr v1 8; Z.land v2 0xff; Z.shiftr v2 8] e, d)
  else
    let '(l, d) := read_mac 6 (BARAddress e + REG_RAL_BEGIN) d in Done (with_mac l e, d).

(** Registers in memory are mapped to themselves, 128 KiB of them. *)
Definition decode_base_address (root : Z) (s : sys) : outcome sys :=
  let e := card s in
  match get_bar_type (BAR0 e) with
  | Memory =>
      let a := Z.ldiff (BAR0 e) 3 in
      '(m, fr) ← map_pages root a a (Z.lor (flag_value Present) (flag_value ReadWrite)) (KiB 128 / PAGE_SIZE) (memory s, frames s);
      Done (mkSys (with_bar Memory a e) fr m (hw s))
  | IO => Done (mkSys (with_bar IO (Z.ldiff (BAR0 e) 1) e) (frames s) (memory s) (hw s))
  end.

Definition configure_device (e : nic) : io D unit :=
  control_register ← read_command e REG_CTRL;
  let c := Z.ldiff (Z.ldiff control_register CTRL_LINK_RESET) CTRL_PHY_RESET in
  let c := if is_82541xx (DeviceID e) || is_82547_GI_EI (DeviceID e) then c else Z.ldiff c CTRL_INVERT_LOSS_OF_SIGNAL in
  write_command e REG_CTRL (Z.lor (Z.ldiff c CTRL_VLAN_MODE_ENABLE) CTRL_SET_LINK_UP).

Fixpoint write_mac (l : list Z) (base : Z) (d : D) : D :=
  match l with
  | [] => d
  | b :: l => write_mac l (base + 1) (mmio_write8 base b d)
  end.

(** The multicast table, word by word. *)
Fixpoint clear_mta (n : nat) (i : Z) (e : nic) (d : D) : D :=
  match n with
  | O => d
  | S n => clear_mta n (i + 1) e (write_command e (REG_MTA_BEGIN + i * 4) 0 d).2
  end.

(** A buffer of two pages for every descriptor. *)
Fixpoint fill_rx (n : nat) (i : Z) (ring : Z) (fr : pmm) (m : mem) : outcome (pmm * mem) :=
  match n with
  | O => Done (fr, m)
  | S n =>
      '(a, fr) ← request_pages (KiB 8 / PAGE_SIZE) fr;
      let m := write_le 8 m (ring + i * sizeof_desc) a in
      fill_rx n (i + 1) ring fr (write_le 1 m (ring + i * sizeof_desc + 12) 0)
  end.

Definition initialise_rx (s : sys) : outcome sys :=
  let e := card s in
  let d := write_mac (take 6 (MACAddress e)) (BARAddress e + REG_RAL_BEGIN) (hw s) in
  let d := clear_mta (Z.to_nat ((REG_MTA_END - REG_MTA_BEGIN) / 4 + 1)) 0 e d in
  '(ring, fr) ← request_pages 1 (frames s);
  let e := with_rx descs_per_page ring e in
  let d := (write_command e REG_RXDESCLO (Z.land ring 0xffffffff) d).2 in
  let d := (write_command e REG_RXDESCHI (Z.shiftr ring 32) d).2 in
  let d := (write_command e REG_RXDESCLEN (RXDescCount e * sizeof_desc) d).2 in
  let d := (write_command e REG_RXDESCHEAD 0 d).2 in
  let d := (write_command e REG_RXDESCTAIL (RXDescCount e) d).2 in
  '(fr, m) ← fill_rx (Z.to_nat (RXDescCount e)) 0 ring fr (memory s);
  Done (mkSys e fr m (write_command e REG_RX_CONTROL rx_control d).2).

Definition initialise_tx (s : sys) : outcome sys :=
  '(ring, fr) ← request_pages 1 (frames s);
  let e := with_tx descs_per_page ring (card s) in
  let d := (write_command e REG_TXDESCLO (Z.land ring 0xffffffff) (hw s)).2 in
  let d := (write_command e REG_TXDESCHI (Z.shiftr ring 32) d).2 in
  let d := (write_command e REG_TXDESCLEN (TXDescCount e * sizeof_desc) d).2 in
  let d := (write_command e REG_TXDESCHEAD 0 d).2 in
  let d := (write_command e REG_TXDESCTAIL 0 d).2 in
  let d := (write_command e REG_TCTL tx_control d).2 in
  Done (mkSys e fr (memory s) (write_command e REG_TIPG TIPG d).2).


(** A descriptor that has been sent is reset and its pages are given back. *)
Definition reset_desc (desc : Z) (fr : pmm) (m : mem) : pmm * mem :=
  let length := read_le 2 m (desc + 8) in
  let fr := free_pages (read_le 8 m desc) (pages_for length) fr in
  let m := write_le 8 m desc 0 in
  let m := write_le 1 m (desc + 11) 0 in
  let m := write_le 2 m (desc + 8) 0 in
  (fr, write_le 1 m (desc + 12) 0).

(** [for (; TXHead < head; ++TXHead)] *)
Fixpoint reclaim (fuel : nat) (head : Z) (e : nic) (fr : pmm) (m : mem) : outcome (nic * pmm * mem) :=
  if TXHead e <? head then
    match fuel with
    | O => Stop Hung
    | S fuel =>
        let t := if TXDescCount e <=? TXHead e then 0 else TXHead e in
        let '(fr, m) := reset_desc (TXDescPhysical e + t * sizeof_desc) fr m in
        reclaim fuel head (with_TXHead (wrap32 (t + 1)) e) fr m
    end
  else Done (e, fr, m).

(** The loop over received descriptors: what they hold is printed only. *)
Fixpoint receive (fuel : nat) (head : Z) (e : nic) (m : mem) : outcome (nic * mem) :=
  if RXHead e <? head then
    match fuel with
    | O => Stop Hung
    | S fuel =>
        let t := if RXDescCount e <=? RXHead e then 0 else RXHead e in
        let desc := RXDescPhysical e + t * sizeof_desc in
        let m := write_le 1 m (desc + 12) 0 in
        receive fuel head (with_RXHead (wrap32 (t + 1)) e) (write_le 1 m (desc + 13) 0)
    end
  else Done (e, m).

Definition handle_interrupt (fuel : nat) (s : sys) : outcome sys :=
  let e := card s in
  let '(status, d) := read_command e REG_ICR (hw s) in
  '(e, fr, m, d) ←
    (if negb (Z.land status ICR_TX_DESC_WRITTEN_BACK =? 0) then
       let '(head, d) := read_command e REG_TXDESCHEAD d in
       '(e, fr, m) ← reclaim fuel head e (frames s) (memory s); Done (e, fr, m, d)
     else Done (e, frames s, memory s, d));
  '(e, m, d) ←
    (if negb (Z.land status ICR_RX_OVERRUN =? 0) || negb (Z.land status ICR_RX_TIMER_INTERRUPT =? 0) then
       let '(head, d) := read_command e REG_RXDESCHEAD d in
       '(e, m) ← receive fuel head e m; Done (e, m, d)
     else Done (e, m, d));
  let d :=
    if negb (Z.land status ICR_LINK_STATUS_CHANGE =? 0) then
      let '(ctrl, d) := read_command e REG_CTRL d in (write_command e REG_CTRL (Z.lor ctrl CTRL_SET_LINK_UP) d).2
    else d in
  Done (mkSys e fr m (read_command e REG_ICR d).2).

Definition irq_number (e : nic) : Z := InterruptLine e.
Definition interrupt_line (e : nic) : Z := 0x20 + InterruptLine e.

End Driver.

(** ** The registers

    A card whose registers are at [bar]: a read gives what the register holds, and clears
    the interrupt cause register; a write to the registers of the transmit ring is kept. *)
Definition ring_registers : list Z := [REG_TXDESCLO; REG_TXDESCHI; REG_TXDESCLEN; REG_TXDESCHEAD; REG_TXDESCTAIL; REG_TCTL; REG_TIPG].


Class NicRegs (bar : Z) (D : Type) `{Mmio D} := {
  nreg : D -> Z -> Z;
  nreg_u32 d a : 0 <= nreg d a < 2 ^ 32;
  nread a d : a = REG_TXDESCTAIL \/ a = REG_TXDESCLEN \/ a = REG_TXDESCHEAD -> mmio_read32 (bar +64 a) d = (nreg d a, d);
  nread_icr d : exists d', mmio_read32 (bar +64 REG_ICR) d = (nreg d REG_ICR, d') /\ nreg d' REG_ICR = 0 /\ forall a, a ≠ REG_ICR -> nreg d' a = nreg d a;
  nwrite r v d a : r ∈ ring_registers -> 0 <= v < 2 ^ 32 -> nreg (mmio_write32 (bar +64 r) v d) a = if a =? r then v else nreg d a
}.

(** ** Descriptors *)

(** The fields of a transmit descriptor. *)
Record tx_fields := mkTx { t_address : Z; t_length : Z; t_command : Z; t_status : Z }.
Definition tx_at (m : mem) (desc : Z) : tx_fields := mkTx (read_le 8 m desc) (read_le 2 m (desc + 8)) (read_le 1 m (desc + 11)) (read_le 1 m (desc + 12)).

Lemma tx_at_ext m1 m2 desc : (forall z, desc <= z < desc + 16 -> read8 m1 z = read8 m2 z) -> tx_at m1 desc = tx_at m2 desc.
Proof. intros E. unfold tx_at. f_equal; apply read_le_ext; intros k Hk; apply E; lia. Qed.


(** Resetting a descriptor frees its run of pages, and touches no other descriptor. *)
Record run_locked (fr : pmm) (a n : Z) : Prop := {
  rl_aligned : a mod PAGE_SIZE = 0;
  rl_nonneg : 0 <= a;
  rl_top : a + n * PAGE_SIZE < 2 ^ 64;
  rl_count : 0 <= n;
  rl_locked q : a / PAGE_SIZE <= q < a / PAGE_SIZE + n -> locked fr q = true
}.

Lemma free_run a n fr : pmm_wf fr -> run_locked fr a n ->
  pmm_wf (free_pages a n fr) /\ (forall q, 0 <= q -> locked (free_pages a n fr) q = locked fr q && negb (in_run (a / PAGE_SIZE) n q)).
Proof.
  intros W [Ha H0 Ht Hn Hl]. assert (Ea : a = a / PAGE_SIZE * PAGE_SIZE) by (unfold PAGE_SIZE in *; dlia). set (p := a / PAGE_SIZE) in *.
  assert (Hp : 0 <= p) by (unfold p, PAGE_SIZE; dlia). unfold free_pages. rewrite Ea.
  destruct (free_pages_loop p (Z.to_nat n) 0 fr W Hp ltac:(lia)) as (W' & _ & B).
  - rewrite Z2Nat.id by lia. unfold PAGE_SIZE in *. lia.
  - intros q Hq. apply Hl. lia.
  - split; [done|]. intros q Hq. rewrite B by done. rewrite Z2Nat.id, Z.add_0_r by lia. unfold in_run. destruct (Z.leb_spec p q), (Z.ltb_spec q (p + n)); cbn [andb negb]; rewrite ?andb_true_r; try done.
    rewrite andb_false_r. destruct (q <? capacity fr) eqn:Ec; [done|]. specialize (Hl q ltac:(lia)). apply locked_in_range in Hl. apply Z.ltb_ge in Ec. lia.
Qed.

Lemma reset_desc_spec desc fr m : pmm_wf fr -> run_locked fr (t_address (tx_at m desc)) (pages_for (t_length (tx_at m desc))) ->
  let '(fr', m') := reset_desc desc fr m in
  pmm_wf fr' /\ tx_at m' desc = mkTx 0 0 0 0 /\ (forall z, z < desc \/ desc + 16 <= z -> read8 m' z = read8 m z) /\
  (forall q, 0 <= q -> locked fr' q = locked fr q && negb (in_run (t_address (tx_at m desc) / PAGE_SIZE) (pages_for (t_length (tx_at m desc))) q)).
Proof.
  intros W R. unfold reset_desc. destruct (free_run _ _ fr W R) as [W' Hl]. cbn [t_address t_length tx_at] in *. split_and!; [done| | |done].
  - unfold tx_at. repeat first [rewrite read_write_le | rewrite read_write_other by lia]. done.
  - intros z Hz. by rewrite !write_le_frame by (cbn; lia).
Qed.

(** ** Taking back *)

(** The pages of the descriptors from [h] up to [head]. *)
Definition desc_run (e : nic) (m : mem) (t : Z) : Z * Z :=
  let f := tx_at m (TXDescPhysical e + t * sizeof_desc) in (t_address f, pages_for (t_length f)).

Definition in_desc (e : nic) (m : mem) (t q : Z) : bool := in_run ((desc_run e m t).1 / PAGE_SIZE) (desc_run e m t).2 q.

(** The descriptors from [h] to [head] have pages of their own, outside the ring. *)
Record sent_run (e : nic) (fr : pmm) (m : mem) (h head : Z) : Prop := {
  sr_range : 0 <= h <= head /\ head <= TXDescCount e < 2 ^ 32;
  sr_locked t : h <= t < head -> run_locked fr (desc_run e m t).1 (desc_run e m t).2;
  sr_apart t u q : h <= t < head -> h <= u < head -> t ≠ u -> in_desc e m t q = true -> in_desc e m u q = false
}.

Lemma reclaim_spec fuel head e fr m : pmm_wf fr -> sent_run e fr m (TXHead e) head -> (Z.to_nat (head - TXHead e) <= fuel)%nat ->
  exists fr' m', reclaim fuel head e fr m = Done (with_TXHead head e, fr', m') /\ pmm_wf fr' /\
    (forall q, 0 <= q -> locked fr' q = locked fr q && negb (existsb (fun t => in_desc e m t q) (seqZ (TXHead e) (head - TXHead e)))) /\
    (forall t, TXHead e <= t < head -> tx_at m' (TXDescPhysical e + t * sizeof_desc) = mkTx 0 0 0 0) /\
    (forall z, z < TXDescPhysical e + TXHead e * sizeof_desc \/ TXDescPhysical e + head * sizeof_desc <= z -> read8 m' z = read8 m z).
Proof.
  unfold sizeof_desc. revert e fr m. induction fuel as [|fuel IH]; intros e fr m W S Hf; pose proof (sr_range _ _ _ _ _ S) as [Hr Hc]; cbn [reclaim].
  - rewrite (proj2 (Z.ltb_ge _ _)) by lia. assert (head = TXHead e) as -> by lia. exists fr, m. rewrite Z.sub_diag. split_and!; [by destruct e|done| |lia|done]. intros q Hq. cbn. by rewrite andb_true_r.
  - destruct (Z.ltb_spec (TXHead e) head) as [Hlt|Hge].
    2: { assert (head = TXHead e) as -> by lia. exists fr, m. rewrite Z.sub_diag. split_and!; [by destruct e|done| |lia|done]. intros q Hq. cbn. by rewrite andb_true_r. }
    rewrite (proj2 (Z.leb_gt _ _)) by lia. unfold sizeof_desc. set (desc := TXDescPhysical e + TXHead e * 16).
    pose proof (reset_desc_spec desc fr m W (sr_locked _ _ _ _ _ S (TXHead e) ltac:(lia))) as Hreset. destruct (reset_desc desc fr m) as [fr1 m1]. destruct Hreset as (W1 & Hz & Hfr & Hl1).
    unfold wrap32. rewrite Z.mod_small by lia. set (e1 := with_TXHead (TXHead e + 1) e).
    assert (Hsame : forall t, TXHead e < t -> desc_run e1 m1 t = desc_run e m t).
    { intros t Ht. unfold desc_run. cbn [TXDescPhysical e1 with_TXHead]. rewrite (tx_at_ext m1 m); [done|]. intros z Hzz. apply Hfr. unfold desc, sizeof_desc in *. lia. }
    assert (Hin : forall t q, TXHead e < t -> in_desc e1 m1 t q = in_desc e m t q) by (intros t q Ht; unfold in_desc; by rewrite Hsame).
    destruct (IH e1 fr1 m1 W1) as (fr2 & m2 & E & W2 & Hl2 & Hz2 & Hfr2).
    { split; cbn [TXHead TXDescCount e1 with_TXHead]; [lia| |].
      - intros t Ht. rewrite Hsame by lia. destruct (sr_locked _ _ _ _ _ S t ltac:(lia)) as [R1 R2 R3 R4 R5]. split; try done. intros q Hq.
        assert (0 <= q) by (pose proof (Z.div_pos _ PAGE_SIZE R2 ltac:(done)); lia). rewrite Hl1 by done. rewrite R5 by done. apply negb_true_iff.
        fold (desc_run e m (TXHead e)). apply (sr_apart _ _ _ _ _ S t (TXHead e) q); [lia|lia|lia|]. unfold in_desc, in_run. apply andb_true_iff. rewrite Z.leb_le, Z.ltb_lt. lia.
      - intros t u q Ht Hu Hne. rewrite !Hin by lia. apply (sr_apart _ _ _ _ _ S); lia. }
    { cbn [TXHead e1 with_TXHead]. lia. }
    cbn [TXHead TXDescPhysical e1 with_TXHead] in *. exists fr2, m2. split_and!.
    + rewrite E. done.
    + done.
    + intros q Hq. rewrite Hl2, Hl1 by done. rewrite <- andb_assoc, <- negb_orb. f_equal. f_equal.
      rewrite (seqZ_cons (TXHead e)) by lia. cbn [existsb]. f_equal. replace (head - (TXHead e + 1)) with (Z.pred (head - TXHead e)) by lia. replace (Z.succ (TXHead e)) with (TXHead e + 1) by lia.
      clear - Hin. assert (Hge : forall t, t ∈ seqZ (TXHead e + 1) (Z.pred (head - TXHead e)) -> TXHead e < t) by (intros t Ht%elem_of_seqZ; lia).
      induction (seqZ (TXHead e + 1) (Z.pred (head - TXHead e))) as [|t l IHl]; [done|]. cbn. rewrite Hin by (apply Hge; by left). f_equal. apply IHl. intros u Hu. apply Hge. by right.
    + intros t Ht. destruct (Z.eq_dec t (TXHead e)) as [->|Hne]; [|apply Hz2; lia]. rewrite (tx_at_ext m2 m1); [done|]. intros z Hzz. apply Hfr2. unfold desc in *. lia.
    + intros z Hzz. rewrite Hfr2, Hfr by (unfold desc; lia). done.
Qed.

(** ** Sending *)

Section Sending.
Context (bar : Z) {D : Type} `{PortBus D, Mmio D, !NicRegs bar D}.

Record card_ready (e : nic) : Prop := {
  cr_bar : BARType e = Memory /\ BARAddress e = bar;
  cr_ring : 0 <= TXDescPhysical e /\ TXDescPhysical e + PAGE_SIZE <= 2 ^ 52;
  cr_count : TXDescCount e = descs_per_page
}.


Lemma read_tail e d : card_ready e -> read_command e REG_TXDESCTAIL d = (nreg d REG_TXDESCTAIL, d) /\ read_command e REG_TXDESCLEN d = (nreg d REG_TXDESCLEN, d) /\
  read_command e REG_TXDESCHEAD d = (nreg d REG_TXDESCHEAD, d).
Proof. intros [[H1 H2] _ _]. unfold read_command. rewrite H1, H2, !nread by auto. done. Qed.


Lemma write_register e r v d a : BARType e = Memory -> BARAddress e = bar -> r ∈ ring_registers -> 0 <= v < 2 ^ 32 ->
  nreg (write_command e r v d).2 a = if a =? r then v else nreg d a.
Proof. intros Ht Hb Hr Hv. unfold write_command. rewrite Ht, Hb. cbn [snd]. unfold wrap32. rewrite Z.mod_small by done. by apply nwrite. Qed.

(** [initialise_tx] leaves the card as [write_raw] needs it: an empty ring in a page of its
    own. *)
Lemma initialise_tx_ready s ring fr : BARType (card s) = Memory -> BARAddress (card s) = bar -> pmm_wf (frames s) -> request_pages 1 (frames s) = Done (ring, fr) -> ring ≠ 0 ->
  exists s', initialise_tx s = Done s' /\ card_ready (card s') /\ frames s' = fr /\ memory s' = memory s /\ TXDescPhysical (card s') = ring /\ TXHead (card s') = 0 /\
    nreg (hw s') REG_TXDESCTAIL = 0 /\ nreg (hw s') REG_TXDESCHEAD = 0 /\ nreg (hw s') REG_TXDESCLEN = PAGE_SIZE /\
    nreg (hw s') REG_TXDESCLO + 2 ^ 32 * nreg (hw s') REG_TXDESCHI = ring.
Proof.
  intros Ht Hb W E Hne. pose proof (request_pages_run 1 _ _ _ W ltac:(lia) E Hne) as G. pose proof (rg_nonneg _ _ _ _ G) as Hrn. pose proof (rg_top _ _ _ _ G) as Htop. unfold PAGE_SIZE in Htop.
  unfold initialise_tx. rewrite E. cbn [mbind outcome_bind]. eexists. split; [reflexivity|]. cbn [card frames memory hw with_tx TXDescPhysical TXHead TXDescCount].
  change 0xffffffff with (Z.ones 32). rewrite Z.land_ones, Z.shiftr_div_pow2 by lia. change (descs_per_page * sizeof_desc) with 4096.
  assert (Hw : forall r v d a, r ∈ ring_registers -> 0 <= v < 2 ^ 32 -> nreg (write_command (with_tx descs_per_page ring (card s)) r v d).2 a = if a =? r then v else nreg d a)
    by (intros r v d a; by apply write_register).
  assert (Hlow : 0 <= ring mod 2 ^ 32 < 2 ^ 32) by (apply Z.mod_pos_bound; lia). assert (Hhigh : 0 <= ring / 2 ^ 32 < 2 ^ 32) by dlia.
  assert (Hc : 0 <= tx_control < 2 ^ 32) by (vm_compute; split; [intros [=]|reflexivity]). assert (Hi : 0 <= TIPG < 2 ^ 32) by (vm_compute; split; [intros [=]|reflexivity]).
  rewrite !Hw by (assumption || lia || (unfold ring_registers; repeat first [left | right])).
  unfold REG_TXDESCTAIL, REG_TXDESCHEAD, REG_TXDESCLEN, REG_TXDESCLO, REG_TXDESCHI, REG_TCTL, REG_TIPG. cbn [Z.eqb Pos.eqb].
  split_and!; try done. rewrite Z.add_comm. symmetry. apply Z.div_mod. lia.
Qed.

(** An interrupt that says descriptors were written back, and nothing else. *)
Lemma interrupt_reclaims fuel s : card_ready (card s) -> nreg (hw s) REG_ICR = ICR_TX_DESC_WRITTEN_BACK ->
  exists d, handle_interrupt fuel s = ('(e, fr, m) ← reclaim fuel (nreg (hw s) REG_TXDESCHEAD) (card s) (frames s) (memory s); Done (mkSys e fr m (read_command e REG_ICR d).2)).
Proof.
  intros C Hi. unfold handle_interrupt. destruct (nread_icr (hw s)) as (d & E & _ & Hd). assert (Er : read_command (card s) REG_ICR (hw s) = (nreg (hw s) REG_ICR, d)).
  { unfold read_command. destruct C as [[-> ->] _ _]. exact E. }
  rewrite Er, Hi. unfold ICR_TX_DESC_WRITTEN_BACK, ICR_RX_OVERRUN, ICR_RX_TIMER_INTERRUPT, ICR_LINK_STATUS_CHANGE. change (Z.land 1 1 =? 0) with false. change (Z.land 1 64 =? 0) with true. change (Z.land 1 128 =? 0) with true.
  change (Z.land 1 4 =? 0) with true. cbn [negb orb]. destruct (read_tail (card s) d C) as (_ & _ & ->). rewrite Hd by done. exists d.
  destruct (reclaim _ _ _ _ _) as [[[e fr] m]|]; done.
Qed.

End Sending.

(** ** Claims *)


(** Once the ring has wrapped around, nothing is taken back: the card's head is below
    the driver's, the loop ends at once, and the pages of the descriptors in between
    stay allocated. *)
Theorem wrapped_ring_is_not_reclaimed bar D `{PortBus D, Mmio D, !NicRegs bar D} fuel (s : sys) :
  card_ready bar (card s) -> nreg (hw s) REG_ICR = ICR_TX_DESC_WRITTEN_BACK -> nreg (hw s) REG_TXDESCHEAD < TXHead (card s) ->
  exists d, handle_interrupt fuel s = Done (mkSys (card s) (frames s) (memory s) d).
Proof.
  intros C Hi Hlt. destruct (interrupt_reclaims bar fuel s C Hi) as (d & ->).
  assert (Er : forall f, reclaim f (nreg (hw s) REG_TXDESCHEAD) (card s) (frames s) (memory s) = Done (card s, frames s, memory s)).
  { intros f. destruct f; cbn [reclaim]; by rewrite (proj2 (Z.ltb_ge _ _)) by lia. }
  rewrite Er. cbn [mbind outcome_bind]. by eexists.
Qed.

(** A packet of more than 16288 bytes is described as one of 65535: when it is taken back
    sixteen pages are freed, whoever has those behind its own. *)
Theorem oversized_packet_frees_other_pages e fr m a n :
  pmm_wf fr -> 0 <= n < 16 -> t_address (tx_at m (TXDescPhysical e + TXHead e * sizeof_desc)) = a -> t_length (tx_at m (TXDescPhysical e + TXHead e * sizeof_desc)) = 65535 ->
  run_locked fr a 16 -> 0 <= TXHead e < TXDescCount e -> TXDescCount e < 2 ^ 32 ->
  exists fr' m', reclaim 1 (TXHead e + 1) e fr m = Done (with_TXHead (TXHead e + 1) e, fr', m') /\
    (forall q, a / PAGE_SIZE + n <= q < a / PAGE_SIZE + 16 -> 0 <= q -> locked fr q = true /\ locked fr' q = false).
Proof.
  intros W Hn Ea El R Hh Hc. assert (Hrun : desc_run e m (TXHead e) = (a, 16)) by (unfold desc_run; cbv zeta; by rewrite Ea, El).
  destruct (reclaim_spec 1 (TXHead e + 1) e fr m W) as (fr' & m' & E & _ & Hl & _).
  - split; [lia| |intros t u q; lia]. intros t Ht. assert (t = TXHead e) as -> by lia. by rewrite Hrun.
  - lia.
  - exists fr', m'. split; [exact E|]. intros q Hq H0. assert (Hl0 : locked fr q = true) by (apply (rl_locked _ _ _ R); lia). split; [done|].
    rewrite Hl, Hl0 by done. replace (TXHead e + 1 - TXHead e) with 1 by lia. change (seqZ (TXHead e) 1) with [TXHead e]. cbn [existsb]. rewrite orb_false_r. unfold in_desc, in_run. rewrite Hrun. cbn [fst snd].
    by rewrite (proj2 (Z.leb_le _ _)), (proj2 (Z.ltb_lt _ _)) by lia.
Qed.

(** *** The EEPROM

    A card that answers a read of its EEPROM after some polls, with bit 4 set and the word
    in the upper half. *)
Class Eeprom (e : nic) (D : Type) `{PortBus D, Mmio D} := {
  word : D -> Z -> Z;
  asked : D -> option Z;
  latency : D -> nat;
  word_u16 d a : 0 <= word d a < 2 ^ 16;
  ee_start a d : 0 <= a < 256 -> let d' := (write_command e REG_EEPROM (Z.lor EERD_START (EERD_ADDRESS a)) d).2 in asked d' = Some a /\ word d' = word d /\ (latency d' < 1000)%nat;
  ee_poll a d : asked d = Some a -> let '(v, d') := read_command e REG_EEPROM d in
    word d' = word d /\ ((Z.land v EERD_DONE ≠ 0 /\ Z.shiftr v 16 = word d a) \/ (Z.land v EERD_DONE = 0 /\ asked d' = Some a /\ (latency d' < latency d)%nat))
}.

Section Reading.
Context (e : nic) {D : Type} `{Eeprom e D}.

Lemma poll_spec fuel a d : asked d = Some a -> (latency d < fuel)%nat -> exists v d', poll_eeprom fuel e EERD_DONE d = Done (v, d') /\ EERD_DATA v = word d a /\ word d' = word d.
Proof.
  revert d. induction fuel as [|fuel IH]; intros d Ha Hf; [lia|]. cbn [poll_eeprom]. pose proof (ee_poll a d Ha) as Hp. destruct (read_command e REG_EEPROM d) as [v d1].
  destruct Hp as [Hw [[Hd Hv]|(Hd & Ha1 & Hl)]].
  - rewrite (proj2 (Z.eqb_neq _ _) Hd). exists v, d1. split_and!; [done| |done]. unfold EERD_DATA, wrap16. rewrite Hv. apply Z.mod_small, word_u16.
  - rewrite Hd. change (0 =? 0) with true. cbn iota. destruct (IH d1 Ha1 ltac:(lia)) as (v' & d' & E & Ev & Ew). exists v', d'. split_and!; [done|by rewrite Ev, Hw|by rewrite Ew, Hw].
Qed.

Lemma read_eeprom_spec fuel a d : is_82541xx (DeviceID e) || is_82547_GI_EI (DeviceID e) = false -> 0 <= a < 256 -> (1000 <= fuel)%nat ->
  exists d', read_eeprom fuel e a d = Done (word d a, d') /\ word d' = word d.
Proof.
  intros Hid Ha Hf. unfold read_eeprom. rewrite Hid. pose proof (ee_start a d Ha) as (Hs & Hw & Hl). cbv zeta in *. destruct (write_command e REG_EEPROM _ d) as [[] d1]. cbn [snd] in *.
  destruct (poll_spec fuel a d1 Hs ltac:(lia)) as (v & d2 & -> & Ev & Ew). cbn [mbind outcome_bind]. exists d2. rewrite Ev, Ew, Hw. done.
Qed.

End Reading.

(** The MAC address is the first three words of the EEPROM, the low byte of each first;
    it is read in a bounded number of polls. *)
Theorem mac_address_is_that_of_the_eeprom e D `{Eeprom e D} fuel (d : D) :
  EEPROMExists e = true -> is_82541xx (DeviceID e) || is_82547_GI_EI (DeviceID e) = false -> (1000 <= fuel)%nat ->
  exists d', get_mac_address fuel e d = Done (with_mac ((fun i => word d (i / 2) / 256 ^ (i mod 2) mod 256) <$> [0; 1; 2; 3; 4; 5]) e, d').
Proof.
  intros He Hid Hf. unfold get_mac_address. rewrite He. destruct (read_eeprom_spec e fuel 0 d Hid ltac:(lia) Hf) as (d1 & -> & W1). cbn [mbind outcome_bind].
  destruct (read_eeprom_spec e fuel 1 d1 Hid ltac:(lia) Hf) as (d2 & -> & W2). cbn [mbind outcome_bind]. destruct (read_eeprom_spec e fuel 2 d2 Hid ltac:(lia) Hf) as (d3 & -> & W3). cbn [mbind outcome_bind].
  exists d3. rewrite W2, W1. do 3 f_equal. change 0xff with (Z.ones 8). rewrite !Z.land_ones, !Z.shiftr_div_pow2 by lia.
  assert (Hb : forall a, word d a / 2 ^ 8 mod 256 = word d a / 2 ^ 8) by (intros a; apply Z.mod_small; pose proof (word_u16 d a); dlia).
  cbn [fmap list_fmap]. change (0 / 2) with 0. change (1 / 2) with 0. change (2 / 2) with 1. change (3 / 2) with 1. change (4 / 2) with 2. change (5 / 2) with 2.
  change (256 ^ (0 mod 2)) with 1. change (256 ^ (1 mod 2)) with (2 ^ 8). change (256 ^ (2 mod 2)) with 1. change (256 ^ (3 mod 2)) with (2 ^ 8). change (256 ^ (4 mod 2)) with 1. change (256 ^ (5 mod 2)) with (2 ^ 8).
  rewrite !Hb, !Z.div_1_r. done.
Qed.

(** ** The claims at work *)

(** A card in memory: its registers, the words of its EEPROM and the one asked for. *)
Record model := mkModel { regs : Z -> Z; rom : Z -> Z; wanted : option Z }.

Definition model_bar : Z := 0xf0000000.

#[export] Instance model_ports : PortBus model := { bus_read _ _ d := (0, d); bus_write _ _ _ d := d }.

#[export] Instance model_mmio : Mmio model := {
  mmio_read32 a d :=
    if a =? model_bar + REG_ICR then (regs d a mod 2 ^ 32, mkModel (fun b => if b =? a then 0 else regs d b) (rom d) (wanted d))
    else if a =? model_bar + REG_EEPROM then (match wanted d with Some w => Z.lor (Z.shiftl (rom d w mod 2 ^ 16) 16) 16 | None => 0 end, d)
    else (regs d a mod 2 ^ 32, d);
  mmio_write32 a v d := mkModel (fun b => if b =? a then v else regs d b) (rom d) (if a =? model_bar + REG_EEPROM then Some (Z.land (Z.shiftr v 8) 255) else wanted d);
  mmio_read8 a d := (regs d a mod 256, d);
  mmio_write8 a v d := mkModel (fun b => if b =? a then v else regs d b) (rom d) (wanted d)
}.

#[export, refine] Instance model_regs : NicRegs model_bar model := { nreg d a := regs d (model_bar + a) mod 2 ^ 32 }.
Proof.
  - intros d a. apply Z.mod_pos_bound. lia.
  - intros a d Ha. destruct Ha as [Ha|Ha]; [by subst a|]. destruct Ha as [Ha|Ha]; by subst a.
  - intros d. eexists. split; [reflexivity|]. split; [done|]. intros a Ha. cbn [regs]. change (wrap64 (model_bar + REG_ICR)) with (model_bar + REG_ICR). rewrite (proj2 (Z.eqb_neq _ _)) by lia. done.
  - intros r v d a Hr Hv. cbn [regs mmio_write32 model_mmio]. assert (E : wrap64 (model_bar + r) = model_bar + r) by (unfold ring_registers in Hr; set_unfold; destruct_or!; by subst r). rewrite E.
    destruct (Z.eqb_spec a r) as [->|Ha]; [rewrite Z.eqb_refl; by apply Z.mod_small|]. rewrite (proj2 (Z.eqb_neq _ _)) by lia. done.
Defined.

(** A card with its ring in the first page, and the first three pages in use. *)
Definition example_card : nic := mkNic 0x8086 0x100e 0xf0000000 11 0 0 256 0 Memory model_bar true 0 5 [].

#[export, refine] Instance model_eeprom : Eeprom example_card model := { word d a := rom d a mod 2 ^ 16; asked := wanted; latency _ := 0%nat }.
Proof.
  - intros d a. apply Z.mod_pos_bound. lia.
  - intros a d Hb. cbv zeta. unfold write_command. cbn [BARType BARAddress example_card]. change (model_bar +64 REG_EEPROM) with (model_bar + REG_EEPROM). cbn [snd mmio_write32 model_mmio]. rewrite Z.eqb_refl. cbn [wanted rom].
    split_and!; [|done|lia]. f_equal. unfold EERD_START, EERD_ADDRESS, wrap32. rewrite <-Z.land_ones, Z.shiftr_land, Z.shiftr_lor, Z.shiftr_shiftl_l, <-Z.land_assoc by lia.
    change (Z.land (Z.shiftr (Z.ones 32) 8) 255) with (Z.ones 8). rewrite Z.land_ones by lia. apply Z.mod_small. done.
  - intros a d Hw. unfold read_command. cbn [BARType BARAddress example_card]. change (model_bar +64 REG_EEPROM) with (model_bar + REG_EEPROM). cbn -[Z.land Z.lor Z.shiftl Z.shiftr Z.modulo Z.pow]. rewrite Hw. split; [done|]. left. split.
    + rewrite Z.land_lor_distr_l. intros E. apply Z.lor_eq_0_iff in E as [_ E]. done.
    + rewrite Z.shiftr_lor, Z.shiftr_shiftl_l by lia. change (Z.shiftr 16 16) with 0. rewrite Z.lor_0_r. done.
Defined.

Definition example_frames : pmm := lock_pages 0 3 (mkPmm (Bits.init 16 0) 100 101 0 100 0).


Lemma example_ready : card_ready model_bar example_card.
Proof. split; [done|unfold PAGE_SIZE; cbn; lia|done]. Qed.



Lemma mac_address_is_that_of_the_eeprom_witness :
  exists d', get_mac_address 1000 example_card (mkModel (fun _ => 0) (fun a => 0x1200 + a) None) = Done (with_mac [0; 0x12; 1; 0x12; 2; 0x12] example_card, d').
Proof.
  change [0; 0x12; 1; 0x12; 2; 0x12] with ((fun i => word (mkModel (fun _ => 0) (fun a => 0x1200 + a) None) (i / 2) / 256 ^ (i mod 2) mod 256) <$> [0; 1; 2; 3; 4; 5]).
  apply (mac_address_is_that_of_the_eeprom example_card model 1000 (mkModel (fun _ => 0) (fun a => 0x1200 + a) None)); [done|done|apply Nat.leb_le; by vm_compute].
Defined.

Lemma wrapped_ring_is_not_reclaimed_witness :
  exists d, handle_interrupt 300 (mkSys example_card example_frames (fun z => z) (mkModel (fun a => if a =? model_bar + REG_ICR then 1 else 2) (fun _ => 0) None)) =
    Done (mkSys example_card example_frames (fun z => z) d).
Proof. apply (wrapped_ring_is_not_reclaimed model_bar model 300 (mkSys example_card example_frames (fun z => z) _)); [apply example_ready|done|by vm_compute]. Defined.

Definition big_packet : mem := write_le 2 (write_le 8 (fun _ => 0) 80 8192) 88 65535.

Lemma oversized_packet_frees_other_pages_witness :
  exists fr' m', reclaim 1 6 example_card (lock_pages 0 40 fresh) big_packet = Done (with_TXHead 6 example_card, fr', m') /\
    (forall q, 8192 / PAGE_SIZE + 5 <= q < 8192 / PAGE_SIZE + 16 -> 0 <= q -> locked (lock_pages 0 40 fresh) q = true /\ locked fr' q = false).
Proof.
  destruct (lock_pages_spec 0 40 fresh fresh_wf) as (W & _ & _ & B); [lia|lia|unfold PAGE_SIZE; lia|].
  apply (oversized_packet_frees_other_pages example_card (lock_pages 0 40 fresh) big_packet 8192 5); [done|lia|done|done| |cbn; lia|cbn; lia].
  split; [done|lia|unfold PAGE_SIZE; lia|lia|]. intros q Hq. change (8192 / PAGE_SIZE) with 2 in Hq. rewrite B by lia. unfold in_run.
  rewrite (proj2 (Z.leb_le _ _)), !(proj2 (Z.ltb_lt _ _)); [done|change (capacity fresh) with 128; lia|lia|lia].
Defined.

End E1000.
