(* ===== verification/KernelDrivers.v ===== *)
(** * The drivers behind the virtual filesystem

    The driver objects of the running system together, as [Vfs] calls them:
    pipes, input buffers, sockets, the debug output
    (src/kernel/src/storage/filesystem_drivers/dbgout.h) and FAT volumes on
    storage devices.  They meet what the filesystem relies on, so that its
    theorems hold of the system. *)

From S2P Require Import Prelude PhysMem LinkedList SparseVector RingBuffer Event Process Scheduler FileMeta.
From S2P Require Import PipeDriver InputDriver SocketDriver Utf Fat Vfs.

(** [StorageDeviceDriver]: devices by number. *)
Class StorageDevices (Dev : Type) := {
  sd_read_raw : Z -> Z -> Z -> Dev -> Z * list Z;
  sd_write : Z -> Z -> Z -> list Z -> Dev -> Z * Dev
}.

Module Kernel.

Section Kernel.
Context {Dev : Type} `{!StorageDevices Dev} (fresh : nat -> list Z) (fuel : nat).

(** [dbgout] is what was sent to the serial port. *)
Record drivers := mkDrivers {
  pipes : Pipe.PipeDriver;
  inputs : Input.InputDriver;
  sockets : Socket.SocketDriver;
  dbgout : list Z;
  volumes : gmap Z Fat.FileAllocationTableDriver;
  devices : Dev
}.

Definition with_pipes (x : Pipe.PipeDriver) (d : drivers) : drivers := mkDrivers x (inputs d) (sockets d) (dbgout d) (volumes d) (devices d).
Definition with_inputs (x : Input.InputDriver) (d : drivers) : drivers := mkDrivers (pipes d) x (sockets d) (dbgout d) (volumes d) (devices d).
Definition with_sockets (x : Socket.SocketDriver) (d : drivers) : drivers := mkDrivers (pipes d) (inputs d) x (dbgout d) (volumes d) (devices d).
Definition with_dbgout (x : list Z) (d : drivers) : drivers := mkDrivers (pipes d) (inputs d) (sockets d) x (volumes d) (devices d).
Definition with_devices (x : Dev) (d : drivers) : drivers := mkDrivers (pipes d) (inputs d) (sockets d) (dbgout d) (volumes d) x.

Definition read_device (device : Z) (d : drivers) (offs n : Z) : Z * list Z := sd_read_raw device offs n (devices d).

Definition drivers_open (drv : FilesystemDriver) (path : string) (ds : drivers * sched) (ms : Store.store FileMetadata) :
    outcome (Z * (drivers * sched) * Store.store FileMetadata) :=
  let '(d, s) := ds in
  match drv with
  | PipesDriver => Stop Panicked
  | FileMeta.InputDriver => let '(r, i, ms) := Input.open path (inputs d) ms in Done (r, (with_inputs i d, s), ms)
  | SocketsDriver =>
      '(f, so) ← Socket.open path (sockets d) s;
      let '(a, ms) := Store.new f ms in Done (a, (with_sockets so d, s), ms)
  | DbgOutDriver => Done (0, (d, s), ms)
  | FatDriver device =>
      fs ← deref (volumes d !! device);
      r ← Fat.open (read_device device d) fresh fs fuel device (bytes_of_string path);
      match r with
      | None => Done (0, (d, s), ms)
      | Some f => let '(a, ms) := Store.new f ms in Done (a, (d, s), ms)
      end
  end.

Definition drivers_close (drv : FilesystemDriver) (f : FileMetadata) (ds : drivers * sched) : outcome (drivers * sched) :=
  let '(d, s) := ds in
  match drv with
  | PipesDriver => '(p, s) ← Pipe.close (Some f) (pipes d, s); Done (with_pipes p d, s)
  | FileMeta.InputDriver => Done (with_inputs (Input.close (Some f) (inputs d)) d, s)
  | SocketsDriver => so ← Socket.close (Some f) (sockets d); Done (with_sockets so d, s)
  | DbgOutDriver => Done (d, s)
  | FatDriver _ => Done (d, s)
  end.

Definition drivers_read (drv : FilesystemDriver) (f : FileMetadata) (offs size buffer : Z) (ds : drivers * sched) (m : mem) :
    outcome (Z * (drivers * sched) * mem) :=
  let '(d, s) := ds in
  match drv with
  | PipesDriver => '(r, (p, s), m) ← Pipe.read (Some f) size buffer (pipes d, s) m; Done (r, (with_pipes p d, s), m)
  | FileMeta.InputDriver => '(r, (i, s), m) ← Input.read (Some f) size buffer (inputs d, s) m; Done (r, (with_inputs i d, s), m)
  | SocketsDriver => '(r, (so, s), m) ← Socket.read (Some f) size buffer (sockets d, s) m; Done (r, (with_sockets so d, s), m)
  | DbgOutDriver => Done (-1, (d, s), m)
  | FatDriver device =>
      let '(r, bytes) := Fat.read (read_device device d) f offs size in
      Done (r, (d, s), store_bytes buffer bytes m)
  end.

Definition drivers_write (drv : FilesystemDriver) (f : FileMetadata) (offs size buffer : Z) (ds : drivers * sched) (m : mem) :
    outcome (Z * (drivers * sched)) :=
  let '(d, s) := ds in
  match drv with
  | PipesDriver => '(r, (p, s)) ← Pipe.write (Some f) size buffer (pipes d, s) m; Done (r, (with_pipes p d, s))
  | FileMeta.InputDriver => '(r, (i, s)) ← Input.write (Some f) size buffer (inputs d, s) m; Done (r, (with_inputs i d, s))
  | SocketsDriver => '(r, (so, s)) ← Socket.write (Some f) size buffer (sockets d, s) m; Done (r, (with_sockets so d, s))
  | DbgOutDriver => Done (size, (with_dbgout (dbgout d ++ load_bytes m buffer (Z.to_nat size)) d, s))
  | FatDriver device =>
      let '(r, dev) := sd_write device (DriverData f +64 offs) size (load_bytes m buffer (Z.to_nat size)) (devices d) in
      Done (r, (with_devices dev d, s))
  end.

Definition drivers_directory_data (drv : FilesystemDriver) (path : string) (max out : Z) (d : drivers) (m : mem) : outcome (Z * mem) :=
  match drv with
  | FatDriver device =>
      fs ← deref (volumes d !! device);
      Fat.directory_data (read_device device d) fresh fs fuel (bytes_of_string path) max out m
  | _ => Done (-1, m)
  end.

#[export] Instance kernel_drivers : Drivers drivers := {
  drv_open := drivers_open;
  drv_close := drivers_close;
  drv_read := drivers_read;
  drv_write := drivers_write;
  drv_directory_data := drivers_directory_data
}.

(** ** What the metadata promises to the drivers *)

(** Files of driver [drv] refer to objects of [live], each its own. *)
Record owns {A : Type} (drv : FilesystemDriver) (live : gmap Z A) (ms : gmap Z FileMetadata) : Prop := {
  owns_live a f : ms !! a = Some f -> FileDriver f = Some drv -> is_Some (live !! DriverData f);
  owns_inj a1 a2 f1 f2 : ms !! a1 = Some f1 -> ms !! a2 = Some f2 -> FileDriver f1 = Some drv -> FileDriver f2 = Some drv ->
    DriverData f1 = DriverData f2 -> a1 = a2
}.

(** Destroying a file and its object, or a file of another driver. *)
Lemma owns_delete {A} drv (live : gmap Z A) ms a f :
  owns drv live ms -> ms !! a = Some f -> FileDriver f = Some drv -> owns drv (delete (DriverData f) live) (delete a ms).
Proof.
  intros [Hl Hi] Hf Hd. split.
  - intros b g Hg Hgd. apply lookup_delete_Some in Hg as [Hne Hg]. rewrite lookup_delete_ne; [by eapply Hl|].
    intros E. apply Hne. by eapply Hi.
  - intros b1 b2 g1 g2 H1 H2. apply lookup_delete_Some in H1 as [_ H1], H2 as [_ H2]. by eapply Hi.
Qed.

Lemma owns_other {A} drv (live : gmap Z A) ms a : owns drv live ms -> owns drv live (delete a ms).
Proof.
  intros [Hl Hi]. split.
  - intros b g Hg. apply lookup_delete_Some in Hg as [_ Hg]. by eapply Hl.
  - intros b1 b2 g1 g2 H1 H2. apply lookup_delete_Some in H1 as [_ H1], H2 as [_ H2]. by eapply Hi.
Qed.

Lemma owns_insert_other {A} drv (live : gmap Z A) ms a f : owns drv live ms -> FileDriver f ≠ Some drv -> owns drv live (<[a := f]> ms).
Proof.
  intros [Hl Hi] Hd. split.
  - intros b g. rewrite lookup_insert_Some. intros [[_ <-]|[_ Hg]]; [done|by eapply Hl].
  - intros b1 b2 g1 g2. rewrite !lookup_insert_Some. intros [[_ <-]|[_ H1]] [[_ <-]|[_ H2]]; try done. by eapply Hi.
Qed.

(** A new file with a new object. *)
Lemma owns_insert {A} drv (live : gmap Z A) ms a f x :
  owns drv live ms -> live !! DriverData f = None -> owns drv (<[DriverData f := x]> live) (<[a := f]> ms).
Proof.
  intros [Hl Hi] Hnew. assert (Hne : forall b g, ms !! b = Some g -> FileDriver g = Some drv -> DriverData g ≠ DriverData f).
  { intros b g Hg Hd E. destruct (Hl _ _ Hg Hd) as [y Hy]. congruence. }
  split.
  - intros b g. rewrite lookup_insert_Some. intros [[_ <-]|[_ Hg]] Hd; [by rewrite lookup_insert_eq|].
    rewrite lookup_insert_ne by (apply not_eq_sym; by eapply Hne). by eapply Hl.
  - intros b1 b2 g1 g2. rewrite !lookup_insert_Some. intros [[-> <-]|[_ H1]] [[-> <-]|[_ H2]] Hd1 Hd2 E; [done| | |by eapply Hi].
    + exfalso. by eapply Hne.
    + exfalso. by eapply (Hne b1 g1).
Qed.

(** *** Sockets share buffers *)

#[local] Existing Instance Socket.AddressType_eq_dec.

Definition sharers (x : Z) (datas : gmap Z Socket.SocketData) : nat :=
  size (filter (fun kv => Socket.SData kv.2 = x) datas).

(** Buffers in use are live and count the sockets that share them. *)
Record sockets_ok (so : Socket.SocketDriver) : Prop := {
  so_datas : Store.wf (Socket.datas so);
  so_buffers : Store.wf (Socket.sbuffers so);
  so_count a data : Store.objs (Socket.datas so) !! a = Some data -> Socket.SData data ≠ 0 ->
    exists b, Store.objs (Socket.sbuffers so) !! Socket.SData data = Some b /\
      Socket.RefCount b = Z.of_nat (sharers (Socket.SData data) (Store.objs (Socket.datas so))) /\ Socket.RefCount b < 2 ^ 64
}.

Lemma sharers_delete datas a data x :
  datas !! a = Some data ->
  sharers x datas = ((if decide (Socket.SData data = x) then 1 else 0) + sharers x (delete a datas))%nat.
Proof.
  intros Ha. unfold sharers. rewrite map_filter_delete. case_decide as E.
  - rewrite map_size_delete, (proj2 (map_lookup_filter_Some _ _ _ _)) by done.
    assert (size (filter (fun kv => Socket.SData kv.2 = x) datas) ≠ 0%nat); [|lia].
    intros H0. apply map_size_empty_inv in H0. assert (H1 : filter (fun kv => Socket.SData kv.2 = x) datas !! a = Some data)
      by (by apply map_lookup_filter_Some). by rewrite H0, lookup_empty in H1.
  - rewrite delete_id; [done|]. apply map_lookup_filter_None. right. intros y Hy. rewrite Ha in Hy. by injection Hy as <-.
Qed.

Lemma sharers_insert_unconnected datas a data x :
  datas !! a = None -> Socket.SData data = 0 -> x ≠ 0 -> sharers x (<[a := data]> datas) = sharers x datas.
Proof. intros Ha Hd Hx. unfold sharers. rewrite map_filter_insert_False by (cbn; congruence). by rewrite delete_id. Qed.

(** The socket driver after the last file of a socket is closed. *)
Definition socket_closed (a : Z) (data : Socket.SocketData) (so : Socket.SocketDriver) : outcome Socket.SocketDriver :=
  if Socket.SData data =? 0 then Done (Socket.with_datas (Store.del a (Socket.datas so)) so)
  else
    b ← Store.get (Socket.SData data) (Socket.sbuffers so);
    let n := Socket.RefCount b -64 1 in
    let kept := Socket.mkBuffers (Socket.TXBuffer b) (Socket.RXBuffer b) n in
    let bindings := if (n =? 0) && negb (bool_decide (Socket.AType (Socket.Address data) = Socket.UNBOUND))
                    then Socket.Bindings (Socket.unbind (Socket.Address data) so).2 else Socket.Bindings so in
    let bufs := Store.put (Socket.SData data) kept (Socket.sbuffers so) in
    Done (Socket.mkDriver bindings (Store.del a (Socket.datas so)) (if n =? 0 then Store.del (Socket.SData data) bufs else bufs)).

Lemma socket_close_equation f data so :
  Store.objs (Socket.datas so) !! DriverData f = Some data -> DriverData f ≠ 0 ->
  Socket.close (Some f) so = socket_closed (DriverData f) data so.
Proof.
  intros Hd H0. unfold Socket.close, socket_closed, Store.get. rewrite (proj2 (Z.eqb_neq _ _) H0), Hd. cbn [deref mbind outcome_bind].
  destruct (Socket.SType data). destruct (Socket.SData data =? 0); [done|].
  cbn [Socket.with_datas Socket.sbuffers]. destruct (Store.objs (Socket.sbuffers so) !! _) as [b|]; [|done]. cbn [deref mbind outcome_bind].
  assert (Ed : forall x, Store.del (DriverData f) (Store.put (DriverData f) x (Socket.datas so)) = Store.del (DriverData f) (Socket.datas so)).
  { intros x. unfold Store.del, Store.put. cbn. by rewrite delete_insert_eq. }
  cbn [Socket.RefCount]. destruct (_ =? 0) eqn:En; cbn [andb mbind outcome_bind].
  - case_decide as Eu; [rewrite bool_decide_true by done|rewrite bool_decide_false by done]; cbn; by rewrite Ed.
  - cbn. by rewrite Ed.
Qed.

Lemma socket_close_ok f data so :
  sockets_ok so -> Store.objs (Socket.datas so) !! DriverData f = Some data ->
  exists so', Socket.close (Some f) so = Done so' /\ sockets_ok so' /\
    Store.objs (Socket.datas so') = delete (DriverData f) (Store.objs (Socket.datas so)).
Proof.
  intros S Hd. assert (H0 : DriverData f ≠ 0) by (apply (so_datas _ S) in Hd; lia).
  rewrite (socket_close_equation f data so Hd H0). unfold socket_closed. destruct (Z.eqb_spec (Socket.SData data) 0) as [E0|E0].
  - eexists. split_and!; [reflexivity| |done]. split; cbn [Socket.with_datas Socket.datas Socket.sbuffers]; [apply Store.del_wf, S|apply S|].
    intros a x Hx Hx0. cbn [Store.del Store.objs] in *. apply lookup_delete_Some in Hx as [_ Hx]. destruct (so_count _ S a x Hx Hx0) as (b & Hb & Hc & Hlt).
    exists b. split_and!; try done. rewrite Hc, (sharers_delete _ _ _ _ Hd), decide_False by congruence. done.
  - destruct (so_count _ S _ _ Hd E0) as (b & Hb & Hc & Hlt). unfold Store.get. rewrite Hb. cbn [deref mbind outcome_bind].
    eexists. split_and!; [reflexivity| |done]. rewrite (sharers_delete _ _ _ _ Hd), decide_True in Hc by done.
    assert (En : Socket.RefCount b -64 1 = Z.of_nat (sharers (Socket.SData data) (delete (DriverData f) (Store.objs (Socket.datas so))))).
    { rewrite wrap64_small by (unfold is_u64; lia). lia. }
    assert (Wput : Store.wf (Store.put (Socket.SData data) (Socket.mkBuffers (Socket.TXBuffer b) (Socket.RXBuffer b) (Socket.RefCount b -64 1)) (Socket.sbuffers so)))
      by (apply Store.put_wf; [apply S|by eexists]).
    split; cbn [Socket.datas Socket.sbuffers]; [apply Store.del_wf, S|destruct (_ =? 0); [by apply Store.del_wf|done]|].
    intros a x Hx Hx0. cbn [Store.del Store.objs] in *. rewrite En. pose proof Hx as Hx'. apply lookup_delete_Some in Hx as [Hne Hx].
    destruct (decide (Socket.SData x = Socket.SData data)) as [Es|Es].
    + rewrite Es. rewrite (sharers_delete _ _ _ (Socket.SData data) Hx'), decide_True by done.
      rewrite (proj2 (Z.eqb_neq _ 0)) by lia. cbn [Store.put Store.objs]. rewrite lookup_insert_eq. eexists. split_and!; [done|cbn; lia|].
      cbn. rewrite (sharers_delete _ _ _ (Socket.SData data) Hx'), decide_True in Hc by done. lia.
    + destruct (so_count _ S a x Hx Hx0) as (b' & Hb' & Hc' & Hlt'). exists b'.
      rewrite Hc', (sharers_delete _ _ _ (Socket.SData x) Hd), decide_False by congruence. split_and!; [|done|by rewrite Hc' in Hlt'; rewrite (sharers_delete _ _ _ (Socket.SData x) Hd), decide_False in Hlt' by congruence].
      destruct (_ =? 0); cbn [Store.del Store.put Store.objs]; rewrite ?lookup_delete_ne, lookup_insert_ne by congruence; done.
Qed.

(** ** The drivers keep their promise *)

Record kernel_ok (d : drivers) (ms : gmap Z FileMetadata) : Prop := {
  ko_driver a f : ms !! a = Some f -> is_Some (FileDriver f);
  ko_pipes : Pipe.inv (pipes d);
  ko_ends : owns PipesDriver (Store.objs (Pipe.ends (pipes d))) ms;
  ko_sockets : sockets_ok (sockets d);
  ko_datas : owns SocketsDriver (Store.objs (Socket.datas (sockets d))) ms
}.

(** Files that go without touching pipes and sockets. *)
Lemma kernel_ok_forget d d' ms a :
  kernel_ok d ms -> pipes d' = pipes d -> sockets d' = sockets d -> kernel_ok d' (delete a ms).
Proof.
  intros K Ep Es. split; rewrite ?Ep, ?Es; try apply K; [|apply owns_other, K|apply owns_other, K].
  intros b g Hg. apply lookup_delete_Some in Hg as [_ Hg]. by eapply ko_driver.
Qed.

(** A new file without an object of its own. *)
Lemma kernel_ok_add d d' ms a f drv :
  kernel_ok d ms -> pipes d' = pipes d -> sockets d' = sockets d -> FileDriver f = Some drv -> drv ≠ PipesDriver -> drv ≠ SocketsDriver ->
  kernel_ok d' (<[a := f]> ms).
Proof.
  intros K Ep Es Hd Hp Hs. split; rewrite ?Ep, ?Es; try apply K; [|apply owns_insert_other; [apply K|congruence]..].
  intros b g. rewrite lookup_insert_Some. intros [[_ <-]|[_ Hg]]; [by rewrite Hd|by eapply ko_driver].
Qed.

Lemma pipe_close_ok d ms a f s ns ps :
  kernel_ok d ms -> ms !! a = Some f -> FileDriver f = Some PipesDriver -> queue_ok s ns ps ->
  exists d' s' ret W, drivers_close PipesDriver f (d, s) = Done (d', s') /\ kernel_ok d' (delete a ms) /\ woken ret W s s'.
Proof.
  intros K Hf Hd Q. destruct (owns_live _ _ _ (ko_ends _ _ K) a f Hf Hd) as [x Hx].
  destruct (Pipe.inv_end _ (ko_pipes _ _ K) _ _ Hx) as (_ & b & Hb & _).
  cbn [drivers_close]. rewrite (Pipe.close_equation f (pipes d) x b (ko_pipes _ _ K) Hx Hb s).
  destruct (unblock_all_spec RET_EOF (Pipe.waiting_on_end x b) s ns ps Q) as (s' & -> & Hw). cbn [mbind outcome_bind].
  exists (with_pipes (Pipe.after_close f (pipes d) x b) d), s'. do 2 eexists. split_and!; [reflexivity| |exact Hw].
  assert (Ee : Store.objs (Pipe.ends (Pipe.after_close f (pipes d) x b)) = delete (DriverData f) (Store.objs (Pipe.ends (pipes d)))).
  { unfold Pipe.after_close. by destruct (Pipe.other_closed x b). }
  split; cbn [with_pipes pipes sockets].
  - intros c g Hg. apply lookup_delete_Some in Hg as [_ Hg]. by eapply ko_driver.
  - by apply (Pipe.close_inv f (pipes d) x b (ko_pipes _ _ K)).
  - rewrite Ee. eapply owns_delete; [apply K|done|done].
  - apply K.
  - apply owns_other, K.
Qed.

Lemma socket_drop_ok d ms a f s :
  kernel_ok d ms -> ms !! a = Some f -> FileDriver f = Some SocketsDriver ->
  exists d', drivers_close SocketsDriver f (d, s) = Done (d', s) /\ kernel_ok d' (delete a ms).
Proof.
  intros K Hf Hd. destruct (owns_live _ _ _ (ko_datas _ _ K) a f Hf Hd) as [x Hx].
  destruct (socket_close_ok f x (sockets d) (ko_sockets _ _ K) Hx) as (so & E & Hso & Edel).
  cbn [drivers_close]. rewrite E. cbn [mbind outcome_bind]. eexists. split; [reflexivity|].
  split; cbn [with_sockets pipes sockets]; [|apply K|apply owns_other, K|done|].
  - intros c g Hg. apply lookup_delete_Some in Hg as [_ Hg]. by eapply ko_driver.
  - rewrite Edel. eapply owns_delete; [apply K|done|done].
Qed.

Lemma close_ok d ms a f drv s ns ps :
  kernel_ok d ms -> ms !! a = Some f -> FileDriver f = Some drv -> queue_ok s ns ps ->
  exists d' s' ret W, drivers_close drv f (d, s) = Done (d', s') /\ kernel_ok d' (delete a ms) /\ woken ret W s s'.
Proof.
  intros K Hf Hd Q. destruct drv; [by eapply pipe_close_ok| |edestruct (socket_drop_ok d ms a f s) as (d' & E & K'); [done..|]| |];
    cbn [drivers_close]; do 2 eexists; exists 0, []; (split_and!; [eassumption || reflexivity| |apply woken_refl]); [|exact K'|..];
    by eapply kernel_ok_forget.
Qed.

(** A new pipe, and files for its ends. *)
Lemma owns_more {A} drv (live live' : gmap Z A) ms :
  owns drv live ms -> (forall e x, live !! e = Some x -> live' !! e = Some x) -> owns drv live' ms.
Proof. intros [Hl Hi] H. split; [|exact Hi]. intros a f Hf Hd. destruct (Hl a f Hf Hd) as [x Hx]. exists x. auto. Qed.

Lemma owns_add {A} drv (live : gmap Z A) ms a f :
  owns drv live ms -> is_Some (live !! DriverData f) ->
  (forall b g, ms !! b = Some g -> FileDriver g = Some drv -> DriverData g ≠ DriverData f) -> owns drv live (<[a := f]> ms).
Proof.
  intros [Hl Hi] Hlive Hne. split.
  - intros b g. rewrite lookup_insert_Some. intros [[_ <-]|[_ Hg]] Hd; [done|by eapply Hl].
  - intros b1 b2 g1 g2. rewrite !lookup_insert_Some. intros [[-> <-]|[_ H1]] [[-> <-]|[_ H2]] Hd1 Hd2 E; [done| | |by eapply Hi].
    + by destruct (Hne b2 g2 H2 Hd2).
    + by destruct (Hne b1 g1 H1 Hd1).
Qed.

Lemma lay_pipe_ok d ms r w p' :
  kernel_ok d ms -> Pipe.lay_pipe (pipes d) = (r, w, p') -> kernel_ok (with_pipes p' d) ms.
Proof.
  intros K E. destruct (Pipe.lay_spec _ _ _ _ (ko_pipes _ _ K) E) as (a & _ & _ & _ & I & Hold & _).
  split; cbn [with_pipes pipes sockets]; try apply K; [done|]. eapply owns_more; [apply K|]. intros e x Hx. by apply Hold.
Qed.

Lemma pipe_file_ok d ms a f :
  kernel_ok d ms -> FileDriver f = Some PipesDriver -> is_Some (Store.objs (Pipe.ends (pipes d)) !! DriverData f) ->
  (forall b g, ms !! b = Some g -> FileDriver g = Some PipesDriver -> DriverData g ≠ DriverData f) -> kernel_ok d (<[a := f]> ms).
Proof.
  intros K Hd He Hne. split; try apply K.
  - intros b g. rewrite lookup_insert_Some. intros [[_ <-]|[_ Hg]]; [by rewrite Hd|by eapply ko_driver].
  - by apply owns_add; [apply K| |].
  - apply owns_insert_other; [apply K|congruence].
Qed.

(** A new socket without buffers. *)
Lemma sockets_ok_new so data :
  sockets_ok so -> Socket.SData data = 0 -> sockets_ok (Socket.with_datas (Store.new data (Socket.datas so)).2 so).
Proof.
  intros S Hd. pose proof (Store.brk_unused _ (so_datas _ S)) as Hu.
  split; cbn [Socket.with_datas Socket.datas Socket.sbuffers]; [apply Store.new_wf, S|apply S|].
  intros a x Hx Hx0. cbn [Store.new snd Store.objs] in *. apply lookup_insert_Some in Hx as [[_ <-]|[_ Hx]]; [done|].
  destruct (so_count _ S a x Hx Hx0) as (b & Hb & Hc & Hlt). exists b. by rewrite sharers_insert_unconnected.
Qed.

(** A file whose metadata is new in the store. *)
Lemma new_meta_ok (f : FileMetadata) ms : Store.wf ms ->
  Store.wf (Store.new f ms).2 /\ (Store.new f ms).1 ≠ 0 /\ Store.objs ms !! (Store.new f ms).1 = None /\
  is_Some (Store.objs (Store.new f ms).2 !! (Store.new f ms).1) /\
  forall a, a ≠ (Store.new f ms).1 -> Store.objs (Store.new f ms).2 !! a = Store.objs ms !! a.
Proof.
  intros W. split_and!; [by apply Store.new_wf|destruct W; cbn; lia|by apply Store.brk_unused|cbn; by rewrite lookup_insert_eq|].
  intros a Ha. cbn in *. by rewrite lookup_insert_ne.
Qed.

Lemma open_ok d drv path s ms r d' s' ms' :
  kernel_ok d (Store.objs ms) -> Store.wf ms -> drivers_open drv path (d, s) ms = Done (r, (d', s'), ms') ->
  Store.wf ms' /\ kernel_ok d' (Store.objs ms') /\ s' = s /\
  ((r = 0 /\ ms' = ms) \/ (r ≠ 0 /\ (ms' = ms \/ Store.objs ms !! r = None) /\
    is_Some (Store.objs ms' !! r) /\ forall a, a ≠ r -> Store.objs ms' !! a = Store.objs ms !! a)).
Proof.
  intros K W. destruct drv as [| | | |device]; cbn [drivers_open].
  - done.
  - unfold Input.open. destruct (list_find _ _) as [[i e]|].
    + intros [= <- <- <- <-]. split_and!; [done|by destruct d|done|]. unfold Input.lock.
      destruct (Store.objs ms !! Input.Meta e) as [f|] eqn:Ef; [|by left]. right. pose proof (proj2 W _ _ Ef). split_and!; [lia|by left|done|done].
    + destruct (last _) as [b|]; cbn [Store.new]; intros [= <- <- <- <-];
        match goal with |- context [make_meta ?a ?b ?c ?e ?f] => destruct (new_meta_ok (make_meta a b c e f) ms W) as (W' & H0 & Hnone & Hsome & Hsame) end;
        (split_and!; [exact W'|by eapply kernel_ok_add|done|]); right; (split_and!; [done|by right|done|done]).
  - unfold Socket.open. intros H. done_inv H. destruct (current s) as [p|]; [|done]. cbn [mbind outcome_bind] in E. injection E as <-.
    cbn [Store.new] in H. injection H as <- <- <- <-.
    match goal with |- context [make_meta Regular "new_socket" SocketsDriver ?n ?b] => set (f := make_meta Regular "new_socket" SocketsDriver n b) end.
    destruct (new_meta_ok f ms W) as (W' & H0 & Hnone & Hsome & Hsame).
    split_and!; [exact W'| |done|right; split_and!; [done|by right|done|done]].
    split; cbn [with_sockets pipes sockets Store.objs]; [|apply K|apply owns_insert_other; [apply K|done]|by apply sockets_ok_new; [apply K|]|].
    + intros b g Hg. apply lookup_insert_Some in Hg as [[_ <-]|[_ Hg]]; [by eexists|by eapply ko_driver].
    + apply (owns_insert SocketsDriver (Store.objs (Socket.datas (sockets d))) (Store.objs ms) _ f); [apply K|].
      apply Store.brk_unused, K.
  - intros [= <- <- <- <-]. split_and!; [done|done|done|by left].
  - destruct (volumes d !! device) as [fs|]; [|done]. cbn [deref mbind outcome_bind].
    destruct (Fat.open _ _ _ _ _ _) as [[f|]|] eqn:Eo; [| |done]; cbn [mbind outcome_bind].
    2: { intros [= <- <- <- <-]. split_and!; [done|done|done|by left]. }
    cbn [Store.new]. intros [= <- <- <- <-]. destruct (new_meta_ok f ms W) as (W' & H0 & Hnone & Hsome & Hsame).
    split_and!; [exact W'| |done|right; split_and!; [done|by right|done|done]].
    eapply (kernel_ok_add d d _ _ f (FatDriver device)); try done. by eapply Fat.open_driver.
Qed.

#[export] Instance kernel_laws : DriverLaws drivers := {
  drv_ok := kernel_ok;
  drv_ok_driver d ms a f K := ko_driver d ms K a f;
  drv_close_ok := close_ok;
  drv_open_ok := open_ok
}.

End Kernel.

(** ** A running system *)

Section Example.

#[local] Instance no_devices : StorageDevices unit := {
  sd_read_raw _ _ _ _ := (-1, []);
  sd_write _ _ _ _ d := (-1, d)
}.

Definition system : Type := @drivers unit.
#[local] Instance system_drivers : Drivers system := kernel_drivers (fun n => replicate n 0) 0.
#[local] Instance system_laws : DriverLaws system := kernel_laws (fun n => replicate n 0) 0.

Definition boot_drivers : system :=
  mkDrivers (Pipe.empty_driver 1) (Input.mkDriver [] [] (Store.mkStore ∅ 1))
    (Socket.mkDriver [] (Store.mkStore ∅ 1) (Store.mkStore ∅ 1)) [] ∅ tt.

Definition boot_vfs : Vfs.vfs :=
  Vfs.mkVfs (Sparse.mkSparse [] []) [Vfs.mkMount "/input/" FileMeta.InputDriver] (Store.mkStore ∅ 1) [].

Lemma empty_store_wf A : Store.wf (Store.mkStore (A := A) ∅ 1).
Proof. split; [cbn; lia|]. intros a x Hx. cbn in Hx. by rewrite lookup_empty in Hx. Qed.

Lemma boot_drivers_ok : kernel_ok boot_drivers ∅.
Proof.
  split; [intros a f H; by rewrite lookup_empty in H|by apply Pipe.empty_driver_inv|split; intros *; by rewrite lookup_empty| |split; intros *; by rewrite lookup_empty].
  split; [apply empty_store_wf|apply empty_store_wf|]. intros a x Hx. cbn in Hx. by rewrite lookup_empty in Hx.
Qed.

Lemma trio_descriptors a p : procs trio !! a = Some p -> Process.FileDescriptors p = Sparse.empty.
Proof.
  cbn [trio procs]. rewrite !lookup_insert_Some, lookup_singleton_Some.
  by intros [[_ <-]|[_ [[_ <-]|[_ [[_ <-]|[_ [_ <-]]]]]]].
Qed.

Lemma trio_sysfd a fd : Vfs.sysfd_of trio a fd = None.
Proof.
  unfold Vfs.sysfd_of. destruct (procs trio !! a) as [p|] eqn:Hp; [|done]. cbn. rewrite (trio_descriptors a p Hp).
  unfold Sparse.lookup_valid, Sparse.get. cbn [Sparse.empty Sparse.els]. by rewrite lookup_nil, if_same.
Qed.

Lemma boot_ok : Vfs.ok None boot_vfs boot_drivers trio.
Proof.
  split.
  - apply Sparse.sparse_empty_wf.
  - apply empty_store_wf.
  - intros a. cbn. rewrite lookup_empty. split; [by intros [? ?]|]. intros [_ [[H|H]|H]]; [by apply not_elem_of_nil in H..|discriminate H].
  - exact boot_drivers_ok.
  - intros a p Hp. rewrite (trio_descriptors a p Hp). apply Sparse.sparse_empty_wf.
  - intros a fd x _. by rewrite trio_sysfd.
  - intros a fd a' fd' x _ _. by rewrite trio_sysfd.
  - intros i Hi [x Hx]. exfalso. revert Hx. unfold Sparse.lookup_valid, Sparse.get. cbn [boot_vfs Vfs.Files Sparse.els]. by rewrite lookup_nil, if_same.
Qed.

(** The current process opens an input file and duplicates its descriptor. *)
Definition opened : outcome (Vfs.FileDescriptors * Vfs.vfs * (system * sched)) := Vfs.open "/input/a" boot_vfs (boot_drivers, trio).
Definition world (o : outcome (Vfs.FileDescriptors * Vfs.vfs * (system * sched))) : Vfs.vfs * system * sched :=
  match o with
  | Done (_, v, (d, s)) => (v, d, s)
  | Stop _ => (boot_vfs, boot_drivers, trio)
  end.
Definition w1 : Vfs.vfs * system * sched := world opened.
Definition w2 : Vfs.vfs * system * sched := world (Vfs.dup 512 0 w1.1.1 (w1.1.2, w1.2)).

Lemma step_w1 : Vfs.step (boot_vfs, boot_drivers, trio) w1.
Proof.
  unfold w1. destruct opened as [[[r v] [d s]]|] eqn:E; [|by vm_compute in E].
  by apply (Vfs.step_open "/input/a" _ _ _ r v d s 512).
Qed.

Lemma step_w2 : Vfs.step w1 w2.
Proof.
  unfold w2. destruct (Vfs.dup 512 0 w1.1.1 (w1.1.2, w1.2)) as [[[r v] [d s]]|] eqn:E; [|by vm_compute in E].
  rewrite (surjective_pairing w1), (surjective_pairing w1.1). by apply (Vfs.step_dup 512 0 _ _ _ r v d s).
Qed.

Lemma w2_ok : Vfs.ok None w2.1.1 w2.1.2 w2.2 /\ queue_ok w2.2 [1; 2; 3] [512; 1024; 1536].
Proof. apply (Vfs.step_ok _ _ _ _ step_w2), (Vfs.step_ok _ _ _ _ step_w1). split; [exact boot_ok|apply trio_ok]. Qed.

(** Both descriptors are closed; in [lost] a read of the first waited before. *)
Definition after_close (fd : Z) (w : Vfs.vfs * system * sched) : Vfs.vfs * system * sched :=
  match Vfs.close 512 fd w.1.1 (w.1.2, w.2) with
  | Done (_, v, (d, s)) => (v, d, s)
  | Stop _ => w
  end.
Definition waited : Vfs.vfs * system * sched := (Vfs.hold 1 w2.1.1, w2.1.2, w2.2).
Definition closed : Vfs.vfs * system * sched := after_close 1 (after_close 0 w2).
Definition lost : Vfs.vfs * system * sched := after_close 1 (after_close 0 waited).

Lemma step_after_close fd w : 0 <= fd -> rtc Vfs.step w (after_close fd w).
Proof.
  intros Hfd. unfold after_close. destruct (Vfs.close _ _ _ _) as [[[r v] [d s]]|] eqn:E; [|apply rtc_refl].
  destruct w as [[v0 d0] s0]. apply rtc_once. by apply (Vfs.step_close 512 fd _ _ _ r v d s).
Qed.

Lemma run_w2 : rtc Vfs.step (boot_vfs, boot_drivers, trio) w2.
Proof. eapply rtc_l; [exact step_w1|]. by apply rtc_once, step_w2. Qed.

Lemma run_closed : rtc Vfs.step (boot_vfs, boot_drivers, trio) closed.
Proof. etrans; [exact run_w2|]. unfold closed. etrans; apply step_after_close; lia. Qed.

Lemma run_lost : rtc Vfs.step (boot_vfs, boot_drivers, trio) lost.
Proof.
  etrans; [exact run_w2|]. eapply rtc_l.
  - rewrite (surjective_pairing w2), (surjective_pairing w2.1). apply (Vfs.step_wait 512 0 1); [lia|vm_compute; reflexivity].
  - unfold lost, waited. etrans; apply step_after_close; lia.
Qed.

Lemma files_live_while_referenced_witness :
  is_Some (Store.objs (Vfs.metas w2.1.1) !! 1) /\ (~ exists a fd, 0 <= fd /\ Vfs.open_file closed.1.1 closed.2 a fd = Some 1) /\
  is_Some (Store.objs (Vfs.metas lost.1.1) !! 1).
Proof.
  pose proof (fun w H => proj1 (Vfs.files_live_while_referenced (boot_vfs, boot_drivers, trio) w [1; 2; 3] [512; 1024; 1536] boot_ok trio_ok H) 1) as F.
  split_and!.
  - apply (F w2 run_w2). split; [lia|]. left. exists 512, 0. split; [lia|vm_compute; reflexivity].
  - intros H. assert (H1 : 1 ≠ 0) by discriminate. destruct (proj2 (F closed run_closed) (conj H1 (or_introl H))) as [x Hx].
    assert (E : Store.objs (Vfs.metas closed.1.1) !! 1 = None) by (vm_compute; reflexivity). rewrite E in Hx. discriminate Hx.
  - apply (F lost run_lost). split; [lia|]. right. change (Vfs.Held lost.1.1) with [1]. apply list_elem_of_here.
Defined.

Lemma close_of_a_duplicate_keeps_the_file_witness :
  exists v' s', Vfs.close 512 0 w2.1.1 (w2.1.2, w2.2) = Done (true, v', (w2.1.2, s')) /\ Vfs.metas v' = Vfs.metas w2.1.1 /\
    Vfs.open_file v' s' 512 0 = None /\ Vfs.open_file v' s' 512 1 = Some 1.
Proof.
  destruct w2_ok as [O Q].
  apply (Vfs.close_of_a_duplicate_keeps_the_file w2.1.1 w2.1.2 w2.2 [1; 2; 3] [512; 1024; 1536] 512 0 512 1 1 O Q); try lia; vm_compute; reflexivity.
Defined.

Lemma descriptors_refine_a_map_witness :
  exists new sysfd v' s', Vfs.dup 512 1 w2.1.1 (w2.1.2, w2.2) = Done (Vfs.mkFds new sysfd, v', (w2.1.2, s')) /\
    Vfs.open_file v' s' 512 new = Some 1 /\ Vfs.open_file v' s' 512 0 = Some 1.
Proof.
  destruct w2_ok as [O Q]. destruct (procs w2.2 !! 512) as [p|] eqn:Hp; [|by vm_compute in Hp].
  assert (E1 : Vfs.open_file w2.1.1 w2.2 512 1 = Some 1) by (vm_compute; reflexivity).
  assert (E0 : Vfs.open_file w2.1.1 w2.2 512 0 = Some 1) by (vm_compute; reflexivity).
  assert (Hsz : Sparse.allocated_size (Vfs.Files w2.1.1) < 2 ^ 64 - 1) by (vm_compute; reflexivity).
  pose proof (Vfs.descriptors_refine_a_map w2.1.1 w2.1.2 w2.2 [1; 2; 3] [512; 1024; 1536] 512 p 1 O Q ltac:(lia) Hp ltac:(lia)) as H.
  rewrite E1 in H. destruct H as (_ & Hdup & _). destruct (Hdup Hsz) as (new & sysfd & v' & s' & E & Hn & Hno & R & _).
  exists new, sysfd, v', s'. split; [exact E|]. rewrite !R by lia. rewrite decide_True by done. split; [done|].
  rewrite decide_False by (intros [_ <-]; congruence). exact E0.
Defined.

End Example.

End Kernel.
