(* ===== verification/Programs.v ===== *)
(** * Programs on a volume

    Files of the FAT driver are what the loader of [ElfLoader] asks for, as long
    as the storage device reads what it holds; and a small program is loaded from
    one. *)

From S2P Require Import Prelude PhysMem Bitmap FrameAlloc Paging PageMap PageClone LinkedList SparseVector RingBuffer Event Process Scheduler.
From S2P Require Import FileMeta PipeDriver InputDriver SocketDriver Utf Fat Vfs ProcessLife ForkMemory ElfLoader KernelDrivers.

Module Programs.

Section Fat.
Context {Dev : Type} `{!StorageDevices Dev} (fresh : nat -> list Z) (fuel : nat).
#[local] Instance program_drivers : Drivers (@Kernel.drivers Dev) := Kernel.kernel_drivers fresh fuel.

(** The device holds [contents] from byte [start] on. *)
Definition device_holds (device start : Z) (contents : list Z) (d : @Kernel.drivers Dev) : Prop :=
  forall off n, 0 <= off -> 0 <= n -> off + n <= Z.of_nat (length contents) ->
    Kernel.read_device device d (start + off) n = (n, Elf.slice contents off n).

Lemma fat_file_executable fd v d s contents a meta device :
  Forall is_byte contents -> Z.of_nat (length contents) < 2 ^ 63 -> Vfs.file_current fd v s = Done a -> a ≠ 0 ->
  Store.get a (Vfs.metas v) = Done meta -> FileDriver meta = Some (FatDriver device) -> offset meta = 0 ->
  0 <= DriverData meta < 2 ^ 63 -> device_holds device (DriverData meta) contents d ->
  Elf.executable fd v d s contents.
Proof.
  intros Hb Hl Ha H0 Hm Hd Ho Hdd Hold. split; [done|done|]. exists a, meta, (FatDriver device). split_and!; try done.
  intros s' off n buffer m H1 H2 H3. cbn. unfold Fat.read. rewrite wrap64_small by (unfold is_u64; lia). by rewrite Hold.
Qed.

End Fat.

(** ** A program

    One segment of four bytes, followed by four bytes of zeros, at 120 bytes
    after 1 GiB. It lies at the start of device 0, and is open as descriptor 0 of
    the process at 512, which has one page of memory. *)

Section Example.

#[local] Instance disk : StorageDevices (list Z) := {
  sd_read_raw _ off n bytes := (n, Elf.slice bytes off n);
  sd_write _ _ _ _ bytes := (-1, bytes)
}.
#[local] Instance disk_drivers : Drivers (@Kernel.drivers (list Z)) := Kernel.kernel_drivers (fun n => replicate n 0) 0.

Definition program : list Z :=
  [0x7f; 69; 76; 70; 2; 1; 1; 0; 0; 0; 0; 0; 0; 0; 0; 0] ++
  [2; 0; 62; 0; 1; 0; 0; 0] ++ [0x78; 0; 0; 0x40; 0; 0; 0; 0] ++ [64; 0; 0; 0; 0; 0; 0; 0] ++ replicate 12 0 ++
  [64; 0; 56; 0; 1; 0; 0; 0; 0; 0; 0; 0] ++
  [1; 0; 0; 0; 6; 0; 0; 0] ++ [120; 0; 0; 0; 0; 0; 0; 0] ++ [0x78; 0; 0; 0x40; 0; 0; 0; 0] ++ [0x78; 0; 0; 0x40; 0; 0; 0; 0] ++
  [4; 0; 0; 0; 0; 0; 0; 0] ++ [8; 0; 0; 0; 0; 0; 0; 0] ++ [0; 16; 0; 0; 0; 0; 0; 0] ++ [144; 144; 235; 254].

Definition program_file : FileMetadata := make_meta Regular "init" (FatDriver 0) 124 0.
Definition program_drvs : @Kernel.drivers (list Z) :=
  Kernel.mkDrivers (Pipe.empty_driver 1) (Input.mkDriver [] [] (Store.mkStore ∅ 1))
    (Socket.mkDriver [] (Store.mkStore ∅ 1) (Store.mkStore ∅ 1)) [] ∅ program.

Definition old_region : Region := region 20480 36864 4096 7.
Definition runner : Process := with_CR3 4096 (with_Memories [old_region] new_process).
Definition runners : sched := with_procs (<[512 := runner]> (procs trio)) trio.
Definition files_before : Vfs.vfs := Vfs.mkVfs (Sparse.mkSparse [] []) [] (Store.mkStore {[ 1 := program_file ]} 2) [].

Definition opened : Vfs.vfs * sched :=
  match Vfs.add_file 1 512 files_before (program_drvs, runners) with
  | Done (_, v, (_, s)) => (v, s)
  | Stop _ => (files_before, runners)
  end.

(** A memory of 400 pages; a run is looked for in the first 64 of them. *)
Definition ten_frames : pmm := lock_pages 0 10 (mkPmm (Bits.init 64 0) 400 401 0 400 0).
Definition before_exec : Life.kernel (@Kernel.drivers (list Z)) :=
  Life.mkKernel opened.1 program_drvs opened.2 ten_frames four_mem zero_mem idle.

Lemma ten_frames_wf : pmm_wf ten_frames.
Proof. apply (lock_pages_spec 0 10); [apply (empty_pmm_wf 64 400 0); lia|unfold PAGE_SIZE; lia..]. Qed.

Lemma ten_wf : tree_wf four_mem ten_frames 4096.
Proof.
  eapply tree_wf_more; [apply four_wf|]. intros a (q & Hq & -> & Hl). exists q. split_and!; [done|done|].
  pose proof (locked_in_range _ _ Hl) as Hr. change (capacity four_frames) with 128 in Hr.
  revert Hl. assert (Hd : Forall (fun q => locked four_frames q = true -> locked ten_frames q = true) (seqZ 0 128)) by (apply (bool_decide_unpack _); vm_compute; done).
  rewrite Forall_forall in Hd. apply Hd, elem_of_seqZ. lia.
Qed.

Lemma program_executable : Elf.executable 0 opened.1 program_drvs opened.2 program.
Proof.
  apply (fat_file_executable (fun n => replicate n 0) 0 0 opened.1 program_drvs opened.2 program 1 program_file 0);
    [apply (bool_decide_unpack _); vm_compute; done|vm_compute; reflexivity|vm_compute; reflexivity|done|vm_compute; reflexivity|reflexivity|reflexivity|cbn; lia|].
  intros off n H0 H1 H2. reflexivity.
Qed.

Lemma before_exec_loading : Elf.loading 512 4096 0 program before_exec.
Proof. split; [apply ten_frames_wf|apply ten_wf|apply program_executable|]. eexists. vm_compute. reflexivity. Qed.

Definition segment : Elf.Elf64_Phdr := Elf.mkPhdr 1 6 120 0x40000078 0x40000078 4 8 4096.

Lemma program_segment : Elf.program_headers program (Elf.file_header program) = [segment].
Proof. vm_compute. reflexivity. Qed.

Lemma segment_in_file : Elf.in_file program segment.
Proof. split; [split; cbn; unfold PAGE_SIZE; lia|]. split; [cbn; lia|]. vm_compute. discriminate. Qed.

Lemma segment_is_loaded_witness :
  exists k' e, Elf.load_segment 512 4096 0 segment before_exec = Done (true, k') /\
    translate (Life.k_mem k') 4096 0x40000079 = Some e /\ read8 (Life.k_mem k') (Pde.address e + 121) = 144 /\ Pde.flag e ReadWrite = true.
Proof.
  destruct (request_pages (Elf.segment_pages segment) ten_frames) as [[pa fr1]|] eqn:E; [|by vm_compute in E].
  assert (Hpa : match request_pages (Elf.segment_pages segment) ten_frames with Done (pa, fr) => (pa =? 0) || (fa_avail fr <? 3) | Stop _ => true end = false)
    by (vm_compute; reflexivity).
  rewrite E in Hpa. apply orb_false_iff in Hpa as [Hpa Hav]. apply Z.eqb_neq in Hpa. apply Z.ltb_ge in Hav.
  destruct (Elf.segment_is_loaded 512 4096 0 program segment before_exec pa fr1) as (k' & El & S & _);
    [apply before_exec_loading|lia|apply segment_in_file|exact E|exact Hpa|exact Hav|].
  destruct (S 1) as (e & Ht & _ & Hr & _ & _ & Hw); [cbn; lia|]. exists k', e. split_and!; [exact El|exact Ht|exact Hr|exact Hw].
Defined.

(** What is loaded and where the stack will be. *)
Notation loaded_program := (Elf.load_headers 512 4096 0 [segment] Elf.stack_flags0 before_exec).

Lemma loaded_program_done : exists ok flags k1 b fr1, loaded_program = Done (ok, flags, k1) /\
  request_pages Elf.UserProcessStackSizePages (Life.k_frames k1) = Done (b, fr1) /\ b ≠ 0 /\ 12 <= fa_avail fr1 /\ b + 32768 <= 0x40000000.
Proof.
  assert (H : match loaded_program with
              | Done (_, _, k1) => match request_pages Elf.UserProcessStackSizePages (Life.k_frames k1) with
                                   | Done (b, fr1) => negb (b =? 0) && (12 <=? fa_avail fr1) && (b + 32768 <=? 0x40000000)
                                   | Stop _ => false
                                   end
              | Stop _ => false
              end = true) by (vm_compute; reflexivity).
  destruct loaded_program as [[[ok flags] k1]|]; [|discriminate H].
  destruct (request_pages Elf.UserProcessStackSizePages (Life.k_frames k1)) as [[b fr1]|] eqn:E; [|discriminate H].
  apply andb_true_iff in H as [H H3]. apply andb_true_iff in H as [H1 H2]. exists ok, flags, k1, b, fr1.
  split_and!; [reflexivity|exact E| |by apply Z.leb_le|by apply Z.leb_le]. intros ->. discriminate H1.
Qed.

Lemma program_starts_with_its_arguments_witness :
  exists k' p, Elf.LoadUserspaceElf64Process 512 4096 0 (Elf.file_header program) [[105; 110; 105; 116]] [] before_exec = Done (true, k') /\
    procs (Life.k_sched k') !! 512 = Some p /\ ip (Frame (CPU p)) = 0x40000078 /\ read64 (Life.k_mem k') (RSP (CPU p)) = 1 /\
    exists a, read64 (Life.k_mem k') (RSP (CPU p) + 8) = a /\ load_bytes (Life.k_mem k') a 5 = [105; 110; 105; 116; 0].
Proof.
  destruct loaded_program_done as (ok & flags & k1 & b & fr1 & El & Es & Hb & Hav & Htop).
  destruct (Elf.program_starts_with_its_arguments 512 4096 0 program (Elf.file_header program) [[105; 110; 105; 116]] [] before_exec ok flags k1 b fr1) as
    (k' & p & sp & E & Hp & Hsp & Hf & Sr & _);
    [apply before_exec_loading|lia|lia|vm_compute; reflexivity|vm_compute; discriminate|vm_compute; discriminate|vm_compute; discriminate
    |rewrite program_segment; apply Forall_singleton; intros _; apply segment_in_file|rewrite program_segment; repeat constructor
    |rewrite program_segment; exact El|exact Es|exact Hb|exact Hav|unfold Elf.UserProcessStackSize, Elf.UserProcessStackSizePages, PAGE_SIZE; lia
    |rewrite program_segment; apply Forall_singleton; intros _; right; change (Elf.first_page segment) with 262144; unfold PAGE_SIZE; dlia
    |apply (bool_decide_unpack _); vm_compute; done|constructor|vm_compute; discriminate|].
  exists k', p. rewrite Hsp. split_and!; [exact E|exact Hp|rewrite Hf; vm_compute; reflexivity|exact (Elf.st_argc _ _ _ _ (Elf.sr_started _ _ _ _ _ _ Sr))|].
  destruct (Elf.st_argv _ _ _ _ (Elf.sr_started _ _ _ _ _ _ Sr)) as (argv & Hw & Hs). apply Forall2_cons_inv_r in Hs as (a & l & Hh & _ & ->).
  exists a. split; [|exact Hh]. specialize (Hw 0%nat a eq_refl). by rewrite Z.add_0_r in Hw.
Defined.

Lemma old_region_mapped : Elf.mapped_region four_mem ten_frames 4096 old_region.
Proof.
  split; [split; [reflexivity|cbn; lia|vm_compute; discriminate|vm_compute; reflexivity|]|cbn; lia|vm_compute; discriminate| |].
  - intros q Hq. apply Life.elem_of_region_pages in Hq. change (paddr old_region / PAGE_SIZE) with 9 in Hq. change (pages old_region) with 1 in Hq.
    replace q with 9 by lia. vm_compute. reflexivity.
  - intros j Hj. change (pages old_region) with 1 in Hj. replace j with 0 by lia. eexists. vm_compute. reflexivity.
  - intros q p Hq Hp Hl Ht. apply Life.elem_of_region_pages in Hq. change (paddr old_region / PAGE_SIZE) with 9 in Hq. change (pages old_region) with 1 in Hq.
    destruct (four_root_tables p _ Hp Hl Ht) as [_ E]. unfold PAGE_SIZE in E. lia.
Qed.

Lemma old_program_is_given_up_witness :
  exists p k1, Elf.ReplaceUserspaceElf64Process (replicate 16 0) 512 0 [] before_exec = Elf.LoadUserspaceElf64Process 512 4096 0 (Elf.file_header program) [] [] k1 /\
    procs (Life.k_sched before_exec) !! 512 = Some p /\ Memories p = [old_region] /\
    locked (Life.k_frames before_exec) 9 = true /\ locked (Life.k_frames k1) 9 = false /\ translate (Life.k_mem k1) 4096 20480 = None.
Proof.
  destruct (procs opened.2 !! 512) as [p|] eqn:Hp; [|by vm_compute in Hp].
  assert (Hm : Memories p = [old_region] /\ CR3 p = 4096).
  { assert (H : (fun q => (Memories q, CR3 q)) <$> procs opened.2 !! 512 = Some ([old_region], 4096)) by (vm_compute; reflexivity). rewrite Hp in H. by injection H as -> ->. }
  destruct Hm as [Hm Hc].
  destruct (Elf.old_program_is_given_up (replicate 16 0) 0 program 512 p [] before_exec) as (k1 & E & _ & _ & _ & Hl & Hn & _);
    [rewrite Hc; apply before_exec_loading|exact Hp|reflexivity|vm_compute; lia|vm_compute; reflexivity
    |rewrite Hm, Hc; apply Forall_singleton, old_region_mapped|rewrite Hm; repeat constructor|rewrite Hm; apply (bool_decide_unpack _); vm_compute; done|].
  rewrite Hc in *. rewrite Hm in *. exists p, k1. split_and!; [exact E|exact Hp|exact Hm|vm_compute; reflexivity|rewrite Hl by lia; vm_compute; reflexivity|].
  apply Hn; [lia|]. exists old_region. split; [by apply list_elem_of_singleton|]. vm_compute. split; [discriminate|reflexivity].
Defined.

(** A file of zeros on the same device. *)
Definition other_system : Life.kernel (@Kernel.drivers (list Z)) :=
  Life.mkKernel opened.1 (Kernel.with_devices (replicate 124 0) program_drvs) opened.2 ten_frames four_mem zero_mem idle.

Lemma other_files_are_refused_witness :
  Elf.ReplaceUserspaceElf64Process (replicate 16 0) 512 0 [] other_system = Done (false, other_system).
Proof.
  apply (Elf.other_files_are_refused (replicate 16 0) 0 (replicate 124 0) 512 2048 [] other_system); [|reflexivity|vm_compute; lia|vm_compute; reflexivity].
  apply (fat_file_executable (fun n => replicate n 0) 0 0 opened.1 _ opened.2 _ 1 program_file 0);
    [apply (bool_decide_unpack _); vm_compute; done|vm_compute; reflexivity|vm_compute; reflexivity|done|vm_compute; reflexivity|reflexivity|reflexivity|cbn; lia|].
  intros off n H0 H1 H2. reflexivity.
Defined.

End Example.

End Programs.
