(* ===== verification/Syscalls.v ===== *)
(** * System calls

    Models the handlers of src/kernel/src/interrupts/syscalls.cpp that work on
    files, memory, processes, sockets and event queues, over the components
    they call.  [k_hw] holds the registers the caller was interrupted with
    (what [r11] points to); a handler that calls [Scheduler::yield] does not
    return to it.  Memory behind user pointers is [k_user]; structures behind
    pointers ([SocketAddress], [Event]) are passed along with the pointer. *)

From S2P Require Import Prelude PhysMem Bitmap FrameAlloc Paging PageMap PageClone LinkedList SparseVector RingBuffer Event Process Scheduler.
From S2P Require Import FileMeta PipeDriver InputDriver SocketDriver Utf Fat Vfs ProcessLife ForkMemory ElfLoader KernelDrivers.

Module Sys.

(** The [int] a wider value is returned as. *)
Definition to_int (z : Z) : Z := (z + 2 ^ 31) mod 2 ^ 32 - 2 ^ 31.

(** The bytes of the C string at [a]; without a NUL in the first [fuel] bytes
    the scan runs on. *)
Fixpoint c_string (fuel : nat) (m : mem) (a : Z) : outcome (list Z) :=
  match fuel with
  | O => Stop Hung
  | S f => if read8 m a =? 0 then Done [] else l ← c_string f m (a + 1); Done (read8 m a :: l)
  end.

(** The strings of the null-terminated array of pointers at [args]. *)
Fixpoint c_strings (fuel : nat) (m : mem) (args : Z) : outcome (list (list Z)) :=
  match fuel with
  | O => Stop Hung
  | S f =>
      if (args =? 0) || (read64 m args =? 0) then Done []
      else str ← c_string fuel m (read64 m args); l ← c_strings f m (args + 8); Done (str :: l)
  end.

Section Handlers.
Context {Dev : Type} `{!StorageDevices Dev} (fresh : nat -> list Z) (fuel : nat).
Context (fxsr_enabled : bool) (fx : fx_unit) (uninitialised : CPUState).

#[local] Existing Instance Socket.AddressType_eq_dec.
#[local] Instance sys_drivers : Drivers (@Kernel.drivers Dev) := Kernel.kernel_drivers fresh fuel.
Notation kern := (Life.kernel (@Kernel.drivers Dev)).
Implicit Types k : kern.

(** What a handler did: it returned a value, or yielded. *)
Definition result : Type := outcome (option Z * kern).
Definition returns (r : Z) (k : kern) : result := Done (Some r, k).

Definition yields (k : kern) : result :=
  '(hw, s) ← yield fxsr_enabled fx uninitialised (Life.k_hw k) (Life.k_sched k);
  Done (None, Life.with_hw hw (Life.with_sched s k)).

(** [Scheduler::CurrentProcess->value()] *)
Definition this_process (k : kern) : outcome Z := Vfs.current_process (Life.k_sched k).

Definition update_process (a : Z) (f : Process -> Process) (k : kern) : outcome kern :=
  s ← modify_proc a f (Life.k_sched k); Done (Life.with_sched s k).

(** [CurrentProcess->value()->valid_address(p)] *)
Definition valid_pointer (p : Z) (k : kern) : outcome bool :=
  a ← this_process k; q ← proc a (Life.k_sched k); Done (valid_address p q).

(** The registers of the caller go to its process, which sleeps. *)
Definition go_to_sleep (a : Z) (k : kern) : outcome kern :=
  update_process a (fun p => with_State SLEEPING (with_CPU (regs (Life.k_hw k)) p)) k.

(** [meta->offset += rc] *)
Definition advance_offset (a rc : Z) (k : kern) : outcome kern :=
  let v := Life.k_vfs k in
  meta ← Store.get a (Vfs.metas v);
  Done (Life.with_files (Vfs.with_metas (Store.put a (with_offset (offset meta +64 rc) meta) (Vfs.metas v)) v) (Life.files k) k).

(** ** Files *)

Definition sys0_open (path : Z) (k : kern) : result :=
  ok ← valid_pointer path k;
  if negb ok then returns FD_Invalid k
  else
    str ← c_string fuel (Life.k_user k) path;
    '(fds, v, ds) ← Vfs.open (string_of_bytes str) (Life.k_vfs k) (Life.files k);
    returns (Vfs.FProcess fds) (Life.with_files v ds k).

Definition sys1_close (fd : Z) (k : kern) : outcome kern :=
  '(_, v, ds) ← Vfs.close_current fd (Life.k_vfs k) (Life.files k);
  Done (Life.with_files v ds k).

(** The handler's own shared pointer to the file stays on the stack of a call
    that does not come back from [yield]. *)
Definition sys2_read (fd buffer byteCount : Z) (k : kern) : result :=
  ok ← valid_pointer buffer k;
  if negb ok then returns 0 k
  else
    a ← Vfs.file_current fd (Life.k_vfs k) (Life.k_sched k);
    meta ← Store.get a (Vfs.metas (Life.k_vfs k));
    if FileSize meta <=? offset meta then returns 0 k
    else
      let byteCount := if FileSize meta <? offset meta +64 byteCount then FileSize meta -64 offset meta else byteCount in
      process ← this_process k;
      '(rc, ds, um) ← Vfs.read fd buffer byteCount 0 (Life.k_vfs k) (Life.files k) (Life.k_user k);
      let k := Life.with_user um (Life.with_files (Life.k_vfs k) ds k) in
      if rc =? -2 then k ← go_to_sleep process k; yields (Life.with_files (Vfs.hold a (Life.k_vfs k)) (Life.files k) k)
      else
        k ← (if 0 <? rc then advance_offset a rc k else Done k);
        returns (to_int rc) k.

Definition sys3_write (fd buffer byteCount : Z) (k : kern) : result :=
  ok ← valid_pointer buffer k;
  if negb ok then returns 0 k
  else
    process ← this_process k;
    k ← update_process process (with_CPU (regs (Life.k_hw k))) k;
    '(rc, ds) ← Vfs.write fd buffer byteCount 0 (Life.k_vfs k) (Life.files k) (Life.k_user k);
    let k := Life.with_files (Life.k_vfs k) ds k in
    if rc =? -2 then
      process ← this_process k;
      k ← update_process process (with_State SLEEPING) k; yields k
    else
      k ← (if 0 <? rc then a ← Vfs.file_current fd (Life.k_vfs k) (Life.k_sched k); advance_offset a rc k else Done k);
      returns (to_int rc) k.

Definition sys12_repfd (fd replaced : Z) (k : kern) : outcome kern :=
  process ← this_process k;
  '(_, v, ds) ← Vfs.dup2 process fd replaced (Life.k_vfs k) (Life.files k);
  Done (Life.with_files v ds k).

Definition sys16_dup (fd : Z) (k : kern) : result :=
  process ← this_process k;
  '(fds, v, ds) ← Vfs.dup process fd (Life.k_vfs k) (Life.files k);
  returns (Vfs.FProcess fds) (Life.with_files v ds k).

(** A new file: its metadata goes to the store and to the tables of [process]. *)
Definition add_new_file (f : FileMetadata) (process : Z) (k : kern) : outcome (Vfs.FileDescriptors * kern) :=
  let '(a, ms) := Store.new f (Vfs.metas (Life.k_vfs k)) in
  '(fds, v, ds) ← Vfs.add_file a process (Vfs.with_metas ms (Life.k_vfs k)) (Life.files k);
  Done (fds, Life.with_files v ds k).

Definition with_drivers (d : @Kernel.drivers Dev) (k : kern) : kern :=
  Life.with_files (Life.k_vfs k) (d, Life.k_sched k) k.

Definition sys13_pipe (fds : Z) (k : kern) : result :=
  process ← this_process k;
  ok ← valid_pointer fds k;
  if negb ok then returns (-1) k
  else
    let '(readEnd, writeEnd, pipes) := Pipe.lay_pipe (Kernel.pipes (Life.k_drivers k)) in
    let k := with_drivers (Kernel.with_pipes pipes (Life.k_drivers k)) k in
    '(readFDs, k) ← add_new_file readEnd process k;
    '(writeFDs, k) ← add_new_file writeEnd process k;
    let um := write64 (Life.k_user k) fds (Vfs.FProcess readFDs) in
    let um := write64 um (fds + 8) (Vfs.FProcess writeFDs) in
    returns 0 (Life.with_user um k).

Definition SEEK_CUR : Z := 0.
Definition SEEK_END : Z := 1.
Definition SEEK_SET : Z := 2.

Definition set_offset (a x : Z) (k : kern) : outcome kern :=
  let v := Life.k_vfs k in
  meta ← Store.get a (Vfs.metas v);
  Done (Life.with_files (Vfs.with_metas (Store.put a (with_offset x meta) (Vfs.metas v)) v) (Life.files k) k).

(** [offset] is signed; adding it to an unsigned value converts it. *)
Definition sys14_seek (fd offs whence : Z) (k : kern) : result :=
  a ← Vfs.file_current fd (Life.k_vfs k) (Life.k_sched k);
  if a =? 0 then returns 1 k
  else
    file ← Store.get a (Vfs.metas (Life.k_vfs k));
    if whence =? SEEK_CUR then
      if offs =? 0 then returns 0 k
      else
        let current_offset := offset file in
        if (offs <? 0) && (current_offset <? wrap64 (- offs)) then returns 1 k
        else if FileSize file <? current_offset +64 offs then returns 1 k
        else k ← set_offset a (offset file +64 offs) k; returns 0 k
    else if whence =? SEEK_END then
      if 0 <? offs then returns 1 k
      else k ← set_offset a (FileSize file +64 offs) k; returns 0 k
    else if whence =? SEEK_SET then
      if offs <? 0 then returns 1 k
      else if FileSize file <=? offs then returns 1 k
      else k ← set_offset a offs k; returns 0 k
    else returns 1 k.

Definition sys15_pwd (buffer numBytes : Z) (k : kern) : result :=
  if (buffer =? 0) || (numBytes =? 0) then returns 0 k
  else
    a ← this_process k;
    p ← proc a (Life.k_sched k);
    let cwd := bytes_of_string (WorkingDirectory p) in
    let size := Z.of_nat (length cwd) in
    let entire := size <? numBytes in
    let byteCount := if entire then size + 1 else numBytes in
    let um := store_bytes buffer (take (Z.to_nat byteCount) (cwd ++ [0])) (Life.k_user k) in
    let um := write8 um (buffer + byteCount - 1) 0 in
    returns (if entire then 1 else 0) (Life.with_user um k).

Definition sys25_directory_data (path dirp count : Z) (k : kern) : result :=
  if count =? 0 then returns 0 k
  else
    ok ← valid_pointer path k;
    if negb ok then returns (-1) k
    else
      ok ← valid_pointer dirp k;
      if negb ok then returns (-1) k
      else
        str ← c_string fuel (Life.k_user k) path;
        '(rc, um) ← Vfs.directory_data (string_of_bytes str) count dirp (Life.k_vfs k) (Life.k_drivers k) (Life.k_user k);
        returns (to_int rc) (Life.with_user um k).

(** ** Memory *)

Definition pages_of (size : Z) : Z := if size mod PAGE_SIZE =? 0 then size / PAGE_SIZE else 1 + size / PAGE_SIZE.

Definition map_flags : Z := Z.lor (Z.lor (Z.lor 0 (flag_value Present)) (flag_value UserSuper)) (flag_value ReadWrite).

Definition sys6_map (address size flags : Z) (k : kern) : result :=
  process ← this_process k;
  let count := pages_of size in
  '(pa, fr) ← request_pages count (Life.k_frames k);
  p ← proc process (Life.k_sched k);
  let '(address, p') :=
    if address =? 0 then
      (next_region_vaddr p, with_next_region_vaddr (next_region_vaddr p +64 (count *64 PAGE_SIZE)) p)
    else (address, p) in
  k ← update_process process (fun _ => add_memory_region address pa size map_flags p') k;
  st ← map_pages (CR3 p) address pa map_flags count (Life.k_mem k, fr);
  returns address (Life.with_memory st k).

Definition sys7_unmap (address : Z) (k : kern) : outcome kern :=
  process ← this_process k;
  p ← proc process (Life.k_sched k);
  match List.find (fun r => vaddr r =? address) (Memories p) with
  | None => Done k
  | Some r =>
      let m := unmap_pages (CR3 p) address (pages r) (Life.k_mem k) in
      let fr := free_pages (paddr r) (pages r) (Life.k_frames k) in
      update_process process (remove_memory_region address) (Life.with_memory (m, fr) k)
  end.

(** ** Processes *)

Definition sys5_exit (status : Z) (k : kern) : result :=
  a ← this_process k;
  p ← proc a (Life.k_sched k);
  '(_, k) ← Life.remove_process (ProcessID p) status k;
  yields k.

Definition sys9_waitpid (pid : Z) (k : kern) : result :=
  this ← this_process k;
  p ← proc this (Life.k_sched k);
  match list_find (fun z => ZombiePID z = pid) (Zombies p) with
  | Some (i, z) =>
      k ← update_process this (with_Zombies (delete i (Zombies p))) k;
      returns (ReturnStatus z) k
  | None =>
      a ← process pid (Life.k_sched k);
      if a =? 0 then returns (-1) k
      else
        k ← update_process a (fun q => with_WaitingList (WaitingList q ++ [ProcessID p]) q) k;
        k ← go_to_sleep this k;
        yields k
  end.

Definition with_RSP (x : Z) (c : CPUState) : CPUState :=
  mkCPU x (RBX c) (RCX c) (RDX c) (RSI c) (RDI c) (RBP c) (R8 c) (R9 c) (R10 c) (R11 c) (R12 c)
    (R13 c) (R14 c) (R15 c) (FS c) (GS c) (RAX c) (Frame c).

(** [newProcess] is the address the new object gets. *)
Definition sys10_fork (newProcess : Z) (k : kern) : result :=
  process ← this_process k;
  let cpu := with_RSP (sp (Frame (regs (Life.k_hw k)))) (regs (Life.k_hw k)) in
  let k := Life.with_hw (mkMachine cpu (fpu (Life.k_hw k)) (vm (Life.k_hw k))) k in
  k ← update_process process (with_CPU cpu) k;
  '(cpid, k) ← Life.CopyUserspaceProcess process newProcess k;
  returns cpid k.

(** A process that could not be replaced sleeps; the value says whether the
    handler returned. *)
Definition sys11_exec (uninitialised_ident : list Z) (path args : Z) (k : kern) : outcome (bool * kern) :=
  if path =? 0 then Done (true, k)
  else
    process ← this_process k;
    str ← c_string fuel (Life.k_user k) path;
    '(fds, v, ds) ← Vfs.open (string_of_bytes str) (Life.k_vfs k) (Life.files k);
    let k := Life.with_files v ds k in
    if negb (Vfs.fds_valid fds) then Done (true, k)
    else
      k ← update_process process (fun p => with_paths (string_of_bytes str) (WorkingDirectory p) p) k;
      strs ← c_strings fuel (Life.k_user k) args;
      '(success, k) ← Elf.ReplaceUserspaceElf64Process uninitialised_ident process (Vfs.FProcess fds) (str :: strs) k;
      if negb success then
        k ← update_process process (with_State SLEEPING) k;
        '(_, k) ← yields k; Done (false, k)
      else
        k ← sys1_close (Vfs.FProcess fds) k;
        p ← proc process (Life.k_sched k);
        '(_, k) ← yields (Life.with_hw (mkMachine (CPU p) (fpu (Life.k_hw k)) (vm (Life.k_hw k))) k);
        Done (false, k).

(** ** Sockets *)

Definition sockets_of (k : kern) : Socket.SocketDriver := Kernel.sockets (Life.k_drivers k).
Definition with_sockets (so : Socket.SocketDriver) (k : kern) : kern := with_drivers (Kernel.with_sockets so (Life.k_drivers k)) k.

(** [file->driver_data()] taken for a socket's data: another driver's is not. *)
Definition socket_data (a : Z) (k : kern) : outcome Z :=
  file ← Store.get a (Vfs.metas (Life.k_vfs k));
  if decide (FileDriver file = Some SocketsDriver) then Done (DriverData file) else Stop Undefined.

Definition update_socket (data : Z) (f : Socket.SocketData -> Socket.SocketData) (k : kern) : outcome kern :=
  let so := sockets_of k in
  d ← Store.get data (Socket.datas so);
  Done (with_sockets (Socket.with_datas (Store.put data (f d) (Socket.datas so)) so) k).

Definition sys18_socket (domain : Socket.SocketType) (type protocol : Z) (k : kern) : result :=
  '(socket, so) ← Socket.socket domain type protocol (sockets_of k) (Life.k_sched k);
  match socket with
  | None => returns FD_Invalid k
  | Some f =>
      let k := with_sockets so k in
      process ← this_process k;
      '(fds, k) ← add_new_file f process k;
      k ← update_socket (DriverData f) (Socket.with_SFD (Vfs.FProcess fds)) k;
      returns (Vfs.FProcess fds) k
  end.

Definition sys19_bind (socketFD pointer : Z) (address : Socket.SocketAddress) (k : kern) : result :=
  ok ← valid_pointer pointer k;
  if negb ok then returns (-1) k
  else
    a ← Vfs.file_current socketFD (Life.k_vfs k) (Life.k_sched k);
    if a =? 0 then returns (-1) k
    else
      data ← socket_data a k;
      '(bound, so) ← Socket.bind data address (sockets_of k);
      if negb bound then returns (-1) k else returns 0 (with_sockets so k).

Definition sys20_listen (socketFD backlog : Z) (k : kern) : result :=
  a ← Vfs.file_current socketFD (Life.k_vfs k) (Life.k_sched k);
  if a =? 0 then returns (-1) k
  else
    data ← socket_data a k;
    d ← Store.get data (Socket.datas (sockets_of k));
    if decide (Socket.AType (Socket.Address d) = Socket.UNBOUND) then returns (-1) k
    else k ← update_socket data (Socket.with_ClientServer Socket.SERVER) k; returns 0 k.

Definition sys21_connect (socketFD pointer : Z) (address : Socket.SocketAddress) (k : kern) : result :=
  process ← this_process k;
  p ← proc process (Life.k_sched k);
  if negb (valid_address pointer p) then returns (-1) k
  else
    a ← Vfs.file_current socketFD (Life.k_vfs k) (Life.k_sched k);
    if a =? 0 then returns (-1) k
    else
      data ← socket_data a k;
      d ← Store.get data (Socket.datas (sockets_of k));
      match Socket.ClientServer d with
      | Socket.SERVER => returns (-1) k
      | Socket.CLIENT =>
          let server := Socket.get_bound_socket address (sockets_of k) in
          if server =? 0 then returns (-1) k
          else
            sd ← Store.get server (Socket.datas (sockets_of k));
            serverProcess ← Scheduler.process (Socket.SPID sd) (Life.k_sched k);
            if serverProcess =? 0 then returns (-1) k
            else
              k ← update_socket server
                    (fun x => Socket.with_Queue (Socket.ConnectionQueue x ++ [Socket.mkConnection (Socket.Address d) data (ProcessID p)]) x) k;
              s ← notify_process (mkEvent READY_TO_READ (Socket.SFD sd) (Data no_event)) serverProcess (Life.k_sched k);
              s ← (if Socket.WaitingOnConnection sd then modify_proc serverProcess (unblock true RET_RETRY) s else Done s);
              returns 0 (Life.with_sched s k)
      end.

(** The branch of [accept] that takes a waiting connection off the queue. *)
Definition accept_connection (data : Z) (connexion : Socket.SocketConnection) (rest : list Socket.SocketConnection) (k : kern) : result :=
  k ← update_socket data (Socket.with_Queue rest) k;
  client ← Store.get (Socket.CSocket connexion) (Socket.datas (sockets_of k));
  clientProcess ← Scheduler.process (Socket.SPID client) (Life.k_sched k);
  if clientProcess =? 0 then returns FD_Invalid k
  else
    let so := sockets_of k in
    so ← match Socket.SType client with
         | Socket.LENSOR =>
             b ← Store.get (Socket.SData client) (Socket.sbuffers so);
             let b := Socket.mkBuffers (Socket.TXBuffer b) (Socket.RXBuffer b) (Socket.RefCount b +64 1) in
             Done (Socket.with_sbuffers (Store.put (Socket.SData client) b (Socket.sbuffers so)) so)
         end;
    let '(copy, ds) := Store.new (Socket.with_ClientServer Socket.SERVER client) (Socket.datas so) in
    let k := with_sockets (Socket.with_datas ds so) k in
    let f := make_meta Regular "client_socket" SocketsDriver Socket.SOCKET_RX_BUFFER_SIZE copy in
    '(fds, k) ← add_new_file f 0 k;
    if negb (Vfs.fds_valid fds) then returns FD_Invalid k else returns (Vfs.FProcess fds) k.

Definition sys22_accept (socketFD address addressLength : Z) (k : kern) : result :=
  process ← this_process k;
  p ← proc process (Life.k_sched k);
  if negb (valid_address address p) || negb (valid_address addressLength p) then returns FD_Invalid k
  else
    a ← Vfs.file_current socketFD (Life.k_vfs k) (Life.k_sched k);
    if a =? 0 then returns FD_Invalid k
    else
      data ← socket_data a k;
      if data =? 0 then returns FD_Invalid k
      else
        d ← Store.get data (Socket.datas (sockets_of k));
        match Socket.ConnectionQueue d with
        | connexion :: rest => accept_connection data connexion rest k
        | [] =>
            k ← update_socket data (Socket.with_Waiting true) k;
            k ← update_process process
                  (fun p => with_State SLEEPING (set_return_value FD_Invalid (with_CPU (regs (Life.k_hw k)) p))) k;
            yields k
        end.

(** ** Event queues *)

Definition sys23_kqueue (k : kern) : result :=
  a ← this_process k;
  p ← proc a (Life.k_sched k);
  let handle := match last (EventQueues p) with None => 1 | Some q => to_int (ID q + 1) end in
  k ← (if handle =? -1 then Done k
       else update_process a (with_EventQueues (EventQueues p ++ [new_queue handle (2 ^ 64 - 1)])) k);
  returns handle k.

Fixpoint register_all (changes : list (EventType * Z)) (q : EventQueue) (m : EventManager) : EventQueue * EventManager :=
  match changes with
  | [] => (q, m)
  | (e, f) :: changes => let '(q, m) := register_listening e f q m in register_all changes q m
  end.

(** At most [max] events, and what is left of the queue. *)
Fixpoint pop_events (max : nat) (q : EventQueue) : outcome (list Event * EventQueue) :=
  match max with
  | O => Done ([], q)
  | S max =>
      if has_events q then '(e, q) ← pop q; '(es, q) ← pop_events max q; Done (e :: es, q)
      else Done ([], q)
  end.

(** [changes] are the entries of [changelist]; the events stored to [eventlist]
    are returned with the result. *)
Definition sys24_kevent (handle changelist : Z) (changes : list (EventType * Z)) (eventlist maxEvents : Z) (k : kern) :
    outcome (Z * list Event * kern) :=
  if handle =? -1 then Done (-1, [], k)
  else
    a ← this_process k;
    p ← proc a (Life.k_sched k);
    if negb (length changes =? 0)%nat && negb (valid_address changelist p) then Done (-1, [], k)
    else if negb (maxEvents =? 0) && negb (valid_address eventlist p) then Done (-1, [], k)
    else
      match list_find (fun q => ID q = handle) (EventQueues p) with
      | None => Stop Undefined
      | Some (i, q) =>
          let '(q, m) := register_all changes q (gEvents (Life.k_sched k)) in
          let k := Life.with_sched (with_gEvents m (Life.k_sched k)) k in
          let '(rc, es_q) := if has_events q then (0, pop_events (Z.to_nat maxEvents) q) else (-1, Done ([], q)) in
          '(es, q) ← es_q;
          k ← update_process a (with_EventQueues (<[i := q]> (EventQueues p))) k;
          Done (rc, es, k)
      end.

(** ** The offset of an open file *)

(** [fd] of the running process is open on the file at [a]. *)
Record open_here (k : kern) (fd a : Z) (file : FileMetadata) : Prop := {
  oh_file : Vfs.file_current fd (Life.k_vfs k) (Life.k_sched k) = Done a;
  oh_nonnull : a ≠ 0;
  oh_meta : Store.objs (Vfs.metas (Life.k_vfs k)) !! a = Some file
}.

(** The kernel with another offset for the file at [a]. *)
Definition at_offset (a x : Z) (file : FileMetadata) (k : kern) : kern :=
  Life.with_files (Vfs.with_metas (Store.put a (with_offset x file) (Vfs.metas (Life.k_vfs k))) (Life.k_vfs k)) (Life.files k) k.

Lemma set_offset_spec k a x file :
  Store.objs (Vfs.metas (Life.k_vfs k)) !! a = Some file -> set_offset a x k = Done (at_offset a x file k).
Proof. intros H. unfold set_offset, Store.get. by rewrite H. Qed.

(** Where a seek goes, relative to the beginning of the file. *)
Definition seek_target (file : FileMetadata) (offs whence : Z) : Z :=
  if whence =? SEEK_CUR then offset file + offs else if whence =? SEEK_END then FileSize file + offs else offs.

(** What a seek accepts: the end itself is reached from the current position or
    from the end, not from the beginning. *)
Definition seek_accepts (file : FileMetadata) (offs whence : Z) : bool :=
  let t := seek_target file offs whence in
  if whence =? SEEK_CUR then (offs =? 0) || ((0 <=? t) && (t <=? FileSize file))
  else if whence =? SEEK_END then offs <=? 0
  else if whence =? SEEK_SET then (0 <=? t) && (t <? FileSize file)
  else false.

Lemma seek_spec k fd a file offs whence :
  open_here k fd a file -> 0 <= offset file < 2 ^ 63 -> 0 <= FileSize file < 2 ^ 63 -> - 2 ^ 63 <= offs < 2 ^ 63 ->
  sys14_seek fd offs whence k =
  if seek_accepts file offs whence then returns 0 (at_offset a (wrap64 (seek_target file offs whence)) file k) else returns 1 k.
Proof.
  intros [Hf H0 Hm] Ho Hs Hr. unfold sys14_seek. rewrite Hf. cbn [mbind outcome_bind]. rewrite (proj2 (Z.eqb_neq a 0) H0).
  unfold Store.get. rewrite Hm. cbn [deref mbind outcome_bind]. unfold seek_accepts, seek_target.
  assert (Hsame : at_offset a (wrap64 (offset file)) file k = k).
  { unfold at_offset. rewrite wrap64_small by (unfold is_u64; lia). replace (with_offset (offset file) file) with file by (by destruct file).
    rewrite Store.put_get by done. destruct k as [v d s fr m um hw]. by destruct v. }
  destruct (whence =? SEEK_CUR).
  - destruct (Z.eqb_spec offs 0) as [->|Hne]; cbn [orb]; [by rewrite Z.add_0_r, Hsame|].
    destruct (Z.ltb_spec offs 0) as [Hneg|Hpos]; cbn [andb].
    + rewrite wrap64_small by (unfold is_u64; lia). destruct (Z.ltb_spec (offset file) (- offs)) as [Hb|Hb].
      * rewrite (proj2 (Z.leb_gt 0 _)) by lia. done.
      * rewrite (proj2 (Z.leb_le 0 _)) by lia. rewrite wrap64_small by (unfold is_u64; lia). rewrite <- Z.leb_antisym || rewrite Z.ltb_antisym.
        destruct (Z.leb_spec (offset file + offs) (FileSize file)); cbn; [|done]. by rewrite (set_offset_spec k a _ file Hm).
    + rewrite (proj2 (Z.leb_le 0 _)) by lia. rewrite wrap64_small by (unfold is_u64; lia). rewrite Z.ltb_antisym.
      destruct (Z.leb_spec (offset file + offs) (FileSize file)); cbn; [|done]. by rewrite (set_offset_spec k a _ file Hm).
  - destruct (whence =? SEEK_END).
    + rewrite Z.ltb_antisym. destruct (Z.leb_spec offs 0); cbn; [|done]. by rewrite (set_offset_spec k a _ file Hm).
    + destruct (whence =? SEEK_SET); [|done]. destruct (Z.ltb_spec offs 0) as [Hneg|Hpos].
      * by rewrite (proj2 (Z.leb_gt 0 _)) by lia.
      * rewrite (proj2 (Z.leb_le 0 _)) by lia. rewrite Z.ltb_antisym. destruct (Z.leb_spec (FileSize file) offs); cbn; [done|].
        rewrite (set_offset_spec k a _ file Hm). by rewrite wrap64_small by (unfold is_u64; lia).
Qed.

(** ** Memory *)

Lemma pages_of_region va pa size f : pages (region va pa size f) = pages_of size.
Proof. done. Qed.

(** The process the handlers work for. *)
Definition running_here (k : kern) (a : Z) (p : Process) : Prop := this_process k = Done a /\ procs (Life.k_sched k) !! a = Some p.

Lemma update_running k a p f : running_here k a p ->
  exists k', update_process a f k = Done k' /\ running_here k' a (f p) /\ k' = Life.with_sched (Life.k_sched k') k /\
    Life.k_sched k' = with_procs (<[a := f p]> (procs (Life.k_sched k))) (Life.k_sched k).
Proof.
  intros [Ht Hp]. unfold update_process. rewrite (Life.modify_known a f _ p Hp). cbn [mbind outcome_bind].
  eexists. split; [reflexivity|]. split; [|done]. split; [exact Ht|]. cbn. by rewrite lookup_insert_eq.
Qed.

(** Where [map] puts the memory. *)
Definition map_address (address : Z) (p : Process) : Z := if address =? 0 then next_region_vaddr p else address.
Definition map_process (address pa size : Z) (p : Process) : Process :=
  add_memory_region (map_address address p) pa size map_flags
    (if address =? 0 then with_next_region_vaddr (next_region_vaddr p +64 (pages_of size *64 PAGE_SIZE)) p else p).

Lemma map_memories address pa size p :
  Memories (map_process address pa size p) = region (map_address address p) pa size map_flags :: Memories p /\ CR3 (map_process address pa size p) = CR3 p.
Proof. unfold map_process. by destruct (address =? 0). Qed.

Lemma sys6_map_spec k a p address size flags pa fr :
  running_here k a p -> pmm_wf (Life.k_frames k) -> tree_wf (Life.k_mem k) (Life.k_frames k) (CR3 p) -> CR3 p ≠ 0 -> 0 < size ->
  0 <= map_address address p -> map_address address p mod PAGE_SIZE = 0 -> map_address address p + pages_of size * PAGE_SIZE <= 2 ^ 48 ->
  request_pages (pages_of size) (Life.k_frames k) = Done (pa, fr) -> pa ≠ 0 -> 3 * pages_of size <= fa_avail fr ->
  exists k', sys6_map address size flags k = Done (Some (map_address address p), k') /\ run_got (Life.k_frames k) fr pa (pages_of size) /\
    pages_mapped (Life.k_mem k) (Life.k_mem k') fr (Life.k_frames k') (CR3 p) (map_address address p) pa map_flags (pages_of size) /\
    running_here k' a (map_process address pa size p).
Proof.
  intros Hr W T H0 Hs Hv0 Hva Hvt Hreq Hpa Hav. pose proof Hr as [Ht Hp].
  assert (Hn : 1 <= pages_of size) by (pose proof (region_pages 0 0 size 0 ltac:(lia)) as Hrp; rewrite pages_of_region in Hrp; unfold PAGE_SIZE in Hrp; lia).
  pose proof (request_pages_run _ _ _ _ W Hn Hreq Hpa) as G.
  destruct (map_pages_spec (CR3 p) (map_address address p) pa map_flags (pages_of size) (Life.k_mem k) fr) as (m' & fr' & Em & PM);
    [apply G|eapply tree_wf_more; [exact T|intros x Hx; by eapply run_got_owned]|done|reflexivity|done|done|done|apply G|apply G|apply G|lia|done|].
  destruct (update_running k a p (fun _ => map_process address pa size p) Hr) as (k1 & E1 & R1 & Ek & _).
  exists (Life.with_memory (m', fr') k1). split_and!; [|done|exact PM|exact R1].
  unfold sys6_map. rewrite Ht. cbn [mbind outcome_bind]. rewrite Hreq. cbn [mbind outcome_bind]. rewrite (Life.proc_known a _ p Hp). cbn [mbind outcome_bind].
  unfold map_process, map_address in *. destruct (address =? 0); rewrite E1; cbn [mbind outcome_bind]; rewrite Ek; cbn [Life.k_mem Life.with_sched]; rewrite Em; done.
Qed.

Lemma sys7_unmap_spec k a p r rest :
  running_here k a p -> Memories p = r :: rest -> pmm_wf (Life.k_frames k) -> tree_wf (Life.k_mem k) (Life.k_frames k) (CR3 p) ->
  Life.region_held (Life.k_frames k) r -> 0 <= vaddr r -> vaddr r mod PAGE_SIZE = 0 -> vaddr r + pages r * PAGE_SIZE <= 2 ^ 48 ->
  (forall j, 0 <= j < pages r -> is_Some (translate (Life.k_mem k) (CR3 p) (vaddr r + j * PAGE_SIZE))) ->
  exists k', sys7_unmap (vaddr r) k = Done k' /\ running_here k' a (with_Memories rest p) /\
    pages_unmapped (Life.k_mem k) (Life.k_mem k') (Life.k_frames k) (CR3 p) (vaddr r) (pages r) /\ pmm_wf (Life.k_frames k') /\
    forall q, 0 <= q -> locked (Life.k_frames k') q = locked (Life.k_frames k) q && negb (bool_decide (q ∈ Life.region_pages r)).
Proof.
  intros Hr Hm W T Hh Hv0 Hva Hvt Htr. destruct Hr as [Ht Hp]. pose proof (Life.rh_count _ _ Hh) as Hc.
  set (m' := unmap_pages (CR3 p) (vaddr r) (pages r) (Life.k_mem k)). set (fr' := free_pages (paddr r) (pages r) (Life.k_frames k)).
  destruct (update_running (Life.with_memory (m', fr') k) a p (remove_memory_region (vaddr r))) as (k' & E & R & Ek & _); [done|].
  pose proof (Life.free_region_spec r _ W Hh) as [W' Hl].
  exists k'. split_and!.
  - unfold sys7_unmap. rewrite Ht. cbn [mbind outcome_bind]. rewrite (Life.proc_known a _ p Hp). cbn [mbind outcome_bind].
    rewrite Hm. cbn [List.find]. rewrite Z.eqb_refl. exact E.
  - replace (with_Memories rest p) with (remove_memory_region (vaddr r) p); [done|].
    unfold remove_memory_region. rewrite Hm. cbn. by rewrite Z.eqb_refl.
  - rewrite Ek. cbn. by apply unmap_pages_spec.
  - rewrite Ek. exact W'.
  - rewrite Ek. exact Hl.
Qed.

(** ** New files *)

#[local] Instance sys_laws : DriverLaws (@Kernel.drivers Dev) := Kernel.kernel_laws fresh fuel.

Definition files_ok (k : kern) : Prop := Vfs.ok None (Life.k_vfs k) (Life.k_drivers k) (Life.k_sched k).
Definition opened (k : kern) (a fd : Z) : option Z := Vfs.open_file (Life.k_vfs k) (Life.k_sched k) a fd.
Definition meta_at (k : kern) (f : Z) : option FileMetadata := Store.objs (Vfs.metas (Life.k_vfs k)) !! f.
Definition next_file (k : kern) : Z := Store.brk (Vfs.metas (Life.k_vfs k)).

(** Room for [n] more descriptors in the tables. *)
Definition room (n : Z) (k : kern) (p : Process) : Prop :=
  Sparse.allocated_size (Vfs.Files (Life.k_vfs k)) + n < 2 ^ 64 /\ Sparse.allocated_size (Process.FileDescriptors p) + n < 2 ^ 64.

(** The running process [a] got [f] under the new descriptor [fd]. *)
Record file_added (k k' : kern) (a : Z) (p : Process) (f : FileMetadata) (fd : Z) (p' : Process) : Prop := {
  fa_ok : files_ok k';
  fa_fd : 0 <= fd < 2 ^ 64 - 1;
  fa_unused : opened k a fd = None;
  fa_opened b g : 0 <= g -> opened k' b g = if decide (b = a /\ g = fd) then Some (next_file k) else opened k b g;
  fa_meta x : meta_at k' x = if decide (x = next_file k) then Some f else meta_at k x;
  fa_next : next_file k' = next_file k + 1 /\ 0 < next_file k;
  fa_process : running_here k' a p';
  fa_tables : p' = with_FileDescriptors (Process.FileDescriptors p') p;
  fa_rest : Life.k_drivers k' = Life.k_drivers k /\ Life.k_user k' = Life.k_user k /\ Life.k_hw k' = Life.k_hw k;
  fa_queue ns ps : queue_ok (Life.k_sched k) ns ps -> queue_ok (Life.k_sched k') ns ps;
  fa_room n : room (n + 1) k p -> room n k' p'
}.

Lemma add_new_file_spec f a p k :
  files_ok k -> Kernel.kernel_ok (Life.k_drivers k) (<[next_file k := f]> (Store.objs (Vfs.metas (Life.k_vfs k)))) ->
  running_here k a p -> a ≠ 0 -> room 1 k p ->
  exists fds k' p', add_new_file f a k = Done (fds, k') /\ file_added k k' a p f (Vfs.FProcess fds) p'.
Proof.
  intros O K [Ht Hp] Ha [R1 R2]. unfold add_new_file. cbn [Store.new]. fold (next_file k).
  set (ms := Store.mkStore (<[next_file k := f]> (Store.objs (Vfs.metas (Life.k_vfs k)))) (next_file k + 1)).
  set (v1 := Vfs.with_metas ms (Life.k_vfs k)).
  pose proof (Kernel.new_meta_ok f (Vfs.metas (Life.k_vfs k)) (Vfs.ok_metas _ _ _ _ O)) as (Wm & Hn0 & Hnone & Hsome & Hsame).
  cbn [Store.new fst snd] in *. fold (next_file k) in *. fold ms in Wm, Hsome, Hsame.
  assert (O1 : Vfs.ok (Some (next_file k)) v1 (Life.k_drivers k) (Life.k_sched k)).
  { split; cbn [v1 Vfs.with_metas Vfs.Files Vfs.metas]; try apply O; [done| |exact K].
    intros c. destruct (decide (c = next_file k)) as [->|Hne].
    - split; [intros _; split; [done|by right]|done].
    - rewrite Hsame, (Vfs.ok_refs _ _ _ _ O) by done. split; intros [Hc Hor]; (split; [done|]); [naive_solver|].
      destruct Hor as [?|[= Hx]]; [by left|congruence]. }
  destruct (Vfs.add_file_spec (next_file k) a v1 (Life.k_drivers k) (Life.k_sched k) p O1 Hn0 Hp ltac:(cbn; lia) a) as
    (procfd & fd & v' & s' & E & O' & Em & HQ & Hp0 & Hno & R); [by rewrite (proj2 (Z.eqb_neq a 0) Ha)|].
  unfold Life.files. rewrite E. cbn [mbind outcome_bind].
  destruct (Vfs.add_file_effect (next_file k) a v1 (Life.k_drivers k) (Life.k_sched k) p _ _ _ Ha Hp (Vfs.ok_tables _ _ _ _ O a p Hp) E) as
    (s2 & x & [= <-] & T & Hp' & Hother & Hle & Hsz & Hsz2).
  { cbn. unfold Vfs.add_file in E. rewrite (proj2 (Z.eqb_neq a 0) Ha) in E. cbn [mbind outcome_bind] in E.
    destruct (Sparse.push_back 0 (next_file k) (Vfs.Files v1)) as [[fd1 okf] files] eqn:E1. unfold proc in E. rewrite Hp in E. cbn [deref mbind outcome_bind] in E.
    destruct (Sparse.push_back FD_Invalid fd1 _) as [[pf okp] fds]. destruct (Vfs.set_descriptors _ _ _); [|done]. cbn in E. injection E as _ <- _ _.
    pose proof (Sparse.sparse_push_bound 0 _ _ _ _ _ (Vfs.ok_files _ _ _ _ O1) E1 Hn0). cbn in *. unfold FD_Invalid. lia. }
  eexists _, _, (with_FileDescriptors x p). split; [reflexivity|]. cbn [Vfs.FProcess] in *.
  split; cbn [Life.with_files Life.k_vfs Life.k_drivers Life.k_sched fst snd]; try done.
  - lia.
  - intros y. unfold meta_at. cbn [Life.k_vfs Life.with_files]. rewrite Em. cbn. case_decide as Ey; [subst; by rewrite lookup_insert_eq|by rewrite lookup_insert_ne].
  - unfold next_file. cbn. rewrite Em. split; [done|]. apply (Vfs.ok_metas _ _ _ _ O).
  - split; [|exact Hp']. unfold this_process, Vfs.current_process in *. cbn. rewrite (Vfs.tc_sched _ _ T). exact Ht.
  - intros n [A B]. unfold room in *. cbn in *. lia.
Qed.

(** ** Pipes *)

Definition pipes_of (k : kern) : Pipe.PipeDriver := Kernel.pipes (Life.k_drivers k).

(** [fd] of the process at [a] is one end of the pipe with buffer [b]; [e] is
    the end object, [f] the file, which was read or written up to [off]. *)
Record pipe_end (k : kern) (a fd f e b off : Z) (kind : Pipe.EndType) : Prop := {
  pe_open : opened k a fd = Some f;
  pe_meta : exists name, meta_at k f = Some (with_offset off (make_meta Regular name PipesDriver Pipe.PIPE_BUFSZ e));
  pe_end : Store.objs (Pipe.ends (pipes_of k)) !! e = Some (Pipe.mkEnd b kind)
}.

Lemma sys13_pipe_spec k a p ptr ns ps :
  files_ok k -> queue_ok (Life.k_sched k) ns ps -> running_here k a p -> a ≠ 0 -> room 2 k p -> valid_address ptr p = true ->
  exists k' p' rfd wfd rf wf re we b, sys13_pipe ptr k = Done (Some 0, k') /\ files_ok k' /\ queue_ok (Life.k_sched k') ns ps /\
    running_here k' a p' /\ p' = with_FileDescriptors (Process.FileDescriptors p') p /\
    0 <= rfd < 2 ^ 64 - 1 /\ 0 <= wfd < 2 ^ 64 - 1 /\ rfd ≠ wfd /\ rf ≠ wf /\ opened k a rfd = None /\ opened k a wfd = None /\
    (forall c g, 0 <= g -> ~ (c = a /\ (g = rfd \/ g = wfd)) -> opened k' c g = opened k c g) /\
    Life.k_user k' = write64 (write64 (Life.k_user k) ptr rfd) (ptr + 8) wfd /\ Life.k_hw k' = Life.k_hw k /\
    pipe_end k' a rfd rf re b 0 Pipe.READ /\ pipe_end k' a wfd wf we b 0 Pipe.WRITE /\
    Store.objs (Pipe.buffers (pipes_of k')) !! b = Some Pipe.new_buffer.
Proof.
  intros O Q Hr Ha Hroom Hv. pose proof Hr as [Ht Hp]. unfold sys13_pipe. rewrite Ht. cbn [mbind outcome_bind].
  unfold valid_pointer. rewrite Ht. cbn [mbind outcome_bind]. rewrite (Life.proc_known a _ p Hp). cbn [mbind outcome_bind]. rewrite Hv. cbn [negb].
  destruct (Pipe.lay_pipe (Kernel.pipes (Life.k_drivers k))) as [[r w] ps'] eqn:El.
  pose proof (Vfs.ok_drivers _ _ _ _ O) as K. cbn [drv_ok sys_laws Kernel.kernel_laws] in K.
  destruct (Pipe.lay_spec _ _ _ _ (Kernel.ko_pipes _ _ K) El) as (b & Hre & Hwe & Hb & I & Hold & _).
  pose proof (Kernel.lay_pipe_ok _ _ _ _ _ K El) as K1.
  assert (Hmeta : r = make_meta Regular (Name r) PipesDriver Pipe.PIPE_BUFSZ (DriverData r) /\
                  w = make_meta Regular (Name w) PipesDriver Pipe.PIPE_BUFSZ (DriverData w)).
  { unfold Pipe.lay_pipe in El. destruct (last _); cbn in El; injection El as <- <- _; done. }
  destruct Hmeta as [Er Ew]. assert (Hrw : DriverData r ≠ DriverData w) by (intros E; rewrite E in Hre; congruence).
  assert (Hfree : forall f x, Store.objs (Pipe.ends ps') !! DriverData f = Some x -> Pipe.Buffer x = b ->
            forall c g, meta_at k c = Some g -> FileDriver g = Some PipesDriver -> DriverData g ≠ DriverData f).
  { intros f x Hx Hbx c g Hg Hd E. destruct (Kernel.owns_live _ _ _ (Kernel.ko_ends _ _ K) c g Hg Hd) as [y Hy].
    destruct (Hold _ _ Hy) as [Hne Hy']. rewrite E in Hy'. congruence. }
  set (k1 := with_drivers (Kernel.with_pipes ps' (Life.k_drivers k)) k).
  assert (O1 : files_ok k1) by (split; try apply O; exact K1).
  destruct (add_new_file_spec r a p k1 O1) as (rfds & k2 & p2 & E2 & A2);
    [by apply Kernel.pipe_file_ok; [exact K1|by rewrite Er|by eexists|by eapply Hfree]|exact Hr|exact Ha|destruct Hroom; split; cbn; lia|].
  rewrite E2. cbn [mbind outcome_bind]. destruct (fa_rest _ _ _ _ _ _ _ A2) as (Ed2 & Eu2 & Eh2).
  destruct (add_new_file_spec w a p2 k2 (fa_ok _ _ _ _ _ _ _ A2)) as (wfds & k3 & p3 & E3 & A3).
  { rewrite Ed2. apply Kernel.pipe_file_ok; [pose proof (Vfs.ok_drivers _ _ _ _ (fa_ok _ _ _ _ _ _ _ A2)) as K2; rewrite Ed2 in K2; exact K2|by rewrite Ew|by eexists|].
    intros c g Hg Hd. pose proof (fa_meta _ _ _ _ _ _ _ A2 c) as Hm. unfold meta_at in Hm at 1. rewrite Hg in Hm. case_decide.
    - injection Hm as ->. exact Hrw.
    - by eapply Hfree. }
  { exact (fa_process _ _ _ _ _ _ _ A2). } { exact Ha. } { apply (fa_room _ _ _ _ _ _ _ A2). destruct Hroom. split; cbn; lia. }
  rewrite E3. cbn [mbind outcome_bind]. destruct (fa_rest _ _ _ _ _ _ _ A3) as (Ed3 & Eu3 & Eh3).
  destruct (fa_next _ _ _ _ _ _ _ A2) as [En2 Hn2]. pose proof (fa_fd _ _ _ _ _ _ _ A2) as Hf2. pose proof (fa_fd _ _ _ _ _ _ _ A3) as Hf3.
  set (rfd := Vfs.FProcess rfds) in *. set (wfd := Vfs.FProcess wfds) in *.
  assert (Hne : rfd ≠ wfd).
  { intros E. pose proof (fa_unused _ _ _ _ _ _ _ A3) as H. rewrite <- E, (fa_opened _ _ _ _ _ _ _ A2), decide_True in H by (done || lia). done. }
  assert (Eo : forall c g, 0 <= g -> opened k3 c g = if decide (c = a /\ g = wfd) then Some (next_file k2)
            else if decide (c = a /\ g = rfd) then Some (next_file k1) else opened k c g).
  { intros c g Hg. rewrite (fa_opened _ _ _ _ _ _ _ A3) by done. case_decide; [done|]. by rewrite (fa_opened _ _ _ _ _ _ _ A2). }
  assert (Em : forall x, meta_at k3 x = if decide (x = next_file k2) then Some w else if decide (x = next_file k1) then Some r else meta_at k x).
  { intros x. rewrite (fa_meta _ _ _ _ _ _ _ A3). case_decide; [done|]. by rewrite (fa_meta _ _ _ _ _ _ _ A2). }
  assert (Ep : pipes_of (Life.with_user (write64 (write64 (Life.k_user k3) ptr rfd) (ptr + 8) wfd) k3) = ps').
  { unfold pipes_of. cbn. by rewrite Ed3, Ed2. }
  eexists _, p3, rfd, wfd, (next_file k1), (next_file k2), (DriverData r), (DriverData w), b. split; [reflexivity|].
  split_and!; try lia; try done.
  - apply (fa_ok _ _ _ _ _ _ _ A3).
  - apply (fa_queue _ _ _ _ _ _ _ A3), (fa_queue _ _ _ _ _ _ _ A2), Q.
  - apply (fa_process _ _ _ _ _ _ _ A3).
  - rewrite (fa_tables _ _ _ _ _ _ _ A3) at 1. by rewrite (fa_tables _ _ _ _ _ _ _ A2).
  - apply (fa_unused _ _ _ _ _ _ _ A2).
  - pose proof (fa_unused _ _ _ _ _ _ _ A3) as H. rewrite (fa_opened _ _ _ _ _ _ _ A2), decide_False in H by (lia || intros [_ E]; done). exact H.
  - intros c g Hg Hn. transitivity (opened k3 c g); [done|]. rewrite Eo, !decide_False by (done || tauto). done.
  - cbn. by rewrite Eu3, Eu2.
  - cbn. by rewrite Eh3, Eh2.
  - split; [|exists (Name r)|by rewrite Ep].
    + transitivity (opened k3 a rfd); [done|]. rewrite Eo by lia. rewrite decide_False, decide_True by naive_solver. done.
    + transitivity (meta_at k3 (next_file k1)); [done|]. rewrite Em, decide_False, decide_True by lia. by rewrite Er at 1.
  - split; [|exists (Name w)|by rewrite Ep].
    + transitivity (opened k3 a wfd); [done|]. rewrite Eo by lia. by rewrite decide_True.
    + transitivity (meta_at k3 (next_file k2)); [done|]. rewrite Em, decide_True by lia. by rewrite Ew at 1.
  - by rewrite Ep.
Qed.

Lemma valid_pointer_spec k a p ptr : running_here k a p -> valid_pointer ptr k = Done (valid_address ptr p).
Proof. intros [Ht Hp]. unfold valid_pointer. rewrite Ht. cbn [mbind outcome_bind]. by rewrite (Life.proc_known a _ p Hp). Qed.

(** What was written to a pipe and is still in it. *)
Definition pipe_holds (k : kern) (b : Z) (bytes : list Z) : Prop :=
  exists x, Store.objs (Pipe.buffers (pipes_of k)) !! b = Some x /\ Pipe.contents x = bytes /\
    Pipe.PIDsWaitingOnReadToWrite x = [] /\ Pipe.PIDsWaitingOnWriteToRead x = [].

(** A write to a pipe with nobody waiting and room for the bytes. *)
Lemma sys3_write_pipe k a p fd f e b off src n bytes :
  Pipe.inv (pipes_of k) -> running_here k a p -> valid_address src p = true -> pipe_end k a fd f e b off Pipe.WRITE -> f ≠ 0 ->
  0 < n -> pipe_holds k b bytes -> Z.of_nat (length bytes) + n <= Pipe.PIPE_BUFSZ ->
  exists k', sys3_write fd src n k = Done (Some n, k') /\ Life.k_user k' = Life.k_user k /\
    running_here k' a (with_CPU (regs (Life.k_hw k)) p) /\ Pipe.inv (pipes_of k') /\
    pipe_holds k' b (bytes ++ load_bytes (Life.k_user k) src (Z.to_nat n)) /\
    (forall c g, opened k' c g = opened k c g) /\ (forall x, x ≠ f -> meta_at k' x = meta_at k x) /\ Pipe.ends (pipes_of k') = Pipe.ends (pipes_of k).
Proof.
  intros I Hr Hv [Hop [name Hm] He] Hf Hn (x & Hx & Hc & Hw1 & Hw2) Hfit. pose proof Hr as [Ht Hp].
  pose proof (Pipe.inv_buffer _ I _ _ Hx) as [Hlen Hoff Hby _].
  assert (Hlb : Z.of_nat (length bytes) = Pipe.Offset x) by (rewrite <- Hc; unfold Pipe.contents, queued; rewrite length_take; lia).
  unfold sys3_write. rewrite (valid_pointer_spec k a p src Hr), Hv. cbn [mbind outcome_bind negb]. rewrite Ht. cbn [mbind outcome_bind].
  destruct (update_running k a p (with_CPU (regs (Life.k_hw k))) Hr) as (k1 & -> & [Ht1 Hp1] & Ek & Es). cbn [mbind outcome_bind].
  assert (T : Life.same_tables (Life.k_sched k) (Life.k_sched k1)) by (apply (Life.same_tables_update a (with_CPU (regs (Life.k_hw k))) p); [done|by rewrite Es|done]).
  assert (Hop1 : forall c g, opened k1 c g = opened k c g) by (intros c g; unfold opened; rewrite (Life.same_tables_open _ _ _ c g T); by rewrite Ek).
  unfold Vfs.write, Life.files. cbn [snd].
  rewrite (Vfs.file_current_spec (Life.k_vfs k1) (Life.k_sched k1) a fd f Ht1) by (by rewrite <- Hop, <- Hop1).
  cbn [mbind outcome_bind]. rewrite (proj2 (Z.eqb_neq f 0) Hf). unfold Store.get.
  assert (Hm1 : meta_at k1 f = meta_at k f) by (by rewrite Ek). unfold meta_at in Hm1, Hm. rewrite Hm1, Hm. cbn [deref mbind outcome_bind with_offset FileDriver make_meta].
  set (meta := with_offset off (make_meta Regular name PipesDriver Pipe.PIPE_BUFSZ e)).
  cbn [drv_write sys_drivers Kernel.kernel_drivers Kernel.drivers_write].
  assert (Ed : Life.k_drivers k1 = Life.k_drivers k) by (by rewrite Ek). assert (Eu : Life.k_user k1 = Life.k_user k) by (by rewrite Ek).
  rewrite Ed, Eu. fold (pipes_of k).
  rewrite (Pipe.write_equation meta (pipes_of k) (Pipe.mkEnd b Pipe.WRITE) x I He Hx n src _ _ Hn). cbv zeta. rewrite Z.min_l by lia.
  rewrite (proj2 (Z.ltb_ge _ _)) by lia. rewrite Hw2. cbn [unblock_all mbind outcome_bind Pipe.Buffer].
  rewrite (proj2 (Z.eqb_neq n (-2))), (proj2 (Z.ltb_lt 0 n)) by lia. cbn [Life.with_files Life.k_vfs Life.k_sched fst snd].
  rewrite (Vfs.file_current_spec (Life.k_vfs k1) (Life.k_sched k1) a fd f Ht1) by (by rewrite <- Hop, <- Hop1).
  cbn [mbind outcome_bind]. unfold advance_offset, Store.get. cbn [Life.with_files Life.k_vfs Vfs.metas]. rewrite Hm1, Hm. cbn [deref mbind outcome_bind].
  eexists. split; [unfold returns, to_int; do 3 f_equal; unfold Pipe.PIPE_BUFSZ in *; rewrite Z.mod_small; lia|].
  destruct (fifo_put _ _ _ (load_bytes (Life.k_user k) src (Z.to_nat n)) (Pipe.inv_buffer _ I _ _ Hx) (load_bytes_byte _ _ _)) as [Hok' Hc'];
    [rewrite length_load_bytes; lia|]. rewrite length_load_bytes, Z2Nat.id in Hok', Hc' by lia.
  destruct (Pipe.inv_end _ I _ _ He) as (Hnf & y & Hy & Hcl). cbn in Hnf, Hy. rewrite Hx in Hy. injection Hy as <-.
  split_and!; try done.
  - unfold pipes_of. cbn. apply (Pipe.put_buf_inv b x); try done. intros e' y He' Hbe. destruct (Pipe.inv_end _ I _ _ He') as (_ & z & Hz & Hcz).
    rewrite Hbe, Hx in Hz. injection Hz as <-. by destruct (Pipe.End y).
  - eexists. unfold pipes_of. cbn. rewrite lookup_insert_eq. split; [done|]. split; [|by split]. unfold Pipe.contents. cbn.
    unfold Pipe.contents in Hc. by rewrite Hc', Hc.
  - intros y Hy. unfold meta_at. cbn. rewrite lookup_insert_ne by done. by rewrite Ek.
Qed.

(** A read from a pipe that holds at least that many bytes. *)
Lemma sys2_read_pipe k a p fd f e b off dst n bytes :
  Pipe.inv (pipes_of k) -> running_here k a p -> valid_address dst p = true -> pipe_end k a fd f e b off Pipe.READ -> f ≠ 0 ->
  0 < n <= Z.of_nat (length bytes) -> 0 <= off -> off + n <= Pipe.PIPE_BUFSZ -> pipe_holds k b bytes ->
  exists k', sys2_read fd dst n k = Done (Some n, k') /\
    Life.k_user k' = store_bytes dst (take (Z.to_nat n) bytes) (Life.k_user k) /\ pipe_holds k' b (drop (Z.to_nat n) bytes) /\
    (forall c g, opened k' c g = opened k c g).
Proof.
  intros I Hr Hv [Hop [name Hm] He] Hf Hn H0 Hle (x & Hx & Hc & Hw1 & Hw2). pose proof Hr as [Ht Hp].
  pose proof (Pipe.inv_buffer _ I _ _ Hx) as Hok. pose proof Hok as [Hlen Hoff Hby _].
  assert (Hlb : Z.of_nat (length bytes) = Pipe.Offset x) by (rewrite <- Hc; unfold Pipe.contents, queued; rewrite length_take; lia).
  unfold Pipe.PIPE_BUFSZ in *.
  unfold sys2_read. rewrite (valid_pointer_spec k a p dst Hr), Hv. cbn [mbind outcome_bind negb].
  assert (Hfc : Vfs.file_current fd (Life.k_vfs k) (Life.k_sched k) = Done f) by (by apply (Vfs.file_current_spec _ _ a)).
  rewrite Hfc. cbn [mbind outcome_bind]. unfold meta_at in Hm. unfold Store.get at 1. rewrite Hm. cbn [deref mbind outcome_bind with_offset make_meta FileSize offset].
  rewrite (proj2 (Z.leb_gt _ _)) by lia. rewrite (wrap64_small (off + n)) by (unfold is_u64; lia). rewrite (proj2 (Z.ltb_ge _ (off + n))) by lia.
  rewrite Ht. cbn [mbind outcome_bind]. unfold Vfs.read, Life.files. cbn [snd]. rewrite Hfc. cbn [mbind outcome_bind].
  rewrite (proj2 (Z.eqb_neq f 0) Hf). unfold Store.get at 1. rewrite Hm. cbn [deref mbind outcome_bind with_offset FileDriver make_meta].
  set (meta := with_offset off (make_meta Regular name PipesDriver 512 e)).
  cbn [drv_read sys_drivers Kernel.kernel_drivers Kernel.drivers_read]. fold (pipes_of k).
  rewrite (Pipe.read_equation meta (pipes_of k) (Pipe.mkEnd b Pipe.READ) x I He Hx n dst _ _ ltac:(lia)). cbv zeta.
  rewrite (proj2 (Z.eqb_neq (Pipe.Offset x) 0)) by lia. rewrite Z.min_l by lia. rewrite Hw1. cbn [unblock_all mbind outcome_bind Pipe.Buffer].
  rewrite (proj2 (Z.eqb_neq n (-2))), (proj2 (Z.ltb_lt 0 n)) by lia.
  unfold advance_offset, Store.get. cbn [Life.with_user Life.with_files Life.k_vfs Vfs.metas]. rewrite Hm. cbn [deref mbind outcome_bind].
  eexists. split; [unfold returns, to_int; do 3 f_equal; rewrite Z.mod_small; lia|].
  destruct (fifo_get _ _ _ n Hok ltac:(lia)) as (Hok' & Hc' & _).
  split_and!.
  - cbn. by rewrite Hc.
  - eexists. unfold pipes_of. cbn. rewrite lookup_insert_eq. split; [done|]. split; [|by split]. unfold Pipe.contents in *. cbn. by rewrite Hc', Hc.
  - done.
Qed.

(** ** Claims *)

(** C14: A pipe carries bytes: [pipe] gives the running process two new descriptors,
    stored where it asked. On this fresh pipe, one write of between 1 and 512 bytes
    to the one is taken whole, and one read of the same size from the other then
    returns exactly these bytes in order. No other descriptor of any process is
    affected by the three calls. Nothing is said of later reads: the read end's
    offset only grows, and once it reaches 512 every read returns 0. *)
Theorem pipe_carries_bytes k a p ptr ns ps src dst n :
  files_ok k -> queue_ok (Life.k_sched k) ns ps -> running_here k a p -> a ≠ 0 -> room 2 k p ->
  valid_address ptr p = true -> valid_address src p = true -> valid_address dst p = true -> 0 < n <= Pipe.PIPE_BUFSZ ->
  exists k1 k2 k3 rfd wfd, rfd ≠ wfd /\ opened k a rfd = None /\ opened k a wfd = None /\
    sys13_pipe ptr k = Done (Some 0, k1) /\ Life.k_user k1 = write64 (write64 (Life.k_user k) ptr rfd) (ptr + 8) wfd /\
    sys3_write wfd src n k1 = Done (Some n, k2) /\ sys2_read rfd dst n k2 = Done (Some n, k3) /\
    Life.k_user k3 = store_bytes dst (load_bytes (Life.k_user k1) src (Z.to_nat n)) (Life.k_user k1) /\
    (forall c g, 0 <= g -> ~ (c = a /\ (g = rfd \/ g = wfd)) -> opened k3 c g = opened k c g).
Proof.
  intros O Q Hr Ha Hroom Hptr Hsrc Hdst Hn.
  destruct (sys13_pipe_spec k a p ptr ns ps O Q Hr Ha Hroom Hptr) as (k1 & p1 & rfd & wfd & rf & wf & re & we & b & E1 & O1 & Q1 & R1 & Ep &
    Hrfd & Hwfd & Hne & Hfne & Hnr & Hnw & Hoth & Eu1 & _ & PR & PW & Hb).
  assert (Hmem : Memories p1 = Memories p) by (by rewrite Ep).
  assert (Hva : forall x y, valid_address x (with_CPU y p1) = valid_address x p) by (intros x y; unfold valid_address; cbn; by rewrite Hmem).
  assert (Hva1 : forall x, valid_address x p1 = valid_address x p) by (intros x; unfold valid_address; by rewrite Hmem).
  pose proof (Kernel.ko_pipes _ _ (Vfs.ok_drivers _ _ _ _ O1)) as I1.
  assert (H0 : forall fd f, 0 <= fd -> opened k1 a fd = Some f -> f ≠ 0).
  { intros fd f Hfd Hop. by destruct (Vfs.open_file_entry _ _ _ _ a fd f O1 Hfd Hop) as (? & ? & _ & _ & _ & _ & _ & ?). }
  destruct (sys3_write_pipe k1 a p1 wfd wf we b 0 src n [] I1 R1) as (k2 & E2 & Eu2 & R2 & I2 & H2 & Ho2 & Hm2 & He2);
    [by rewrite Hva1|exact PW|by eapply (H0 wfd); [lia|apply PW]|lia|by exists Pipe.new_buffer|cbn; lia|].
  assert (PR2 : pipe_end k2 a rfd rf re b 0 Pipe.READ).
  { destruct PR as [A [name B] C]. split; [by rewrite Ho2|exists name; by rewrite Hm2|by rewrite He2]. }
  destruct (sys2_read_pipe k2 a _ rfd rf re b 0 dst n (load_bytes (Life.k_user k1) src (Z.to_nat n)) I2 R2) as (k3 & E3 & Eu3 & _ & Ho3);
    [by rewrite Hva|exact PR2|by eapply (H0 rfd); [lia|apply PR]|rewrite length_load_bytes; lia|lia|lia|exact H2|].
  exists k1, k2, k3, rfd, wfd. split_and!; try done.
  - rewrite Eu3, Eu2, take_ge by (rewrite length_load_bytes; lia). done.
  - intros c g Hg Hx. by rewrite Ho3, Ho2, Hoth.
Qed.

(** C15: Memory a process maps is its own until it gives it back: [map] returns a
    page-aligned region every address of which is valid for the process and
    translates to page frames nobody had, user accessible and writable; [unmap]
    of that region removes exactly these translations and restores the list of
    regions, and the frames are free again while those that were in use before
    still are. *)
Theorem mapped_memory_is_released k a p address size flags pa fr :
  running_here k a p -> pmm_wf (Life.k_frames k) -> tree_wf (Life.k_mem k) (Life.k_frames k) (CR3 p) -> CR3 p ≠ 0 -> 0 < size ->
  0 <= map_address address p -> map_address address p mod PAGE_SIZE = 0 -> map_address address p + pages_of size * PAGE_SIZE <= 2 ^ 48 ->
  request_pages (pages_of size) (Life.k_frames k) = Done (pa, fr) -> pa ≠ 0 -> 3 * pages_of size <= fa_avail fr ->
  let va := map_address address p in
  let frames := Life.region_pages (region va pa size map_flags) in
  exists k1 k2 p1 p2, sys6_map address size flags k = Done (Some va, k1) /\ running_here k1 a p1 /\
    (forall x, va <= x < va + size -> x ≠ 0 -> valid_address x p1 = true) /\
    (forall q, q ∈ frames -> locked (Life.k_frames k) q = false /\ locked (Life.k_frames k1) q = true) /\
    pages_mapped (Life.k_mem k) (Life.k_mem k1) fr (Life.k_frames k1) (CR3 p) va pa map_flags (pages_of size) /\
    sys7_unmap va k1 = Done k2 /\ running_here k2 a p2 /\ Memories p2 = Memories p /\ pmm_wf (Life.k_frames k2) /\
    (forall q, q ∈ frames -> locked (Life.k_frames k2) q = false) /\
    (forall q, 0 <= q -> locked (Life.k_frames k) q = true -> locked (Life.k_frames k2) q = true) /\
    (forall j, 0 <= j < pages_of size -> translate (Life.k_mem k2) (CR3 p) (va + j * PAGE_SIZE) = None) /\
    (forall vb, 0 <= vb < 2 ^ 48 -> ~ (va / PAGE_SIZE <= vb / PAGE_SIZE < va / PAGE_SIZE + pages_of size) ->
       translate (Life.k_mem k2) (CR3 p) vb = translate (Life.k_mem k) (CR3 p) vb).
Proof.
  intros Hr W T H0 Hs Hv0 Hva Hvt Hreq Hpa Hav va frames.
  destruct (sys6_map_spec k a p address size flags pa fr Hr W T H0 Hs Hv0 Hva Hvt Hreq Hpa Hav) as (k1 & E1 & G & PM & R1). fold va in E1, PM, Hv0, Hva, Hvt.
  destruct (map_memories address pa size p) as [Em Ec]. fold va in Em. pose proof (region_pages va pa size map_flags ltac:(lia)) as Hrp.
  rewrite pages_of_region in Hrp.
  assert (Hkeep : forall q, 0 <= q -> locked fr q = true -> locked (Life.k_frames k1) q = true).
  { intros q Hq Hl. destruct (pms_owned _ _ _ _ _ _ _ _ _ PM (q * PAGE_SIZE)) as (q' & Hq' & E & Hl'); [by exists q|].
    replace q with q' by (unfold PAGE_SIZE in E; lia). done. }
  pose proof (rg_top _ _ _ _ G) as Htop. pose proof (rg_nonneg _ _ _ _ G) as Hpa0. pose proof (rg_aligned _ _ _ _ G) as Hal.
  assert (Hfq : forall q, q ∈ frames -> 0 <= q /\ locked (Life.k_frames k) q = false /\ locked (Life.k_frames k1) q = true).
  { intros q Hq. apply Life.elem_of_region_pages in Hq. rewrite pages_of_region in Hq. cbn [paddr region] in Hq.
    assert (0 <= q) by (unfold PAGE_SIZE in *; dlia). destruct (rg_new _ _ _ _ G q Hq). auto. }
  destruct (sys7_unmap_spec k1 a (map_process address pa size p) (region va pa size map_flags) (Memories p) R1 Em) as (k2 & E2 & R2 & PU & W2 & Hl2).
  { apply PM. } { rewrite Ec. apply PM. }
  { split; [exact Hal|exact Hpa0|rewrite pages_of_region; unfold PAGE_SIZE in *; lia|rewrite pages_of_region; cbn [paddr region]; lia|by apply Hfq]. }
  { done. } { done. } { done. }
  { intros j Hj. rewrite Ec. destruct (pms_entry _ _ _ _ _ _ _ _ _ PM j Hj) as (e & He & _). by exists e. }
  rewrite Ec in PU. exists k1, k2, (map_process address pa size p), (with_Memories (Memories p) (map_process address pa size p)).
  split_and!; try done.
  - intros x Hx Hx0. apply valid_address_spec. split; [done|]. exists (region va pa size map_flags). rewrite Em. split; [by left|].
    cbn [vaddr rlength region]. rewrite wrap64_small by (unfold is_u64; unfold PAGE_SIZE in *; lia). done.
  - intros q Hq. by apply Hfq.
  - intros q Hq. destruct (Hfq q Hq) as (Hq0 & _ & _). rewrite Hl2, bool_decide_true by done. apply andb_false_r.
  - intros q Hq Hl. rewrite Hl2 by done. rewrite Hkeep by (done || by apply (rg_old _ _ _ _ G)). rewrite bool_decide_false; [done|].
    intros Hin. destruct (Hfq q Hin) as (_ & Hf & _). congruence.
  - apply (pus_entry _ _ _ _ _ _ PU).
  - intros vb Hvb Hout. by rewrite (pus_other _ _ _ _ _ _ PU), (pms_other _ _ _ _ _ _ _ _ _ PM).
Qed.

(** Seeking keeps the position within the file: the position moves to where the
    caller asked and the call returns 0 exactly if that is within the file (the
    end itself included, unless counted from the beginning); any other request
    returns 1 and changes nothing. *)
Theorem seek_moves_within_the_file k fd a file offs whence :
  open_here k fd a file -> 0 <= offset file <= FileSize file -> FileSize file < 2 ^ 63 -> - 2 ^ 63 <= offs < 2 ^ 63 ->
  (whence = SEEK_END -> - FileSize file <= offs) ->
  let t := seek_target file offs whence in
  sys14_seek fd offs whence k =
  if decide ((whence = SEEK_CUR \/ whence = SEEK_END \/ whence = SEEK_SET) /\ 0 <= t <= FileSize file /\ (whence = SEEK_SET -> t ≠ FileSize file))
  then returns 0 (at_offset a t file k) else returns 1 k.
Proof.
  intros Hf Ho Hs Hr Hend t. rewrite (seek_spec k fd a file offs whence Hf) by lia.
  assert (Ht : 0 <= t <= FileSize file -> wrap64 t = t) by (intros H; apply wrap64_small; unfold is_u64; lia).
  unfold seek_accepts. subst t. unfold seek_target in *. unfold SEEK_CUR, SEEK_END, SEEK_SET in *.
  destruct (Z.eqb_spec whence 0) as [->|H0]; [|destruct (Z.eqb_spec whence 1) as [->|H1]; [|destruct (Z.eqb_spec whence 2) as [->|H2]]].
  - destruct (Z.eqb_spec offs 0) as [->|]; cbn [orb]; [|destruct (Z.leb_spec 0 (offset file + offs)), (Z.leb_spec (offset file + offs) (FileSize file)); cbn [andb]];
      (rewrite decide_True by lia; by rewrite Ht by lia) || by rewrite decide_False by lia.
  - destruct (Z.leb_spec offs 0); [rewrite decide_True by lia; by rewrite Ht by lia|by rewrite decide_False by lia].
  - destruct (Z.leb_spec 0 offs), (Z.ltb_spec offs (FileSize file)); cbn [andb];
      (rewrite decide_True by lia; by rewrite Ht by lia) || by rewrite decide_False by lia.
  - by rewrite decide_False by lia.
Qed.

(** Seeking from the end to before the beginning is not refused, although it is
    outside of the file: the call returns 0 and the position becomes a number
    close to 2^64, past the end of any file. *)
Theorem seek_before_the_beginning_is_accepted k fd a file offs :
  open_here k fd a file -> 0 <= offset file < 2 ^ 63 -> 0 <= FileSize file < 2 ^ 63 -> - 2 ^ 63 <= offs < - FileSize file ->
  sys14_seek fd offs SEEK_END k = returns 0 (at_offset a (2 ^ 64 + FileSize file + offs) file k) /\
  FileSize file < 2 ^ 64 + FileSize file + offs < 2 ^ 64.
Proof.
  intros Hf Ho Hs Hr. split; [|lia]. rewrite (seek_spec k fd a file offs SEEK_END Hf) by lia. unfold seek_accepts, seek_target.
  change (SEEK_END =? SEEK_CUR) with false. change (SEEK_END =? SEEK_END) with true. cbv iota zeta.
  assert (Hw : wrap64 (FileSize file + offs) = 2 ^ 64 + FileSize file + offs).
  { unfold wrap64. symmetry. apply (Z.mod_unique_pos _ _ (-1)); lia. }
  rewrite (proj2 (Z.leb_le _ _)) by lia. by rewrite Hw.
Qed.

(** A process that exits while others are queued has its node of the queue
    deleted by [remove_process]; [yield] then looks for the next process from
    that node: [exit] ends in a read of freed memory. *)
Theorem exit_reads_the_freed_node status k ns ps i a p :
  files_ok k -> queue_ok (Life.k_sched k) ns ps -> pids_ok (Life.k_sched k) ps -> NoDup ps -> (2 <= length ps)%nat ->
  ns !! i = Some (CurrentProcess (Life.k_sched k)) -> ps !! i = Some a -> procs (Life.k_sched k) !! a = Some p ->
  sys5_exit status k = Stop Undefined.
Proof.
  intros O Q P Hnd H2 Hn Hi Hp. destruct (node_value _ ns ps i _ a Q Hn Hi) as (_ & Ht & _).
  unfold sys5_exit, this_process, Vfs.current_process. rewrite Ht. cbn [mbind outcome_bind]. rewrite (Life.proc_known a _ p Hp). cbn [mbind outcome_bind].
  destruct (Life.remove_process_spec (ProcessID p) status k ns ps i a p O Q P Hnd H2 Hi Hp eq_refl) as (k' & -> & R). cbn [mbind outcome_bind].
  unfold yields, yield, switch_process_impl, SLL.next, SLL.get.
  by rewrite (Life.rm_current _ _ _ _ _ _ _ _ R), (Life.rm_unlinked _ _ _ _ _ _ _ _ R _ Hn).
Qed.

(** C17: [waitpid] for a process that still runs: the caller sleeps with the
    registers it called with, and when the other process, having closed its
    files, is removed, the caller becomes runnable and the exit status is the
    result of its call. A parent gets a zombie entry in either case. *)
Theorem waitpid_returns_exit_status pid status k ns ps i a p b q :
  files_ok k -> queue_ok (Life.k_sched k) ns ps -> pids_ok (Life.k_sched k) ps -> NoDup ps -> (2 <= length ps)%nat ->
  ps !! i = Some a -> procs (Life.k_sched k) !! a = Some p -> ProcessID p = pid -> (forall g, 0 <= g -> opened k a g = None) ->
  running_here k b q -> b ∈ ps -> b ≠ a -> Forall (fun z => ZombiePID z ≠ pid) (Zombies q) ->
  exists k1 k2 q1 q2, sys9_waitpid pid k = yields k1 /\ procs (Life.k_sched k1) !! b = Some q1 /\ State q1 = SLEEPING /\
    Life.remove_process pid status k1 = Done (true, k2) /\ procs (Life.k_sched k2) !! b = Some q2 /\ State q2 = RUNNING /\
    CPU q2 = with_RAX (wrap64 status) (regs (Life.k_hw k)) /\
    Zombies q2 = Zombies q ++ (if decide (ParentProcess p = ProcessID q) then [mkZombie pid status] else []).
Proof.
  intros O Q P Hnd H2 Hi Hp Hpid Hno Hr Hb Hba Hz. pose proof Hr as [Ht Hq]. destruct (qo_procs _ _ _ Q a) as [Ha0 _]; [by eapply list_elem_of_lookup_2|].
  set (p1 := with_WaitingList (WaitingList p ++ [ProcessID q]) p). set (q1 := with_State SLEEPING (with_CPU (regs (Life.k_hw k)) q)).
  set (k1 := Life.with_sched (with_procs (<[b := q1]> (<[a := p1]> (procs (Life.k_sched k)))) (Life.k_sched k)) k).
  assert (E : sys9_waitpid pid k = yields k1).
  { unfold sys9_waitpid. rewrite Ht. cbn [mbind outcome_bind]. rewrite (Life.proc_known b _ q Hq). cbn [mbind outcome_bind].
    rewrite (proj2 (list_find_None _ _) Hz). rewrite (process_spec _ ns ps pid Q), <- Hpid, (Life.find_own _ ns ps i a p Q P Hnd Hi Hp). cbn [mbind outcome_bind].
    rewrite (proj2 (Z.eqb_neq a 0) Ha0). unfold go_to_sleep, update_process. rewrite (Life.modify_known a _ _ p Hp). cbn [mbind outcome_bind].
    rewrite (Life.modify_known b _ _ q); [done|]. cbn. by rewrite lookup_insert_ne. }
  assert (Hlk : forall c, c ≠ a -> c ≠ b -> procs (Life.k_sched k1) !! c = procs (Life.k_sched k) !! c) by (intros c A B; cbn; by rewrite !lookup_insert_ne).
  assert (Hpa : procs (Life.k_sched k1) !! a = Some p1) by (cbn; rewrite lookup_insert_ne by done; by rewrite lookup_insert_eq).
  assert (Hqb : procs (Life.k_sched k1) !! b = Some q1) by (cbn; by rewrite lookup_insert_eq).
  assert (T : Life.same_tables (Life.k_sched k) (Life.k_sched k1)).
  { eapply Life.same_tables_trans; [apply (Life.same_tables_update a (with_WaitingList (WaitingList p ++ [ProcessID q])) p _ (with_procs (<[a := p1]> (procs (Life.k_sched k))) (Life.k_sched k))); done|].
    apply (Life.same_tables_update b (fun q => with_State SLEEPING (with_CPU (regs (Life.k_hw k)) q)) q); [cbn; by rewrite lookup_insert_ne|done|done]. }
  assert (Q1 : queue_ok (Life.k_sched k1) ns ps).
  { apply queue_ok_with_procs; [exact Q|]. intros c Hc. destruct (decide (c = b)) as [->|]; [by rewrite lookup_insert_eq|]. rewrite lookup_insert_ne by done.
    destruct (decide (c = a)) as [->|]; [by rewrite lookup_insert_eq|by rewrite lookup_insert_ne]. }
  assert (P1 : pids_ok (Life.k_sched k1) ps).
  { eapply Life.pids_ok_ext; [exact P|done|]. intros c. destruct (decide (c = b)) as [->|]; [by rewrite Hqb, Hq|].
    destruct (decide (c = a)) as [->|]; [by rewrite Hpa, Hp|by rewrite Hlk]. }
  destruct (Life.remove_process_spec pid status k1 ns ps i a p1 (Life.same_tables_ok _ _ _ _ _ T O) Q1 P1 Hnd H2 Hi Hpa Hpid) as (k2 & E2 & R).
  eexists k1, k2, q1, _. split_and!; [exact E|exact Hqb|done|exact E2|..].
  { apply (Life.rm_quiet _ _ _ _ _ _ _ _ R); [|done|exact Hqb]. intros g Hg. unfold opened in Hno. rewrite (Life.same_tables_open _ _ _ a g T). by apply Hno. }
  all: rewrite (Life.told_queued _ _ _ _ _ _ (Life.pids_ok_delete _ _ i P1) (Life.other_stays ps i a b Hi Hb Hba) Hqb); cbv zeta;
    rewrite (decide_True (P := ProcessID q1 ∈ _)) by (apply elem_of_app; right; by apply list_elem_of_singleton); cbn; rewrite ?Hpid;
    repeat case_decide; cbn; rewrite ?app_nil_r; done.
Qed.

(** Removing an entry of two lists of the same length, the others move along. *)
Lemma both_stay {A B} (l : list A) (m : list B) i j x y :
  i ≠ j -> l !! j = Some x -> m !! j = Some y -> exists h, delete i l !! h = Some x /\ delete i m !! h = Some y.
Proof.
  intros Hne Hx Hy. destruct (decide (j < i)%nat).
  - exists j. by rewrite !list_lookup_delete_lt.
  - exists (j - 1)%nat. rewrite !list_lookup_delete_ge by lia. by replace (S (j - 1)) with j by lia.
Qed.

(** Identifiers and zombies survive being woken. *)
Lemma told_kept s ps p status b q q' : Vfs.kept (Life.told s ps p status b q) q' ->
  ProcessID q' = ProcessID q /\ Zombies q' = Zombies (Life.told s ps p status b q).
Proof. intros [-> _]. split; [|done]. unfold Life.told. by repeat case_bool_decide. Qed.

(** The exit status of a child waits for its parent: whenever the parent runs
    after the child was removed, [waitpid] returns the status at once, and the
    entry is used up: a second call finds neither a zombie nor a process. *)
Theorem zombie_is_reaped_once pid status k ns ps i a p j n b q :
  files_ok k -> queue_ok (Life.k_sched k) ns ps -> pids_ok (Life.k_sched k) ps -> NoDup ps -> (2 <= length ps)%nat ->
  ps !! i = Some a -> procs (Life.k_sched k) !! a = Some p -> ProcessID p = pid ->
  ns !! j = Some n -> ps !! j = Some b -> procs (Life.k_sched k) !! b = Some q -> b ≠ a -> ParentProcess p = ProcessID q ->
  Forall (fun z => ZombiePID z ≠ pid) (Zombies q) ->
  exists k1 k2, Life.remove_process pid status k = Done (true, k1) /\
    sys9_waitpid pid (Life.with_sched (with_CurrentProcess n (Life.k_sched k1)) k1) = Done (Some status, k2) /\
    sys9_waitpid pid k2 = Done (Some (-1), k2).
Proof.
  intros O Q P Hnd H2 Hi Hp Hpid Hn Hj Hq Hba Hpar Hz. assert (Hij : i ≠ j) by congruence.
  destruct (Life.remove_process_spec pid status k ns ps i a p O Q P Hnd H2 Hi Hp Hpid) as (k1 & E1 & R).
  pose proof (Life.rm_queue _ _ _ _ _ _ _ _ R) as Q1. destruct (both_stay ns ps i j n b Hij Hn Hj) as (h & Hh1 & Hh2).
  destruct (node_value _ _ _ _ _ _ Q1 Hh1 Hh2) as (_ & Hv & _).
  destruct (Life.rm_others _ _ _ _ _ _ _ _ R b q Hba Hq) as (q1 & Hq1 & K1). destruct (told_kept _ _ _ _ _ _ _ K1) as [_ Hz1].
  assert (Hz1' : Zombies q1 = Zombies q ++ [mkZombie pid status]).
  { rewrite Hz1, (Life.told_queued _ _ _ _ _ _ (Life.pids_ok_delete _ _ i P)) by (done || by eapply list_elem_of_lookup_2). cbv zeta.
    rewrite (decide_True (P := ParentProcess p = _)) by done. case_decide; cbn; by rewrite Hpid. }
  set (q2 := with_Zombies (Zombies q) q1).
  set (k2 := Life.with_sched (with_procs (<[b := q2]> (procs (Life.k_sched k1))) (with_CurrentProcess n (Life.k_sched k1))) k1).
  exists k1, k2. split_and!; [exact E1| |].
  - unfold sys9_waitpid, this_process, Vfs.current_process. cbn [Life.with_sched Life.k_sched with_CurrentProcess CurrentProcess ProcessQueue].
    rewrite Hv. cbn [mbind outcome_bind]. rewrite (Life.proc_known b (with_CurrentProcess n (Life.k_sched k1)) q1 Hq1). cbn [mbind outcome_bind]. rewrite Hz1'.
    rewrite (proj2 (list_find_Some _ (Zombies q ++ _) (length (Zombies q)) (mkZombie pid status))).
    + rewrite delete_middle, app_nil_r. unfold update_process. rewrite (Life.modify_known b _ (with_CurrentProcess n (Life.k_sched k1)) q1 Hq1). done.
    + split_and!; [by apply list_lookup_middle|done|]. intros x z Hx Hlt. rewrite lookup_app_l in Hx by done. by eapply Forall_lookup_1 in Hz.
  - unfold sys9_waitpid, this_process, Vfs.current_process. cbn [k2 Life.with_sched Life.k_sched with_procs with_CurrentProcess CurrentProcess ProcessQueue].
    rewrite Hv. cbn [mbind outcome_bind]. rewrite (Life.proc_known b _ q2) by (cbn; by rewrite lookup_insert_eq). cbn [mbind outcome_bind q2 with_Zombies Zombies].
    rewrite (proj2 (list_find_None _ _) Hz).
    assert (Q2 : queue_ok (Life.k_sched k2) (delete i ns) (delete i ps)).
    { eapply Life.update_queue_ok; [exact Q1|done|]. intros c Hc. cbn. destruct (decide (c = b)) as [->|]; [by rewrite lookup_insert_eq|by rewrite lookup_insert_ne]. }
    pose proof (process_spec _ _ _ pid Q2) as Hps. cbn [k2 Life.with_sched Life.k_sched] in Hps. rewrite Hps, (proj2 (list_find_None _ _)); [done|].
    apply Forall_forall. intros c Hc Hh. unfold has_pid in Hh. assert (Hca : c ≠ a) by (intros ->; by apply (Life.not_elem_of_delete_self ps i a)).
    destruct (qo_procs _ _ _ Q c (Life.elem_of_delete_sub _ _ _ Hc)) as [_ [r Hr]].
    destruct (Life.rm_others _ _ _ _ _ _ _ _ R c r Hca Hr) as (r' & Hr' & K'). destruct (told_kept _ _ _ _ _ _ _ K') as [Hid _].
    assert (Hpr : exists x, procs (Life.k_sched k2) !! c = Some x /\ ProcessID x = ProcessID r).
    { cbn. destruct (decide (c = b)) as [->|]; [rewrite lookup_insert_eq; eexists; split; [done|]|rewrite lookup_insert_ne by done; by exists r'].
      cbn. rewrite Hq1 in Hr'. by injection Hr' as ->. }
    destruct Hpr as (x & Hx & Hxid). cbn [k2 Life.with_sched Life.k_sched] in Hx. rewrite Hx in Hh. apply Z.eqb_eq in Hh. apply Hca.
    apply (po_inj _ _ P c a r p); [by eapply Life.elem_of_delete_sub|by eapply list_elem_of_lookup_2|done|done|congruence].
Qed.

End Handlers.

(** ** A running system

    Process 0 at 512 is current; process 1 at 1024 is its child and sleeps;
    process 2 at 1536 runs. The first two have memory of their own. *)

Section Example.

#[local] Existing Instance Kernel.no_devices.

Definition blank (n : nat) : list Z := replicate n 0.
#[local] Instance example_drivers : Drivers (@Kernel.drivers unit) := Kernel.kernel_drivers blank 0.
#[local] Instance example_laws : DriverLaws (@Kernel.drivers unit) := Kernel.kernel_laws blank 0.

Definition parent : Process := with_CR3 4096 (with_Memories [region 65536 32768 8192 7] new_process).
Definition child : Process :=
  with_ParentProcess 0 (with_ProcessID 1 (with_State SLEEPING (with_Memories [region 65536 8192 8192 7] new_process))).
Definition crew : sched := with_procs (<[512 := parent]> (<[1024 := child]> (procs trio))) trio.
Definition running_system : Life.kernel Kernel.system :=
  Life.mkKernel Kernel.boot_vfs Kernel.boot_drivers crew four_frames four_mem zero_mem idle.

Lemma crew_tables : Life.same_tables trio crew.
Proof.
  eapply (Life.same_tables_trans _ (with_procs (<[1024 := child]> (procs trio)) trio)).
  - by apply (Life.same_tables_update 1024 (fun _ => child) (with_ProcessID 1 (with_State SLEEPING new_process))).
  - by apply (Life.same_tables_update 512 (fun _ => parent) new_process).
Qed.

Lemma crew_files_ok : Vfs.ok None Kernel.boot_vfs Kernel.boot_drivers crew.
Proof. apply (Life.same_tables_ok _ _ _ trio crew crew_tables), Kernel.boot_ok. Qed.

Lemma crew_closed a g : Vfs.open_file Kernel.boot_vfs crew a g = None.
Proof.
  rewrite (Life.same_tables_open _ _ _ a g crew_tables). unfold Vfs.open_file. destruct (procs trio !! a) as [p|] eqn:Hp; [|done].
  cbn. rewrite (Kernel.trio_descriptors a p Hp). unfold Sparse.lookup_valid, Sparse.get. cbn [Sparse.empty Sparse.els]. by rewrite lookup_nil, if_same.
Qed.

Lemma crew_ok : queue_ok crew [1; 2; 3] [512; 1024; 1536].
Proof.
  apply queue_ok_with_procs; [apply trio_ok|]. intros a Ha. destruct (decide (a = 512)) as [->|]; [by rewrite lookup_insert_eq|].
  rewrite lookup_insert_ne by done. destruct (decide (a = 1024)) as [->|]; [by rewrite lookup_insert_eq|by rewrite lookup_insert_ne].
Qed.

Lemma crew_pids_ok : pids_ok crew [512; 1024; 1536].
Proof.
  split.
  - intros a p Ha Hp. rewrite !elem_of_cons in Ha. destruct Ha as [->|[->|[->|Ha]]];
      [vm_compute in Hp; injection Hp as <-; cbn; lia..|]. by apply not_elem_of_nil in Ha.
  - intros a b p q Ha Hb Hp Hq E. rewrite !elem_of_cons in Ha, Hb.
    destruct Ha as [->|[->|[->|Ha]]], Hb as [->|[->|[->|Hb]]]; try done; try (by apply not_elem_of_nil in Ha);
      try (by apply not_elem_of_nil in Hb); vm_compute in Hp; vm_compute in Hq; injection Hp as <-; injection Hq as <-; done.
Qed.

Lemma crew_nodup : NoDup [512; 1024; 1536].
Proof. apply (bool_decide_unpack _). vm_compute. done. Qed.

Lemma parent_running : running_here running_system 512 parent.
Proof. by split. Qed.

Lemma exit_releases_everything_witness :
  exists k', Life.remove_process 1 7 running_system = Done (true, k') /\ procs (Life.k_sched k') !! 1024 = None /\
    locked (Life.k_frames k') 2 = false /\ locked (Life.k_frames k') 4 = true.
Proof.
  destruct (Life.exit_releases_everything 1 7 running_system [1; 2; 3] [512; 1024; 1536] 1 1024 child) as
    (k' & E & _ & _ & Hg & _ & Hl & _); [apply crew_files_ok|apply crew_ok|apply crew_pids_ok|apply crew_nodup|cbn; lia|done|done|done|
    apply four_frames_wf| | |].
  - apply Forall_singleton. split; [done|cbn; lia|vm_compute; discriminate|vm_compute; done|].
    intros q Hq. apply Life.elem_of_region_pages in Hq. vm_compute (paddr _ / PAGE_SIZE) in Hq. vm_compute (pages _) in Hq.
    assert (q = 2 \/ q = 3) as [-> | ->] by lia; vm_compute; done.
  - apply (bool_decide_unpack _). vm_compute. done.
  - exists k'. split_and!; [exact E|exact Hg|rewrite Hl by lia; vm_compute; done..].
Defined.

Lemma fork_copies_the_process_witness :
  exists k' n c, Life.CopyUserspaceProcess 1536 4096 (Life.with_sched (with_procs (<[1536 := with_CR3 4096 (with_ProcessID 2 new_process)]> (procs crew)) crew) running_system) = Done (3, k') /\
    queue_ok (Life.k_sched k') ([1; 2; 3] ++ [n]) ([512; 1024; 1536] ++ [4096]) /\ procs (Life.k_sched k') !! 4096 = Some c /\
    ProcessID c = 3 /\ ParentProcess c = 2 /\ State c = RUNNING.
Proof.
  destruct (copy_page_map_spec (fun v => v) 4096 four_mem four_frames) as (new & m' & fr' & E & R);
    [done..|apply four_frames_wf|apply four_wf|apply (four_owned 0); lia|rewrite four_count; vm_compute; discriminate|].
  destruct R as [Hn0 Hi _ _ _ _ Hav].
  destruct (map_progress new new new (Z.lor (flag_value Present) (flag_value ReadWrite)) m' fr' Hi) as (m2 & fr2 & E2 & _).
  set (q := with_CR3 4096 (with_ProcessID 2 new_process)). set (s := with_procs (<[1536 := q]> (procs crew)) crew).
  assert (T : Life.same_tables crew s) by (by apply (Life.same_tables_update 1536 (fun _ => q) (with_ProcessID 2 new_process))).
  destruct (Life.fork_copies_the_process 1536 4096 (Life.with_sched s running_system) [1; 2; 3] [512; 1024; 1536] q new [] (m2, fr2)) as
    (k' & n & c & Ef & _ & Q' & _ & _ & Hc & _ & H1 & H2 & H3 & _).
  { apply (Life.same_tables_ok _ _ _ crew s T), crew_files_ok. }
  { apply queue_ok_with_procs; [apply crew_ok|]. intros a Ha. destruct (decide (a = 1536)) as [->|]; [by rewrite lookup_insert_eq|by rewrite lookup_insert_ne]. }
  { apply (Life.pids_ok_ext crew); [apply crew_pids_ok|done|]. intros b. cbn. destruct (decide (b = 1536)) as [->|]; [done|by rewrite lookup_insert_ne]. }
  { done. } { done. } { done. } { cbn; lia. } { cbn; lia. } { vm_compute; done. }
  { unfold Life.copied_space. cbn [q with_CR3 CR3 Life.with_sched Life.k_mem Life.k_frames running_system]. unfold clone_page_map. rewrite E. cbn [mbind outcome_bind].
    rewrite (proj2 (Z.eqb_neq new 0) Hn0), E2. done. }
  exists k', n, c. split_and!; done.
Defined.

Lemma pipe_carries_bytes_witness :
  exists k1 k2 k3 rfd wfd, sys13_pipe 65536 running_system = Done (Some 0, k1) /\
    sys3_write blank 0 false plain_fx zero_cpu wfd 65600 3 k1 = Done (Some 3, k2) /\ sys2_read blank 0 false plain_fx zero_cpu rfd 65700 3 k2 = Done (Some 3, k3) /\
    Life.k_user k3 = store_bytes 65700 (load_bytes (Life.k_user k1) 65600 3) (Life.k_user k1).
Proof.
  destruct (pipe_carries_bytes blank 0 false plain_fx zero_cpu running_system 512 parent 65536 [1; 2; 3] [512; 1024; 1536] 65600 65700 3) as
    (k1 & k2 & k3 & rfd & wfd & _ & _ & _ & E1 & _ & E2 & E3 & Eu & _);
    [apply crew_files_ok|apply crew_ok|apply parent_running|done|split; vm_compute; done|vm_compute; done..|split; [lia|vm_compute; discriminate]|].
  by exists k1, k2, k3, rfd, wfd.
Defined.

(** A process whose page map is empty. *)
Definition mapper : Life.kernel Kernel.system :=
  Life.mkKernel Kernel.boot_vfs Kernel.boot_drivers (with_procs (<[512 := with_CR3 PAGE_SIZE new_process]> (procs trio)) trio) root_taken zero_mem zero_mem idle.

Lemma mapped_memory_is_released_witness :
  exists k1 k2, sys6_map 0 5000 0 mapper = Done (Some 0xf8000000, k1) /\ sys7_unmap 0xf8000000 k1 = Done k2 /\
    translate (Life.k_mem k2) PAGE_SIZE 0xf8000000 = None.
Proof.
  destruct (request_pages (pages_of 5000) root_taken) as [[pa fr]|] eqn:E; [|by vm_compute in E].
  assert (Hpa : match request_pages (pages_of 5000) root_taken with Done (pa, fr) => (pa =? 0) || (fa_avail fr <? 6) | Stop _ => true end = false)
    by (vm_compute; done).
  rewrite E in Hpa. apply orb_false_iff in Hpa as [Hpa Hav]. apply Z.eqb_neq in Hpa. apply Z.ltb_ge in Hav.
  destruct (mapped_memory_is_released blank 0 mapper 512 (with_CR3 PAGE_SIZE new_process) 0 5000 0 pa fr) as
    (k1 & k2 & p1 & p2 & E1 & _ & _ & _ & _ & E2 & _ & _ & _ & _ & _ & Hn & _);
    [by split|apply root_taken_wf|apply zero_root_wf|done|lia|vm_compute; discriminate|done|vm_compute; discriminate|exact E|done|exact Hav|].
  assert (Ea : map_address 0 (with_CR3 PAGE_SIZE new_process) + 0 * PAGE_SIZE = 0xf8000000) by (vm_compute; done).
  assert (Hj : 0 <= 0 < pages_of 5000) by (vm_compute; intuition congruence).
  specialize (Hn 0 Hj). rewrite Ea in Hn. exists k1, k2. split_and!; [exact E1|exact E2|exact Hn].
Defined.

(** The current process has an input file open as descriptor 0. *)
Definition reader : Life.kernel Kernel.system :=
  Life.mkKernel Kernel.w1.1.1 Kernel.w1.1.2 Kernel.w1.2 root_taken zero_mem zero_mem idle.
Definition input_file : FileMetadata := make_meta Regular "a" FileMeta.InputDriver Input.INPUT_BUFSZ 1.

Lemma seek_moves_within_the_file_witness :
  sys14_seek 0 100 SEEK_SET reader = returns 0 (at_offset 1 100 input_file reader).
Proof.
  rewrite (seek_moves_within_the_file reader 0 1 input_file 100 SEEK_SET);
    [|split; vm_compute; done|unfold input_file, Input.INPUT_BUFSZ, PAGE_SIZE; cbn; lia..|done].
  rewrite decide_True by (vm_compute; intuition congruence). reflexivity.
Defined.

Lemma seek_before_the_beginning_is_accepted_witness :
  sys14_seek 0 (-4065) SEEK_END reader = returns 0 (at_offset 1 (2 ^ 64 - 1) input_file reader).
Proof.
  apply (seek_before_the_beginning_is_accepted reader 0 1 input_file (-4065)); [split; vm_compute; done|unfold input_file, Input.INPUT_BUFSZ, PAGE_SIZE; cbn; lia..].
Defined.

Lemma exit_reads_the_freed_node_witness : sys5_exit blank 0 false plain_fx zero_cpu 7 running_system = Stop Undefined.
Proof.
  apply (exit_reads_the_freed_node blank 0 false plain_fx zero_cpu 7 running_system [1; 2; 3] [512; 1024; 1536] 0 512 parent);
    [apply crew_files_ok|apply crew_ok|apply crew_pids_ok|apply crew_nodup|cbn; lia|done..].
Defined.

Lemma waitpid_returns_exit_status_witness :
  exists k1 k2 q2, sys9_waitpid false plain_fx zero_cpu 1 running_system = yields false plain_fx zero_cpu k1 /\
    Life.remove_process 1 7 k1 = Done (true, k2) /\ procs (Life.k_sched k2) !! 512 = Some q2 /\ RAX (CPU q2) = 7.
Proof.
  destruct (waitpid_returns_exit_status blank 0 false plain_fx zero_cpu 1 7 running_system [1; 2; 3] [512; 1024; 1536] 1 1024 child 512 parent) as
    (k1 & k2 & q1 & q2 & E & _ & _ & E2 & Hq & _ & Hc & _);
    [apply crew_files_ok|apply crew_ok|apply crew_pids_ok|apply crew_nodup|cbn; lia|done|done|done|intros g _; apply crew_closed|apply parent_running|by left|done|by constructor|].
  exists k1, k2, q2. split_and!; try done. by rewrite Hc.
Defined.

Lemma zombie_is_reaped_once_witness :
  exists k1 k2, Life.remove_process 1 7 running_system = Done (true, k1) /\
    sys9_waitpid false plain_fx zero_cpu 1 (Life.with_sched (with_CurrentProcess 1 (Life.k_sched k1)) k1) = Done (Some 7, k2) /\
    sys9_waitpid false plain_fx zero_cpu 1 k2 = Done (Some (-1), k2).
Proof.
  apply (zombie_is_reaped_once blank 0 false plain_fx zero_cpu 1 7 running_system [1; 2; 3] [512; 1024; 1536] 1 1024 child 0 1 512 parent);
    [apply crew_files_ok|apply crew_ok|apply crew_pids_ok|apply crew_nodup|cbn; lia|done..|by constructor].
Defined.

(** A process with one page of memory, in frame 5. *)
Definition six_frames : pmm := lock_pages 0 6 FrameAlloc.fresh.
Definition one_page : Region := region 65536 20480 4096 7.
Definition forker : Process := with_CR3 4096 (with_ProcessID 2 (with_Memories [one_page] new_process)).
Definition fork_sched : sched := with_procs (<[1536 := forker]> (procs crew)) crew.
Definition fork_system : Life.kernel Kernel.system :=
  Life.mkKernel Kernel.boot_vfs Kernel.boot_drivers fork_sched six_frames four_mem zero_mem idle.

Lemma six_frames_wf : pmm_wf six_frames.
Proof. apply (lock_pages_spec 0 6); [apply fresh_wf|unfold PAGE_SIZE; lia..]. Qed.

Lemma six_wf : tree_wf four_mem six_frames 4096.
Proof.
  eapply tree_wf_more; [apply four_wf|]. intros a (q & Hq & -> & Hl). exists q. split_and!; [done|done|].
  pose proof (locked_in_range _ _ Hl) as Hr. change (capacity four_frames) with 128 in Hr.
  revert Hl. assert (Hd : Forall (fun q => locked four_frames q = true -> locked six_frames q = true) (seqZ 0 128)) by (apply (bool_decide_unpack _); vm_compute; done).
  rewrite Forall_forall in Hd. apply Hd, elem_of_seqZ. lia.
Qed.

Lemma six_zero : frame_locked six_frames 0.
Proof. exists 0. split_and!; [lia|reflexivity|vm_compute; reflexivity]. Qed.

(** The copy of that one page finishes. *)
Lemma one_page_copied : exists root rs m' fr', Life.copied_space 4096 [one_page] (four_mem, six_frames) = Done (root, rs, (m', fr')) /\ 0 < available fr'.
Proof.
  pose proof six_zero as H0. assert (F0 : frame_address 0) by (split; [lia|reflexivity]).
  destruct (copy_page_map_spec (fun v => v) 4096 four_mem six_frames) as (root & m1 & fr1 & E & R);
    [done..|apply six_frames_wf|apply six_wf|exact H0|rewrite four_count; vm_compute; discriminate|].
  pose proof (cr_avail _ _ _ _ _ _ _ R) as Hav. rewrite four_count in Hav. change (fa_avail six_frames) with 94 in Hav.
  destruct (map_progress root root root (Z.lor (flag_value Present) (flag_value ReadWrite)) m1 fr1 (cr_inv _ _ _ _ _ _ _ R)) as (m2 & fr2 & E2 & I2 & A2).
  destruct (fa_request_some fr2 I2 ltac:(lia)) as (pa & fr3 & E3 & I3 & _ & _ & Hn & _ & Ha).
  assert (Hpa : pa ≠ 0).
  { intros ->. apply Hn. destruct (cr_data _ _ _ _ _ _ _ R 0 F0 H0) as [[_ Ho _] _].
    eapply map_spec in E2 as [_ _ Hold _ _ _]; [by apply Hold|apply R|apply R|apply R|apply (tree_root _ _ _ (cr_new _ _ _ _ _ _ _ R))|apply (tree_root _ _ _ (cr_new _ _ _ _ _ _ _ R))|done|left; lia]. }
  destruct (map_pages_loop_progress 1 root 65536 pa Life.user_page_flags (MemRoutines.memcpy pa 20480 4096 m2) fr3 I3 69632) as (m4 & fr4 & E4 & _ & A4).
  exists root, [region 65536 pa 4096 7], m4, fr4. split; [|change (0 < fa_avail fr4); lia]. unfold Life.copied_space, clone_page_map. rewrite E. cbn [mbind outcome_bind].
  rewrite (proj2 (Z.eqb_neq root 0) (cr_nonnull _ _ _ _ _ _ _ R)), E2. cbn [mbind outcome_bind Life.copied_regions fst snd].
  change (request_pages (pages one_page) fr2) with (fa_request fr2). rewrite E3. cbn [mbind outcome_bind]. rewrite (proj2 (Z.eqb_neq pa 0) Hpa).
  unfold map_pages. change (pages one_page) with 1. change (vaddr one_page) with 65536. change (Z.to_nat 1) with 1%nat.
  change (65536 +64 (1 *64 PAGE_SIZE)) with 69632. change (paddr one_page) with 20480. change (rlength one_page) with 4096. rewrite E4. reflexivity.
Qed.

Lemma fork_gives_a_private_copy_witness :
  exists k' c pid r', Life.CopyUserspaceProcess 1536 4096 fork_system = Done (pid, k') /\ procs (Life.k_sched k') !! 4096 = Some c /\
    Memories c = [r'] /\ read8 (Life.k_mem k') (paddr r' + 9) = read8 four_mem 20489.
Proof.
  destruct one_page_copied as (root & rs & m' & fr' & E & Hleft).
  assert (T : Life.same_tables crew fork_sched) by (by apply (Life.same_tables_update 1536 (fun _ => forker) (with_ProcessID 2 new_process))).
  assert (C : Fork.copyable six_frames one_page).
  { split; [split; [reflexivity|cbn; lia|vm_compute; discriminate|vm_compute; reflexivity|]|reflexivity|cbn; lia|reflexivity|cbn; lia|vm_compute; discriminate].
    intros q Hq. apply Life.elem_of_region_pages in Hq. change (paddr one_page / PAGE_SIZE) with 5 in Hq. change (pages one_page) with 1 in Hq.
    replace q with 5 by lia. vm_compute. reflexivity. }
  destruct (Fork.fork_gives_a_private_copy 1536 4096 fork_system [1; 2; 3] [512; 1024; 1536] forker root rs (m', fr')) as
    (k' & c & pid & Ef & Hc & _ & P & _).
  { apply (Life.same_tables_ok _ _ _ crew fork_sched T), crew_files_ok. }
  { apply queue_ok_with_procs; [apply crew_ok|]. intros a Ha. destruct (decide (a = 1536)) as [->|]; [by rewrite lookup_insert_eq|by rewrite lookup_insert_ne]. }
  { apply (Life.pids_ok_ext crew); [apply crew_pids_ok|done|]. intros b. cbn. destruct (decide (b = 1536)) as [->|]; [done|by rewrite lookup_insert_ne]. }
  { done. } { done. } { done. } { cbn; lia. } { cbn; lia. } { vm_compute; done. }
  { apply six_frames_wf. } { apply six_wf. } { exact six_zero. } { change (table_count 3 four_mem 4096 <= 94). rewrite four_count. lia. }
  { by apply Forall_singleton. } { repeat constructor. } { exact E. } { exact Hleft. }
  apply Forall2_cons_inv_l in P as (r' & l & P & Hl & Er). apply Forall2_nil_inv_l in Hl as ->.
  exists k', c, pid, r'. split_and!; [exact Ef|exact Hc| |].
  - apply (f_equal reverse) in Er. by rewrite reverse_involutive in Er.
  - exact (Fork.pc_bytes _ _ _ _ _ _ _ P 9 ltac:(cbn; lia)).
Defined.

End Example.

End Sys.
