(* ===== verification/Interrupts.v ===== *)
(** * Interrupts

    Models src/kernel/src/interrupts/idt.h and idt.cpp (module [Idt]) and the parts of
    interrupts.h and interrupts.cpp that drive the interrupt controllers (module [Pic])
    and handle the interrupts of the devices (module [Handlers]): a key reaches the
    standard input of the first process through the virtual filesystem and the input
    driver. Module [NetworkCard] is the constructor of the network card's driver, which
    enters its handler. *)

From S2P Require Import Prelude PhysMem LinkedList SparseVector RingBuffer Event Process Scheduler FileMeta.
From S2P Require Import PipeDriver InputDriver SocketDriver Vfs ProcessLife KernelDrivers Ports Serial Renderer Keyboard FrameAlloc E1000.

(** ** The descriptor table *)

Module Idt.

Record IDTEntry := mkEntry { Offset0 : Z; Selector : Z; IST : Z; TypeAttribute : Z; Offset1 : Z; Offset2 : Z; Ignore : Z }.

Definition SetOffset (offset : Z) (e : IDTEntry) : IDTEntry :=
  mkEntry (wrap16 (Z.land offset 0xffff)) (Selector e) (IST e) (TypeAttribute e)
    (wrap16 (Z.shiftr (Z.land offset 0xffff0000) 16)) (wrap32 (Z.shiftr (Z.land offset 0xffffffff00000000) 32)) (Ignore e).

Definition GetOffset (e : IDTEntry) : Z := Z.lor (Z.lor (Z.lor 0 (Offset0 e)) (Z.shiftl (Offset1 e) 16)) (Z.shiftl (Offset2 e) 32).

(** The packed structure in memory: sixteen bytes. *)
Definition load_entry (m : mem) (a : Z) : IDTEntry :=
  mkEntry (read_le 2 m a) (read_le 2 m (a + 2)) (read8 m (a + 4)) (read8 m (a + 5)) (read_le 2 m (a + 6)) (read_le 4 m (a + 8)) (read_le 4 m (a + 12)).

Definition store_entry (m : mem) (a : Z) (e : IDTEntry) : mem :=
  let m := write_le 2 m a (Offset0 e) in
  let m := write_le 2 m (a + 2) (Selector e) in
  let m := write_le 1 m (a + 4) (IST e) in
  let m := write_le 1 m (a + 5) (TypeAttribute e) in
  let m := write_le 2 m (a + 6) (Offset1 e) in
  let m := write_le 4 m (a + 8) (Offset2 e) in
  write_le 4 m (a + 12) (Ignore e).

Record IDTR := mkIDTR { Limit : Z; Offset : Z }.

(** The constructor clears the table. *)
Definition new_idtr (limit offset : Z) (m : mem) : IDTR * mem := (mkIDTR limit offset, MemRoutines.memset offset 0 limit m).

Definition install_handler (idt : IDTR) (handler_address entryOffset typeAttribute selector : Z) (m : mem) : mem :=
  let interrupt := Offset idt + entryOffset * 16 in
  let e := SetOffset handler_address (load_entry m interrupt) in
  store_entry m interrupt (mkEntry (Offset0 e) selector (IST e) typeAttribute (Offset1 e) (Offset2 e) (Ignore e)).

(** ** Lemmas *)

Lemma offset_parts o : is_u64 o ->
  Z.land o 0xffff = o mod 2 ^ 16 /\ Z.shiftr (Z.land o 0xffff0000) 16 = (o / 2 ^ 16) mod 2 ^ 16 /\ Z.shiftr (Z.land o 0xffffffff00000000) 32 = o / 2 ^ 32.
Proof.
  intros Ho. change 0xffff0000 with (Z.shiftl (Z.ones 16) 16). change 0xffffffff00000000 with (Z.shiftl (Z.ones 32) 32). change 0xffff with (Z.ones 16).
  rewrite !Z.shiftr_land, !Z.shiftr_shiftl_l by lia. change (16 - 16) with 0. change (32 - 32) with 0. rewrite !Z.shiftl_0_r, !Z.land_ones, !Z.shiftr_div_pow2 by lia.
  split_and!; [done|done|]. apply Z.mod_small. unfold is_u64 in Ho. dlia.
Qed.

Lemma get_set_offset o e : is_u64 o -> GetOffset (SetOffset o e) = o.
Proof.
  intros Ho. destruct (offset_parts o Ho) as (E0 & E1 & E2). unfold GetOffset, SetOffset. cbn [Offset0 Offset1 Offset2]. rewrite E0, E1, E2. unfold wrap16, wrap32, is_u64 in *.
  rewrite !Z.mod_mod by lia. rewrite (Z.mod_small (o / 2 ^ 32)) by dlia. rewrite Z.lor_0_l, (Z.lor_comm (o mod _)), (lor_shiftl_add _ (o mod 2 ^ 16)) by (try apply Z.mod_pos_bound; lia).
  rewrite Z.lor_comm, lor_shiftl_add by dlia. dlia.
Qed.

(** The fields fit. *)
Definition entry_ok (e : IDTEntry) : Prop :=
  0 <= Offset0 e < 2 ^ 16 /\ 0 <= Selector e < 2 ^ 16 /\ 0 <= IST e < 2 ^ 8 /\ 0 <= TypeAttribute e < 2 ^ 8 /\
  0 <= Offset1 e < 2 ^ 16 /\ 0 <= Offset2 e < 2 ^ 32 /\ 0 <= Ignore e < 2 ^ 32.

Lemma load_entry_ok m a : entry_ok (load_entry m a).
Proof.
  unfold entry_ok, load_entry. cbn [Offset0 Selector IST TypeAttribute Offset1 Offset2 Ignore]. pose proof (fun n b => read_le_range n m b) as H. pose proof (fun b => read_le_range 1 m b) as H1.
  split_and!; try apply (H 2%nat); try apply (H 4%nat); pose proof (H1 (a + 4)) as H4; pose proof (H1 (a + 5)) as H5; cbn in H4, H5; lia.
Qed.

Lemma read8_read_le m a : read8 m a = read_le 1 m a.
Proof. cbn [read_le]. lia. Qed.

Lemma load_store_entry m a e : entry_ok e -> load_entry (store_entry m a e) a = e.
Proof.
  intros (H0 & H1 & H2 & H3 & H4 & H5 & H6). unfold load_entry, store_entry. rewrite !read8_read_le. destruct e as [o0 se i ta o1 o2 ig]. cbn [Offset0 Selector IST TypeAttribute Offset1 Offset2 Ignore] in *.
  f_equal; repeat first [rewrite read_write_le; apply Z.mod_small; cbn in *; lia | rewrite read_write_other by lia].
Qed.

Lemma store_entry_frame m a e z : z < a \/ a + 16 <= z -> read8 (store_entry m a e) z = read8 m z.
Proof. intros Hz. unfold store_entry. repeat (rewrite write_le_frame by (cbn; lia)). done. Qed.

Lemma set_offset_ok o e : entry_ok e -> entry_ok (SetOffset o e).
Proof.
  intros (H0 & H1 & H2 & H3 & H4 & H5 & H6). unfold entry_ok, SetOffset, wrap16, wrap32. cbn [Offset0 Selector IST TypeAttribute Offset1 Offset2 Ignore].
  split_and!; try lia; apply Z.mod_pos_bound; lia.
Qed.

(** ** Claims *)

(** The processor finds the handler that was installed, with its attributes, and
    every other byte of the memory, and so every other entry, is as it was. *)
Theorem installed_handler_is_found idt handler n attribute selector m :
  is_u64 handler -> 0 <= attribute < 256 -> 0 <= selector < 256 ->
  let m' := install_handler idt handler n attribute selector m in
  let e := load_entry m' (Offset idt + n * 16) in
  GetOffset e = handler /\ TypeAttribute e = attribute /\ Selector e = selector /\ IST e = IST (load_entry m (Offset idt + n * 16)) /\
  (forall z, z < Offset idt + n * 16 \/ Offset idt + n * 16 + 16 <= z -> read8 m' z = read8 m z).
Proof.
  intros Hh Ha Hs. cbv zeta. unfold install_handler. set (a := Offset idt + n * 16). set (e := SetOffset handler (load_entry m a)).
  assert (He : entry_ok e) by apply set_offset_ok, load_entry_ok. rewrite load_store_entry.
  - split_and!; [apply (get_set_offset handler (load_entry m a) Hh)|done|done|done|]. intros z Hz. by apply store_entry_frame.
  - destruct He as (H0 & H1 & H2 & H3 & H4 & H5 & H6). unfold entry_ok. cbn [Offset0 Selector IST TypeAttribute Offset1 Offset2 Ignore]. split_and!; lia.
Qed.

Lemma installed_handler_is_found_witness :
  GetOffset (load_entry (install_handler (mkIDTR 4095 8192) 0xffffffff80123456 33 0x8e 8 (fun _ => 0)) (8192 + 33 * 16)) = 0xffffffff80123456.
Proof. apply (installed_handler_is_found (mkIDTR 4095 8192) 0xffffffff80123456 33 0x8e 8 (fun _ => 0)); unfold is_u64; lia. Defined.

End Idt.

(** ** The interrupt controllers *)

Module Pic.

Definition PIC_EOI : Z := 0x20.
Definition PIC1_COMMAND : Z := 0x20.
Definition PIC1_DATA : Z := 0x21.
Definition PIC2_COMMAND : Z := 0xa0.
Definition PIC2_DATA : Z := 0xa1.
Definition PIC_IRQ_VECTOR_OFFSET : Z := 0x20.
Definition ICW1_INIT : Z := 0x10.
Definition ICW1_ICW4 : Z := 0x01.
Definition ICW4_8086 : Z := 0x01.

Section Driver.
Context {D : Type} `{PortBus D}.

Definition enable_interrupt (irq : Z) : io D unit :=
  if 15 <? irq then mret tt
  else
    let '(port, irq) := if irq <? 8 then (PIC1_DATA, irq) else (PIC2_DATA, irq - 8) in
    value ← in8 port;
    out8 port (Z.ldiff value (Z.shiftl 1 irq)).

Definition disable_interrupt (irq : Z) : io D unit :=
  if 15 <? irq then mret tt
  else
    let '(port, irq) := if irq <? 8 then (PIC1_DATA, irq) else (PIC2_DATA, irq - 8) in
    value ← in8 port;
    out8 port (Z.lor value (Z.shiftl 1 irq)).

Definition disable_all_interrupts : io D unit := _ ← out8 PIC1_DATA 0; out8 PIC2_DATA 0.

Definition end_of_interrupt (IRQx : Z) : io D unit :=
  _ ← (if 8 <=? IRQx then out8 PIC2_COMMAND PIC_EOI else mret tt);
  out8 PIC1_COMMAND PIC_EOI.

Definition remap_pic : io D unit :=
  parentMasks ← in8 PIC1_DATA;
  _ ← io_wait;
  childMasks ← in8 PIC2_DATA;
  _ ← io_wait;
  _ ← out8 PIC1_COMMAND (Z.lor ICW1_INIT ICW1_ICW4);
  _ ← io_wait;
  _ ← out8 PIC2_COMMAND (Z.lor ICW1_INIT ICW1_ICW4);
  _ ← io_wait;
  _ ← out8 PIC1_DATA PIC_IRQ_VECTOR_OFFSET;
  _ ← io_wait;
  _ ← out8 PIC2_DATA (PIC_IRQ_VECTOR_OFFSET + 8);
  _ ← io_wait;
  _ ← out8 PIC1_DATA 4;
  _ ← io_wait;
  _ ← out8 PIC2_DATA 2;
  _ ← io_wait;
  _ ← out8 PIC1_DATA ICW4_8086;
  _ ← io_wait;
  _ ← out8 PIC2_DATA ICW4_8086;
  _ ← io_wait;
  _ ← out8 PIC1_DATA parentMasks;
  _ ← io_wait;
  _ ← out8 PIC2_DATA childMasks;
  io_wait.

End Driver.

(** ** The chip

    An 8259: its mask, the vector of its first line, and how many of the four words of
    its initialisation it still waits for. A command with bit 4 set starts it and
    clears the mask; written data are then the other words, and the mask afterwards. *)
Record chip := mkChip { mask : Z; vector : Z; waiting : nat }.

Definition command_write (v : Z) (c : chip) : chip := if Z.testbit v 4 then mkChip 0 (vector c) 3 else c.

Definition data_write (v : Z) (c : chip) : chip :=
  match waiting c with
  | O => mkChip v (vector c) 0
  | 3%nat => mkChip (mask c) v 2
  | S n => mkChip (mask c) (vector c) n
  end.

Class Chips (D : Type) `{PortBus D} := {
  pic1 : D -> chip;
  pic2 : D -> chip;
  read_mask1 d : waiting (pic1 d) = 0%nat -> (in8 PIC1_DATA d).1 = mask (pic1 d);
  read_mask2 d : waiting (pic2 d) = 0%nat -> (in8 PIC2_DATA d).1 = mask (pic2 d);
  read_keeps p d : p = PIC1_DATA \/ p = PIC2_DATA -> pic1 (in8 p d).2 = pic1 d /\ pic2 (in8 p d).2 = pic2 d;
  command1 v d : 0 <= v < 256 -> pic1 (out8 PIC1_COMMAND v d).2 = command_write v (pic1 d) /\ pic2 (out8 PIC1_COMMAND v d).2 = pic2 d;
  command2 v d : 0 <= v < 256 -> pic2 (out8 PIC2_COMMAND v d).2 = command_write v (pic2 d) /\ pic1 (out8 PIC2_COMMAND v d).2 = pic1 d;
  data1 v d : 0 <= v < 256 -> pic1 (out8 PIC1_DATA v d).2 = data_write v (pic1 d) /\ pic2 (out8 PIC1_DATA v d).2 = pic2 d;
  data2 v d : 0 <= v < 256 -> pic2 (out8 PIC2_DATA v d).2 = data_write v (pic2 d) /\ pic1 (out8 PIC2_DATA v d).2 = pic1 d;
  wait_keeps d : pic1 (io_wait d).2 = pic1 d /\ pic2 (io_wait d).2 = pic2 d
}.

Section Masks.
Context {D : Type} `{Chips D}.

Definition ready (d : D) : Prop := waiting (pic1 d) = 0%nat /\ waiting (pic2 d) = 0%nat.

(** The mask bit of a line of the two cascaded chips. *)
Definition masked (irq : Z) (d : D) : bool := if irq <? 8 then Z.testbit (mask (pic1 d)) irq else Z.testbit (mask (pic2 d)) (irq - 8).

Lemma ldiff_bit v i j : 0 <= i -> 0 <= j -> Z.testbit (Z.ldiff v (Z.shiftl 1 i)) j = Z.testbit v j && negb (j =? i).
Proof.
  intros Hi Hj. rewrite Z.ldiff_spec. f_equal. f_equal. rewrite Z.shiftl_1_l, Z.pow2_bits_eqb by done. apply Z.eqb_sym.
Qed.

Lemma lor_bit v i j : 0 <= i -> 0 <= j -> Z.testbit (Z.lor v (Z.shiftl 1 i)) j = Z.testbit v j || (j =? i).
Proof. intros Hi Hj. rewrite Z.lor_spec. f_equal. rewrite Z.shiftl_1_l, Z.pow2_bits_eqb by done. apply Z.eqb_sym. Qed.

Lemma eqb_shift j i : (j - 8 =? i - 8) = (j =? i).
Proof. destruct (Z.eqb_spec (j - 8) (i - 8)), (Z.eqb_spec j i); lia || done. Qed.

Lemma ldiff_byte v b : 0 <= v < 256 -> 0 <= Z.ldiff v b < 256.
Proof. intros Hv. by apply (ldiff_below 8). Qed.

Lemma lor_byte v i : 0 <= v < 256 -> 0 <= i < 8 -> 0 <= Z.lor v (Z.shiftl 1 i) < 256.
Proof.
  intros Hv Hi. apply (lor_below 8); [lia|done|]. rewrite Z.shiftl_1_l. split; [lia|]. apply Z.pow_lt_mono_r; lia.
Qed.

(** The mask that is written back to a chip. *)
Lemma update_mask f irq d : ready d -> 0 <= irq <= 15 -> (forall v, 0 <= v < 256 -> 0 <= f v < 256) ->
  let '(port, i) := if irq <? 8 then (PIC1_DATA, irq) else (PIC2_DATA, irq - 8) in
  let d' := ((value ← in8 port; out8 port (f value)) : io D unit) d in
  ready d'.2 /\ mask (pic1 d'.2) = (if irq <? 8 then f (mask (pic1 d)) else mask (pic1 d)) /\ mask (pic2 d'.2) = (if irq <? 8 then mask (pic2 d) else f (mask (pic2 d))).
Proof.
  intros [R1 R2] Hi Hf. destruct (irq <? 8).
  - destruct (read_keeps PIC1_DATA d (or_introl eq_refl)) as [K1 K2]. pose proof (in8_range PIC1_DATA d) as Hr. rewrite (read_mask1 d R1) in Hr. io_run. rewrite (read_mask1 d R1).
    destruct (data1 (f (mask (pic1 d))) (in8 PIC1_DATA d).2 (Hf _ Hr)) as [E1 E2]. unfold ready. rewrite E1, E2, K1, K2. unfold data_write. rewrite R1. done.
  - destruct (read_keeps PIC2_DATA d (or_intror eq_refl)) as [K1 K2]. pose proof (in8_range PIC2_DATA d) as Hr. rewrite (read_mask2 d R2) in Hr. io_run. rewrite (read_mask2 d R2).
    destruct (data2 (f (mask (pic2 d))) (in8 PIC2_DATA d).2 (Hf _ Hr)) as [E1 E2]. unfold ready. rewrite E1, E2, K1, K2. unfold data_write. rewrite R2. done.
Qed.

(** What each operation does to each chip. *)
Lemma p1_wait d : pic1 (io_wait d).2 = pic1 d. Proof. apply wait_keeps. Qed.
Lemma p2_wait d : pic2 (io_wait d).2 = pic2 d. Proof. apply wait_keeps. Qed.
Lemma p1_read1 d : pic1 (in8 PIC1_DATA d).2 = pic1 d. Proof. apply read_keeps. by left. Qed.
Lemma p2_read1 d : pic2 (in8 PIC1_DATA d).2 = pic2 d. Proof. apply read_keeps. by left. Qed.
Lemma p1_read2 d : pic1 (in8 PIC2_DATA d).2 = pic1 d. Proof. apply read_keeps. by right. Qed.
Lemma p2_read2 d : pic2 (in8 PIC2_DATA d).2 = pic2 d. Proof. apply read_keeps. by right. Qed.
Lemma p1_data1 v d : 0 <= v < 256 -> pic1 (out8 PIC1_DATA v d).2 = data_write v (pic1 d). Proof. apply data1. Qed.
Lemma p2_data1 v d : 0 <= v < 256 -> pic2 (out8 PIC1_DATA v d).2 = pic2 d. Proof. apply data1. Qed.
Lemma p1_data2 v d : 0 <= v < 256 -> pic1 (out8 PIC2_DATA v d).2 = pic1 d. Proof. apply data2. Qed.
Lemma p2_data2 v d : 0 <= v < 256 -> pic2 (out8 PIC2_DATA v d).2 = data_write v (pic2 d). Proof. apply data2. Qed.
Lemma p1_command1 v d : 0 <= v < 256 -> pic1 (out8 PIC1_COMMAND v d).2 = command_write v (pic1 d). Proof. apply command1. Qed.
Lemma p2_command1 v d : 0 <= v < 256 -> pic2 (out8 PIC1_COMMAND v d).2 = pic2 d. Proof. apply command1. Qed.
Lemma p1_command2 v d : 0 <= v < 256 -> pic1 (out8 PIC2_COMMAND v d).2 = pic1 d. Proof. apply command2. Qed.
Lemma p2_command2 v d : 0 <= v < 256 -> pic2 (out8 PIC2_COMMAND v d).2 = command_write v (pic2 d). Proof. apply command2. Qed.

Ltac pic_byte := first [assumption | split; [by vm_compute | by vm_compute]].
Ltac pic_run :=
  repeat first [rewrite p1_wait | rewrite p2_wait | rewrite p1_read2 | rewrite p2_read2
    | rewrite p1_data1 by pic_byte | rewrite p2_data1 by pic_byte | rewrite p1_data2 by pic_byte | rewrite p2_data2 by pic_byte
    | rewrite p1_command1 by pic_byte | rewrite p2_command1 by pic_byte | rewrite p1_command2 by pic_byte | rewrite p2_command2 by pic_byte].

(** ** Claims *)

(** C33: The masks of the two chips are a set of sixteen lines: enabling a line takes it
    out, disabling puts it in, and other numbers change nothing. [disable_all_interrupts]
    takes out every line: all interrupts are enabled. *)
Theorem irq_masks_are_a_set irq j d : ready d -> 0 <= irq -> 0 <= j <= 15 ->
  masked j (enable_interrupt irq d).2 = masked j d && negb (j =? irq) /\
  masked j (disable_interrupt irq d).2 = masked j d || (j =? irq) /\
  masked j (disable_all_interrupts d).2 = false.
Proof.
  intros R Hi Hj. split_and!.
  - unfold enable_interrupt. destruct (Z.ltb_spec 15 irq) as [Hbig|Hsmall].
    { cbn. rewrite (proj2 (Z.eqb_neq j irq)) by lia. by rewrite andb_true_r. }
    destruct (Z.ltb_spec irq 8) as [Hi8|Hi8]; pose proof (update_mask (fun v => Z.ldiff v (Z.shiftl 1 (if irq <? 8 then irq else irq - 8))) irq d R ltac:(lia) (fun v => ldiff_byte v _)) as Hu;
      [rewrite (proj2 (Z.ltb_lt irq 8) Hi8) in Hu|rewrite (proj2 (Z.ltb_ge irq 8) Hi8) in Hu]; destruct Hu as (_ & E1 & E2); unfold masked; rewrite E1, E2; destruct (Z.ltb_spec j 8);
      rewrite ?ldiff_bit by lia; rewrite ?eqb_shift; try done; rewrite (proj2 (Z.eqb_neq j irq)) by lia; by rewrite andb_true_r.
  - unfold disable_interrupt. destruct (Z.ltb_spec 15 irq) as [Hbig|Hsmall].
    { cbn. rewrite (proj2 (Z.eqb_neq j irq)) by lia. by rewrite orb_false_r. }
    destruct (Z.ltb_spec irq 8) as [Hi8|Hi8]; pose proof (update_mask (fun v => Z.lor v (Z.shiftl 1 (if irq <? 8 then irq else irq - 8))) irq d R ltac:(lia)) as Hu;
      [rewrite (proj2 (Z.ltb_lt irq 8) Hi8) in Hu|rewrite (proj2 (Z.ltb_ge irq 8) Hi8) in Hu]; (destruct Hu as (_ & E1 & E2); [intros v Hv; apply lor_byte; lia|]); unfold masked; rewrite E1, E2; destruct (Z.ltb_spec j 8);
      rewrite ?lor_bit by lia; rewrite ?eqb_shift; try done; rewrite (proj2 (Z.eqb_neq j irq)) by lia; by rewrite orb_false_r.
  - unfold disable_all_interrupts. io_run. destruct R as [R1 R2]. destruct (data1 0 d ltac:(lia)) as [E1 E2]. destruct (data2 0 (out8 PIC1_DATA 0 d).2 ltac:(lia)) as [E3 E4].
    unfold masked. rewrite E3, E4, E1, E2. unfold data_write. rewrite R1, R2. cbn [mask]. rewrite !Z.bits_0. by destruct (j <? 8).
Qed.

(** After [remap_pic] the two chips are ready again, raise the vectors from 32 and from
    40 on, and have the masks they had. *)
Theorem remap_keeps_the_masks d : ready d ->
  pic1 (remap_pic d).2 = mkChip (mask (pic1 d)) PIC_IRQ_VECTOR_OFFSET 0 /\ pic2 (remap_pic d).2 = mkChip (mask (pic2 d)) (PIC_IRQ_VECTOR_OFFSET + 8) 0.
Proof.
  intros [R1 R2]. unfold remap_pic. io_run.
  assert (E1 : (in8 PIC1_DATA d).1 = mask (pic1 d)) by (by apply read_mask1). pose proof (in8_range PIC1_DATA d) as H1. rewrite E1 in *.
  set (d1 := (io_wait (in8 PIC1_DATA d).2).2). assert (P1 : pic1 d1 = pic1 d) by (unfold d1; by rewrite p1_wait, p1_read1). assert (P2 : pic2 d1 = pic2 d) by (unfold d1; by rewrite p2_wait, p2_read1). clearbody d1.
  assert (E2 : (in8 PIC2_DATA d1).1 = mask (pic2 d)) by (rewrite <- P2; apply read_mask2; by rewrite P2). pose proof (in8_range PIC2_DATA d1) as H2. rewrite E2 in *.
  split; pic_run; rewrite ?P1, ?P2; reflexivity.
Qed.

End Masks.

(** Two chips, and nothing else at the ports. *)
#[export] Instance chips_bus : PortBus (chip * chip) := {
  bus_read _ p d := (if p =? PIC1_DATA then mask d.1 mod 256 else if p =? PIC2_DATA then mask d.2 mod 256 else 0, d);
  bus_write _ p v d :=
    if p =? PIC1_COMMAND then (command_write v d.1, d.2) else if p =? PIC1_DATA then (data_write v d.1, d.2)
    else if p =? PIC2_COMMAND then (d.1, command_write v d.2) else if p =? PIC2_DATA then (d.1, data_write v d.2) else d
}.

(** A mask is a byte. *)
Definition norm (c : chip) : chip := mkChip (mask c mod 256) (vector c) (waiting c).

Lemma norm_data v c : 0 <= v < 256 -> norm (data_write v c) = data_write v (norm c).
Proof.
  intros Hv. unfold norm, data_write. destruct c as [k w [|[|[|[|n]]]]]; cbn [waiting mask vector]; try done. by rewrite Z.mod_small.
Qed.

Lemma norm_command v c : norm (command_write v c) = command_write v (norm c).
Proof. unfold norm, command_write. by destruct (Z.testbit v 4). Qed.

Lemma wrap8_byte v : 0 <= v < 256 -> wrap8 v = v.
Proof. apply Z.mod_small. Qed.

#[export, refine] Instance two_chips : Chips (chip * chip) := { pic1 d := norm d.1; pic2 d := norm d.2 }.
Proof.
  - intros d _. apply (Z.mod_mod _ 256). done.
  - intros d _. apply (Z.mod_mod _ 256). done.
  - done.
  - intros v d Hv. unfold out8. cbn [snd fst]. rewrite wrap8_byte by done. split; [apply norm_command|done].
  - intros v d Hv. unfold out8. cbn [snd fst]. rewrite wrap8_byte by done. split; [apply norm_command|done].
  - intros v d Hv. unfold out8. cbn [snd fst]. rewrite wrap8_byte by done. split; [by apply norm_data|done].
  - intros v d Hv. unfold out8. cbn [snd fst]. rewrite wrap8_byte by done. split; [by apply norm_data|done].
  - done.
Defined.

Definition after_reset : chip * chip := (mkChip 0xfb 8 0, mkChip 0xff 0x70 0).

Lemma irq_masks_are_a_set_witness :
  masked 1 (enable_interrupt 1 after_reset).2 = false /\ masked 3 (disable_interrupt 1 after_reset).2 = true /\ masked 3 (disable_all_interrupts after_reset).2 = false.
Proof.
  assert (R : ready after_reset) by done. split_and!; [destruct (irq_masks_are_a_set 1 1 after_reset R) as (-> & _); [lia|lia|done]|
    destruct (irq_masks_are_a_set 1 3 after_reset R) as (_ & -> & _); [lia|lia|done]|destruct (irq_masks_are_a_set 1 3 after_reset R) as (_ & _ & ->); [lia|lia|done]].
Defined.

Lemma remap_keeps_the_masks_witness : pic1 (remap_pic after_reset).2 = mkChip 0xfb 32 0 /\ pic2 (remap_pic after_reset).2 = mkChip 0xff 40 0.
Proof. destruct (remap_keeps_the_masks after_reset) as [E1 E2]; [done|]. rewrite E1, E2. done. Defined.

End Pic.

(** ** The handlers *)

Module Handlers.

(** A keyboard controller: the scan codes that wait to be read at port 0x60. *)
Class KeySource (D : Type) `{PortBus D} := {
  pending : D -> list Z;
  key_read d c cs : pending d = c :: cs -> (bus_read 8 0x60 d).1 = c /\ pending (bus_read 8 0x60 d).2 = cs;
  key_write w p v d : pending (bus_write w p v d) = pending d
}.

Section Handlers.
Context {Dev : Type} `{!StorageDevices Dev} (fresh : nat -> list Z) (fuel : nat).
Context {D : Type} `{!PortBus D}.
#[local] Instance handler_drivers : Drivers (@Kernel.drivers Dev) := Kernel.kernel_drivers fresh fuel.
Notation kern := (Life.kernel (@Kernel.drivers Dev)).

(** The kernel, the process that [SYSTEM->init_process()] returns (null before there is
    one), the static [State] of [handle_scancode_input], the ticks of the two clocks,
    whether the serial port is initialised, and the devices. *)
Record world := mkWorld {
  kernel : kern;
  InitProcess : Z;
  keys : KeyboardState;
  pit_Ticks : Z;
  rtc_Ticks : Z;
  serial : bool;
  ports : D
}.

Definition with_kernel (k : kern) (w : world) : world := mkWorld k (InitProcess w) (keys w) (pit_Ticks w) (rtc_Ticks w) (serial w) (ports w).
Definition with_keys (k : KeyboardState) (w : world) : world := mkWorld (kernel w) (InitProcess w) k (pit_Ticks w) (rtc_Ticks w) (serial w) (ports w).
Definition with_ticks (pit rtc : Z) (w : world) : world := mkWorld (kernel w) (InitProcess w) (keys w) pit rtc (serial w) (ports w).
Definition with_ports (d : D) (w : world) : world := mkWorld (kernel w) (InitProcess w) (keys w) (pit_Ticks w) (rtc_Ticks w) (serial w) d.

Definition run {A} (p : io D A) (w : world) : A * world := let '(a, d) := p (ports w) in (a, with_ports d w).

(** The byte is written from the stack of the handler, at [stack]. *)
Definition handle_direct_input (stack input : Z) (w : world) : outcome world :=
  if input =? 0 then Done w
  else if InitProcess w =? 0 then Done w
  else
    let k := kernel w in
    init ← proc (InitProcess w) (Life.k_sched k);
    sysfd ← deref (Sparse.get 0 (Process.FileDescriptors init));
    let f := Vfs.file sysfd (Life.k_vfs k) in
    if f =? 0 then Done w
    else
      meta ← Store.get f (Vfs.metas (Life.k_vfs k));
      drv ← deref (FileDriver meta);
      '(_, ds) ← drv_write drv meta 0 1 stack (Life.files k) (store_bytes stack [input] (Life.k_mem k));
      Done (with_kernel (Life.with_files (Life.k_vfs k) ds k) w).

Definition handle_scancode_input (stack scancode : Z) (w : world) : outcome world :=
  match modifier scancode (keys w) with
  | Some k => Done (with_keys k w)
  | None =>
      translated ← QWERTY.Translate scancode (capital (keys w));
      if translated =? 0 then Done w else handle_direct_input stack translated w
  end.

(** [PIT::tick] *)
Definition system_timer_handler (w : world) : outcome world :=
  let w := with_ticks (pit_Ticks w +64 1) (rtc_Ticks w) w in
  Done (run (Pic.end_of_interrupt 0) w).2.

Definition keyboard_handler (stack : Z) (w : world) : outcome world :=
  let '(scancode, w) := run (in8 0x60) w in
  w ← handle_scancode_input stack scancode w;
  Done (run (Pic.end_of_interrupt 1) w).2.

Definition uart_com1_handler (stack : Z) (w : world) : outcome world :=
  let '(data, w) := run (Uart.read (serial w)) w in
  w ← (if (data =? 10) || (data =? 8) || (data =? 7) || ((32 <=? data) && (data <=? 126)) then handle_direct_input stack data w else Done w);
  Done (run (Pic.end_of_interrupt 4) w).2.

Definition rtc_handler (w : world) : outcome world :=
  let '(_, w) := run (out8 0x70 0x0c) w in
  let '(statusC, w) := run (in8 0x71) w in
  let w := if Z.land statusC 64 =? 0 then w else with_ticks (pit_Ticks w) (rtc_Ticks w +64 1) w in
  Done (run (Pic.end_of_interrupt 8) w).2.

Definition mouse_handler (w : world) : outcome world :=
  let '(_, w) := run (in8 0x60) w in
  Done (run (Pic.end_of_interrupt 12) w).2.

(** So many interrupts of the keyboard. *)
Fixpoint key_interrupts (n : nat) (stack : Z) (w : world) : outcome world :=
  match n with
  | O => Done w
  | S n => w ← keyboard_handler stack w; key_interrupts n stack w
  end.

(** ** What is typed *)

(** The first process has an input file as its standard input, with [i] in its buffer. *)
Record stdin_open (w : world) (f : Z) (meta : FileMetadata) (i : Input.InputBuffer) (ns ps : list Z) : Prop := {
  so_init : InitProcess w ≠ 0;
  so_process : exists p fd, procs (Life.k_sched (kernel w)) !! InitProcess w = Some p /\ Sparse.get 0 (Process.FileDescriptors p) = Some fd /\
    Vfs.file fd (Life.k_vfs (kernel w)) = f;
  so_file : f ≠ 0 /\ Store.objs (Vfs.metas (Life.k_vfs (kernel w))) !! f = Some meta;
  so_driver : FileDriver meta = Some FileMeta.InputDriver /\ DriverData meta ≠ 0;
  so_buffer : Store.objs (Input.inputs (Kernel.inputs (Life.k_drivers (kernel w)))) !! DriverData meta = Some i;
  so_ok : Input.input_ok i;
  so_queue : queue_ok (Life.k_sched (kernel w)) ns ps
}.

Lemma stdin_open_ext w w' f meta i ns ps : kernel w' = kernel w -> InitProcess w' = InitProcess w -> stdin_open w f meta i ns ps -> stdin_open w' f meta i ns ps.
Proof. intros E1 E2 []. split; rewrite ?E1, ?E2; done. Qed.

(** A character goes to the end of the buffer when there is room. *)
Lemma direct_input_spec stack c w f meta i ns ps : stdin_open w f meta i ns ps -> 0 < c < 256 -> Z.of_nat (length (Input.typed i)) < Input.INPUT_BUFSZ ->
  exists w' i', handle_direct_input stack c w = Done w' /\ stdin_open w' f meta i' ns ps /\ Input.typed i' = Input.typed i ++ [c] /\ keys w' = keys w /\ ports w' = ports w.
Proof.
  intros [Hi (p & fd & Hp & Hfd & Hf) [Hf0 Hm] [Hd H0] Hb Hok Q] Hc Hroom. unfold handle_direct_input. rewrite (proj2 (Z.eqb_neq c 0)), (proj2 (Z.eqb_neq _ _) Hi) by lia.
  unfold proc, Store.get. rewrite Hp. cbn [mbind outcome_bind deref]. rewrite Hfd. cbn [mbind outcome_bind deref]. rewrite Hf, (proj2 (Z.eqb_neq _ _) Hf0), Hm. cbn [mbind outcome_bind deref]. rewrite Hd. cbn [mbind outcome_bind deref].
  unfold drv_write, handler_drivers, Kernel.kernel_drivers, Kernel.drivers_write, Life.files.
  set (m := store_bytes stack [c] (Life.k_mem (kernel w))).
  destruct (Input.input_write_spec meta (Kernel.inputs (Life.k_drivers (kernel w))) i (Life.k_sched (kernel w)) ns ps Hb Hok H0 Q 1 stack m ltac:(lia)) as (i' & s' & -> & Hok' & Ht & _ & Hw).
  cbn [mbind outcome_bind]. eexists _, i'. split; [reflexivity|].
  assert (Hlen : Input.Offset i < Input.INPUT_BUFSZ).
  { pose proof (fo_offset _ _ _ Hok). pose proof (fo_length _ _ _ Hok). unfold Input.typed, queued in Hroom. rewrite length_take in Hroom. lia. }
  rewrite Z.min_l in Ht by lia. change (Z.to_nat 1) with (length [c]) in Ht. unfold m in Ht. rewrite load_store_bytes in Ht by (constructor; [unfold is_byte; lia|constructor]).
  pose proof (Life.woken_same_tables _ _ _ _ Hw) as Hsame. pose proof (woken_queue_ok _ _ _ _ _ _ Hw Q) as Q'. destruct Hw as [Es Hw]. split_and!; [|done|done|done].
  split; cbn; [done| |done|done|apply lookup_insert_eq|done|done].
  destruct (procs s' !! InitProcess w) as [p'|] eqn:Hp'.
  - exists p', fd. split_and!; [done| |done]. specialize (Hw (InitProcess w)). rewrite Hp, Hp' in Hw. cbn in Hw. case_match; simplify_eq/=; done.
  - exfalso. specialize (Hw (InitProcess w)). rewrite Hp, Hp' in Hw. cbn in Hw. by case_match.
Qed.

End Handlers.

Section Typing.
Context {Dev : Type} `{!StorageDevices Dev} (fresh : nat -> list Z) (fuel : nat).
Context {D : Type} `{!PortBus D, !KeySource D}.
Notation world := (@world Dev (traced D)).

(** The key with this code types its character, after the codes [past]. *)
Definition char_of (k : KeyboardState) (past : list Z) (code : Z) : list Z := option_list (Typing.key_char (Typing.shifted k past) code).

Lemma scancode_input_spec stack k past code (w : world) f meta i ns ps :
  stdin_open w f meta i ns ps -> keys w = Typing.state_after k past -> 0 <= code < 256 ->
  Z.of_nat (length (Input.typed i ++ char_of k past code)) <= Input.INPUT_BUFSZ ->
  exists w' i', handle_scancode_input fresh fuel stack code w = Done w' /\ stdin_open w' f meta i' ns ps /\
    Input.typed i' = Input.typed i ++ char_of k past code /\ ports w' = ports w /\ keys w' = Typing.state_after k (past ++ [code]).
Proof.
  intros S Hk Hc Hroom. unfold handle_scancode_input. rewrite Typing.modifier_state, <- Hk. unfold char_of in *.
  pose proof (Typing.translate_key (keys w) code (Typing.shifted k past) Hc) as T. destruct (modifier code (keys w)) as [k'|] eqn:Em.
  - exists (with_keys k' w), i. rewrite T, app_nil_r. split_and!; [done|by apply (stdin_open_ext w)|done|done|done].
  - destruct (QWERTY.scancode_translates code (Typing.shifted k past) (proj1 Hc) (modifier_none _ _ Em)) as (ch & Et & Hch).
    rewrite Hk, Typing.capital_after, Et. cbn [mbind outcome_bind]. rewrite Et in T. destruct T as [[= E] T0].
    destruct (Typing.key_char _ code) as [x|]; cbn in E; subst ch; [|exists w, i; by rewrite app_nil_r]. cbn [option_list] in *.
    rewrite (proj2 (Z.eqb_neq x 0)) by congruence. rewrite length_app in Hroom. cbn in Hroom.
    destruct (direct_input_spec fresh fuel stack x w f meta i ns ps S) as (w' & i' & E & S' & Ht & Hk' & Hp); [split; [assert (x ≠ 0) by congruence|]; lia|lia|].
    exists w', i'. split_and!; try done. by rewrite Hk'.
Qed.

Lemma acknowledge (t : traced D) : Pic.end_of_interrupt 1 t = (tt, mkTraced (bus_write 8 0x20 0x20 (device t)) (writes t ++ [(0x20, 0x20)])).
Proof. reflexivity. Qed.

(** One key: its code is read, its character typed, and the interrupt acknowledged. *)
Lemma keyboard_handler_spec stack k past (w : world) f meta i ns ps c cs :
  stdin_open w f meta i ns ps -> keys w = Typing.state_after k past -> pending (device (ports w)) = c :: cs -> 0 <= c < 256 ->
  Z.of_nat (length (Input.typed i ++ char_of k past c)) <= Input.INPUT_BUFSZ ->
  exists w' i', keyboard_handler fresh fuel stack w = Done w' /\ stdin_open w' f meta i' ns ps /\ Input.typed i' = Input.typed i ++ char_of k past c /\
    pending (device (ports w')) = cs /\ writes (ports w') = writes (ports w) ++ [(0x20, 0x20)] /\ keys w' = Typing.state_after k (past ++ [c]).
Proof.
  intros S Hk Hpend Hc Hroom. unfold keyboard_handler, run, in8. cbn [bus_read traced_bus]. change (wrap16 0x60) with 0x60. destruct (key_read (device (ports w)) c cs Hpend) as [E1 E2].
  destruct (bus_read 8 0x60 (device (ports w))) as [v d1]. cbn [fst snd] in E1, E2. subst v. change (wrap8 c) with (c mod 256). rewrite (Z.mod_small c) by done.
  set (w1 := with_ports (mkTraced d1 (writes (ports w))) w). assert (S1 : stdin_open w1 f meta i ns ps) by (by apply (stdin_open_ext w)).
  destruct (scancode_input_spec stack k past c w1 f meta i ns ps S1) as (w2 & i' & -> & S2 & Ht & Hp & Hk2); [done|done|done|]. cbn [mbind outcome_bind]. eexists _, i'. split; [reflexivity|].
  split_and!; [by apply (stdin_open_ext w2)|done| | |done]; rewrite acknowledge, Hp; cbn [snd ports with_ports device writes]; [rewrite key_write|]; done.
Qed.

(** A run of keys, after the codes [past]. *)
Lemma key_interrupts_spec stack k past codes rest (w : world) f meta i ns ps :
  stdin_open w f meta i ns ps -> keys w = Typing.state_after k past -> pending (device (ports w)) = codes ++ rest -> Forall (fun c => 0 <= c < 256) codes ->
  Z.of_nat (length (Input.typed i ++ Typing.typed_after k past codes)) <= Input.INPUT_BUFSZ ->
  exists w' i', key_interrupts fresh fuel (length codes) stack w = Done w' /\ stdin_open w' f meta i' ns ps /\
    Input.typed i' = Input.typed i ++ Typing.typed_after k past codes /\ pending (device (ports w')) = rest /\
    writes (ports w') = writes (ports w) ++ replicate (length codes) (0x20, 0x20).
Proof.
  intros S Hk Hpend Hc. revert past w i S Hk Hpend. induction Hc as [|c codes Hc Hcs IH]; intros past w i S Hk Hpend Hroom.
  { exists w, i. cbn. by rewrite !app_nil_r. }
  cbn [Typing.typed_after] in *. fold (char_of k past c) in *. rewrite app_assoc in Hroom.
  destruct (keyboard_handler_spec stack k past w f meta i ns ps c (codes ++ rest) S Hk Hpend Hc) as (w1 & i1 & E1 & S1 & Ht1 & Hp1 & Hw1 & Hk1); [rewrite length_app in Hroom; lia|].
  destruct (IH (past ++ [c]) w1 i1 S1 Hk1 Hp1) as (w2 & i2 & E2 & S2 & Ht2 & Hp2 & Hw2); [by rewrite Ht1|].
  exists w2, i2. cbn [key_interrupts length]. rewrite E1. cbn [mbind outcome_bind]. split_and!; [done|done| |done|].
  - by rewrite Ht2, Ht1, <- app_assoc.
  - by rewrite Hw2, Hw1, <- app_assoc.
Qed.

(** ** Claims *)

(** C31: Keys reach the first process: after so many interrupts of the keyboard its standard
    input holds the characters of the keys, in order, after what was there, provided
    they fit into its buffer, and every interrupt has been acknowledged. The
    character of a key is the one printed on it: the upper one if a shift key is down,
    as its last press or release tells, or caps lock was pressed an odd number of
    times, and the lower one otherwise; enter and backspace count as newline and
    backspace without shift and as nothing with it. *)
Theorem keys_reach_standard_input stack codes rest (w : world) f meta i ns ps :
  stdin_open w f meta i ns ps -> pending (device (ports w)) = codes ++ rest -> Forall (fun c => 0 <= c < 256) codes ->
  Z.of_nat (length (Input.typed i ++ Typing.typed_chars (keys w) codes)) <= Input.INPUT_BUFSZ ->
  exists w' i', key_interrupts fresh fuel (length codes) stack w = Done w' /\ stdin_open w' f meta i' ns ps /\
    Input.typed i' = Input.typed i ++ Typing.typed_chars (keys w) codes /\ pending (device (ports w')) = rest /\
    writes (ports w') = writes (ports w) ++ replicate (length codes) (Pic.PIC1_COMMAND, Pic.PIC_EOI).
Proof.
  intros S Hpend Hc Hroom. apply (key_interrupts_spec stack (keys w) []); try done. unfold Typing.state_after. destruct (keys w) as [l r []]; reflexivity.
Qed.

End Typing.

(** ** The claims at work *)

(** A controller that has been typed at. *)
#[export] Instance key_bus : PortBus (list Z) := {
  bus_read _ p d := if p =? 0x60 then (hd 0 d, tl d) else (0, d);
  bus_write _ _ _ d := d
}.

#[export, refine] Instance key_queue : KeySource (list Z) := { pending d := d }.
Proof.
  - intros d c cs ->. done.
  - done.
Defined.

#[local] Existing Instance Kernel.no_devices.
#[local] Existing Instance Kernel.system_drivers.
#[local] Existing Instance Kernel.system_laws.

(** The current process of the example system is the first one; it has opened an input file. *)
Definition at_prompt : @world unit (traced (list Z)) :=
  mkWorld (Life.mkKernel Kernel.w1.1.1 Kernel.w1.1.2 Kernel.w1.2 FrameAlloc.fresh (fun _ => 0) (fun _ => 0) Scheduler.idle) 512 no_keys 0 0 false
    (mkTraced [0x2a; 35; 0xaa; 23; 28] []).

Definition prompt_file : FileMetadata := make_meta Regular "a" FileMeta.InputDriver Input.INPUT_BUFSZ 1.

Lemma prompt_open : stdin_open at_prompt 1 prompt_file Input.new_input [1; 2; 3] [512; 1024; 1536].
Proof.
  split; [done| |done|done|vm_compute; done|apply Input.new_input_ok|].
  - eexists _, _. split; [vm_compute; reflexivity|]. split; [vm_compute; reflexivity|vm_compute; reflexivity].
  - apply (Vfs.step_ok _ _ _ _ Kernel.step_w1). split; [exact Kernel.boot_ok|apply trio_ok].
Qed.

Lemma keys_reach_standard_input_witness :
  exists w' i', key_interrupts (fun n => replicate n 0) 0 5 4096 at_prompt = Done w' /\ stdin_open w' 1 prompt_file i' [1; 2; 3] [512; 1024; 1536] /\ Input.typed i' = [72; 105; 10].
Proof.
  destruct (keys_reach_standard_input (fun n => replicate n 0) 0 4096 [0x2a; 35; 0xaa; 23; 28] [] at_prompt 1 prompt_file Input.new_input [1; 2; 3] [512; 1024; 1536] prompt_open)
    as (w' & i' & E & S & Ht & _); [done|repeat constructor; lia|vm_compute; discriminate|]. exists w', i'. split; [exact E|]. split; [exact S|]. rewrite Ht. vm_compute. reflexivity.
Defined.

End Handlers.

(** ** The network card

    The constructor of [E1000] and the handler of its interrupt. *)
Module NetworkCard.

Import E1000.

Definition IDT_TA_InterruptGate : Z := Z.lor 0x80 0xe.

(** RX timer, overrun, threshold and sequence error, link status, TX queue empty,
    written back and threshold. *)
Definition IMASK : Z :=
  foldr Z.lor 0 [Z.shiftl 1 7; Z.shiftl 1 6; Z.shiftl 1 4; Z.shiftl 1 3; Z.shiftl 1 2; Z.shiftl 1 1; 1; Z.shiftl 1 15].
Definition RCTL_ENABLE : Z := Z.shiftl 1 1.
Definition TCTL_EN : Z := Z.shiftl 1 1.

(** A fresh object for the PCI header at [hdr]. *)
Definition card_at (m : mem) (hdr : Z) : nic :=
  mkNic (read_le 2 m hdr) (read_le 2 m (hdr + 2)) (read_le 4 m (hdr + 16)) (read8 m (hdr + 60)) 0 0 0 0 Memory 0 false 0 0 [0; 0; 0; 0; 0; 0].

(** Bus mastering on, interrupts not disabled. *)
Definition set_command (m : mem) (hdr : Z) : mem :=
  let m := write_le 2 m (hdr + 4) (Z.lor (read_le 2 m (hdr + 4)) (Z.shiftl 1 2)) in
  write_le 2 m (hdr + 4) (Z.ldiff (read_le 2 m (hdr + 4)) (Z.shiftl 1 10)).

Section Constructor.
Context {D : Type} `{PortBus D, Mmio D}.

(** The end of the constructor: the interrupts, the receiver and the transmitter. *)
Definition enable_card (e : nic) : io D unit :=
  _ ← Pic.enable_interrupt (irq_number e);
  _ ← write_command e REG_IMASK_CLEAR 0xffffffff;
  _ ← write_command e REG_IMASK IMASK;
  _ ← read_command e REG_ICR;
  c ← read_command e REG_RX_CONTROL;
  _ ← write_command e REG_RX_CONTROL (Z.lor c RCTL_ENABLE);
  c ← read_command e REG_TCTL;
  write_command e REG_TCTL (Z.lor c TCTL_EN).

Definition new_E1000 (fuel : nat) (root : Z) (gIDT : Idt.IDTR) (e1000_interrupt_handler hdr : Z) (s : sys) : outcome sys :=
  if hdr =? 0 then Done s
  else
    s ← decode_base_address root (mkSys (card_at (memory s) hdr) (frames s) (memory s) (hw s));
    let m := set_command (memory s) hdr in
    let '(e, d) := detect_eeprom (card s) (hw s) in
    '(e, d) ← get_mac_address fuel e d;
    let '(_, d) := configure_device e d in
    s ← initialise_rx (mkSys e (frames s) m d);
    s ← initialise_tx s;
    let e := card s in
    let m := Idt.install_handler gIDT e1000_interrupt_handler (interrupt_line e) IDT_TA_InterruptGate 0x08 (memory s) in
    let '(_, d) := enable_card e (hw s) in
    Done (mkSys e (frames s) m d).

Definition e1000_interrupt_handler (fuel : nat) (s : sys) : outcome sys :=
  s ← handle_interrupt fuel s;
  Done (mkSys (card s) (frames s) (memory s) (Pic.end_of_interrupt (irq_number (card s)) (hw s)).2).

End Constructor.

End NetworkCard.
